(* ===== verification/_CoqProject ===== *)
-Q . S2P
Prelude.v
Heap.v
Gpio.v
Device.v
SensorDevice.v
Rcc.v
CFloat.v
Tim.v
HwTimer.v
Pwm.v
Adc.v
Json.v
JsonFormat.v
JsonStore.v
JsonPrinter.v
JsonEdit.v
Display.v
DataUpload.v
Actuators.v
ActuatorProps.v
Preemption.v
LedSample.v
RtList.v
Kernel.v
Threads.v
Ipc.v
Sensors.v
Climate.v
RingBuffer.v
Pipe.v
PipeDevice.v
MqttPacket.v
MqttClient.v
ClientPipe.v
MqttApp.v
JsonDocument.v
Session.v
Worker.v
AutoControl.v
Outbound.v
System.v
ClosedLoop.v
Boot.v
RemoteControl.v
Witnesses.v
