(* ===== verification/Prelude.v ===== *)
(** * The smart-building controller

    The program ([src/smart-building-mcu]) runs on an STM32F407 under RT-Thread. Its own
    code, [applications/src], samples a light sensor, a smoke sensor and a thermometer, keeps
    their values with the states of its devices and the thresholds in one shared structure,
    drives a buzzer with a warning lamp, a fan, a fill light and the servo of an emergency
    door, and talks JSON over MQTT with a server through
    [packages/pahomqtt-v1.1.0/samples/mqtt_sample.c]. Under it lie the MQTT client and packet
    library, cJSON, RT-Thread's device classes and the board's drivers. This development
    models that stack from the registers to the messages and proves what each layer promises
    to the next, up to the safety of the running controller.

    ** Conventions

    An operation of the code is a computation [M S A]: it takes a state of type [S] and
    yields a result and the next state, or a [fault] (a store or read out of bounds, a read of
    an uninitialised or freed object, a division by zero, a wait that does not end). [wp m s Q] says that [m] runs from
    [s] without a fault and ends in [Q]; so every theorem stated with [wp] includes that the
    code returns. A component's operations run inside a larger state through a [Lens] ([zoom]).
    Machine integers are [Z] with the wrap-around written out ([u8], [u16], [u32], [i32]);
    bytes are [Z] in lists. Recursion that is not structural has fuel, always with a proof
    that it is enough: the search of [timeout_calc] (256 steps; HwTimer.v), the
    remaining-length code (five digits; MqttPacket.v), the kernel's timer, waiting and
    defunct lists (one more than there are threads; Kernel.v, Ipc.v), the heap's chain of blocks (one more
    than the heap has bytes, and a block has at least sixteen; Heap.v), the JSON parser (fuel from the length of
    the text; [parse_total]), cJSON's nodes in memory (as many turns as there are blocks to delete,
    two for each to print; JsonStore.v, JsonPrinter.v), the two [recv] calls of [net_read], and the two rounds of the
    device-level pipe read and write.

    ** The files

    - Prelude.v: the monad, its triples and tactics, lenses, machine integers.
    - Heap.v: [rt-thread/src/mem.c], the allocator, on a memory of bytes. It serves its clients:
      the blocks are apart, keep their contents, and what is given back can be given again.
    - Gpio.v: [drivers/drv_gpio.c] and [rt-thread/components/drivers/misc/pin.c]. What the
      pads read, which handler an edge calls, and that a line belongs to one pin.
    - Device.v: [rt-thread/src/device.c], the name table of [object.c]. The class [DriverOk]
      is what a driver owes the open/close protocol; [standalone_protocol] is proved against it.
    - SensorDevice.v: [sensors/sensor.c], the device class of the sensors: a sensor among those
      of its module, its modes, its buffer and its interrupt.
    - Rcc.v: [SystemClock_Config] of [cubemx/Src/main.c] over [stm32f4xx_hal_rcc.c], the
      SysTick and the microsecond delay of [drivers/drv_common.c]. From reset the board runs at
      168 MHz with a tick of a millisecond, or waits for ever for a crystal that does not start.
    - CFloat.v: the single- and double-precision arithmetic the code uses, with rounding.
    - Tim.v, HwTimer.v, Pwm.v, Adc.v: the timer registers of the HAL and the three device
      classes with their STM32 drivers. The period of a started timer, the error of the PWM
      conversion.
    - Display.v: [my_oled.c], as the calls it makes to the display's package. Every text fits
      the array it is printed into.
    - DataUpload.v: [my_data_upload.c], the shared structure.
    - Actuators.v, ActuatorProps.v: [my_hwtimer.c], [my_multiThread.c],
      [my_pwm_ctrl_door.c] on a [board] of all drivers. [board_ok] says that fill light, fan
      and alarm timer agree with the states announced for them and that the warning lamp
      follows the buzzer, [door_ok] that the servo is driven at one of its positions; the
      class [Actuators] with [ActuatorsOk] is the interface the threads and callbacks are
      proved against. Two announced states are not those of an output: [LED0_State]
      ([warning_light_dark]) and, after a second opening, the door's ([door_left_ajar]).
    - Preemption.v: commands to the actuators as sequences of calls, interleaved with those of
      other threads and with interrupts: commands to different outputs do not disturb each
      other, and two commands to one output may leave it other than announced.
    - LedSample.v: [my_pwm.c], the shell's lamp sample: its pulse never wraps around.
    - RtList.v, Kernel.v, Threads.v: [rtservice.h], [scheduler.c], [thread.c], [timer.c],
      [clock.c], [idle.c] and the start in [components.c]: the single-core scheduler on its
      linked lists. Whatever the threads and the clock do, the lists stay well formed and no
      assertion fails; scheduling is an election on abstract queues; a thread that sleeps wakes
      after the ticks it asked for; threads of one priority take turns.
    - Ipc.v: [ipc.c]: semaphores and mutexes on that kernel. A mutex has one holder, whatever
      the threads and the clock do; when a thread begins to wait for it the holder gets that
      thread's priority if it is better (and may lose it again: [inheritance_lost]), and a
      release hands over to the first waiter.
    - Sensors.v, Climate.v: [my_adc.c], [my_dht11.c]: one turn of each sampling thread, and the
      climate thread from its start, through the sensor's device, to its end.
    - Json.v: [packages/cJSON-v1.7.17/cJSON.c]: parser, printer, lookup. Parsing terminates,
      reads past its buffer only if no NUL ends it ([parse_past_end]), and inverts printing.
    - JsonFormat.v: its formatted printer and [cJSON_Minify]; white space is invisible to the
      parser, and minifying takes it out again.
    - JsonStore.v, JsonPrinter.v, JsonEdit.v: the same library on memory: nodes and strings
      allocated one by one and linked, the growing buffer of the printer, the lists of
      children edited in place. [owns] lists all the blocks there are, so every statement
      says what is kept and what is freed; the class [Allocator] may refuse any request.
    - RingBuffer.v, Pipe.v, PipeDevice.v: [ringbuffer.c], [pipe.c], [waitqueue.c]. The ring is a bounded
      queue; the pipe's writers and reader are a step relation in which every byte arrives
      once, in order, and no wake-up of a writer is lost. PipeDevice.v has
      the pipes by name and as devices.
    - MqttPacket.v: the client side of [packages/pahomqtt-v1.1.0/MQTTPacket/src]. Round trips,
      and that every control packet fits the buffer it is given.
    - MqttClient.v: [MQTTClient-RT/paho_mqtt_pipe.c]: packets in and out, connection,
      subscription, delivery, and publication through the pipe.
    - ClientPipe.v: the pipe of MqttClient.v, a list of bytes, is implemented by Pipe.v.
    - MqttApp.v: [mqtt_sample.c]: the documents it publishes and the callbacks of its topics.
    - JsonDocument.v: the builders of those documents in memory: what each publication hands on and leaves
      behind, whatever the allocator answers to its requests.
    - Session.v, Worker.v: the worker thread: starting a session, losing it and taking it up
      again on a new socket, the address of the server, the timer of the ping.
    - AutoControl.v: [my_auto_control.c]. A turn of the thread refines a list of rules. How a
      thread's message leaves it is the class [Publisher] with [PublisherOk].
    - Outbound.v: the reporting threads beside the client's worker, which their messages wake:
      every report reaches the server, in order, as a packet that decodes to it.
    - Boot.v: [main.c] and the starts of the threads.
    - System.v: the composition. [reachable] is the set of states that interrupts,
      samples, thread turns and messages lead to; [controller_safe] is its invariant.
    - ClosedLoop.v: the sampling threads, the rules and the drivers together: what the
      converters' inputs make of the output pins.
    - RemoteControl.v: [my_TCP.c] and [my_file.c], the lamps' and the samples' remote control
      over TCP; a session is proved to answer its commands as a short specification does.
    - Witnesses.v: a concrete board, client and controller, to which the theorems are applied.

    ** Correspondence

    A definition has the name of the C function or type it translates. A thread is its
    loop's body; the main loop of the client is [thread_start], [thread_turn] and their
    composition in Worker.v. A callback, an interrupt handler and a turn of a thread are one
    computation each, and the states of System.v are those between them. The application
    takes no lock around what its threads share, so this leaves out what can happen inside a
    turn: Preemption.v adds it for the commands to the actuators, where interrupts and other
    threads come between any two calls, and Outbound.v for the publications, whose write wakes
    the client's worker. Pipes and the heap do lock, and there a step is what
    happens under the lock. In the kernel an operation runs with interrupts disabled and is one
    step; what its caller does when it is switched to again is the caller's next step. Static and global variables are fields of the component's record.
    Memory appears where the code depends on it: the freed [UUID] string, the string at
    address 0, the bytes after the send buffers that are not terminated, the read buffer that
    message and topic point into.

    ** What is assumed

    The parameters are the code that is not in the repository (the DHT11 package, the
    network's and the allocator's answers, the external levels of the pins and the converter's
    inputs). [mqtt_ok] assumes that the allocator succeeds and that the memory at address 0
    holds an empty string; there cJSON's own allocations are taken to succeed, and
    JsonDocument.v has what happens when they do not. [controller_safe]
    starts when the session is set up ([session_starts], [main_brings_up]); the connection's
    loss and return is [session_resumes]. The timer drivers run on the clocks the start-up leaves
    ([board_clocks], which [clock_start_up] is about). The client's pipe is a list of bytes in MqttClient.v,
    which ClientPipe.v justifies for one writer at a time. In Heap.v an operation is one step, as the heap's
    semaphore makes it, but for [rt_realloc] to a larger block: there mem.c releases the
    semaphore before it calls [rt_malloc], [rt_memcpy] and [rt_free], and other threads'
    operations may come in between, which leave the caller's two blocks alone; the components that allocate take the answer as given, which
    Heap.v justifies: a block that is handed out is apart from all others and keeps its
    contents until it is given back.

    ** What is not modelled

    The packages that are not in the repository; of cJSON, references to nodes owned
    elsewhere, duplication, comparison and the parser's allocations; RT-Thread's soft and general timers, its
    object lists, its events, mailboxes, message queues and signals, and the network stack; TLS and the name service; the generated start-up code and the HAL beyond the
    functions named above; the server side of the packet library and the UDP variant of the
    client, which are not built. *)

From stdpp Require Import base numbers list gmap strings.
From Stdlib Require Import ZArith Lia.

Open Scope Z_scope.

Declare Scope comp_scope.
Delimit Scope comp_scope with comp.

(** ** Machine integers

    A C integer of [w] bits is a [Z]; the conversions of the C code are written
    out with [wrap] (unsigned) and [swrap] (two's complement). *)

Definition wrap (w z : Z) : Z := z mod 2 ^ w.
Definition swrap (w z : Z) : Z := (z + 2 ^ (w - 1)) mod 2 ^ w - 2 ^ (w - 1).

Abbreviation u8 := (wrap 8).
Abbreviation u16 := (wrap 16).
Abbreviation u32 := (wrap 32).
Abbreviation u64 := (wrap 64).
Abbreviation i32 := (swrap 32).

(** Byte strings: a byte is a [Z] between 0 and 255. *)
Abbreviation bytes := (list Z).

(** The bytes of a string literal. *)
Definition str (s : string) : bytes :=
  map (fun a => Z.of_N (Ascii.N_of_ascii a)) (String.list_ascii_of_string s).

Definition b2z (b : bool) : Z := if b then 1 else 0.

Lemma wrap_range (w z : Z) : 0 <= w -> 0 <= wrap w z < 2 ^ w.
Proof. intros Hw. unfold wrap. apply Z.mod_pos_bound. lia. Qed.

Lemma wrap_small (w z : Z) : 0 <= z < 2 ^ w -> wrap w z = z.
Proof. apply Z.mod_small. Qed.

Lemma swrap_small (w z : Z) :
  - 2 ^ (w - 1) <= z < 2 ^ (w - 1) -> 0 < w -> swrap w z = z.
Proof.
  intros Hz Hw. unfold swrap.
  assert (2 ^ w = 2 * 2 ^ (w - 1)) as E.
  { rewrite <- Z.pow_succ_r by lia. f_equal. lia. }
  rewrite Z.mod_small; lia.
Qed.

Lemma swrap_range (w z : Z) : 0 < w -> - 2 ^ (w - 1) <= swrap w z < 2 ^ (w - 1).
Proof.
  intros Hw. unfold swrap.
  assert (2 ^ w = 2 * 2 ^ (w - 1)) as E.
  { rewrite <- Z.pow_succ_r by lia. f_equal. lia. }
  pose proof (Z.mod_pos_bound (z + 2 ^ (w - 1)) (2 ^ w)). lia.
Qed.

(** Converting to unsigned and then to signed of the same width is the signed
    conversion: the double conversion the C code does on [uint32_t] values
    stored in an [int]. *)
Lemma swrap_wrap (w z : Z) : 0 < w -> swrap w (wrap w z) = swrap w z.
Proof.
  intros Hw. unfold swrap, wrap. f_equal.
  rewrite Zplus_mod_idemp_l. reflexivity.
Qed.

Lemma wrap_wrap (w z : Z) : 0 <= w -> wrap w (wrap w z) = wrap w z.
Proof. intros Hw. apply wrap_small, wrap_range, Hw. Qed.

Create Rewrite HintDb arith_db.
#[export] Hint Rewrite wrap_wrap swrap_wrap using lia : arith_db.

(** ** Alignment, as in rtdef.h and rtconfig.h *)

Definition RT_ALIGN_SIZE : Z := 4.
Definition RT_ALIGN (size align : Z) : Z := Z.land (u32 (size + align - 1)) (Z.lnot (align - 1)).
Definition RT_ALIGN_DOWN (size align : Z) : Z := Z.land size (Z.lnot (align - 1)).

Lemma land_lnot_3 z : Z.land z (Z.lnot (RT_ALIGN_SIZE - 1)) = z / 4 * 4.
Proof.
  change (RT_ALIGN_SIZE - 1) with (Z.ones 2). rewrite <- Z.ldiff_land, Z.ldiff_ones_r by lia.
  by rewrite Z.shiftl_mul_pow2, Z.shiftr_div_pow2 by lia.
Qed.

(** [RT_TICK_PER_SECOND] of rtconfig.h. *)
Definition RT_TICK_PER_SECOND : Z := 1000.
(** [RT_PIPE_BUFSZ]. *)
Definition PIPE_BUFSZ : Z := 512.

(** ** Error codes of rtdef.h *)

Definition RT_EOK : Z := 0.
Definition RT_ERROR : Z := 1.
Definition RT_EEMPTY : Z := 4.
Definition RT_ENOMEM : Z := 5.
Definition RT_ENOSYS : Z := 6.
Definition RT_EBUSY : Z := 7.
Definition RT_EIO : Z := 8.
Definition RT_EINVAL : Z := 10.

Abbreviation rt_err_t := Z.

(** [HAL_StatusTypeDef]. *)
Definition HAL_OK : Z := 0.
Definition HAL_ERROR : Z := 1.
Definition HAL_TIMEOUT : Z := 3.

(** ** Computations: state passing with faults

    A handler of the firmware reads and writes its state and may stop in a way
    C does not return from: a failed [RT_ASSERT] (its handler loops for ever),
    an access through NULL, a use of freed memory, a read of an uninitialised
    variable, an access out of the bounds of an object, a conversion or division C
    leaves undefined, [Error_Handler] ([Halted]), or a busy wait that has not ended with the
    part of the environment's behaviour that is given to the model ([StillWaiting]). *)

Inductive fault : Set :=
  | AssertFailed
  | NullAccess
  | UseAfterFree
  | DoubleFree
  | UninitRead
  | OutOfBounds
  | BadConversion
  | Halted
  | StillWaiting.

#[export] Instance fault_eq_dec : EqDecision fault.
Proof. solve_decision. Defined.

Inductive outcome (A : Type) : Type :=
  | Ok (a : A)
  | Fault (f : fault).
Arguments Ok {A} a.
Arguments Fault {A} f.

Definition M (S A : Type) : Type := S -> outcome (A * S).

Definition ret {S A : Type} (a : A) : M S A := fun s => Ok (a, s).
Definition bind {S A B : Type} (m : M S A) (k : A -> M S B) : M S B :=
  fun s => match m s with Ok (a, s') => k a s' | Fault f => Fault f end.
Definition get {S : Type} : M S S := fun s => Ok (s, s).
Definition gets {S A : Type} (f : S -> A) : M S A := fun s => Ok (f s, s).
Definition put {S : Type} (s : S) : M S unit := fun _ => Ok (tt, s).
Definition modify {S : Type} (f : S -> S) : M S unit := fun s => Ok (tt, f s).
Definition raise {S A : Type} (f : fault) : M S A := fun _ => Fault f.
Definition when {S : Type} (b : bool) (m : M S unit) : M S unit :=
  if b then m else ret tt.

(** [RT_ASSERT(b)]. *)
Definition rt_assert {S : Type} (b : bool) : M S unit :=
  if b then ret tt else raise AssertFailed.

Notation "x <- c1 ;; c2" := (bind c1 (fun x => c2))
  (at level 100, c1 at next level, right associativity) : comp_scope.
Notation "c1 ;;; c2" := (bind c1 (fun _ => c2))
  (at level 100, right associativity) : comp_scope.
Open Scope comp_scope.

(** Loops over a list of statements, in order. *)
Fixpoint for_each {S A : Type} (l : list A) (body : A -> M S unit) : M S unit :=
  match l with
  | [] => ret tt
  | x :: l => body x ;;; for_each l body
  end.

Section MonadLaws.
Context {S A B C : Type}.

Lemma bind_ret_l (a : A) (k : A -> M S B) (s : S) : bind (ret a) k s = k a s.
Proof. reflexivity. Qed.

Lemma bind_ret_r (m : M S A) (s : S) : bind m ret s = m s.
Proof. unfold bind. destruct (m s) as [[a s']|f]; reflexivity. Qed.

Lemma bind_assoc (m : M S A) (k : A -> M S B) (h : B -> M S C) (s : S) :
  bind (bind m k) h s = bind m (fun a => bind (k a) h) s.
Proof. unfold bind. destruct (m s) as [[a s']|f]; reflexivity. Qed.

Lemma bind_ok (m : M S A) (k : A -> M S B) (s s' : S) (a : A) :
  m s = Ok (a, s') -> bind m k s = k a s'.
Proof. intros E. unfold bind. rewrite E. reflexivity. Qed.

Lemma bind_inv (m : M S A) (k : A -> M S B) (s s'' : S) (b : B) :
  bind m k s = Ok (b, s'') ->
  exists a s', m s = Ok (a, s') /\ k a s' = Ok (b, s'').
Proof. unfold bind. destruct (m s) as [[a s']|f]; [eauto|discriminate]. Qed.
End MonadLaws.

(** *** Total correctness: [wp m s Q] says that [m] run from [s] does not fault
    and ends with [Q]. *)

Definition wp {S A : Type} (m : M S A) (s : S) (Q : A -> S -> Prop) : Prop :=
  match m s with Ok (a, s') => Q a s' | Fault _ => False end.
Arguments wp : simpl never.

Section Wp.
Context {S A B : Type}.

Lemma wp_ret (a : A) (s : S) (Q : A -> S -> Prop) : Q a s -> wp (ret a) s Q.
Proof. exact id. Qed.

Lemma wp_bind (m : M S A) (k : A -> M S B) (s : S) (Q : B -> S -> Prop) :
  wp m s (fun a s' => wp (k a) s' Q) -> wp (bind m k) s Q.
Proof. unfold wp, bind. destruct (m s) as [[a s']|f]; auto. Qed.

(** The same, with the first two parts taken together. *)
Lemma wp_bind_assoc {C : Type} (m : M S A) (k : A -> M S B) (rest : B -> M S C) (s : S) (Q : C -> S -> Prop) :
  wp (bind m k) s (fun b s' => wp (rest b) s' Q) -> wp (bind m (fun a => bind (k a) rest)) s Q.
Proof. unfold wp, bind. destruct (m s) as [[a s']|f]; [|done]. by destruct (k a s') as [[b s2]|f]. Qed.

Lemma wp_mono (m : M S A) (s : S) (P Q : A -> S -> Prop) :
  wp m s P -> (forall a s', P a s' -> Q a s') -> wp m s Q.
Proof. unfold wp. destruct (m s) as [[a s']|f]; auto. Qed.

Lemma wp_gets (f : S -> A) (s : S) (Q : A -> S -> Prop) : Q (f s) s -> wp (gets f) s Q.
Proof. exact id. Qed.

Lemma wp_get (s : S) (Q : S -> S -> Prop) : Q s s -> wp get s Q.
Proof. exact id. Qed.

Lemma wp_modify (f : S -> S) (s : S) (Q : unit -> S -> Prop) :
  Q tt (f s) -> wp (modify f) s Q.
Proof. exact id. Qed.

Lemma wp_put (s s' : S) (Q : unit -> S -> Prop) : Q tt s' -> wp (put s') s Q.
Proof. exact id. Qed.

Lemma wp_rt_assert (b : bool) (s : S) (Q : unit -> S -> Prop) : b = true -> Q tt s -> wp (rt_assert b) s Q.
Proof. by intros ->. Qed.

Lemma wp_ok (m : M S A) (s s' : S) (a : A) (Q : A -> S -> Prop) :
  m s = Ok (a, s') -> wp m s Q -> Q a s'.
Proof. unfold wp. intros ->. exact id. Qed.

Lemma wp_total (m : M S A) (s : S) (Q : A -> S -> Prop) :
  wp m s Q -> exists a s', m s = Ok (a, s') /\ Q a s'.
Proof. unfold wp. destruct (m s) as [[a s']|f]; [eauto|tauto]. Qed.
End Wp.

Create HintDb wp_db.
#[export] Hint Resolve wp_ret wp_gets wp_modify : wp_db.

(** [wp_step] walks through a computation by the rules above. *)
Ltac wp_step :=
  lazymatch goal with
  | |- wp (bind _ _) _ _ => apply wp_bind
  | |- wp (ret _) _ _ => apply wp_ret
  | |- wp (gets _) _ _ => apply wp_gets
  | |- wp (modify _) _ _ => apply wp_modify
  end.
Ltac wp_steps := repeat wp_step.

(** [wp_auto] also takes both ways at each test of the code. *)
Ltac wp_split :=
  match goal with
  | |- wp (if ?b then _ else _) _ _ => destruct b eqn:?
  | |- wp (match ?x with _ => _ end) _ _ => destruct x eqn:?
  | |- wp (when ?b _) _ _ => unfold when
  end.
Ltac wp_auto := repeat (first [wp_step | wp_split | progress cbn beta iota]).

(** *** Components of a larger state *)

Class Lens (S T : Type) := {
  view : S -> T;
  over : T -> S -> S;
  view_over : forall t s, view (over t s) = t;
  over_view : forall s, over (view s) s = s;
  over_over : forall t t' s, over t (over t' s) = over t s
}.

(** Run a computation of the component inside the larger state. *)
Definition zoom {S T A : Type} `{Lens S T} (m : M T A) : M S A :=
  fun s => match m (view s) with
           | Ok (a, t) => Ok (a, over t s)
           | Fault f => Fault f
           end.

Lemma zoom_ok {S T A : Type} `{Lens S T} (m : M T A) (s : S) (a : A) (t : T) :
  m (view s) = Ok (a, t) -> zoom m s = Ok (a, over t s).
Proof. intros E. unfold zoom. rewrite E. reflexivity. Qed.

Lemma wp_zoom {S T A : Type} `{Lens S T} (m : M T A) (s : S) (Q : A -> S -> Prop) :
  wp m (view s) (fun a t => Q a (over t s)) -> wp (zoom m) s Q.
Proof. unfold wp, zoom. destruct (m (view s)) as [[a t]|f]; auto. Qed.

(** *** Frames: whatever [m] does, it leaves [f] of the state as it is. *)

Definition leaves {S A B : Type} (f : S -> B) (m : M S A) : Prop := forall s a s', m s = Ok (a, s') -> f s' = f s.

Section Leaves.
Context {S A B C : Type}.
Implicit Types f : S -> B.

Lemma wp_leaves f (m : M S A) (s : S) (Q : A -> S -> Prop) :
  leaves f m -> wp m s Q -> wp m s (fun a s' => Q a s' /\ f s' = f s).
Proof. intros Hm HQ. apply wp_total in HQ as (a & s' & E & HQ). unfold wp. rewrite E. split; [done|by eapply Hm]. Qed.

Lemma leaves_ret f (a : A) : leaves f (ret a).
Proof. by intros s a' s' [= _ <-]. Qed.
Lemma leaves_gets f (g : S -> A) : leaves f (gets g).
Proof. by intros s a' s' [= _ <-]. Qed.
Lemma leaves_raise f (e : fault) : leaves f (raise (A := A) e).
Proof. done. Qed.
Lemma leaves_bind f (m : M S A) (k : A -> M S C) : leaves f m -> (forall a, leaves f (k a)) -> leaves f (bind m k).
Proof. intros Hm Hk s c s' (a & s1 & E1 & E2)%bind_inv. rewrite (Hk _ _ _ _ E2). by eapply Hm. Qed.
Lemma leaves_zoom {T : Type} `{Lens S T} f (m : M T A) : (forall t s, f (over t s) = f s) -> leaves f (zoom m).
Proof. intros Hf s a s'. unfold zoom. destruct (m (view s)) as [[? t]|]; [|done]. by intros [= _ <-]. Qed.
Lemma leaves_zoom_modify {T : Type} `{Lens S T} f (g : T -> T) :
  (forall s, f (over (g (view s)) s) = f s) -> leaves f (zoom (modify g)).
Proof. intros Hf s a s' [= _ <-]. apply Hf. Qed.
Lemma leaves_zoom_gets {T : Type} `{Lens S T} f (g : T -> A) : leaves f (zoom (gets g)).
Proof. intros s a s' [= _ <-]. by rewrite over_view. Qed.
End Leaves.

(** Walks through a computation of which each step leaves [f]. *)
Ltac leaves_step :=
  lazymatch goal with
  | |- leaves _ (bind _ _) => apply leaves_bind; [|intros ?]
  | |- leaves _ (ret _) => apply leaves_ret
  | |- leaves _ (gets _) => apply leaves_gets
  | |- leaves _ (raise _) => apply leaves_raise
  | |- leaves _ (if ?b then _ else _) => destruct b
  | |- leaves _ (match ?x with _ => _ end) => destruct x
  | |- leaves _ (zoom (gets _)) => apply leaves_zoom_gets
  | |- leaves _ (zoom (modify _)) => apply leaves_zoom_modify; reflexivity
  | |- leaves _ (zoom _) => apply leaves_zoom; reflexivity
  end.
Ltac leaves_auto := repeat leaves_step.

(** A component of a component. *)
#[refine] Definition lens_compose {S T U : Type} (l : Lens S T) (k : Lens T U) : Lens S U :=
  {| view := fun s => view (view s); over := fun u s => over (over u (view s)) s |}.
Proof.
  - intros u s. by rewrite !view_over.
  - intros s. by rewrite !over_view.
  - intros u u' s. by rewrite view_over, !over_over.
Defined.

#[export] Hint Rewrite @view_over @over_view @over_over : arith_db.

(** ** Bits

    Setting and clearing one bit of a register, as the peripherals do. *)

Lemma land_pow2_eqb (z n : Z) :
  0 <= n -> (Z.land z (2 ^ n) =? 0) = negb (Z.testbit z n).
Proof.
  intros Hn. destruct (Z.testbit z n) eqn:E; cbn.
  - apply Z.eqb_neq. intros H0.
    assert (Z.testbit (Z.land z (2 ^ n)) n = true) as F.
    { rewrite Z.land_spec, E, Z.pow2_bits_true by lia. reflexivity. }
    rewrite H0, Z.bits_0 in F. discriminate.
  - apply Z.eqb_eq. apply Z.bits_inj'. intros k Hk.
    rewrite Z.land_spec, Z.bits_0.
    destruct (Z.eq_dec n k) as [<-|Hne]; [rewrite E; reflexivity|].
    rewrite Z.pow2_bits_false by lia. apply andb_false_r.
Qed.

Lemma testbit_set (z n k : Z) :
  0 <= n -> Z.testbit (Z.lor z (2 ^ n)) k = (if k =? n then true else Z.testbit z k).
Proof.
  intros Hn. rewrite Z.lor_spec.
  destruct (Z.eqb_spec k n) as [->|Hne].
  - rewrite Z.pow2_bits_true by lia. apply orb_true_r.
  - rewrite Z.pow2_bits_false by lia. apply orb_false_r.
Qed.

Lemma testbit_clear (z n k : Z) :
  0 <= n -> Z.testbit (Z.ldiff z (2 ^ n)) k = (if k =? n then false else Z.testbit z k).
Proof.
  intros Hn. rewrite Z.ldiff_spec.
  destruct (Z.eqb_spec k n) as [->|Hne].
  - rewrite Z.pow2_bits_true by lia. apply andb_false_r.
  - rewrite Z.pow2_bits_false by lia. apply andb_true_r.
Qed.

(** ** Bounded exhaustive checks

    [check_range f n] tests [f] on [0 .. n-1]; the lemma turns one evaluation
    into a universally quantified fact. *)

Definition check_range (f : Z -> bool) (n : nat) : bool := forallb f (seqZ 0 (Z.of_nat n)).

Lemma check_range_spec (f : Z -> bool) (n : nat) :
  check_range f n = true -> forall k, 0 <= k < Z.of_nat n -> f k = true.
Proof.
  unfold check_range. rewrite forallb_forall. intros H k Hk.
  apply H. apply list_elem_of_In, elem_of_seqZ. lia.
Qed.
