(* ===== verification/Heap.v ===== *)
(** * The heap

    Models [rt-thread/src/mem.c], the allocator behind [rt_malloc] and [rt_free]: the heap is
    a chain of blocks, each with a header of twelve bytes in front of it, in the same memory
    as the data. The memory is a function from addresses to bytes; headers are read from it
    and written to it field by field. The operations are proved to refine a finite map from
    the addresses handed out to their sizes. The heap's semaphore makes each operation one
    atomic step, except that [rt_realloc] gives it back before it moves a block ([move]),
    where its calls are steps of their own; in the configuration of the controller the statistics are kept and the
    owner's name is not. *)

From stdpp Require Import base numbers list gmap.
From Stdlib Require Import ZArith Lia.
From S2P Require Import Prelude.

Open Scope Z_scope.

(** ** Memory *)

Definition memory : Type := Z -> Z.

Definition store (a : Z) (l : list Z) (r : memory) : memory := fun x =>
  if (a <=? x) && (x <? a + Z.of_nat (length l)) then nth (Z.to_nat (x - a)) l 0 else r x.

Definition load16 (a : Z) (r : memory) : Z := r a + 256 * r (a + 1).
Definition load32 (a : Z) (r : memory) : Z := load16 a r + 65536 * load16 (a + 2) r.
Definition store16 (a v : Z) (r : memory) : memory := store a [v mod 256; v / 256 mod 256] r.
Definition store32 (a v : Z) (r : memory) : memory :=
  store a [v mod 256; v / 256 mod 256; v / 65536 mod 256; v / 16777216 mod 256] r.

(** [n] bytes from an address. *)
Definition load_bytes (a n : Z) (r : memory) : list Z := map (fun i => r (a + Z.of_nat i)) (seq 0 (Z.to_nat n)).

(** ** State *)

(** The static variables of mem.c, addresses as 32-bit words. *)
Record heap : Type := Heap {
  ram : memory;
  heap_ptr : Z;
  heap_end : Z;
  lfree : Z;
  mem_size_aligned : Z;
  used_mem : Z;
  max_mem : Z
}.

Definition set_ram (r : memory) (h : heap) : heap :=
  Heap r (heap_ptr h) (heap_end h) (lfree h) (mem_size_aligned h) (used_mem h) (max_mem h).
Definition set_lfree (a : Z) (h : heap) : heap :=
  Heap (ram h) (heap_ptr h) (heap_end h) a (mem_size_aligned h) (used_mem h) (max_mem h).
Definition set_stats (u m : Z) (h : heap) : heap :=
  Heap (ram h) (heap_ptr h) (heap_end h) (lfree h) (mem_size_aligned h) u m.

Definition HEAP_MAGIC : Z := 0x1ea0.
Definition MIN_SIZE : Z := 12.
Definition MIN_SIZE_ALIGNED : Z := RT_ALIGN MIN_SIZE RT_ALIGN_SIZE.
Definition SIZEOF_STRUCT_MEM : Z := RT_ALIGN 12 RT_ALIGN_SIZE.

(** The fields of [struct heap_mem], by the header's address. *)
Inductive field : Set := Magic | Used | Next | Prev.
Definition fetch (f : field) (mem : Z) (r : memory) : Z :=
  match f with
  | Magic => load16 mem r
  | Used => load16 (mem + 2) r
  | Next => load32 (mem + 4) r
  | Prev => load32 (mem + 8) r
  end.
Definition update (f : field) (mem v : Z) (r : memory) : memory :=
  match f with
  | Magic => store16 mem v r
  | Used => store16 (mem + 2) v r
  | Next => store32 (mem + 4) v r
  | Prev => store32 (mem + 8) v r
  end.

Definition get_magic (mem : Z) : M heap Z := gets (fun h => fetch Magic mem (ram h)).
Definition get_used (mem : Z) : M heap Z := gets (fun h => fetch Used mem (ram h)).
Definition get_next (mem : Z) : M heap Z := gets (fun h => fetch Next mem (ram h)).
Definition get_prev (mem : Z) : M heap Z := gets (fun h => fetch Prev mem (ram h)).
Definition set_magic (mem v : Z) : M heap unit := modify (fun h => set_ram (update Magic mem v (ram h)) h).
Definition set_used (mem v : Z) : M heap unit := modify (fun h => set_ram (update Used mem v (ram h)) h).
Definition set_next (mem v : Z) : M heap unit := modify (fun h => set_ram (update Next mem v (ram h)) h).
Definition set_prev (mem v : Z) : M heap unit := modify (fun h => set_ram (update Prev mem v (ram h)) h).

(** ** Operations *)

(** The block at [b] goes into the one at [a] before it. *)
Definition absorb (B a b : Z) : M heap unit :=
  n <- get_next b ;;
  set_next a n ;;;
  n <- get_next b ;;
  set_prev (B + n) (u32 (a - B)).

Definition plug_holes (mem : Z) : M heap unit :=
  h <- get ;;
  rt_assert (heap_ptr h <=? mem) ;;;
  rt_assert (mem <? heap_end h) ;;;
  u <- get_used mem ;;
  rt_assert (u =? 0) ;;;
  n <- get_next mem ;;
  let nmem := heap_ptr h + n in
  nu <- get_used nmem ;;
  when (negb (mem =? nmem) && (nu =? 0) && negb (nmem =? heap_end h))
    (l <- gets lfree ;;
     when (l =? nmem) (modify (set_lfree mem)) ;;;
     absorb (heap_ptr h) mem nmem) ;;;
  p <- get_prev mem ;;
  let pmem := heap_ptr h + p in
  pu <- get_used pmem ;;
  when (negb (pmem =? mem) && (pu =? 0))
    (l <- gets lfree ;;
     when (l =? mem) (modify (set_lfree pmem)) ;;;
     absorb (heap_ptr h) pmem mem).

(** A region too small leaves the heap as it was. *)
Definition rt_system_heap_init (begin_addr end_addr : Z) : M heap unit :=
  let begin_align := RT_ALIGN begin_addr RT_ALIGN_SIZE in
  let end_align := RT_ALIGN_DOWN end_addr RT_ALIGN_SIZE in
  if (2 * SIZEOF_STRUCT_MEM <? end_align) && (begin_align <=? end_align - 2 * SIZEOF_STRUCT_MEM) then
    let size := end_align - begin_align - 2 * SIZEOF_STRUCT_MEM in
    modify (fun h => Heap (ram h) begin_align (heap_end h) (lfree h) size (used_mem h) (max_mem h)) ;;;
    let mem := begin_align in
    set_magic mem HEAP_MAGIC ;;;
    set_next mem (u32 (size + SIZEOF_STRUCT_MEM)) ;;;
    set_prev mem 0 ;;;
    set_used mem 0 ;;;
    n <- get_next mem ;;
    let e := begin_align + n in
    modify (fun h => Heap (ram h) (heap_ptr h) e (lfree h) (mem_size_aligned h) (used_mem h) (max_mem h)) ;;;
    set_magic e HEAP_MAGIC ;;;
    set_used e 1 ;;;
    set_next e (u32 (size + SIZEOF_STRUCT_MEM)) ;;;
    set_prev e (u32 (size + SIZEOF_STRUCT_MEM)) ;;;
    modify (set_lfree begin_align)
  else ret tt.

(** [while (lfree->used && lfree != heap_end)]; the chain has fewer blocks than the heap has
    words. *)
Fixpoint next_free (fuel : nat) : M heap unit :=
  match fuel with
  | O => ret tt
  | S fuel =>
      h <- get ;;
      u <- get_used (lfree h) ;;
      if negb (u =? 0) && negb (lfree h =? heap_end h) then
        n <- get_next (lfree h) ;;
        modify (set_lfree (heap_ptr h + n)) ;;;
        next_free fuel
      else ret tt
  end.

Definition chain_fuel (h : heap) : nat := S (Z.to_nat (mem_size_aligned h)).

Definition count_used (n : Z) : M heap unit :=
  modify (fun h => let u := u32 (used_mem h + n) in set_stats u (if max_mem h <? u then u else max_mem h) h).

(** The block at offset [ptr], up to offset [n], gives [size] bytes: what is left over becomes
    a block of its own if it can hold the smallest one. *)
Definition carve (size ptr n : Z) : M heap unit :=
  h <- get ;;
  let mem := heap_ptr h + ptr in
  if u32 (size + SIZEOF_STRUCT_MEM + MIN_SIZE_ALIGNED) <=? u32 (n - (ptr + SIZEOF_STRUCT_MEM)) then
    let ptr2 := u32 (ptr + SIZEOF_STRUCT_MEM + size) in
    let mem2 := heap_ptr h + ptr2 in
    set_magic mem2 HEAP_MAGIC ;;;
    set_used mem2 0 ;;;
    set_next mem2 n ;;;
    set_prev mem2 ptr ;;;
    set_next mem ptr2 ;;;
    set_used mem 1 ;;;
    n2 <- get_next mem2 ;;
    when (negb (n2 =? u32 (mem_size_aligned h + SIZEOF_STRUCT_MEM))) (set_prev (heap_ptr h + n2) ptr2) ;;;
    count_used (u32 (size + SIZEOF_STRUCT_MEM))
  else
    set_used mem 1 ;;;
    n <- get_next mem ;;
    count_used (u32 (n - ptr)).

Definition take_block (size ptr : Z) : M heap Z :=
  h <- get ;;
  let mem := heap_ptr h + ptr in
  n <- get_next mem ;;
  carve size ptr n ;;;
  set_magic mem HEAP_MAGIC ;;;
  l <- gets lfree ;;
  when (mem =? l)
    (next_free (chain_fuel h) ;;;
     l <- gets lfree ;;
     u <- get_used l ;;
     rt_assert ((l =? heap_end h) || (u =? 0))) ;;;
  rt_assert (mem + SIZEOF_STRUCT_MEM + size <=? heap_end h) ;;;
  rt_assert ((mem + SIZEOF_STRUCT_MEM) mod RT_ALIGN_SIZE =? 0) ;;;
  rt_assert (mem mod RT_ALIGN_SIZE =? 0) ;;;
  ret (mem + SIZEOF_STRUCT_MEM).

Fixpoint malloc_loop (fuel : nat) (size ptr : Z) : M heap Z :=
  match fuel with
  | O => ret 0
  | S fuel =>
      h <- get ;;
      if ptr <? u32 (mem_size_aligned h - size) then
        u <- get_used (heap_ptr h + ptr) ;;
        n <- get_next (heap_ptr h + ptr) ;;
        if (u =? 0) && (size <=? u32 (n - (ptr + SIZEOF_STRUCT_MEM))) then take_block size ptr
        else malloc_loop fuel size n
      else ret 0
  end.

(** The address of the block's data, or 0 for NULL. *)
Definition rt_malloc (size : Z) : M heap Z :=
  if size =? 0 then ret 0
  else
    let size := RT_ALIGN size RT_ALIGN_SIZE in
    h <- get ;;
    if mem_size_aligned h <? size then ret 0
    else
      let size := if size <? MIN_SIZE_ALIGNED then MIN_SIZE_ALIGNED else size in
      malloc_loop (chain_fuel h) size (u32 (lfree h - heap_ptr h)).

Definition rt_free (rmem : Z) : M heap unit :=
  if rmem =? 0 then ret tt
  else
    rt_assert (rmem mod RT_ALIGN_SIZE =? 0) ;;;
    h <- get ;;
    rt_assert ((heap_ptr h <=? rmem) && (rmem <? heap_end h)) ;;;
    let mem := u32 (rmem - SIZEOF_STRUCT_MEM) in
    u <- get_used mem ;;
    rt_assert (negb (u =? 0)) ;;;
    m <- get_magic mem ;;
    rt_assert (m =? HEAP_MAGIC) ;;;
    set_used mem 0 ;;;
    set_magic mem HEAP_MAGIC ;;;
    when (mem <? lfree h) (modify (set_lfree mem)) ;;;
    n <- get_next mem ;;
    modify (fun h => set_stats (u32 (used_mem h - u32 (n - u32 (mem - heap_ptr h)))) (max_mem h) h) ;;;
    plug_holes mem.

Definition rt_memcpy (dst src n : Z) : M heap unit :=
  modify (fun h => set_ram (store dst (load_bytes src n (ram h)) (ram h)) h).
Definition rt_memset (dst c n : Z) : M heap unit :=
  modify (fun h => set_ram (store dst (replicate (Z.to_nat n) c) (ram h)) h).

(** A new free block at offset [ptr2], between [ptr] and [n]. *)
Definition cut (ptr ptr2 n : Z) : M heap unit :=
  h <- get ;;
  let mem := heap_ptr h + ptr in
  let mem2 := heap_ptr h + ptr2 in
  set_magic mem2 HEAP_MAGIC ;;;
  set_used mem2 0 ;;;
  set_next mem2 n ;;;
  set_prev mem2 ptr ;;;
  set_next mem ptr2 ;;;
  n2 <- get_next mem2 ;;
  when (negb (n2 =? u32 (mem_size_aligned h + SIZEOF_STRUCT_MEM))) (set_prev (heap_ptr h + n2) ptr2).

(** The block at [ptr], up to [n], keeps its first [newsize] bytes. *)
Definition shrink (rmem newsize ptr n size : Z) : M heap Z :=
  h <- get ;;
  modify (fun h => set_stats (u32 (used_mem h - (size - newsize))) (max_mem h) h) ;;;
  let ptr2 := u32 (ptr + SIZEOF_STRUCT_MEM + newsize) in
  let mem2 := heap_ptr h + ptr2 in
  cut ptr ptr2 n ;;;
  when (mem2 <? lfree h) (modify (set_lfree mem2)) ;;;
  plug_holes mem2 ;;;
  ret rmem.

Definition move (rmem newsize size : Z) : M heap Z :=
  nmem <- rt_malloc newsize ;;
  when (negb (nmem =? 0))
    (rt_memcpy nmem rmem (if size <? newsize then size else newsize) ;;;
     rt_free rmem) ;;;
  ret nmem.

Definition rt_realloc (rmem newsize : Z) : M heap Z :=
  let newsize := RT_ALIGN newsize RT_ALIGN_SIZE in
  h <- get ;;
  if mem_size_aligned h <? newsize then ret 0
  else if newsize =? 0 then rt_free rmem ;;; ret 0
  else if rmem =? 0 then rt_malloc newsize
  else if (rmem <? heap_ptr h) || (heap_end h <=? rmem) then ret rmem
  else
    let mem := u32 (rmem - SIZEOF_STRUCT_MEM) in
    let ptr := u32 (mem - heap_ptr h) in
    n <- get_next mem ;;
    let size := u32 (n - ptr - SIZEOF_STRUCT_MEM) in
    if size =? newsize then ret rmem
    else if u32 (newsize + SIZEOF_STRUCT_MEM + MIN_SIZE) <? size then shrink rmem newsize ptr n size
    else move rmem newsize size.

Definition rt_calloc (count size : Z) : M heap Z :=
  p <- rt_malloc (u32 (count * size)) ;;
  when (negb (p =? 0)) (rt_memset p 0 (u32 (count * size))) ;;;
  ret p.

Definition rt_memory_info : M heap (Z * Z * Z) :=
  gets (fun h => (mem_size_aligned h, used_mem h, max_mem h)).

(** A heap of 400 bytes at 0x20000000, as the start-up code leaves the variables before. *)
Definition blank : heap := Heap (fun _ => 0) 0 0 0 0 0 0.

Example small_heap :
  match (rt_system_heap_init 0x20000001 0x20000193 ;;;
         a <- rt_malloc 10 ;; b <- rt_malloc 100 ;; rt_free a ;;; c <- rt_malloc 13 ;; d <- rt_malloc 12 ;;
         b2 <- rt_realloc b 20 ;; rt_free d ;;; rt_free c ;;; rt_free b2 ;;;
         e <- rt_malloc 372 ;; i <- rt_memory_info ;; ret ([a; b; c; d; b2; e], i)) blank with
  | Ok (r, h) => (map (fun a => if a =? 0 then 0 else a - heap_ptr h) r.1, r.2, lfree h - heap_ptr h)
  | Fault _ => ([], (0, 0, 0), 0)
  end = ([12; 36; 148; 12; 36; 0], (372, 0, 164), 0).
Proof. vm_compute. reflexivity. Qed.

(** ** Headers *)

Record header : Set := Header { h_magic : Z; h_used : Z; h_next : Z; h_prev : Z }.

Definition hdr (r : memory) (a : Z) : header :=
  Header (fetch Magic a r) (fetch Used a r) (fetch Next a r) (fetch Prev a r).

Definition with_field (f : field) (v : Z) (x : header) : header :=
  match f with
  | Magic => Header v (h_used x) (h_next x) (h_prev x)
  | Used => Header (h_magic x) v (h_next x) (h_prev x)
  | Next => Header (h_magic x) (h_used x) v (h_prev x)
  | Prev => Header (h_magic x) (h_used x) (h_next x) v
  end.

Definition field_width (f : field) : Z := match f with Magic | Used => 16 | Next | Prev => 32 end.

Lemma store_out a l r x : x < a \/ a + Z.of_nat (length l) <= x -> store a l r x = r x.
Proof.
  intros H. unfold store. destruct ((a <=? x) && (x <? a + Z.of_nat (length l))) eqn:E; [|done]. lia.
Qed.

Lemma store_nth a l r (i : nat) : (i < length l)%nat -> store a l r (a + Z.of_nat i) = nth i l 0.
Proof.
  intros Hi. unfold store. rewrite (proj2 (Z.leb_le _ _)), (proj2 (Z.ltb_lt _ _)) by lia. cbn [andb].
  f_equal. lia.
Qed.

(** A store of one field seen through another. *)
Lemma load16_out a b l r : b + 2 <= a \/ a + Z.of_nat (length l) <= b -> load16 b (store a l r) = load16 b r.
Proof. intros H. unfold load16. by rewrite !store_out by lia. Qed.
Lemma load32_out a b l r : b + 4 <= a \/ a + Z.of_nat (length l) <= b -> load32 b (store a l r) = load32 b r.
Proof. intros H. unfold load32. by rewrite !load16_out by lia. Qed.

Lemma load16_same a v r : 0 <= v < 2 ^ 16 -> load16 a (store16 a v r) = v.
Proof.
  intros Hv. unfold load16, store16. rewrite <- (Z.add_0_r a) at 2. rewrite (store_nth a _ r 0), (store_nth a _ r 1) by (cbn; lia).
  cbn [nth]. rewrite (Z.mod_small (v / 256)); [|split; [apply Z.div_pos; lia|apply Z.div_lt_upper_bound; lia]].
  pose proof (Z.div_mod v 256). lia.
Qed.

Lemma load32_same a v r : 0 <= v < 2 ^ 32 -> load32 a (store32 a v r) = v.
Proof.
  intros Hv. unfold load32, load16, store32. rewrite <- (Z.add_0_r a) at 2. replace (a + 2 + 1) with (a + 3) by lia.
  rewrite (store_nth a _ r 0), (store_nth a _ r 1), (store_nth a _ r 2), (store_nth a _ r 3) by (cbn; lia). cbn [nth].
  rewrite (Z.mod_small (v / 16777216)); [|split; [apply Z.div_pos; lia|apply Z.div_lt_upper_bound; lia]].
  replace 16777216 with (65536 * 256) by lia. replace 65536 with (256 * 256) by lia.
  rewrite <- !Z.div_div by lia. pose proof (Z.div_mod v 256). pose proof (Z.div_mod (v / 256) 256).
  pose proof (Z.div_mod (v / 256 / 256) 256). lia.
Qed.

(** The bytes a field's update can change. *)
Lemma update_out f a v r x : x < a \/ a + 12 <= x -> update f a v r x = r x.
Proof. intros H. destruct f; cbn; unfold store16, store32; apply store_out; cbn [length]; lia. Qed.

Lemma update_prev_out a v r x : x < a + 8 \/ a + 12 <= x -> update Prev a v r x = r x.
Proof. intros H. cbn. unfold store32. apply store_out. cbn [length]. lia. Qed.

Lemma hdr_ext r r' a : (forall x, a <= x < a + 12 -> r' x = r x) -> hdr r' a = hdr r a.
Proof. intros H. unfold hdr, fetch, load32, load16. by rewrite !H by lia. Qed.

Lemma hdr_other f a v r b : b + 12 <= a \/ a + 12 <= b -> hdr (update f a v r) b = hdr r b.
Proof. intros H. apply hdr_ext. intros x Hx. apply update_out. lia. Qed.

Lemma hdr_same f a v r : 0 <= v < 2 ^ field_width f -> hdr (update f a v r) a = with_field f v (hdr r a).
Proof.
  intros Hv. unfold hdr. destruct f; cbn [update fetch with_field h_magic h_used h_next h_prev field_width] in *; f_equal;
    first [by apply load16_same | by apply load32_same | unfold store16, store32; first [apply load16_out|apply load32_out]; cbn [length]; lia].
Qed.

(** ** Layout

    The blocks in the order of their addresses: whether a block is used, and its length with
    the header. *)

Abbreviation block := (bool * Z)%type.
Implicit Types (bs xs ys : list block) (h : heap) (r : memory).

Definition total bs : Z := foldr (fun b n => b.2 + n) 0 bs.
Definition block_ok (b : block) : Prop := 16 <= b.2 /\ b.2 mod 4 = 0.

(** The headers of the blocks from offset [pos] on, after a block at [prev]. *)
Fixpoint seg r (B prev pos : Z) bs : Prop :=
  match bs with
  | [] => True
  | (u, l) :: bs => hdr r (B + pos) = Header HEAP_MAGIC (Z.b2z u) (pos + l) prev /\ seg r B pos (pos + l) bs
  end.

(** The offset of the last block, or of the one before. *)
Fixpoint last_of (prev pos : Z) bs : Z :=
  match bs with
  | [] => prev
  | (_, l) :: bs => last_of pos (pos + l) bs
  end.

Record layout bs h : Prop := {
  lay_base : 0 < heap_ptr h /\ heap_ptr h mod 4 = 0 /\ heap_ptr h + mem_size_aligned h + 24 <= 2 ^ 32;
  lay_size : 12 <= mem_size_aligned h /\ mem_size_aligned h mod 4 = 0;
  lay_end : heap_end h = heap_ptr h + (mem_size_aligned h + 12);
  lay_total : total bs = mem_size_aligned h + 12;
  lay_blocks : Forall block_ok bs;
  lay_seg : seg (ram h) (heap_ptr h) 0 0 bs;
  lay_last : h_used (hdr (ram h) (heap_end h)) = 1 /\ h_next (hdr (ram h) (heap_end h)) = mem_size_aligned h + 12
}.

Lemma total_cons u l bs : total ((u, l) :: bs) = l + total bs.
Proof. done. Qed.

Lemma total_app bs1 bs2 : total (bs1 ++ bs2) = total bs1 + total bs2.
Proof. induction bs1 as [|[u l] bs1 IH]; [done|]. cbn [Datatypes.app]. rewrite !total_cons, IH. lia. Qed.

Lemma total_nonneg bs : Forall block_ok bs -> 0 <= total bs.
Proof. induction 1 as [|[u l] bs [Hb _] _ IH]; [done|]. rewrite total_cons. cbn [snd] in Hb. lia. Qed.

Lemma total_mod bs : Forall block_ok bs -> total bs mod 4 = 0.
Proof.
  induction 1 as [|[u l] bs [_ Hb] _ IH]; [done|]. rewrite total_cons. cbn [snd] in Hb.
  by rewrite Z.add_mod, Hb, IH by lia.
Qed.

Lemma seg_app r B prev pos bs1 bs2 :
  seg r B prev pos (bs1 ++ bs2) <-> seg r B prev pos bs1 /\ seg r B (last_of prev pos bs1) (pos + total bs1) bs2.
Proof.
  revert prev pos. induction bs1 as [|[u l] bs1 IH]; intros prev pos; cbn [Datatypes.app seg last_of].
  - change (total []) with 0. rewrite Z.add_0_r. tauto.
  - rewrite IH, total_cons, Z.add_assoc. tauto.
Qed.

Lemma last_of_app prev pos bs1 bs2 :
  last_of prev pos (bs1 ++ bs2) = last_of (last_of prev pos bs1) (pos + total bs1) bs2.
Proof.
  revert prev pos. induction bs1 as [|[u l] bs1 IH]; intros prev pos; cbn [Datatypes.app last_of].
  - change (total []) with 0. by rewrite Z.add_0_r.
  - by rewrite IH, total_cons, Z.add_assoc.
Qed.

Lemma seg_ext r r' B prev pos bs :
  Forall block_ok bs -> (forall x, B + pos <= x < B + pos + total bs -> r' x = r x) ->
  seg r B prev pos bs -> seg r' B prev pos bs.
Proof.
  intros Hb. revert prev pos. induction Hb as [|[u l] bs [Hl _] Hbs IH]; intros prev pos Hr; [done|].
  pose proof (total_nonneg bs Hbs). rewrite total_cons in Hr. cbn [snd] in Hl. intros [Hh Hs]. split.
  - rewrite <- Hh. apply hdr_ext. intros x Hx. apply Hr. lia.
  - apply IH; [|done]. intros x Hx. apply Hr. lia.
Qed.

(** A part of the chain is replaced by another of the same length, and the header after it
    gets a new predecessor: the form of every change the operations make. *)
Lemma layout_replace xs old new ys h r' v :
  layout (xs ++ old ++ ys) h -> total new = total old -> Forall block_ok new -> new <> [] ->
  let B := heap_ptr h in let p := total xs in let q := p + total old in
  seg r' B (last_of 0 0 xs) p new ->
  (forall x, x < B + p \/ B + q <= x < B + q + 8 \/ B + q + 12 <= x -> r' x = ram h x) ->
  hdr r' (B + q) = with_field Prev v (hdr (ram h) (B + q)) ->
  (ys <> [] -> v = last_of (last_of 0 0 xs) p new) ->
  layout (xs ++ new ++ ys) (set_ram r' h).
Proof.
  intros [Hba Hsi Hen Hto Hbl Hse Hla] Hnew Hnok Hne B p q Hsn Hout Hv Hys.
  apply Forall_app in Hbl as [Hx Hbl]. apply Forall_app in Hbl as [Ho Hy].
  pose proof (total_nonneg xs Hx). pose proof (total_nonneg old Ho). pose proof (total_nonneg ys Hy).
  rewrite !total_app in Hto. apply seg_app in Hse as [Sx Se]. apply seg_app in Se as [So Sy].
  rewrite !Z.add_0_l in So, Sy. fold p in So, Sy. fold q in Sy.
  split; cbn [heap_ptr mem_size_aligned heap_end ram set_ram]; try done.
  - rewrite !total_app, Hnew. lia.
  - rewrite !Forall_app. done.
  - apply seg_app. split; [apply (seg_ext (ram h)); [done| |done]; intros x Hxx; apply Hout; fold B p; lia|].
    apply seg_app. rewrite Z.add_0_l. fold p. split; [done|]. rewrite Hnew. fold q.
    destruct ys as [|[u l] ys]; [done|]. cbn [seg] in *. destruct Sy as [Hh Sy]. apply Forall_cons in Hy as [[Hl _] Hy]. cbn [snd] in Hl.
    fold B in Hh |- *. rewrite Hv, Hh. cbn [with_field h_magic h_used h_next]. rewrite Hys by done. split; [done|].
    apply (seg_ext (ram h)); [done| |done]. intros x Hxx. apply Hout. fold B. lia.
  - assert (h_used (hdr r' (heap_end h)) = h_used (hdr (ram h) (heap_end h)) /\
      h_next (hdr r' (heap_end h)) = h_next (hdr (ram h) (heap_end h))) as [-> ->]; [|done].
    rewrite Hen. fold B. destruct ys as [|b ys].
    + replace (B + (mem_size_aligned h + 12)) with (B + q) by (unfold total in Hto; cbn in Hto; fold (total xs) (total old) in Hto; lia).
      by rewrite Hv.
    + apply Forall_cons in Hy as [[Hl _] Hy]. pose proof (total_nonneg ys Hy). destruct b as [u l]. rewrite total_cons in Hto. cbn [snd] in Hl.
      rewrite (hdr_ext (ram h) r'); [done|]. intros x Hxx. apply Hout. lia.
Qed.

(** Reads a header through updates of others. *)
Ltac hdr_step :=
  first [rewrite hdr_same by (unfold HEAP_MAGIC; cbn; lia) | rewrite hdr_other by lia].
Ltac hdr_steps := repeat hdr_step; cbn [with_field h_magic h_used h_next h_prev].
Ltac outside := repeat (first [rewrite update_prev_out by lia | rewrite update_out by lia]); done.

(** A block in the chain. *)
Record placed xs (u : bool) (l : Z) ys h : Prop := {
  pl_bounds : 0 <= total xs /\ 16 <= l /\ total xs + l <= mem_size_aligned h + 12 /\
    total xs + l + total ys = mem_size_aligned h + 12;
  pl_mod : total xs mod 4 = 0 /\ l mod 4 = 0;
  pl_base : 0 < heap_ptr h /\ heap_ptr h mod 4 = 0 /\ heap_ptr h + mem_size_aligned h + 24 <= 2 ^ 32 /\
    heap_end h = heap_ptr h + (mem_size_aligned h + 12);
  pl_header : hdr (ram h) (heap_ptr h + total xs) = Header HEAP_MAGIC (Z.b2z u) (total xs + l) (last_of 0 0 xs);
  pl_next : match ys with
            | [] => total xs + l = mem_size_aligned h + 12 /\ h_used (hdr (ram h) (heap_ptr h + (total xs + l))) = 1
            | (u2, l2) :: _ => 16 <= l2 /\ total xs + l + l2 <= mem_size_aligned h + 12 /\
                hdr (ram h) (heap_ptr h + (total xs + l)) = Header HEAP_MAGIC (Z.b2z u2) (total xs + l + l2) (total xs)
            end
}.

Lemma layout_placed xs u l ys h : layout (xs ++ (u, l) :: ys) h -> placed xs u l ys h.
Proof.
  intros [Hba Hsi Hen Hto Hbl Hse [Hla _]]. apply Forall_app in Hbl as [Hx Hbl]. apply Forall_cons in Hbl as [[Hl Hlm] Hy]. cbn [snd] in *.
  pose proof (total_nonneg xs Hx). pose proof (total_nonneg ys Hy). pose proof (total_mod xs Hx). rewrite total_app, total_cons in Hto.
  apply seg_app in Hse as [_ [Hh Hy']]. rewrite Z.add_0_l in Hh, Hy'. split; try tauto; try lia.
  destruct ys as [|[u2 l2] ys].
  - change (total []) with 0 in *. split; [lia|]. rewrite <- Hla, Hen. do 2 f_equal. lia.
  - apply Forall_cons in Hy as [[Hl2 _] Hy]. cbn [snd] in Hl2. pose proof (total_nonneg ys Hy). rewrite total_cons in *.
    destruct Hy' as [Hh2 _]. split; [done|]. split; [lia|]. exact Hh2.
Qed.

(** What [layout_replace] asks about the header behind the changed part when it stays. *)
Lemma placed_prev xs u l ys h : placed xs u l ys h -> ys <> [] ->
  h_prev (hdr (ram h) (heap_ptr h + (total xs + l))) = total xs.
Proof. intros [_ _ _ _ Hn] Hys. destruct ys as [|[u2 l2] ys]; [done|]. destruct Hn as (_ & _ & ->). done. Qed.

Lemma with_prev_id x : x = with_field Prev (h_prev x) x.
Proof. by destruct x. Qed.

(** Marking a block. *)
Lemma layout_mark xs u u' l ys h :
  layout (xs ++ (u, l) :: ys) h ->
  layout (xs ++ (u', l) :: ys) (set_ram (update Used (heap_ptr h + total xs) (Z.b2z u') (ram h)) h).
Proof.
  intros Hl. pose proof (layout_placed _ _ _ _ _ Hl) as Hp. pose proof Hp as [H1 H2 H3 H4 _].
  assert (total [(u, l)] = l /\ total [(u', l)] = l) as [E1 E2] by (rewrite !total_cons; change (total []) with 0; lia).
  eapply (layout_replace xs [(u, l)] [(u', l)] ys h _ (h_prev (hdr (ram h) (heap_ptr h + (total xs + l))))); [done|lia| |done|..].
  - repeat constructor; tauto.
  - cbn [seg]. split; [|done]. rewrite hdr_same by (destruct u'; cbn; lia). by rewrite H4.
  - intros x Hx. rewrite E1 in Hx. outside.
  - rewrite E1. rewrite hdr_other by lia. apply with_prev_id.
  - intros Hys. by eapply placed_prev.
Qed.

(** Two neighbours become one block, with the first one's mark. *)
Lemma layout_absorb xs u l u' l' ys h :
  layout (xs ++ (u, l) :: (u', l') :: ys) h ->
  layout (xs ++ (u, l + l') :: ys)
    (set_ram (update Prev (heap_ptr h + (total xs + l + l')) (total xs)
                (update Next (heap_ptr h + total xs) (total xs + l + l') (ram h))) h).
Proof.
  intros Hl. pose proof (layout_placed _ _ _ _ _ Hl) as Hp. destruct Hp as [H1 H2 H3 H4 (N1 & N2 & N3)].
  assert (layout ((xs ++ [(u, l)]) ++ (u', l') :: ys) h) as Hl' by (by rewrite <- app_assoc).
  pose proof (layout_placed _ _ _ _ _ Hl') as [K1 K2 _ _ _]. rewrite ?total_app, ?total_cons in *. change (total []) with 0 in *.
  assert (total [(u, l); (u', l')] = l + l' /\ total [(u, l + l')] = l + l') as [E1 E2] by (rewrite !total_cons; change (total []) with 0; lia).
  eapply (layout_replace xs [(u, l); (u', l')] [(u, l + l')] ys h _ (total xs)); [done|lia| |done|..].
  - repeat constructor; cbn [snd]; [lia|]. rewrite Z.add_mod by lia. destruct K2 as [_ ->], H2 as [_ ->]. done.
  - cbn [seg]. split; [|done]. hdr_steps. rewrite H4. cbn. f_equal. lia.
  - intros x Hx. rewrite E1 in Hx. outside.
  - rewrite E1. replace (total xs + (l + l')) with (total xs + l + l') by lia. rewrite hdr_same by (cbn; lia).
    f_equal. apply hdr_other. lia.
  - done.
Qed.

(** A block is cut in two. *)
Lemma layout_split xs u u' l a ys h r' v :
  layout (xs ++ (u, l) :: ys) h -> 16 <= a -> 16 <= l - a -> a mod 4 = 0 ->
  let B := heap_ptr h in let p := total xs in
  hdr r' (B + p) = Header HEAP_MAGIC (Z.b2z u') (p + a) (last_of 0 0 xs) ->
  hdr r' (B + (p + a)) = Header HEAP_MAGIC 0 (p + l) p ->
  hdr r' (B + (p + l)) = with_field Prev v (hdr (ram h) (B + (p + l))) -> (ys <> [] -> v = p + a) ->
  (forall x, x < B + p \/ B + (p + l) <= x < B + (p + l) + 8 \/ B + (p + l) + 12 <= x -> r' x = ram h x) ->
  layout (xs ++ (u', a) :: (false, l - a) :: ys) (set_ram r' h).
Proof.
  intros Hl Ha Hla Hmod B p R1 R2 R3 Hv Hout. pose proof (layout_placed _ _ _ _ _ Hl) as [H1 H2 H3 H4 _].
  assert (total [(u, l)] = l /\ total [(u', a); (false, l - a)] = l) as [E1 E2] by (rewrite !total_cons; change (total []) with 0; lia).
  eapply (layout_replace xs [(u, l)] [(u', a); (false, l - a)] ys h _ v); [done|lia| |done|..]; rewrite ?E1; try done.
  - destruct H2 as [_ H2]. repeat constructor; cbn [snd]; try lia. by rewrite Zminus_mod, H2, Hmod.
  - cbn [seg]. replace (total xs + a + (l - a)) with (total xs + l) by lia. split_and!; [exact R1|exact R2|exact I].
Qed.

(** *** The lowest free block *)

Fixpoint first_free (pos : Z) bs : Z :=
  match bs with
  | [] => pos
  | (u, l) :: bs => if u : bool then first_free (pos + l) bs else pos
  end.

Definition all_used bs : Prop := Forall (fun b => b.1 = true) bs.

Lemma first_free_used pos xs ys : all_used xs -> first_free pos (xs ++ ys) = first_free (pos + total xs) ys.
Proof.
  intros Hx. revert pos. induction Hx as [|[u l] xs Hu _ IH]; intros pos; cbn [Datatypes.app first_free].
  - change (total []) with 0. by rewrite Z.add_0_r.
  - cbn in Hu. subst u. by rewrite IH, total_cons, Z.add_assoc.
Qed.

(** Either all blocks are used, or one is free and the lowest free one is among them. *)
Lemma first_free_cases xs : Forall block_ok xs ->
  all_used xs \/ exists l xs1 xs2, xs = xs1 ++ (false, l) :: xs2 /\ all_used xs1 /\
    (forall pos ys, first_free pos (xs ++ ys) = pos + total xs1) /\ total xs1 < total xs.
Proof.
  induction 1 as [|[u l] xs [Hl _] Hx IH]; [by left; constructor|]. cbn [snd] in Hl. pose proof (total_nonneg xs Hx).
  destruct u.
  - destruct IH as [IH|(l' & xs1 & xs2 & -> & Hu & Hf & Ht)]; [left; by constructor|]. right.
    exists l', ((true, l) :: xs1), xs2. split; [done|]. split; [by constructor|]. rewrite !total_cons. split; [|lia].
    intros pos ys. cbn [Datatypes.app first_free]. rewrite Hf. lia.
  - right. exists l, [], xs. rewrite total_cons. change (total []) with 0. split; [done|]. split; [constructor|]. split; [|lia].
    intros pos ys. cbn. lia.
Qed.

(** No two neighbours are free. *)
Fixpoint coal (after_free : bool) bs : Prop :=
  match bs with
  | [] => True
  | (u, _) :: bs => (after_free = true -> u = true) /\ coal (negb u) bs
  end.

Definition ends_free (f : bool) xs : bool := match last xs with Some (u, _) => negb u | None => f end.

Lemma coal_app f xs ys : coal f (xs ++ ys) <-> coal f xs /\ coal (ends_free f xs) ys.
Proof.
  revert f. induction xs as [|[u l] xs IH]; intros f; cbn [Datatypes.app coal]; [by unfold ends_free; cbn; tauto|].
  rewrite IH. assert (ends_free f ((u, l) :: xs) = ends_free (negb u) xs) as ->; [|tauto].
  unfold ends_free. destruct xs as [|b xs]; [done|]. rewrite last_cons. destruct (last (b :: xs)) eqn:E; [done|]. by apply last_None in E.
Qed.

Lemma coal_weaken xs : coal true xs -> coal false xs.
Proof. destruct xs as [|[u l] xs]; [done|]. cbn. tauto. Qed.

Definition used_total bs : Z := foldr (fun b n => (if b.1 : bool then b.2 else 0) + n) 0 bs.

Lemma used_total_cons u l bs : used_total ((u, l) :: bs) = (if u then l else 0) + used_total bs.
Proof. done. Qed.
Lemma used_total_app xs ys : used_total (xs ++ ys) = used_total xs + used_total ys.
Proof. induction xs as [|[u l] xs IH]; [done|]. cbn [Datatypes.app]. rewrite !used_total_cons, IH. lia. Qed.
Lemma used_total_bounds bs : Forall block_ok bs -> 0 <= used_total bs <= total bs.
Proof.
  induction 1 as [|[u l] bs [Hl _] _ IH]; [done|]. rewrite used_total_cons, total_cons. cbn [snd] in Hl. destruct u; lia.
Qed.

(** ** The heap between operations *)

Record heap_ok bs h : Prop := {
  heap_layout : layout bs h;
  heap_coal : coal false bs;
  heap_lfree : lfree h = heap_ptr h + first_free 0 bs;
  heap_used : used_mem h = used_total bs
}.

(** The bytes of the used blocks' data, by offset. *)
Fixpoint user_byte (pos : Z) bs (x : Z) : Prop :=
  match bs with
  | [] => False
  | (u, l) :: bs => (u = true /\ pos + 12 <= x < pos + l) \/ user_byte (pos + l) bs x
  end.

(** The data of the used blocks is the same in both heaps. *)
Definition data_kept bs h h' : Prop :=
  forall x, user_byte 0 bs x -> ram h' (heap_ptr h + x) = ram h (heap_ptr h + x).

Lemma user_byte_app pos xs ys x : user_byte pos (xs ++ ys) x <-> user_byte pos xs x \/ user_byte (pos + total xs) ys x.
Proof.
  revert pos. induction xs as [|[u l] xs IH]; intros pos; cbn [Datatypes.app user_byte].
  - change (total []) with 0. rewrite Z.add_0_r. tauto.
  - rewrite IH, total_cons, Z.add_assoc. tauto.
Qed.

Lemma user_byte_bounds pos bs x : Forall block_ok bs -> user_byte pos bs x -> pos + 12 <= x < pos + total bs.
Proof.
  intros Hb. revert pos. induction Hb as [|[u l] bs [Hl _] Hb IH]; intros pos; [done|]. cbn [user_byte snd] in *.
  rewrite total_cons. pose proof (total_nonneg bs Hb). intros [[_ K]|K]; [lia|]. apply IH in K. lia.
Qed.

Lemma user_not_header xs u l ys h x : layout (xs ++ (u, l) :: ys) h -> user_byte 0 (xs ++ (u, l) :: ys) x ->
  (x < total xs \/ total xs + 12 <= x) /\ (x < total xs + l \/ total xs + l + 12 <= x).
Proof.
  intros [_ _ _ _ Hb _ _]. apply Forall_app in Hb as [Hx Hb]. apply Forall_cons in Hb as [[Hl _] Hy]. cbn [snd] in Hl.
  rewrite user_byte_app. cbn [user_byte]. rewrite !Z.add_0_l. intros [H|[[_ H]|H]].
  - apply user_byte_bounds in H; [lia|done].
  - lia.
  - apply user_byte_bounds in H; [lia|done].
Qed.

Lemma first_free_at xs l ys l' ys' : Forall block_ok xs ->
  first_free 0 (xs ++ (false, l) :: ys) = first_free 0 (xs ++ (false, l') :: ys') /\
  first_free 0 (xs ++ (false, l) :: ys) <= total xs /\
  (all_used xs \/ first_free 0 (xs ++ (false, l) :: ys) < total xs).
Proof.
  intros Hx. destruct (first_free_cases xs Hx) as [Hu|(l0 & xs1 & xs2 & E & _ & Hf & Ht)].
  - rewrite !first_free_used by done. cbn [first_free]. split; [done|]. split; [lia|by left].
  - rewrite !Hf. split; [done|]. split; [lia|right; lia].
Qed.

Lemma layout_blocks_app xs ys h : layout (xs ++ ys) h -> Forall block_ok xs /\ Forall block_ok ys.
Proof. intros [_ _ _ _ Hb _ _]. by apply Forall_app. Qed.

Lemma absorb_spec xs u l u' l' ys h :
  layout (xs ++ (u, l) :: (u', l') :: ys) h ->
  wp (absorb (heap_ptr h) (heap_ptr h + total xs) (heap_ptr h + (total xs + l))) h (fun _ h' =>
    layout (xs ++ (u, l + l') :: ys) h' /\ (exists r, h' = set_ram r h) /\
    data_kept (xs ++ (u, l) :: (u', l') :: ys) h h').
Proof.
  intros Hl. pose proof (layout_placed _ _ _ _ _ Hl) as [H1 H2 H3 H4 (N1 & N2 & N3)].
  unfold absorb, get_next, set_next, set_prev. wp_steps. cbn [ram set_ram].
  set (B := heap_ptr h) in *. set (p := total xs) in *.
  assert (fetch Next (B + (p + l)) (ram h) = p + l + l') as E1 by (change (h_next (hdr (ram h) (B + (p + l))) = p + l + l'); by rewrite N3).
  rewrite E1.
  assert (fetch Next (B + (p + l)) (update Next (B + p) (p + l + l') (ram h)) = p + l + l') as E2.
  { change (h_next (hdr (update Next (B + p) (p + l + l') (ram h)) (B + (p + l))) = p + l + l'). rewrite hdr_other by lia. by rewrite N3. }
  rewrite E2. replace (u32 (B + p - B)) with p by (rewrite wrap_small; lia).
  split; [exact (layout_absorb _ _ _ _ _ _ _ Hl)|]. split; [by eexists|].
  intros x Hx. destruct (user_not_header _ _ _ _ _ _ Hl Hx) as [K1 K2].
  assert (layout ((xs ++ [(u, l)]) ++ (u', l') :: ys) h) as Hl' by (by rewrite <- app_assoc).
  replace (xs ++ (u, l) :: (u', l') :: ys) with ((xs ++ [(u, l)]) ++ (u', l') :: ys) in Hx by (by rewrite <- app_assoc).
  destruct (user_not_header _ _ _ _ _ _ Hl' Hx) as [_ K3]. rewrite total_app, total_cons in K3. change (total []) with 0 in K3.
  cbn [ram set_ram]. fold B. rewrite !update_out by lia. done.
Qed.

(** What the blocks in use are, by the offset and the size of their data. *)
Fixpoint regions (pos : Z) bs : list (Z * Z) :=
  match bs with
  | [] => []
  | (u, l) :: bs => (if u : bool then [(pos + 12, l - 12)] else []) ++ regions (pos + l) bs
  end.

Lemma regions_app pos xs ys : regions pos (xs ++ ys) = regions pos xs ++ regions (pos + total xs) ys.
Proof.
  revert pos. induction xs as [|[u l] xs IH]; intros pos; cbn [Datatypes.app regions].
  - change (total []) with 0. by rewrite Z.add_0_r.
  - by rewrite IH, total_cons, Z.add_assoc, app_assoc.
Qed.

(** Two free neighbours or their union make no difference to the blocks in use. *)
Lemma merge_free xs l l' ys :
  regions 0 (xs ++ (false, l + l') :: ys) = regions 0 (xs ++ (false, l) :: (false, l') :: ys) /\
  used_total (xs ++ (false, l + l') :: ys) = used_total (xs ++ (false, l) :: (false, l') :: ys) /\
  (forall x, user_byte 0 (xs ++ (false, l + l') :: ys) x <-> user_byte 0 (xs ++ (false, l) :: (false, l') :: ys) x).
Proof.
  split; [|split].
  - rewrite !regions_app. cbn [regions Datatypes.app]. by rewrite !Z.add_assoc.
  - rewrite !used_total_app, !used_total_cons. done.
  - intros x. rewrite !user_byte_app. cbn [user_byte]. rewrite !Z.add_assoc. assert (false <> true) by done. tauto.
Qed.

(** A heap with other contents of its memory; what an operation leaves of the chain and of
    the data. *)
Definition rewritten bs bs' h h' : Prop :=
  (exists r, h' = set_ram r h) /\ regions 0 bs' = regions 0 bs /\ used_total bs' = used_total bs /\
  data_kept bs h h' /\ (forall x, user_byte 0 bs x -> user_byte 0 bs' x).

Lemma rewritten_refl bs h : rewritten bs bs h h.
Proof. split; [exists (ram h); by destruct h|]. by repeat split. Qed.

Lemma rewritten_trans bs1 bs2 bs3 h1 h2 h3 :
  rewritten bs1 bs2 h1 h2 -> rewritten bs2 bs3 h2 h3 -> rewritten bs1 bs3 h1 h3.
Proof.
  intros ([r2 ->] & R1 & U1 & D1 & X1) ([r3 ->] & R2 & U2 & D2 & X2). split; [exists r3; done|].
  split; [congruence|]. split; [congruence|]. split; [|auto].
  intros x Hx. rewrite <- (D1 x Hx). apply (D2 x). auto.
Qed.

(** The forward half. *)
Lemma plug_next_spec xs l ys h :
  layout (xs ++ (false, l) :: ys) h -> coal false ys -> lfree h = heap_ptr h + first_free 0 (xs ++ (false, l) :: ys) ->
  wp (let nmem := heap_ptr h + (total xs + l) in
      nu <- get_used nmem ;;
      when (negb (heap_ptr h + total xs =? nmem) && (nu =? 0) && negb (nmem =? heap_end h))
        (l <- gets lfree ;;
         when (l =? nmem) (modify (set_lfree (heap_ptr h + total xs))) ;;;
         absorb (heap_ptr h) (heap_ptr h + total xs) nmem)) h (fun _ h' => exists l' ys',
    layout (xs ++ (false, l') :: ys') h' /\ coal true ys' /\
    rewritten (xs ++ (false, l) :: ys) (xs ++ (false, l') :: ys') h h').
Proof.
  intros Hl Hc Hf. pose proof (layout_placed _ _ _ _ _ Hl) as [H1 H2 H3 H4 Hn].
  destruct (first_free_at xs l ys l ys (proj1 (layout_blocks_app _ _ _ Hl))) as (_ & Hle & _).
  cbv zeta. unfold get_used. wp_steps. rewrite (proj2 (Z.eqb_neq _ (heap_ptr h + (total xs + l)))) by lia. cbn [negb andb].
  change (fetch Used (heap_ptr h + (total xs + l)) (ram h)) with (h_used (hdr (ram h) (heap_ptr h + (total xs + l)))).
  destruct ys as [|[[|] l2] ys].
  - destruct Hn as [_ ->]. cbn [Z.eqb andb when]. wp_steps. exists l, []. split; [done|]. split; [done|]. apply rewritten_refl.
  - destruct Hn as (_ & _ & ->). cbn [h_used Z.b2z Z.eqb andb when]. wp_steps. exists l, ((true, l2) :: ys). split; [done|].
    split; [split; [done|apply Hc]|]. apply rewritten_refl.
  - destruct Hn as (N1 & N2 & ->). cbn [h_used Z.b2z Z.eqb andb]. rewrite (proj2 (Z.eqb_neq _ (heap_end h))) by lia. cbn [negb when].
    wp_steps. rewrite (proj2 (Z.eqb_neq (lfree h) _)) by lia. cbn [when]. wp_steps.
    eapply wp_mono; [by apply absorb_spec|]. cbn beta. intros _ h' (Hl' & Hr & Hd).
    destruct (merge_free xs l l2 ys) as (M1 & M2 & M3).
    exists (l + l2), ys. split; [done|]. cbn [coal negb] in Hc. split; [apply Hc|].
    split; [done|]. split; [done|]. split; [done|]. split; [done|]. intros x. apply M3.
Qed.

(** The backward half. *)
Lemma plug_prev_spec xs l ys h :
  layout (xs ++ (false, l) :: ys) h -> coal false xs -> coal true ys -> lfree h = heap_ptr h + first_free 0 (xs ++ (false, l) :: ys) ->
  wp (p <- get_prev (heap_ptr h + total xs) ;;
      let pmem := heap_ptr h + p in
      pu <- get_used pmem ;;
      when (negb (pmem =? heap_ptr h + total xs) && (pu =? 0))
        (l <- gets lfree ;;
         when (l =? heap_ptr h + total xs) (modify (set_lfree pmem)) ;;;
         absorb (heap_ptr h) pmem (heap_ptr h + total xs))) h (fun _ h' => exists bs',
    layout bs' h' /\ coal false bs' /\ lfree h' = heap_ptr h' + first_free 0 bs' /\
    rewritten (xs ++ (false, l) :: ys) bs' h h').
Proof.
  intros Hl Hcx Hcy Hf. pose proof (layout_placed _ _ _ _ _ Hl) as [H1 H2 H3 H4 Hn].
  assert (fetch Prev (heap_ptr h + total xs) (ram h) = last_of 0 0 xs) as Ep
    by (change (h_prev (hdr (ram h) (heap_ptr h + total xs)) = last_of 0 0 xs); by rewrite H4).
  unfold get_prev, get_used. wp_steps. rewrite Ep. cbv zeta. wp_steps.
  change (fetch Used (heap_ptr h + last_of 0 0 xs) (ram h)) with (h_used (hdr (ram h) (heap_ptr h + last_of 0 0 xs))).
  assert (ends_free false xs = false -> exists bs', layout bs' h /\ coal false bs' /\ lfree h = heap_ptr h + first_free 0 bs' /\
    rewritten (xs ++ (false, l) :: ys) bs' h h) as Hstay.
  { intros He. exists (xs ++ (false, l) :: ys). split; [done|]. split; [|split; [done|apply rewritten_refl]].
    apply coal_app. rewrite He. cbn. auto. }
  destruct xs as [|b xs _] using rev_ind.
  - change (total []) with 0 in *. cbn [last_of]. rewrite Z.eqb_refl. cbn [negb andb when]. wp_steps. by apply Hstay.
  - destruct b as [u0 l0]. rewrite <- app_assoc in Hl. cbn [Datatypes.app] in Hl. pose proof (layout_placed _ _ _ _ _ Hl) as [K1 K2 K3 K4 _].
    rewrite last_of_app. cbn [last_of]. rewrite Z.add_0_l. rewrite total_app, total_cons in *. change (total []) with 0 in *. rewrite Z.add_0_r in *.
    rewrite (proj2 (Z.eqb_neq _ (heap_ptr h + (total xs + l0)))) by lia. rewrite K4. cbn [h_used negb andb].
    destruct u0; cbn [Z.b2z Z.eqb when].
    + wp_steps. apply Hstay. unfold ends_free. by rewrite last_snoc.
    + destruct (first_free_at xs l0 ((false, l) :: ys) (l0 + l) ys (proj1 (layout_blocks_app _ _ _ Hl))) as (Ef & Hle & _).
      rewrite <- app_assoc in Hf. cbn [Datatypes.app] in Hf. wp_steps. rewrite (proj2 (Z.eqb_neq (lfree h) _)) by lia. cbn [when]. wp_steps.
      eapply wp_mono; [by apply absorb_spec|]. cbn beta. intros _ h' (Hl' & [r ->] & Hd). destruct (merge_free xs l0 l ys) as (M1 & M2 & M3).
      exists (xs ++ (false, l0 + l) :: ys). split; [done|]. split.
      { apply coal_app in Hcx as [C1 C2]. apply coal_app. split; [done|]. cbn [coal negb] in C2 |- *. tauto. }
      split; [cbn; by rewrite Hf, Ef|]. rewrite <- app_assoc. cbn [Datatypes.app].
      split; [by eexists|]. split; [done|]. split; [done|]. split; [done|]. intros x. apply M3.
Qed.

Lemma plug_holes_spec xs l ys h :
  layout (xs ++ (false, l) :: ys) h -> coal false xs -> coal false ys ->
  lfree h = heap_ptr h + first_free 0 (xs ++ (false, l) :: ys) ->
  wp (plug_holes (heap_ptr h + total xs)) h (fun _ h' => exists bs',
    layout bs' h' /\ coal false bs' /\ lfree h' = heap_ptr h' + first_free 0 bs' /\
    rewritten (xs ++ (false, l) :: ys) bs' h h').
Proof.
  intros Hl Hx Hy Hf. pose proof (layout_placed _ _ _ _ _ Hl) as [H1 H2 H3 H4 _].
  unfold plug_holes. wp_step. unfold get at 1, wp at 1. unfold rt_assert.
  rewrite (proj2 (Z.leb_le _ _)) by lia. wp_steps. rewrite (proj2 (Z.ltb_lt _ _)) by lia. wp_steps.
  unfold get_used at 1. wp_steps.
  change (fetch Used (heap_ptr h + total xs) (ram h)) with (h_used (hdr (ram h) (heap_ptr h + total xs))).
  rewrite H4. cbn [h_used Z.b2z Z.eqb]. wp_step. unfold get_next at 1. do 2 wp_step.
  change (fetch Next (heap_ptr h + total xs) (ram h)) with (h_next (hdr (ram h) (heap_ptr h + total xs))).
  rewrite H4. cbn [h_next]. apply wp_bind_assoc.
  eapply wp_mono; [by apply (plug_next_spec xs l ys h)|]. cbn beta. intros _ h1 (l1 & ys1 & Hl1 & Hy1 & Hw1).
  pose proof Hw1 as ([r ->] & _). destruct (first_free_at xs l ys l1 ys1 (proj1 (layout_blocks_app _ _ _ Hl))) as (Ef & _).
  eapply wp_mono; [apply (plug_prev_spec xs l1 ys1 (set_ram r h)); try done; by rewrite <- Ef|]. cbn beta.
  intros _ h2 (bs' & L2 & C2 & F2 & Hw2). exists bs'. split; [done|]. split; [done|]. split; [done|]. by eapply rewritten_trans.
Qed.

(** The same region of memory. *)
Definition same_area h h' : Prop :=
  heap_ptr h' = heap_ptr h /\ mem_size_aligned h' = mem_size_aligned h.

(** Writing the magic number again. *)
Lemma layout_magic xs u l ys h :
  layout (xs ++ (u, l) :: ys) h ->
  layout (xs ++ (u, l) :: ys) (set_ram (update Magic (heap_ptr h + total xs) HEAP_MAGIC (ram h)) h).
Proof.
  intros Hl. pose proof (layout_placed _ _ _ _ _ Hl) as Hp. pose proof Hp as [H1 H2 H3 H4 _].
  assert (total [(u, l)] = l) as E1 by (rewrite !total_cons; change (total []) with 0; lia).
  eapply (layout_replace xs [(u, l)] [(u, l)] ys h _ (h_prev (hdr (ram h) (heap_ptr h + (total xs + l))))); [done|lia| |done|..].
  - repeat constructor; tauto.
  - cbn [seg]. split; [|done]. rewrite hdr_same by (unfold HEAP_MAGIC; cbn; lia). by rewrite H4.
  - intros x Hx. rewrite E1 in Hx. outside.
  - rewrite E1. rewrite hdr_other by lia. apply with_prev_id.
  - intros Hys. by eapply placed_prev.
Qed.

Lemma layout_vars bs h h' : layout bs h ->
  ram h' = ram h -> heap_ptr h' = heap_ptr h -> heap_end h' = heap_end h -> mem_size_aligned h' = mem_size_aligned h -> layout bs h'.
Proof. intros [] E1 E2 E3 E4. split; by rewrite ?E1, ?E2, ?E3, ?E4. Qed.

Lemma first_free_above pos ys : Forall block_ok ys -> pos <= first_free pos ys.
Proof.
  intros Hy. revert pos. induction Hy as [|[u l] ys [Hl _] _ IH]; intros pos; cbn [first_free snd] in *; [lia|].
  destruct u; [|lia]. specialize (IH (pos + l)). lia.
Qed.

(** The variable's update when the block after [xs] becomes free. *)
Lemma first_free_freed xs u l ys : Forall block_ok xs -> Forall block_ok ys -> 16 <= l ->
  first_free 0 (xs ++ (false, l) :: ys) = Z.min (total xs) (first_free 0 (xs ++ (u, l) :: ys)).
Proof.
  intros Hx Hy Hl. destruct (first_free_cases xs Hx) as [Hu|(l0 & xs1 & xs2 & _ & _ & Hf & Ht)].
  - rewrite !first_free_used by done. cbn [first_free]. rewrite !Z.add_0_l. pose proof (first_free_above (total xs + l) ys Hy).
    destruct u; lia.
  - rewrite !Hf. lia.
Qed.

Lemma wp_lower a l h (Q : unit -> heap -> Prop) : lfree h = l ->
  Q tt (set_lfree (Z.min a l) h) -> wp (when (a <? l) (modify (set_lfree a))) h Q.
Proof.
  intros <-. destruct (Z.ltb_spec a (lfree h)) as [Hlt|Hge]; cbn [when].
  - by rewrite Z.min_l by lia.
  - rewrite Z.min_r by lia. by destruct h.
Qed.

(** The data of the blocks around a header is not in it. *)
Lemma data_kept_header bs xs u l ys f v h :
  bs = xs ++ (u, l) :: ys -> layout bs h -> data_kept bs h (set_ram (update f (heap_ptr h + total xs) v (ram h)) h).
Proof.
  intros -> Hl x Hx. destruct (user_not_header _ _ _ _ _ _ Hl Hx) as [K _]. cbn [ram set_ram]. apply update_out. lia.
Qed.

Lemma data_kept_trans bs bs' h1 h2 h3 :
  data_kept bs h1 h2 -> data_kept bs' h2 h3 -> (forall x, user_byte 0 bs x -> user_byte 0 bs' x) -> heap_ptr h2 = heap_ptr h1 ->
  data_kept bs h1 h3.
Proof. intros D1 D2 Hx Hp x H. rewrite <- (D1 x H), <- Hp. apply D2. auto. Qed.

(** A used block is freed: the block has to be in use, or an assertion fails. *)
Lemma free_spec xs l ys h :
  heap_ok (xs ++ (true, l) :: ys) h ->
  wp (rt_free (heap_ptr h + (total xs + 12))) h (fun _ h' => exists bs',
    heap_ok bs' h' /\ same_area h h' /\ regions 0 bs' = regions 0 xs ++ regions (total xs + l) ys /\
    data_kept (xs ++ (false, l) :: ys) h h' /\ (forall x, user_byte 0 (xs ++ (false, l) :: ys) x -> user_byte 0 bs' x)).
Proof.
  intros [Hl Hc Hf Hu]. pose proof (layout_placed _ _ _ _ _ Hl) as [H1 H2 H3 H4 _].
  destruct (layout_blocks_app _ _ _ Hl) as [Hbx _]. apply coal_app in Hc as [Hcx [_ Hcy]].
  set (B := heap_ptr h) in *. set (p := total xs) in *.
  unfold rt_free, rt_assert. rewrite (proj2 (Z.eqb_neq _ 0)) by lia.
  change RT_ALIGN_SIZE with 4. rewrite (proj2 (Z.eqb_eq ((B + (p + 12)) mod 4) 0)).
  2: { destruct H2 as [H2 _], H3 as (_ & H3 & _). clear -H2 H3. Z.to_euclidean_division_equations; lia. }
  wp_steps. unfold get at 1, wp at 1. fold B. rewrite (proj2 (Z.leb_le B _)), (proj2 (Z.ltb_lt _ (heap_end h))) by lia. cbn [andb]. wp_steps.
  change SIZEOF_STRUCT_MEM with 12. replace (u32 (B + (p + 12) - 12)) with (B + p) by (rewrite wrap_small; lia).
  cbv zeta. unfold get_used. wp_steps.
  change (fetch Used (B + p) (ram h)) with (h_used (hdr (ram h) (B + p))). rewrite H4. cbn [h_used Z.b2z Z.eqb negb]. wp_steps.
  unfold get_magic. wp_steps. change (fetch Magic (B + p) (ram h)) with (h_magic (hdr (ram h) (B + p))). rewrite H4. cbn [h_magic]. rewrite Z.eqb_refl. wp_steps.

  unfold set_used, set_magic. wp_steps. cbn [ram set_ram].
  set (h1 := set_ram (update Used (B + p) 0 (ram h)) h). fold h1. set (h2 := set_ram (update Magic (B + p) HEAP_MAGIC (ram h1)) h1).
  change (update Used (B + p) 0 (ram h)) with (ram h1). fold h2.
  assert (layout (xs ++ (false, l) :: ys) h1) as L1 by exact (layout_mark xs true false l ys h Hl).
  assert (layout (xs ++ (false, l) :: ys) h2) as L2 by exact (layout_magic xs false l ys h1 L1).
  assert (data_kept (xs ++ (false, l) :: ys) h h2) as D2.
  { apply (data_kept_trans _ (xs ++ (false, l) :: ys) _ h1); [| |auto|done].
    - intros x Hx. destruct (user_not_header _ _ _ _ _ _ L1 Hx) as [K _]. cbn [ram h1 set_ram]. fold B p.
      apply update_out. fold p in K. lia.
    - exact (data_kept_header _ xs false l ys Magic HEAP_MAGIC h1 eq_refl L1). }
  pose proof (layout_blocks_app _ _ _ Hl) as [_ Hby]. apply Forall_cons in Hby as [_ Hby].
  set (h3 := set_lfree (B + first_free 0 (xs ++ (false, l) :: ys)) h2).
  apply wp_lower; [done|]. replace (set_lfree _ h2) with h3.
  2: { pose proof (first_free_freed xs true l ys Hbx Hby ltac:(lia)) as E. unfold h3. rewrite E, Hf. fold p. f_equal. lia. }
  unfold get_next. wp_steps.
  change (fetch Next (B + p) (ram h3)) with (h_next (hdr (ram h2) (B + p))).
  pose proof (layout_placed _ _ _ _ _ L2) as [_ _ _ K4 _]. change (heap_ptr h2) with B in K4. fold p in K4. rewrite K4. cbn [h_next].
  set (h4 := set_stats _ _ h3). pose proof (used_total_bounds _ (lay_blocks _ _ Hl)) as Hub.
  rewrite used_total_app, used_total_cons in Hu, Hub. rewrite total_app, total_cons in Hub. fold p in Hub.
  pose proof (used_total_bounds xs Hbx). pose proof (used_total_bounds ys Hby).
  assert (used_mem h4 = used_total (xs ++ (false, l) :: ys)) as U4.
  { cbn. fold B. rewrite Hu, used_total_app, used_total_cons. rewrite (wrap_small 32 (B + p - B)) by lia.
    rewrite (wrap_small 32 (p + l - (B + p - B))) by lia. rewrite wrap_small by lia. lia. }
  eapply wp_mono; [apply (plug_holes_spec xs l ys h4); try done; by apply (layout_vars _ h2)|].
  cbn beta. intros _ h' (bs' & L' & C' & F' & ([r ->] & R' & T' & D' & X')). exists bs'. split; [split; [done|done|exact F'|by rewrite T']|].
  split; [done|]. split; [rewrite R', regions_app; cbn; by rewrite Z.add_0_l|]. split; [|done].
  apply (data_kept_trans _ (xs ++ (false, l) :: ys) _ h2); [done|exact D'|auto|done].
Qed.

(** *** Allocation *)

Lemma layout_lfree bs a h : layout bs h -> layout bs (set_lfree a h).
Proof. intros H. by apply (layout_vars bs h). Qed.

Lemma length_total bs : Forall block_ok bs -> 16 * Z.of_nat (length bs) <= total bs.
Proof.
  induction 1 as [|[u l] bs [Hl _] _ IH]; [done|]. rewrite total_cons. cbn [snd length] in *. lia.
Qed.

Lemma chain_fuel_enough bs h : layout bs h -> (length bs < chain_fuel h)%nat.
Proof.
  intros [_ [Hs _] _ Ht Hb _ _]. pose proof (length_total bs Hb). unfold chain_fuel. lia.
Qed.

(** The search for the lowest free block ends there, or at the end of the heap. *)
Lemma next_free_spec fuel xs ys h :
  layout (xs ++ ys) h -> lfree h = heap_ptr h + total xs -> (length ys < fuel)%nat ->
  wp (next_free fuel) h (fun _ h' => h' = set_lfree (heap_ptr h + first_free (total xs) ys) h).
Proof.
  revert fuel xs h. induction ys as [|[u l] ys IH]; intros fuel xs h Hl Hf Hn; destruct fuel as [|fuel]; cbn [length] in Hn; try lia;
    cbn [next_free first_free]; wp_step; unfold get at 1, wp at 1; unfold get_used; wp_steps;
    change (fetch Used (lfree h) (ram h)) with (h_used (hdr (ram h) (lfree h))).
  - rewrite app_nil_r in Hl. destruct Hl as [_ _ He Ht _ _ [Hu _]].
    rewrite (proj2 (Z.eqb_eq (lfree h) (heap_end h))), andb_false_r by lia. wp_steps. rewrite <- Hf. by destruct h.
  - pose proof (layout_placed _ _ _ _ _ Hl) as [H1 _ H3 H4 _]. rewrite Hf, H4. cbn [h_used].
    rewrite (proj2 (Z.eqb_neq _ (heap_end h))), andb_true_r by lia. destruct u; cbn [Z.b2z Z.eqb negb].
    + unfold get_next. wp_steps. change (fetch Next (heap_ptr h + total xs) (ram h)) with (h_next (hdr (ram h) (heap_ptr h + total xs))).
      rewrite H4. cbn [h_next]. assert (total (xs ++ [(true, l)]) = total xs + l) as E.
      { rewrite total_app, total_cons. change (total []) with 0. lia. }
      eapply wp_mono; [apply (IH fuel (xs ++ [(true, l)]) (set_lfree (heap_ptr h + (total xs + l)) h))|].
      * rewrite <- app_assoc. by apply layout_lfree.
      * by rewrite E.
      * lia.
      * cbn beta. intros _ h' ->. by rewrite E.
    + wp_steps. rewrite <- Hf. by destruct h.
Qed.

(** What is left of the chain when the free block of length [l] after [xs] gives a used one
    of length [l']. *)
Record carved xs (l l' : Z) ys rest : Prop := {
  cv_length : l' <= l;
  cv_regions : regions (total xs + l') rest = regions (total xs + l) ys;
  cv_used : used_total rest = used_total ys;
  cv_coal : coal true ys -> coal false rest
}.

Lemma carve_spec xs l ys size h :
  layout (xs ++ (false, l) :: ys) h -> 12 <= size -> size mod 4 = 0 -> size + 12 <= l ->
  wp (carve size (total xs) (total xs + l)) h (fun _ h' => exists l' rest,
    layout (xs ++ (true, l') :: rest) h' /\ carved xs l l' ys rest /\ size + 12 <= l' /\
    (exists r m, h' = set_stats (u32 (used_mem h + l')) m (set_ram r h)) /\
    data_kept (xs ++ (false, l) :: ys) h h').
Proof.
  intros Hl Hs Hsm Hfit. pose proof (layout_placed _ _ _ _ _ Hl) as [H1 H2 H3 H4 Hn].
  unfold carve. wp_step. unfold get at 1, wp at 1. cbv zeta. change SIZEOF_STRUCT_MEM with 12. change MIN_SIZE_ALIGNED with 12.
  set (B := heap_ptr h) in *. set (p := total xs) in *.
  rewrite (wrap_small 32 (size + 12 + 12)), (wrap_small 32 (p + l - (p + 12))), (wrap_small 32 (p + 12 + size)), (wrap_small 32 (mem_size_aligned h + 12)) by lia.
  destruct (size + 12 + 12 <=? p + l - (p + 12)) eqn:Esplit.
  - unfold set_magic, set_used, set_next, set_prev, get_next. wp_steps. cbn [ram set_ram].
    set (r6 := update Used (B + p) 1 _).
    assert (hdr r6 (B + p) = Header HEAP_MAGIC 1 (p + (size + 12)) (last_of 0 0 xs)) as R1.
    { unfold r6. hdr_steps. rewrite H4. cbn. f_equal. lia. }
    assert (hdr r6 (B + (p + 12 + size)) = Header HEAP_MAGIC 0 (p + l) p) as R2.
    { unfold r6. by hdr_steps. }
    assert (hdr r6 (B + (p + l)) = hdr (ram h) (B + (p + l))) as R3.
    { unfold r6. by hdr_steps. }
    change (fetch Next (B + (p + 12 + size)) r6) with (h_next (hdr r6 (B + (p + 12 + size)))). rewrite R2. cbn [h_next].
    replace (p + 12 + size) with (p + (size + 12)) in * by lia.
    assert (forall x, x < B + p \/ B + (p + l) <= x < B + (p + l) + 8 \/ B + (p + l) + 12 <= x -> r6 x = ram h x) as Out.
    { intros x Hx. unfold r6. rewrite !update_out by lia. done. }
    apply wp_mono with (P := fun _ h' => exists r7 v, h' = set_ram r7 h /\
      hdr r7 (B + p) = Header HEAP_MAGIC 1 (p + (size + 12)) (last_of 0 0 xs) /\
      hdr r7 (B + (p + (size + 12))) = Header HEAP_MAGIC 0 (p + l) p /\
      hdr r7 (B + (p + l)) = with_field Prev v (hdr (ram h) (B + (p + l))) /\ (ys <> [] -> v = p + (size + 12)) /\
      (forall x, x < B + p \/ B + (p + l) <= x < B + (p + l) + 8 \/ B + (p + l) + 12 <= x -> r7 x = ram h x)).
    { destruct (p + l =? mem_size_aligned h + 12) eqn:Ee; cbn [negb when]; wp_steps.
      - exists r6, (h_prev (hdr (ram h) (B + (p + l)))). split; [done|]. split; [done|]. split; [done|].
        split; [rewrite R3; apply with_prev_id|]. split; [|done]. intros Hne. destruct ys as [|[u2 l2] ys]; [done|]. lia.
      - exists (update Prev (B + (p + l)) (p + (size + 12)) r6), (p + (size + 12)). split; [done|].
        split; [by rewrite hdr_other by lia|]. split; [by rewrite hdr_other by lia|].
        split; [rewrite hdr_same by (cbn; lia); by rewrite R3|]. split; [done|]. intros x Hx. rewrite update_prev_out by lia. by apply Out. }
    cbn beta. intros _ h' (r7 & v & -> & Q1 & Q2 & Q3 & Q4 & Q5). unfold count_used. wp_steps.
    exists (size + 12), ((false, l - (size + 12)) :: ys). split; [|split; [|split; [lia|split]]].
    + apply (layout_vars _ (set_ram r7 h)); [|done..]. eapply (layout_split xs false true l (size + 12) ys h r7 v); try done; try lia.
      clear -Hsm. Z.to_euclidean_division_equations; lia.
    + split; [lia| |done|by split].
      cbn [regions Datatypes.app]. f_equal. lia.
    + eexists r7, _. rewrite (wrap_small 32 (size + 12)) by lia. done.
    + intros x Hx. cbn [ram set_stats set_ram]. fold B. apply Q5. destruct (layout_blocks_app _ _ _ Hl) as [Bx By].
      apply Forall_cons in By as [_ By]. rewrite user_byte_app in Hx. cbn [user_byte] in Hx.
      destruct Hx as [Hx|[[? _]|Hx]]; [|done|]; apply user_byte_bounds in Hx; try done; lia.
  - unfold set_used, get_next, count_used. wp_steps. cbn [ram set_ram].
    pose proof (layout_mark xs false true l ys h Hl) as L1. fold B p in L1.
    pose proof (layout_placed _ _ _ _ _ L1) as [_ _ _ K4 _].
    change (fetch Next (B + p) (update Used (B + p) 1 (ram h))) with (h_next (hdr (update Used (B + p) 1 (ram h)) (B + p))).
    cbn [ram set_ram heap_ptr] in K4. fold B p in K4. change (Z.b2z true) with 1 in K4. rewrite K4. cbn [h_next].
    exists l, ys. split; [by apply (layout_vars _ _ _ L1)|]. split; [split; [lia|done|done|apply coal_weaken]|]. split; [lia|]. split.
    + eexists _, _. rewrite (wrap_small 32 (p + l - p)) by lia. replace (p + l - p) with l by lia. done.
    + exact (data_kept_header _ xs false l ys Used 1 h eq_refl Hl).
Qed.

Lemma first_free_header xs ys h : layout (xs ++ ys) h ->
  let a := heap_ptr h + first_free (total xs) ys in a = heap_end h \/ fetch Used a (ram h) = 0.
Proof.
  revert xs. induction ys as [|[u l] ys IH]; intros xs Hl; cbn [first_free].
  - left. rewrite app_nil_r in Hl. destruct Hl as [_ _ -> -> _ _ _]. done.
  - destruct u.
    + specialize (IH (xs ++ [(true, l)])). rewrite <- app_assoc in IH. specialize (IH Hl).
      rewrite total_app, total_cons in IH. change (total []) with 0 in IH. by rewrite Z.add_0_r in IH.
    + right. pose proof (layout_placed _ _ _ _ _ Hl) as [_ _ _ H4 _].
      change (h_used (hdr (ram h) (heap_ptr h + total xs)) = 0). by rewrite H4.
Qed.

(** Looking for the lowest free block after the one after [xs] was taken. *)
Lemma refresh_lfree_spec xs l ys l' rest h :
  layout (xs ++ (true, l') :: rest) h -> Forall block_ok xs ->
  lfree h = heap_ptr h + first_free 0 (xs ++ (false, l) :: ys) ->
  wp (a <- gets lfree ;;
      when (heap_ptr h + total xs =? a)
        (next_free (chain_fuel h) ;;;
         a <- gets lfree ;;
         u <- get_used a ;;
         rt_assert ((a =? heap_end h) || (u =? 0)))) h
    (fun _ h' => h' = set_lfree (heap_ptr h + first_free 0 (xs ++ (true, l') :: rest)) h).
Proof.
  intros Hl Hx Hf. wp_steps. rewrite Hf.
  destruct (first_free_cases xs Hx) as [Hu|(l0 & xs1 & xs2 & _ & _ & Hff & Ht)].
  - rewrite !first_free_used in * by done. rewrite !Z.add_0_l. cbn [first_free]. rewrite Z.eqb_refl. cbn [when]. wp_steps.
    eapply wp_mono; [apply (next_free_spec _ xs ((true, l') :: rest)); [done| |]|].
    + rewrite Hf. cbn. by rewrite Z.add_0_l.
    + pose proof (chain_fuel_enough _ _ Hl) as Hn. rewrite length_app in Hn. lia.
    + cbn beta. intros _ h' ->. unfold get_used. wp_steps. cbn [lfree set_lfree ram].
      pose proof (first_free_header xs ((true, l') :: rest) h Hl) as Ha. cbn [first_free] in Ha |- *.
      unfold rt_assert. destruct Ha as [Ha|Ha]; rewrite Ha; [rewrite Z.eqb_refl|rewrite orb_true_r]; by wp_steps.
  - rewrite !Hff. rewrite (proj2 (Z.eqb_neq _ _)) by lia. cbn [when]. wp_steps. rewrite <- (Hff 0 ((false, l) :: ys)), <- Hf. by destruct h.
Qed.

Lemma take_block_spec xs l ys size h :
  heap_ok (xs ++ (false, l) :: ys) h -> 12 <= size -> size mod 4 = 0 -> size + 12 <= l ->
  wp (take_block size (total xs)) h (fun a h' => a = heap_ptr h + (total xs + 12) /\ exists l' rest,
    heap_ok (xs ++ (true, l') :: rest) h' /\ carved xs l l' ys rest /\ size + 12 <= l' /\ same_area h h' /\
    data_kept (xs ++ (false, l) :: ys) h h').
Proof.
  intros [Hl Hc Hf Hu] Hs Hsm Hfit. pose proof (layout_placed _ _ _ _ _ Hl) as [H1 H2 H3 H4 _].
  destruct (layout_blocks_app _ _ _ Hl) as [Hbx Hby]. apply Forall_cons in Hby as [_ Hby].
  unfold take_block. wp_step. unfold get at 1, wp at 1. cbv zeta. unfold get_next at 1. wp_steps.
  change (fetch Next (heap_ptr h + total xs) (ram h)) with (h_next (hdr (ram h) (heap_ptr h + total xs))). rewrite H4. cbn [h_next].
  eapply wp_mono; [by apply (carve_spec xs l ys)|]. cbn beta.
  intros _ h1 (l' & rest & L1 & Hcv & Hl' & (r & m & ->) & D1). unfold set_magic at 1. wp_step. wp_step.
  set (h1 := set_stats _ m (set_ram r h)) in *. cbn [ram]. set (h2 := set_ram _ h1).
  assert (layout (xs ++ (true, l') :: rest) h2) as L2 by exact (layout_magic xs true l' rest h1 L1).
  assert (data_kept (xs ++ (false, l) :: ys) h h2) as D2.
  { destruct Hcv as [V1 _ _ _]. intros x Hx. rewrite <- (D1 x Hx). destruct (user_not_header _ _ _ _ _ _ Hl Hx) as [K _].
    cbn [ram h2 set_ram]. change (heap_ptr h1) with (heap_ptr h). apply update_out. lia. }
  apply wp_bind_assoc. eapply wp_mono; [by apply (refresh_lfree_spec xs l ys l' rest h2)|]. cbn beta. intros _ h3 ->.
  unfold rt_assert. change SIZEOF_STRUCT_MEM with 12. change RT_ALIGN_SIZE with 4.
  destruct Hcv as [V1 V2 V3 V4]. rewrite (proj2 (Z.leb_le _ (heap_end h))) by lia. wp_steps.
  assert ((heap_ptr h + total xs) mod 4 = 0 /\ (heap_ptr h + total xs + 12) mod 4 = 0) as [E1 E2].
  { destruct H2 as [H2 _], H3 as (_ & H3 & _). clear -H2 H3. split; Z.to_euclidean_division_equations; lia. }
  rewrite E1, E2. wp_steps. split; [lia|]. exists l', rest. split; [split|].
  - by apply layout_lfree.
  - apply coal_app in Hc as [C1 [_ C2]]. apply coal_app. split; [done|]. split; [done|]. by apply V4.
  - done.
  - cbn. rewrite Hu. pose proof (used_total_bounds _ (lay_blocks _ _ L2)) as Hb. pose proof (used_total_bounds xs Hbx). pose proof (used_total_bounds ys Hby).
    rewrite (lay_total _ _ L2) in Hb. rewrite used_total_app, used_total_cons in Hb |- *. rewrite used_total_app, used_total_cons, V3 in *.
    change (mem_size_aligned h2) with (mem_size_aligned h) in Hb. rewrite wrap_small by lia. lia.
  - split; [by split|]. split; [done|]. split; [done|]. exact D2.
Qed.

(** The blocks a request passes over, and the one it takes. *)
Definition too_small (size : Z) bs : Prop := Forall (fun b => b.1 = true \/ b.2 - 12 < size) bs.

(** [h'] is [h] after the free block of length [l] between [xs] and [ys] gave one of at
    least [size] bytes, at address [a]. *)
Definition granted (size : Z) xs (l : Z) ys h (a : Z) h' : Prop :=
  size + 12 <= l /\ a = heap_ptr h + (total xs + 12) /\ exists l' rest,
    heap_ok (xs ++ (true, l') :: rest) h' /\ carved xs l l' ys rest /\ size + 12 <= l' /\ same_area h h' /\
    data_kept (xs ++ (false, l) :: ys) h h'.

(** A free block that would do, other than one of exactly the size asked for at the end of
    the heap. *)
Definition suits (size : Z) xs (l : Z) ys : Prop := size < l - 12 \/ size = l - 12 /\ ys <> [].

Lemma malloc_loop_spec fuel xs ys size h :
  heap_ok (xs ++ ys) h -> 12 <= size <= mem_size_aligned h -> size mod 4 = 0 -> (length ys < fuel)%nat ->
  wp (malloc_loop fuel size (total xs)) h (fun a h' =>
    (a = 0 /\ h' = h /\ forall zs l ys', ys = zs ++ (false, l) :: ys' -> ~ suits size (xs ++ zs) l ys') \/
    (exists zs l ys', ys = zs ++ (false, l) :: ys' /\ too_small size zs /\ suits size (xs ++ zs) l ys' /\ granted size (xs ++ zs) l ys' h a h')).
Proof.
  revert fuel xs. induction ys as [|[u l] ys IH]; intros fuel xs Hok Hs Hsm Hn; destruct fuel as [|fuel]; cbn [length] in Hn; try lia;
    cbn [malloc_loop]; wp_step; unfold get at 1, wp at 1; rewrite (wrap_small 32 (mem_size_aligned h - size)) by (destruct Hok as [[? ? _ _ _ _ _] _ _ _]; lia).
  - destruct Hok as [[_ _ _ Ht _ _ _] _ _ _]. rewrite app_nil_r in Ht. rewrite (proj2 (Z.ltb_ge (total xs) _)) by lia. wp_steps.
    left. split; [done|]. split; [done|]. intros zs l' ys' E. by destruct zs.
  - pose proof Hok as [Hl _ _ _]. pose proof (layout_placed _ _ _ _ _ Hl) as [H1 _ H3 H4 _].
    destruct (layout_blocks_app _ _ _ Hl) as [_ Hby]. apply Forall_cons in Hby as [_ Hby].
    destruct (total xs <? mem_size_aligned h - size) eqn:Ec.
    + unfold get_used, get_next. wp_steps.
      change (fetch Used (heap_ptr h + total xs) (ram h)) with (h_used (hdr (ram h) (heap_ptr h + total xs))).
      change (fetch Next (heap_ptr h + total xs) (ram h)) with (h_next (hdr (ram h) (heap_ptr h + total xs))).
      rewrite H4. cbn [h_used h_next]. change SIZEOF_STRUCT_MEM with 12. rewrite (wrap_small 32 (total xs + l - (total xs + 12))) by lia.
      destruct ((Z.b2z u =? 0) && (size <=? total xs + l - (total xs + 12))) eqn:Ef.
      * apply andb_prop in Ef as [Eu El]. assert (u = false) as -> by (by destruct u).
        eapply wp_mono; [apply (take_block_spec xs l ys size h); (done || lia)|]. cbn beta. intros a h' [-> Ht]. right.
        exists [], l, ys. split; [done|]. split; [constructor|]. rewrite app_nil_r. split; [|split; [lia|split; [done|exact Ht]]].
        unfold suits. destruct ys as [|b ys]; [left; change (total []) with 0 in H1; lia|]. destruct (decide (size = l - 12)); [by right|left; lia].
      * assert (total (xs ++ [(u, l)]) = total xs + l) as E by (rewrite total_app, total_cons; change (total []) with 0; lia).
        rewrite <- E. eapply wp_mono; [apply (IH fuel (xs ++ [(u, l)])); [by rewrite <- app_assoc|done|done|lia]|]. cbn beta.
        assert (u = true \/ l - 12 < size) as Hsmall.
        { apply andb_false_iff in Ef as [Ef|Ef]; [left; by destruct u|right; lia]. }
        intros a h' [(-> & -> & Hno)|(zs & l2 & ys' & -> & Hz & Hsu & Hg)].
        -- left. split; [done|]. split; [done|]. intros [|b zs] l2 ys' Ez.
           ++ injection Ez as -> -> ->. unfold suits. destruct Hsmall; [done|lia].
           ++ injection Ez as <- ->. specialize (Hno zs l2 ys' eq_refl). by rewrite <- app_assoc in Hno.
        -- right. exists ((u, l) :: zs), l2, ys'. split; [done|]. split; [by constructor|]. by rewrite <- app_assoc in Hsu, Hg.
    + wp_steps. left. split; [done|]. split; [done|]. intros zs l2 ys' Ez. unfold suits.
      assert (total ((u, l) :: ys) = total zs + (l2 + total ys')) as Et by (by rewrite Ez, total_app, total_cons).
      rewrite total_cons in Et. assert (Forall block_ok zs /\ Forall block_ok ys') as [Bz By].
      { assert (Forall block_ok ((u, l) :: ys)) as Hb by (by apply (layout_blocks_app _ _ _ Hl)).
        rewrite Ez, Forall_app, Forall_cons in Hb. tauto. }
      pose proof (total_nonneg zs Bz). pose proof (total_nonneg ys' By). intros [Hgt|[He Hne]]; [lia|].
      destruct ys' as [|[u3 l3] ys']; [done|]. apply Forall_cons in By as [[B3 _] By]. cbn [snd] in B3. rewrite total_cons in *.
      pose proof (total_nonneg ys' By). lia.
Qed.

Lemma RT_ALIGN_spec size : 0 <= size <= 2 ^ 32 - 4 ->
  size <= RT_ALIGN size RT_ALIGN_SIZE < size + 4 /\ RT_ALIGN size RT_ALIGN_SIZE mod 4 = 0.
Proof.
  intros Hs. unfold RT_ALIGN. rewrite land_lnot_3. change RT_ALIGN_SIZE with 4. rewrite wrap_small by lia.
  split; [Z.to_euclidean_division_equations; lia|apply Z.mod_mul; lia].
Qed.

(** The blocks before the lowest free one. *)
Lemma split_first_free bs : Forall block_ok bs -> exists xs ys, bs = xs ++ ys /\ all_used xs /\ first_free 0 bs = total xs.
Proof.
  intros Hb. destruct (first_free_cases bs Hb) as [Hu|(l & xs1 & xs2 & E & Hu & Hf & _)].
  - exists bs, []. split; [by rewrite app_nil_r|]. split; [done|]. rewrite <- (app_nil_r bs) at 1. by rewrite first_free_used.
  - exists xs1, ((false, l) :: xs2). split; [done|]. split; [done|]. specialize (Hf 0 []). by rewrite app_nil_r in Hf.
Qed.

Lemma used_prefix xs ys xs' l ys' :
  all_used xs -> xs ++ ys = xs' ++ (false, l) :: ys' -> exists zs, xs' = xs ++ zs /\ ys = zs ++ (false, l) :: ys'.
Proof.
  intros Hx. revert xs'. induction Hx as [|[u l0] xs Hu _ IH]; intros xs' E; [by exists xs'|]. cbn in Hu. subst u.
  destruct xs' as [|b xs']; [done|]. injection E as <- E. destruct (IH xs' E) as (zs & -> & ->). by exists zs.
Qed.

(** The size a request is rounded up to. *)
Definition rounded (size : Z) : Z := Z.max 12 (RT_ALIGN size RT_ALIGN_SIZE).

Lemma heap_malloc_spec bs size h :
  heap_ok bs h -> 0 < size <= 2 ^ 32 - 4 ->
  wp (rt_malloc size) h (fun a h' =>
    (a = 0 /\ h' = h /\ forall xs l ys, bs = xs ++ (false, l) :: ys -> ~ suits (rounded size) xs l ys) \/
    (exists xs l ys, bs = xs ++ (false, l) :: ys /\ too_small (rounded size) xs /\ suits (rounded size) xs l ys /\ granted (rounded size) xs l ys h a h')).
Proof.
  intros Hok Hs. pose proof Hok as [Hl _ Hf _]. pose proof Hl as [Hba Hsi _ Ht Hb _ _].
  destruct (RT_ALIGN_spec size) as [Ha Ham]; [lia|]. unfold rt_malloc. rewrite (proj2 (Z.eqb_neq size 0)) by lia. cbv zeta.
  wp_step. unfold get at 1, wp at 1. change MIN_SIZE_ALIGNED with 12.
  assert ((if RT_ALIGN size RT_ALIGN_SIZE <? 12 then 12 else RT_ALIGN size RT_ALIGN_SIZE) = rounded size) as ->.
  { unfold rounded. destruct (_ <? 12) eqn:E; lia. }
  assert (rounded size mod 4 = 0) as Hrm by (unfold rounded; destruct (Z.max_spec 12 (RT_ALIGN size RT_ALIGN_SIZE)) as [[_ ->]|[_ ->]]; done).
  destruct (split_first_free bs Hb) as (xs & ys & -> & Hu & Eff).
  destruct (mem_size_aligned h <? RT_ALIGN size RT_ALIGN_SIZE) eqn:Ebig.
  - wp_steps. left. split; [done|]. split; [done|]. intros zs l ys' E. unfold suits, rounded.
    rewrite E, total_app, total_cons in Ht. rewrite E in Hb. apply Forall_app in Hb as [Bz Bl]. apply Forall_cons in Bl as [_ By].
    pose proof (total_nonneg zs Bz). pose proof (total_nonneg ys' By). lia.
  - rewrite Hf, Eff. assert (0 <= total xs <= mem_size_aligned h + 12) as Hx.
    { rewrite total_app in Ht. apply Forall_app in Hb as [Bx By]. pose proof (total_nonneg xs Bx). pose proof (total_nonneg ys By). lia. }
    replace (u32 (heap_ptr h + total xs - heap_ptr h)) with (total xs) by (rewrite wrap_small; lia).
    pose proof (chain_fuel_enough _ _ Hl) as Hn. rewrite length_app in Hn.
    assert (12 <= rounded size <= mem_size_aligned h) as Hr by (unfold rounded; lia).
    eapply wp_mono; [apply (malloc_loop_spec _ xs ys (rounded size) h); (done || lia)|]. cbn beta.
    intros a h' [(-> & -> & Hno)|(zs & l & ys' & -> & Hz & Hsu & Hg)].
    + left. split; [done|]. split; [done|]. intros xs' l ys' E.
      destruct (used_prefix _ _ _ _ _ Hu E) as (zs & -> & ->). by apply Hno.
    + right. exists (xs ++ zs), l, ys'. split; [by rewrite app_assoc|]. split; [|by split].
      apply Forall_app. split; [|done]. eapply Forall_impl; [exact Hu|]. cbn. auto.
Qed.

(** ** Refinement: a map of the blocks in use *)

(** The addresses handed out, with the sizes of their data. *)
Definition blocks (B : Z) bs : gmap Z Z := list_to_map (map (fun x => (B + x.1, x.2)) (regions 0 bs)).

Lemma regions_bounds pos bs o n : Forall block_ok bs -> (o, n) ∈ regions pos bs ->
  pos + 12 <= o /\ 4 <= n /\ o + n <= pos + total bs /\ forall x, o <= x < o + n -> user_byte pos bs x.
Proof.
  intros Hb. revert pos. induction Hb as [|[u l] bs [Hl _] Hb IH]; intros pos; cbn [regions user_byte]; [by rewrite elem_of_nil|].
  cbn [snd] in Hl. rewrite elem_of_app, total_cons. pose proof (total_nonneg bs Hb). intros [H0|H0].
  - destruct u; [|by apply elem_of_nil in H0]. apply list_elem_of_singleton in H0. injection H0 as -> ->.
    split; [lia|]. split; [lia|]. split; [lia|]. intros x Hx. left. split; [done|lia].
  - apply IH in H0 as (H1 & H2 & H3 & H4). split; [lia|]. split; [lia|]. split; [lia|]. auto.
Qed.

Lemma regions_nodup pos bs : Forall block_ok bs -> NoDup (regions pos bs).*1.
Proof.
  intros Hb. revert pos. induction Hb as [|[u l] bs [Hl _] Hb IH]; intros pos; cbn [regions]; [constructor|].
  destruct u; [|apply IH]. cbn [Datatypes.app fmap list_fmap fst]. constructor; [|apply IH].
  intros H0. apply list_elem_of_fmap in H0 as ([o n] & E & H0). cbn in E. apply regions_bounds in H0; [|done]. cbn [snd] in Hl. lia.
Qed.

Lemma blocks_keys B (R : list (Z * Z)) : NoDup R.*1 -> NoDup (map (fun x => (B + x.1, x.2)) R).*1.
Proof.
  intros HR. assert ((map (fun x : Z * Z => (B + x.1, x.2)) R).*1 = (Z.add B) <$> R.*1) as ->.
  { induction R as [|[o n] R IH]; [done|]. cbn. f_equal. apply IH. by apply NoDup_cons in HR as [_ ?]. }
  apply NoDup_fmap; [|done]. intros x y. lia.
Qed.

(** A block in use, in the map and in the chain. *)
Lemma blocks_lookup B bs a n : Forall block_ok bs ->
  blocks B bs !! a = Some n <-> exists xs l ys, bs = xs ++ (true, l) :: ys /\ a = B + (total xs + 12) /\ n = l - 12.
Proof.
  intros Hb. unfold blocks. rewrite <- elem_of_list_to_map by (apply blocks_keys, regions_nodup, Hb).
  assert (forall pos, (a, n) ∈ map (fun x => (B + x.1, x.2)) (regions pos bs) <->
    exists xs l ys, bs = xs ++ (true, l) :: ys /\ a = B + (pos + total xs + 12) /\ n = l - 12) as H.
  { induction Hb as [|[u l] bs Hl Hb IH]; intros pos; cbn [regions].
    - cbn. rewrite elem_of_nil. split; [done|]. intros (xs & ? & ? & E & _). by destruct xs.
    - rewrite map_app, elem_of_app, IH. split.
      + intros [H0|(xs & l1 & ys & -> & -> & ->)].
        * destruct u; cbn in H0; [|by apply elem_of_nil in H0]. apply list_elem_of_singleton in H0. injection H0 as -> ->.
          exists [], l, bs. change (total []) with 0. split; [done|]. split; [lia|done].
        * exists ((u, l) :: xs), l1, ys. rewrite total_cons. split; [done|]. split; [lia|done].
      + intros ([|b xs] & l1 & ys & E & -> & ->); injection E as E1 E2.
        * left. subst u. rewrite E2. cbn. apply list_elem_of_singleton. f_equal. change (total []) with 0. lia.
        * right. subst b. exists xs, l1, ys. rewrite total_cons. split; [done|]. split; [lia|done]. }
  specialize (H 0). setoid_rewrite Z.add_0_l in H. exact H.
Qed.

Lemma blocks_insert B bs xs l ys (A R : list (Z * Z)) :
  Forall block_ok bs -> bs = xs ++ (true, l) :: ys -> A = regions 0 xs -> R = regions (total xs + l) ys ->
  let m : gmap Z Z := list_to_map (map (fun x => (B + x.1, x.2)) (A ++ R)) in
  blocks B bs = <[B + (total xs + 12) := l - 12]> m /\ m !! (B + (total xs + 12)) = None.
Proof.
  intros Hb -> -> -> m. set (a := B + (total xs + 12)).
  assert (regions 0 (xs ++ (true, l) :: ys) ≡ₚ (total xs + 12, l - 12) :: regions 0 xs ++ regions (total xs + l) ys) as HP.
  { rewrite regions_app. cbn [regions Datatypes.app]. rewrite Z.add_0_l. by rewrite <- Permutation_middle. }
  assert (map (fun x => (B + x.1, x.2)) (regions 0 (xs ++ (true, l) :: ys)) ≡ₚ
    (a, l - 12) :: map (fun x => (B + x.1, x.2)) (regions 0 xs ++ regions (total xs + l) ys)) as HP2 by (by rewrite HP).
  pose proof (blocks_keys B _ (regions_nodup 0 _ Hb)) as Hn. split.
  - unfold blocks. rewrite (list_to_map_proper _ _ Hn HP2). done.
  - apply not_elem_of_list_to_map. rewrite HP2 in Hn. cbn in Hn. by apply NoDup_cons in Hn as [? _].
Qed.

(** The heap [h] has handed out exactly the blocks of [m]. *)
Definition heap_of h (m : gmap Z Z) : Prop := exists bs, heap_ok bs h /\ m = blocks (heap_ptr h) bs.

(** The contents of the blocks of [m] are the same. *)
Definition contents_kept (m : gmap Z Z) h h' : Prop :=
  forall b k x, m !! b = Some k -> b <= x < b + k -> ram h' x = ram h x.

Lemma block_bytes B bs b k x : Forall block_ok bs -> blocks B bs !! b = Some k -> b <= x < b + k -> user_byte 0 bs (x - B).
Proof.
  intros Hb Hm Hx. apply blocks_lookup in Hm as (xs & l & ys & -> & -> & ->); [|done].
  rewrite user_byte_app. cbn [user_byte]. right. left. split; [done|lia].
Qed.

Lemma data_kept_contents bs bs' h h' : Forall block_ok bs -> data_kept bs' h h' ->
  (forall x, user_byte 0 bs x -> user_byte 0 bs' x) -> contents_kept (blocks (heap_ptr h) bs) h h'.
Proof.
  intros Hb Hd Hx b k x Hm Hr. pose proof (Hd (x - heap_ptr h) (Hx _ (block_bytes _ _ _ _ _ Hb Hm Hr))) as E.
  by replace (heap_ptr h + (x - heap_ptr h)) with x in E by lia.
Qed.

Lemma heap_ok_blocks bs h : heap_ok bs h -> Forall block_ok bs.
Proof. by intros [[] _ _ _]. Qed.

(** Two blocks of a chain are the same or lie one after the other. *)
Lemma two_blocks xs b l ys xs2 b2 l2 ys2 :
  Forall block_ok (xs ++ (b, l) :: ys) -> xs ++ (b, l) :: ys = xs2 ++ (b2, l2) :: ys2 ->
  total xs = total xs2 \/ total xs + l <= total xs2 \/ total xs2 + l2 <= total xs.
Proof.
  revert xs2. induction xs as [|[u k] xs IH]; intros xs2 Hb E; cbn [Datatypes.app] in Hb, E.
  - destruct xs2 as [|c xs2]; [by left|]. injection E as <- E. right. left. apply Forall_cons in Hb as [_ Hb].
    rewrite E in Hb. apply Forall_app in Hb as [Hb _]. pose proof (total_nonneg _ Hb). rewrite total_cons. change (total []) with 0. lia.
  - apply Forall_cons in Hb as [_ Hb]. destruct xs2 as [|c xs2].
    + injection E as -> -> E. right. right. apply Forall_app in Hb as [Hb _]. pose proof (total_nonneg _ Hb).
      rewrite total_cons. change (total []) with 0. lia.
    + injection E as <- E. destruct (IH xs2 Hb E) as [H|[H|H]]; rewrite !total_cons; lia.
Qed.

Lemma blocks_disjoint h m a n :
  heap_of h m -> m !! a = Some n ->
  a mod 4 = 0 /\ heap_ptr h + 12 <= a /\ 4 <= n /\ a + n <= heap_end h /\
  forall b k, m !! b = Some k -> a = b \/ a + n <= b \/ b + k <= a.
Proof.
  intros (bs & Hok & ->) Ha. pose proof (heap_ok_blocks _ _ Hok) as Hb. destruct Hok as [Hl _ _ _].
  apply blocks_lookup in Ha as (xs & l & ys & -> & -> & ->); [|done].
  pose proof (layout_placed _ _ _ _ _ Hl) as [H1 H2 H3 _ _].
  split; [destruct H2 as [H2 _], H3 as (_ & H3 & _); clear -H2 H3; Z.to_euclidean_division_equations; lia|].
  split; [lia|]. split; [lia|]. split; [lia|]. intros b k Hm.
  apply blocks_lookup in Hm as (xs2 & l2 & ys2 & E & -> & ->); [|done].
  destruct (two_blocks _ _ _ _ _ _ _ _ Hb E) as [H|[H|H]]; lia.
Qed.

Lemma malloc_map bs size h :
  heap_ok bs h -> 0 < size <= 2 ^ 32 - 4 ->
  wp (rt_malloc size) h (fun a h' =>
    (a = 0 /\ h' = h /\ forall xs l ys, bs = xs ++ (false, l) :: ys -> ~ suits (rounded size) xs l ys) \/
    (exists n, a <> 0 /\ size <= n /\ blocks (heap_ptr h) bs !! a = None /\
       heap_of h' (<[a := n]> (blocks (heap_ptr h) bs)) /\ same_area h h' /\
       contents_kept (blocks (heap_ptr h) bs) h h')).
Proof.
  intros Hok Hs. pose proof (heap_ok_blocks _ _ Hok) as Hb.
  eapply wp_mono; [by apply heap_malloc_spec|]. cbn beta. intros a h' [Hno|(xs & l & ys & -> & _ & _ & Hfit & -> & l' & rest & Hok' & [V1 V2 V3 V4] & Hl' & Ha & Hd)]; [by left|].
  right. pose proof (heap_ok_blocks _ _ Hok') as Hb'. pose proof Hok as [Hl _ _ _]. pose proof (layout_placed _ _ _ _ _ Hl) as [H1 _ H3 _ _].
  destruct (blocks_insert (heap_ptr h) _ xs l' rest _ _ Hb' eq_refl eq_refl eq_refl) as [E1 E2].
  rewrite V2 in E1, E2.
  assert (list_to_map (map (fun x => (heap_ptr h + x.1, x.2)) (regions 0 xs ++ regions (total xs + l) ys)) =
    blocks (heap_ptr h) (xs ++ (false, l) :: ys)) as E3.
  { unfold blocks. rewrite regions_app. cbn [regions Datatypes.app]. by rewrite Z.add_0_l. }
  rewrite E3 in E1, E2. exists (l' - 12). destruct (RT_ALIGN_spec size) as [Hr _]; [lia|].
  split; [lia|]. split; [unfold rounded in Hl'; lia|]. split; [done|]. split; [|split; [done|]].
  - exists (xs ++ (true, l') :: rest). split; [done|]. destruct Ha as [-> _]. by rewrite E1.
  - by eapply data_kept_contents.
Qed.

Lemma free_map m a n h :
  heap_of h m -> m !! a = Some n ->
  wp (rt_free a) h (fun _ h' => heap_of h' (delete a m) /\ same_area h h' /\ contents_kept (delete a m) h h').
Proof.
  intros (bs & Hok & ->) Hm. pose proof (heap_ok_blocks _ _ Hok) as Hb.
  apply blocks_lookup in Hm as (xs & l & ys & -> & -> & ->); [|done].
  destruct (blocks_insert (heap_ptr h) _ xs l ys _ _ Hb eq_refl eq_refl eq_refl) as [E1 E2].
  eapply wp_mono; [by apply free_spec|]. cbn beta. intros _ h' (bs' & Hok' & Ha & Hr & Hd & _).
  assert (delete (heap_ptr h + (total xs + 12)) (blocks (heap_ptr h) (xs ++ (true, l) :: ys)) = blocks (heap_ptr h) bs') as E3.
  { rewrite E1, delete_insert_id by done. unfold blocks. by rewrite Hr. }
  rewrite E3. split; [|split; [done|]].
  - exists bs'. split; [done|]. by destruct Ha as [-> _].
  - assert (blocks (heap_ptr h) bs' = blocks (heap_ptr h) (xs ++ (false, l) :: ys)) as ->.
    { unfold blocks. rewrite Hr, regions_app. cbn [regions Datatypes.app]. by rewrite Z.add_0_l. }
    apply (data_kept_contents _ (xs ++ (false, l) :: ys)); [|done|auto].
    rewrite Forall_app, Forall_cons in Hb |- *. done.
Qed.

Lemma coal_no_used bs : coal false bs -> Forall block_ok bs -> (forall B, blocks B bs = ∅) -> bs = [] \/ exists l, bs = [(false, l)].
Proof.
  intros Hc Hb Hm. assert (forall l ys xs, bs <> xs ++ (true, l) :: ys) as Hno.
  { intros l ys xs E. assert (blocks 0 bs !! (0 + (total xs + 12)) = Some (l - 12)) as H by (apply blocks_lookup; [done|]; eauto 10).
    by rewrite Hm, lookup_empty in H. }
  destruct bs as [|[[|] l] bs]; [by left|by destruct (Hno l bs [])|]. destruct bs as [|[[|] l2] bs]; [right; by exists l|by destruct (Hno l2 bs [(false, l)])|].
  cbn in Hc. destruct Hc as (_ & Hc & _). by specialize (Hc eq_refl).
Qed.

(** ** Writing into a block, [rt_calloc] *)

(** Memory that differs only in the data of the used blocks. *)
Lemma layout_data bs h r' : layout bs h ->
  (forall x, ~ user_byte 0 bs (x - heap_ptr h) -> r' x = ram h x) -> layout bs (set_ram r' h).
Proof.
  intros [Hba Hsi Hen Hto Hbl Hse Hla] Hr. split; try done; cbn [ram set_ram heap_ptr heap_end].
  - assert (forall pos bs', Forall block_ok bs' -> forall prev,
      (forall x, heap_ptr h + pos <= x < heap_ptr h + (pos + total bs') -> ~ user_byte pos bs' (x - heap_ptr h) -> r' x = ram h x) ->
      seg (ram h) (heap_ptr h) prev pos bs' -> seg r' (heap_ptr h) prev pos bs') as H.
    { intros pos bs' Hb. revert pos. induction Hb as [|[u l] bs' [Hl _] Hb IH]; intros pos prev Hx; [done|]. cbn [snd] in Hl.
      pose proof (total_nonneg bs' Hb). rewrite total_cons in Hx. intros [Hh Hs]. split.
      - rewrite <- Hh. apply hdr_ext. intros x Hxx. apply Hx; [lia|]. cbn [user_byte]. intros [[_ K]|K]; [lia|].
        apply user_byte_bounds in K; [lia|done].
      - apply IH; [|done]. intros x Hxx Hn. apply Hx; [lia|]. cbn [user_byte]. intros [[_ K]|K]; [lia|by apply Hn]. }
    apply (H 0 bs Hbl 0); [|done]. intros x _ Hn. by apply Hr.
  - rewrite (hdr_ext (ram h) r'); [done|]. intros x Hx. apply Hr. intros K. apply user_byte_bounds in K; [lia|done].
Qed.

Lemma heap_write h m a n x d : heap_of h m -> m !! a = Some n -> a <= x -> x + Z.of_nat (length d) <= a + n ->
  heap_of (set_ram (store x d (ram h)) h) m /\ contents_kept (delete a m) h (set_ram (store x d (ram h)) h).
Proof.
  intros Hh Ha Hlo Hd. destruct (blocks_disjoint h m a n Hh Ha) as (_ & _ & _ & _ & Hex). destruct Hh as (bs & Hok & ->). split.
  - exists bs. split; [|done]. pose proof (heap_ok_blocks _ _ Hok) as Hb. destruct Hok as [Hl Hc Hf Hu]. split; try done.
    apply layout_data; [done|]. intros y Hy. apply store_out.
    destruct (decide (y < x \/ x + Z.of_nat (length d) <= y)) as [H|H]; [done|]. exfalso. apply Hy.
    eapply block_bytes; [done|exact Ha|lia].
  - intros b k y Hm Hy. apply lookup_delete_Some in Hm as [Hne Hm]. cbn [ram set_ram]. apply store_out.
    destruct (Hex b k Hm) as [H|H]; [done|lia].
Qed.

(** [rt_calloc] gives zeroed memory for all of its objects, if their size fits 32 bits. *)
Lemma calloc_spec count size m h :
  heap_of h m -> 0 < count * size <= 2 ^ 32 - 4 ->
  wp (rt_calloc count size) h (fun a h' => a = 0 /\ h' = h \/
    (exists n, a <> 0 /\ count * size <= n /\ m !! a = None /\ heap_of h' (<[a := n]> m) /\
      (forall i, 0 <= i < count * size -> ram h' (a + i) = 0) /\ contents_kept m h h')).
Proof.
  intros (bs & Hok & ->) Hs. unfold rt_calloc. rewrite wrap_small by lia. wp_step.
  eapply wp_mono; [by apply malloc_map|]. cbn beta. intros a h' [(-> & -> & _)|(n & Hne & Hn & Hfresh & Hh & Ha & Hk)].
  - cbn [Z.eqb negb when]. wp_steps. by left.
  - rewrite (proj2 (Z.eqb_neq a 0)) by done. cbn [negb when]. unfold rt_memset. wp_steps. right. exists n. split; [done|]. split; [done|]. split; [done|].
    set (d := replicate (Z.to_nat (count * size)) 0). assert (Z.of_nat (length d) = count * size) as Hd by (unfold d; rewrite length_replicate; lia).
    destruct (heap_write h' _ a n a d Hh (lookup_insert_eq _ _ _) ltac:(lia) ltac:(lia)) as [Hh2 Hk2]. split; [done|]. split.
    + intros i Hi. cbn [ram set_ram]. replace i with (Z.of_nat (Z.to_nat i)) by lia. rewrite store_nth by lia.
      unfold d. by rewrite nth_lookup, lookup_replicate_2 by lia.
    + intros b k x Hb Hx. rewrite <- (Hk b k x Hb Hx). apply (Hk2 b k x); [|done].
      rewrite delete_insert_id by done. done.
Qed.

(** ** [rt_realloc] *)

(** A block becomes shorter in its place. *)
Lemma layout_shrink xs l a ys h :
  layout (xs ++ (true, l) :: ys) h -> 16 <= a -> a mod 4 = 0 -> 24 < l - a ->
  let B := heap_ptr h in let p := total xs in
  wp (cut p (p + a) (p + l)) h (fun _ h' =>
    layout (xs ++ (true, a) :: (false, l - a) :: ys) h' /\ (exists r, h' = set_ram r h) /\
    data_kept (xs ++ (true, a) :: (false, l - a) :: ys) h h').
Proof.
  intros Hl Ha Ham Hla B p. pose proof (layout_placed _ _ _ _ _ Hl) as [H1 H2 H3 H4 Hn].
  unfold cut. wp_step. unfold get at 1, wp at 1. change SIZEOF_STRUCT_MEM with 12. rewrite (wrap_small 32 (mem_size_aligned h + 12)) by lia.
  unfold set_magic, set_used, set_next, set_prev, get_next. wp_steps. cbn [ram set_ram].
  fold B p in H1, H2, H3, H4, Hn. fold B. set (r5 := update Next (B + p) (p + a) _).
  assert (hdr r5 (B + p) = Header HEAP_MAGIC 1 (p + a) (last_of 0 0 xs)) as R1 by (unfold r5; hdr_steps; by rewrite H4).
  assert (hdr r5 (B + (p + a)) = Header HEAP_MAGIC 0 (p + l) p) as R2 by (unfold r5; by hdr_steps).
  assert (hdr r5 (B + (p + l)) = hdr (ram h) (B + (p + l))) as R3 by (unfold r5; by hdr_steps).
  change (fetch Next (B + (p + a)) r5) with (h_next (hdr r5 (B + (p + a)))). rewrite R2. cbn [h_next].
  assert (forall x, user_byte 0 (xs ++ (true, a) :: (false, l - a) :: ys) x -> r5 (B + x) = ram h (B + x) /\
    (x < p + l \/ p + l + 12 <= x)) as Out.
  { destruct (layout_blocks_app _ _ _ Hl) as [Bx By]. apply Forall_cons in By as [_ By].
    intros x Hx. rewrite user_byte_app in Hx. cbn [user_byte] in Hx. rewrite !Z.add_0_l in Hx. fold p in Hx.
    assert ((x < p \/ p + 12 <= x) /\ (x < p + a \/ p + a + 12 <= x) /\ (x < p + l \/ p + l + 12 <= x)) as (K1 & K2 & K3).
    { destruct Hx as [Hx|[[_ Hx]|[[? _]|Hx]]]; [|lia|done|]; apply user_byte_bounds in Hx; try done; unfold p in *; lia. }
    split; [|done]. unfold r5. rewrite !update_out by lia. done. }
  assert (forall x, x < B + p \/ B + (p + l) <= x < B + (p + l) + 8 \/ B + (p + l) + 12 <= x -> r5 x = ram h x) as Out5.
  { intros x Hx. unfold r5. rewrite !update_out by lia. done. }
  destruct (p + l =? mem_size_aligned h + 12) eqn:Ee; cbn [negb when]; wp_steps.
  - split; [|split; [by eexists|]].
    + apply (layout_split xs true true l a ys h r5 (h_prev (hdr (ram h) (B + (p + l)))) Hl); try done; try lia.
      intros Hne. destruct ys as [|[u2 l2] ys]; [done|]. lia.
    + intros x Hx. by apply Out.
  - split; [|split; [by eexists|]]; cbn [ram set_ram].
    + apply (layout_split xs true true l a ys h _ (p + a) Hl); try done; try lia.
      * fold B p. by rewrite hdr_other by lia.
      * fold B p. by rewrite hdr_other by lia.
      * fold B p. rewrite hdr_same by (cbn; lia). by rewrite R3.
      * intros x Hx. rewrite update_prev_out by (fold B p in Hx; lia). by apply Out5.
    + intros x Hx. cbn [ram set_ram]. fold B. destruct (Out x Hx) as [<- K]. apply update_out. lia.
Qed.

(** The block [a] of [n] bytes after [rt_realloc]: the place [b], the map without it, and the
    bytes that were in it. *)
Definition moved (m : gmap Z Z) (a n newsize : Z) h (b : Z) h' : Prop :=
  b = 0 /\ heap_of h' m /\ contents_kept m h h' \/
  exists k, b <> 0 /\ newsize <= k /\ delete a m !! b = None /\ heap_of h' (<[b := k]> (delete a m)) /\
    contents_kept (delete a m) h h' /\ forall i, 0 <= i < Z.min n newsize -> ram h' (b + i) = ram h (a + i).

Lemma first_free_cut pos xs a l ys :
  first_free pos (xs ++ (true, a) :: (true, l) :: ys) = first_free pos (xs ++ (true, a + l) :: ys).
Proof.
  revert pos. induction xs as [|[u k] xs IH]; intros pos; cbn [Datatypes.app first_free]; [f_equal; lia|].
  destruct u; [apply IH|done].
Qed.

(** The map after a block was made shorter. *)
Lemma blocks_resize B xs l a ys :
  Forall block_ok (xs ++ (true, l) :: ys) -> Forall block_ok (xs ++ (true, a) :: (false, l - a) :: ys) ->
  blocks B (xs ++ (true, a) :: (false, l - a) :: ys) =
  <[B + (total xs + 12) := a - 12]> (delete (B + (total xs + 12)) (blocks B (xs ++ (true, l) :: ys))).
Proof.
  intros H1 H2. destruct (blocks_insert B _ xs l ys _ _ H1 eq_refl eq_refl eq_refl) as [-> E2].
  destruct (blocks_insert B _ xs a _ _ _ H2 eq_refl eq_refl eq_refl) as [-> _].
  rewrite delete_insert_id by done. f_equal. cbn [regions Datatypes.app]. by replace (total xs + a + (l - a)) with (total xs + l) by lia.
Qed.

(** The state after a block was cut to [newsize] bytes, where the rest went into the chain. *)
Lemma moved_in_place xs l newsize ys bs' h h' :
  let bs2 := xs ++ (true, newsize + 12) :: (false, l - (newsize + 12)) :: ys in
  Forall block_ok (xs ++ (true, l) :: ys) -> Forall block_ok bs2 -> 0 < heap_ptr h -> newsize + 12 <= l ->
  heap_ok bs' h' -> heap_ptr h' = heap_ptr h -> regions 0 bs' = regions 0 bs2 -> data_kept bs2 h h' ->
  let a := heap_ptr h + (total xs + 12) in
  moved (blocks (heap_ptr h) (xs ++ (true, l) :: ys)) a (l - 12) newsize h a h'.
Proof.
  intros bs2 Hb Hb2 Hp Hle Hok Hp' Hr Hd a. pose proof (blocks_resize (heap_ptr h) xs l (newsize + 12) ys Hb Hb2) as E. fold bs2 a in E.
  replace (newsize + 12 - 12) with newsize in E by lia.
  pose proof (data_kept_contents bs2 bs2 h h' Hb2 Hd (fun x H => H)) as K. rewrite E in K.
  assert (0 <= total xs) by (apply total_nonneg; by apply Forall_app in Hb as [? _]).
  right. exists newsize. split; [lia|]. split; [done|]. split; [by rewrite lookup_delete_eq|]. split; [|split].
  - exists bs'. split; [done|]. rewrite Hp', <- E. unfold blocks. by rewrite Hr.
  - intros b k x Hm Hx. apply (K b k x); [|done]. rewrite lookup_insert_ne; [done|]. intros <-. by rewrite lookup_delete_eq in Hm.
  - intros i Hi. apply (K a newsize); [by rewrite lookup_insert_eq|lia].
Qed.

Lemma shrink_spec xs l newsize ys h :
  heap_ok (xs ++ (true, l) :: ys) h -> 4 <= newsize -> newsize mod 4 = 0 -> newsize + 24 < l - 12 ->
  let a := heap_ptr h + (total xs + 12) in
  wp (shrink a newsize (total xs) (total xs + l) (l - 12)) h (moved (blocks (heap_ptr h) (xs ++ (true, l) :: ys)) a (l - 12) newsize h).
Proof.
  intros Hok Hs Hsm Hfit a. pose proof (heap_ok_blocks _ _ Hok) as Hb. destruct Hok as [Hl Hc Hf Hu].
  pose proof (layout_placed _ _ _ _ _ Hl) as [H1 H2 H3 H4 _]. destruct (layout_blocks_app _ _ _ Hl) as [Bx By]. apply Forall_cons in By as [_ By].
  set (B := heap_ptr h) in *. set (p := total xs) in *.
  unfold shrink. wp_step. unfold get at 1, wp at 1. fold B. change SIZEOF_STRUCT_MEM with 12. wp_steps.
  rewrite (wrap_small 32 (p + 12 + newsize)) by lia. replace (p + 12 + newsize) with (p + (newsize + 12)) by lia.
  set (h1 := set_stats _ _ h). assert (layout (xs ++ (true, l) :: ys) h1) as L1 by (by apply (layout_vars _ h)).
  eapply wp_mono; [apply (layout_shrink xs l (newsize + 12) ys h1 L1); try lia; clear -Hsm; Z.to_euclidean_division_equations; lia|]. cbn beta.
  intros _ h2 (L2 & [r2 ->] & D2). set (h2 := set_ram r2 h1) in *.
  set (xs2 := xs ++ [(true, newsize + 12)]). assert (xs ++ (true, newsize + 12) :: (false, l - (newsize + 12)) :: ys = xs2 ++ (false, l - (newsize + 12)) :: ys) as Exs
    by (unfold xs2; by rewrite <- app_assoc).
  assert (total xs2 = p + (newsize + 12)) as Et by (unfold xs2; rewrite total_app, total_cons; change (total []) with 0; lia).
  rewrite Exs in L2, D2. rewrite <- Et.
  destruct (layout_blocks_app _ _ _ L2) as [Bx2 _].
  set (bs2 := xs2 ++ (false, l - (newsize + 12)) :: ys) in *. set (h3 := set_lfree (B + first_free 0 bs2) h2).
  wp_step. apply wp_lower; [done|]. replace (set_lfree _ h2) with h3.
  2: { pose proof (first_free_freed xs2 true (l - (newsize + 12)) ys Bx2 By ltac:(lia)) as E. fold bs2 in E.
    unfold xs2 in E at 2. rewrite <- app_assoc in E. cbn [Datatypes.app] in E. rewrite first_free_cut in E.
    replace (newsize + 12 + (l - (newsize + 12))) with l in E by lia. unfold h3. rewrite E, Hf. f_equal. lia. }
  wp_step.
  apply coal_app in Hc as [Cx [_ Cy]].
  eapply wp_mono; [apply (plug_holes_spec xs2 (l - (newsize + 12)) ys h3); try done|].
  { by apply layout_lfree. }
  { apply coal_app. by split. }
  cbn beta. intros _ h' (bs' & L' & C' & F' & ([r ->] & R' & T' & D' & X')). wp_steps. fold bs2 in R', T', D', X'.
  apply (moved_in_place xs l newsize ys bs' h); rewrite ?Exs; try done; try lia.
  - by apply lay_blocks in L2.
  - split; [done..|]. cbn [used_mem h3 h2 h1 set_ram set_lfree set_stats]. rewrite Hu, T'. unfold bs2, xs2.
    pose proof (used_total_bounds _ Bx). pose proof (used_total_bounds _ By). fold p in H.
    rewrite !used_total_app, !used_total_cons. change (used_total []) with 0. rewrite wrap_small by lia. lia.
  - exact (data_kept_trans bs2 bs2 h1 h3 _ D2 D' (fun _ H => H) eq_refl).
Qed.


Lemma length_load_bytes a n r : length (load_bytes a n r) = Z.to_nat n.
Proof. unfold load_bytes. by rewrite length_map, length_seq. Qed.

Lemma store_loaded a b n r r' i : 0 <= i < n -> store b (load_bytes a n r) r' (b + i) = r (a + i).
Proof.
  intros Hi. replace i with (Z.of_nat (Z.to_nat i)) by lia. rewrite store_nth by (rewrite length_load_bytes; lia).
  unfold load_bytes. rewrite (nth_indep _ 0 (r (a + Z.of_nat 0))) by (rewrite length_map, length_seq; lia).
  rewrite (map_nth (fun j => r (a + Z.of_nat j))). rewrite seq_nth by lia. done.
Qed.

(** A block moves when it cannot stay; without memory for it, it stays as it was. *)
Lemma move_spec m a n newsize h :
  heap_of h m -> m !! a = Some n -> 0 < newsize <= 2 ^ 32 - 4 -> wp (move a newsize n) h (moved m a n newsize h).
Proof.
  intros Hh Ha Hs. pose proof Hh as (bs & Hok & Em). unfold move. wp_step.
  eapply wp_mono; [by apply (malloc_map bs)|]. rewrite <- Em. cbn beta.
  intros b h1 [(-> & -> & _)|(k & Hb & Hk & Hf & Hh1 & _ & K1)]; [wp_steps; by left|].
  rewrite (proj2 (Z.eqb_neq b 0)) by done. cbn [negb when]. unfold rt_memcpy. wp_steps.
  set (c := if n <? newsize then n else newsize). assert (c = Z.min n newsize) as Ec by (unfold c; destruct (n <? newsize) eqn:?; lia).
  assert (a <> b) as Hab by (by intros ->; rewrite Ha in Hf). set (d := load_bytes a c (ram h1)).
  destruct (heap_write h1 _ b k b d Hh1 (lookup_insert_eq _ _ _)) as [Hh2 K2]; [lia|unfold d; rewrite length_load_bytes; lia|].
  rewrite delete_insert_id in K2 by done. set (h2 := set_ram (store b d (ram h1)) h1) in *.
  eapply wp_mono; [apply (free_map _ a n h2 Hh2); by rewrite lookup_insert_ne by done|]. cbn beta.
  intros _ h3 (Hh3 & _ & K3). wp_steps. rewrite delete_insert_ne in Hh3, K3 by done.
  right. exists k. split; [done|]. split; [done|]. split; [by rewrite lookup_delete_ne by done|]. split; [done|]. split.
  - intros x j y Hx Hy. pose proof Hx as Hx'. apply lookup_delete_Some in Hx' as [_ Hx'].
    rewrite (K3 x j y), (K2 x j y), (K1 x j y); try done. rewrite lookup_insert_ne; [done|]. intros <-. by rewrite Hf in Hx'.
  - intros i Hi. rewrite (K3 b k) by (try rewrite lookup_insert_eq; done || lia).
    cbn [h2 set_ram ram]. unfold d. rewrite store_loaded by lia. apply (K1 a n); [done|lia].
Qed.

(** [rt_realloc] of a block in use keeps what fits of its contents, wherever the block
    ends up, and the contents of every other block; when there is no memory it gives NULL and
    nothing has changed. *)
Lemma realloc_spec m a n newsize h :
  heap_of h m -> m !! a = Some n -> 0 < newsize <= 2 ^ 32 - 4 -> wp (rt_realloc a newsize) h (moved m a n newsize h).
Proof.
  intros Hh Ha Hs. destruct (RT_ALIGN_spec newsize) as [Hr Hrm]; [lia|]. unfold rt_realloc. cbv zeta.
  set (s := RT_ALIGN newsize RT_ALIGN_SIZE) in *.
  assert (forall b h', moved m a n s h b h' -> moved m a n newsize h b h') as Hmono.
  { intros b h' [H|(k & ? & ? & ? & ? & ? & H)]; [by left|]. right. exists k. split_and!; try done; [lia|]. intros i Hi. apply H. lia. }
  wp_step. unfold get at 1, wp at 1. pose proof Hh as (bs & Hok & Em). pose proof (heap_ok_blocks _ _ Hok) as Hb.
  destruct (mem_size_aligned h <? s) eqn:Ebig; [wp_steps; by left|]. pose proof Ha as Ha'. rewrite Em in Ha'.
  apply blocks_lookup in Ha' as (xs & l & ys & E & -> & ->); [|done]. subst bs. pose proof Hok as [Hl _ _ _].
  pose proof (layout_placed _ _ _ _ _ Hl) as [H1 H2 H3 H4 _]. set (a := heap_ptr h + (total xs + 12)) in *.
  rewrite (proj2 (Z.eqb_neq s 0)), (proj2 (Z.eqb_neq a 0)), (proj2 (Z.ltb_ge a _)), (proj2 (Z.leb_gt _ a)) by lia. cbn [orb].
  change SIZEOF_STRUCT_MEM with 12. change MIN_SIZE with 12.
  replace (u32 (a - 12)) with (heap_ptr h + total xs) by (rewrite wrap_small; lia).
  replace (u32 (heap_ptr h + total xs - heap_ptr h)) with (total xs) by (rewrite wrap_small; lia).
  unfold get_next at 1. wp_steps. change (fetch Next (heap_ptr h + total xs) (ram h)) with (h_next (hdr (ram h) (heap_ptr h + total xs))).
  rewrite H4. cbn [h_next]. replace (u32 (total xs + l - total xs - 12)) with (l - 12) by (rewrite wrap_small; lia).
  assert (4 <= s) by (clear -Hr Hrm Hs; Z.to_euclidean_division_equations; lia).
  rewrite (wrap_small 32 (s + 12 + 12)) by lia.
  destruct (l - 12 =? s) eqn:Esame; [|destruct (s + 12 + 12 <? l - 12) eqn:Efit].
  - wp_steps. apply Hmono. right. exists (l - 12). split; [lia|]. split; [lia|]. split; [by rewrite lookup_delete_eq|].
    rewrite insert_delete_eq, insert_id by done. by split.
  - eapply wp_mono; [apply (shrink_spec xs l s ys h Hok); (done || lia)|]. intros b h' K. apply Hmono. by rewrite Em.
  - eapply wp_mono; [apply (move_spec m a (l - 12) s h Hh Ha); lia|]. exact Hmono.
Qed.

(** ** Start *)

(** The chain of a fresh heap: one free block over all of it. *)
Lemma init_spec b e h :
  0 < b <= 2 ^ 32 - 4 -> 0 <= e < 2 ^ 32 -> b + 40 <= e -> used_mem h = 0 ->
  wp (rt_system_heap_init b e) h (fun _ h' => heap_of h' ∅ /\ heap_ptr h' = RT_ALIGN b RT_ALIGN_SIZE /\
    heap_end h' + 12 = RT_ALIGN_DOWN e RT_ALIGN_SIZE).
Proof.
  intros Hb He Hbe Hu. destruct (RT_ALIGN_spec b) as [Hr Hrm]; [lia|]. unfold rt_system_heap_init.
  set (B := RT_ALIGN b RT_ALIGN_SIZE) in *. set (E := RT_ALIGN_DOWN e RT_ALIGN_SIZE) in *.
  assert (e - 4 < E <= e /\ E mod 4 = 0) as [HE HEm].
  { unfold E, RT_ALIGN_DOWN. rewrite land_lnot_3. change RT_ALIGN_SIZE with 4. split; [Z.to_euclidean_division_equations; lia|apply Z.mod_mul; lia]. }
  assert (36 <= E - B) as HEB by (clear -HE HEm Hr Hrm Hbe; Z.to_euclidean_division_equations; lia).
  cbv zeta. change SIZEOF_STRUCT_MEM with 12. rewrite (proj2 (Z.ltb_lt _ E)), (proj2 (Z.leb_le B _)) by lia. cbn [andb].
  set (size := E - B - 2 * 12). rewrite (wrap_small 32 (size + 12)) by lia.
  unfold set_magic, set_used, set_next, set_prev, get_next. wp_steps. cbn [ram set_ram heap_ptr heap_end mem_size_aligned used_mem].
  set (r4 := update Used B 0 _). assert (hdr r4 B = Header HEAP_MAGIC 0 (size + 12) 0) as R4 by (unfold r4; by hdr_steps).
  assert (fetch Next B r4 = size + 12) as -> by (change (h_next (hdr r4 B) = size + 12); by rewrite R4).
  set (r8 := update Prev (B + (size + 12)) (size + 12) _).
  assert (hdr r8 (B + (size + 12)) = Header HEAP_MAGIC 1 (size + 12) (size + 12)) as R8 by (unfold r8; by hdr_steps).
  assert (hdr r8 B = Header HEAP_MAGIC 0 (size + 12) 0) as R8' by (unfold r8; by hdr_steps).
  split; [|split; [done|cbn; unfold size; lia]]. exists [(false, size + 12)]. split; [|done].
  split; [split| |cbn; lia|done]; cbn [heap_ptr heap_end mem_size_aligned ram set_ram set_lfree]; try done; try lia.
  - split; [lia|]. unfold size. clear -Hrm HEm. Z.to_euclidean_division_equations; lia.
  - rewrite total_cons. change (total []) with 0. lia.
  - repeat constructor; cbn [snd]; [lia|]. unfold size. clear -Hrm HEm. Z.to_euclidean_division_equations; lia.
  - cbn [seg]. rewrite Z.add_0_r. by split.
  - rewrite R8. done.
Qed.

(** ** The heap and its clients

    What the users of the heap know of it: the addresses they hold, with the sizes they asked
    for. *)

Inductive request : Set :=
| Malloc (size : Z)
| Calloc (count size : Z)
| Realloc (rmem newsize : Z)
| Free (rmem : Z).

Definition serve (q : request) : M heap Z :=
  match q with
  | Malloc size => rt_malloc size
  | Calloc count size => rt_calloc count size
  | Realloc rmem newsize => rt_realloc rmem newsize
  | Free rmem => rt_free rmem ;;; ret 0
  end.

(** Requests of sizes that rounding keeps within 32 bits, about blocks that are held. *)
Definition legal (m : gmap Z Z) (q : request) : Prop :=
  match q with
  | Malloc size => 0 < size <= 2 ^ 32 - 4
  | Calloc count size => 0 < count * size <= 2 ^ 32 - 4
  | Realloc rmem newsize => is_Some (m !! rmem) /\ 0 < newsize <= 2 ^ 32 - 4
  | Free rmem => is_Some (m !! rmem)
  end.

(** What is held after the answer [r]. *)
Definition ledger (q : request) (r : Z) (m : gmap Z Z) : gmap Z Z :=
  match q with
  | Malloc size => if r =? 0 then m else <[r := size]> m
  | Calloc count size => if r =? 0 then m else <[r := count * size]> m
  | Realloc rmem newsize => if r =? 0 then m else <[r := newsize]> (delete rmem m)
  | Free rmem => delete rmem m
  end.

(** The block a request may change. *)
Definition target (q : request) : option Z :=
  match q with Realloc rmem _ | Free rmem => Some rmem | _ => None end.

(** What the answer promises of the memory. *)
Definition promises (q : request) (m : gmap Z Z) h (r : Z) h' : Prop :=
  match q with
  | Malloc _ | Free _ => True
  | Calloc count size => r <> 0 -> forall i, 0 <= i < count * size -> ram h' (r + i) = 0
  | Realloc rmem newsize => forall n, m !! rmem = Some n ->
      if r =? 0 then forall i, 0 <= i < n -> ram h' (rmem + i) = ram h (rmem + i)
      else forall i, 0 <= i < Z.min n newsize -> ram h' (r + i) = ram h (rmem + i)
  end.

(** The start of the system, its requests, and its writes into the blocks it holds. *)
Inductive client : heap -> gmap Z Z -> Prop :=
| client_start b e h h' :
    0 < b <= 2 ^ 32 - 4 -> 0 <= e < 2 ^ 32 -> b + 40 <= e -> used_mem h = 0 ->
    rt_system_heap_init b e h = Ok (tt, h') -> client h' ∅
| client_request h m q (r : Z) h' :
    client h m -> legal m q -> serve q h = Ok (r, h') -> client h' (ledger q r m)
| client_write h m a n x d :
    client h m -> m !! a = Some n -> a <= x -> x + Z.of_nat (length d) <= a + n ->
    client (set_ram (store x d (ram h)) h) m.

(** The client's blocks are the heap's, which may be longer. *)
Definition holds (m M : gmap Z Z) : Prop := map_relation (fun _ n k => n <= k) (fun _ _ => False) (fun _ _ => False) m M.

Lemma holds_lookup m M a n : holds m M -> m !! a = Some n -> exists k, M !! a = Some k /\ n <= k.
Proof. intros H Ha. specialize (H a). rewrite Ha in H. destruct (M !! a) as [k|]; [by exists k|done]. Qed.

Lemma holds_none m M a : holds m M -> M !! a = None -> m !! a = None.
Proof. intros H Ha. specialize (H a). rewrite Ha in H. by destruct (m !! a). Qed.

Lemma holds_insert m M a n k : holds m M -> n <= k -> holds (<[a := n]> m) (<[a := k]> M).
Proof.
  intros H Hn b. destruct (decide (a = b)) as [<-|Hne]; [by rewrite !lookup_insert_eq|]. rewrite !lookup_insert_ne by done. apply H.
Qed.

Lemma holds_delete m M a : holds m M -> holds (delete a m) (delete a M).
Proof.
  intros H b. destruct (decide (a = b)) as [<-|Hne]; [by rewrite !lookup_delete_eq|]. rewrite !lookup_delete_ne by done. apply H.
Qed.

Lemma holds_empty M : holds ∅ M -> M = ∅.
Proof.
  intros H. apply map_empty. intros a. specialize (H a). rewrite lookup_empty in H. by destruct (M !! a).
Qed.

Lemma contents_held m M h h' a n x : holds m M -> contents_kept M h h' -> m !! a = Some n -> a <= x < a + n -> ram h' x = ram h x.
Proof. intros H K Ha Hx. destruct (holds_lookup _ _ _ _ H Ha) as (k & Hk & Hn). apply (K a k x Hk). lia. Qed.

(** Every request a client may make is answered, and the heap keeps its side: what the client
    holds stays the heap's map of blocks, with the contents. *)
Lemma serve_spec h m M q :
  heap_of h M -> holds m M -> legal m q ->
  wp (serve q) h (fun (r : Z) h' => (exists M', heap_of h' M' /\ holds (ledger q r m) M') /\ promises q m h r h' /\
    (r <> 0 -> m !! r = None \/ target q = Some r) /\
    forall a n x, m !! a = Some n -> target q <> Some a -> a <= x < a + n -> ram h' x = ram h x).
Proof.
  intros Hh Hm Hq. destruct q as [size|count size|a newsize|a]; cbn [serve legal ledger target promises] in *.
  - destruct Hh as (bs & Hok & ->). eapply wp_mono; [by apply (malloc_map bs)|]. cbn beta.
    intros r h' [(-> & -> & _)|(n & Hr & Hn & Hf & Hh' & _ & K)].
    + cbn. split; [|done]. exists (blocks (heap_ptr h) bs). split; [by exists bs|done].
    + rewrite (proj2 (Z.eqb_neq r 0)) by done. split; [|split; [done|split]].
      * eexists. split; [done|]. by apply holds_insert.
      * intros _. left. by eapply holds_none.
      * intros a k x Ha _ Hx. by eapply contents_held.
  - eapply wp_mono; [by apply (calloc_spec count size M)|]. cbn beta.
    intros r h' [(-> & ->)|(n & Hr & Hn & Hf & Hh' & Hz & K)].
    + cbn. split; [|done]. by exists M.
    + rewrite (proj2 (Z.eqb_neq r 0)) by done. split; [|split; [done|split]].
      * eexists. split; [done|]. by apply holds_insert.
      * intros _. left. by eapply holds_none.
      * intros a k x Ha _ Hx. by eapply contents_held.
  - destruct Hq as [[n Ha] Hs]. destruct (holds_lookup _ _ _ _ Hm Ha) as (k & Hk & Hn).
    eapply wp_mono; [by apply (realloc_spec M a k newsize h)|]. cbn beta.
    intros r h' [(-> & Hh' & K)|(k' & Hr & Hk' & Hf & Hh' & K & Hc)].
    + cbn. split; [by exists M|]. split; [|split; [done|]].
      * intros n' Hn' i Hi. rewrite Ha in Hn'. injection Hn' as <-. eapply contents_held; [done..|]. lia.
      * intros b j x Hb _ Hx. by eapply contents_held.
    + rewrite (proj2 (Z.eqb_neq r 0)) by done. pose proof (holds_delete _ _ a Hm) as Hd. split; [|split; [|split]].
      * eexists. split; [done|]. by apply holds_insert.
      * intros n' Hn' i Hi. rewrite Ha in Hn'. injection Hn' as <-. apply Hc. lia.
      * intros _. destruct (decide (a = r)) as [<-|Hne]; [by right|left].
        pose proof (holds_none _ _ _ Hd Hf) as E. by rewrite lookup_delete_ne in E.
      * intros b j x Hb Hne Hx. eapply contents_held; [exact Hd|done| |done]. rewrite lookup_delete_ne; [done|]. congruence.
  - destruct Hq as [n Ha]. destruct (holds_lookup _ _ _ _ Hm Ha) as (k & Hk & Hn). wp_step.
    eapply wp_mono; [by apply (free_map M a k)|]. cbn beta. intros _ h' (Hh' & _ & K). wp_steps.
    pose proof (holds_delete _ _ a Hm) as Hd. split; [by eexists|]. split; [done|]. split; [done|].
    intros b j x Hb Hne Hx. eapply contents_held; [exact Hd|done| |done]. rewrite lookup_delete_ne; [done|]. congruence.
Qed.

Lemma client_heap h m : client h m -> exists M, heap_of h M /\ holds m M.
Proof.
  induction 1 as [b e h h' H1 H2 H3 H4 H5|h m q r h' _ (M & Hh & Hm) Hq E|h m a n x d _ (M & Hh & Hm) Ha Hx Hd].
  - pose proof (init_spec b e h H1 H2 H3 H4) as H. unfold wp in H. rewrite H5 in H. exists ∅. split; [apply H|]. intros a. by rewrite lookup_empty.
  - pose proof (serve_spec h m M q Hh Hm Hq) as H. unfold wp in H. rewrite E in H. apply H.
  - destruct (holds_lookup _ _ _ _ Hm Ha) as (k & Hk & Hn). exists M. split; [|done]. eapply heap_write; [done..|lia].
Qed.

(** C37. The heap serves its clients. Whatever was asked of it since the start, and whatever was
    written into the blocks it gave: the blocks held are aligned, inside the heap and apart
    from each other; every legal request is answered, no assertion fails; the answer is NULL
    or a block apart from those still held, as the ledger has it; the blocks the request is
    not about keep their contents, [rt_calloc] gives zeros, and [rt_realloc] keeps what fits. *)
Theorem heap_serves h m : client h m ->
  (forall a n, m !! a = Some n -> a mod 4 = 0 /\ heap_ptr h <= a /\ a + n <= heap_end h /\
     forall b k, m !! b = Some k -> a = b \/ a + n <= b \/ b + k <= a) /\
  (forall q, legal m q -> exists (r : Z) h', serve q h = Ok (r, h') /\ client h' (ledger q r m) /\ promises q m h r h' /\
     (r <> 0 -> m !! r = None \/ target q = Some r) /\
     forall a n x, m !! a = Some n -> target q <> Some a -> a <= x < a + n -> ram h' x = ram h x).
Proof.
  intros Hc. destruct (client_heap h m Hc) as (M & Hh & Hm). split.
  - intros a n Ha. destruct (holds_lookup _ _ _ _ Hm Ha) as (k & Hk & Hn).
    destruct (blocks_disjoint h M a k Hh Hk) as (H1 & H2 & _ & H4 & H5). split; [done|]. split; [lia|]. split; [lia|].
    intros b j Hb. destruct (holds_lookup _ _ _ _ Hm Hb) as (j' & Hj & Hjn). destruct (H5 b j' Hj) as [->|H6]; [by left|right; lia].
  - intros q Hq. pose proof (serve_spec h m M q Hh Hm Hq) as H. unfold wp in H. destruct (serve q h) as [[r h']|] eqn:E; [|done].
    exists r, h'. split; [done|]. split; [by eapply client_request|]. apply H.
Qed.

(** The heap with no block in use is one piece. *)
Lemma empty_heap h : heap_of h ∅ -> exists l, heap_ok [(false, l)] h /\ l = mem_size_aligned h + 12.
Proof.
  intros (bs & Hok & Hm). pose proof (heap_ok_blocks _ _ Hok) as Hb. pose proof Hok as [Hl Hc _ _].
  assert (regions 0 bs = []) as Hreg.
  { destruct (regions 0 bs) as [|[o n] R] eqn:E; [done|]. exfalso.
    assert (blocks (heap_ptr h) bs !! (heap_ptr h + o) = Some n) as H by (unfold blocks; rewrite E; by apply lookup_insert_eq).
    by rewrite <- Hm, lookup_empty in H. }
  assert (forall B, blocks B bs = ∅) as Hm' by (intros B; unfold blocks; by rewrite Hreg).
  destruct Hl as [Hba Hsi _ Ht _ _ _]. destruct (coal_no_used bs Hc Hb Hm') as [-> | [l ->]]; [change (total []) with 0 in Ht; lia|].
  rewrite total_cons in Ht. change (total []) with 0 in Ht. exists l. split; [done|lia].
Qed.

(** C39. Nothing is lost: whatever was asked for and written since the start, when everything
    was given back the heap is one piece again, and a request for less than all of it gets
    its beginning. *)
Theorem heap_whole_again size h :
  client h ∅ -> 0 < size <= 2 ^ 32 - 4 -> rounded size < mem_size_aligned h ->
  used_mem h = 0 /\ lfree h = heap_ptr h /\
  exists h', rt_malloc size h = Ok (heap_ptr h + 12, h') /\ client h' {[heap_ptr h + 12 := size]}.
Proof.
  intros Hc Hs Hr. destruct (client_heap h ∅ Hc) as (M & Hh & Hm). apply holds_empty in Hm. subst M.
  destruct (empty_heap h Hh) as (l & Hok & El). pose proof Hok as [Hl _ Hf Hu]. split; [done|]. split; [rewrite Hf; cbn; lia|].
  pose proof (heap_malloc_spec _ size h Hok Hs) as W. unfold wp in W. destruct (rt_malloc size h) as [[a h']|] eqn:E; [|done].
  destruct W as [(_ & _ & Hno)|(xs & l2 & ys & E2 & _ & _ & Hfit & -> & _)].
  - exfalso. apply (Hno [] l [] eq_refl). left. lia.
  - destruct xs as [|c xs]; [|by destruct xs]. change (total []) with 0 in *. exists h'. split; [done|].
    pose proof (client_request h ∅ (Malloc size) _ h' Hc Hs E) as Hc'. cbn [ledger] in Hc'.
    destruct Hl as [[Hba _] _ _ _ _ _ _]. rewrite (proj2 (Z.eqb_neq _ 0)) in Hc' by lia. exact Hc'.
Qed.

(** The reference: the first free block that is longer than what was asked for, or exactly as
    long and not the last one. *)
Fixpoint first_fit (size pos : Z) bs : option Z :=
  match bs with
  | [] => None
  | (u, l) :: bs =>
      if negb u && ((size <? l - 12) || (size =? l - 12) && match bs with [] => false | _ => true end) then Some pos
      else first_fit size (pos + l) bs
  end.

Lemma first_fit_none size pos bs :
  (forall xs l ys, bs = xs ++ (false, l) :: ys -> ~ suits size xs l ys) -> first_fit size pos bs = None.
Proof.
  revert pos. induction bs as [|[u l] bs IH]; intros pos Hno; [done|]. cbn [first_fit].
  assert (negb u && ((size <? l - 12) || (size =? l - 12) && match bs with [] => false | _ => true end) = false) as ->.
  { destruct u; [done|]. pose proof (Hno [] l bs eq_refl) as H. unfold suits in H. cbn [negb andb].
    destruct (size <? l - 12) eqn:E; [destruct H; left; lia|]. cbn [orb]. destruct (size =? l - 12) eqn:E2; [|done].
    destruct bs; [done|]. destruct H. right. split; [lia|done]. }
  apply IH. intros xs l' ys ->. by apply (Hno ((u, l) :: xs)).
Qed.

Lemma first_fit_some size pos xs l ys :
  too_small size xs -> suits size xs l ys -> first_fit size pos (xs ++ (false, l) :: ys) = Some (pos + total xs).
Proof.
  intros Hx Hs. revert pos. induction Hx as [|[u k] xs Hk _ IH]; intros pos; cbn [Datatypes.app first_fit].
  - change (total []) with 0. rewrite Z.add_0_r. destruct Hs as [Hs|[-> Hne]].
    + by rewrite (proj2 (Z.ltb_lt size _)) by lia.
    + rewrite Z.eqb_refl. destruct ys; [done|]. by rewrite orb_true_r.
  - cbn [fst snd] in Hk. assert (negb u && ((size <? k - 12) || (size =? k - 12) && match xs ++ (false, l) :: ys with [] => false | _ => true end) = false) as ->.
    { destruct u; [done|]. destruct Hk as [|Hk]; [done|]. cbn [negb andb].
      by rewrite (proj2 (Z.ltb_ge size _)), (proj2 (Z.eqb_neq size _)) by lia. }
    rewrite IH, total_cons by (by destruct Hs; [left|right]). f_equal. lia.
Qed.

(** C38. [rt_malloc] is first fit: it answers as the reference does on the chain of blocks the
    memory holds, and without a block that would do nothing changes. *)
Theorem malloc_first_fit h m size :
  client h m -> 0 < size <= 2 ^ 32 - 4 -> exists bs h', layout bs h /\
    rt_malloc size h = Ok (match first_fit (rounded size) 0 bs with Some pos => heap_ptr h + (pos + 12) | None => 0 end, h') /\
    (first_fit (rounded size) 0 bs = None -> h' = h).
Proof.
  intros Hc Hs. destruct (client_heap h m Hc) as (M & (bs & Hok & _) & _). exists bs.
  pose proof (heap_malloc_spec bs size h Hok Hs) as W. unfold wp in W. destruct (rt_malloc size h) as [[a h']|]; [|done].
  exists h'. split; [apply Hok|]. destruct W as [(-> & -> & Hno)|(xs & l & ys & -> & Hx & Hsu & _ & -> & _)].
  - by rewrite (first_fit_none _ 0 bs Hno).
  - by rewrite (first_fit_some _ 0 xs l ys Hx Hsu).
Qed.

(** The last block of the heap is not given for exactly its size. *)
Lemma exact_fit_refused h : client h ∅ -> rt_malloc (mem_size_aligned h) h = Ok (0, h).
Proof.
  intros Hc. destruct (client_heap h ∅ Hc) as (M & Hh & Hm). apply holds_empty in Hm. subst M.
  destruct (empty_heap h Hh) as (l & Hok & El). pose proof Hok as [[Hba [Hsi Hsm] _ _ _ _ _] _ _ _].
  destruct (RT_ALIGN_spec (mem_size_aligned h)) as [Hr Hrm]; [lia|].
  assert (RT_ALIGN (mem_size_aligned h) RT_ALIGN_SIZE = mem_size_aligned h) as Er.
  { generalize dependent (RT_ALIGN (mem_size_aligned h) RT_ALIGN_SIZE). clear -Hsm. intros A Hr Hrm. Z.to_euclidean_division_equations; lia. }
  unfold rt_malloc. rewrite (proj2 (Z.eqb_neq _ 0)) by lia. cbv zeta. rewrite Er. change MIN_SIZE_ALIGNED with 12.
  unfold bind at 1, get at 1. rewrite Z.ltb_irrefl, (proj2 (Z.ltb_ge _ 12)) by lia. pose proof (heap_lfree _ _ Hok) as Hf. cbn [first_free] in Hf.
  rewrite Hf. unfold chain_fuel. cbn [malloc_loop]. unfold bind at 1, get at 1. rewrite Z.sub_diag.
  by replace (u32 (heap_ptr h + 0 - heap_ptr h)) with 0 by (rewrite wrap_small; lia).
Qed.

(** A size that rounding takes past 32 bits is taken for the smallest one: [rt_malloc]
    answers it as it does twelve bytes, [rt_calloc] asks for the product's low 32 bits, and
    [rt_realloc] frees the block. *)
Theorem oversize_is_tiny size h :
  2 ^ 32 - 4 < size < 2 ^ 32 -> 12 <= mem_size_aligned h ->
  rt_malloc size h = rt_malloc 12 h /\ (forall a, rt_realloc a size h = (rt_free a ;;; ret 0) h) /\
  (forall count k, rt_calloc count k h = rt_calloc 1 (u32 (count * k)) h).
Proof.
  intros Hs Hm. assert (RT_ALIGN size RT_ALIGN_SIZE = 0) as Er.
  { unfold RT_ALIGN. rewrite land_lnot_3. change RT_ALIGN_SIZE with 4. unfold wrap.
    replace (size + 4 - 1) with (size + 3 - 2 ^ 32 + 1 * 2 ^ 32) by lia. rewrite Z.mod_add by lia.
    rewrite Z.mod_small by lia. Z.to_euclidean_division_equations; lia. }
  split; [|split].
  - unfold rt_malloc. rewrite (proj2 (Z.eqb_neq size 0)) by lia. rewrite Er. change (12 =? 0) with false. cbv iota zeta.
    change (RT_ALIGN 12 RT_ALIGN_SIZE) with 12. unfold bind, get.
    by rewrite (proj2 (Z.ltb_ge (mem_size_aligned h) 0)), (proj2 (Z.ltb_ge (mem_size_aligned h) 12)) by lia.
  - intros a. unfold rt_realloc. rewrite Er. unfold bind at 1, get at 1. by rewrite (proj2 (Z.ltb_ge (mem_size_aligned h) 0)) by lia.
  - intros count k. unfold rt_calloc. by rewrite Z.mul_1_l, wrap_wrap.
Qed.

(** ** Witnesses *)

Definition fresh : heap :=
  match rt_system_heap_init 0x20000001 0x20000193 blank with Ok (_, h) => h | Fault _ => blank end.
Definition after (q : request) h : heap := match serve q h with Ok (_, h') => h' | Fault _ => h end.

(** The answers are computed, the memory is not. *)
Definition answer (q : request) h : option Z := match serve q h with Ok (r, _) => Some r | Fault _ => None end.

Lemma served q h (r : Z) : answer q h = Some r -> serve q h = Ok (r, after q h).
Proof. unfold answer, after. destruct (serve q h) as [[? ?]|]; [|done]. by intros [= ->]. Qed.

Lemma fresh_client : client fresh ∅.
Proof.
  assert (match rt_system_heap_init 0x20000001 0x20000193 blank with Ok _ => true | Fault _ => false end = true) as H by (vm_compute; reflexivity).
  assert (rt_system_heap_init 0x20000001 0x20000193 blank = Ok (tt, fresh)) as E.
  { unfold fresh. by destruct (rt_system_heap_init 0x20000001 0x20000193 blank) as [[[] h]|]. }
  refine (client_start 0x20000001 0x20000193 blank fresh _ _ _ _ E); [lia|lia|lia|reflexivity].
Qed.

Lemma one_block_client : client (after (Malloc 100) fresh) {[0x20000010 := 100]}.
Proof.
  assert (serve (Malloc 100) fresh = Ok (0x20000010, after (Malloc 100) fresh)) as E by (apply served; vm_compute; reflexivity).
  refine (client_request fresh ∅ (Malloc 100) _ _ fresh_client _ E). cbn. lia.
Qed.

Lemma freed_client : client (after (Free 0x20000010) (after (Malloc 100) fresh)) ∅.
Proof.
  assert (∅ = ledger (Free 0x20000010) 0 {[0x20000010 := 100]}) as -> by (cbn [ledger]; by rewrite delete_singleton_eq).
  set (h := after (Malloc 100) fresh).
  assert (serve (Free 0x20000010) h = Ok (0, after (Free 0x20000010) h)) as E by (apply served; vm_compute; reflexivity).
  refine (client_request h _ (Free 0x20000010) _ _ one_block_client _ E). exists 100. apply lookup_singleton_eq.
Qed.

Lemma heap_serves_witness :
  client (after (Malloc 100) fresh) {[0x20000010 := 100]} /\
  exists (r : Z) h', serve (Realloc 0x20000010 300) (after (Malloc 100) fresh) = Ok (r, h') /\
    client h' (ledger (Realloc 0x20000010 300) r {[0x20000010 := 100]}).
Proof.
  split; [apply one_block_client|].
  destruct (proj2 (heap_serves _ _ one_block_client) (Realloc 0x20000010 300)) as (r & h' & H1 & H2 & _).
  - split; [exists 100; apply lookup_singleton_eq|lia].
  - exists r, h'. split; [exact H1|exact H2].
Defined.

Lemma heap_whole_again_witness :
  used_mem (after (Free 0x20000010) (after (Malloc 100) fresh)) = 0.
Proof. apply (heap_whole_again 300 _ freed_client); [lia|vm_compute; reflexivity]. Defined.

Lemma malloc_first_fit_witness :
  exists bs h', layout bs (after (Malloc 100) fresh) /\
    rt_malloc 20 (after (Malloc 100) fresh) =
      Ok (match first_fit (rounded 20) 0 bs with Some pos => heap_ptr (after (Malloc 100) fresh) + (pos + 12) | None => 0 end, h').
Proof.
  destruct (malloc_first_fit _ _ 20 one_block_client) as (bs & h' & H1 & H2 & _); [lia|]. exists bs, h'. split; [exact H1|exact H2].
Defined.

Lemma oversize_is_tiny_witness :
  (2 ^ 32 - 4 < 2 ^ 32 - 1 < 2 ^ 32) /\ 12 <= mem_size_aligned fresh /\ rt_malloc (2 ^ 32 - 1) fresh = rt_malloc 12 fresh.
Proof.
  split; [lia|]. split; [vm_compute; discriminate|]. apply (oversize_is_tiny (2 ^ 32 - 1) fresh); [lia|vm_compute; discriminate].
Defined.
