(* ===== verification/Gpio.v ===== *)
(** * GPIO: the pin device and its STM32 driver

    Models [drivers/drv_gpio.c] (the STM32F407 branch of its conditionals: ports
    A to I, EXTI lines with their F4 interrupt numbers) and the public pin calls of
    [rt-thread/components/drivers/misc/pin.c]. The register file of the ports is
    the state [gpio]; what the pads read is the hardware's part and is modelled by
    [idr_bit]: an output reflects its output data register, any other pin reflects
    the external level. Handlers attached to a pin are values of a type [H] that
    the application chooses; an interrupt yields the handlers it calls, in order. *)

From stdpp Require Import base numbers list gmap.
From Stdlib Require Import ZArith Lia.
From S2P Require Import Prelude.

(** ** Constants of pin.h, stm32f4xx_hal_gpio.h and stm32f407xx.h *)

Definition PIN_LOW : Z := 0.
Definition PIN_HIGH : Z := 1.
Definition PIN_MODE_OUTPUT : Z := 0.
Definition PIN_MODE_INPUT : Z := 1.
Definition PIN_MODE_INPUT_PULLUP : Z := 2.
Definition PIN_MODE_INPUT_PULLDOWN : Z := 3.
Definition PIN_MODE_OUTPUT_OD : Z := 4.
Definition PIN_IRQ_MODE_RISING : Z := 0.
Definition PIN_IRQ_MODE_FALLING : Z := 1.
Definition PIN_IRQ_MODE_RISING_FALLING : Z := 2.
Definition PIN_IRQ_DISABLE : Z := 0.
Definition PIN_IRQ_ENABLE : Z := 1.

Inductive gpio_mode : Set :=
  | GPIO_MODE_INPUT
  | GPIO_MODE_OUTPUT_PP
  | GPIO_MODE_OUTPUT_OD
  | GPIO_MODE_IT_RISING
  | GPIO_MODE_IT_FALLING
  | GPIO_MODE_IT_RISING_FALLING.

Inductive gpio_pull : Set := GPIO_NOPULL | GPIO_PULLUP | GPIO_PULLDOWN.

#[export] Instance gpio_mode_eq_dec : EqDecision gpio_mode.
Proof. solve_decision. Defined.
#[export] Instance gpio_pull_eq_dec : EqDecision gpio_pull.
Proof. solve_decision. Defined.

Definition EXTI0_IRQn : Z := 6.
Definition EXTI1_IRQn : Z := 7.
Definition EXTI2_IRQn : Z := 8.
Definition EXTI3_IRQn : Z := 9.
Definition EXTI4_IRQn : Z := 10.
Definition EXTI9_5_IRQn : Z := 23.
Definition EXTI15_10_IRQn : Z := 40.

Definition GPIO_PIN (n : Z) : Z := Z.shiftl 1 n.

(** [GET_PIN(PORTx, PIN)]: the ports are 0x400 bytes apart from GPIOA on, so the
    macro is 16 times the port's number plus the pin. *)
Definition GPIOA_BASE : Z := 0x40020000.
Definition port_base (port : Z) : Z := GPIOA_BASE + 0x400 * port.
Definition GET_PIN (port pin : Z) : Z := 16 * ((port_base port - GPIOA_BASE) / 0x400) + pin.

(** Port numbers: GPIOA is 0, GPIOB 1, and so on. *)
Definition PORT_A : Z := 0.
Definition PORT_D : Z := 3.
Definition PORT_E : Z := 4.
Definition PORT_F : Z := 5.

(** ** The pin table *)

Record pin_index : Set := Pin_index { index : Z; port : Z; pin : Z }.

Definition STM32_PIN (idx gpio gpio_index : Z) : pin_index :=
  {| index := idx; port := gpio; pin := GPIO_PIN gpio_index |}.

(** The 16 entries of one port; [pins] lists the nine ports of the chip. *)
Definition pins_of_port (gpio : Z) : list pin_index :=
  (fun i => STM32_PIN (16 * gpio + i) gpio i) <$> seqZ 0 16.
Definition pins : list pin_index := seqZ 0 9 ≫= pins_of_port.

Record pin_irq_map : Set := Pin_irq_map { pinbit : Z; irqno : Z }.

Definition pin_irq_map_tab : list pin_irq_map :=
  [ Pin_irq_map (GPIO_PIN 0) EXTI0_IRQn; Pin_irq_map (GPIO_PIN 1) EXTI1_IRQn;
    Pin_irq_map (GPIO_PIN 2) EXTI2_IRQn; Pin_irq_map (GPIO_PIN 3) EXTI3_IRQn;
    Pin_irq_map (GPIO_PIN 4) EXTI4_IRQn; Pin_irq_map (GPIO_PIN 5) EXTI9_5_IRQn;
    Pin_irq_map (GPIO_PIN 6) EXTI9_5_IRQn; Pin_irq_map (GPIO_PIN 7) EXTI9_5_IRQn;
    Pin_irq_map (GPIO_PIN 8) EXTI9_5_IRQn; Pin_irq_map (GPIO_PIN 9) EXTI9_5_IRQn;
    Pin_irq_map (GPIO_PIN 10) EXTI15_10_IRQn; Pin_irq_map (GPIO_PIN 11) EXTI15_10_IRQn;
    Pin_irq_map (GPIO_PIN 12) EXTI15_10_IRQn; Pin_irq_map (GPIO_PIN 13) EXTI15_10_IRQn;
    Pin_irq_map (GPIO_PIN 14) EXTI15_10_IRQn; Pin_irq_map (GPIO_PIN 15) EXTI15_10_IRQn ].

(** The parameter of [get_pin] is a [uint8_t]: the argument is truncated. *)
Definition get_pin (pin_ : Z) : option pin_index :=
  let pin := u8 pin_ in
  if pin <? Z.of_nat (length pins) then
    match pins !! Z.to_nat pin with
    | Some idx => if index idx =? -1 then None else Some idx
    | None => None
    end
  else None.

(** [bit2bitno]: the number of the only bit set, by a loop over the 32 bits. *)
Fixpoint bit2bitno_from (i : Z) (fuel : nat) (bit : Z) : Z :=
  match fuel with
  | O => -1
  | S fuel => if u32 (Z.shiftl 1 i) =? bit then i else bit2bitno_from (i + 1) fuel bit
  end.
Definition bit2bitno (bit : Z) : Z := bit2bitno_from 0 32 bit.

Definition get_pin_irq_map (pinbit_ : Z) : option pin_irq_map :=
  let mapindex := bit2bitno pinbit_ in
  if (mapindex <? 0) || (Z.of_nat (length pin_irq_map_tab) <=? mapindex) then None
  else pin_irq_map_tab !! Z.to_nat mapindex.

Section Gpio.
Context {H : Type} `{EqDecision H}.

(** ** State *)

(** An entry of [pin_irq_hdr_tab]; [pin = -1] marks a free line. *)
Record rt_pin_irq_hdr : Type := Pin_irq_hdr {
  hdr_pin : Z; hdr_mode : Z; hdr : option H; hdr_args : Z }.

Definition free_hdr : rt_pin_irq_hdr := Pin_irq_hdr (-1) 0 None 0.

Record gpio : Type := Gpio {
  odr : gmap Z Z;                           (* output data register of each port *)
  config : gmap (Z * Z) (gpio_mode * gpio_pull); (* per (port, pin mask) *)
  ext : Z -> Z;                             (* external level of the pads of a port *)
  pin_irq_hdr_tab : list rt_pin_irq_hdr;
  pin_irq_enable_mask : Z;
  nvic : gset Z;                            (* interrupts enabled in the NVIC *)
  exti_pr : Z;                              (* pending EXTI lines *)
  hw_pin_ops : bool                         (* [_hw_pin.ops] is set (else NULL) *)
}.

Definition gpio_reset (levels : Z -> Z) : gpio :=
  {| odr := ∅; config := ∅; ext := levels;
     pin_irq_hdr_tab := replicate 16 free_hdr;
     pin_irq_enable_mask := 0; nvic := ∅; exti_pr := 0; hw_pin_ops := false |}.

Definition set_odr (f : gmap Z Z -> gmap Z Z) (g : gpio) : gpio :=
  {| odr := f (odr g); config := config g; ext := ext g;
     pin_irq_hdr_tab := pin_irq_hdr_tab g; pin_irq_enable_mask := pin_irq_enable_mask g;
     nvic := nvic g; exti_pr := exti_pr g; hw_pin_ops := hw_pin_ops g |}.
Definition set_config (f : gmap (Z * Z) (gpio_mode * gpio_pull) -> gmap (Z * Z) (gpio_mode * gpio_pull))
    (g : gpio) : gpio :=
  {| odr := odr g; config := f (config g); ext := ext g;
     pin_irq_hdr_tab := pin_irq_hdr_tab g; pin_irq_enable_mask := pin_irq_enable_mask g;
     nvic := nvic g; exti_pr := exti_pr g; hw_pin_ops := hw_pin_ops g |}.
Definition set_hdr_tab (f : list rt_pin_irq_hdr -> list rt_pin_irq_hdr) (g : gpio) : gpio :=
  {| odr := odr g; config := config g; ext := ext g;
     pin_irq_hdr_tab := f (pin_irq_hdr_tab g); pin_irq_enable_mask := pin_irq_enable_mask g;
     nvic := nvic g; exti_pr := exti_pr g; hw_pin_ops := hw_pin_ops g |}.
Definition set_irq (mask : Z -> Z) (en : gset Z -> gset Z) (g : gpio) : gpio :=
  {| odr := odr g; config := config g; ext := ext g;
     pin_irq_hdr_tab := pin_irq_hdr_tab g;
     pin_irq_enable_mask := mask (pin_irq_enable_mask g);
     nvic := en (nvic g); exti_pr := exti_pr g; hw_pin_ops := hw_pin_ops g |}.
Definition set_exti_pr (v : Z) (g : gpio) : gpio :=
  {| odr := odr g; config := config g; ext := ext g;
     pin_irq_hdr_tab := pin_irq_hdr_tab g; pin_irq_enable_mask := pin_irq_enable_mask g;
     nvic := nvic g; exti_pr := v; hw_pin_ops := hw_pin_ops g |}.
Definition set_hw_pin_ops (g : gpio) : gpio :=
  {| odr := odr g; config := config g; ext := ext g;
     pin_irq_hdr_tab := pin_irq_hdr_tab g; pin_irq_enable_mask := pin_irq_enable_mask g;
     nvic := nvic g; exti_pr := exti_pr g; hw_pin_ops := true |}.

(** ** The HAL calls the driver makes *)

Definition odr_of (g : gpio) (p : Z) : Z := default 0 (odr g !! p).

(** The input data register seen through the mask [m]. *)
Definition idr_bit (g : gpio) (p m : Z) : Z :=
  match config g !! (p, m) with
  | Some (GPIO_MODE_OUTPUT_PP, _) => Z.land (odr_of g p) m
  | Some (GPIO_MODE_OUTPUT_OD, _) => Z.land (Z.land (odr_of g p) (ext g p)) m
  | _ => Z.land (ext g p) m
  end.

Definition HAL_GPIO_ReadPin (p m : Z) (g : gpio) : Z :=
  if negb (idr_bit g p m =? 0) then 1 else 0.

(** A write to BSRR sets or clears the masked bits of ODR. *)
Definition HAL_GPIO_WritePin (p m state : Z) : gpio -> gpio :=
  set_odr (fun o =>
    if negb (state =? 0) then <[p := Z.lor (default 0 (o !! p)) m]> o
    else <[p := Z.ldiff (default 0 (o !! p)) m]> o).

Definition HAL_GPIO_Init (p m : Z) (mode : gpio_mode) (pull : gpio_pull) : gpio -> gpio :=
  set_config (<[(p, m) := (mode, pull)]>).

Definition HAL_GPIO_DeInit (p m : Z) : gpio -> gpio :=
  set_config (<[(p, m) := (GPIO_MODE_INPUT, GPIO_NOPULL)]>).

(** ** The driver's operations *)

Definition stm32_pin_write (pin_ value : Z) : M gpio unit :=
  match get_pin pin_ with
  | None => ret tt
  | Some idx => modify (HAL_GPIO_WritePin (port idx) (pin idx) value)
  end.

Definition stm32_pin_read (pin_ : Z) : M gpio Z :=
  match get_pin pin_ with
  | None => ret PIN_LOW
  | Some idx => gets (HAL_GPIO_ReadPin (port idx) (pin idx))
  end.

(** The structure is first filled with the output settings; an unknown [mode]
    leaves them. *)
Definition stm32_pin_mode_config (mode : Z) : gpio_mode * gpio_pull :=
  if mode =? PIN_MODE_OUTPUT then (GPIO_MODE_OUTPUT_PP, GPIO_NOPULL)
  else if mode =? PIN_MODE_INPUT then (GPIO_MODE_INPUT, GPIO_NOPULL)
  else if mode =? PIN_MODE_INPUT_PULLUP then (GPIO_MODE_INPUT, GPIO_PULLUP)
  else if mode =? PIN_MODE_INPUT_PULLDOWN then (GPIO_MODE_INPUT, GPIO_PULLDOWN)
  else if mode =? PIN_MODE_OUTPUT_OD then (GPIO_MODE_OUTPUT_OD, GPIO_NOPULL)
  else (GPIO_MODE_OUTPUT_PP, GPIO_NOPULL).

Definition stm32_pin_mode (pin_ mode : Z) : M gpio unit :=
  match get_pin pin_ with
  | None => ret tt
  | Some idx =>
      let '(md, pull) := stm32_pin_mode_config mode in
      modify (HAL_GPIO_Init (port idx) (pin idx) md pull)
  end.

Definition hdr_eqb (a b : option H) : bool := bool_decide (a = b).

(** The line's entry of the handler table; the driver has checked the index. *)
Definition hdr_at (g : gpio) (irqindex : Z) : rt_pin_irq_hdr :=
  default free_hdr (pin_irq_hdr_tab g !! Z.to_nat irqindex).

Definition bad_irqindex (irqindex : Z) : bool :=
  (irqindex <? 0) || (Z.of_nat (length pin_irq_map_tab) <=? irqindex).

Definition stm32_pin_attach_irq (pin_ mode : Z) (handler : option H) (args : Z) : M gpio rt_err_t :=
  match get_pin pin_ with
  | None => ret RT_ENOSYS
  | Some idx =>
      let irqindex := bit2bitno (pin idx) in
      if bad_irqindex irqindex then ret RT_ENOSYS
      else
        e <- gets (fun g => hdr_at g irqindex) ;;
        if (hdr_pin e =? pin_) && hdr_eqb (hdr e) handler
           && (hdr_mode e =? mode) && (hdr_args e =? args) then ret RT_EOK
        else if negb (hdr_pin e =? -1) then ret RT_EBUSY
        else
          modify (set_hdr_tab (<[Z.to_nat irqindex :=
            Pin_irq_hdr (swrap 16 pin_) (u16 mode) handler args]>)) ;;;
          ret RT_EOK
  end.

Definition stm32_pin_dettach_irq (pin_ : Z) : M gpio rt_err_t :=
  match get_pin pin_ with
  | None => ret RT_ENOSYS
  | Some idx =>
      let irqindex := bit2bitno (pin idx) in
      if bad_irqindex irqindex then ret RT_ENOSYS
      else
        e <- gets (fun g => hdr_at g irqindex) ;;
        if hdr_pin e =? -1 then ret RT_EOK
        else modify (set_hdr_tab (<[Z.to_nat irqindex := free_hdr]>)) ;;; ret RT_EOK
  end.

(** The [switch] on the line's mode has no default: another mode leaves the
    structure's [Mode] and [Pull] uninitialised. *)
Definition irq_mode_config (mode : Z) : option (gpio_mode * gpio_pull) :=
  if mode =? PIN_IRQ_MODE_RISING then Some (GPIO_MODE_IT_RISING, GPIO_PULLDOWN)
  else if mode =? PIN_IRQ_MODE_FALLING then Some (GPIO_MODE_IT_FALLING, GPIO_PULLUP)
  else if mode =? PIN_IRQ_MODE_RISING_FALLING then Some (GPIO_MODE_IT_RISING_FALLING, GPIO_NOPULL)
  else None.

(** Bits of the lines that share an interrupt: 5 to 9 and 10 to 15. *)
Definition pins_5_9 : Z := 0x03e0.
Definition pins_10_15 : Z := 0xfc00.

Definition stm32_pin_irq_enable (pin_ enabled : Z) : M gpio rt_err_t :=
  match get_pin pin_ with
  | None => ret RT_ENOSYS
  | Some idx =>
      if enabled =? PIN_IRQ_ENABLE then
        let irqindex := bit2bitno (pin idx) in
        if bad_irqindex irqindex then ret RT_ENOSYS
        else
          e <- gets (fun g => hdr_at g irqindex) ;;
          if hdr_pin e =? -1 then ret RT_ENOSYS
          else
            match irq_mode_config (hdr_mode e), pin_irq_map_tab !! Z.to_nat irqindex with
            | Some (md, pull), Some irqmap =>
                modify (HAL_GPIO_Init (port idx) (pin idx) md pull) ;;;
                modify (set_irq (fun m => Z.lor m (pinbit irqmap)) (fun n => {[irqno irqmap]} ∪ n)) ;;;
                ret RT_EOK
            | _, _ => raise UninitRead
            end
      else if enabled =? PIN_IRQ_DISABLE then
        match get_pin_irq_map (pin idx) with
        | None => ret RT_ENOSYS
        | Some irqmap =>
            modify (HAL_GPIO_DeInit (port idx) (pin idx)) ;;;
            modify (set_irq (fun m => Z.ldiff m (pinbit irqmap)) id) ;;;
            m <- gets pin_irq_enable_mask ;;
            let shared :=
              if (GPIO_PIN 5 <=? pinbit irqmap) && (pinbit irqmap <=? GPIO_PIN 9) then Z.land m pins_5_9
              else if (GPIO_PIN 10 <=? pinbit irqmap) && (pinbit irqmap <=? GPIO_PIN 15) then Z.land m pins_10_15
              else 0 in
            when (shared =? 0) (modify (set_irq id (fun n => n ∖ {[irqno irqmap]}))) ;;;
            ret RT_EOK
        end
      else ret (- RT_ENOSYS)
  end.

(** ** Interrupts *)

(** [pin_irq_hdr]: the handler of a line and its argument, when there is one. *)
Definition pin_irq_hdr (irqno_ : Z) (g : gpio) : list (H * Z) :=
  let e := hdr_at g irqno_ in
  match hdr e with Some h => [(h, hdr_args e)] | None => [] end.

Definition HAL_GPIO_EXTI_Callback (GPIO_Pin : Z) (g : gpio) : list (H * Z) :=
  pin_irq_hdr (bit2bitno GPIO_Pin) g.

Definition HAL_GPIO_EXTI_IRQHandler (GPIO_Pin : Z) : M gpio (list (H * Z)) :=
  pr <- gets exti_pr ;;
  if negb (Z.land pr GPIO_Pin =? 0) then
    modify (set_exti_pr (Z.ldiff pr GPIO_Pin)) ;;;
    gets (HAL_GPIO_EXTI_Callback GPIO_Pin)
  else ret [].

Fixpoint exti_lines (lines : list Z) : M gpio (list (H * Z)) :=
  match lines with
  | [] => ret []
  | l :: lines =>
      hs <- HAL_GPIO_EXTI_IRQHandler (GPIO_PIN l) ;;
      hs' <- exti_lines lines ;;
      ret (hs ++ hs')
  end.

Definition EXTI0_IRQHandler := exti_lines [0].
Definition EXTI1_IRQHandler := exti_lines [1].
Definition EXTI2_IRQHandler := exti_lines [2].
Definition EXTI3_IRQHandler := exti_lines [3].
Definition EXTI4_IRQHandler := exti_lines [4].
Definition EXTI9_5_IRQHandler := exti_lines [5; 6; 7; 8; 9].
Definition EXTI15_10_IRQHandler := exti_lines [10; 11; 12; 13; 14; 15].

(** ** The pin device of pin.c

    The driver's operations are a structure of function pointers; an operation
    the driver leaves NULL is [None]. *)

Record rt_pin_ops : Type := Pin_ops {
  op_pin_mode : Z -> Z -> M gpio unit;
  op_pin_write : Z -> Z -> M gpio unit;
  op_pin_read : Z -> M gpio Z;
  op_pin_attach_irq : option (Z -> Z -> option H -> Z -> M gpio rt_err_t);
  op_pin_detach_irq : option (Z -> M gpio rt_err_t);
  op_pin_irq_enable : option (Z -> Z -> M gpio rt_err_t);
  op_pin_get : option (list Z -> Z)
}.

(** The board's driver leaves [pin_get] NULL. *)
Definition _stm32_pin_ops : rt_pin_ops :=
  Pin_ops stm32_pin_mode stm32_pin_write stm32_pin_read
    (Some stm32_pin_attach_irq) (Some stm32_pin_dettach_irq) (Some stm32_pin_irq_enable) None.

Definition rt_device_pin_register : M gpio Z := modify set_hw_pin_ops ;;; ret 0.
Definition rt_hw_pin_init : M gpio Z := rt_device_pin_register.

(** [RT_ASSERT(_hw_pin.ops != RT_NULL)], then the operations. *)
Definition with_ops {T : Type} (k : rt_pin_ops -> M gpio T) : M gpio T :=
  b <- gets hw_pin_ops ;;
  if b then k _stm32_pin_ops else raise AssertFailed.

Definition rt_pin_mode (pin_ mode : Z) : M gpio unit :=
  with_ops (fun ops => op_pin_mode ops pin_ mode).
Definition rt_pin_write (pin_ value : Z) : M gpio unit :=
  with_ops (fun ops => op_pin_write ops pin_ value).
Definition rt_pin_read (pin_ : Z) : M gpio Z :=
  with_ops (fun ops => op_pin_read ops pin_).
Definition rt_pin_attach_irq (pin_ mode : Z) (handler : option H) (args : Z) : M gpio rt_err_t :=
  with_ops (fun ops => match op_pin_attach_irq ops with
                       | Some f => f pin_ mode handler args
                       | None => ret RT_ENOSYS
                       end).
Definition rt_pin_detach_irq (pin_ : Z) : M gpio rt_err_t :=
  with_ops (fun ops => match op_pin_detach_irq ops with
                       | Some f => f pin_
                       | None => ret RT_ENOSYS
                       end).
Definition rt_pin_irq_enable (pin_ enabled : Z) : M gpio rt_err_t :=
  with_ops (fun ops => match op_pin_irq_enable ops with
                       | Some f => f pin_ enabled
                       | None => ret RT_ENOSYS
                       end).
(** The pin of a name, which begins with "P". *)
Definition rt_pin_get (name : list Z) : M gpio Z :=
  with_ops (fun ops => rt_assert (hd 0 name =? 80) ;;;
                       ret match op_pin_get ops with Some f => f name | None => - RT_ENOSYS end).

(** ** The pin as a device

    The entries of [_hw_pin] in the device framework; a NULL buffer is [None]. The device's
    operations are set by its registration, before which nobody finds it. *)

Record rt_device_pin_status : Set := Pin_status { ps_pin : Z; ps_status : Z }.
Record rt_device_pin_mode : Set := Pin_mode { pm_pin : Z; pm_mode : Z }.
Definition sizeof_pin_status : Z := 4.

Definition device_ops {T : Type} (k : rt_pin_ops -> M gpio T) : M gpio T :=
  b <- gets hw_pin_ops ;;
  if b then k _stm32_pin_ops else raise NullAccess.

(** The size and what the buffer holds then. *)
Definition _pin_read (buffer : option rt_device_pin_status) (size : Z) : M gpio (Z * option rt_device_pin_status) :=
  match buffer with
  | None => ret (0, None)
  | Some status =>
      if negb (size =? sizeof_pin_status) then ret (0, Some status)
      else
        v <- device_ops (fun ops => op_pin_read ops (ps_pin status)) ;;
        ret (size, Some (Pin_status (ps_pin status) (u16 v)))
  end.

Definition _pin_write (buffer : option rt_device_pin_status) (size : Z) : M gpio Z :=
  match buffer with
  | None => ret 0
  | Some status =>
      if negb (size =? sizeof_pin_status) then ret 0
      else device_ops (fun ops => op_pin_write ops (ps_pin status) (ps_status status)) ;;; ret size
  end.

Definition _pin_control (args : option rt_device_pin_mode) : M gpio rt_err_t :=
  match args with
  | None => ret (- RT_ERROR)
  | Some mode => device_ops (fun ops => op_pin_mode ops (pm_pin mode) (pm_mode mode)) ;;; ret 0
  end.
End Gpio.
Arguments gpio H : clear implicits.
Arguments rt_pin_irq_hdr H : clear implicits.
Arguments rt_pin_ops H : clear implicits.

(** ** The pin table *)

Definition valid_pin (p : Z) : Prop := 0 <= p < 144.
Definition pin_port (p : Z) : Z := p / 16.
Definition pin_mask (p : Z) : Z := 2 ^ (p mod 16).

Definition pin_index_eqb (a b : pin_index) : bool :=
  (index a =? index b) && (port a =? port b) && (pin a =? pin b).

Lemma pin_index_eqb_eq (a b : pin_index) : pin_index_eqb a b = true -> a = b.
Proof.
  destruct a, b. unfold pin_index_eqb. cbn.
  rewrite !andb_true_iff, !Z.eqb_eq. intros [[-> ->] ->]. reflexivity.
Qed.

(** The whole table, checked entry by entry. *)
Lemma get_pin_spec (p : Z) :
  valid_pin p -> get_pin p = Some (Pin_index p (pin_port p) (pin_mask p)).
Proof.
  intros Hp.
  pose (f := fun p => match get_pin p with
                      | Some i => pin_index_eqb i (Pin_index p (pin_port p) (pin_mask p))
                      | None => false
                      end).
  assert (check_range f 144 = true) as Hc by (vm_compute; reflexivity).
  pose proof (check_range_spec f 144 Hc p Hp) as Hf. unfold f in Hf.
  destruct (get_pin p) as [i|]; [|discriminate].
  apply pin_index_eqb_eq in Hf. congruence.
Qed.

Lemma get_pin_invalid (p : Z) : 144 <= p < 256 -> get_pin p = None.
Proof.
  intros Hp. unfold get_pin. rewrite wrap_small by lia.
  change (Z.of_nat (length pins)) with 144.
  replace (p <? 144) with false by lia. reflexivity.
Qed.

Lemma bit2bitno_mask (p : Z) : bit2bitno (pin_mask p) = p mod 16.
Proof.
  unfold pin_mask.
  pose proof (Z.mod_pos_bound p 16 ltac:(lia)) as Hb.
  generalize dependent (p mod 16). intros i Hi.
  assert (check_range (fun i => bit2bitno (2 ^ i) =? i) 16 = true) as Hc by (vm_compute; reflexivity).
  pose proof (check_range_spec _ 16 Hc i ltac:(lia)) as Hf. cbn beta in Hf. lia.
Qed.

(** Two pins share port and mask only when they are the same pin. *)
Lemma pin_inj (p q : Z) :
  pin_port p = pin_port q -> pin_mask p = pin_mask q -> p = q.
Proof.
  unfold pin_port, pin_mask. intros Hp Hm.
  pose proof (Z.mod_pos_bound p 16 ltac:(lia)). pose proof (Z.mod_pos_bound q 16 ltac:(lia)).
  apply Z.pow_inj_r in Hm; [|lia..].
  rewrite (Z.div_mod p 16), (Z.div_mod q 16) by lia. congruence.
Qed.

Lemma bad_irqindex_mod (p : Z) : bad_irqindex (p mod 16) = false.
Proof.
  unfold bad_irqindex. change (Z.of_nat (length pin_irq_map_tab)) with 16.
  pose proof (Z.mod_pos_bound p 16 ltac:(lia)).
  replace (p mod 16 <? 0) with false by lia. replace (16 <=? p mod 16) with false by lia.
  reflexivity.
Qed.

Section GpioFacts.
Context {H : Type} `{EqDecision H}.
Implicit Types g : gpio H.

(** The level a read of the pin returns. *)
Definition level g (p : Z) : Z := HAL_GPIO_ReadPin (pin_port p) (pin_mask p) g.

(** The pin is configured as a push-pull output. *)
Definition is_output g (p : Z) : Prop :=
  exists pull, config g !! (pin_port p, pin_mask p) = Some (GPIO_MODE_OUTPUT_PP, pull).

Definition write_level g (p v : Z) : gpio H :=
  HAL_GPIO_WritePin (pin_port p) (pin_mask p) v g.

Lemma rt_pin_write_eq g p v :
  hw_pin_ops g = true -> valid_pin p -> rt_pin_write p v g = Ok (tt, write_level g p v).
Proof.
  intros Ho Hp. unfold rt_pin_write, with_ops, bind, gets. rewrite Ho. cbn.
  unfold stm32_pin_write. rewrite get_pin_spec by done. reflexivity.
Qed.

Lemma rt_pin_read_eq g p :
  hw_pin_ops g = true -> valid_pin p -> rt_pin_read p g = Ok (level g p, g).
Proof.
  intros Ho Hp. unfold rt_pin_read, with_ops, bind, gets. rewrite Ho. cbn.
  unfold stm32_pin_read. rewrite get_pin_spec by done. reflexivity.
Qed.

(** One bit of a port after a write to a pin of any port. *)
Lemma odr_write_testbit g p q v :
  Z.testbit (odr_of (write_level g p v) (pin_port q)) (q mod 16) =
  if bool_decide (q = p) then negb (v =? 0)
  else Z.testbit (odr_of g (pin_port q)) (q mod 16).
Proof.
  assert (0 <= p mod 16) as Hb by (apply Z.mod_pos_bound; lia).
  unfold write_level, HAL_GPIO_WritePin, set_odr, odr_of, pin_mask. cbn.
  destruct (decide (pin_port p = pin_port q)) as [Hport|Hport].
  - assert (bool_decide (q = p) = (q mod 16 =? p mod 16)) as ->.
    { case_bool_decide as Hqp; symmetry; [subst; lia|].
      apply Z.eqb_neq. intros Hm. apply Hqp, pin_inj; [done|]. unfold pin_mask. congruence. }
    rewrite Hport.
    destruct (v =? 0); cbn; rewrite lookup_insert_eq; cbn;
      rewrite ?testbit_set, ?testbit_clear by done;
      destruct (q mod 16 =? p mod 16); reflexivity.
  - rewrite bool_decide_eq_false_2 by congruence.
    destruct (v =? 0); cbn; rewrite lookup_insert_ne by done; reflexivity.
Qed.

Lemma land_mask_write g p q v :
  (Z.land (odr_of (write_level g p v) (pin_port q)) (pin_mask q) =? 0) =
  if bool_decide (q = p) then v =? 0
  else Z.land (odr_of g (pin_port q)) (pin_mask q) =? 0.
Proof.
  assert (0 <= q mod 16) as Hb by (apply Z.mod_pos_bound; lia).
  unfold pin_mask. rewrite !land_pow2_eqb by done. rewrite odr_write_testbit.
  case_bool_decide; [apply negb_involutive|reflexivity].
Qed.

Lemma level_write_same g p v :
  is_output g p -> level (write_level g p v) p = if v =? 0 then PIN_LOW else PIN_HIGH.
Proof.
  intros [pull Hc]. unfold level, HAL_GPIO_ReadPin, idr_bit.
  change (config (write_level g p v)) with (config g). rewrite Hc.
  rewrite land_mask_write, bool_decide_eq_true_2 by done. by destruct (v =? 0).
Qed.

Lemma land_shift_eqb (a b n : Z) :
  0 <= n -> (Z.land (Z.land a b) (2 ^ n) =? 0) = negb (Z.testbit a n && Z.testbit b n).
Proof. intros Hn. rewrite land_pow2_eqb by done. by rewrite Z.land_spec. Qed.

Lemma level_write_other g p q v :
  q <> p -> level (write_level g p v) q = level g q.
Proof.
  intros Hne. unfold level, HAL_GPIO_ReadPin, idr_bit.
  change (config (write_level g p v)) with (config g).
  change (ext (write_level g p v)) with (ext g).
  assert (0 <= q mod 16) as Hb by (apply Z.mod_pos_bound; lia).
  destruct (config g !! (pin_port q, pin_mask q)) as [[[] pull]|]; try reflexivity.
  - by rewrite land_mask_write, bool_decide_eq_false_2 by congruence.
  - unfold pin_mask. rewrite !land_shift_eqb by done.
    by rewrite odr_write_testbit, bool_decide_eq_false_2 by congruence.
Qed.

(** *** The handler table *)

(** Sixteen lines; a line in use belongs to a pin with that number in its port. *)
Definition irq_tab_ok g : Prop :=
  length (pin_irq_hdr_tab g) = 16%nat /\
  forall i e, pin_irq_hdr_tab g !! i = Some e ->
    hdr_pin e = -1 \/ (valid_pin (hdr_pin e) /\ hdr_pin e mod 16 = Z.of_nat i).

Definition line_free g (p : Z) : Prop := hdr_pin (hdr_at g (p mod 16)) = -1.

Lemma line_lookup g p :
  irq_tab_ok g -> pin_irq_hdr_tab g !! Z.to_nat (p mod 16) = Some (hdr_at g (p mod 16)).
Proof.
  intros [Hlen _]. unfold hdr_at.
  destruct (lookup_lt_is_Some_2 (pin_irq_hdr_tab g) (Z.to_nat (p mod 16))) as [e He].
  - pose proof (Z.mod_pos_bound p 16 ltac:(lia)). lia.
  - by rewrite He.
Qed.

Lemma hdr_at_insert g p q (e : rt_pin_irq_hdr H) :
  irq_tab_ok g ->
  hdr_at (set_hdr_tab (<[Z.to_nat (p mod 16) := e]>) g) (q mod 16) =
  if bool_decide (q mod 16 = p mod 16) then e else hdr_at g (q mod 16).
Proof.
  intros [Hlen _]. unfold hdr_at. cbn.
  pose proof (Z.mod_pos_bound p 16 ltac:(lia)). pose proof (Z.mod_pos_bound q 16 ltac:(lia)).
  case_bool_decide as Hqp.
  - rewrite Hqp, list_lookup_insert_eq by lia. reflexivity.
  - rewrite list_lookup_insert_ne by lia. reflexivity.
Qed.

(** What attaching a handler does, in every case. *)
Lemma stm32_pin_attach_irq_eq g p mode h args :
  valid_pin p ->
  stm32_pin_attach_irq p mode h args g =
  let e := hdr_at g (p mod 16) in
  if (hdr_pin e =? p) && hdr_eqb (hdr e) h && (hdr_mode e =? mode) && (hdr_args e =? args)
  then Ok (RT_EOK, g)
  else if hdr_pin e =? -1
  then Ok (RT_EOK, set_hdr_tab (<[Z.to_nat (p mod 16) := Pin_irq_hdr p (u16 mode) h args]>) g)
  else Ok (RT_EBUSY, g).
Proof.
  intros Hp. unfold stm32_pin_attach_irq. rewrite get_pin_spec by done. cbn [pin].
  rewrite bit2bitno_mask, bad_irqindex_mod. unfold bind, gets.
  assert (swrap 16 p = p) as -> by (unfold valid_pin in Hp; apply swrap_small; lia).
  destruct (_ && _); [reflexivity|].
  destruct (hdr_pin _ =? -1); reflexivity.
Qed.
End GpioFacts.

(** ** Properties *)

Section GpioTheorems.
Context {H : Type} `{EqDecision H}.
Implicit Types g : gpio H.

(** Pin I/O: once the driver is registered, writing any of the chip's 144 pins
    succeeds, a later read of the same pin (configured as an output) returns 1 when
    the written value was non-zero and 0 otherwise, and a read of every other pin,
    whatever its configuration, returns what it returned before. *)
Theorem rt_pin_write_read g p v :
  hw_pin_ops g = true -> valid_pin p -> is_output g p ->
  exists g',
    rt_pin_write p v g = Ok (tt, g') /\
    rt_pin_read p g' = Ok (if v =? 0 then PIN_LOW else PIN_HIGH, g') /\
    forall q, valid_pin q -> q <> p ->
      exists l, rt_pin_read q g = Ok (l, g) /\ rt_pin_read q g' = Ok (l, g').
Proof.
  intros Ho Hp Hout. exists (write_level g p v).
  rewrite rt_pin_write_eq, rt_pin_read_eq, level_write_same by done.
  split_and!; [done..|]. intros q Hq Hne. exists (level g q).
  rewrite !rt_pin_read_eq by done. by rewrite level_write_other.
Qed.

Lemma device_ops_eq {T : Type} (k : rt_pin_ops H -> M (gpio H) T) g :
  hw_pin_ops g = true -> device_ops k g = with_ops k g.
Proof. intros Ho. unfold device_ops, with_ops, bind, gets. by rewrite Ho. Qed.

(** The same through the device: what is written to an output is read back, and a buffer of
    another size is refused without touching a pin. *)
Theorem pin_device_read_back g p v :
  hw_pin_ops g = true -> valid_pin p -> is_output g p ->
  exists g',
    _pin_write (Some (Pin_status p v)) sizeof_pin_status g = Ok (sizeof_pin_status, g') /\
    (forall w, _pin_read (Some (Pin_status p w)) sizeof_pin_status g' =
      Ok ((sizeof_pin_status, Some (Pin_status p (if v =? 0 then PIN_LOW else PIN_HIGH))), g')) /\
    forall b n, n <> sizeof_pin_status ->
      _pin_write (Some b) n g' = Ok (0, g') /\ _pin_read (Some b) n g' = Ok ((0, Some b), g').
Proof.
  intros Ho Hp Hout. exists (write_level g p v). unfold _pin_write, _pin_read. cbn [ps_pin ps_status]. split_and!.
  - change (negb (sizeof_pin_status =? sizeof_pin_status)) with false. unfold bind. rewrite device_ops_eq by done.
    change (with_ops _ g) with (rt_pin_write p v g). by rewrite rt_pin_write_eq.
  - intros w. change (negb (sizeof_pin_status =? sizeof_pin_status)) with false. unfold bind. rewrite device_ops_eq by done.
    change (with_ops _ (write_level g p v)) with (rt_pin_read p (write_level g p v)).
    rewrite rt_pin_read_eq, level_write_same by done. by destruct (v =? 0).
  - intros b n Hn. by rewrite (proj2 (Z.eqb_neq _ _) Hn).
Qed.

Lemma irq_tab_ok_insert g p mode h args :
  irq_tab_ok g -> valid_pin p ->
  irq_tab_ok (set_hdr_tab (<[Z.to_nat (p mod 16) := Pin_irq_hdr p mode h args]>) g).
Proof.
  intros [Hlen Hent] Hp. split; cbn; [by rewrite length_insert|].
  intros i e Hi. pose proof (Z.mod_pos_bound p 16 ltac:(lia)).
  apply list_lookup_insert_Some in Hi as [(<- & <- & _)|[_ Hi]]; [right|by eauto].
  split; [done|]. cbn. lia.
Qed.

(** The EXTI lines are exclusive: from a well-formed handler table, attaching a
    handler to a pin whose line is free succeeds and keeps the table well formed;
    the line then carries this handler, every other line is unchanged, and a second
    pin with the same number in another port is refused with [RT_EBUSY] and no
    change. *)
Theorem attach_irq_exclusive g p mode h args :
  irq_tab_ok g -> valid_pin p -> line_free g p ->
  exists g',
    stm32_pin_attach_irq p mode h args g = Ok (RT_EOK, g') /\ irq_tab_ok g' /\
    hdr_at g' (p mod 16) = Pin_irq_hdr p (u16 mode) h args /\
    (forall q, q mod 16 <> p mod 16 -> hdr_at g' (q mod 16) = hdr_at g (q mod 16)) /\
    (forall q mode' h' args', valid_pin q -> q <> p -> q mod 16 = p mod 16 ->
       stm32_pin_attach_irq q mode' h' args' g' = Ok (RT_EBUSY, g')).
Proof.
  unfold line_free. intros Hok Hp Hfree. rewrite stm32_pin_attach_irq_eq by done. cbn zeta.
  rewrite Hfree. replace (-1 =? p) with false by (unfold valid_pin in Hp; lia).
  cbn [andb]. rewrite Z.eqb_refl. eexists. split; [reflexivity|].
  split; [by apply irq_tab_ok_insert|].
  split; [by rewrite hdr_at_insert, bool_decide_eq_true_2|].
  split; [intros q Hq; by rewrite hdr_at_insert, bool_decide_eq_false_2|].
  intros q mode' h' args' Hq Hne Hline.
  rewrite stm32_pin_attach_irq_eq by done. cbn zeta.
  rewrite hdr_at_insert, bool_decide_eq_true_2 by done. cbn.
  replace (p =? q) with false by lia. cbn.
  replace (p =? -1) with false by (unfold valid_pin in Hp; lia). reflexivity.
Qed.

(** Interrupt dispatch: when the line of a pin is pending, its EXTI handler
    acknowledges exactly that line and calls exactly the handler attached to it, with
    its argument; a line that is not pending calls nothing and changes nothing. *)
Theorem exti_dispatch g p h args mode :
  valid_pin p -> hdr_at g (p mod 16) = Pin_irq_hdr p mode (Some h) args ->
  HAL_GPIO_EXTI_IRQHandler (pin_mask p) g =
  if Z.testbit (exti_pr g) (p mod 16)
  then Ok ([(h, args)], set_exti_pr (Z.ldiff (exti_pr g) (pin_mask p)) g)
  else Ok ([], g).
Proof.
  intros Hp Hh. unfold HAL_GPIO_EXTI_IRQHandler, bind, gets.
  assert (0 <= p mod 16) as Hb by (apply Z.mod_pos_bound; lia).
  unfold pin_mask at 1. rewrite land_pow2_eqb, negb_involutive by done.
  destruct (Z.testbit _ _); [|reflexivity].
  unfold modify, HAL_GPIO_EXTI_Callback, pin_irq_hdr.
  rewrite bit2bitno_mask.
  change (hdr_at (set_exti_pr _ g) (p mod 16)) with (hdr_at g (p mod 16)).
  by rewrite Hh.
Qed.
End GpioTheorems.

(** ** Witnesses *)

(** A port F with pins 9 and 10 as outputs (the two LEDs of the board). *)
Definition sample_gpio : gpio nat :=
  HAL_GPIO_Init PORT_F (GPIO_PIN 10) GPIO_MODE_OUTPUT_PP GPIO_NOPULL
    (HAL_GPIO_Init PORT_F (GPIO_PIN 9) GPIO_MODE_OUTPUT_PP GPIO_NOPULL
      (set_hw_pin_ops (gpio_reset (fun _ => 0xffff)))).

Lemma rt_pin_write_read_witness :
  exists g',
    rt_pin_write (GET_PIN PORT_F 9) 1 sample_gpio = Ok (tt, g') /\
    rt_pin_read (GET_PIN PORT_F 9) g' = Ok (PIN_HIGH, g') /\
    rt_pin_read (GET_PIN PORT_F 10) g' = Ok (PIN_LOW, g').
Proof.
  destruct (rt_pin_write_read sample_gpio 89 1) as (g' & Hw & Hr & Ho).
  - reflexivity.
  - unfold valid_pin; lia.
  - exists GPIO_NOPULL. reflexivity.
  - exists g'. split; [exact Hw|]. split; [exact Hr|].
    destruct (Ho 90) as (l & Hl & Hl'); [unfold valid_pin; lia|lia|].
    vm_compute in Hl. injection Hl as <-. exact Hl'.
Defined.

Lemma attach_irq_exclusive_witness :
  exists g',
    stm32_pin_attach_irq (GET_PIN PORT_E 4) PIN_IRQ_MODE_FALLING (Some 7%nat) 0 sample_gpio
      = Ok (RT_EOK, g') /\
    stm32_pin_attach_irq (GET_PIN PORT_D 4) PIN_IRQ_MODE_FALLING (Some 8%nat) 0 g'
      = Ok (RT_EBUSY, g').
Proof.
  destruct (attach_irq_exclusive sample_gpio 68 PIN_IRQ_MODE_FALLING (Some 7%nat) 0)
    as (g' & Ha & _ & _ & _ & Hb).
  - split; [reflexivity|]. intros i e He. left.
    change (pin_irq_hdr_tab sample_gpio) with (replicate 16 (@free_hdr nat)) in He.
    apply lookup_replicate in He as [-> _]. reflexivity.
  - unfold valid_pin; lia.
  - reflexivity.
  - exists g'. split; [exact Ha|].
    apply Hb; [unfold valid_pin; vm_compute; split; congruence|vm_compute; congruence|reflexivity].
Defined.

Lemma exti_dispatch_witness :
  exists g,
    hdr_at g 4 = Pin_irq_hdr 68 PIN_IRQ_MODE_FALLING (Some 7%nat) 0 /\
    HAL_GPIO_EXTI_IRQHandler (pin_mask 68) g
      = Ok ([(7%nat, 0)], set_exti_pr (Z.ldiff (exti_pr g) (pin_mask 68)) g).
Proof.
  exists (set_exti_pr 16 (set_hdr_tab
    (<[4%nat := Pin_irq_hdr 68 PIN_IRQ_MODE_FALLING (Some 7%nat) 0]>) sample_gpio)).
  split; [reflexivity|].
  rewrite (exti_dispatch _ 68 7%nat 0 PIN_IRQ_MODE_FALLING);
    [reflexivity|unfold valid_pin; lia|reflexivity].
Defined.
