(* ===== verification/Device.v ===== *)
(** * The device framework of RT-Thread

    Models [rt-thread/src/device.c] (registration, lookup, creation, initialise, open, close,
    read, write, control, the callbacks), the part of [rt-thread/src/object.c]
    that names devices ([rt_object_init], [rt_object_find], [rt_object_detach]) and the
    two string routines of [rt-thread/src/kservice.c] they use. A device driver is an
    instance of the class [DeviceDriver]; what the framework needs of one in order to
    be a correct open/close protocol is the class [DriverOk], against which the
    protocol is proved. *)

From stdpp Require Import base numbers list gmap.
From Stdlib Require Import ZArith Lia.
From S2P Require Import Prelude.

Definition RT_NAME_MAX : nat := 8.

Definition RT_DEVICE_FLAG_RDWR : Z := 0x003.
Definition RT_DEVICE_FLAG_STANDALONE : Z := 0x008.
Definition RT_DEVICE_FLAG_ACTIVATED : Z := 0x010.
Definition RT_DEVICE_OFLAG_CLOSE : Z := 0x000.
Definition RT_DEVICE_OFLAG_RDWR : Z := 0x003.
Definition RT_DEVICE_OFLAG_OPEN : Z := 0x008.
Definition RT_DEVICE_OFLAG_MASK : Z := 0xf0f.

(** ** Strings of kservice.c

    A [char *] is the list of the characters from the pointer on; the byte past the
    end of the list is NUL. *)

Definition char_at (s : list Z) : Z := hd 0 s.

Fixpoint rt_strncpy (src : list Z) (n : nat) : list Z :=
  match n with
  | O => []
  | S n' => if char_at src =? 0 then replicate n 0
            else char_at src :: rt_strncpy (tl src) n'
  end.

(** The difference is stored in a [signed char]. *)
Fixpoint rt_strncmp (cs ct : list Z) (count : nat) : Z :=
  match count with
  | O => 0
  | S count =>
      let res := swrap 8 (char_at cs - char_at ct) in
      if negb (res =? 0) || (char_at cs =? 0) then res
      else rt_strncmp (tl cs) (tl ct) count
  end.

(** ** The object container

    The list of the registered devices: each entry is the name array of the object and
    the object's address. *)

Definition object_list : Type := list (list Z * Z).

Fixpoint rt_object_find (name : list Z) (objs : object_list) : option Z :=
  match objs with
  | [] => None
  | (n, object) :: objs =>
      if rt_strncmp n name RT_NAME_MAX =? 0 then Some object else rt_object_find name objs
  end.

Definition rt_object_init (object : Z) (name : list Z) : M object_list unit :=
  objs <- get ;;
  rt_assert (negb (existsb (fun o => snd o =? object) objs)) ;;;
  put ((rt_strncpy name RT_NAME_MAX, object) :: objs).

Definition rt_object_detach (object : Z) : M object_list unit :=
  modify (filter (fun o => snd o <> object)).

(** The type of a device's object: [rt_object_init] sets it, with the flag of a static
    object, and [rt_object_detach] clears it. *)
Definition RT_Object_Class_Device : Z := 9.
Definition RT_Object_Class_Static : Z := 0x80.
Definition object_type (object : Z) (objs : object_list) : Z :=
  if existsb (fun o => snd o =? object) objs then Z.lor RT_Object_Class_Device RT_Object_Class_Static else 0.
Definition rt_object_get_type (object : Z) (objs : object_list) : Z :=
  Z.ldiff (object_type object objs) RT_Object_Class_Static.
Definition rt_object_is_systemobject (object : Z) (objs : object_list) : bool :=
  negb (Z.land (object_type object objs) RT_Object_Class_Static =? 0).

Definition rt_device_find (name : list Z) : M object_list (option Z) :=
  gets (rt_object_find name).

(** ** The device structure *)

Section Device.
Context {CB : Type}.

Record rt_device : Type := Rt_device {
  flag : Z;                  (* rt_uint16_t *)
  open_flag : Z;             (* rt_uint16_t *)
  ref_count : Z;             (* rt_uint8_t *)
  rx_indicate : option CB;   (* a callback, or RT_NULL *)
  tx_complete : option CB
}.

Definition set_flag (f : Z) (d : rt_device) : rt_device :=
  Rt_device f (open_flag d) (ref_count d) (rx_indicate d) (tx_complete d).
Definition set_open_flag (f : Z) (d : rt_device) : rt_device :=
  Rt_device (flag d) f (ref_count d) (rx_indicate d) (tx_complete d).
Definition set_ref_count (n : Z) (d : rt_device) : rt_device :=
  Rt_device (flag d) (open_flag d) n (rx_indicate d) (tx_complete d).
Definition set_rx_indicate (cb : option CB) (d : rt_device) : rt_device :=
  Rt_device (flag d) (open_flag d) (ref_count d) cb (tx_complete d).

Definition set_tx_complete (cb : option CB) (d : rt_device) : rt_device :=
  Rt_device (flag d) (open_flag d) (ref_count d) (rx_indicate d) cb.

Definition has (bits f : Z) : bool := negb (Z.land f bits =? 0).

(** [rt_device_register]: [None] is a NULL device. *)
Definition rt_device_register (dev : option Z) (name : list Z) (flags : Z)
    (d : rt_device) : M object_list (rt_err_t * rt_device) :=
  match dev with
  | None => ret (- RT_ERROR, d)
  | Some object =>
      found <- rt_device_find name ;;
      match found with
      | Some _ => ret (- RT_ERROR, d)
      | None =>
          rt_object_init object name ;;;
          ret (RT_EOK, set_open_flag 0 (set_ref_count 0 (set_flag flags d)))
      end
  end.

Definition rt_device_unregister (object : Z) : M object_list rt_err_t :=
  objs <- get ;;
  rt_assert (rt_object_get_type object objs =? RT_Object_Class_Device) ;;;
  rt_assert (rt_object_is_systemobject object objs) ;;;
  rt_object_detach object ;;;
  ret RT_EOK.

Definition rt_device_init_all : M object_list rt_err_t := ret RT_EOK.

(** A cleared structure, with room for the caller's data behind it, when [rt_malloc] gives
    the memory. *)
Definition rt_device_create (malloc_ok : bool) : option rt_device :=
  if malloc_ok then Some (Rt_device 0 0 0 None None) else None.

(** The memory goes back to the heap when the device is off the list. *)
Definition rt_device_destroy (object : Z) : M object_list unit :=
  objs <- get ;;
  rt_assert (rt_object_get_type object objs =? RT_Object_Class_Device) ;;;
  rt_assert (negb (rt_object_is_systemobject object objs)) ;;;
  rt_object_detach object.
End Device.
Arguments rt_device CB : clear implicits.

(** ** Drivers

    [S] is the driver's state, which contains the device structure; [Arg] what a
    control command points to, [W] what a write points to, [R] what a read fills in.
    An operation the driver leaves NULL is [None]. [errno] is the calling thread's. *)

Class DeviceDriver (S CB Arg W R : Type) := {
  parent :: Lens S (rt_device CB);
  set_errno : Z -> M S unit;
  device_init : option (M S rt_err_t);
  device_open : option (Z -> M S rt_err_t);
  device_close : option (M S rt_err_t);
  device_read : option (Z -> Z -> M S (Z * R));
  device_write : option (Z -> W -> Z -> M S Z);
  device_control : option (Z -> Arg -> M S rt_err_t)
}.

Section Framework.
Context {S CB Arg W R : Type} `{drv : !DeviceDriver S CB Arg W R}.

Definition dev_gets {T : Type} (f : rt_device CB -> T) : M S T := gets (fun s => f (view s)).
Definition dev_modify (f : rt_device CB -> rt_device CB) : M S unit :=
  modify (fun s => over (f (view s)) s).

Definition rt_device_init : M S rt_err_t :=
  match device_init with
  | None => ret RT_EOK
  | Some init =>
      f <- dev_gets flag ;;
      if has RT_DEVICE_FLAG_ACTIVATED f then ret RT_EOK
      else
        result <- init ;;
        when (result =? RT_EOK)
          (dev_modify (fun d => set_flag (Z.lor (flag d) RT_DEVICE_FLAG_ACTIVATED) d)) ;;;
        ret result
  end.

(** The first half of [rt_device_open]: activate the device if need be. *)
Definition open_activate : M S rt_err_t :=
  f <- dev_gets flag ;;
  if has RT_DEVICE_FLAG_ACTIVATED f then ret RT_EOK
  else
    result <- match device_init with Some init => init | None => ret RT_EOK end ;;
    if negb (result =? RT_EOK) then ret result
    else
      dev_modify (fun d => set_flag (Z.lor (flag d) RT_DEVICE_FLAG_ACTIVATED) d) ;;;
      ret RT_EOK.

Definition counts_as_open (result : Z) : bool :=
  (result =? RT_EOK) || (result =? - RT_ENOSYS).

Definition rt_device_open (oflag : Z) : M S rt_err_t :=
  activated <- open_activate ;;
  if negb (activated =? RT_EOK) then ret activated
  else
    f <- dev_gets flag ;;
    o <- dev_gets open_flag ;;
    if has RT_DEVICE_FLAG_STANDALONE f && has RT_DEVICE_OFLAG_OPEN o then ret (- RT_EBUSY)
    else
      result <- match device_open with
                | Some open => open oflag
                | None =>
                    dev_modify (set_open_flag (Z.land oflag RT_DEVICE_OFLAG_MASK)) ;;; ret RT_EOK
                end ;;
      if counts_as_open result then
        dev_modify (fun d => set_open_flag (Z.lor (open_flag d) RT_DEVICE_OFLAG_OPEN) d) ;;;
        dev_modify (fun d => set_ref_count (u8 (ref_count d + 1)) d) ;;;
        n <- dev_gets ref_count ;;
        rt_assert (negb (n =? 0)) ;;;
        ret result
      else ret result.

Definition rt_device_close : M S rt_err_t :=
  n <- dev_gets ref_count ;;
  if n =? 0 then ret (- RT_ERROR)
  else
    dev_modify (fun d => set_ref_count (u8 (ref_count d - 1)) d) ;;;
    n <- dev_gets ref_count ;;
    if negb (n =? 0) then ret RT_EOK
    else
      result <- match device_close with Some close => close | None => ret RT_EOK end ;;
      when (counts_as_open result) (dev_modify (set_open_flag RT_DEVICE_OFLAG_CLOSE)) ;;;
      ret result.

(** [r0] is what the caller's buffer holds when nothing is read. *)
Definition rt_device_read (pos size : Z) (r0 : R) : M S (Z * R) :=
  n <- dev_gets ref_count ;;
  if n =? 0 then set_errno (- RT_ERROR) ;;; ret (0, r0)
  else match device_read with
       | Some read => read pos size
       | None => set_errno (- RT_ENOSYS) ;;; ret (0, r0)
       end.

Definition rt_device_write (pos : Z) (buffer : W) (size : Z) : M S Z :=
  n <- dev_gets ref_count ;;
  if n =? 0 then set_errno (- RT_ERROR) ;;; ret 0
  else match device_write with
       | Some write => write pos buffer size
       | None => set_errno (- RT_ENOSYS) ;;; ret 0
       end.

Definition rt_device_control (cmd : Z) (arg : Arg) : M S rt_err_t :=
  match device_control with
  | Some control => control cmd arg
  | None => ret (- RT_ENOSYS)
  end.

Definition rt_device_set_rx_indicate (rx_ind : option CB) : M S rt_err_t :=
  dev_modify (set_rx_indicate rx_ind) ;;; ret RT_EOK.
Definition rt_device_set_tx_complete (tx_done : option CB) : M S rt_err_t :=
  dev_modify (set_tx_complete tx_done) ;;; ret RT_EOK.
End Framework.

Arguments rt_device_open {S CB Arg W R drv} oflag : simpl never.
Arguments rt_device_close {S CB Arg W R drv} : simpl never.
Arguments rt_device_write {S CB Arg W R drv} pos buffer size : simpl never.
Arguments rt_device_read {S CB Arg W R drv} pos size r0 : simpl never.

(** ** Flag bits *)

Lemma has_testbit (n f : Z) : 0 <= n -> has (2 ^ n) f = Z.testbit f n.
Proof. intros Hn. unfold has. rewrite land_pow2_eqb by done. apply negb_involutive. Qed.

Lemma has_standalone (f : Z) : has RT_DEVICE_FLAG_STANDALONE f = Z.testbit f 3.
Proof. apply (has_testbit 3). lia. Qed.
Lemma has_activated (f : Z) : has RT_DEVICE_FLAG_ACTIVATED f = Z.testbit f 4.
Proof. apply (has_testbit 4). lia. Qed.
Lemma has_open (f : Z) : has RT_DEVICE_OFLAG_OPEN f = Z.testbit f 3.
Proof. apply (has_testbit 3). lia. Qed.

(** ** Names

    [rt_strncmp] on two C strings decides the equality of their first [n] characters. *)

Lemma swrap8_diff (a b : Z) :
  0 <= a < 256 -> 0 <= b < 256 -> (swrap 8 (a - b) = 0 <-> a = b).
Proof.
  intros Ha Hb. unfold swrap. change (2 ^ (8 - 1)) with 128. change (2 ^ 8) with 256.
  split; intros E; [|subst; rewrite Z.sub_diag; reflexivity].
  assert ((a - b + 128) mod 256 = 128) as Hm by lia.
  pose proof (Z.div_mod (a - b + 128) 256). pose proof (Z.mod_pos_bound (a - b + 128) 256).
  assert (-1 <= (a - b + 128) / 256 <= 1) as Hq.
  { split; [apply Z.div_le_lower_bound; lia|].
    apply Z.lt_succ_r, Z.div_lt_upper_bound; lia. }
  nia.
Qed.

(** The characters an array holds up to its first NUL: what a comparison sees. *)
Fixpoint c_prefix (s : list Z) (n : nat) : list Z :=
  match n with
  | O => []
  | S n => if char_at s =? 0 then [] else char_at s :: c_prefix (tl s) n
  end.

Definition chars (s : list Z) : Prop := Forall (fun c => 0 <= c < 256) s.

Lemma chars_char_at (s : list Z) : chars s -> 0 <= char_at s < 256.
Proof. intros Hs. destruct Hs; cbn; lia. Qed.
Lemma chars_tl (s : list Z) : chars s -> chars (tl s).
Proof. unfold chars. intros Hs. destruct Hs; cbn; [constructor|assumption]. Qed.
#[export] Hint Resolve chars_tl : core.

Lemma rt_strncmp_spec (n : nat) (cs ct : list Z) :
  chars cs -> chars ct -> rt_strncmp cs ct n = 0 <-> c_prefix cs n = c_prefix ct n.
Proof.
  revert cs ct. induction n as [|n IH]; intros cs ct Hs Ht; cbn [rt_strncmp c_prefix]; [done|].
  pose proof (swrap8_diff _ _ (chars_char_at _ Hs) (chars_char_at _ Ht)) as Hd.
  destruct (Z.eqb_spec (swrap 8 (char_at cs - char_at ct)) 0) as [E|E]; cbn.
  - apply Hd in E as Ec. rewrite E, <- Ec.
    destruct (char_at cs =? 0); [done|].
    rewrite IH by auto. split; [by intros ->|by intros [=]].
  - split; [done|].
    destruct (Z.eqb_spec (char_at cs) 0), (Z.eqb_spec (char_at ct) 0); intros Eq;
      first [discriminate|exfalso; apply E, Hd; congruence].
Qed.

Lemma c_prefix_replicate0 (k n : nat) : c_prefix (replicate k 0) n = [].
Proof. destruct n, k; reflexivity. Qed.

Lemma c_prefix_strncpy (n : nat) (s : list Z) : c_prefix (rt_strncpy s n) n = c_prefix s n.
Proof.
  revert s. induction n as [|n IH]; intros s; cbn [rt_strncpy c_prefix]; [done|].
  destruct (Z.eqb_spec (char_at s) 0) as [E|E]; cbn; [reflexivity|].
  replace (char_at s =? 0) with false by lia. by rewrite IH.
Qed.

Lemma chars_strncpy (n : nat) (s : list Z) : chars s -> chars (rt_strncpy s n).
Proof.
  revert s. induction n as [|n IH]; intros s Hs; cbn; [constructor|].
  destruct (_ =? 0).
  - change (chars (replicate (S n) 0)). apply Forall_replicate. lia.
  - constructor; [by apply chars_char_at|]. apply IH; auto.
Qed.

(** ** What the framework needs of a driver

    Its operations return, succeed, and leave the fields the framework keeps of the
    device (reference count, open flags, the stand-alone bit) alone. [drv_inv] holds at
    all times; [drv_ready] is what [init] establishes and [open] relies on. *)

Class DriverOk (S CB Arg W R : Type) `{drv : !DeviceDriver S CB Arg W R} := {
  drv_inv : S -> Prop;
  drv_ready : S -> Prop;
  inv_over : forall d s, drv_inv s -> drv_inv (over d s);
  ready_over : forall d s, drv_ready s -> drv_ready (over d s);
  init_ok : forall init s, device_init = Some init -> drv_inv s ->
    wp init s (fun r s' => r = RT_EOK /\ ref_count (view s') = ref_count (view s) /\
      open_flag (view s') = open_flag (view s) /\ flag (view s') = flag (view s) /\
      drv_inv s' /\ drv_ready s');
  no_init_ok : forall s, device_init = None -> drv_ready s;
  open_ok : forall open oflag s, device_open = Some open -> drv_inv s -> drv_ready s ->
    wp (open oflag) s (fun r s' => r = RT_EOK /\ ref_count (view s') = ref_count (view s) /\
      open_flag (view s') = open_flag (view s) /\ flag (view s') = flag (view s) /\
      drv_inv s' /\ drv_ready s');
  close_ok : forall close s, device_close = Some close -> drv_inv s ->
    wp close s (fun r s' => r = RT_EOK /\ ref_count (view s') = ref_count (view s) /\
      has RT_DEVICE_FLAG_STANDALONE (flag (view s')) = has RT_DEVICE_FLAG_STANDALONE (flag (view s)) /\
      drv_inv s' /\ (drv_ready s -> drv_ready s') /\
      (has RT_DEVICE_FLAG_ACTIVATED (flag (view s')) = true ->
       has RT_DEVICE_FLAG_ACTIVATED (flag (view s)) = true))
}.

(** ** The open/close protocol of a stand-alone device *)

Inductive phase : Set := Closed | Opened.

(** What a caller may expect: one open at a time, one close per open. *)
Definition spec_open (p : phase) : rt_err_t * phase :=
  match p with Closed => (RT_EOK, Opened) | Opened => (- RT_EBUSY, Opened) end.
Definition spec_close (p : phase) : rt_err_t * phase :=
  match p with Opened => (RT_EOK, Closed) | Closed => (- RT_ERROR, Closed) end.

Inductive dev_op : Set := OpOpen (oflag : Z) | OpClose.

Definition spec_op (o : dev_op) (p : phase) : rt_err_t * phase :=
  match o with OpOpen _ => spec_open p | OpClose => spec_close p end.
Fixpoint spec_ops (os : list dev_op) (p : phase) : list rt_err_t * phase :=
  match os with
  | [] => ([], p)
  | o :: os => let '(r, p) := spec_op o p in let '(rs, p) := spec_ops os p in (r :: rs, p)
  end.

(** The device structure stands for a phase. *)
Definition in_phase {CB : Type} (p : phase) (d : rt_device CB) : Prop :=
  has RT_DEVICE_FLAG_STANDALONE (flag d) = true /\
  match p with
  | Closed => ref_count d = 0 /\ has RT_DEVICE_OFLAG_OPEN (open_flag d) = false
  | Opened => ref_count d = 1 /\ has RT_DEVICE_OFLAG_OPEN (open_flag d) = true /\
      has RT_DEVICE_FLAG_ACTIVATED (flag d) = true
  end.

Section Protocol.
Context {S CB Arg W R : Type} `{drv : !DeviceDriver S CB Arg W R, ok : !DriverOk S CB Arg W R}.
Implicit Types s : S.

Definition exec_op (o : dev_op) : M S rt_err_t :=
  match o with OpOpen oflag => rt_device_open oflag | OpClose => rt_device_close end.
Fixpoint exec_ops (os : list dev_op) : M S (list rt_err_t) :=
  match os with
  | [] => ret []
  | o :: os => r <- exec_op o ;; rs <- exec_ops os ;; ret (r :: rs)
  end.

(** The device is in phase [p], and initialised if it is marked so. *)
Definition stands_for (p : phase) s : Prop :=
  in_phase p (view s) /\ drv_inv s /\
  (has RT_DEVICE_FLAG_ACTIVATED (flag (view s)) = true -> drv_ready s).

Lemma run_init_ok s :
  drv_inv s ->
  wp (match device_init with Some init => init | None => ret RT_EOK end) s (fun r s' =>
    r = RT_EOK /\ ref_count (view s') = ref_count (view s) /\
    open_flag (view s') = open_flag (view s) /\ flag (view s') = flag (view s) /\
    drv_inv s' /\ drv_ready s').
Proof.
  intros Hi. destruct device_init as [init|] eqn:E; [by apply init_ok|].
  apply wp_ret. split_and!; try done. by apply no_init_ok.
Qed.

Lemma open_activate_ok s p :
  stands_for p s ->
  wp open_activate s (fun r s' =>
    r = RT_EOK /\ in_phase p (view s') /\
    has RT_DEVICE_FLAG_ACTIVATED (flag (view s')) = true /\ drv_inv s' /\ drv_ready s').
Proof.
  intros (Hp & Hi & Hr). unfold open_activate, dev_gets. wp_steps.
  destruct (has RT_DEVICE_FLAG_ACTIVATED _) eqn:Ha; [apply wp_ret; split_and!; auto|].
  apply wp_bind. eapply wp_mono; [by apply run_init_ok|].
  intros r s' (-> & Hn & Ho & Hf & Hi' & Hrd). cbn. unfold dev_modify. wp_steps.
  rewrite view_over. split_and!; [done| | |by apply inv_over|by apply ready_over].
  - destruct p; [|destruct Hp as (_ & _ & _ & Hp); congruence].
    revert Hp. unfold in_phase. cbn. rewrite Hn, Ho, Hf, !has_standalone, Z.lor_spec.
    intros [-> Hp]. by split.
  - cbn. rewrite has_activated, Z.lor_spec. apply orb_true_r.
Qed.

Lemma rt_device_open_spec s p oflag :
  stands_for p s ->
  wp (rt_device_open oflag) s (fun r s' =>
    r = (spec_open p).1 /\ stands_for (spec_open p).2 s' /\ drv_ready s').
Proof.
  intros Hp. unfold rt_device_open. apply wp_bind.
  eapply wp_mono; [by apply open_activate_ok|]. cbn beta. intros r s1 (-> & [Hst Hp1] & Hact & Hi & Hrd).
  unfold dev_gets, dev_modify. cbn. wp_steps. rewrite Hst. cbn.
  destruct p; [destruct Hp1 as [Hn Ho]|destruct Hp1 as (Hn & Ho & _)]; rewrite Ho;
    [|apply wp_ret; by repeat split].
  apply wp_bind. apply wp_mono with
    (P := fun r s' => r = RT_EOK /\ ref_count (view s') = ref_count (view s1) /\
            flag (view s') = flag (view s1) /\ drv_inv s' /\ drv_ready s').
  { destruct device_open as [open|] eqn:E.
    - eapply wp_mono; [by apply open_ok|]. cbn. tauto.
    - wp_steps. rewrite view_over. split_and!; auto using inv_over, ready_over. }
  cbn beta. intros r s2 (-> & Hn2 & Hf2 & Hi2 & Hrd2). cbn. wp_steps. rewrite !view_over. cbn.
  rewrite Hn2, Hn. cbn. apply wp_ret. split; [done|].
  split; [|auto using ready_over]. split; [|auto using inv_over, ready_over].
  rewrite view_over. unfold in_phase. cbn. rewrite Hf2, Hst, has_open, Z.lor_spec. split; [done|].
  split; [reflexivity|]. split; [apply orb_true_r|done].
Qed.

(** An open device is left as it is. *)
Lemma rt_device_open_busy s oflag :
  stands_for Opened s -> rt_device_open oflag s = Ok (- RT_EBUSY, s).
Proof.
  intros ([Hst (Hn & Ho & Ha)] & _ & _).
  unfold rt_device_open, open_activate, dev_gets, bind, gets, ret. cbn.
  rewrite Ha. cbn. by rewrite Hst, Ho.
Qed.
Lemma rt_device_close_closed s :
  stands_for Closed s -> rt_device_close s = Ok (- RT_ERROR, s).
Proof.
  intros ([Hst (Hn & Ho)] & _ & _).
  unfold rt_device_close, dev_gets, bind, gets, ret. by rewrite Hn.
Qed.

Lemma rt_device_close_spec s p :
  stands_for p s ->
  wp rt_device_close s (fun r s' =>
    r = (spec_close p).1 /\ stands_for (spec_close p).2 s').
Proof.
  intros ([Hst Hp] & Hi & Hrd). unfold rt_device_close, dev_gets, dev_modify. wp_steps.
  destruct p; [destruct Hp as [Hn Ho]|destruct Hp as (Hn & Ho & _)]; rewrite Hn; cbn.
  { apply wp_ret. by repeat split. }
  wp_steps. rewrite view_over. cbn. rewrite Hn. cbn. apply wp_bind.
  apply wp_mono with
    (P := fun r s' => r = RT_EOK /\ ref_count (view s') = 0 /\
            has RT_DEVICE_FLAG_STANDALONE (flag (view s')) = true /\ drv_inv s' /\
            (has RT_DEVICE_FLAG_ACTIVATED (flag (view s')) = true -> drv_ready s')).
  { destruct device_close as [close|] eqn:E.
    - eapply wp_mono; [apply close_ok; auto using inv_over|]. cbn beta. intros r s'.
      rewrite view_over. cbn. rewrite Hst, ?Hn. intros (? & ? & ? & ? & Hk & Ha).
      split_and!; [done|done|done|done|auto using ready_over].
    - apply wp_ret. rewrite view_over. cbn.
      split_and!; [done|done|done|auto using inv_over|auto using ready_over]. }
  cbn beta. intros r s' (-> & Hn' & Hst' & Hi' & Hrd'). cbn. wp_steps. split; [done|].
  split; rewrite view_over; cbn; [by repeat split|]. auto using inv_over, ready_over.
Qed.

(** C25. Refinement of the open/close protocol: for every driver that meets
    [DriverOk], any sequence of opens and closes of a stand-alone device returns
    exactly the codes of the two-state specification (a second open is [-RT_EBUSY], a
    close of a closed device is [-RT_ERROR]), never faults, and ends in the phase the
    specification ends in. *)
Theorem standalone_protocol os s p :
  stands_for p s ->
  wp (exec_ops os) s (fun rs s' =>
    rs = (spec_ops os p).1 /\ stands_for (spec_ops os p).2 s').
Proof.
  revert s p. induction os as [|o os IH]; intros s p Hp; cbn [exec_ops spec_ops].
  { apply wp_ret. by split. }
  apply wp_bind. apply wp_mono with
    (P := fun r s' => r = (spec_op o p).1 /\ stands_for (spec_op o p).2 s').
  { destruct o; [|by apply rt_device_close_spec].
    eapply wp_mono; [by apply rt_device_open_spec|]. cbn; tauto. }
  cbn beta. intros r s1 [-> Hp1]. destruct (spec_op o p) as [r p1]. cbn in *.
  apply wp_bind. eapply wp_mono; [by apply IH|]. cbn beta. intros rs s2 [-> Hp2].
  destruct (spec_ops os p1) as [rs p2]. apply wp_ret. by split.
Qed.
End Protocol.

Lemma unregistered_absent object (objs : object_list) : object ∉ objs.*2 -> existsb (fun o => o.2 =? object) objs = false.
Proof.
  intros Ho. apply not_true_iff_false. rewrite existsb_exists. intros (o & Hin & E). apply Ho, list_elem_of_fmap. exists o.
  split; [lia|]. by apply list_elem_of_In.
Qed.

(** Registration and lookup: registering a device under a name that no registered
    device shares (up to eight characters) makes that name, and every other name with
    the same first eight characters, find it, leaves every other lookup unchanged, and
    makes a second registration of such a name fail with no change. *)
Theorem rt_device_register_find {CB : Type} (objs : object_list) (object : Z)
    (name : list Z) (flags : Z) (d : rt_device CB) :
  chars name -> rt_object_find name objs = None -> object ∉ objs.*2 ->
  exists objs' d',
    rt_device_register (Some object) name flags d objs = Ok ((RT_EOK, d'), objs') /\
    flag d' = flags /\ ref_count d' = 0 /\ open_flag d' = 0 /\
    forall name', chars name' ->
      if decide (c_prefix name' RT_NAME_MAX = c_prefix name RT_NAME_MAX)
      then rt_object_find name' objs' = Some object /\
           forall o2 f2 (d2 : rt_device CB), rt_device_register (Some o2) name' f2 d2 objs' = Ok ((- RT_ERROR, d2), objs')
      else rt_object_find name' objs' = rt_object_find name' objs.
Proof.
  intros Hn Hfree Hobj.
  exists ((rt_strncpy name RT_NAME_MAX, object) :: objs),
    (set_open_flag 0 (set_ref_count 0 (set_flag flags d))).
  split.
  { unfold rt_device_register, rt_device_find, bind, gets. rewrite Hfree.
    unfold rt_object_init, bind, get, rt_assert, put, ret.
    by rewrite unregistered_absent. }
  split_and!; [done..|]. intros name' Hn'.
  assert ((rt_strncmp (rt_strncpy name RT_NAME_MAX) name' RT_NAME_MAX =? 0) =
          bool_decide (c_prefix name' RT_NAME_MAX = c_prefix name RT_NAME_MAX)) as Hcmp.
  { apply eq_bool_prop_intro. rewrite Is_true_true, bool_decide_spec, Z.eqb_eq.
    rewrite rt_strncmp_spec, c_prefix_strncpy by auto using chars_strncpy.
    split; congruence. }
  destruct (decide _) as [E|E].
  - assert (rt_object_find name' ((rt_strncpy name RT_NAME_MAX, object) :: objs) = Some object) as F.
    { cbn [rt_object_find]. by rewrite Hcmp, bool_decide_eq_true_2. }
    split; [done|]. intros o2 f2 d2.
    unfold rt_device_register, rt_device_find, bind, gets. by rewrite F.
  - cbn [rt_object_find]. by rewrite Hcmp, bool_decide_eq_false_2.
Qed.

(** ** Leaving the list *)

Lemma object_registered object objs :
  rt_object_get_type object objs = (if existsb (fun o => o.2 =? object) objs then RT_Object_Class_Device else 0) /\
  rt_object_is_systemobject object objs = existsb (fun o => o.2 =? object) objs.
Proof. unfold rt_object_get_type, rt_object_is_systemobject, object_type. by destruct (existsb _ _). Qed.

Lemma register_spec {CB : Type} (objs : object_list) (object : Z) (name : list Z) (flags : Z) (d : rt_device CB) :
  rt_object_find name objs = None -> object ∉ objs.*2 ->
  wp (rt_device_register (Some object) name flags d) objs (fun r objs' =>
    r.1 = RT_EOK /\ objs' = (rt_strncpy name RT_NAME_MAX, object) :: objs /\ ref_count r.2 = 0).
Proof.
  intros Hn Ho. unfold rt_device_register, rt_device_find, rt_object_init. wp_steps.
  rewrite Hn. wp_steps. apply wp_get. wp_steps. apply wp_rt_assert; [by rewrite unregistered_absent|]. apply wp_put. by wp_steps.
Qed.

Lemma unregister_spec (objs : object_list) (object : Z) :
  object ∈ objs.*2 ->
  wp (rt_device_unregister object) objs (fun r objs' => r = RT_EOK /\ objs' = filter (fun o => o.2 <> object) objs).
Proof.
  intros Ho. unfold rt_device_unregister, rt_object_detach. wp_steps. apply wp_get. wp_steps.
  destruct (object_registered object objs) as [Et Es].
  assert (existsb (fun o => o.2 =? object) objs = true) as E.
  { apply existsb_exists. apply list_elem_of_fmap in Ho as (o & -> & Ho). exists o. by rewrite Z.eqb_refl, <- list_elem_of_In. }
  rewrite E in Et, Es. apply wp_rt_assert; [by rewrite Et|]. wp_steps. apply wp_rt_assert; [by rewrite Es|]. by wp_steps.
Qed.

(** The new entry is the only one of its object. *)
Lemma filter_registered (objs : object_list) (n : list Z) (object : Z) :
  object ∉ objs.*2 -> filter (fun o => o.2 <> object) ((n, object) :: objs) = objs.
Proof.
  intros Ho. etransitivity; [apply (filter_cons_False (fun o : list Z * Z => o.2 <> object)); cbn; tauto|].
  induction objs as [|[m o] objs IH]; [done|]. cbn in Ho. apply not_elem_of_cons in Ho as [Hne Ho].
  etransitivity; [apply (filter_cons_True (fun o : list Z * Z => o.2 <> object)); cbn; congruence|]. by rewrite IH.
Qed.

Lemma find_registered (objs : object_list) (name : list Z) (object : Z) :
  chars name -> rt_object_find name ((rt_strncpy name RT_NAME_MAX, object) :: objs) = Some object.
Proof.
  intros Hc. cbn [rt_object_find]. rewrite (proj2 (Z.eqb_eq _ 0)); [done|].
  rewrite rt_strncmp_spec by auto using chars_strncpy. apply c_prefix_strncpy.
Qed.

(** Unregistering undoes the registration: the list of names is as it was. *)
Theorem register_unregister {CB : Type} (objs : object_list) (object : Z) (name : list Z) (flags : Z) (d : rt_device CB) :
  rt_object_find name objs = None -> object ∉ objs.*2 ->
  wp (rt_device_register (Some object) name flags d ;;; rt_device_unregister object) objs (fun r objs' => r = RT_EOK /\ objs' = objs).
Proof.
  intros Hn Ho. wp_steps. eapply wp_mono; [by apply register_spec|]. cbn beta. intros _ o (_ & -> & _).
  eapply wp_mono; [apply unregister_spec; by left|]. cbn beta. intros r o [-> ->]. by rewrite filter_registered.
Qed.

(** No device can be destroyed: one on the list is a static object, and one that is not has
    no type. *)
Theorem never_destroyed object objs : rt_device_destroy object objs = Fault AssertFailed.
Proof.
  unfold rt_device_destroy, bind, get. destruct (object_registered object objs) as [-> ->]. by destruct (existsb _ _).
Qed.

(** ** Witnesses *)

(** "timer3" next to "pwm4". *)
Lemma rt_device_register_find_witness :
  let pwm4 := [112; 119; 109; 52] in
  let timer3 := [116; 105; 109; 101; 114; 51] in
  exists objs' d',
    rt_device_register (Some 2) timer3 RT_DEVICE_FLAG_RDWR (Rt_device 0 0 0 (None : option nat) None)
      [(rt_strncpy pwm4 8, 1)] = Ok ((RT_EOK, d'), objs') /\
    rt_object_find timer3 objs' = Some 2 /\ rt_object_find pwm4 objs' = Some 1.
Proof.
  intros pwm4 timer3.
  assert (chars pwm4) as Hp by (unfold chars, pwm4; repeat constructor; lia).
  assert (chars timer3) as Ht by (unfold chars, timer3; repeat constructor; lia).
  destruct (rt_device_register_find [(rt_strncpy pwm4 8, 1)] 2 timer3 RT_DEVICE_FLAG_RDWR
    (Rt_device 0 0 0 (None : option nat) None)) as (objs' & d' & Hr & _ & _ & _ & Hf).
  - exact Ht.
  - reflexivity.
  - cbn. intros Hin. apply list_elem_of_singleton in Hin. discriminate.
  - exists objs', d'. split; [exact Hr|].
    pose proof (Hf timer3 Ht) as H1. pose proof (Hf pwm4 Hp) as H2.
    rewrite decide_True in H1 by reflexivity. rewrite decide_False in H2 by discriminate.
    split; [apply H1|]. rewrite H2. reflexivity.
Defined.
