(* ===== verification/SensorDevice.v ===== *)
(** * The sensor device class

    Models [rt-thread/components/drivers/sensors/sensor.c], the device class through which
    the thermometer is read. The driver below it (for the controller the DHT11 package,
    which is not in the repository) is an instance of [SensorDriver]: the two operations of
    [struct rt_sensor_ops] and the interrupt hook. The sensors of one module share a lock
    and free their buffers together: [members] holds a sensor among the others of its
    module. *)

From stdpp Require Import base numbers list gmap strings.
From Stdlib Require Import ZArith Lia.
From S2P Require Import Prelude Gpio Device.

Open Scope Z_scope.

Definition RT_DEVICE_FLAG_RDONLY : Z := 0x001.
Definition RT_DEVICE_FLAG_INT_RX : Z := 0x100.
Definition RT_DEVICE_FLAG_FIFO_RX : Z := 0x200.
Definition RT_PIN_NONE : Z := 0xFFFF.
Definition RT_SENSOR_POWER_DOWN : Z := 1.
Definition RT_SENSOR_POWER_NORMAL : Z := 2.
Definition RT_SENSOR_MODE_POLLING : Z := 1.
Definition RT_SENSOR_MODE_INT : Z := 2.
Definition RT_SENSOR_MODE_FIFO : Z := 3.
Definition RT_SENSOR_CTRL_GET_ID : Z := 0.
Definition RT_SENSOR_CTRL_GET_INFO : Z := 1.
Definition RT_SENSOR_CTRL_SET_RANGE : Z := 2.
Definition RT_SENSOR_CTRL_SET_ODR : Z := 3.
Definition RT_SENSOR_CTRL_SET_MODE : Z := 4.
Definition RT_SENSOR_CTRL_SET_POWER : Z := 5.
Definition RT_SENSOR_CTRL_SELF_TEST : Z := 6.
Definition RT_SENSOR_CTRL_USER_CMD_START : Z := 0x100.

(** ** The structures of sensor.h *)

Record rt_sensor_info : Set := Sensor_info {
  si_type : Z; si_vendor : Z; si_model : list Z; si_unit : Z; si_intf_type : Z;
  range_max : Z; range_min : Z; period_min : Z; fifo_max : Z
}.

(** The interface part of the configuration is the driver's. *)
Record rt_sensor_config : Set := Sensor_config {
  irq_pin : Z; irq_pin_mode : Z; sc_mode : Z; sc_power : Z; sc_odr : Z; sc_range : Z
}.

(** The union as its 32-bit words. *)
Record rt_sensor_data : Set := Sensor_data { timestamp : Z; sd_type : Z; sd_words : list Z }.
Definition sizeof_sensor_data : Z := 24.
Definition data_temp (d : rt_sensor_data) : Z := i32 (hd 0 (sd_words d)).

Section SensorDevice.
Context {CB : Type}.

Record rt_sensor_device : Type := Sensor {
  sdev : rt_device CB;
  info : rt_sensor_info;
  sconfig : rt_sensor_config;
  data_buf : option (list rt_sensor_data);   (* the records written into the buffer *)
  data_len : Z                               (* in bytes *)
}.

Definition set_sconfig (f : rt_sensor_config -> rt_sensor_config) (s : rt_sensor_device) : rt_sensor_device :=
  Sensor (sdev s) (info s) (f (sconfig s)) (data_buf s) (data_len s).
Definition set_data_buf (b : option (list rt_sensor_data)) (s : rt_sensor_device) : rt_sensor_device :=
  Sensor (sdev s) (info s) (sconfig s) b (data_len s).
Definition set_data_len (n : Z) (s : rt_sensor_device) : rt_sensor_device :=
  Sensor (sdev s) (info s) (sconfig s) (data_buf s) n.

(** A sensor among the sensors of its module, in the module's order; [module_lock] is
    [None] when it has no module, and says else whether the module's lock exists. [copied]
    collects what GET_INFO writes to its callers. *)
Record members : Type := Members {
  sib_before : list rt_sensor_device;
  here : rt_sensor_device;
  sib_after : list rt_sensor_device;
  module_lock : option bool;
  copied : list (Z * rt_sensor_info);
  s_errno : Z
}.

#[export, refine] Instance here_lens : Lens members rt_sensor_device :=
  {| view := here;
     over := fun s m => Members (sib_before m) s (sib_after m) (module_lock m) (copied m) (s_errno m) |}.
Proof. all: intros; try destruct s; reflexivity. Defined.
#[export, refine] Instance sdev_lens : Lens rt_sensor_device (rt_device CB) :=
  {| view := sdev; over := fun d s => Sensor d (info s) (sconfig s) (data_buf s) (data_len s) |}.
Proof. all: intros; try destruct s; reflexivity. Defined.

Definition members_of (m : members) : list rt_sensor_device := sib_before m ++ here m :: sib_after m.
Definition set_module_lock (b : option bool) (m : members) : members :=
  Members (sib_before m) (here m) (sib_after m) b (copied m) (s_errno m).
Definition copy_info (args : Z) (m : members) : members :=
  Members (sib_before m) (here m) (sib_after m) (module_lock m) (copied m ++ [(args, info (here m))]) (s_errno m).
Definition set_s_errno (e : Z) (m : members) : members :=
  Members (sib_before m) (here m) (sib_after m) (module_lock m) (copied m) e.
(** [free(sen[i]->data_buf)] for every member that has one. *)
Definition free_buffers (m : members) : members :=
  Members (map (set_data_buf None) (sib_before m)) (set_data_buf None (here m)) (map (set_data_buf None) (sib_after m))
    (module_lock m) (copied m) (s_errno m).
End SensorDevice.
Arguments rt_sensor_device CB : clear implicits.
Arguments members CB : clear implicits.

(** ** The driver below

    [fetch_data len] is the number of records read and the records; an [ops_control] or an
    [irq_handle] the driver leaves NULL is [None]. *)
Class SensorDriver (S : Type) := {
  fetch_data : Z -> M S (Z * list rt_sensor_data);
  ops_control : option (Z -> Z -> M S rt_err_t);
  irq_handle : nat -> option (M S unit)
}.

Section Sensor.
Context {S CB H : Type} `{EqDecision H}.
Context `{!Lens S (members CB), !Lens S (gpio H), ops : !SensorDriver S}.
(** The address of the sensor, its interrupt routine, and what the allocator and the
    creation of a mutex answer. *)
Variables (self : Z) (irq_callback_h : H) (rt_malloc_ok mutex_created : bool).

Definition on_sensor {A : Type} (m : M (rt_sensor_device CB) A) : M S A :=
  zoom (S := S) (T := members CB) (zoom m).
Definition in_module {A : Type} (m : M (members CB) A) : M S A := zoom m.
Definition on_pins {A : Type} (m : M (gpio H) A) : M S A := zoom m.

(** A call through [ops->control], which the code does not check everywhere. *)
Definition control_op (cmd arg : Z) : M S rt_err_t :=
  match ops_control with Some c => c cmd arg | None => raise NullAccess end.

(** [rt_mutex_take(sensor->module->lock, RT_WAITING_FOREVER)] when there is a module; the
    operation is one step under the lock. *)
Definition take_module : M S unit :=
  l <- in_module (gets module_lock) ;;
  match l with None => ret tt | Some created => rt_assert created end.
Definition release_module : M S unit := take_module.

Definition set_mode (mode : Z) : M S unit :=
  on_sensor (modify (set_sconfig (fun c => Sensor_config (irq_pin c) (irq_pin_mode c) mode (sc_power c) (sc_odr c) (sc_range c)))).
Definition set_power (power : Z) : M S unit :=
  on_sensor (modify (set_sconfig (fun c => Sensor_config (irq_pin c) (irq_pin_mode c) (sc_mode c) (u8 power) (sc_odr c) (sc_range c)))).
Definition set_range (range : Z) : M S unit :=
  on_sensor (modify (set_sconfig (fun c => Sensor_config (irq_pin c) (irq_pin_mode c) (sc_mode c) (sc_power c) (sc_odr c) (i32 range)))).
Definition set_odr_ (odr : Z) : M S unit :=
  on_sensor (modify (set_sconfig (fun c => Sensor_config (irq_pin c) (irq_pin_mode c) (sc_mode c) (sc_power c) (Z.land odr 0xFFFF) (sc_range c)))).

(** ** Interrupts *)

(** The notification of one member: the callback with the number of records ready. *)
Definition rt_sensor_cb (i : nat) : M S (list (CB * Z)) :=
  m <- in_module get ;;
  match members_of m !! i with
  | None => raise NullAccess
  | Some sen =>
      match rx_indicate (sdev sen) with
      | None => ret []
      | Some cb =>
          match irq_handle i with Some h => h | None => ret tt end ;;;
          m <- in_module get ;;
          match members_of m !! i with
          | None => raise NullAccess
          | Some sen =>
              match rx_indicate (sdev sen) with
              | None => raise NullAccess
              | Some cb =>
                  ret (if 0 <? data_len sen then [(cb, data_len sen / sizeof_sensor_data)]
                       else if sc_mode (sconfig sen) =? RT_SENSOR_MODE_INT then [(cb, 1)]
                       else if sc_mode (sconfig sen) =? RT_SENSOR_MODE_FIFO then [(cb, fifo_max (info sen))]
                       else [])
              end
          end
      end
  end.

Fixpoint callbacks (i n : nat) : M S (list (CB * Z)) :=
  match n with
  | O => ret []
  | Datatypes.S n => l <- rt_sensor_cb i ;; l' <- callbacks (Datatypes.S i) n ;; ret (l ++ l')
  end.

(** [irq_callback]: every sensor of the module, else the sensor itself. *)
Definition irq_callback : M S (list (CB * Z)) :=
  m <- in_module get ;;
  match module_lock m with
  | Some _ => callbacks 0 (length (members_of m))
  | None => rt_sensor_cb (length (sib_before m))
  end.

Definition rt_sensor_irq_init : M S rt_err_t :=
  c <- on_sensor (gets sconfig) ;;
  if irq_pin c =? RT_PIN_NONE then ret (- RT_EINVAL)
  else
    on_pins (rt_pin_mode (irq_pin c) (irq_pin_mode c)) ;;;
    (if irq_pin_mode c =? PIN_MODE_INPUT_PULLDOWN then
       on_pins (rt_pin_attach_irq (irq_pin c) PIN_IRQ_MODE_RISING (Some irq_callback_h) self) ;;; ret tt
     else if irq_pin_mode c =? PIN_MODE_INPUT_PULLUP then
       on_pins (rt_pin_attach_irq (irq_pin c) PIN_IRQ_MODE_FALLING (Some irq_callback_h) self) ;;; ret tt
     else if irq_pin_mode c =? PIN_MODE_INPUT then
       on_pins (rt_pin_attach_irq (irq_pin c) PIN_IRQ_MODE_RISING_FALLING (Some irq_callback_h) self) ;;; ret tt
     else ret tt) ;;;
    on_pins (rt_pin_irq_enable (irq_pin c) 1) ;;;
    ret 0.

(** ** The device's operations *)

(** The optional call that sets a mode, before the configuration records it. *)
Definition tell_mode (mode : Z) : M S unit :=
  match ops_control with
  | Some c => c RT_SENSOR_CTRL_SET_MODE mode ;;; ret tt
  | None => ret tt
  end.

(** The buffer of a member of a module with a FIFO: whether there is one if need be. *)
Definition open_buffer : M S bool :=
  l <- in_module (gets module_lock) ;;
  s <- on_sensor get ;;
  match l, data_buf s with
  | Some _, None =>
      if 0 <? fifo_max (info s) then
        if rt_malloc_ok then on_sensor (modify (set_data_buf (Some []))) ;;; ret true
        else ret false
      else ret true
  | _, _ => ret true
  end.

(** The mode the flags ask for, of those the sensor has; whether there is one. *)
Definition open_mode (oflag : Z) : M S bool :=
  f <- on_sensor (gets (fun s => flag (sdev s))) ;;
  if has RT_DEVICE_FLAG_RDONLY oflag && has RT_DEVICE_FLAG_RDONLY f then
    tell_mode RT_SENSOR_MODE_POLLING ;;; set_mode RT_SENSOR_MODE_POLLING ;;; ret true
  else if has RT_DEVICE_FLAG_INT_RX oflag && has RT_DEVICE_FLAG_INT_RX f then
    tell_mode RT_SENSOR_MODE_INT ;;; rt_sensor_irq_init ;;; set_mode RT_SENSOR_MODE_INT ;;; ret true
  else if has RT_DEVICE_FLAG_FIFO_RX oflag && has RT_DEVICE_FLAG_FIFO_RX f then
    tell_mode RT_SENSOR_MODE_FIFO ;;; rt_sensor_irq_init ;;; set_mode RT_SENSOR_MODE_FIFO ;;; ret true
  else ret false.

(** The power mode is recorded when the driver takes it. *)
Definition change_power (power : Z) : M S unit :=
  r <- control_op RT_SENSOR_CTRL_SET_POWER power ;;
  when (r =? RT_EOK) (set_power power).

Definition rt_sensor_open (oflag : Z) : M S rt_err_t :=
  take_module ;;;
  ok <- open_buffer ;;
  res <- (if negb ok then ret (- RT_ENOMEM)
          else
            opened <- open_mode oflag ;;
            if negb opened then ret (- RT_EINVAL)
            else change_power RT_SENSOR_POWER_NORMAL ;;; ret RT_EOK) ;;
  release_module ;;;
  ret res.

Definition rt_sensor_close : M S rt_err_t :=
  take_module ;;;
  change_power RT_SENSOR_POWER_DOWN ;;;
  c <- on_sensor (gets sconfig) ;;
  when (negb (irq_pin c =? RT_PIN_NONE)) (on_pins (rt_pin_irq_enable (irq_pin c) 0) ;;; ret tt) ;;;
  m <- in_module get ;;
  (match module_lock m, data_buf (here m) with
   | Some _, Some _ =>
       when ((0 <? fifo_max (info (here m))) && forallb (fun s => ref_count (sdev s) <=? 0) (members_of m))
         (in_module (modify free_buffers))
   | _, _ => ret tt
   end) ;;;
  release_module ;;;
  ret RT_EOK.

(** A buffer of [len] records is read; the result is the number and the records. *)
Definition rt_sensor_read (pos len : Z) : M S (Z * list rt_sensor_data) :=
  if len =? 0 then ret (0, [])
  else
    take_module ;;;
    s <- on_sensor get ;;
    result <- (if 0 <? data_len s then
                 let len := Z.min len (data_len s / sizeof_sensor_data) in
                 match data_buf s with
                 | None => raise NullAccess
                 | Some buf =>
                     if Z.of_nat (length buf) <? len then raise UninitRead
                     else on_sensor (modify (set_data_len 0)) ;;; ret (len, take (Z.to_nat len) buf)
                 end
               else fetch_data len) ;;
    release_module ;;;
    ret result.

(** [args] is the pointer as a number. *)
Definition rt_sensor_control (cmd args : Z) : M S rt_err_t :=
  take_module ;;;
  result <-
    (if cmd =? RT_SENSOR_CTRL_GET_ID then
       if negb (args =? 0) then control_op RT_SENSOR_CTRL_GET_ID args else ret RT_EOK
     else if cmd =? RT_SENSOR_CTRL_GET_INFO then
       when (negb (args =? 0)) (in_module (modify (copy_info args))) ;;; ret RT_EOK
     else if cmd =? RT_SENSOR_CTRL_SET_RANGE then
       r <- control_op RT_SENSOR_CTRL_SET_RANGE args ;; when (r =? RT_EOK) (set_range args) ;;; ret r
     else if cmd =? RT_SENSOR_CTRL_SET_ODR then
       r <- control_op RT_SENSOR_CTRL_SET_ODR args ;; when (r =? RT_EOK) (set_odr_ args) ;;; ret r
     else if cmd =? RT_SENSOR_CTRL_SET_POWER then
       r <- control_op RT_SENSOR_CTRL_SET_POWER args ;; when (r =? RT_EOK) (set_power (Z.land args 0xFF)) ;;; ret r
     else if cmd =? RT_SENSOR_CTRL_SELF_TEST then control_op RT_SENSOR_CTRL_SELF_TEST args
     else if RT_SENSOR_CTRL_USER_CMD_START <? cmd then control_op cmd args
     else ret (- RT_ERROR)) ;;
  release_module ;;;
  ret result.

#[export] Instance sensor_parent : Lens S (rt_device CB) :=
  lens_compose (lens_compose (T := members CB) _ here_lens) sdev_lens.

(** [rt_sensor_ops]: no initialisation and no write. *)
#[export] Instance rt_sensor_ops : DeviceDriver S CB Z unit (list rt_sensor_data) :=
  {| parent := sensor_parent; set_errno := fun e => in_module (modify (set_s_errno e));
     device_init := None; device_open := Some rt_sensor_open; device_close := Some rt_sensor_close;
     device_read := Some rt_sensor_read; device_write := None; device_control := Some rt_sensor_control |}.

(** ** Registration *)

Context `{!Lens S object_list}.

(** [sensor_name_str]; an index past its end is a read out of bounds. *)
Definition sensor_name_str : list (list Z) := map str
  ["none"; "acce_"; "gyro_"; "mag_"; "temp_"; "humi_"; "baro_"; "li_"; "pr_"; "hr_"; "tvoc_"; "noi_"; "step_"; "forc_";
   "dust_"; "eco2_"; "gnss_"; "tof_"]%string.

Definition rt_hw_sensor_register (name : list Z) (sflag : Z) : M S rt_err_t :=
  m <- in_module get ;;
  match sensor_name_str !! Z.to_nat (si_type (info (here m))) with
  | None => raise OutOfBounds
  | Some sensor_name =>
      if negb rt_malloc_ok then ret (- RT_ERROR)
      else
        let device_name := sensor_name ++ name in
        locked <- match module_lock m with
                  | Some false =>
                      if mutex_created then in_module (modify (set_module_lock (Some true))) ;;; ret true else ret false
                  | _ => ret true
                  end ;;
        if negb locked then ret (- RT_ERROR)
        else
          on_sensor (zoom (modify (fun d => set_tx_complete None (set_rx_indicate None d)))) ;;;
          d <- on_sensor (gets sdev) ;;
          r <- zoom (rt_device_register (Some self) device_name (u16 (Z.lor sflag RT_DEVICE_FLAG_STANDALONE)) d) ;;
          on_sensor (zoom (put r.2)) ;;;
          ret (swrap 8 r.1)
  end.
End Sensor.

(** ** What a read yields *)

Section ReadFacts.
Context {S CB : Type} `{!Lens S (members CB), ops : !SensorDriver S}.
Implicit Types s : S.

Abbreviation mem s := (view s : members CB).

(** The sensor's buffer holds exactly these records. *)
Definition buffered (buf : list rt_sensor_data) (m : members CB) : Prop :=
  module_lock m <> Some false /\ data_buf (here m) = Some buf /\
  data_len (here m) = sizeof_sensor_data * Z.of_nat (length buf).

Definition emptied s : S := over (over (set_data_len 0 (here (mem s))) (mem s)) s.

Lemma take_module_spec s (Q : unit -> S -> Prop) :
  module_lock (mem s) <> Some false -> Q tt s -> wp take_module s Q.
Proof.
  intros Hl HQ. unfold take_module, in_module. wp_steps. apply wp_zoom. wp_steps. rewrite over_view.
  destruct (module_lock (mem s)) as [[]|]; cbn [rt_assert]; by wp_steps.
Qed.

(** A read of a filled buffer takes its first records, and drops the others. *)
Lemma read_buffered pos len buf s :
  buffered buf (mem s) -> buf <> [] -> 0 < len ->
  wp (rt_sensor_read pos len) s (fun r s' =>
    r = (Z.min len (Z.of_nat (length buf)), take (Z.to_nat len) buf) /\ s' = emptied s).
Proof.
  intros (Hl & Hb & Hn) Hne Hlen. unfold rt_sensor_read. rewrite (proj2 (Z.eqb_neq len 0)) by lia. wp_steps.
  apply take_module_spec; [done|]. wp_steps. unfold on_sensor. apply wp_zoom, wp_zoom, wp_get. rewrite !over_view.
  change (@view _ _ (@here_lens CB) (mem s)) with (here (mem s)). rewrite Hb, Hn.
  assert (0 < Z.of_nat (length buf)) by (destruct buf; [done|cbn; lia]).
  rewrite (proj2 (Z.ltb_lt _ _)) by (unfold sizeof_sensor_data; lia). unfold sizeof_sensor_data.
  rewrite (Z.mul_comm 24), Z.div_mul by lia. rewrite (proj2 (Z.ltb_ge _ _)) by lia. wp_steps.
  apply wp_zoom, wp_zoom. wp_steps. unfold release_module. apply take_module_spec; [by rewrite view_over|]. wp_steps.
  split; [|done]. f_equal. destruct (Z.le_ge_cases len (Z.of_nat (length buf))).
  - by rewrite Z.min_l by lia.
  - rewrite Z.min_r by lia. rewrite !take_ge by lia. done.
Qed.

(** Without records it asks the driver. *)
Lemma read_fetches pos len s (Q : Z * list rt_sensor_data -> S -> Prop) :
  module_lock (mem s) = None -> data_len (here (mem s)) = 0 -> len <> 0 ->
  wp (fetch_data len) s (fun r s' => module_lock (mem s') = None /\ Q r s') ->
  wp (rt_sensor_read pos len) s Q.
Proof.
  intros Hl Hn Hlen Hw. unfold rt_sensor_read. rewrite (proj2 (Z.eqb_neq len 0)) by done. wp_steps.
  apply take_module_spec; [by rewrite Hl|]. wp_steps. unfold on_sensor. apply wp_zoom, wp_zoom, wp_get. rewrite !over_view.
  change (@view _ _ (@here_lens CB) (mem s)) with (here (mem s)). rewrite Hn. cbn [Z.ltb Z.compare]. wp_steps.
  eapply wp_mono; [exact Hw|]. cbn beta. intros r s' [Hl' HQ]. wp_steps.
  unfold release_module. apply take_module_spec; [by rewrite Hl'|]. by wp_steps.
Qed.
End ReadFacts.

(** ** Opening and closing

    Under a driver whose [control] returns and leaves the sensor, and what [keep] says of
    the rest of the state, as they are. *)

Section OpenClose.
Context {S CB H : Type} `{EqDecision H}.
Context `{!Lens S (members CB), !Lens S (gpio H), ops : !SensorDriver S}.
Variables (self : Z) (irq_h : H) (rt_malloc_ok : bool).
Implicit Types s : S.

Abbreviation mem s := (view s : members CB).

Variables (keep : S -> Prop) (control : Z -> Z -> M S rt_err_t).
Hypothesis keep_over : forall (m : members CB) s, keep s -> keep (over m s).
Hypothesis Hcontrol : ops_control = Some control.
Hypothesis control_ok : forall cmd arg s, keep s -> wp (control cmd arg) s (fun _ s' => mem s' = mem s /\ keep s').

(** The state of the members becomes [f]'s. *)
Definition becomes (f : members CB -> members CB) s s' : Prop := mem s' = f (mem s) /\ keep s'.

Definition powered (r power : Z) (c : rt_sensor_config) : rt_sensor_config :=
  if r =? RT_EOK then Sensor_config (irq_pin c) (irq_pin_mode c) (sc_mode c) power (sc_odr c) (sc_range c) else c.
Definition in_mode (mode : Z) (c : rt_sensor_config) : rt_sensor_config :=
  Sensor_config (irq_pin c) (irq_pin_mode c) mode (sc_power c) (sc_odr c) (sc_range c).
Definition on_config (f : rt_sensor_config -> rt_sensor_config) (m : members CB) : members CB :=
  over (set_sconfig f (here m)) m.

Lemma on_sensor_spec (f : rt_sensor_device CB -> rt_sensor_device CB) s :
  keep s -> wp (on_sensor (modify f)) s (fun _ s' => becomes (fun m => over (f (here m)) m) s s').
Proof.
  intros Hk. unfold on_sensor. apply wp_zoom, wp_zoom, wp_modify. split; [by rewrite view_over|by apply keep_over].
Qed.

Lemma control_op_spec cmd arg s :
  keep s -> wp (control_op cmd arg) s (fun _ s' => mem s' = mem s /\ keep s').
Proof. intros Hk. unfold control_op. rewrite Hcontrol. by apply control_ok. Qed.

Lemma config_id (m : members CB) : on_config (fun c => c) m = m.
Proof. by destruct m as [? [] ? ? ? ?]. Qed.

Lemma power_spec power s :
  keep s -> u8 power = power ->
  wp (change_power (CB := CB) power) s (fun _ s' => exists r, becomes (on_config (powered r power)) s s').
Proof.
  intros Hk Hp. unfold change_power. wp_steps. eapply wp_mono; [by apply control_op_spec|]. cbn beta. intros r s1 [Em1 Hk1].
  unfold becomes, powered. destruct (r =? RT_EOK) eqn:Er; cbn [when].
  - unfold set_power. rewrite Hp. eapply wp_mono; [by apply on_sensor_spec|]. cbn beta. intros _ s2 [Em2 Hk2].
    exists r. rewrite Er, Em2, Em1. by split.
  - apply wp_ret. exists r. rewrite Er, config_id. by split.
Qed.

(** A member of a module with a FIFO has no buffer yet. *)
Definition lacks_buffer (m : members CB) : bool :=
  match module_lock m, data_buf (here m) with Some _, None => 0 <? fifo_max (info (here m)) | _, _ => false end.
Definition with_buffer (m : members CB) : members CB :=
  if lacks_buffer m then over (set_data_buf (Some []) (here m)) m else m.

(** The mode an opening asks for, of those the sensor has. *)
Definition mode_of (oflag sflag : Z) : option Z :=
  if has RT_DEVICE_FLAG_RDONLY oflag && has RT_DEVICE_FLAG_RDONLY sflag then Some RT_SENSOR_MODE_POLLING
  else if has RT_DEVICE_FLAG_INT_RX oflag && has RT_DEVICE_FLAG_INT_RX sflag then Some RT_SENSOR_MODE_INT
  else if has RT_DEVICE_FLAG_FIFO_RX oflag && has RT_DEVICE_FLAG_FIFO_RX sflag then Some RT_SENSOR_MODE_FIFO
  else None.

Lemma open_buffer_spec s :
  keep s ->
  wp (open_buffer (CB := CB) rt_malloc_ok) s (fun ok s' =>
    ok = (rt_malloc_ok || negb (lacks_buffer (mem s))) /\ becomes (fun m => if ok then with_buffer m else m) s s').
Proof.
  intros Hk. unfold open_buffer, in_module. wp_steps. apply wp_zoom, wp_gets. rewrite over_view. wp_steps.
  unfold on_sensor at 1. apply wp_zoom, wp_zoom, wp_get. rewrite !over_view. change (view (view s)) with (here (mem s)).
  unfold with_buffer, lacks_buffer, becomes. destruct (module_lock (mem s)), (data_buf (here (mem s)));
    try (destruct (0 <? fifo_max _)); try (apply wp_ret; rewrite orb_true_r; by split_and!).
  destruct rt_malloc_ok; wp_steps; [|by split_and!].
  eapply wp_mono; [by apply on_sensor_spec|]. cbn beta. intros _ s' Hb. wp_steps. by split.
Qed.

Lemma irq_init_none s : irq_pin (sconfig (here (mem s))) = RT_PIN_NONE -> wp (rt_sensor_irq_init self irq_h) s (fun _ s' => s' = s).
Proof.
  intros Hp. unfold rt_sensor_irq_init. wp_steps. unfold on_sensor at 1. apply wp_zoom, wp_zoom, wp_gets. rewrite !over_view.
  change (view (view s)) with (here (mem s)). rewrite Hp. by wp_steps.
Qed.

(** One branch of the choice of a mode. *)
Lemma enter_mode mode (init : M S rt_err_t) s :
  keep s -> (forall s1, mem s1 = mem s -> wp init s1 (fun _ s' => s' = s1)) ->
  wp (tell_mode mode ;;; init ;;; set_mode (CB := CB) mode ;;; ret true) s
    (fun ok s' => ok = true /\ becomes (on_config (in_mode mode)) s s').
Proof.
  intros Hk Hi. unfold tell_mode. rewrite Hcontrol. wp_steps. eapply wp_mono; [by apply control_ok|]. cbn beta.
  intros _ s1 [Em1 Hk1]. wp_steps. eapply wp_mono; [by apply Hi|]. cbn beta. intros _ s2 ->. wp_steps.
  unfold set_mode. eapply wp_mono; [by apply on_sensor_spec|]. cbn beta. intros _ s3 [Em3 Hk3]. wp_steps.
  split; [done|]. split; [|done]. by rewrite Em3, Em1.
Qed.

Lemma open_mode_spec oflag s :
  keep s -> irq_pin (sconfig (here (mem s))) = RT_PIN_NONE ->
  wp (open_mode self irq_h oflag) s (fun ok s' =>
    match mode_of oflag (flag (sdev (here (mem s)))) with
    | Some mode => ok = true /\ becomes (on_config (in_mode mode)) s s'
    | None => ok = false /\ s' = s
    end).
Proof.
  intros Hk Hp. unfold open_mode. wp_steps. unfold on_sensor at 1. apply wp_zoom, wp_zoom, wp_gets. rewrite !over_view.
  change (view (view s)) with (here (mem s)). unfold mode_of.
  assert (forall s1, mem s1 = mem s -> wp (rt_sensor_irq_init self irq_h) s1 (fun _ s' => s' = s1)) as Hirq
    by (intros s1 E1; apply irq_init_none; by rewrite E1).
  destruct (has RT_DEVICE_FLAG_RDONLY oflag && _); [by apply (enter_mode _ (ret RT_EOK)); [|intros; apply wp_ret]|].
  destruct (has RT_DEVICE_FLAG_INT_RX oflag && _); [by apply enter_mode|].
  destruct (has RT_DEVICE_FLAG_FIFO_RX oflag && _); [by apply enter_mode|].
  by wp_steps.
Qed.

(** Opening, on every branch, for a sensor without an interrupt pin. *)
Lemma rt_sensor_open_spec oflag s :
  keep s -> module_lock (mem s) <> Some false -> irq_pin (sconfig (here (mem s))) = RT_PIN_NONE ->
  wp (rt_sensor_open self irq_h rt_malloc_ok oflag) s (fun r s' =>
    if negb rt_malloc_ok && lacks_buffer (mem s) then r = - RT_ENOMEM /\ becomes (fun m => m) s s'
    else match mode_of oflag (flag (sdev (here (mem s)))) with
         | Some mode => r = RT_EOK /\ exists rc,
             becomes (fun m => on_config (powered rc RT_SENSOR_POWER_NORMAL) (on_config (in_mode mode) (with_buffer m))) s s'
         | None => r = - RT_EINVAL /\ becomes with_buffer s s'
         end).
Proof.
  intros Hk Hl Hp. unfold rt_sensor_open. wp_steps. apply take_module_spec; [done|]. wp_steps.
  eapply wp_mono; [by apply open_buffer_spec|]. cbn beta. intros ok s1 [Eok [Em1 Hk1]]. wp_steps.
  assert (negb rt_malloc_ok && lacks_buffer (mem s) = negb ok) as -> by (rewrite Eok; by destruct rt_malloc_ok, (lacks_buffer _)).
  clear Eok. destruct ok; cbn [negb]; wp_steps; [|unfold release_module; apply take_module_spec; [by rewrite Em1|]; by wp_steps].
  assert (module_lock (mem s1) = module_lock (mem s) /\ sconfig (here (mem s1)) = sconfig (here (mem s)) /\
    flag (sdev (here (mem s1))) = flag (sdev (here (mem s)))) as (El & Ec & Ef)
    by (rewrite Em1; unfold with_buffer; by destruct (lacks_buffer _)).
  eapply wp_mono; [apply open_mode_spec; [done|by rewrite Ec]|]. cbn beta. rewrite Ef. intros opened s2 H2.
  destruct (mode_of _ _) as [mode|].
  - destruct H2 as [-> [Em2 Hk2]]. cbn [negb]. wp_steps. eapply wp_mono; [by apply power_spec|]. cbn beta.
    intros _ s3 (r & Em3 & Hk3). wp_steps. unfold release_module.
    apply take_module_spec; [by rewrite Em3, Em2; cbn; rewrite El|]. wp_steps. split; [done|]. exists r. split; [|done].
    by rewrite Em3, Em2, Em1.
  - destruct H2 as [-> ->]. cbn [negb]. wp_steps. unfold release_module. apply take_module_spec; [by rewrite El|]. by wp_steps.
Qed.

(** Closing. *)
Definition released (m : members CB) : members CB :=
  match module_lock m, data_buf (here m) with
  | Some _, Some _ =>
      if (0 <? fifo_max (info (here m))) && forallb (fun d => ref_count (sdev d) <=? 0) (members_of m) then free_buffers m else m
  | _, _ => m
  end.

Lemma rt_sensor_close_spec s :
  keep s -> module_lock (mem s) <> Some false -> irq_pin (sconfig (here (mem s))) = RT_PIN_NONE ->
  wp rt_sensor_close s (fun r s' => r = RT_EOK /\ exists rc,
    becomes (fun m => released (on_config (powered rc RT_SENSOR_POWER_DOWN) m)) s s').
Proof.
  intros Hk Hl Hp. unfold rt_sensor_close. wp_steps. apply take_module_spec; [done|]. wp_steps.
  eapply wp_mono; [by apply power_spec|]. cbn beta. intros _ s1 (rc & Em1 & Hk1). wp_steps.
  assert (irq_pin (sconfig (here (mem s1))) = RT_PIN_NONE) as Hp1.
  { rewrite Em1. unfold powered. cbn. by destruct (_ =? _). }
  assert (module_lock (mem s1) <> Some false) as Hl1 by (by rewrite Em1).
  unfold on_sensor at 1. apply wp_zoom, wp_zoom, wp_gets. rewrite !over_view. change (view (view s1)) with (here (mem s1)).
  rewrite Hp1. cbn [Z.eqb Pos.eqb RT_PIN_NONE negb when]. wp_steps.
  unfold in_module at 1. apply wp_zoom, wp_get. rewrite over_view. wp_steps.
  assert (forall s2, becomes (fun m => released (on_config (powered rc RT_SENSOR_POWER_DOWN) m)) s s2 ->
    module_lock (mem s2) <> Some false -> wp (release_module (CB := CB) ;;; ret RT_EOK) s2 (fun r s' => r = RT_EOK /\ exists rc,
    becomes (fun m => released (on_config (powered rc RT_SENSOR_POWER_DOWN) m)) s s')) as Hend.
  { intros s2 H2 Hl2. wp_steps. unfold release_module. apply take_module_spec; [done|]. wp_steps. split; [done|]. by exists rc. }
  unfold becomes in Hend. rewrite <- Em1 in Hend. unfold released in Hend.
  destruct (module_lock (mem s1)) as [b|] eqn:El, (data_buf (here (mem s1))) eqn:Ed; try (apply wp_ret; by apply Hend; rewrite ?El).
  destruct (_ && _); cbn [when].
  - unfold in_module. apply wp_zoom, wp_modify, Hend; rewrite view_over; [split; [done|by apply keep_over]|]. cbn. by rewrite El.
  - apply wp_ret. by apply Hend; rewrite ?El.
Qed.

(** The length of the unread data outlives the buffer: closing the last sensor of a module
    frees the buffers but keeps the length; after the next opening a read takes that many
    bytes from the new, unwritten buffer. *)
Theorem stale_length s buf :
  keep s -> module_lock (mem s) = Some true -> irq_pin (sconfig (here (mem s))) = RT_PIN_NONE ->
  buffered buf (mem s) -> buf <> [] -> 0 < fifo_max (info (here (mem s))) ->
  Forall (fun d => ref_count (sdev d) <= 0) (members_of (mem s)) -> rt_malloc_ok = true ->
  has RT_DEVICE_FLAG_FIFO_RX (flag (sdev (here (mem s)))) = true ->
  wp (rt_sensor_close ;;; rt_sensor_open self irq_h rt_malloc_ok RT_DEVICE_FLAG_FIFO_RX) s (fun r s' =>
    r = RT_EOK /\ forall pos len, 0 < len -> rt_sensor_read (CB := CB) pos len s' = Fault UninitRead).
Proof.
  intros Hk Hl Hp (Hlk & Hb & Hn) Hne Hf Hrefs Hmal Hff. wp_steps.
  eapply wp_mono; [apply rt_sensor_close_spec; [done|by rewrite Hl|done]|]. cbn beta. intros _ s1 (_ & rc & Em1 & Hk1).
  assert (mem s1 = free_buffers (on_config (powered rc RT_SENSOR_POWER_DOWN) (mem s))) as E1.
  { rewrite Em1. unfold released. cbn. rewrite Hl, Hb, (proj2 (Z.ltb_lt _ _)) by done.
    replace (forallb _ _) with true; [done|]. symmetry. apply forallb_forall. intros d Hd. apply Z.leb_le.
    rewrite Forall_forall in Hrefs. apply list_elem_of_In in Hd. unfold members_of in *. cbn in *.
    apply elem_of_app in Hd as [Hd|Hd]; [by apply Hrefs, elem_of_app; left|].
    apply elem_of_cons in Hd as [->|Hd]; [|by apply Hrefs, elem_of_app; right; apply elem_of_cons; right].
    apply (Hrefs (here (mem s))), elem_of_app. right. apply elem_of_cons. by left. }
  eapply wp_mono; [apply rt_sensor_open_spec; [done|by rewrite E1; cbn; rewrite Hl|rewrite E1; cbn; unfold powered; by destruct (_ =? _)]|].
  cbn beta. rewrite Hmal. cbn [negb andb]. intros r s2 H2.
  assert (mode_of RT_DEVICE_FLAG_FIFO_RX (flag (sdev (here (mem s1)))) = Some RT_SENSOR_MODE_FIFO) as Emode.
  { unfold mode_of. rewrite E1. cbn [free_buffers here set_data_buf sdev on_config over here_lens set_sconfig]. rewrite Hff. done. }
  rewrite Emode in H2. destruct H2 as [-> (rc' & Em2 & Hk2)]. split; [done|]. intros pos len Hlen.
  assert (module_lock (mem s2) = Some true /\ data_buf (here (mem s2)) = Some [] /\
    data_len (here (mem s2)) = sizeof_sensor_data * Z.of_nat (length buf)) as (L2 & B2 & N2).
  { rewrite Em2, E1. unfold with_buffer, lacks_buffer. cbn. rewrite Hl, (proj2 (Z.ltb_lt _ _)) by done. by cbn. }
  unfold rt_sensor_read, take_module, in_module, on_sensor, bind, zoom, gets, get.
  rewrite (proj2 (Z.eqb_neq len 0)) by lia. rewrite L2. cbn [rt_assert]. unfold ret. rewrite !over_view.
  change (view (view s2)) with (here (mem s2)). rewrite B2, N2.
  assert (0 < Z.of_nat (length buf)) by (destruct buf; [done|cbn; lia]). unfold sizeof_sensor_data.
  rewrite (proj2 (Z.ltb_lt _ _)) by lia. cbn [length]. rewrite (Z.mul_comm 24), Z.div_mul by lia.
  by rewrite (proj2 (Z.ltb_lt _ _)) by lia.
Qed.
End OpenClose.

(** ** Records that are lost *)

Section Lost.
Context {S CB : Type} `{!Lens S (members CB), ops : !SensorDriver S}.
Implicit Types s : S.

Abbreviation mem s := (view s : members CB).

(** Of several buffered records a read of one gets the first; the others are gone. *)
Theorem unread_records_lost pos d d2 buf s :
  buffered (d :: d2 :: buf) (mem s) ->
  wp (rt_sensor_read pos 1) s (fun r s' => r = (1, [d]) /\ data_len (here (mem s')) = 0).
Proof.
  intros Hb. eapply wp_mono; [by apply (read_buffered pos 1 (d :: d2 :: buf))|]. cbn beta. intros r s' [-> ->].
  split; [|unfold emptied; by rewrite view_over]. f_equal. cbn [length]. lia.
Qed.
End Lost.
