(* ===== verification/Rcc.v ===== *)
(** * The clock tree and the SysTick

    [cubemx/Src/main.c] ([SystemClock_Config], called by [clk_init] in [drivers/drv_clk.c]),
    the functions of the STM32 HAL it uses
    ([libraries/STM32F4xx_HAL_Driver/Src/stm32f4xx_hal_rcc.c]: [HAL_RCC_OscConfig],
    [HAL_RCC_ClockConfig] and the frequency queries) and the time base of
    [drivers/drv_common.c] ([hw_board_init], [rt_hw_systick_init], [SysTick_Handler],
    [rt_hw_us_delay]).

    The state is the registers those functions touch, [SystemCoreClock] and [uwTick]. The
    hardware is a list of [poll]s, one per turn of a busy wait: the ticks that pass and
    whether the oscillators and the clock switch have settled by then. Ticks pass only
    while the SysTick runs, which is what makes the waits of the start-up endless. *)

From stdpp Require Import base numbers list.
From Stdlib Require Import ZArith Lia.
From S2P Require Import Prelude.

(** ** Registers *)

Inductive creg : Set :=
  | RCC_CR | RCC_PLLCFGR | RCC_CFGR | RCC_BDCR | RCC_CSR | RCC_APB1ENR | PWR_CR | FLASH_ACR.

#[export] Instance creg_eq_dec : EqDecision creg.
Proof. solve_decision. Defined.

Record cregs : Set := Cregs {
  r_cr : Z; r_pllcfgr : Z; r_cfgr : Z; r_bdcr : Z; r_csr : Z; r_apb1enr : Z; r_pwr_cr : Z; r_flash_acr : Z
}.

Definition read_reg (g : cregs) (r : creg) : Z :=
  match r with
  | RCC_CR => r_cr g | RCC_PLLCFGR => r_pllcfgr g | RCC_CFGR => r_cfgr g | RCC_BDCR => r_bdcr g
  | RCC_CSR => r_csr g | RCC_APB1ENR => r_apb1enr g | PWR_CR => r_pwr_cr g | FLASH_ACR => r_flash_acr g
  end.
Definition write_reg (r : creg) (v : Z) (g : cregs) : cregs :=
  let pick r' := if decide (r' = r) then u32 v else read_reg g r' in
  Cregs (pick RCC_CR) (pick RCC_PLLCFGR) (pick RCC_CFGR) (pick RCC_BDCR)
        (pick RCC_CSR) (pick RCC_APB1ENR) (pick PWR_CR) (pick FLASH_ACR).

Record poll : Set := Poll { elapsed : Z; settles : bool }.

(** [systick] is the reload value of the SysTick when it runs with its interrupt. *)
Record clk : Set := Clk {
  clk_regs : cregs;
  SystemCoreClock : Z;
  uwTick : Z;
  systick : option Z;
  polls : list poll
}.

Definition crg (s : clk) : creg -> Z := read_reg (clk_regs s).
Definition set_crg (r : creg) (v : Z) (s : clk) : clk :=
  Clk (write_reg r v (clk_regs s)) (SystemCoreClock s) (uwTick s) (systick s) (polls s).
Definition set_SystemCoreClock (v : Z) (s : clk) : clk :=
  Clk (clk_regs s) v (uwTick s) (systick s) (polls s).
Definition set_uwTick (v : Z) (s : clk) : clk :=
  Clk (clk_regs s) (SystemCoreClock s) v (systick s) (polls s).
Definition set_systick (v : option Z) (s : clk) : clk :=
  Clk (clk_regs s) (SystemCoreClock s) (uwTick s) v (polls s).
Definition set_polls (ps : list poll) (s : clk) : clk :=
  Clk (clk_regs s) (SystemCoreClock s) (uwTick s) (systick s) ps.

(** [MODIFY_REG], [SET_BIT], [CLEAR_BIT]; [reg_bit] reads a flag. *)
Definition MODIFY_REG (r : creg) (clearmask setmask : Z) (s : clk) : clk :=
  set_crg r (Z.lor (Z.ldiff (crg s r) clearmask) setmask) s.
Definition SET_BIT (r : creg) (bit : Z) : clk -> clk := MODIFY_REG r 0 bit.
Definition CLEAR_BIT (r : creg) (bit : Z) : clk -> clk := MODIFY_REG r bit 0.
Definition reg_bit (r : creg) (bit : Z) (s : clk) : bool := negb (Z.land (crg s r) bit =? 0).

Definition RCC_CR_HSION : Z := 0x00000001.
Definition RCC_CR_HSIRDY : Z := 0x00000002.
Definition RCC_CR_HSITRIM : Z := 0x000000F8.
Definition RCC_CR_HSEON : Z := 0x00010000.
Definition RCC_CR_HSERDY : Z := 0x00020000.
Definition RCC_CR_HSEBYP : Z := 0x00040000.
Definition RCC_CR_PLLON : Z := 0x01000000.
Definition RCC_CR_PLLRDY : Z := 0x02000000.
Definition RCC_PLLCFGR_PLLSRC : Z := 0x00400000.
Definition RCC_CFGR_SW : Z := 0x00000003.
Definition RCC_CFGR_SWS : Z := 0x0000000C.
Definition RCC_CFGR_HPRE : Z := 0x000000F0.
Definition RCC_CFGR_PPRE1 : Z := 0x00001C00.
Definition RCC_CFGR_PPRE2 : Z := 0x0000E000.
Definition RCC_BDCR_LSEON : Z := 0x00000001.
Definition RCC_BDCR_LSERDY : Z := 0x00000002.
Definition RCC_BDCR_LSEBYP : Z := 0x00000004.
Definition RCC_CSR_LSION : Z := 0x00000001.
Definition RCC_CSR_LSIRDY : Z := 0x00000002.
Definition RCC_APB1ENR_PWREN : Z := 0x10000000.
Definition PWR_CR_DBP : Z := 0x00000100.
Definition PWR_CR_VOS : Z := 0x00004000.

(** ** The hardware *)

(** A ready flag follows its enable bit. *)
Definition follow (r : creg) (on rdy : Z) (s : clk) : clk :=
  MODIFY_REG r rdy (if reg_bit r on s then rdy else 0) s.

(** The clock switch completes once the source selected is ready. *)
Definition switch_clock (s : clk) : clk :=
  let sw := Z.land (crg s RCC_CFGR) RCC_CFGR_SW in
  if reg_bit RCC_CR (if sw =? 0 then RCC_CR_HSIRDY else if sw =? 1 then RCC_CR_HSERDY else RCC_CR_PLLRDY) s
  then MODIFY_REG RCC_CFGR RCC_CFGR_SWS (Z.shiftl sw 2) s else s.

Definition settle (s : clk) : clk :=
  switch_clock (follow RCC_CSR RCC_CSR_LSION RCC_CSR_LSIRDY
    (follow RCC_BDCR RCC_BDCR_LSEON RCC_BDCR_LSERDY
      (follow RCC_CR RCC_CR_PLLON RCC_CR_PLLRDY
        (follow RCC_CR RCC_CR_HSEON RCC_CR_HSERDY
          (follow RCC_CR RCC_CR_HSION RCC_CR_HSIRDY s))))).

(** [SysTick_Handler] calls [HAL_IncTick] ([uwTickFreq] is 1) at each of the elapsed ticks. *)
Definition environment (p : poll) (s : clk) : clk :=
  let s := if systick s is Some _ then set_uwTick (u32 (uwTick s + elapsed p)) s else s in
  if settles p then settle s else s.

(** [tickstart = HAL_GetTick(); while (!ready) if (HAL_GetTick() - tickstart > timeout)
    return HAL_TIMEOUT;] : [false] is the time-out. *)
Fixpoint wait_loop (ready : clk -> bool) (tickstart timeout : Z) (ps : list poll) (s : clk)
    : outcome (bool * clk) :=
  if ready s then Ok (true, set_polls ps s)
  else match ps with
       | [] => Fault StillWaiting
       | p :: ps =>
           let s := environment p s in
           if timeout <? u32 (uwTick s - tickstart) then Ok (false, set_polls ps s)
           else wait_loop ready tickstart timeout ps s
       end.
Definition wait (ready : clk -> bool) (timeout : Z) : M clk bool :=
  fun s => wait_loop ready (uwTick s) timeout (polls s) s.

(** ** stm32f4xx_hal_rcc.c *)

Definition HSE_TIMEOUT_VALUE : Z := 100.
Definition HSI_TIMEOUT_VALUE : Z := 2.
Definition LSI_TIMEOUT_VALUE : Z := 2.
Definition PLL_TIMEOUT_VALUE : Z := 2.
Definition RCC_DBP_TIMEOUT_VALUE : Z := 2.
Definition RCC_LSE_TIMEOUT_VALUE : Z := 5000.
Definition CLOCKSWITCH_TIMEOUT_VALUE : Z := 5000.

(** The rest of a function that returns early unless this part went well. *)
Definition and_then (m k : M clk Z) : M clk Z :=
  r <- m ;; if r =? HAL_OK then k else ret r.
(** Wait, or leave with [HAL_TIMEOUT]. *)
Definition await (ready : clk -> bool) (timeout : Z) : M clk Z :=
  ok <- wait ready timeout ;; ret (if ok : bool then HAL_OK else HAL_TIMEOUT).

Record RCC_PLLInitTypeDef : Set := PLLInit {
  PLLState : Z; PLLSource : Z; PLLM : Z; PLLN : Z; PLLP : Z; PLLQ : Z
}.
Record RCC_OscInitTypeDef : Set := OscInit {
  OscillatorType : Z; HSEState : Z; LSEState : Z; HSIState : Z; HSICalibrationValue : Z;
  LSIState : Z; PLL : RCC_PLLInitTypeDef
}.
Record RCC_ClkInitTypeDef : Set := ClkInit {
  ClockType : Z; SYSCLKSource : Z; AHBCLKDivider : Z; APB1CLKDivider : Z; APB2CLKDivider : Z
}.

Definition RCC_OSCILLATORTYPE_HSE : Z := 1.
Definition RCC_OSCILLATORTYPE_HSI : Z := 2.
Definition RCC_OSCILLATORTYPE_LSE : Z := 4.
Definition RCC_OSCILLATORTYPE_LSI : Z := 8.
Definition RCC_HSE_ON : Z := RCC_CR_HSEON.
Definition RCC_HSE_BYPASS : Z := Z.lor RCC_CR_HSEBYP RCC_CR_HSEON.
Definition RCC_HSI_ON : Z := 1.
Definition RCC_LSE_ON : Z := RCC_BDCR_LSEON.
Definition RCC_LSE_BYPASS : Z := Z.lor RCC_BDCR_LSEBYP RCC_BDCR_LSEON.
Definition RCC_PLL_NONE : Z := 0.
Definition RCC_PLL_OFF : Z := 1.
Definition RCC_PLL_ON : Z := 2.
Definition RCC_PLLSOURCE_HSI : Z := 0.
Definition RCC_PLLSOURCE_HSE : Z := RCC_PLLCFGR_PLLSRC.
Definition RCC_CFGR_SWS_HSI : Z := 0.
Definition RCC_CFGR_SWS_HSE : Z := 4.
Definition RCC_CFGR_SWS_PLL : Z := 8.
Definition RCC_CLOCKTYPE_SYSCLK : Z := 1.
Definition RCC_CLOCKTYPE_HCLK : Z := 2.
Definition RCC_CLOCKTYPE_PCLK1 : Z := 4.
Definition RCC_CLOCKTYPE_PCLK2 : Z := 8.
Definition RCC_SYSCLKSOURCE_HSE : Z := 1.
Definition RCC_SYSCLKSOURCE_PLLCLK : Z := 2.
Definition RCC_SYSCLKSOURCE_PLLRCLK : Z := 3.
Definition RCC_HCLK_DIV2 : Z := 0x1000.
Definition RCC_HCLK_DIV4 : Z := 0x1400.
Definition RCC_HCLK_DIV16 : Z := 0x1C00.
Definition RCC_SYSCLK_DIV1 : Z := 0.
Definition FLASH_LATENCY_5 : Z := 5.

Definition has (flags flag : Z) : bool := Z.land flags flag =? flag.

Definition GET_SYSCLK_SOURCE (s : clk) : Z := Z.land (crg s RCC_CFGR) RCC_CFGR_SWS.
Definition PLL_source (s : clk) : Z := Z.land (crg s RCC_PLLCFGR) RCC_PLLCFGR_PLLSRC.

(** [__HAL_RCC_HSE_CONFIG] and [__HAL_RCC_LSE_CONFIG]. *)
Definition HSE_CONFIG (state : Z) (s : clk) : clk :=
  if state =? RCC_HSE_ON then SET_BIT RCC_CR RCC_CR_HSEON s
  else if state =? RCC_HSE_BYPASS then SET_BIT RCC_CR RCC_CR_HSEON (SET_BIT RCC_CR RCC_CR_HSEBYP s)
  else CLEAR_BIT RCC_CR RCC_CR_HSEBYP (CLEAR_BIT RCC_CR RCC_CR_HSEON s).
Definition LSE_CONFIG (state : Z) (s : clk) : clk :=
  if state =? RCC_LSE_ON then SET_BIT RCC_BDCR RCC_BDCR_LSEON s
  else if state =? RCC_LSE_BYPASS then SET_BIT RCC_BDCR RCC_BDCR_LSEON (SET_BIT RCC_BDCR RCC_BDCR_LSEBYP s)
  else CLEAR_BIT RCC_BDCR RCC_BDCR_LSEBYP (CLEAR_BIT RCC_BDCR RCC_BDCR_LSEON s).

Definition ready (r : creg) (rdy : Z) : clk -> bool := reg_bit r rdy.
Definition not_ready (r : creg) (rdy : Z) (s : clk) : bool := negb (reg_bit r rdy s).

Definition osc_HSE (i : RCC_OscInitTypeDef) : M clk Z :=
  s <- get ;;
  if (GET_SYSCLK_SOURCE s =? RCC_CFGR_SWS_HSE)
     || (GET_SYSCLK_SOURCE s =? RCC_CFGR_SWS_PLL) && (PLL_source s =? RCC_PLLSOURCE_HSE)
  then ret (if reg_bit RCC_CR RCC_CR_HSERDY s && (HSEState i =? 0) then HAL_ERROR else HAL_OK)
  else
    modify (HSE_CONFIG (HSEState i)) ;;;
    if negb (HSEState i =? 0) then await (ready RCC_CR RCC_CR_HSERDY) HSE_TIMEOUT_VALUE
    else await (not_ready RCC_CR RCC_CR_HSERDY) HSE_TIMEOUT_VALUE.

(** [__HAL_RCC_HSI_CALIBRATIONVALUE_ADJUST]. *)
Definition HSI_ADJUST (v : Z) : clk -> clk := MODIFY_REG RCC_CR RCC_CR_HSITRIM (u32 (Z.shiftl v 3)).

Definition osc_HSI (i : RCC_OscInitTypeDef) : M clk Z :=
  s <- get ;;
  if (GET_SYSCLK_SOURCE s =? RCC_CFGR_SWS_HSI)
     || (GET_SYSCLK_SOURCE s =? RCC_CFGR_SWS_PLL) && (PLL_source s =? RCC_PLLSOURCE_HSI)
  then
    if reg_bit RCC_CR RCC_CR_HSIRDY s && negb (HSIState i =? RCC_HSI_ON) then ret HAL_ERROR
    else modify (HSI_ADJUST (HSICalibrationValue i)) ;;; ret HAL_OK
  else if negb (HSIState i =? 0) then
    modify (SET_BIT RCC_CR RCC_CR_HSION) ;;;
    and_then (await (ready RCC_CR RCC_CR_HSIRDY) HSI_TIMEOUT_VALUE)
      (modify (HSI_ADJUST (HSICalibrationValue i)) ;;; ret HAL_OK)
  else
    modify (CLEAR_BIT RCC_CR RCC_CR_HSION) ;;;
    await (not_ready RCC_CR RCC_CR_HSIRDY) HSI_TIMEOUT_VALUE.

Definition osc_LSI (i : RCC_OscInitTypeDef) : M clk Z :=
  if negb (LSIState i =? 0) then
    modify (SET_BIT RCC_CSR RCC_CSR_LSION) ;;;
    await (ready RCC_CSR RCC_CSR_LSIRDY) LSI_TIMEOUT_VALUE
  else
    modify (CLEAR_BIT RCC_CSR RCC_CSR_LSION) ;;;
    await (not_ready RCC_CSR RCC_CSR_LSIRDY) LSI_TIMEOUT_VALUE.

Definition osc_LSE (i : RCC_OscInitTypeDef) : M clk Z :=
  pwrclkchanged <- gets (not_ready RCC_APB1ENR RCC_APB1ENR_PWREN) ;;
  when pwrclkchanged (modify (SET_BIT RCC_APB1ENR RCC_APB1ENR_PWREN)) ;;;
  protected <- gets (not_ready PWR_CR PWR_CR_DBP) ;;
  and_then
    (if protected : bool then
       modify (SET_BIT PWR_CR PWR_CR_DBP) ;;; await (ready PWR_CR PWR_CR_DBP) RCC_DBP_TIMEOUT_VALUE
     else ret HAL_OK)
  (modify (LSE_CONFIG (LSEState i)) ;;;
   and_then
    (if negb (LSEState i =? 0) then await (ready RCC_BDCR RCC_BDCR_LSERDY) RCC_LSE_TIMEOUT_VALUE
     else await (not_ready RCC_BDCR RCC_BDCR_LSERDY) RCC_LSE_TIMEOUT_VALUE)
    (when pwrclkchanged (modify (CLEAR_BIT RCC_APB1ENR RCC_APB1ENR_PWREN)) ;;; ret HAL_OK)).

(** The value written to PLLCFGR. *)
Definition pllcfgr (p : RCC_PLLInitTypeDef) : Z :=
  u32 (Z.lor (PLLSource p) (Z.lor (PLLM p) (Z.lor (Z.shiftl (PLLN p) 6)
    (Z.lor (Z.shiftl (u32 (Z.shiftr (PLLP p) 1 - 1)) 16) (Z.shiftl (PLLQ p) 24))))).

Definition osc_PLL (p : RCC_PLLInitTypeDef) : M clk Z :=
  if PLLState p =? RCC_PLL_NONE then ret HAL_OK
  else
    s <- get ;;
    if GET_SYSCLK_SOURCE s =? RCC_CFGR_SWS_PLL then ret HAL_ERROR
    else if PLLState p =? RCC_PLL_ON then
      modify (CLEAR_BIT RCC_CR RCC_CR_PLLON) ;;;
      and_then (await (not_ready RCC_CR RCC_CR_PLLRDY) PLL_TIMEOUT_VALUE)
        (modify (set_crg RCC_PLLCFGR (pllcfgr p)) ;;;
         modify (SET_BIT RCC_CR RCC_CR_PLLON) ;;;
         await (ready RCC_CR RCC_CR_PLLRDY) PLL_TIMEOUT_VALUE)
    else
      modify (CLEAR_BIT RCC_CR RCC_CR_PLLON) ;;;
      await (not_ready RCC_CR RCC_CR_PLLRDY) PLL_TIMEOUT_VALUE.

(** NULL is [None]. *)
Definition HAL_RCC_OscConfig (RCC_OscInitStruct : option RCC_OscInitTypeDef) : M clk Z :=
  match RCC_OscInitStruct with
  | None => ret HAL_ERROR
  | Some i =>
      let part flag m := if has (OscillatorType i) flag then m else ret HAL_OK in
      and_then (part RCC_OSCILLATORTYPE_HSE (osc_HSE i))
        (and_then (part RCC_OSCILLATORTYPE_HSI (osc_HSI i))
          (and_then (part RCC_OSCILLATORTYPE_LSI (osc_LSI i))
            (and_then (part RCC_OSCILLATORTYPE_LSE (osc_LSE i)) (osc_PLL (PLL i)))))
  end.

(** ** Frequencies *)

Definition HSE_VALUE : Z := 8000000.
Definition HSI_VALUE : Z := 16000000.

Definition HAL_RCC_GetSysClockFreq : M clk Z :=
  s <- get ;;
  let sws := GET_SYSCLK_SOURCE s in
  if sws =? RCC_CFGR_SWS_HSI then ret HSI_VALUE
  else if sws =? RCC_CFGR_SWS_HSE then ret HSE_VALUE
  else if sws =? RCC_CFGR_SWS_PLL then
    let pllm := Z.land (crg s RCC_PLLCFGR) 0x3F in
    let plln := Z.shiftr (Z.land (crg s RCC_PLLCFGR) 0x7FC0) 6 in
    if pllm =? 0 then raise BadConversion
    else
      let pllvco :=
        if negb (PLL_source s =? RCC_PLLSOURCE_HSI) then u32 (u64 (HSE_VALUE * plln) / pllm)
        else u32 (u64 (HSI_VALUE * plln) / pllm) in
      let pllp := (Z.shiftr (Z.land (crg s RCC_PLLCFGR) 0x30000) 16 + 1) * 2 in
      ret (pllvco / pllp)
  else ret HSI_VALUE.

Definition AHBPrescTable : list Z := [0; 0; 0; 0; 0; 0; 0; 0; 1; 2; 3; 4; 6; 7; 8; 9].
Definition APBPrescTable : list Z := [0; 0; 0; 0; 1; 2; 3; 4].

Definition HAL_RCC_GetHCLKFreq : clk -> Z := SystemCoreClock.
Definition HAL_RCC_GetPCLK1Freq (s : clk) : Z :=
  Z.shiftr (HAL_RCC_GetHCLKFreq s)
    (nth (Z.to_nat (Z.shiftr (Z.land (crg s RCC_CFGR) RCC_CFGR_PPRE1) 10)) APBPrescTable 0).
Definition HAL_RCC_GetPCLK2Freq (s : clk) : Z :=
  Z.shiftr (HAL_RCC_GetHCLKFreq s)
    (nth (Z.to_nat (Z.shiftr (Z.land (crg s RCC_CFGR) RCC_CFGR_PPRE2) 13)) APBPrescTable 0).

(** [__HAL_FLASH_SET_LATENCY] writes the low byte of the register. *)
Definition FLASH_SET_LATENCY (v : Z) : clk -> clk := MODIFY_REG FLASH_ACR 0xFF (u8 v).
Definition FLASH_GET_LATENCY (s : clk) : Z := Z.land (crg s FLASH_ACR) 0xF.

Definition program_latency (wanted : Z -> Z -> bool) (FLatency : Z) : M clk Z :=
  lat <- gets FLASH_GET_LATENCY ;;
  if wanted FLatency lat then
    modify (FLASH_SET_LATENCY FLatency) ;;;
    lat <- gets FLASH_GET_LATENCY ;;
    ret (if negb (lat =? FLatency) then HAL_ERROR else HAL_OK)
  else ret HAL_OK.

Definition clock_HCLK (c : RCC_ClkInitTypeDef) : M clk unit :=
  when (has (ClockType c) RCC_CLOCKTYPE_PCLK1)
    (modify (MODIFY_REG RCC_CFGR RCC_CFGR_PPRE1 RCC_HCLK_DIV16)) ;;;
  when (has (ClockType c) RCC_CLOCKTYPE_PCLK2)
    (modify (MODIFY_REG RCC_CFGR RCC_CFGR_PPRE2 (Z.shiftl RCC_HCLK_DIV16 3))) ;;;
  modify (MODIFY_REG RCC_CFGR RCC_CFGR_HPRE (AHBCLKDivider c)).

Definition clock_SYSCLK (c : RCC_ClkInitTypeDef) : M clk Z :=
  let src := SYSCLKSource c in
  source_ready <- gets (reg_bit RCC_CR
    (if src =? RCC_SYSCLKSOURCE_HSE then RCC_CR_HSERDY
     else if (src =? RCC_SYSCLKSOURCE_PLLCLK) || (src =? RCC_SYSCLKSOURCE_PLLRCLK) then RCC_CR_PLLRDY
     else RCC_CR_HSIRDY)) ;;
  if negb source_ready then ret HAL_ERROR
  else
    modify (MODIFY_REG RCC_CFGR RCC_CFGR_SW src) ;;;
    await (fun s => GET_SYSCLK_SOURCE s =? u32 (Z.shiftl src 2)) CLOCKSWITCH_TIMEOUT_VALUE.

(** [HAL_InitTick] of drv_common.c does nothing. *)
Definition HAL_InitTick : M clk Z := ret HAL_OK.

Definition HAL_RCC_ClockConfig (RCC_ClkInitStruct : option RCC_ClkInitTypeDef) (FLatency : Z) : M clk Z :=
  match RCC_ClkInitStruct with
  | None => ret HAL_ERROR
  | Some c =>
      and_then (program_latency (fun new cur => cur <? new) FLatency)
        (when (has (ClockType c) RCC_CLOCKTYPE_HCLK) (clock_HCLK c) ;;;
         and_then (if has (ClockType c) RCC_CLOCKTYPE_SYSCLK then clock_SYSCLK c else ret HAL_OK)
           (and_then (program_latency (fun new cur => new <? cur) FLatency)
             (when (has (ClockType c) RCC_CLOCKTYPE_PCLK1)
                (modify (MODIFY_REG RCC_CFGR RCC_CFGR_PPRE1 (APB1CLKDivider c))) ;;;
              when (has (ClockType c) RCC_CLOCKTYPE_PCLK2)
                (modify (MODIFY_REG RCC_CFGR RCC_CFGR_PPRE2 (u32 (Z.shiftl (APB2CLKDivider c) 3)))) ;;;
              freq <- HAL_RCC_GetSysClockFreq ;;
              hpre <- gets (fun s => Z.shiftr (Z.land (crg s RCC_CFGR) RCC_CFGR_HPRE) 4) ;;
              modify (set_SystemCoreClock (Z.shiftr freq (nth (Z.to_nat hpre) AHBPrescTable 0))) ;;;
              HAL_InitTick ;;; ret HAL_OK)))
  end.

(** ** main.c, drv_clk.c, drv_common.c *)

Definition board_osc : RCC_OscInitTypeDef :=
  OscInit RCC_OSCILLATORTYPE_HSE RCC_HSE_ON 0 0 0 0 (PLLInit RCC_PLL_ON RCC_PLLSOURCE_HSE 8 336 2 4).
Definition board_clk : RCC_ClkInitTypeDef :=
  ClkInit 15 RCC_SYSCLKSOURCE_PLLCLK RCC_SYSCLK_DIV1 RCC_HCLK_DIV4 RCC_HCLK_DIV2.

Definition Error_Handler : M clk unit := raise Halted.

Definition SystemClock_Config : M clk unit :=
  modify (SET_BIT RCC_APB1ENR RCC_APB1ENR_PWREN) ;;;
  modify (MODIFY_REG PWR_CR PWR_CR_VOS PWR_CR_VOS) ;;;
  r <- HAL_RCC_OscConfig (Some board_osc) ;;
  when (negb (r =? HAL_OK)) Error_Handler ;;;
  r <- HAL_RCC_ClockConfig (Some board_clk) FLASH_LATENCY_5 ;;
  when (negb (r =? HAL_OK)) Error_Handler.

(** Its three arguments are not used. *)
Definition clk_init : M clk unit := SystemClock_Config.

(** The caches and the prefetch buffer, then [HAL_MspInit] (less the SYSCFG clock). *)
Definition HAL_Init : M clk Z :=
  modify (SET_BIT FLASH_ACR 0x200) ;;;
  modify (SET_BIT FLASH_ACR 0x400) ;;;
  modify (SET_BIT FLASH_ACR 0x100) ;;;
  HAL_InitTick ;;;
  modify (SET_BIT RCC_APB1ENR RCC_APB1ENR_PWREN) ;;;
  ret HAL_OK.

(** core_cm4.h, [SysTick_Config]. *)
Definition HAL_SYSTICK_Config (ticks : Z) : M clk Z :=
  if 0xFFFFFF <? u32 (ticks - 1) then ret 1
  else modify (set_systick (Some (u32 (ticks - 1)))) ;;; ret 0.

Definition rt_hw_systick_init : M clk unit :=
  hclk <- gets HAL_RCC_GetHCLKFreq ;;
  HAL_SYSTICK_Config (hclk / RT_TICK_PER_SECOND) ;;; ret tt.

(** As far as the pin and UART drivers. *)
Definition hw_board_init : M clk unit := HAL_Init ;;; clk_init ;;; rt_hw_systick_init.

(** The registers after a reset (RM0090, 7.3) and the variables as they are initialised. *)
Definition reset (ps : list poll) : clk :=
  Clk (Cregs 0x83 0x24003010 0 0 0x0E000000 0 0x4000 0) 16000000 0 None ps.

(** The state the start-up leaves: the PLL on the crystal, 168 MHz, APB1 a quarter and APB2
    half of it, five wait states, and the SysTick running. *)
Definition board_clocks (ps : list poll) : clk :=
  Clk (Cregs 0x03030083 0x04405408 0x0000940A 0 0x0E000000 0x10000000 0x4000 0x705)
      168000000 0 (Some 167999) ps.

(** *** [rt_hw_us_delay], over the values [SysTick->VAL] is read to have *)

Definition us_delta (start now reload : Z) : Z :=
  u32 (if now <? start then start - now else reload + start - now).

Fixpoint us_delay_loop (start reload target : Z) (vals : list Z) : outcome (unit * list Z) :=
  match vals with
  | [] => Fault StillWaiting
  | now :: vals =>
      if us_delta start now reload <? target then us_delay_loop start reload target vals
      else Ok (tt, vals)
  end.

Definition rt_hw_us_delay (core_clock reload us : Z) (vals : list Z) : outcome (unit * list Z) :=
  match vals with
  | [] => Fault StillWaiting
  | start :: vals =>
      let us_tick := core_clock / 1000000 in
      us_delay_loop start reload (u32 (us_tick * us)) vals
  end.

(** ** The waits *)

(** The number of polls at which the hardware has settled. *)
Definition settling (ps : list poll) : nat := length (List.filter settles ps).

(** While the SysTick is stopped a wait never times out: it ends at the first poll at which
    the hardware settles, or not at all. *)
Lemma wait_loop_stopped rdy t0 timeout ps s :
  0 <= timeout -> systick s = None -> uwTick s = t0 ->
  rdy s = false -> rdy (settle s) = true -> uwTick (settle s) = uwTick s ->
  (settling ps = 0%nat /\ wait_loop rdy t0 timeout ps s = Fault StillWaiting) \/
  (exists ps', settling ps = S (settling ps') /\
    wait_loop rdy t0 timeout ps s = Ok (true, set_polls ps' (settle s))).
Proof.
  intros Ht Hs Hu Hr Hr' Hk. induction ps as [|[e b] ps IH]; cbn [wait_loop].
  { rewrite Hr. by left. }
  unfold settling, environment in *. cbn [settles elapsed List.filter]. rewrite Hr, Hs.
  assert ((timeout <? u32 (uwTick s - t0)) = false) as Hq.
  { rewrite Hu, Z.sub_diag. change (u32 0) with 0. by apply Z.ltb_ge. }
  destruct b.
  - rewrite Hk, Hq. right. exists ps. split; [done|]. destruct ps; cbn [wait_loop]; by rewrite Hr'.
  - by rewrite Hq.
Qed.

(** [wpf P m s Q]: [m] run from [s] ends with [Q], or stops with a fault in [P]. *)
Definition wpf {A : Type} (P : fault -> Prop) (m : M clk A) (s : clk) (Q : A -> clk -> Prop) : Prop :=
  match m s with Ok (a, s') => Q a s' | Fault f => P f end.

Section Wpf.
Context {A B : Type} (P : fault -> Prop).

Lemma wpf_bind (m : M clk A) (k : A -> M clk B) s (Q : B -> clk -> Prop) :
  wpf P m s (fun a s' => wpf P (k a) s' Q) -> wpf P (bind m k) s Q.
Proof. unfold wpf, bind. by destruct (m s) as [[a s']|f]. Qed.
Lemma wpf_modify f (s s1 : clk) (Q : unit -> clk -> Prop) : f s = s1 -> Q tt s1 -> wpf P (modify f) s Q.
Proof. intros <-. exact id. Qed.
Lemma wpf_gets (f : clk -> A) (s : clk) a (Q : A -> clk -> Prop) : f s = a -> Q a s -> wpf P (gets f) s Q.
Proof. intros <-. exact id. Qed.
Lemma wpf_if (c b : bool) (m k : M clk A) s Q : c = b -> wpf P (if b then m else k) s Q -> wpf P (if c then m else k) s Q.
Proof. intros ->. exact id. Qed.

Lemma wpf_outcome (m : M clk A) s (Q : A -> clk -> Prop) :
  wpf P m s Q -> (exists a s', m s = Ok (a, s') /\ Q a s') \/ (exists f, m s = Fault f /\ P f).
Proof. unfold wpf. destruct (m s) as [[a s']|f]; eauto. Qed.

Lemma wpf_ready rdy timeout s (Q : Z -> clk -> Prop) :
  rdy s = true -> Q HAL_OK (set_polls (polls s) s) -> wpf P (await rdy timeout) s Q.
Proof.
  intros Hr HQ. unfold wpf, await, bind, wait.
  destruct (polls s) as [|p ps] eqn:Ep; cbn [wait_loop]; rewrite Hr; exact HQ.
Qed.

Lemma wpf_settles rdy timeout s s1 (Q : Z -> clk -> Prop) :
  0 <= timeout -> systick s = None -> rdy s = false -> settle s = s1 -> rdy s1 = true -> uwTick s1 = uwTick s ->
  (settling (polls s) = 0%nat -> P StillWaiting) ->
  (forall ps', settling (polls s) = S (settling ps') -> Q HAL_OK (set_polls ps' s1)) ->
  wpf P (await rdy timeout) s Q.
Proof.
  intros Ht Hs Hr <- Hr' Hk H0 HS. unfold wpf, await, bind, wait.
  destruct (wait_loop_stopped rdy (uwTick s) timeout (polls s) s) as [[Hn ->]|(ps' & Hn & ->)];
    [done..|by apply H0|by apply HS].
Qed.
End Wpf.

(** [clk_walk] runs a configuration on registers that are known: it keeps the state
    evaluated, decides every test of the code, and stops at the waits. *)
Ltac clk_step :=
  match goal with
  | |- wpf _ (if ?c then _ else _) _ _ =>
      let b := eval vm_compute in c in apply (wpf_if _ c b); [vm_compute; reflexivity|cbv iota]
  | |- wpf _ (when ?c _) _ _ => unfold when
  | |- wpf _ (modify ?f) ?s _ =>
      let s1 := eval vm_compute in (f s) in apply (wpf_modify _ f s s1); [vm_compute; reflexivity|]
  | |- wpf _ (gets ?f) ?s _ =>
      let a := eval vm_compute in (f s) in apply (wpf_gets _ f s a); [vm_compute; reflexivity|]
  | |- wpf _ (bind _ _) _ _ => apply wpf_bind
  | |- wpf _ (and_then _ _) _ _ => apply wpf_bind
  | |- wpf _ get ?s ?Q => change (Q s s); cbv beta
  | |- wpf _ (ret ?a) ?s ?Q => change (Q a s); cbv beta
  end.
Ltac clk_walk := repeat (first [clk_step | progress cbv beta zeta iota]).
Ltac clk_wait ps H :=
  match goal with
  | |- wpf _ (await ?rdy ?t) ?s _ =>
      let s1 := eval vm_compute in (settle s) in
      apply (wpf_settles _ rdy t s s1);
        [done|reflexivity|vm_compute; reflexivity|vm_compute; reflexivity|vm_compute; reflexivity|reflexivity
        |intros H; cbn [clk_regs SystemCoreClock uwTick systick polls reset] in H; cbv beta; split; [reflexivity|lia]
        |intros ps H; unfold set_polls; cbn [clk_regs SystemCoreClock uwTick systick polls reset] in * ]
  end.

(** The start-up from reset: it ends when the hardware settles three times (the crystal,
    the PLL, the clock switch); short of that it waits for ever. *)
Lemma hw_board_init_cases ps :
  wpf (fun f => f = StillWaiting /\ (settling ps < 3)%nat) hw_board_init (reset ps)
    (fun _ s' => exists ps', s' = board_clocks ps' /\ settling ps = (3 + settling ps')%nat).
Proof.
  unfold hw_board_init, HAL_Init, HAL_InitTick, clk_init, SystemClock_Config. clk_walk.
  unfold HAL_RCC_OscConfig. clk_walk. unfold osc_HSE. clk_walk. clk_wait ps1 H1.
  clk_walk. unfold osc_PLL. clk_walk. apply wpf_ready; [reflexivity|]. clk_walk.
  clk_wait ps2 H2. clk_walk. unfold HAL_RCC_ClockConfig. clk_walk.
  unfold program_latency. clk_walk. unfold clock_HCLK. clk_walk. unfold clock_SYSCLK. clk_walk.
  clk_wait ps3 H3. clk_walk. unfold HAL_RCC_GetSysClockFreq, HAL_InitTick. clk_walk.
  unfold rt_hw_systick_init, HAL_SYSTICK_Config. clk_walk. exists ps3. split; [reflexivity|lia].
Qed.

Lemma board_frequencies ps :
  HAL_RCC_GetHCLKFreq (board_clocks ps) = 168000000 /\
  HAL_RCC_GetPCLK1Freq (board_clocks ps) = 42000000 /\
  HAL_RCC_GetPCLK2Freq (board_clocks ps) = 84000000.
Proof. by vm_compute. Qed.

(** C23. The clock tree after the start-up: from reset, whatever the delays of the hardware, if
    the crystal, the PLL and the clock switch settle then [hw_board_init] returns with the
    core at 168 MHz, APB1 at 42 MHz, APB2 at 84 MHz and the SysTick interrupting exactly
    1000 times a second; if they do not it never returns: the time-outs of the HAL never
    expire and [Error_Handler] is not reached, because the tick they count only starts
    after them. *)
Theorem clock_start_up ps :
  ((3 <= settling ps)%nat -> exists s', hw_board_init (reset ps) = Ok (tt, s') /\
    HAL_RCC_GetHCLKFreq s' = 168000000 /\ HAL_RCC_GetPCLK1Freq s' = 42000000 /\
    HAL_RCC_GetPCLK2Freq s' = 84000000 /\ FLASH_GET_LATENCY s' = FLASH_LATENCY_5 /\
    exists load, systick s' = Some load /\ (load + 1) * RT_TICK_PER_SECOND = HAL_RCC_GetHCLKFreq s') /\
  ((settling ps < 3)%nat -> hw_board_init (reset ps) = Fault StillWaiting).
Proof.
  destruct (wpf_outcome _ _ _ _ (hw_board_init_cases ps)) as [([] & s' & E & H)|(f & E & H)]; rewrite E.
  - destruct H as (ps' & -> & Hn). split; [|lia]. intros _. exists (board_clocks ps').
    destruct (board_frequencies ps') as (-> & -> & ->).
    split_and!; try done. by exists 167999.
  - destruct H as [-> Hn]. split; [lia|done].
Qed.

Lemma clock_start_up_witness :
  (exists s', hw_board_init (reset [Poll 5 false; Poll 3 true; Poll 0 true; Poll 1 true]) = Ok (tt, s') /\
    HAL_RCC_GetPCLK1Freq s' = 42000000) /\
  hw_board_init (reset (replicate 40 (Poll 1000 false))) = Fault StillWaiting.
Proof.
  pose proof (clock_start_up [Poll 5 false; Poll 3 true; Poll 0 true; Poll 1 true]) as [H1 _].
  pose proof (clock_start_up (replicate 40 (Poll 1000 false))) as [_ H2].
  destruct H1 as (s' & E & _ & H & _); [apply Nat.leb_le; reflexivity|].
  split; [exact (ex_intro _ s' (conj E H))|]. apply H2. apply Nat.ltb_lt. reflexivity.
Defined.

(** *** The microsecond delay *)

(** What [SysTick->VAL] reads a number of cycles after it was [start]. *)
Definition val_after (start reload c : Z) : Z := (start - c) mod (reload + 1).

Lemma us_delta_after start reload c :
  0 <= start <= reload -> reload < 2 ^ 24 -> 0 < c <= reload ->
  c - 1 <= us_delta start (val_after start reload c) reload <= c.
Proof.
  intros Hs Hl Hc. unfold us_delta, val_after.
  destruct (Z.le_gt_cases c start) as [H|H].
  - rewrite (Z.mod_small (start - c)) by lia. destruct (Z.ltb_spec (start - c) start); [|lia].
    rewrite wrap_small; lia.
  - replace ((start - c) mod (reload + 1)) with (start - c + (reload + 1)).
    2:{ apply (Z.mod_unique _ _ (-1)); lia. }
    destruct (Z.ltb_spec (start - c + (reload + 1)) start); [lia|].
    rewrite wrap_small; lia.
Qed.

Lemma us_delta_le start now reload :
  0 <= start <= reload -> reload < 2 ^ 24 -> 0 <= now <= reload -> us_delta start now reload <= reload.
Proof.
  intros Hs Hl Hn. unfold us_delta. destruct (Z.ltb_spec now start); rewrite wrap_small; lia.
Qed.

Lemma us_delay_loop_waits start reload target vals rest :
  Forall (fun now => us_delta start now reload < target) vals ->
  us_delay_loop start reload target (vals ++ rest) = us_delay_loop start reload target rest.
Proof.
  induction 1 as [|now vals H _ IH]; [done|]. cbn [app us_delay_loop].
  by rewrite (proj2 (Z.ltb_lt _ _) H).
Qed.

(** C22. A delay of less than a millisecond on the running board: it never ends at a reading of
    the counter taken before its deadline, and ends at the first one later than it (within
    the same period of the counter), whatever the phase of the counter when it starts. *)
Theorem us_delay_ends us start pre c post ps :
  0 < us < 1000 -> 0 <= start <= 167999 ->
  Forall (fun c => 0 < c < 168 * us) pre -> 168 * us < c <= 167999 ->
  rt_hw_us_delay (SystemCoreClock (board_clocks ps)) 167999 us
    (start :: (val_after start 167999 <$> pre ++ c :: post))
  = Ok (tt, val_after start 167999 <$> post).
Proof.
  intros Hu Hs Hp Hc. unfold rt_hw_us_delay. cbn [SystemCoreClock board_clocks].
  change (168000000 / 1000000) with 168. rewrite (wrap_small 32 (168 * us)) by lia.
  rewrite fmap_app, us_delay_loop_waits.
  - cbn [fmap list_fmap us_delay_loop].
    pose proof (us_delta_after start 167999 c). destruct (Z.ltb_spec (us_delta start (val_after start 167999 c) 167999) (168 * us)); [lia|done].
  - apply Forall_fmap. eapply Forall_impl; [exact Hp|]. intros c' Hc'. cbv beta in Hc'. unfold compose.
    pose proof (us_delta_after start 167999 c' Hs ltac:(lia) ltac:(lia)). lia.
Qed.

(** 50 us, started just before the counter wraps. *)
Lemma us_delay_ends_witness :
  rt_hw_us_delay 168000000 167999 50 (100 :: (val_after 100 167999 <$> [4000; 8399] ++ 8401 :: [9000]))
  = Ok (tt, val_after 100 167999 <$> [9000]).
Proof.
  apply (us_delay_ends 50 100 [4000; 8399] 8401 [9000] []); [lia|lia| |lia].
  repeat constructor; lia.
Defined.

(** A delay of a millisecond or more never ends: the distance the loop computes between
    two readings cannot reach a whole period of the counter. *)
Theorem us_delay_never_ends us vals ps :
  1000 <= us < 25565282 -> Forall (fun now => 0 <= now <= 167999) vals ->
  rt_hw_us_delay (SystemCoreClock (board_clocks ps)) 167999 us vals = Fault StillWaiting.
Proof.
  intros Hu Hv. destruct Hv as [|start vals Hs Hv]; [done|]. unfold rt_hw_us_delay.
  cbn [SystemCoreClock board_clocks]. change (168000000 / 1000000) with 168.
  rewrite (wrap_small 32 (168 * us)) by lia.
  rewrite <- (app_nil_r vals), us_delay_loop_waits; [done|].
  eapply Forall_impl; [exact Hv|]. intros now Hn. cbv beta in Hn |- *.
  pose proof (us_delta_le start now 167999). lia.
Qed.

Lemma us_delay_never_ends_witness :
  rt_hw_us_delay 168000000 167999 1000 (7 :: replicate 300 8) = Fault StillWaiting.
Proof.
  apply (us_delay_never_ends 1000 (7 :: replicate 300 8) []); [lia|].
  constructor; [lia|]. apply Forall_replicate. lia.
Defined.
