(* ===== verification/CFloat.v ===== *)
(** * C floating point

    The two places where the firmware computes with floating point (the time-out of a
    hardware timer, in [float], and the servo pulse, in [double]) are modelled with the
    IEEE-754 operations of the standard library's [SpecFloat]: every operation of the C
    code is one rounded operation, in the type C computes it in. *)

From stdpp Require Import base numbers.
From Stdlib Require Import ZArith Floats.SpecFloat.
From S2P Require Import Prelude.

(** An IEEE binary format: [float] and [double] of the target. *)
Record format : Set := Format { prec : Z; emax : Z }.
Definition binary32 : format := Format 24 128.
Definition binary64 : format := Format 53 1024.

Section Ops.
Variable f : format.

(** Conversion of an integer, rounded to nearest. *)
Definition of_Z (z : Z) : spec_float := binary_normalize (prec f) (emax f) z 0 false.

(** The value [n / d] rounded to nearest: a decimal literal of the source. *)
Definition literal (n d : Z) : spec_float := SFdiv (prec f) (emax f) (of_Z n) (of_Z d).

Definition fadd : spec_float -> spec_float -> spec_float := SFadd (prec f) (emax f).
Definition fsub : spec_float -> spec_float -> spec_float := SFsub (prec f) (emax f).
Definition fmul : spec_float -> spec_float -> spec_float := SFmul (prec f) (emax f).
Definition fdiv : spec_float -> spec_float -> spec_float := SFdiv (prec f) (emax f).
End Ops.

(** Truncation to an integer: [None] for an infinity or a NaN. *)
Definition trunc (x : spec_float) : option Z :=
  match x with
  | S754_zero _ => Some 0
  | S754_finite s m e =>
      let v := if 0 <=? e then Zpos m * 2 ^ e else Zpos m / 2 ^ (- e) in
      Some (if s then - v else v)
  | S754_infinity _ | S754_nan => None
  end.

(** Conversion to an unsigned [w]-bit integer: undefined when the truncated value does
    not fit. *)
Definition to_unsigned (w : Z) (x : spec_float) : option Z :=
  match trunc x with
  | Some v => if (0 <=? v) && (v <? 2 ^ w) then Some v else None
  | None => None
  end.

(** Conversion to a signed [w]-bit integer. *)
Definition to_signed (w : Z) (x : spec_float) : option Z :=
  match trunc x with
  | Some v => if (- 2 ^ (w - 1) <=? v) && (v <? 2 ^ (w - 1)) then Some v else None
  | None => None
  end.

Lemma to_unsigned_range (w : Z) (x : spec_float) (v : Z) :
  to_unsigned w x = Some v -> 0 <= v < 2 ^ w.
Proof.
  unfold to_unsigned. destruct (trunc x) as [u|]; [|discriminate].
  destruct (_ && _) eqn:E; [|discriminate]. intros [= <-]. lia.
Qed.

(** ** Rounding never makes a NaN *)

Lemma shr_1_nonneg mrs : 0 <= shr_m mrs -> 0 <= shr_m (shr_1 mrs).
Proof. destruct mrs as [[|[p|p|]|[p|p|]] r s]; cbn; lia. Qed.

Lemma shr_nonneg mrs e n : 0 <= shr_m mrs -> 0 <= shr_m (shr mrs e n).1.
Proof.
  intros H. unfold shr. destruct n as [|p|p]; [done| |done]. cbn.
  assert (forall q r, 0 <= shr_m r -> 0 <= shr_m (iter_pos shr_1 q r)) as Hi; [|by apply Hi].
  clear. induction q as [q IH|q IH|]; intros r Hr; cbn.
  - by apply IH, IH, shr_1_nonneg.
  - by apply IH, IH.
  - by apply shr_1_nonneg.
Qed.

Lemma shr_fexp_nonneg p x m e l : 0 <= m -> 0 <= shr_m (shr_fexp p x m e l).1.
Proof. intros Hm. unfold shr_fexp. apply shr_nonneg. by destruct l as [|[]]. Qed.

Lemma round_nearest_even_nonneg m l : 0 <= m -> 0 <= round_nearest_even m l.
Proof. intros Hm. destruct l as [|[]]; cbn; try lia. case_match; lia. Qed.

Lemma binary_round_aux_not_nan p x s m e l : 0 <= m -> binary_round_aux p x s m e l <> S754_nan.
Proof.
  intros Hm. unfold binary_round_aux.
  pose proof (shr_fexp_nonneg p x m e l Hm) as H1. destruct (shr_fexp p x m e l) as [r1 e1]. cbn in H1.
  pose proof (shr_fexp_nonneg p x _ e1 loc_Exact (round_nearest_even_nonneg (shr_m r1) (loc_of_shr_record r1) H1)) as H2.
  destruct (shr_fexp p x (round_nearest_even _ _) e1 loc_Exact) as [r2 e2]. cbn in H2.
  destruct (shr_m r2); [done| |lia]. by case_match.
Qed.

Lemma binary_normalize_not_nan p x m e s : binary_normalize p x m e s <> S754_nan.
Proof.
  destruct m as [|m|m]; cbn; [done|..]; unfold binary_round; destruct (shl_align _ _ _); by apply binary_round_aux_not_nan.
Qed.

Lemma SFdiv_finite_not_nan p x s1 m1 e1 s2 m2 e2 :
  SFdiv p x (S754_finite s1 m1 e1) (S754_finite s2 m2 e2) <> S754_nan.
Proof.
  cbn. destruct (SFdiv_core_binary _ _ _ _ _ _) as [[q e] l] eqn:E. apply binary_round_aux_not_nan.
  revert E. unfold SFdiv_core_binary. set (m' := match _ with Zpos _ => _ | _ => _ end).
  assert (0 <= m') as Hm'. { unfold m'. case_match; [lia| |lia]. apply Z.shiftl_nonneg. lia. }
  pose proof (Z_div_mod m' (Zpos m2) ltac:(lia)) as Hdiv. destruct (Z.div_eucl m' (Zpos m2)) as [q0 r].
  intros [= <- _ _]. nia.
Qed.
