(* ===== verification/Tim.v ===== *)
(** * General-purpose timer peripherals

    The registers of TIM3 and TIM4 and the functions of the STM32 HAL
    ([libraries/STM32F4xx_HAL_Driver/Src/stm32f4xx_hal_tim.c]) through which the timer
    and PWM drivers use them. The counter itself is the environment: [counter_overflow] is
    what the hardware does when it reaches the auto-reload value. *)

From stdpp Require Import base numbers list.
From Stdlib Require Import ZArith.
From S2P Require Import Prelude.

(** ** Registers *)

Inductive reg : Set :=
  | CR1 | CR2 | SMCR | DIER | SR | CCMR1 | CCMR2 | CCER | CNT | PSC | ARR | CCR1 | CCR2 | CCR3 | CCR4.

#[export] Instance reg_eq_dec : EqDecision reg.
Proof. solve_decision. Defined.

(** The register file: every register is 16 bits wide on these timers. *)
Definition tim : Type := reg -> Z.

Definition wr (r : reg) (v : Z) (t : tim) : tim := fun r' => if decide (r' = r) then u16 v else t r'.

Lemma wr_eq (r : reg) (v : Z) (t : tim) : wr r v t r = u16 v.
Proof. unfold wr. by rewrite decide_True. Qed.
Lemma wr_ne (r r' : reg) (v : Z) (t : tim) : r' <> r -> wr r v t r' = t r'.
Proof. intros Hr. unfold wr. by rewrite decide_False. Qed.

(** Bit numbers. *)
Definition CR1_CEN : Z := 0.
Definition CR1_URS : Z := 2.
Definition CR1_OPM : Z := 3.
Definition DIER_UIE : Z := 0.
Definition SR_UIF : Z := 0.

Definition set_bit (r : reg) (n : Z) (t : tim) : tim := wr r (Z.lor (t r) (2 ^ n)) t.
Definition clear_bit (r : reg) (n : Z) (t : tim) : tim := wr r (Z.ldiff (t r) (2 ^ n)) t.

(** Writing [UG] to EGR: the counter restarts; the update flag is raised unless only the
    counter's own overflow may ([URS]). *)
Definition generate_update (t : tim) : tim :=
  let t := wr CNT 0 t in
  if Z.testbit (t CR1) CR1_URS then t else set_bit SR SR_UIF t.

(** The counter reaches ARR. *)
Definition counter_overflow (t : tim) : tim :=
  if Z.testbit (t CR1) CR1_CEN then
    let t := set_bit SR SR_UIF (wr CNT 0 t) in
    if Z.testbit (t CR1) CR1_OPM then clear_bit CR1 CR1_CEN t else t
  else t.

(** ** HAL *)

(** [Structure->CounterMode], [ClockDivision] and [AutoReloadPreload] are bits of CR1. *)
Definition TIM_COUNTERMODE_UP : Z := 0.
Definition TIM_COUNTERMODE_DOWN : Z := 0x0010.
Definition TIM_CLOCKDIVISION_DIV1 : Z := 0.
Definition TIM_CLOCKDIVISION_DIV2 : Z := 0x0100.
Definition TIM_CLOCKDIVISION_DIV4 : Z := 0x0200.
Definition TIM_CR1_DIR_CMS : Z := 0x0070.
Definition TIM_CR1_CKD : Z := 0x0300.
Definition TIM_CR1_ARPE : Z := 0x0080.

Record base_init : Set := Base_init {
  Period : Z; Prescaler : Z; CounterMode : Z; ClockDivision : Z; AutoReloadPreload : Z
}.

Definition TIM_Base_SetConfig (s : base_init) (t : tim) : tim :=
  let tmpcr1 := t CR1 in
  let tmpcr1 := Z.lor (Z.ldiff tmpcr1 TIM_CR1_DIR_CMS) (CounterMode s) in
  let tmpcr1 := Z.lor (Z.ldiff tmpcr1 TIM_CR1_CKD) (ClockDivision s) in
  let tmpcr1 := Z.lor (Z.ldiff tmpcr1 TIM_CR1_ARPE) (AutoReloadPreload s) in
  generate_update (wr PSC (Prescaler s) (wr ARR (Period s) (wr CR1 tmpcr1 t))).

(** On a handle that is not NULL. *)
Definition HAL_TIM_Base_Init (s : base_init) (t : tim) : Z * tim := (HAL_OK, TIM_Base_SetConfig s t).
Definition HAL_TIM_PWM_Init (s : base_init) (t : tim) : Z * tim := (HAL_OK, TIM_Base_SetConfig s t).

(** [__HAL_TIM_ENABLE], except in trigger mode, where the trigger does it. *)
Definition TIM_SMCR_SMS : Z := 0x0007.
Definition TIM_SLAVEMODE_TRIGGER : Z := 0x0006.
Definition enable_unless_triggered (t : tim) : tim :=
  let tmpsmcr := Z.land (t SMCR) TIM_SMCR_SMS in
  if negb (tmpsmcr =? TIM_SLAVEMODE_TRIGGER) then set_bit CR1 CR1_CEN t else t.

Definition HAL_TIM_Base_Start_IT (t : tim) : Z * tim :=
  (HAL_OK, enable_unless_triggered (set_bit DIER DIER_UIE t)).

(** [__HAL_TIM_DISABLE]: the counter stops only when no output channel is enabled. *)
Definition TIM_CCER_CCxE_MASK : Z := 0x1111.
Definition TIM_CCER_CCxNE_MASK : Z := 0x0444.
Definition HAL_TIM_DISABLE (t : tim) : tim :=
  if (Z.land (t CCER) TIM_CCER_CCxE_MASK =? 0) && (Z.land (t CCER) TIM_CCER_CCxNE_MASK =? 0)
  then clear_bit CR1 CR1_CEN t else t.

Definition HAL_TIM_Base_Stop_IT (t : tim) : Z * tim :=
  (HAL_OK, HAL_TIM_DISABLE (clear_bit DIER DIER_UIE t)).

Definition TIM_CCx_ENABLE : Z := 1.
Definition TIM_CCx_DISABLE : Z := 0.
Definition TIM_CCxChannelCmd (Channel ChannelState : Z) (t : tim) : tim :=
  let tmp := Z.shiftl 1 (Z.land Channel 0x1F) in
  let t := wr CCER (Z.ldiff (t CCER) tmp) t in
  wr CCER (Z.lor (t CCER) (Z.shiftl ChannelState (Z.land Channel 0x1F))) t.

(** TIM3 and TIM4 have no break stage. *)
Definition HAL_TIM_PWM_Start (Channel : Z) (t : tim) : tim :=
  enable_unless_triggered (TIM_CCxChannelCmd Channel TIM_CCx_ENABLE t).
Definition HAL_TIM_PWM_Stop (Channel : Z) (t : tim) : tim :=
  HAL_TIM_DISABLE (TIM_CCxChannelCmd Channel TIM_CCx_DISABLE t).

(** *** Configuration of a PWM output *)

(** [HAL_TIM_ConfigClockSource] for the internal clock: no slave mode, no external trigger
    ([SMS], [TS], [ETF], [ETPS], [ECE], [ETP]). *)
Definition HAL_TIM_ConfigClockSource (t : tim) : Z * tim :=
  let tmpsmcr := Z.ldiff (t SMCR) (Z.lor TIM_SMCR_SMS 0x0070) in
  let tmpsmcr := Z.ldiff tmpsmcr (Z.lor 0x0F00 (Z.lor 0x3000 (Z.lor 0x4000 0x8000))) in
  (HAL_OK, wr SMCR tmpsmcr t).

Definition TIM_CR2_MMS : Z := 0x0070.
Definition TIM_SMCR_MSM : Z := 0x0080.
Definition HAL_TIMEx_MasterConfigSynchronization (MasterOutputTrigger MasterSlaveMode : Z) (t : tim)
    : Z * tim :=
  let tmpcr2 := Z.lor (Z.ldiff (t CR2) TIM_CR2_MMS) MasterOutputTrigger in
  let tmpsmcr := Z.lor (Z.ldiff (t SMCR) TIM_SMCR_MSM) MasterSlaveMode in
  (HAL_OK, wr SMCR tmpsmcr (wr CR2 tmpcr2 t)).

(** The fields of [TIM_OC_InitTypeDef] a timer without a break stage uses. *)
Record oc_init : Set := Oc_init { OCMode : Z; Pulse : Z; OCPolarity : Z; OCFastMode : Z }.

Definition TIM_CCMR_OCM : Z := 0x0070.
Definition TIM_CCMR_CCS : Z := 0x0003.
Definition TIM_CCMR_OCPE : Z := 0x0008.
Definition TIM_CCMR_OCFE : Z := 0x0004.

(** The four functions [TIM_OCn_SetConfig] do the same at other places of the registers:
    [m] is the position of the channel in its CCMR register, [e] in CCER. *)
Definition OC_SetConfig (ccmr ccr : reg) (m e : Z) (c : oc_init) (t : tim) : tim :=
  let t := wr CCER (Z.ldiff (t CCER) (Z.shiftl 1 e)) t in
  let tmpccer := t CCER in
  let tmpcr2 := t CR2 in
  let tmpccmrx := t ccmr in
  let tmpccmrx := Z.ldiff tmpccmrx (Z.shiftl TIM_CCMR_OCM m) in
  let tmpccmrx := Z.ldiff tmpccmrx (Z.shiftl TIM_CCMR_CCS m) in
  let tmpccmrx := Z.lor tmpccmrx (Z.shiftl (OCMode c) m) in
  let tmpccer := Z.ldiff tmpccer (Z.shiftl 2 e) in
  let tmpccer := Z.lor tmpccer (Z.shiftl (OCPolarity c) e) in
  wr CCER tmpccer (wr ccr (Pulse c) (wr ccmr tmpccmrx (wr CR2 tmpcr2 t))).

Definition TIM_OC1_SetConfig : oc_init -> tim -> tim := OC_SetConfig CCMR1 CCR1 0 0.
Definition TIM_OC2_SetConfig : oc_init -> tim -> tim := OC_SetConfig CCMR1 CCR2 8 4.
Definition TIM_OC3_SetConfig : oc_init -> tim -> tim := OC_SetConfig CCMR2 CCR3 0 8.
Definition TIM_OC4_SetConfig : oc_init -> tim -> tim := OC_SetConfig CCMR2 CCR4 8 12.

(** The preload and fast mode bits of the channel. *)
Definition oc_preload_fast (ccmr : reg) (m : Z) (c : oc_init) (t : tim) : tim :=
  let t := wr ccmr (Z.lor (t ccmr) (Z.shiftl TIM_CCMR_OCPE m)) t in
  let t := wr ccmr (Z.ldiff (t ccmr) (Z.shiftl TIM_CCMR_OCFE m)) t in
  wr ccmr (Z.lor (t ccmr) (Z.shiftl (OCFastMode c) m)) t.

Definition HAL_TIM_PWM_ConfigChannel (c : oc_init) (Channel : Z) (t : tim) : Z * tim :=
  (HAL_OK,
   if Channel =? 0x0 then oc_preload_fast CCMR1 0 c (TIM_OC1_SetConfig c t)
   else if Channel =? 0x4 then oc_preload_fast CCMR1 8 c (TIM_OC2_SetConfig c t)
   else if Channel =? 0x8 then oc_preload_fast CCMR2 0 c (TIM_OC3_SetConfig c t)
   else if Channel =? 0xC then oc_preload_fast CCMR2 8 c (TIM_OC4_SetConfig c t)
   else t).

Definition HAL_TIM_GenerateEvent : tim -> tim := generate_update.

(** [__HAL_TIM_SET_COMPARE]/[__HAL_TIM_GET_COMPARE]: any other channel number is the
    fourth. *)
Definition ccr (Channel : Z) : reg :=
  if Channel =? 0 then CCR1 else if Channel =? 4 then CCR2 else if Channel =? 8 then CCR3 else CCR4.

(** [HAL_TIM_IRQHandler]: the flags are served in this order, each when it is raised and
    its interrupt enabled; the result is the list of the callbacks called, by bit number.
    Only the update callback (bit 0) is not empty in the firmware. *)
Definition tim_irq_order : list Z := [1; 2; 3; 4; 0; 7; 6; 5].

Fixpoint serve_flags (flags : list Z) (t : tim) : list Z * tim :=
  match flags with
  | [] => ([], t)
  | n :: flags =>
      if Z.testbit (t SR) n && Z.testbit (t DIER) n then
        let '(cbs, t) := serve_flags flags (clear_bit SR n t) in (n :: cbs, t)
      else serve_flags flags t
  end.

Definition HAL_TIM_IRQHandler : tim -> list Z * tim := serve_flags tim_irq_order.

(** ** Registers as bit sets *)

Lemma u16_testbit (v n : Z) : 0 <= n < 16 -> Z.testbit (u16 v) n = Z.testbit v n.
Proof. intros Hn. unfold wrap. apply Z.mod_pow2_bits_low. lia. Qed.

Lemma set_bit_same (r : reg) (n k : Z) (t : tim) :
  0 <= n < 16 -> 0 <= k < 16 ->
  Z.testbit (set_bit r n t r) k = if k =? n then true else Z.testbit (t r) k.
Proof. intros Hn Hk. unfold set_bit. by rewrite wr_eq, u16_testbit, testbit_set by lia. Qed.
Lemma clear_bit_same (r : reg) (n k : Z) (t : tim) :
  0 <= n < 16 -> 0 <= k < 16 ->
  Z.testbit (clear_bit r n t r) k = if k =? n then false else Z.testbit (t r) k.
Proof. intros Hn Hk. unfold clear_bit. by rewrite wr_eq, u16_testbit, testbit_clear by lia. Qed.
Lemma set_bit_ne (r r' : reg) (n : Z) (t : tim) : r' <> r -> set_bit r n t r' = t r'.
Proof. apply wr_ne. Qed.
Lemma clear_bit_ne (r r' : reg) (n : Z) (t : tim) : r' <> r -> clear_bit r n t r' = t r'.
Proof. apply wr_ne. Qed.

(** [tim_simp] computes reads of a register file after writes. *)
Ltac tim_simp :=
  repeat match goal with
  | |- context [Z.testbit (set_bit ?r ?n ?t ?r) ?k] => rewrite (set_bit_same r n k t) by done
  | |- context [Z.testbit (clear_bit ?r ?n ?t ?r) ?k] => rewrite (clear_bit_same r n k t) by done
  | |- context [set_bit ?r ?n ?t ?r'] => rewrite (set_bit_ne r r' n t) by done
  | |- context [clear_bit ?r ?n ?t ?r'] => rewrite (clear_bit_ne r r' n t) by done
  | |- context [wr ?r ?v ?t ?r] => rewrite (wr_eq r v t)
  | |- context [wr ?r ?v ?t ?r'] => rewrite (wr_ne r r' v t) by done
  end.

Lemma generate_update_ne (t : tim) r : r <> CNT -> r <> SR -> generate_update t r = t r.
Proof.
  intros H1 H2. unfold generate_update. case_match; [by apply wr_ne|].
  rewrite set_bit_ne by done. by apply wr_ne.
Qed.

Lemma enable_free (t : tim) : t SMCR = 0 -> enable_unless_triggered t = set_bit CR1 CR1_CEN t.
Proof. intros H. unfold enable_unless_triggered. by rewrite H. Qed.

(** Equalities of masked 16-bit registers, bit by bit. *)
Lemma land_mask_ext (a b m : Z) :
  0 <= m < 2 ^ 16 -> 0 <= b < 2 ^ 16 ->
  (forall n, 0 <= n < 16 -> Z.testbit a n && Z.testbit m n = Z.testbit b n) -> Z.land a m = b.
Proof.
  intros Hm Hb H. apply Z.bits_inj'. intros n Hn. rewrite Z.land_spec.
  destruct (Z.lt_ge_cases n 16) as [Hl|Hl]; [by apply H|].
  assert (forall v, 0 <= v < 2 ^ 16 -> Z.testbit v n = false) as Hz.
  { intros v Hv. destruct (Z.eq_dec v 0) as [->|]; [by rewrite Z.bits_0|].
    apply Z.bits_above_log2; [lia|]. apply Z.log2_lt_pow2; [lia|].
    apply (Z.lt_le_trans _ (2 ^ 16)); [lia|]. apply Z.pow_le_mono_r; lia. }
  rewrite (Hz m), (Hz b) by done. apply andb_false_r.
Qed.

(** Sixteen cases in place of a quantifier over bit positions. *)
Lemma each_bit_16 (P : Z -> Prop) : Forall P (seqZ 0 16) -> forall n, 0 <= n < 16 -> P n.
Proof. intros H n Hn. rewrite Forall_forall in H. apply H, elem_of_seqZ. lia. Qed.

Ltac const_bits :=
  repeat match goal with
  | |- context [Z.testbit ?c ?n] =>
      let v := eval vm_compute in (Z.testbit c n) in
      lazymatch v with true => idtac | false => idtac end; change (Z.testbit c n) with v
  end.
Ltac one_bit :=
  repeat (rewrite ?u16_testbit, ?Z.lor_spec, ?Z.ldiff_spec by done); const_bits;
  repeat match goal with |- context [Z.testbit ?v ?k] => destruct (Z.testbit v k) end; reflexivity.
Ltac reg_bits :=
  apply land_mask_ext; [done|done|];
  refine (each_bit_16 _ _); let l := eval vm_compute in (seqZ 0 16) in change (seqZ 0 16) with l;
  repeat (apply Forall_cons; split; [cbv beta; one_bit|]); apply Forall_nil; exact I.
