(* ===== verification/HwTimer.v ===== *)
(** * Hardware timer devices

    Models [rt-thread/components/drivers/hwtimer/hwtimer.c], the device class of the
    hardware timers (section [Framework_hwtimer], over a driver's operations as a record
    of function pointers), and [drivers/drv_hwtimer.c], the STM32 driver of one timer
    (section [Stm32]). The composition is an instance of the device framework's
    [DeviceDriver] and [DriverOk]. The theorems: the driver meets the open/close
    protocol, a started periodic timer calls its callback on exactly every [reload]-th
    overflow, and a closed timer never calls one. *)

From stdpp Require Import base numbers list.
From Stdlib Require Import ZArith Lia Floats.SpecFloat.
From S2P Require Import Prelude Rcc Device CFloat Tim.

Definition HWTIMER_CTRL_FREQ_SET : Z := 1.
Definition HWTIMER_CTRL_STOP : Z := 2.
Definition HWTIMER_CTRL_INFO_GET : Z := 3.
Definition HWTIMER_CTRL_MODE_SET : Z := 4.
Definition HWTIMER_MODE_ONESHOT : Z := 1.
Definition HWTIMER_MODE_PERIOD : Z := 2.
Definition HWTIMER_CNTMODE_UP : Z := 1.
Definition HWTIMER_CNTMODE_DW : Z := 2.

Record rt_hwtimer_info : Set := Hwtimer_info {
  maxfreq : Z; minfreq : Z; maxcnt : Z; cntmode : Z
}.

Record rt_hwtimerval : Set := Hwtimerval { sec : Z; usec : Z }.
Definition sizeof_hwtimerval : Z := 8.

(** ** The time-out computation *)

Section TimeoutCalc.
Variables (freq maxcnt : Z) (tv : rt_hwtimerval).

#[local] Abbreviation fl := (of_Z binary32).
Definition tc_overflow : spec_float := fdiv binary32 (fl maxcnt) (fl freq).
Definition tc_sec : spec_float :=
  fadd binary32 (fl (sec tv)) (fdiv binary32 (fl (usec tv)) (fl 1000000)).

(** The loop [for (i = 1; i > 0; i ++)] from [i] on, with the best deviation so far and
    the [i] that had it. [None]: the fuel is used up, or a conversion C does not define. *)
Fixpoint tc_search (fuel : nat) (i : Z) (devi_min : spec_float) (index : Z) : option (Z * spec_float) :=
  match fuel with
  | O => None
  | S fuel =>
      let timeout := fdiv binary32 tc_sec (fl i) in
      if SFleb timeout tc_overflow then
        match to_unsigned 32 (fmul binary32 timeout (fl freq)) with
        | None => None
        | Some counter =>
            let devi := fsub binary32 tc_sec
              (fmul binary32 (fdiv binary32 (fl counter) (fl freq)) (fl i)) in
            if SFltb devi_min devi then Some (index, fdiv binary32 tc_sec (fl index))
            else if SFeqb devi (fl 0) then Some (i, timeout)
            else if SFltb devi devi_min then tc_search fuel (i + 1) devi i
            else tc_search fuel (i + 1) devi_min index
        end
      else tc_search fuel (i + 1) devi_min index
  end.

(** The counter value, the number of overflows per time-out and the period. *)
Definition timeout_calc (fuel : nat) : option (Z * Z * spec_float) :=
  let found :=
    if SFltb tc_sec (fdiv binary32 (fl 1) (fl freq)) then Some (0, fdiv binary32 (fl 1) (fl freq))
    else tc_search fuel 1 (fl 1) 0 in
  match found with
  | None => None
  | Some (i, timeout) =>
      match to_unsigned 32 (fmul binary32 timeout (fl freq)) with
      | None => None
      | Some counter => Some (counter, i, timeout)
      end
  end.
End TimeoutCalc.

(** Far more turns than the longest search of the values the firmware asks for. *)
Definition calc_fuel : nat := 256.

(** ** State *)

Section State.
Context {CB : Type}.

Record hwtimer : Type := Hwtimer {
  tdev : rt_device CB;       (* parent *)
  freq : Z;
  overflow : Z;
  period_sec : spec_float;
  cycles : Z;
  reload : Z;
  mode : Z;
  regs : tim;                (* the peripheral behind user_data *)
  irq_enabled : bool;        (* its line in the NVIC *)
  info_buf : option rt_hwtimer_info;  (* what HWTIMER_CTRL_INFO_GET filled in *)
  thread_errno : Z
}.

Definition set_tdev (d : rt_device CB) (t : hwtimer) : hwtimer :=
  Hwtimer d (freq t) (overflow t) (period_sec t) (cycles t) (reload t) (mode t) (regs t)
    (irq_enabled t) (info_buf t) (thread_errno t).
Definition set_freq (v : Z) (t : hwtimer) : hwtimer :=
  Hwtimer (tdev t) v (overflow t) (period_sec t) (cycles t) (reload t) (mode t) (regs t)
    (irq_enabled t) (info_buf t) (thread_errno t).
Definition set_overflow (v : Z) (t : hwtimer) : hwtimer :=
  Hwtimer (tdev t) (freq t) v (period_sec t) (cycles t) (reload t) (mode t) (regs t)
    (irq_enabled t) (info_buf t) (thread_errno t).
Definition set_cycles (v : Z) (t : hwtimer) : hwtimer :=
  Hwtimer (tdev t) (freq t) (overflow t) (period_sec t) v (reload t) (mode t) (regs t)
    (irq_enabled t) (info_buf t) (thread_errno t).
Definition set_period (cyc rel : Z) (p : spec_float) (t : hwtimer) : hwtimer :=
  Hwtimer (tdev t) (freq t) (overflow t) p cyc rel (mode t) (regs t)
    (irq_enabled t) (info_buf t) (thread_errno t).
Definition set_mode (v : Z) (t : hwtimer) : hwtimer :=
  Hwtimer (tdev t) (freq t) (overflow t) (period_sec t) (cycles t) (reload t) v (regs t)
    (irq_enabled t) (info_buf t) (thread_errno t).
Definition set_regs (f : tim -> tim) (t : hwtimer) : hwtimer :=
  Hwtimer (tdev t) (freq t) (overflow t) (period_sec t) (cycles t) (reload t) (mode t) (f (regs t))
    (irq_enabled t) (info_buf t) (thread_errno t).
Definition set_irq_enabled (b : bool) (t : hwtimer) : hwtimer :=
  Hwtimer (tdev t) (freq t) (overflow t) (period_sec t) (cycles t) (reload t) (mode t) (regs t)
    b (info_buf t) (thread_errno t).
Definition set_info_buf (i : rt_hwtimer_info) (t : hwtimer) : hwtimer :=
  Hwtimer (tdev t) (freq t) (overflow t) (period_sec t) (cycles t) (reload t) (mode t) (regs t)
    (irq_enabled t) (Some i) (thread_errno t).
Definition set_thread_errno (e : Z) (t : hwtimer) : hwtimer :=
  Hwtimer (tdev t) (freq t) (overflow t) (period_sec t) (cycles t) (reload t) (mode t) (regs t)
    (irq_enabled t) (info_buf t) e.

#[export, refine] Instance hwtimer_parent : Lens hwtimer (rt_device CB) :=
  {| view := tdev; over := set_tdev |}.
Proof. all: intros; try destruct s; reflexivity. Defined.

(** [struct rt_hwtimer_ops]: a function the driver leaves NULL is [None]. *)
Record rt_hwtimer_ops : Type := Hwtimer_ops {
  op_init : option (Z -> M hwtimer unit);
  op_start : option (Z -> Z -> M hwtimer rt_err_t);
  op_stop : option (M hwtimer unit);
  op_count_get : option (M hwtimer Z);
  op_control : option (Z -> option Z -> M hwtimer rt_err_t)
}.
End State.
Arguments hwtimer CB : clear implicits.
Arguments rt_hwtimer_ops CB : clear implicits.

(** ** hwtimer.c

    [ops] and [info] are the driver's. A command's argument is what the caller's pointer
    points to, [None] for NULL. *)

Section Framework_hwtimer.
Context {CB : Type}.
Variable ops : rt_hwtimer_ops CB.
Variable info : rt_hwtimer_info.

Definition opt_call {A : Type} (f : option (M (hwtimer CB) unit)) (yes no : A) : M (hwtimer CB) A :=
  match f with Some m => m ;;; ret yes | None => ret no end.

Definition rt_hwtimer_init : M (hwtimer CB) rt_err_t :=
  modify (set_freq (if (1000000 <=? maxfreq info) && (minfreq info <=? 1000000)
                    then 1000000 else minfreq info)) ;;;
  modify (set_mode HWTIMER_MODE_ONESHOT) ;;;
  modify (set_cycles 0) ;;;
  modify (set_overflow 0) ;;;
  match op_init ops with
  | Some init => init 1 ;;; ret RT_EOK
  | None => ret (- RT_ENOSYS)
  end.

(** The result of the driver's [control] is dropped. *)
Definition rt_hwtimer_open (oflag : Z) : M (hwtimer CB) rt_err_t :=
  match op_control ops with
  | Some control =>
      f <- gets freq ;;
      control HWTIMER_CTRL_FREQ_SET (Some f) ;;;
      ret RT_EOK
  | None => ret (- RT_ENOSYS)
  end.

Definition rt_hwtimer_close : M (hwtimer CB) rt_err_t :=
  result <- match op_init ops with
            | Some init => init 0 ;;; ret RT_EOK
            | None => ret (- RT_ENOSYS)
            end ;;
  modify (fun t => set_tdev (set_flag (Z.ldiff (flag (tdev t)) RT_DEVICE_FLAG_ACTIVATED) (tdev t)) t) ;;;
  modify (fun t => set_tdev (set_rx_indicate None (tdev t)) t) ;;;
  ret result.

(** [rt_memcpy] of the time value: the 8 bytes of two little-endian words. *)
Definition le32 (v : Z) : list Z :=
  (fun i => Z.land (Z.shiftr (u32 v) (8 * i)) 0xff) <$> [0; 1; 2; 3].
Definition hwtimerval_bytes (tv : rt_hwtimerval) : list Z := le32 (sec tv) ++ le32 (usec tv).

Definition lift_conv {A : Type} (o : option A) : M (hwtimer CB) A :=
  match o with Some a => ret a | None => raise BadConversion end.

Definition rt_hwtimer_read (pos size : Z) : M (hwtimer CB) (Z * list Z) :=
  match op_count_get ops with
  | None => ret (0, [])
  | Some count_get =>
      cnt <- count_get ;;
      t <- get ;;
      let fl := of_Z binary32 in
      cnt <- (if cntmode info =? HWTIMER_CNTMODE_DW then
                lift_conv (to_unsigned 32
                  (fsub binary32 (fmul binary32 (fl (freq t)) (period_sec t)) (fl cnt)))
              else ret cnt) ;;
      let tf := fadd binary32 (fmul binary32 (fl (overflow t)) (period_sec t))
                  (fdiv binary32 (fl cnt) (fl (freq t))) in
      s <- lift_conv (to_signed 32 tf) ;;
      us <- lift_conv (to_signed 32 (fmul binary32 (fsub binary32 tf (fl s)) (fl 1000000))) ;;
      let size := if sizeof_hwtimerval <? size then sizeof_hwtimerval else size in
      ret (size, take (Z.to_nat size) (hwtimerval_bytes (Hwtimerval s us)))
  end.

Definition rt_hwtimer_write (pos : Z) (buffer : rt_hwtimerval) (size : Z) : M (hwtimer CB) Z :=
  match op_start ops, op_stop ops with
  | Some start, Some stop =>
      if negb (size =? sizeof_hwtimerval) then ret 0
      else
        stop ;;;
        modify (set_overflow 0) ;;;
        f <- gets freq ;;
        r <- lift_conv (timeout_calc f (maxcnt info) buffer calc_fuel) ;;
        let '(t, cyc, period) := r in
        modify (set_period cyc cyc period) ;;;
        m <- gets mode ;;
        let opm := if (cyc <=? 1) && (m =? HWTIMER_MODE_ONESHOT)
                   then HWTIMER_MODE_ONESHOT else HWTIMER_MODE_PERIOD in
        e <- start t opm ;;
        ret (if negb (e =? RT_EOK) then 0 else size)
  | _, _ => ret 0
  end.

Definition rt_hwtimer_control (cmd : Z) (args : option Z) : M (hwtimer CB) rt_err_t :=
  if cmd =? HWTIMER_CTRL_STOP then opt_call (op_stop ops) RT_EOK (- RT_ENOSYS)
  else if cmd =? HWTIMER_CTRL_FREQ_SET then
    match args with
    | None => ret (- RT_EEMPTY)
    | Some f =>
        if (u32 (maxfreq info) <? u32 f) || (u32 f <? u32 (minfreq info)) then ret (- RT_ERROR)
        else match op_control ops with
             | Some control =>
                 result <- control cmd args ;;
                 when (result =? RT_EOK) (modify (set_freq (i32 f))) ;;;
                 ret result
             | None => ret (- RT_ENOSYS)
             end
    end
  else if cmd =? HWTIMER_CTRL_INFO_GET then
    match args with
    | None => ret (- RT_EEMPTY)
    | Some _ => modify (set_info_buf info) ;;; ret RT_EOK
    end
  else if cmd =? HWTIMER_CTRL_MODE_SET then
    match args with
    | None => ret (- RT_EEMPTY)
    | Some m =>
        if negb (m =? HWTIMER_MODE_ONESHOT) && negb (m =? HWTIMER_MODE_PERIOD)
        then ret (- RT_ERROR)
        else modify (set_mode m) ;;; ret RT_EOK
    end
  else ret (- RT_ENOSYS).

(** The callback, when one is due, is the result: the interrupt handler then calls it. *)
Definition rt_device_hwtimer_isr : M (hwtimer CB) (option CB) :=
  modify (fun t => set_overflow (i32 (overflow t + 1)) t) ;;;
  c <- gets cycles ;;
  when (negb (c =? 0)) (modify (set_cycles (c - 1))) ;;;
  c <- gets cycles ;;
  if c =? 0 then
    modify (fun t => set_cycles (reload t) t) ;;;
    m <- gets mode ;;
    when (m =? HWTIMER_MODE_ONESHOT) (opt_call (op_stop ops) tt tt) ;;;
    gets (fun t => rx_indicate (tdev t))
  else ret None.

#[export] Instance hwtimer_driver : DeviceDriver (hwtimer CB) CB (option Z) rt_hwtimerval (list Z) :=
  {| parent := hwtimer_parent;
     set_errno := fun e => modify (set_thread_errno e);
     device_init := Some rt_hwtimer_init;
     device_open := Some rt_hwtimer_open;
     device_close := Some rt_hwtimer_close;
     device_read := Some rt_hwtimer_read;
     device_write := Some rt_hwtimer_write;
     device_control := Some rt_hwtimer_control |}.

(** Both callbacks are cleared, then the device is registered. *)
Definition rt_device_hwtimer_register (object : Z) (name : list Z) (t : hwtimer CB)
    : M object_list (rt_err_t * hwtimer CB) :=
  r <- rt_device_register (Some object) name
         (Z.lor RT_DEVICE_FLAG_RDWR RT_DEVICE_FLAG_STANDALONE) (set_tx_complete None (set_rx_indicate None (tdev t))) ;;
  ret (r.1, set_tdev r.2 t).
End Framework_hwtimer.

(** ** drv_hwtimer.c *)

Definition TIM_DEV_INFO_CONFIG : rt_hwtimer_info := Hwtimer_info 1000000 3000 0xFFFF HWTIMER_CNTMODE_UP.

Section Stm32.
Context {CB : Type}.

Definition timer_init (state : Z) : M (hwtimer CB) unit :=
  if negb (state =? 0) then
    let prescaler_value := u32 (HAL_RCC_GetPCLK1Freq (board_clocks []) * 2) / 10000 - 1 in
    let init := Base_init (10000 - 1) prescaler_value
      (if cntmode TIM_DEV_INFO_CONFIG =? HWTIMER_CNTMODE_UP then TIM_COUNTERMODE_UP
       else TIM_COUNTERMODE_DOWN) TIM_CLOCKDIVISION_DIV1 0 in
    t <- gets regs ;;
    let '(r, t) := HAL_TIM_Base_Init init t in
    modify (set_regs (fun _ => t)) ;;;
    if negb (r =? HAL_OK) then ret tt
    else
      modify (set_irq_enabled true) ;;;
      modify (set_regs (clear_bit SR SR_UIF)) ;;;
      modify (set_regs (set_bit CR1 CR1_URS))
  else ret tt.

Definition timer_start (t opmode : Z) : M (hwtimer CB) rt_err_t :=
  modify (set_regs (wr CNT 0)) ;;;
  modify (set_regs (wr ARR (u32 (t - 1)))) ;;;
  modify (set_regs (if opmode =? HWTIMER_MODE_ONESHOT then set_bit CR1 CR1_OPM
                    else clear_bit CR1 CR1_OPM)) ;;;
  r <- gets regs ;;
  let '(hal, r) := HAL_TIM_Base_Start_IT r in
  modify (set_regs (fun _ => r)) ;;;
  ret (if negb (hal =? HAL_OK) then - RT_ERROR else RT_EOK).

Definition timer_stop : M (hwtimer CB) unit :=
  modify (set_regs (fun t => (HAL_TIM_Base_Stop_IT t).2)) ;;;
  modify (set_regs (wr CNT 0)).

(** A zero frequency divides by zero. *)
Definition timer_ctrl (cmd : Z) (arg : option Z) : M (hwtimer CB) rt_err_t :=
  match arg with
  | None => raise AssertFailed
  | Some f =>
      if cmd =? HWTIMER_CTRL_FREQ_SET then
        let freq := u32 f in
        if freq =? 0 then raise BadConversion
        else
          let val := u16 (u32 (HAL_RCC_GetPCLK1Freq (board_clocks []) * 2) / freq) in
          modify (set_regs (wr PSC (val - 1))) ;;;
          modify (set_regs generate_update) ;;;
          ret RT_EOK
      else ret (- RT_ENOSYS)
  end.

Definition timer_counter_get : M (hwtimer CB) Z := gets (fun t => regs t CNT).

Definition _ops : rt_hwtimer_ops CB :=
  Hwtimer_ops (Some timer_init) (Some timer_start) (Some timer_stop)
    (Some timer_counter_get) (Some timer_ctrl).

#[export] Instance stm32_hwtimer : DeviceDriver (hwtimer CB) CB (option Z) rt_hwtimerval (list Z) :=
  hwtimer_driver _ops TIM_DEV_INFO_CONFIG.

(** [HAL_TIM_PeriodElapsedCallback] of this timer. *)
Definition HAL_TIM_PeriodElapsedCallback : M (hwtimer CB) (option CB) := rt_device_hwtimer_isr _ops.

(** The interrupt line is served when it is enabled and the flag pending. *)
Definition TIM3_IRQHandler : M (hwtimer CB) (option CB) :=
  t <- gets regs ;;
  let '(cbs, t) := HAL_TIM_IRQHandler t in
  modify (set_regs (fun _ => t)) ;;;
  if bool_decide (0 ∈ cbs) then HAL_TIM_PeriodElapsedCallback else ret None.

(** What the hardware does when the counter reaches its limit: raise the flag, and
    interrupt if the line is enabled and the update interrupt asked for. *)
Definition timer_overflow_event : M (hwtimer CB) (option CB) :=
  modify (set_regs counter_overflow) ;;;
  b <- gets (fun t => irq_enabled t && Z.testbit (regs t SR) SR_UIF && Z.testbit (regs t DIER) DIER_UIE) ;;
  if b then TIM3_IRQHandler else ret None.
End Stm32.

Arguments timer_init : simpl never.
Arguments timer_start : simpl never.
Arguments timer_stop : simpl never.
Arguments timer_ctrl : simpl never.

(** ** The driver meets the framework's contract *)

Section Stm32Ok.
Context {CB : Type}.
Implicit Types t : hwtimer CB.

(** Only the update interrupt is ever enabled, and the timer is no trigger's slave. *)
Definition only_update t : Prop := (regs t DIER = 0 \/ regs t DIER = 1) /\ regs t SMCR = 0.

(** Two register files agree on the registers [only_update] reads. *)
Definition same_mode (r r' : tim) : Prop := r' DIER = r DIER /\ r' SMCR = r SMCR.

Lemma TIM_Base_SetConfig_mode c (r : tim) : same_mode r (TIM_Base_SetConfig c r).
Proof. unfold TIM_Base_SetConfig, same_mode. rewrite !generate_update_ne by done. by tim_simp. Qed.

Lemma same_mode_update t t' : same_mode (regs t) (regs t') -> only_update t -> only_update t'.
Proof. unfold same_mode, only_update. by intros [-> ->]. Qed.

Lemma timer_init_spec t :
  wp (timer_init 1) t (fun _ t' => tdev t' = tdev t /\ freq t' = freq t /\
    irq_enabled t' = true /\ same_mode (regs t) (regs t')).
Proof.
  unfold timer_init. cbn [negb Z.eqb HAL_TIM_Base_Init HAL_OK]. wp_auto. cbn.
  unfold same_mode. tim_simp. by rewrite !(proj1 (TIM_Base_SetConfig_mode _ _)), !(proj2 (TIM_Base_SetConfig_mode _ _)).
Qed.

Lemma timer_ctrl_spec cmd f t :
  u32 f <> 0 ->
  wp (timer_ctrl cmd (Some f)) t (fun _ t' => tdev t' = tdev t /\ freq t' = freq t /\
    irq_enabled t' = irq_enabled t /\ same_mode (regs t) (regs t')).
Proof.
  intros Hf. unfold timer_ctrl. destruct (_ =? _); [|by wp_steps].
  rewrite (proj2 (Z.eqb_neq _ _)) by done. wp_steps. cbn. unfold same_mode.
  rewrite !generate_update_ne by done. by tim_simp.
Qed.

#[export, refine] Instance stm32_hwtimer_ok : DriverOk (hwtimer CB) CB (option Z) rt_hwtimerval (list Z) :=
  {| drv_inv := only_update;
     drv_ready := fun t => freq t = 1000000 /\ irq_enabled t = true |}.
Proof.
  - done.
  - done.
  - intros init t [= <-] Hi. unfold rt_hwtimer_init. wp_steps. cbn [op_init _ops]. wp_steps.
    eapply wp_mono; [apply timer_init_spec|]. intros _ t' (Hd & Hf & Hirq & Hdier). wp_steps.
    apply (same_mode_update _ _ Hdier) in Hi. cbn in *. rewrite Hd, Hf, Hirq. by split_and!.
  - done.
  - intros open oflag t [= <-] Hi [Hr Hirq]. unfold rt_hwtimer_open. cbn [op_control _ops]. wp_steps.
    eapply wp_mono; [apply timer_ctrl_spec; by rewrite Hr|].
    intros _ t' (Hd & Hf & Hirq' & Hdier). wp_steps.
    apply (same_mode_update _ _ Hdier) in Hi. cbn in *. rewrite Hd, Hf, Hirq'. by split_and!.
  - intros close t [= <-] Hi. unfold rt_hwtimer_close. cbn [op_init _ops].
    unfold timer_init. cbn [negb Z.eqb]. wp_steps. cbn.
    split_and!; try done.
    + cbn [tdev set_tdev flag set_rx_indicate set_flag]. rewrite !has_standalone, Z.ldiff_spec.
      apply andb_true_r.
    + cbn [tdev set_tdev flag set_rx_indicate set_flag]. rewrite !has_activated, Z.ldiff_spec.
      by intros [? _]%andb_true_iff.
Defined.
End Stm32Ok.

(** ** Interrupts *)

Section Interrupts.
Context {CB : Type}.
Implicit Types t : hwtimer CB.

Fixpoint overflow_events (n : nat) : M (hwtimer CB) (list CB) :=
  match n with
  | O => ret []
  | S n =>
      o <- timer_overflow_event ;;
      os <- overflow_events n ;;
      ret (match o with Some cb => cb :: os | None => os end)
  end.

(** What an interrupt leaves alone: the device structure, the frequency, the enabled line,
    and the mode of the timer. *)
Definition frame t t' : Prop :=
  tdev t' = tdev t /\ freq t' = freq t /\ irq_enabled t' = irq_enabled t /\
  (only_update t -> only_update t').

Lemma frame_trans t1 t2 t3 : frame t1 t2 -> frame t2 t3 -> frame t1 t3.
Proof. unfold frame. intros (? & ? & ? & ?) (? & ? & ? & ?). split_and!; [congruence..|auto]. Qed.

Lemma frame_stands_for p t t' : frame t t' -> stands_for p t -> stands_for p t'.
Proof.
  intros (Hd & Hf & Hi & Hu) (Hp & Hv & Hr). unfold stands_for. cbn in *.
  rewrite Hd, Hf, Hi. auto.
Qed.

Lemma timer_stop_frame t : wp timer_stop t (fun _ t' => frame t t').
Proof.
  unfold timer_stop, frame. wp_steps. cbn. split_and!; try done. unfold only_update. cbn.
  rewrite !wr_ne by done. unfold HAL_TIM_DISABLE. destruct (_ && _); tim_simp;
    unfold clear_bit; rewrite wr_eq; intros [[-> | ->] ?]; (split; [by left|done]).
Qed.

Lemma set_regs_frame f t : same_mode (regs t) (f (regs t)) -> frame t (set_regs f t).
Proof. intros Hf. split_and!; [done..|]. by apply same_mode_update. Qed.

(** An interrupt can only call the callback the device has. *)
Lemma isr_frame t :
  wp (rt_device_hwtimer_isr _ops) t (fun o t' =>
    frame t t' /\ (o = None \/ o = rx_indicate (tdev t))).
Proof.
  unfold rt_device_hwtimer_isr, opt_call, _ops. cbn [op_stop].
  wp_auto; cbn; try (split; [done|by auto]);
    (eapply wp_mono; [apply timer_stop_frame|]; intros ? t' Hf; wp_steps; split; [exact Hf|];
     right; by rewrite (proj1 Hf)).
Qed.

Lemma serve_flags_mode l (r : tim) : same_mode r (serve_flags l r).2.
Proof.
  revert r. induction l as [|n l IH]; intros r; cbn; [done|]. destruct (_ && _); [|apply IH].
  specialize (IH (clear_bit SR n r)). destruct (serve_flags l _). unfold same_mode in *. cbn in *.
  destruct IH as [-> ->]. by tim_simp.
Qed.

Lemma counter_overflow_mode (r : tim) : same_mode r (counter_overflow r).
Proof. unfold counter_overflow, same_mode. repeat case_match; by tim_simp. Qed.

Lemma overflow_event_frame t :
  wp timer_overflow_event t (fun o t' =>
    frame t t' /\ (o = None \/ o = rx_indicate (tdev t))).
Proof.
  unfold timer_overflow_event, TIM3_IRQHandler, HAL_TIM_PeriodElapsedCallback. wp_steps.
  pose proof (set_regs_frame counter_overflow t (counter_overflow_mode _)) as F1.
  set (t1 := set_regs counter_overflow t) in *. wp_split; [|wp_steps; auto]. wp_steps.
  pose proof (serve_flags_mode tim_irq_order (regs t1)) as F2.
  fold (HAL_TIM_IRQHandler (regs t1)) in F2. destruct (HAL_TIM_IRQHandler (regs t1)) as [cbs r].
  wp_steps. pose proof (frame_trans _ _ _ F1 (set_regs_frame (fun _ => r) t1 F2)) as F3.
  destruct (bool_decide _); [|wp_steps; auto].
  eapply wp_mono; [apply isr_frame|]. cbn. intros o t' [F4 Ho].
  split; [by eapply frame_trans|done].
Qed.

Lemma overflow_events_silent n t :
  rx_indicate (tdev t) = None ->
  wp (overflow_events n) t (fun os t' => os = [] /\ tdev t' = tdev t).
Proof.
  revert t. induction n as [|n IH]; intros t Hrx; cbn; [by apply wp_ret|].
  wp_steps. eapply wp_mono; [apply overflow_event_frame|]. cbn beta. intros o t' [[Hd _] Ho].
  wp_steps. eapply wp_mono; [apply IH; congruence|]. cbn beta. intros os t2 [-> Hd2].
  wp_steps. destruct Ho as [->| ->]; rewrite ?Hrx; split; congruence.
Qed.

(** *** A started timer *)

(** The peripheral counts and interrupts on its overflow only. *)
Definition counting t : Prop :=
  irq_enabled t = true /\ Z.testbit (regs t CR1) CR1_CEN = true /\
  Z.testbit (regs t CR1) CR1_OPM = false /\ regs t DIER = 1.

Definition periodic (r c : Z) (cb : CB) t : Prop :=
  counting t /\ mode t = HWTIMER_MODE_PERIOD /\ reload t = r /\ cycles t = c /\
  rx_indicate (tdev t) = Some cb.

Lemma serve_flags_off flags (r : tim) :
  r DIER = 1 -> Forall (fun n => 0 < n) flags -> serve_flags flags r = ([], r).
Proof.
  intros Hd. induction 1 as [|n flags Hn _ IH]; cbn; [done|].
  replace (Z.testbit (r DIER) n) with false; [by rewrite andb_false_r|].
  rewrite Hd. symmetry. apply Z.bits_above_log2; cbn; lia.
Qed.

Lemma serve_flags_app l1 l2 (r : tim) :
  serve_flags (l1 ++ l2) r =
  let '(a, r1) := serve_flags l1 r in let '(b, r2) := serve_flags l2 r1 in (a ++ b, r2).
Proof.
  revert r. induction l1 as [|n l1 IH]; intros r; cbn.
  - by destruct (serve_flags l2 r).
  - destruct (_ && _).
    + rewrite IH. destruct (serve_flags l1 _) as [a r1], (serve_flags l2 r1). done.
    + rewrite IH. done.
Qed.

Lemma irq_handler_update (r : tim) :
  r DIER = 1 -> Z.testbit (r SR) SR_UIF = true ->
  HAL_TIM_IRQHandler r = ([0], clear_bit SR SR_UIF r).
Proof.
  intros Hd Hu. unfold HAL_TIM_IRQHandler, tim_irq_order.
  change [1; 2; 3; 4; 0; 7; 6; 5] with ([1; 2; 3; 4] ++ [0] ++ [7; 6; 5]).
  assert (serve_flags [0] r = ([0], clear_bit SR SR_UIF r)) as E.
  { cbn [serve_flags]. change 0 with SR_UIF. rewrite Hu, Hd. reflexivity. }
  rewrite serve_flags_app, (serve_flags_off [1; 2; 3; 4]) by (first [done|repeat constructor; lia]).
  rewrite serve_flags_app, E, serve_flags_off;
    [done|by rewrite clear_bit_ne|repeat constructor; lia].
Qed.

Lemma TIM3_IRQHandler_eq t :
  regs t DIER = 1 -> Z.testbit (regs t SR) SR_UIF = true ->
  TIM3_IRQHandler t =
  rt_device_hwtimer_isr _ops (set_regs (fun _ => clear_bit SR SR_UIF (regs t)) t).
Proof.
  intros Hd Hu. unfold TIM3_IRQHandler, bind, gets. by rewrite irq_handler_update.
Qed.

Lemma isr_periodic r c cb t :
  periodic r c cb t -> 1 <= c ->
  exists t', rt_device_hwtimer_isr _ops t = Ok (if c =? 1 then Some cb else None, t') /\
    periodic r (if c =? 1 then r else c - 1) cb t'.
Proof.
  intros (Hk & Hm & Hr & Hc & Hcb) H1.
  unfold rt_device_hwtimer_isr, bind, modify, gets, when, ret. cbn -[Z.eqb].
  rewrite Hc. replace (c =? 0) with false by lia. cbn -[Z.eqb].
  replace (c - 1 =? 0) with (c =? 1) by lia.
  destruct (c =? 1); cbn -[Z.eqb]; [rewrite Hm; cbn; rewrite Hcb|]; eexists; (split; [reflexivity|]);
    unfold periodic; cbn; by rewrite ?Hr.
Qed.

(** One overflow of a running periodic timer. *)
Lemma overflow_event_periodic r c cb t :
  periodic r c cb t -> 1 <= c ->
  exists t', timer_overflow_event t = Ok (if c =? 1 then Some cb else None, t') /\
    periodic r (if c =? 1 then r else c - 1) cb t'.
Proof.
  intros [(Hirq & Hcen & Hopm & Hd) Hp] H1.
  assert (counter_overflow (regs t) = set_bit SR SR_UIF (wr CNT 0 (regs t))) as E.
  { unfold counter_overflow. rewrite Hcen, set_bit_ne, wr_ne by done. by rewrite Hopm. }
  unfold timer_overflow_event, bind, modify, gets. cbn [irq_enabled set_regs regs].
  rewrite E, Hirq, (set_bit_same SR 0 0), (set_bit_ne SR DIER), (wr_ne CNT DIER), Hd by done.
  cbn [negb andb Z.eqb Z.testbit].
  rewrite TIM3_IRQHandler_eq; cbn [regs set_regs]; rewrite ?E;
    [|by rewrite set_bit_ne, wr_ne|by rewrite set_bit_same].
  apply isr_periodic; [|done]. split; [|exact Hp].
  unfold counting. cbn [irq_enabled regs set_regs].
  rewrite ?clear_bit_ne, ?set_bit_ne, ?wr_ne by done. by split_and!.
Qed.

Lemma overflow_events_periodic n r c cb t :
  periodic r c cb t -> 1 <= c <= r ->
  exists t', overflow_events n t =
    Ok (replicate (Z.to_nat ((Z.of_nat n + (r - c)) / r)) cb, t').
Proof.
  revert c t. induction n as [|n IH]; intros c t Hp Hc; cbn [overflow_events].
  { exists t. rewrite Z.div_small by lia. done. }
  destruct (overflow_event_periodic r c cb t Hp) as (t1 & E1 & Hp1); [lia|].
  unfold bind. rewrite E1. destruct (Z.eqb_spec c 1) as [->|Hne].
  - destruct (IH r t1 Hp1) as (t2 & E2); [lia|]. rewrite E2. exists t2. unfold ret.
    replace (Z.of_nat (S n) + (r - 1)) with (Z.of_nat n + (r - r) + 1 * r) by lia.
    rewrite Z.div_add, Z2Nat.inj_add, Nat.add_comm by (try apply Z.div_pos; lia).
    done.
  - destruct (IH (c - 1) t1 Hp1) as (t2 & E2); [lia|]. rewrite E2. exists t2. unfold ret.
    replace (Z.of_nat (S n) + (r - c)) with (Z.of_nat n + (r - (c - 1))) by lia. done.
Qed.
End Interrupts.

(** ** Starting *)

(** The time-outs the firmware's timer calls can ask for lie between 125 ms and 5 s. *)
Definition ms (n : Z) : rt_hwtimerval := Hwtimerval (n / 1000) (n mod 1000 * 1000).

Definition timeout_ok (n : Z) : bool :=
  match timeout_calc 1000000 (maxcnt TIM_DEV_INFO_CONFIG) (ms n) calc_fuel with
  | Some (c, i, _) =>
      (1 <=? i) && (1 <=? c) && (c <=? maxcnt TIM_DEV_INFO_CONFIG)
      && (c * i <=? n * 1000 + 40) && (n * 1000 <=? c * i + 40)
  | None => false
  end.

Lemma timeout_ok_spec n :
  timeout_ok n = true ->
  exists c i p, timeout_calc 1000000 (maxcnt TIM_DEV_INFO_CONFIG) (ms n) calc_fuel = Some (c, i, p) /\
    1 <= i /\ 1 <= c <= maxcnt TIM_DEV_INFO_CONFIG /\ Z.abs (c * i - n * 1000) <= 40.
Proof.
  unfold timeout_ok. destruct (timeout_calc _ _ _ _) as [[[c i] p]|]; [|discriminate].
  rewrite !andb_true_iff, !Z.leb_le. intros ((((? & ?) & ?) & ?) & ?).
  exists c, i, p. split_and!; try lia. done.
Qed.

Lemma timeout_ok_125 : check_range (fun k => timeout_ok (125 * (k + 1))) 40 = true.
Proof. vm_compute. reflexivity. Qed.

Lemma timeout_100ms :
  exists p, timeout_calc 1000000 (maxcnt TIM_DEV_INFO_CONFIG) (ms 100) calc_fuel = Some (50000, 2, p).
Proof. eexists. vm_compute. reflexivity. Qed.

Section Start.
Context {CB : Type}.
Implicit Types t : hwtimer CB.

(** An open device at 1 MHz in periodic mode with a callback. *)
Definition armed (cb : CB) t : Prop :=
  freq t = 1000000 /\ mode t = HWTIMER_MODE_PERIOD /\ irq_enabled t = true /\
  rx_indicate (tdev t) = Some cb /\ only_update t.

Lemma HAL_TIM_DISABLE_ne (t : tim) r : r <> CR1 -> HAL_TIM_DISABLE t r = t r.
Proof. intros Hr. unfold HAL_TIM_DISABLE. destruct (_ && _); [by apply clear_bit_ne|done]. Qed.

Lemma start_counting t c opm :
  irq_enabled t = true -> only_update t -> opm = HWTIMER_MODE_PERIOD ->
  wp (timer_start c opm) t (fun r t' => r = RT_EOK /\ counting t' /\
    regs t' ARR = u16 (u32 (c - 1)) /\ regs t' PSC = regs t PSC /\
    tdev t' = tdev t /\ mode t' = mode t /\ reload t' = reload t /\ cycles t' = cycles t /\
    freq t' = freq t /\ regs t' SMCR = 0).
Proof.
  intros Hi [Hd Hs] ->. unfold timer_start. change (HWTIMER_MODE_PERIOD =? _) with false.
  wp_steps. cbn [HAL_TIM_Base_Start_IT]. wp_steps.
  cbn [regs set_regs irq_enabled tdev mode reload cycles freq].
  rewrite enable_free by (by tim_simp).
  unfold counting. cbn [regs set_regs irq_enabled HAL_OK Z.eqb negb].
  tim_simp. split_and!; try done. unfold set_bit. tim_simp. by destruct Hd as [->| ->].
Qed.

Lemma write_periodic cb t tv c i p :
  armed cb t ->
  timeout_calc 1000000 (maxcnt TIM_DEV_INFO_CONFIG) tv calc_fuel = Some (c, i, p) ->
  wp (rt_hwtimer_write _ops TIM_DEV_INFO_CONFIG 0 tv sizeof_hwtimerval) t (fun r t' =>
    r = sizeof_hwtimerval /\ periodic i i cb t' /\
    regs t' ARR = u16 (u32 (c - 1)) /\ regs t' PSC = regs t PSC /\ tdev t' = tdev t /\
    freq t' = 1000000 /\ regs t' SMCR = 0).
Proof.
  intros (Hf & Hm & Hi & Hcb & Hd) Hc. unfold rt_hwtimer_write. cbn [op_start op_stop _ops].
  change (sizeof_hwtimerval =? sizeof_hwtimerval) with true. cbn [negb].
  unfold timer_stop. wp_steps. cbn [freq set_overflow set_regs]. rewrite Hf, Hc.
  cbn [lift_conv]. wp_steps. cbn [mode set_period set_overflow set_regs]. rewrite Hm.
  change (HWTIMER_MODE_PERIOD =? HWTIMER_MODE_ONESHOT) with false. rewrite andb_false_r.
  eapply wp_mono; [apply start_counting|].
  - done.
  - unfold only_update. cbn. rewrite !wr_ne, !HAL_TIM_DISABLE_ne by done. unfold clear_bit.
    rewrite wr_eq, wr_ne by done. destruct Hd as [[->| ->] Hs]; (split; [by left|done]).
  - done.
  - cbn beta. intros r t' (-> & Hk & Harr & Hpsc & Hdev & Hmode & Hrel & Hcyc & Hfr & Hsm). wp_steps.
    split; [done|]. split; [|split_and!; [done| |done|by rewrite Hfr|exact Hsm]].
    + unfold periodic. rewrite Hmode, Hrel, Hcyc, Hdev. by split_and!.
    + rewrite Hpsc. cbn. rewrite wr_ne, HAL_TIM_DISABLE_ne by done. by apply clear_bit_ne.
Qed.

(** *** Through the device framework *)

Lemma stands_for_tdev p t t' :
  stands_for p t -> flag (tdev t') = flag (tdev t) -> ref_count (tdev t') = ref_count (tdev t) ->
  open_flag (tdev t') = open_flag (tdev t) -> regs t' = regs t -> freq t' = freq t ->
  irq_enabled t' = irq_enabled t -> stands_for p t'.
Proof.
  intros (Hp & Hi & Hr) E1 E2 E3 E4 E5 E6. unfold stands_for, in_phase in *. cbn in *.
  unfold only_update in *. by rewrite E1, E2, E3, E4, E5, E6.
Qed.

Lemma armed_of cb t :
  stands_for Opened t -> mode t = HWTIMER_MODE_PERIOD -> rx_indicate (tdev t) = Some cb -> armed cb t.
Proof.
  intros ([_ (_ & _ & Ha)] & Hi & Hr) Hm Hcb. destruct (Hr Ha) as [Hf Hirq]. by split_and!.
Qed.

Lemma device_write_periodic cb t tv c i p :
  stands_for Opened t -> armed cb t ->
  timeout_calc 1000000 (maxcnt TIM_DEV_INFO_CONFIG) tv calc_fuel = Some (c, i, p) ->
  wp (rt_device_write 0 tv sizeof_hwtimerval) t (fun n t' =>
    n = sizeof_hwtimerval /\ stands_for Opened t' /\ periodic i i cb t' /\
    regs t' ARR = u16 (u32 (c - 1)) /\ regs t' PSC = regs t PSC).
Proof.
  intros Hs Ha Hc. unfold rt_device_write, dev_gets. wp_steps.
  destruct Hs as ([Hst (Hn & Ho & Hact)] & Hi & Hr). rewrite Hn. cbn [Z.eqb device_write].
  eapply wp_mono; [by eapply write_periodic|]. cbn beta.
  intros n t' (-> & Hp & Harr & Hpsc & Hd & Hf & Hsm). split; [done|]. split; [|done].
  destruct Hp as ((Hirq & _ & _ & Hdier) & _).
  unfold stands_for, in_phase. cbn in *. rewrite Hd. unfold only_update. split_and!; try done. by right.
Qed.

(** Closing silences: the callback is gone. *)
Lemma device_close_silent t :
  stands_for Opened t ->
  wp rt_device_close t (fun r t' => stands_for Closed t' /\ rx_indicate (tdev t') = None).
Proof.
  intros Hs. destruct (wp_total _ _ _ (rt_device_close_spec t Opened Hs)) as (r & t' & E & _ & Hc).
  assert (wp rt_device_close t (fun r t' => rx_indicate (tdev t') = None)) as Hrx.
  { destruct Hs as ([_ (Hn & _)] & _). cbn in Hn.
    unfold rt_device_close, dev_gets, dev_modify. wp_steps. cbn. rewrite Hn. cbn [Z.eqb]. wp_steps.
    cbn. rewrite Hn. cbn. unfold rt_hwtimer_close. cbn [op_init _ops]. unfold timer_init. by wp_auto. }
  revert Hrx. unfold wp. rewrite E. auto.
Qed.

(** The clock of the peripheral's prescaler, and opening sets the prescaler to 1 MHz. *)
Definition timer_clock : Z := HAL_RCC_GetPCLK1Freq (board_clocks []) * 2.

Lemma device_open_prescales oflag t :
  stands_for Closed t ->
  wp (rt_device_open oflag) t (fun r t' => r = RT_EOK /\ stands_for Opened t' /\ (regs t' PSC + 1) * 1000000 = timer_clock).
Proof.
  intros Hs. destruct (wp_total _ _ _ (rt_device_open_spec t Closed oflag Hs)) as (r & t' & E & -> & Ho & _).
  assert (wp (rt_device_open oflag) t (fun _ t' => regs t' PSC = 83)) as Hw.
  { unfold rt_device_open. wp_step. eapply wp_mono; [by apply open_activate_ok|]. cbn beta.
    intros r s1 (-> & [Hst [Hn Hop]] & Hact & Hi & Hf & Hirq). change (negb (RT_EOK =? RT_EOK)) with false. cbv iota.
    unfold dev_gets, dev_modify. wp_steps. rewrite Hst, Hop. cbn [andb device_open stm32_hwtimer hwtimer_driver].
    wp_steps. unfold rt_hwtimer_open. cbn [op_control _ops]. wp_steps. rewrite Hf. unfold timer_ctrl.
    cbn [Z.eqb Pos.eqb HWTIMER_CTRL_FREQ_SET]. change (u32 1000000 =? 0) with false. cbv iota. wp_steps.
    change (counts_as_open RT_EOK) with true. cbv iota. wp_steps. apply wp_rt_assert.
    { cbn in Hn |- *. by rewrite Hn. }
    wp_steps.
    change (generate_update (wr PSC (u16 (u32 (HAL_RCC_GetPCLK1Freq (board_clocks []) * 2) / u32 1000000) - 1) (regs s1)) PSC = 83).
    rewrite generate_update_ne by done. tim_simp. vm_compute. reflexivity. }
  unfold wp in *. rewrite E in *. split; [done|]. split; [done|]. rewrite Hw. vm_compute. reflexivity.
Qed.

(** What [my_hwtimer_openTimer] does with the timer, for a period of its own. *)
Definition start_periodic (cb : CB) (tv : rt_hwtimerval) : M (hwtimer CB) Z :=
  rt_device_open RT_DEVICE_OFLAG_RDWR ;;;
  rt_device_set_rx_indicate (Some cb) ;;;
  rt_device_control HWTIMER_CTRL_MODE_SET (Some HWTIMER_MODE_PERIOD) ;;;
  rt_device_write 0 tv sizeof_hwtimerval.

(** C21. The hardware timer's period, and silence once closed: opening the closed device,
    setting a callback and the periodic mode and writing a multiple [k] of 125 ms up to 5 s
    succeeds. The prescaler then divides the timer's clock to 1 MHz, the peripheral counts
    [ARR + 1] of these microseconds per overflow and calls the callback on exactly every
    [i]-th of any number [n] of overflows, where [(ARR + 1) * i] microseconds are within
    40 us of the time asked for; after [rt_device_close] no number of overflows calls it
    again. *)
Theorem hwtimer_period cb t k n :
  stands_for Closed t -> 1 <= k <= 40 ->
  exists t' i,
    start_periodic cb (ms (125 * k)) t = Ok (sizeof_hwtimerval, t') /\
    (regs t' PSC + 1) * 1000000 = timer_clock /\
    1 <= i /\ Z.abs ((regs t' ARR + 1) * i - 125000 * k) <= 40 /\
    (exists t2, overflow_events n t' = Ok (replicate (Z.to_nat (Z.of_nat n / i)) cb, t2)) /\
    wp rt_device_close t' (fun r t3 => stands_for Closed t3 /\
      forall m, wp (overflow_events m) t3 (fun os _ => os = [])).
Proof.
  intros Hs Hk.
  destruct (timeout_ok_spec (125 * k)) as (c & i & p & Hc & Hi & Hcr & Hacc).
  { rewrite <- (check_range_spec _ _ timeout_ok_125 (k - 1)) by lia. f_equal. lia. }
  assert (wp (start_periodic cb (ms (125 * k))) t (fun r t' => r = sizeof_hwtimerval /\ stands_for Opened t' /\
    periodic i i cb t' /\ regs t' ARR = u16 (u32 (c - 1)) /\ (regs t' PSC + 1) * 1000000 = timer_clock)) as Hw.
  { unfold start_periodic. wp_steps. eapply wp_mono; [by apply device_open_prescales|]. cbn beta. intros r t1 (_ & Hs1 & Hpsc).
    unfold rt_device_set_rx_indicate, dev_modify, rt_device_control. wp_steps. cbn [device_control stm32_hwtimer hwtimer_driver].
    unfold rt_hwtimer_control. cbn [Z.eqb Pos.eqb HWTIMER_CTRL_MODE_SET HWTIMER_CTRL_STOP HWTIMER_CTRL_FREQ_SET HWTIMER_CTRL_INFO_GET
      HWTIMER_MODE_PERIOD HWTIMER_MODE_ONESHOT negb andb]. wp_steps.
    set (t2 := set_mode _ _). assert (stands_for Opened t2) as Hs2 by (by apply (stands_for_tdev Opened t1)).
    assert (armed cb t2) as Ha by (by apply armed_of). assert (regs t2 PSC = regs t1 PSC) as Ep by done. clearbody t2.
    eapply wp_mono; [by eapply device_write_periodic|]. cbn beta. intros m t3 (-> & Hs3 & Hp3 & Harr & Hpsc3).
    rewrite Hpsc3, Ep. by split_and!. }
  destruct (wp_total _ _ _ Hw) as (r & t' & E & -> & Hs' & Hp & Harr & Hpsc).
  exists t', i. split; [done|]. split; [done|]. split; [done|]. cbn in Hcr. split.
  { rewrite Harr. unfold wrap. rewrite !Z.mod_small by (rewrite ?Z.mod_small; lia). lia. }
  split.
  { destruct (overflow_events_periodic n i i cb t' Hp) as (t2 & E2); [lia|].
    exists t2. by rewrite E2, Z.sub_diag, Z.add_0_r. }
  eapply wp_mono; [by apply device_close_silent|]. cbn beta. intros r t3 [Hs3 Hrx].
  split; [done|]. intros m. eapply wp_mono; [by apply overflow_events_silent|]. by intros os ? [-> _].
Qed.
End Start.

(** ** Witnesses *)

(** The timer's object as the image holds it, registered but not yet opened. *)
Definition registered_timer (CB : Type) : hwtimer CB :=
  Hwtimer (Rt_device (Z.lor RT_DEVICE_FLAG_RDWR RT_DEVICE_FLAG_STANDALONE) 0 0 None None)
    0 0 (S754_zero false) 0 0 0 (fun _ => 0) false None 0.

Lemma standalone_protocol_witness :
  wp (exec_ops [OpOpen RT_DEVICE_OFLAG_RDWR; OpOpen RT_DEVICE_OFLAG_RDWR; OpClose; OpClose])
    (registered_timer nat)
    (fun rs d => rs = [RT_EOK; - RT_EBUSY; RT_EOK; - RT_ERROR] /\ stands_for Closed d).
Proof.
  eapply wp_mono.
  - apply (standalone_protocol (S := hwtimer nat) (CB := nat) (Arg := option Z)
      (W := rt_hwtimerval) (R := list Z) _ _ Closed).
    split; [split; [reflexivity|split; reflexivity]|].
    split; [split; [left|]; reflexivity|discriminate].
  - intros rs d Hd. exact Hd.
Defined.

(** Half a second, and 1000 overflows of 62.5 ms. *)
Lemma hwtimer_period_witness :
  exists t' i,
    start_periodic 7%nat (ms 500) (registered_timer nat) = Ok (sizeof_hwtimerval, t') /\ regs t' PSC = 83 /\ 1 <= i /\
    exists t2, overflow_events 1000 t' = Ok (replicate (Z.to_nat (1000 / i)) 7%nat, t2).
Proof.
  destruct (hwtimer_period 7%nat (registered_timer nat) 4 1000) as (t' & i & E & Hp & Hi & _ & Hn & _).
  - split; [split; [reflexivity|split; reflexivity]|]. split; [split; [left|]; reflexivity|discriminate].
  - lia.
  - exists t', i. split; [exact E|]. split; [change timer_clock with 84000000 in Hp; lia|]. split; [exact Hi|exact Hn].
Defined.
