(* ===== verification/Pwm.v ===== *)
(** * PWM devices

    Models [rt-thread/components/drivers/misc/rt_drv_pwm.c] (the PWM device class and
    [rt_pwm_enable], [rt_pwm_disable], [rt_pwm_set]) and the control path of
    [drivers/drv_pwm.c], the STM32 driver that turns nanoseconds into timer registers.
    The theorem bounds the error of that conversion: what [drv_pwm_get] reads back after
    [drv_pwm_set] is the configuration asked for, within one prescaled tick. *)

From stdpp Require Import base numbers list.
From Stdlib Require Import ZArith Lia.
From S2P Require Import Prelude Rcc Device Tim.

Definition PWM_CMD_ENABLE : Z := 128 + 0.
Definition PWM_CMD_DISABLE : Z := 128 + 1.
Definition PWM_CMD_SET : Z := 128 + 2.
Definition PWM_CMD_GET : Z := 128 + 3.

Definition MAX_PERIOD : Z := 65535.
Definition MIN_PERIOD : Z := 3.
Definition MIN_PULSE : Z := 2.

Record rt_pwm_configuration : Set := Pwm_configuration {
  channel : Z; period : Z; pulse : Z
}.

Record pwm : Type := Pwm {
  pdev : rt_device unit;
  pwm_regs : tim;
  pwm_errno : Z
}.

Definition set_pdev (d : rt_device unit) (p : pwm) : pwm := Pwm d (pwm_regs p) (pwm_errno p).
Definition set_pwm_regs (f : tim -> tim) (p : pwm) : pwm := Pwm (pdev p) (f (pwm_regs p)) (pwm_errno p).
Definition set_pwm_errno (e : Z) (p : pwm) : pwm := Pwm (pdev p) (pwm_regs p) e.

#[export, refine] Instance pwm_parent : Lens pwm (rt_device unit) :=
  {| view := pdev; over := set_pdev |}.
Proof. all: intros; try destruct s; reflexivity. Defined.

(** ** drv_pwm.c, for a timer on APB1 *)

(** The channel number of the HAL, a [rt_uint32_t]. *)
Definition hal_channel (c : rt_pwm_configuration) : Z := u32 (4 * (channel c - 1)).

Definition drv_pwm_enable (c : rt_pwm_configuration) (enable : bool) : M pwm rt_err_t :=
  modify (set_pwm_regs (if enable then HAL_TIM_PWM_Start (hal_channel c)
                        else HAL_TIM_PWM_Stop (hal_channel c))) ;;;
  ret RT_EOK.

(** [rt_uint64_t tim_clock], and in MHz. *)
Definition tim_clock : Z := u64 (u32 (HAL_RCC_GetPCLK1Freq (board_clocks []) * 2)).
Definition tim_clock_mhz : Z := tim_clock / 1000000.

(** The clock of the timer is divided when it is read back, not when it is set. *)
Definition divided_clock (r : tim) : Z :=
  let ckd := Z.land (r CR1) TIM_CR1_CKD in
  if ckd =? TIM_CLOCKDIVISION_DIV2 then tim_clock / 2
  else if ckd =? TIM_CLOCKDIVISION_DIV4 then tim_clock / 4 else tim_clock.

Definition drv_pwm_get (c : rt_pwm_configuration) : M pwm (rt_err_t * rt_pwm_configuration) :=
  r <- gets pwm_regs ;;
  let mhz := divided_clock r / 1000000 in
  let scale v := u32 (u32 (u32 (v + 1) * u32 (r PSC + 1)) * 1000) / mhz in
  ret (RT_EOK, Pwm_configuration (channel c) (u32 (scale (r ARR))) (u32 (scale (r (ccr (hal_channel c)))))).

Definition drv_pwm_set (c : rt_pwm_configuration) : M pwm rt_err_t :=
  let ticks := u32 (u64 (period c * tim_clock_mhz) / 1000) in
  let psc := ticks / MAX_PERIOD + 1 in
  let arr := u32 (ticks / psc) in
  modify (set_pwm_regs (wr PSC (psc - 1))) ;;;
  let arr := if arr <? MIN_PERIOD then MIN_PERIOD else arr in
  modify (set_pwm_regs (wr ARR (arr - 1))) ;;;
  let cmp := u32 (u64 (pulse c * tim_clock_mhz) / psc / 1000) in
  let cmp := if cmp <? MIN_PULSE then MIN_PULSE else if arr <? cmp then arr else cmp in
  modify (set_pwm_regs (wr (ccr (hal_channel c)) (cmp - 1))) ;;;
  modify (set_pwm_regs (wr CNT 0)) ;;;
  modify (set_pwm_regs HAL_TIM_GenerateEvent) ;;;
  ret RT_EOK.

(** The configuration is passed by address: the second result is what it then holds. *)
Definition drv_pwm_control (cmd : Z) (c : rt_pwm_configuration)
    : M pwm (rt_err_t * rt_pwm_configuration) :=
  if cmd =? PWM_CMD_ENABLE then r <- drv_pwm_enable c true ;; ret (r, c)
  else if cmd =? PWM_CMD_DISABLE then r <- drv_pwm_enable c false ;; ret (r, c)
  else if cmd =? PWM_CMD_SET then r <- drv_pwm_set c ;; ret (r, c)
  else if cmd =? PWM_CMD_GET then drv_pwm_get c
  else ret (RT_EINVAL, c).

(** *** Start-up *)

(** A step of the initialisation: anything but [HAL_OK] ends it with [-RT_ERROR]. *)
Definition hal_step (f : tim -> Z * tim) (rest : M pwm rt_err_t) : M pwm rt_err_t :=
  t <- gets pwm_regs ;;
  let '(r, t) := f t in
  modify (set_pwm_regs (fun _ => t)) ;;;
  if negb (r =? HAL_OK) then ret (- RT_ERROR) else rest.

Definition TIM_OCMODE_PWM1 : Z := 0x0060.
Definition pwm_base : base_init := Base_init 0 0 TIM_COUNTERMODE_UP TIM_CLOCKDIVISION_DIV1 0.
Definition pwm_oc : oc_init := Oc_init TIM_OCMODE_PWM1 0 0 0.

Definition config_channel (mask bit Channel : Z) (rest : M pwm rt_err_t) : M pwm rt_err_t :=
  if negb (Z.land mask bit =? 0) then hal_step (HAL_TIM_PWM_ConfigChannel pwm_oc Channel) rest else rest.

(** [mask] is the device's [channel] byte; the pins and the clock of the timer are left to
    the board. *)
Definition stm32_hw_pwm_init (mask : Z) : M pwm rt_err_t :=
  t <- gets pwm_regs ;;
  let '(r, t) := HAL_TIM_Base_Init pwm_base t in
  modify (set_pwm_regs (fun _ => t)) ;;;
  if negb (r =? HAL_OK) then raise Halted
  else
    hal_step (HAL_TIM_PWM_Init pwm_base)
    (hal_step HAL_TIM_ConfigClockSource
    (hal_step (HAL_TIMEx_MasterConfigSynchronization 0 0)
    (config_channel mask 0x01 0x0
    (config_channel mask 0x02 0x4
    (config_channel mask 0x04 0x8
    (config_channel mask 0x08 0xC
    (modify (set_pwm_regs (set_bit CR1 CR1_URS)) ;;;
     ret RT_EOK))))))).

(** [BSP_USING_PWM4_CH1] alone is defined. *)
Definition pwm_get_channel (mask : Z) : Z := Z.lor mask (Z.shiftl 1 0).

(** ** rt_drv_pwm.c, over a driver's [control] *)

Definition pwm_control : Type := Z -> rt_pwm_configuration -> M pwm (rt_err_t * rt_pwm_configuration).

Section Class.
Variable control : option pwm_control.

Definition _pwm_control (cmd : Z) (args : rt_pwm_configuration) : M pwm rt_err_t :=
  match control with
  | Some control => r <- control cmd args ;; ret r.1
  | None => ret RT_EOK
  end.

(** The pulse read, when one is. *)
Definition _pwm_read (pos size : Z) : M pwm (Z * option Z) :=
  match control with
  | Some control =>
      r <- control PWM_CMD_GET (Pwm_configuration pos 0 0) ;;
      if negb (r.1 =? RT_EOK) then ret (0, None) else ret (size, Some (pulse r.2))
  | None => ret (size, None)
  end.

Definition _pwm_write (pos : Z) (buffer : Z) (size : Z) : M pwm Z :=
  match control with
  | Some control =>
      r <- control PWM_CMD_GET (Pwm_configuration pos 0 0) ;;
      if negb (r.1 =? RT_EOK) then ret 0
      else
        r <- control PWM_CMD_SET (Pwm_configuration (channel r.2) (period r.2) buffer) ;;
        if negb (r.1 =? RT_EOK) then ret 0 else ret size
  | None => ret size
  end.
End Class.

#[export] Instance pwm_driver : DeviceDriver pwm unit rt_pwm_configuration Z (option Z) :=
  {| parent := pwm_parent;
     set_errno := fun e => modify (set_pwm_errno e);
     device_init := None;
     device_open := None;
     device_close := None;
     device_read := Some (_pwm_read (Some drv_pwm_control));
     device_write := Some (_pwm_write (Some drv_pwm_control));
     device_control := Some (_pwm_control (Some drv_pwm_control)) |}.

(** The device class fills in a cleared structure and registers it. *)
Definition rt_device_pwm_register (object : Z) (name : list Z) : M (object_list * pwm) rt_err_t :=
  s <- get ;;
  match rt_device_register (Some object) name RT_DEVICE_FLAG_RDWR (Rt_device 0 0 0 None None) s.1 with
  | Ok ((r, d), objs) => put (objs, set_pdev d s.2) ;;; ret r
  | Fault f => raise f
  end.

(** One device, [PWM4_CONFIG], whose [channel] byte starts at zero. *)
Definition stm32_pwm_init (object : Z) (name : list Z) : M (object_list * pwm) Z :=
  s <- get ;;
  match stm32_hw_pwm_init (pwm_get_channel 0) s.2 with
  | Fault f => raise f
  | Ok (r, p) =>
      put (s.1, p) ;;;
      if negb (r =? RT_EOK) then ret (- RT_ERROR)
      else
        r <- rt_device_pwm_register object name ;;
        ret (if r =? RT_EOK then RT_EOK else - RT_ERROR)
  end.

(** A NULL device is [false]. *)
Definition rt_pwm_enable (device : bool) (ch : Z) : M pwm rt_err_t :=
  if negb device then ret (- RT_EIO)
  else rt_device_control PWM_CMD_ENABLE (Pwm_configuration ch 0 0).
Definition rt_pwm_disable (device : bool) (ch : Z) : M pwm rt_err_t :=
  if negb device then ret (- RT_EIO)
  else rt_device_control PWM_CMD_DISABLE (Pwm_configuration ch 0 0).
Definition rt_pwm_set (device : bool) (ch per pul : Z) : M pwm rt_err_t :=
  if negb device then ret (- RT_EIO)
  else rt_device_control PWM_CMD_SET (Pwm_configuration ch per pul).

(** ** The conversion *)

Lemma tim_clock_84 : tim_clock_mhz = 84.
Proof. reflexivity. Qed.

(** The registers a configuration is turned into, with the machine conversions gone:
    [pwm_psc] timer ticks per count, [pwm_arr] counts per period, [pwm_cmp] counts per
    pulse. *)
Definition pwm_psc (per : Z) : Z := per * 84 / 1000 / MAX_PERIOD + 1.
Definition pwm_arr (per : Z) : Z := Z.max MIN_PERIOD (per * 84 / 1000 / pwm_psc per).
Definition pwm_cmp (per pul : Z) : Z :=
  Z.max MIN_PULSE (Z.min (pul * 84 / pwm_psc per / 1000) (pwm_arr per)).

Lemma pwm_psc_bounds per : 0 <= per < 2 ^ 32 -> 1 <= pwm_psc per <= 5506.
Proof.
  intros Hp. unfold pwm_psc, MAX_PERIOD.
  assert (0 <= per * 84 / 1000) by (apply Z.div_pos; lia).
  assert (per * 84 / 1000 < 360777254) by (apply Z.div_lt_upper_bound; lia).
  assert (0 <= per * 84 / 1000 / 65535) by (apply Z.div_pos; lia).
  assert (per * 84 / 1000 / 65535 < 5506) by (apply Z.div_lt_upper_bound; lia). lia.
Qed.

Lemma pwm_arr_bounds per : 0 <= per < 2 ^ 32 -> 3 <= pwm_arr per <= MAX_PERIOD.
Proof.
  intros Hp. pose proof (pwm_psc_bounds per Hp) as Hb. unfold pwm_arr, MAX_PERIOD, MIN_PERIOD.
  assert (per * 84 / 1000 / pwm_psc per < 65536); [|lia].
  apply Z.div_lt_upper_bound; [lia|]. unfold pwm_psc, MAX_PERIOD in *.
  pose proof (Z.div_mod (per * 84 / 1000) 65535). pose proof (Z.mod_pos_bound (per * 84 / 1000) 65535).
  lia.
Qed.

Lemma pwm_cmp_bounds per pul : 0 <= per < 2 ^ 32 -> 2 <= pwm_cmp per pul <= MAX_PERIOD.
Proof.
  intros Hp. pose proof (pwm_arr_bounds per Hp). unfold pwm_cmp, MIN_PULSE, MAX_PERIOD in *. lia.
Qed.

Lemma ccr_ne c : ccr c <> PSC /\ ccr c <> ARR /\ ccr c <> CNT /\ ccr c <> SR /\ ccr c <> CR1.
Proof. unfold ccr. repeat case_match; done. Qed.

(** [drv_pwm_set] puts those values in the registers. *)
Lemma drv_pwm_set_spec c p :
  0 <= period c < 2 ^ 32 -> 0 <= pulse c < 2 ^ 32 ->
  wp (drv_pwm_set c) p (fun r p' => r = RT_EOK /\ pdev p' = pdev p /\
    pwm_regs p' PSC = pwm_psc (period c) - 1 /\ pwm_regs p' ARR = pwm_arr (period c) - 1 /\
    pwm_regs p' (ccr (hal_channel c)) = pwm_cmp (period c) (pulse c) - 1 /\
    (forall r', r' ∉ [PSC; ARR; CNT; SR; ccr (hal_channel c)] -> pwm_regs p' r' = pwm_regs p r')).
Proof.
  intros Hp Hq. pose proof (pwm_psc_bounds _ Hp) as Hb1. pose proof (pwm_arr_bounds _ Hp) as Hb2.
  pose proof (pwm_cmp_bounds _ (pulse c) Hp) as Hb3. unfold MAX_PERIOD in Hb2, Hb3.
  unfold drv_pwm_set. rewrite tim_clock_84.
  rewrite (wrap_small 64 (period c * 84)), (wrap_small 64 (pulse c * 84)) by lia.
  assert (0 <= period c * 84 / 1000 < 2 ^ 32).
  { split; [apply Z.div_pos; lia|apply Z.div_lt_upper_bound; lia]. }
  rewrite (wrap_small 32 (period c * 84 / 1000)) by lia.
  change (period c * 84 / 1000 / MAX_PERIOD + 1) with (pwm_psc (period c)).
  set (arr0 := u32 _).
  replace (if arr0 <? MIN_PERIOD then MIN_PERIOD else arr0) with (pwm_arr (period c)).
  2:{ unfold arr0, pwm_arr. rewrite wrap_small; [destruct (Z.ltb_spec (period c * 84 / 1000 / pwm_psc (period c)) MIN_PERIOD); lia|].
      split; [apply Z.div_pos; lia|apply Z.div_lt_upper_bound; nia]. }
  set (cmp0 := u32 _).
  replace (if cmp0 <? MIN_PULSE then MIN_PULSE else if pwm_arr (period c) <? cmp0 then pwm_arr (period c) else cmp0)
    with (pwm_cmp (period c) (pulse c)).
  2:{ unfold cmp0, pwm_cmp, MIN_PULSE. rewrite wrap_small.
      - destruct (Z.ltb_spec (pulse c * 84 / pwm_psc (period c) / 1000) 2);
          destruct (Z.ltb_spec (pwm_arr (period c)) (pulse c * 84 / pwm_psc (period c) / 1000)); lia.
      - assert (pulse c * 84 / pwm_psc (period c) <= pulse c * 84) by (apply Z.div_le_upper_bound; nia).
        assert (0 <= pulse c * 84 / pwm_psc (period c)) by (apply Z.div_pos; lia).
        split; [apply Z.div_pos; lia|apply Z.div_lt_upper_bound; lia]. }
  destruct (ccr_ne (hal_channel c)) as (N1 & N2 & N3 & N4 & N5).
  wp_steps. cbn [pdev pwm_regs set_pwm_regs]. unfold HAL_TIM_GenerateEvent.
  rewrite !generate_update_ne by done.
  rewrite !(wr_ne CNT), !(wr_ne (ccr _) PSC), !(wr_ne (ccr _) ARR) by done.
  rewrite !wr_eq, (wr_ne ARR PSC), wr_eq by done.
  rewrite !wrap_small by lia. split_and!; try done.
  intros r' Hr. rewrite !not_elem_of_cons in Hr. destruct Hr as (H1 & H2 & H3 & H4 & H5 & _).
  rewrite generate_update_ne by done. by rewrite !wr_ne by done.
Qed.

(** One count lasts at most [pwm_psc] ticks of 1000/84 ns. *)
Lemma counts_error x q psc cnt :
  0 < psc -> 0 <= x -> q = x * 84 / 1000 -> cnt = q / psc ->
  0 <= x - cnt * psc * 1000 / 84 <= 12 * psc + 12.
Proof.
  intros Hs Hx -> ->.
  pose proof (Z.div_mod (x * 84) 1000) as E1. pose proof (Z.mod_pos_bound (x * 84) 1000) as B1.
  set (q := x * 84 / 1000) in *.
  pose proof (Z.div_mod q psc) as E2. pose proof (Z.mod_pos_bound q psc) as B2.
  set (n := q / psc) in *.
  pose proof (Z.div_mod (n * psc * 1000) 84) as E3. pose proof (Z.mod_pos_bound (n * psc * 1000) 84) as B3.
  set (y := n * psc * 1000 / 84) in *. nia.
Qed.

Lemma div_div_comm a b c : 0 < b -> 0 < c -> a / b / c = a / c / b.
Proof. intros Hb Hc. rewrite !Z.div_div by lia. f_equal. lia. Qed.

(** In this range no limit of the driver cuts in. *)
Lemma pwm_in_range per pul :
  100 <= per <= 51000000 -> 1600 <= pul <= per ->
  pwm_psc per <= 66 /\ pwm_arr per = per * 84 / 1000 / pwm_psc per /\
  pwm_cmp per pul = pul * 84 / 1000 / pwm_psc per.
Proof.
  intros Hp Hq. pose proof (pwm_psc_bounds per ltac:(lia)) as Hb1.
  assert (pwm_arr per = per * 84 / 1000 / pwm_psc per) as Ea.
  { unfold pwm_arr, MIN_PERIOD. apply Z.max_r. apply Z.div_le_lower_bound; [lia|].
    unfold pwm_psc, MAX_PERIOD.
    assert (8 <= per * 84 / 1000) by (apply Z.div_le_lower_bound; lia).
    pose proof (Z.div_mod (per * 84 / 1000) 65535).
    pose proof (Z.mod_pos_bound (per * 84 / 1000) 65535). lia. }
  assert (pwm_psc per <= 66) as Hps.
  { unfold pwm_psc, MAX_PERIOD.
    assert (per * 84 / 1000 <= 4284000) by (apply Z.div_le_upper_bound; lia).
    assert (per * 84 / 1000 / 65535 < 66) by (apply Z.div_lt_upper_bound; lia). lia. }
  assert (pwm_cmp per pul = pul * 84 / 1000 / pwm_psc per) as Ec.
  { unfold pwm_cmp, MIN_PULSE. rewrite div_div_comm by lia. rewrite Z.min_l, Z.max_r; [done| |].
    - apply Z.div_le_lower_bound; [lia|]. apply Z.div_le_lower_bound; lia.
    - rewrite Ea. apply Z.div_le_mono; [lia|]. apply Z.div_le_mono; lia. }
  by split_and!.
Qed.

(** What the start-up leaves, whatever the registers held: channel 1 in PWM mode 1 with
    preload and off, the clock of the timer not divided, no slave mode, and update events
    only from the counter. *)
Lemma stm32_hw_pwm_init_spec p :
  wp (stm32_hw_pwm_init (pwm_get_channel 0)) p (fun r p' => r = RT_EOK /\ pdev p' = pdev p /\
    Z.land (pwm_regs p' CR1) TIM_CR1_CKD = 0 /\ Z.land (pwm_regs p' SMCR) TIM_SMCR_SMS = 0 /\
    Z.land (pwm_regs p' CCMR1) 0x7F = Z.lor TIM_OCMODE_PWM1 TIM_CCMR_OCPE /\
    Z.testbit (pwm_regs p' CCER) 0 = false /\ Z.testbit (pwm_regs p' CR1) CR1_URS = true /\
    pwm_regs p' CCR1 = 0).
Proof.
  unfold wp. change (stm32_hw_pwm_init (pwm_get_channel 0) p) with
    (Ok (RT_EOK, set_pwm_regs (fun t => set_bit CR1 CR1_URS (oc_preload_fast CCMR1 0 pwm_oc (TIM_OC1_SetConfig pwm_oc
       (HAL_TIMEx_MasterConfigSynchronization 0 0 (HAL_TIM_ConfigClockSource
         (TIM_Base_SetConfig pwm_base (TIM_Base_SetConfig pwm_base t))).2).2))) p)).
  cbv beta iota. cbn [pwm_regs set_pwm_regs]. set (r := TIM_Base_SetConfig pwm_base (pwm_regs p)).
  split; [done|]. split; [done|].
  unfold oc_preload_fast, TIM_OC1_SetConfig, OC_SetConfig, HAL_TIMEx_MasterConfigSynchronization, HAL_TIM_ConfigClockSource.
  cbn [snd]. unfold set_bit. tim_simp. unfold TIM_Base_SetConfig.
  rewrite !generate_update_ne by done. tim_simp.
  generalize (r CR1) (r SMCR) (r CCMR1) (r CCER). clear r. intros cr1 smcr ccmr ccer.
  split_and!; [reg_bits..|one_bit|one_bit|done].
Qed.


(** The PWM driver's conversion round trip, on a timer whose clock is not divided (as the
    start-up leaves it): for every period of at most 51 ms (and at
    least 100 ns) and every pulse of 1600 ns up to the period, on channels 1 to 4,
    setting a configuration succeeds and reading it back gives the same channel, and a
    period and a pulse that are never above and less than one count (12 ns times the
    prescaler, plus rounding) below the ones set. *)
Theorem pwm_set_get c p :
  Z.land (pwm_regs p CR1) TIM_CR1_CKD = 0 ->
  1 <= channel c <= 4 -> 100 <= period c <= 51000000 -> 1600 <= pulse c <= period c ->
  exists p' c', drv_pwm_control PWM_CMD_SET c p = Ok ((RT_EOK, c), p') /\
    drv_pwm_control PWM_CMD_GET (Pwm_configuration (channel c) 0 0) p' = Ok ((RT_EOK, c'), p') /\
    channel c' = channel c /\
    0 <= period c - period c' <= 12 * pwm_psc (period c) + 12 /\
    0 <= pulse c - pulse c' <= 12 * pwm_psc (period c) + 12.
Proof.
  intros Hck Hch Hp Hq.
  destruct (wp_total _ _ _ (drv_pwm_set_spec c p ltac:(lia) ltac:(lia)))
    as (r & p' & E & -> & _ & Hpsc & Harr & Hcmp & Hkept).
  assert (divided_clock (pwm_regs p') / 1000000 = 84) as Hmhz.
  { unfold divided_clock. rewrite Hkept, Hck; [reflexivity|].
    rewrite !not_elem_of_cons. destruct (ccr_ne (hal_channel c)) as (_ & _ & _ & _ & Hcr1).
    split_and!; [done..|by apply not_eq_sym|]. by apply not_elem_of_nil. }
  exists p'. eexists. split.
  { unfold drv_pwm_control, bind. change (PWM_CMD_SET =? PWM_CMD_ENABLE) with false.
    change (PWM_CMD_SET =? PWM_CMD_DISABLE) with false. rewrite Z.eqb_refl, E. reflexivity. }
  split.
  { unfold drv_pwm_control. cbn.
    unfold drv_pwm_get, bind, gets, ret. reflexivity. }
  cbn [channel period pulse].
  change (hal_channel (Pwm_configuration (channel c) 0 0)) with (hal_channel c).
  rewrite Hpsc, Harr, Hcmp, Hmhz, !Z.sub_add.
  pose proof (pwm_psc_bounds (period c) ltac:(lia)) as Hb1.
  destruct (pwm_in_range (period c) (pulse c) Hp Hq) as (Hps & Ea & Ec).
  assert (0 < pwm_psc (period c)) as Hps0 by lia.
  pose proof (counts_error (period c) _ _ _ Hps0 ltac:(lia) eq_refl Ea) as Hep.
  pose proof (counts_error (pulse c) _ _ _ Hps0 ltac:(lia) eq_refl Ec) as Hec.
  pose proof (pwm_arr_bounds (period c) ltac:(lia)) as Hb2.
  pose proof (pwm_cmp_bounds (period c) (pulse c) ltac:(lia)) as Hb3. unfold MAX_PERIOD in Hb2, Hb3.
  assert (forall v x, 0 <= v <= 65535 -> 0 <= x - v * pwm_psc (period c) * 1000 / 84 -> x <= 51000000 ->
    u32 (u32 (u32 (u32 v * u32 (pwm_psc (period c))) * 1000) / 84) = v * pwm_psc (period c) * 1000 / 84) as Hw.
  { intros v x Hv Hx Hx2. rewrite (wrap_small 32 v), (wrap_small 32 (pwm_psc _)) by lia.
    rewrite (wrap_small 32 (v * _)) by nia.
    pose proof (Z.div_mod (v * pwm_psc (period c) * 1000) 84).
    pose proof (Z.mod_pos_bound (v * pwm_psc (period c) * 1000) 84).
    rewrite (wrap_small 32 (v * _ * 1000)) by nia.
    apply wrap_small. split; [apply Z.div_pos; nia|apply Z.div_lt_upper_bound; nia]. }
  rewrite (Hw (pwm_arr (period c)) (period c)), (Hw (pwm_cmp (period c) (pulse c)) (pulse c)) by lia.
  split; [done|]. split; assumption.
Qed.

(** The servo: 20 ms and 1.5 ms. *)
Lemma pwm_set_get_witness :
  exists p' c', drv_pwm_control PWM_CMD_SET (Pwm_configuration 1 20000000 1500000)
      (Pwm (Rt_device 0 0 0 None None) (fun _ => 0) 0) = Ok ((RT_EOK, Pwm_configuration 1 20000000 1500000), p') /\
    drv_pwm_control PWM_CMD_GET (Pwm_configuration 1 0 0) p' = Ok ((RT_EOK, c'), p') /\
    0 <= 20000000 - period c' <= 324 /\ 0 <= 1500000 - pulse c' <= 324.
Proof.
  destruct (pwm_set_get (Pwm_configuration 1 20000000 1500000) (Pwm (Rt_device 0 0 0 None None) (fun _ => 0) 0))
    as (p' & c' & E1 & E2 & _ & H1 & H2).
  - reflexivity.
  - cbn. lia.
  - cbn. lia.
  - cbn. lia.
  - exists p', c'. split; [exact E1|]. split; [exact E2|]. split; [exact H1|exact H2].
Defined.
