(* ===== verification/Adc.v ===== *)
(** * ADC devices

    Models [rt-thread/components/drivers/misc/adc.c] (the ADC device class: its read and
    control entries and [rt_adc_read], [rt_adc_enable], [rt_adc_disable]) over the STM32
    driver [drivers/drv_adc.c]. The analogue inputs are the environment: [inputs] gives
    what a conversion of each channel yields. *)

From stdpp Require Import base numbers list.
From Stdlib Require Import ZArith Lia.
From S2P Require Import Prelude Device.

Definition RT_ADC_CMD_ENABLE : Z := 0.
Definition RT_ADC_CMD_DISABLE : Z := 1.

Record adc : Type := Adc {
  adev : rt_device unit;
  adon : bool;              (* the converter is switched on *)
  sequence : Z;             (* the channel of the first conversion, [SQR3] *)
  inputs : Z -> Z;          (* the environment *)
  adc_errno : Z
}.

Definition set_adev (d : rt_device unit) (a : adc) : adc :=
  Adc d (adon a) (sequence a) (inputs a) (adc_errno a).
Definition set_adon (b : bool) (a : adc) : adc :=
  Adc (adev a) b (sequence a) (inputs a) (adc_errno a).
Definition set_sequence (c : Z) (a : adc) : adc :=
  Adc (adev a) (adon a) c (inputs a) (adc_errno a).
Definition set_adc_errno (e : Z) (a : adc) : adc :=
  Adc (adev a) (adon a) (sequence a) (inputs a) e.

#[export, refine] Instance adc_parent : Lens adc (rt_device unit) :=
  {| view := adev; over := set_adev |}.
Proof. all: intros; try destruct s; reflexivity. Defined.

(** ** drv_adc.c *)

Definition stm32_adc_enabled (channel : Z) (enabled : bool) : M adc rt_err_t :=
  modify (set_adon enabled) ;;; ret RT_EOK.

(** [ADC_CHANNEL_n] of the F4 is [n]; channel 19 does not exist. *)
Definition stm32_adc_get_channel (channel : Z) : Z :=
  if (0 <=? channel) && (channel <=? 18) then channel else 0.

(** [HAL_ADC_Start] switches the converter on. The value is the data register, 12 bits. *)
Definition stm32_get_adc_value (channel : Z) : M adc (rt_err_t * option Z) :=
  if channel <=? 18 then
    modify (set_sequence (stm32_adc_get_channel channel)) ;;;
    modify (set_adon true) ;;;
    v <- gets (fun a => inputs a (sequence a) mod 2 ^ 12) ;;
    ret (RT_EOK, Some v)
  else ret (- RT_ERROR, None).

(** ** adc.c, over a driver's operations *)

Record rt_adc_ops : Type := Adc_ops {
  op_enabled : option (Z -> bool -> M adc rt_err_t);
  op_convert : Z -> M adc (rt_err_t * option Z)
}.

Definition stm_adc_ops : rt_adc_ops := Adc_ops (Some stm32_adc_enabled) stm32_get_adc_value.

Section Class.
Variable ops : rt_adc_ops.

(** The loop [for (i = 0; i < size; i += sizeof(int))]: one word per turn, on channel
    [pos + i]. *)
Fixpoint adc_read_loop (fuel : nat) (pos size i : Z) (value : list Z) : M adc (Z * list Z) :=
  match fuel with
  | O => ret (i, value)
  | S fuel =>
      if i <? size then
        r <- op_convert ops (u32 (pos + i)) ;;
        if negb (r.1 =? RT_EOK) then ret (0, value)
        else match r.2 with
             | Some v => adc_read_loop fuel pos size (i + 4) (value ++ [v])
             | None => raise UninitRead
             end
      else ret (i, value)
  end.

(** Each turn adds 4: [size / 4 + 1] turns reach the end. *)
Definition _adc_read (pos size : Z) : M adc (Z * list Z) :=
  adc_read_loop (S (Z.to_nat (size / 4 + 1))) pos size 0 [].

Definition _adc_control (cmd args : Z) : M adc rt_err_t :=
  match op_enabled ops with
  | None => ret (- RT_ENOSYS)
  | Some enabled =>
      if cmd =? RT_ADC_CMD_ENABLE then enabled (u32 args) true
      else if cmd =? RT_ADC_CMD_DISABLE then enabled (u32 args) false
      else ret RT_EOK
  end.

(** [RT_ASSERT(dev)]: [dev] is false for NULL. The result of the conversion is dropped: a
    conversion that fails leaves the variable uninitialised. *)
Definition rt_adc_read (dev : bool) (channel : Z) : M adc Z :=
  rt_assert dev ;;;
  r <- op_convert ops channel ;;
  match r.2 with Some v => ret v | None => raise UninitRead end.

Definition rt_adc_enable (dev : bool) (channel : Z) : M adc rt_err_t :=
  rt_assert dev ;;;
  match op_enabled ops with
  | Some enabled => enabled channel true
  | None => ret (- RT_ENOSYS)
  end.

Definition rt_adc_disable (dev : bool) (channel : Z) : M adc rt_err_t :=
  rt_assert dev ;;;
  match op_enabled ops with
  | Some enabled => enabled channel false
  | None => ret (- RT_ENOSYS)
  end.
End Class.

#[export] Instance adc_driver : DeviceDriver adc unit Z unit (list Z) :=
  {| parent := adc_parent;
     set_errno := fun e => modify (set_adc_errno e);
     device_init := None;
     device_open := None;
     device_close := None;
     device_read := Some (_adc_read stm_adc_ops);
     device_write := None;
     device_control := Some (_adc_control stm_adc_ops) |}.

(** A conversion of an existing channel reads that channel's input, whatever the state of
    the converter, and a 12-bit value. *)
Lemma rt_adc_read_spec channel (a : adc) :
  0 <= channel <= 18 ->
  wp (rt_adc_read stm_adc_ops true channel) a (fun v a' =>
    v = inputs a channel mod 2 ^ 12 /\ 0 <= v <= 4095 /\ inputs a' = inputs a /\ adev a' = adev a).
Proof.
  intros Hc. unfold rt_adc_read, rt_assert. cbn [op_convert stm_adc_ops].
  unfold stm32_get_adc_value. replace (channel <=? 18) with true by lia. wp_steps. cbn.
  wp_steps. unfold stm32_adc_get_channel.
  replace ((0 <=? channel) && (channel <=? 18)) with true by lia.
  pose proof (Z.mod_pos_bound (inputs a channel) (2 ^ 12)). split_and!; try done; lia.
Qed.
