(* ===== verification/Json.v ===== *)
(** * cJSON

    Models the parts of [packages/cJSON-v1.7.17/cJSON.c] the firmware uses: the parser
    ([cJSON_Parse]), the unformatted printer ([cJSON_PrintUnformatted]), the
    case-insensitive member lookup and the constructors of objects. A C string is the
    list of its bytes without the terminating NUL; a parse buffer is the list of bytes from
    its [offset] to its [length]. [strtod] and [printf]'s [%d] and [%g] are the C standard
    library's, defined here on the exact decimal values. Allocation is taken to succeed.
    Main results: parsing always terminates with an answer ([parse_total]), never builds a
    tree deeper than the nesting limit ([parse_depth]), and inverts printing
    ([print_parse]). *)

From stdpp Require Import base numbers list.
From Stdlib Require Import ZArith Lia Floats.SpecFloat.
From S2P Require Import Prelude CFloat.

(** ** Values

    A [cJSON] node: its type with the field that type uses ([valuedouble], [valuestring],
    [child]); the members of an object carry their names ([string]). *)

Inductive json : Type :=
  | JFalse
  | JTrue
  | JNull
  | JNumber (valuedouble : spec_float)
  | JString (valuestring : bytes)
  | JArray (child : list json)
  | JObject (child : list (bytes * json)).

Section JsonInd.
Variable P : json -> Prop.
Hypothesis HFalse : P JFalse.
Hypothesis HTrue : P JTrue.
Hypothesis HNull : P JNull.
Hypothesis HNumber : forall d, P (JNumber d).
Hypothesis HString : forall s, P (JString s).
Hypothesis HArray : forall l, Forall P l -> P (JArray l).
Hypothesis HObject : forall l, Forall (fun kv => P kv.2) l -> P (JObject l).

(** Induction with a hypothesis for every child. *)
Fixpoint json_ind' (j : json) : P j :=
  match j with
  | JFalse => HFalse
  | JTrue => HTrue
  | JNull => HNull
  | JNumber d => HNumber d
  | JString s => HString s
  | JArray l => HArray l ((fix go l : Forall P l :=
      match l with [] => Forall_nil_2 _ | x :: l => Forall_cons_2 _ _ _ (json_ind' x) (go l) end) l)
  | JObject l => HObject l ((fix go l : Forall (fun kv : bytes * json => P kv.2) l :=
      match l with [] => Forall_nil_2 _ | x :: l => Forall_cons_2 _ _ _ (json_ind' x.2) (go l) end) l)
  end.
End JsonInd.

Definition INT_MAX : Z := 2147483647.
Definition INT_MIN : Z := -2147483648.

(** The [valueint] of a number, saturated; a NaN has none (the conversion is undefined). *)
Definition saturate (d : spec_float) : option Z :=
  match d with
  | S754_nan => None
  | S754_infinity s => Some (if s then INT_MIN else INT_MAX)
  | _ => match trunc d with
         | Some v => Some (if INT_MAX <=? v then INT_MAX else if v <=? INT_MIN then INT_MIN else v)
         | None => None
         end
  end.

(** [node->valueint]: [parse_value] stores 1 for [true]; other nodes keep the 0 they are
    allocated with. *)
Definition valueint (j : json) : option Z :=
  match j with JNumber d => saturate d | JTrue => Some 1 | _ => Some 0 end.

(** [node->valuestring], [None] for [NULL]. *)
Definition valuestring (j : json) : option bytes :=
  match j with JString s => Some s | _ => None end.

Definition is_true (j : json) : bool := match j with JTrue => true | _ => false end.

(** ** Members *)

Definition tolower (c : Z) : Z := if (65 <=? c) && (c <=? 90) then c + 32 else c.

(** Equality of NUL-terminated strings but for the case of ASCII letters. *)
Fixpoint case_insensitive_eq (s1 s2 : bytes) : bool :=
  match s1, s2 with
  | [], [] => true
  | c1 :: s1, c2 :: s2 => (tolower c1 =? tolower c2) && case_insensitive_eq s1 s2
  | _, _ => false
  end.

Fixpoint get_object_item (l : list (bytes * json)) (name : bytes) : option json :=
  match l with
  | [] => None
  | (k, v) :: l => if case_insensitive_eq name k then Some v else get_object_item l name
  end.

(** [None] is the NULL pointer. The children of an array have no name. *)
Definition cJSON_GetObjectItem (object : option json) (name : bytes) : option json :=
  match object with
  | Some (JObject l) => get_object_item l name
  | _ => None
  end.

Definition cJSON_AddItemToObject (object : json) (name : bytes) (item : json) : json :=
  match object with JObject l => JObject (l ++ [(name, item)]) | _ => object end.

(** A NULL string adds nothing. *)
Definition cJSON_AddStringToObject (object : json) (name : bytes) (s : option bytes) : json :=
  match s with Some s => cJSON_AddItemToObject object name (JString s) | None => object end.

Definition cJSON_AddNumberToObject (object : json) (name : bytes) (n : Z) : json :=
  cJSON_AddItemToObject object name (JNumber (of_Z binary64 n)).

Definition cJSON_AddBoolToObject (object : json) (name : bytes) (b : bool) : json :=
  cJSON_AddItemToObject object name (if b then JTrue else JFalse).

(** ** Numbers of the C library *)

Definition is_digit (c : Z) : bool := (48 <=? c) && (c <=? 57).

(** The decimal digits of [n], most significant first, before [acc]. *)
Fixpoint dec_digits (fuel : nat) (n : Z) (acc : bytes) : bytes :=
  match fuel with
  | O => acc
  | S fuel => let acc := 48 + n mod 10 :: acc in
              if n <? 10 then acc else dec_digits fuel (n / 10) acc
  end.

(** A number below [2 ^ k] has at most [k] digits (and one for 0). *)
Definition decimal_of (n : Z) : bytes := dec_digits (S (Z.to_nat (Z.log2 n))) n [].

(** [sprintf("%d")]. *)
Definition sprintf_d (n : Z) : bytes := if n <? 0 then 45 :: decimal_of (- n) else decimal_of n.

(** Reads digits: the number they write after [acc], how many there are, the rest. *)
Fixpoint digits (acc : Z) (n : Z) (s : bytes) : Z * Z * bytes :=
  match s with
  | c :: r => if is_digit c then digits (10 * acc + (c - 48)) (n + 1) r else (acc, n, s)
  | [] => (acc, n, s)
  end.

(** The double nearest to [(-1)^s * m * 10^e]. The mantissas here have at most 63 digits,
    so beyond the bounds on [e] the result is an infinity or a zero. *)
Definition decimal (s : bool) (m e : Z) : spec_float :=
  match m with
  | Zpos p =>
      if 400 <? e then S754_infinity s
      else if e <? -400 then S754_zero s
      else if 0 <=? e then binary_normalize 53 1024 (cond_Zopp s (m * 10 ^ e)) 0 s
      else SFdiv 53 1024 (S754_finite s p 0) (S754_finite false (Z.to_pos (10 ^ (- e))) 0)
  | _ => S754_zero s
  end.

(** The exponent of a decimal number, if a whole one is there. *)
Definition exponent (s : bytes) : Z * bytes :=
  match s with
  | c :: r =>
      if (c =? 101) || (c =? 69) then
        let '(neg, r1) := match r with
                          | d :: r' => if d =? 45 then (true, r') else if d =? 43 then (false, r') else (false, r)
                          | [] => (false, r)
                          end in
        let '(e, n, r2) := digits 0 0 r1 in
        if n =? 0 then (0, s) else (if neg : bool then - e else e, r2)
      else (0, s)
  | [] => (0, s)
  end.

(** [strtod] on the characters [parse_number] passes it: the value and what follows it. *)
Definition strtod (s : bytes) : option (spec_float * bytes) :=
  let '(neg, s1) := match s with
                    | c :: r => if c =? 45 then (true, r) else if c =? 43 then (false, r) else (false, s)
                    | [] => (false, s)
                    end in
  let '(m1, d1, s2) := digits 0 0 s1 in
  let '(m2, d2, s3) := match s2 with
                       | c :: r => if c =? 46 then digits m1 0 r else (m1, 0, s2)
                       | [] => (m1, 0, s2)
                       end in
  if d1 + d2 =? 0 then None
  else let '(e, s4) := exponent s3 in Some (decimal neg m2 (e - d2), s4).

(** [n / d] rounded to an integer, ties to even. *)
Definition round_half_even (n d : Z) : Z :=
  let q := n / d in
  let r := 2 * (n mod d) in
  if r <? d then q else if d <? r then q + 1 else if Z.even q then q else q + 1.

Fixpoint strip_zeros (l : bytes) : bytes :=
  match l with
  | [] => []
  | c :: l => match strip_zeros l with
              | [] => if c =? 48 then [] else [c]
              | l' => c :: l'
              end
  end.

Definition fraction (l : bytes) : bytes :=
  match strip_zeros l with [] => [] | l' => 46 :: l' end.

(** [sprintf("%1.<P>g")] of [n / d], positive. *)
Definition format_g (P : Z) (n d : Z) : bytes :=
  let k := Z.of_nat (length (decimal_of n)) - Z.of_nat (length (decimal_of d)) in
  let x := if d * 10 ^ Z.max 0 k <=? n * 10 ^ Z.max 0 (- k) then k else k - 1 in
  let q := round_half_even (n * 10 ^ Z.max 0 (P - 1 - x)) (d * 10 ^ Z.max 0 (x + 1 - P)) in
  let '(q, x) := if q =? 10 ^ P then (10 ^ (P - 1), x + 1) else (q, x) in
  let ds := decimal_of q in
  if (-4 <=? x) && (x <? P) then
    if 0 <=? x then take (Z.to_nat (x + 1)) ds ++ fraction (drop (Z.to_nat (x + 1)) ds)
    else 48 :: fraction (replicate (Z.to_nat (- x - 1)) 48 ++ ds)
  else take 1 ds ++ fraction (drop 1 ds) ++ [101; if x <? 0 then 45 else 43] ++
       (if Z.abs x <? 10 then [48] else []) ++ decimal_of (Z.abs x).

Definition sprintf_g (P : Z) (x : spec_float) : bytes :=
  match x with
  | S754_finite s m e =>
      (if s then [45] else []) ++ format_g P (Zpos m * 2 ^ Z.max 0 e) (2 ^ Z.max 0 (- e))
  | S754_zero s => (if s then [45] else []) ++ [48]
  | S754_infinity s => (if s then [45] else []) ++ [105; 110; 102]
  | S754_nan => [110; 97; 110]
  end.

(** [DBL_EPSILON], 2 to the -52. *)
Definition DBL_EPSILON : spec_float := S754_finite false 4503599627370496 (-104).

Definition compare_double (a b : spec_float) : bool :=
  let maxVal := if SFltb (SFabs b) (SFabs a) then SFabs a else SFabs b in
  SFleb (SFabs (fsub binary64 a b)) (fmul binary64 maxVal DBL_EPSILON).

(** ** Parser *)

(** [PastEnd] stands for a read past the buffer, which C leaves undefined. *)
Inductive presult (A : Type) : Type :=
  | Parsed (a : A)
  | Failed
  | PastEnd
  | NoFuel.
Arguments Parsed {A} a.
Arguments Failed {A}.
Arguments PastEnd {A}.
Arguments NoFuel {A}.

Definition CJSON_NESTING_LIMIT : Z := 1000.

(** [buffer_skip_whitespace]: at the end of the buffer it steps back onto the last
    character. *)
Fixpoint buffer_skip_whitespace (l : bytes) : bytes :=
  match l with
  | c :: r => if c <=? 32 then match r with [] => l | _ => buffer_skip_whitespace r end else l
  | [] => l
  end.

Definition skip_utf8_bom (l : bytes) : bytes :=
  if (5 <=? Z.of_nat (length l)) && bool_decide (take 3 l = [0xEF; 0xBB; 0xBF]) then drop 3 l else l.

(** A C string ends at its first NUL. *)
Fixpoint c_string (l : bytes) : bytes :=
  match l with c :: r => if c =? 0 then [] else c :: c_string r | [] => [] end.

Definition hex_digit (c : Z) : option Z :=
  if (48 <=? c) && (c <=? 57) then Some (c - 48)
  else if (65 <=? c) && (c <=? 70) then Some (10 + c - 65)
  else if (97 <=? c) && (c <=? 102) then Some (10 + c - 97)
  else None.

Fixpoint hex4_loop (n : nat) (h : Z) (p : bytes) : Z :=
  match n, p with
  | S n, c :: p =>
      match hex_digit c with
      | Some d => hex4_loop n (match n with O => h + d | _ => Z.shiftl (h + d) 4 end) p
      | None => 0
      end
  | _, _ => h
  end.
Definition parse_hex4 (p : bytes) : Z := hex4_loop 4 0 p.

(** The continuation bytes, written from the last one back. *)
Fixpoint utf8_tail (k : nat) (codepoint : Z) (acc : bytes) : Z * bytes :=
  match k with
  | O => (codepoint, acc)
  | S k => utf8_tail k (Z.shiftr codepoint 6) (Z.land (Z.lor codepoint 0x80) 0xBF :: acc)
  end.

Definition encode_utf8 (codepoint : Z) : option bytes :=
  let enc k mark := let '(c, t) := utf8_tail k codepoint [] in Some (Z.land (Z.lor c mark) 0xFF :: t) in
  if codepoint <? 0x80 then Some [Z.land codepoint 0x7F]
  else if codepoint <? 0x800 then enc 1%nat 0xC0
  else if codepoint <? 0x10000 then enc 2%nat 0xE0
  else if codepoint <=? 0x10FFFF then enc 3%nat 0xF0
  else None.

(** [n] is [input_end - input_pointer]. The bytes written and the characters consumed. *)
Definition utf16_literal_to_utf8 (p : bytes) (n : Z) : option (bytes * nat) :=
  if n <? 6 then None
  else
    let first_code := parse_hex4 (drop 2 p) in
    if (0xDC00 <=? first_code) && (first_code <=? 0xDFFF) then None
    else if (0xD800 <=? first_code) && (first_code <=? 0xDBFF) then
      let second := drop 6 p in
      if n - 6 <? 6 then None
      else if negb (bool_decide (take 2 second = [92; 117])) then None
      else
        let second_code := parse_hex4 (drop 2 second) in
        if (second_code <? 0xDC00) || (0xDFFF <? second_code) then None
        else option_map (fun b => (b, 12%nat))
               (encode_utf8 (0x10000 + Z.lor (Z.shiftl (Z.land first_code 0x3FF) 10) (Z.land second_code 0x3FF)))
    else option_map (fun b => (b, 6%nat)) (encode_utf8 first_code).

(** The distance to the closing quote, and the escape sequences passed. *)
Fixpoint scan_string (l : bytes) (n skipped : nat) : option (nat * nat) :=
  match l with
  | [] => None
  | c :: r =>
      if c =? 34 then Some (n, skipped)
      else if c =? 92 then
        match r with [] => None | _ :: r' => scan_string r' (S (S n)) (S skipped) end
      else scan_string r (S n) skipped
  end.

(** The characters of the short escape sequences. *)
Definition escape_char (c : Z) : option Z :=
  if c =? 98 then Some 8          (* b *)
  else if c =? 102 then Some 12   (* f *)
  else if c =? 110 then Some 10   (* n *)
  else if c =? 114 then Some 13   (* r *)
  else if c =? 116 then Some 9    (* t *)
  else if (c =? 34) || (c =? 92) || (c =? 47) then Some c
  else None.

(** The decoding loop, from [input_pointer] up to [n] characters further. *)
Fixpoint unescape (fuel : nat) (p : bytes) (n : Z) : presult bytes :=
  let more p' n' out := match fuel with
                        | O => NoFuel
                        | S fuel => match unescape fuel p' n' with Parsed t => Parsed (out ++ t) | r => r end
                        end in
  if n <=? 0 then Parsed []
  else match p with
       | [] => PastEnd
       | c :: r =>
           if negb (c =? 92) then more r (n - 1) [c]
           else match r with
                | [] => PastEnd
                | d :: r' =>
                    if d =? 117 then
                      match utf16_literal_to_utf8 p n with
                      | Some (out, k) => more (drop k p) (n - Z.of_nat k) out
                      | None => Failed
                      end
                    else match escape_char d with
                         | Some c' => more r' (n - 2) [c']
                         | None => Failed
                         end
                end
       end.

(** The first character is read without a test that there is one. *)
Definition parse_string (l : bytes) : presult (bytes * bytes) :=
  match l with
  | c :: r =>
      if negb (c =? 34) then Failed
      else match scan_string r 0 0 with
           | None => Failed
           | Some (n, _) =>
               match unescape n r (Z.of_nat n) with
               | Parsed out => Parsed (c_string out, drop (S n) r)
               | Failed => Failed
               | PastEnd => PastEnd
               | NoFuel => NoFuel
               end
           end
  | [] => PastEnd
  end.

Definition is_number_char (c : Z) : bool :=
  is_digit c || (c =? 43) || (c =? 45) || (c =? 101) || (c =? 69) || (c =? 46).

(** At most [n] characters are copied for [strtod]. *)
Fixpoint number_chars (n : nat) (l : bytes) : bytes :=
  match n, l with
  | S n, c :: r => if is_number_char c then c :: number_chars n r else []
  | _, _ => []
  end.

Definition parse_number (l : bytes) : presult (json * bytes) :=
  let number_c_string := number_chars 63 l in
  match strtod number_c_string with
  | None => Failed
  | Some (number, after_end) =>
      Parsed (JNumber number, drop (length number_c_string - length after_end) l)
  end.

Definition starts_with (s l : bytes) : bool := bool_decide (take (length s) l = s).
Definition s_null : bytes := [110; 117; 108; 108].
Definition s_false : bytes := [102; 97; 108; 115; 101].
Definition s_true : bytes := [116; 114; 117; 101].

(** [parse_value] and, for [parse_array] and [parse_object], the loops over the elements,
    entered at the first character of an element. [depth] is the number of arrays and
    objects around the value. *)
Fixpoint parse_value (fuel : nat) (depth : Z) (l : bytes) : presult (json * bytes) :=
  match fuel with
  | O => NoFuel
  | S fuel =>
      if starts_with s_null l then Parsed (JNull, drop 4 l)
      else if starts_with s_false l then Parsed (JFalse, drop 5 l)
      else if starts_with s_true l then Parsed (JTrue, drop 4 l)
      else match l with
           | [] => Failed
           | c :: r =>
               if c =? 34 then
                 match parse_string l with
                 | Parsed (s, l') => Parsed (JString s, l')
                 | Failed => Failed
                 | PastEnd => PastEnd
                 | NoFuel => NoFuel
                 end
               else if (c =? 45) || is_digit c then parse_number l
               else if c =? 91 then
                 if CJSON_NESTING_LIMIT <=? depth then Failed
                 else match buffer_skip_whitespace r with
                      | [] => Failed
                      | d :: l' =>
                          if d =? 93 then Parsed (JArray [], l')
                          else match parse_elements fuel (depth + 1) (d :: l') with
                               | Parsed (es, l'') => Parsed (JArray es, l'')
                               | Failed => Failed
                               | PastEnd => PastEnd
                               | NoFuel => NoFuel
                               end
                      end
               else if c =? 123 then
                 if CJSON_NESTING_LIMIT <=? depth then Failed
                 else match buffer_skip_whitespace r with
                      | [] => Failed
                      | d :: l' =>
                          if d =? 125 then Parsed (JObject [], l')
                          else match parse_members fuel (depth + 1) (d :: l') with
                               | Parsed (ms, l'') => Parsed (JObject ms, l'')
                               | Failed => Failed
                               | PastEnd => PastEnd
                               | NoFuel => NoFuel
                               end
                      end
               else Failed
           end
  end
with parse_elements (fuel : nat) (depth : Z) (l : bytes) : presult (list json * bytes) :=
  match fuel with
  | O => NoFuel
  | S fuel =>
      match parse_value fuel depth (buffer_skip_whitespace l) with
      | Parsed (v, l1) =>
          match buffer_skip_whitespace l1 with
          | c :: l2 =>
              if c =? 44 then
                match parse_elements fuel depth l2 with
                | Parsed (vs, l3) => Parsed (v :: vs, l3)
                | r => r
                end
              else if c =? 93 then Parsed ([v], l2)
              else Failed
          | [] => Failed
          end
      | Failed => Failed
      | PastEnd => PastEnd
      | NoFuel => NoFuel
      end
  end
with parse_members (fuel : nat) (depth : Z) (l : bytes) : presult (list (bytes * json) * bytes) :=
  match fuel with
  | O => NoFuel
  | S fuel =>
      match parse_string (buffer_skip_whitespace l) with
      | Parsed (k, l0) =>
          match buffer_skip_whitespace l0 with
          | c0 :: l0 =>
              if negb (c0 =? 58) then Failed
              else
                match parse_value fuel depth (buffer_skip_whitespace l0) with
                | Parsed (v, l1) =>
                    match buffer_skip_whitespace l1 with
                    | c :: l2 =>
                        if c =? 44 then
                          match parse_members fuel depth l2 with
                          | Parsed (vs, l3) => Parsed ((k, v) :: vs, l3)
                          | r => r
                          end
                        else if c =? 125 then Parsed ([(k, v)], l2)
                        else Failed
                    | [] => Failed
                    end
                | Failed => Failed
                | PastEnd => PastEnd
                | NoFuel => NoFuel
                end
          | [] => Failed
          end
      | Failed => Failed
      | PastEnd => PastEnd
      | NoFuel => NoFuel
      end
  end.

(** [cJSON_ParseWithLengthOpts] on the string and its terminator. *)
Definition parse_fuel (l : bytes) : nat := 2 * length l + 1.
Definition cJSON_ParseWithLengthOpts (value : bytes) : presult json :=
  let l := buffer_skip_whitespace (skip_utf8_bom value) in
  match parse_value (parse_fuel value) 0 l with
  | Parsed (j, _) => Parsed j
  | Failed => Failed
  | PastEnd => PastEnd
  | NoFuel => NoFuel
  end.
Definition cJSON_Parse (value : bytes) : option json :=
  match cJSON_ParseWithLengthOpts (value ++ [0]) with Parsed j => Some j | _ => None end.

(** ** Printer *)

Definition print_number (d : spec_float) : option bytes :=
  let number_buffer :=
    match d, saturate d with
    | S754_nan, _ | S754_infinity _, _ => s_null
    | _, Some i =>
        if SFeqb d (of_Z binary64 i) then sprintf_d i
        else let s := sprintf_g 15 d in
             match strtod s with
             | Some (test, _) => if compare_double test d then s else sprintf_g 17 d
             | None => sprintf_g 17 d
             end
    | _, None => s_null
    end in
  if 25 <? Z.of_nat (length number_buffer) then None else Some number_buffer.

Definition hex_char (n : Z) : Z := if n <? 10 then 48 + n else 87 + n.

(** One character of the input of [print_string_ptr]. *)
Definition escape (c : Z) : bytes :=
  if (31 <? c) && negb (c =? 34) && negb (c =? 92) then [c]
  else 92 :: (if c =? 92 then [92]
              else if c =? 34 then [34]
              else if c =? 8 then [98]
              else if c =? 12 then [102]
              else if c =? 10 then [110]
              else if c =? 13 then [114]
              else if c =? 9 then [116]
              else [117; 48; 48; hex_char (c / 16); hex_char (c mod 16)]).

Definition print_string_ptr (s : bytes) : bytes := [34] ++ flat_map escape s ++ [34].

Fixpoint print_value (j : json) : option bytes :=
  match j with
  | JNull => Some s_null
  | JFalse => Some s_false
  | JTrue => Some s_true
  | JNumber d => print_number d
  | JString s => Some (print_string_ptr s)
  | JArray l =>
      let fix elements (l : list json) : option bytes :=
        match l with
        | [] => Some [93]
        | v :: l => match print_value v, elements l with
                    | Some s, Some t => Some (s ++ (match l with [] => [] | _ => [44] end) ++ t)
                    | _, _ => None
                    end
        end in
      option_map (cons 91) (elements l)
  | JObject l =>
      let fix members (l : list (bytes * json)) : option bytes :=
        match l with
        | [] => Some [125]
        | (k, v) :: l =>
            match print_value v, members l with
            | Some s, Some t =>
                Some (print_string_ptr k ++ [58] ++ s ++ (match l with [] => [] | _ => [44] end) ++ t)
            | _, _ => None
            end
        end in
      option_map (cons 123) (members l)
  end.

Definition cJSON_PrintUnformatted (j : json) : option bytes := print_value j.

(** ** Termination and depth of the parser *)

(** The nesting of arrays and objects. *)
Fixpoint height (j : json) : Z :=
  match j with
  | JArray l => 1 + (fix go (l : list json) : Z :=
                       match l with [] => 0 | v :: l => Z.max (height v) (go l) end) l
  | JObject l => 1 + (fix go (l : list (bytes * json)) : Z :=
                        match l with [] => 0 | (_, v) :: l => Z.max (height v) (go l) end) l
  | _ => 0
  end.
Definition heights (l : list json) : Z := foldr (fun v h => Z.max (height v) h) 0 l.

Lemma height_array l : height (JArray l) = 1 + heights l.
Proof. reflexivity. Qed.
Lemma height_object l : height (JObject l) = 1 + heights l.*2.
Proof. unfold heights. induction l as [|[k v] l IH]; [done|]. cbn [height fmap list_fmap foldr snd] in *. lia. Qed.

(** No number of the tree is a NaN: every [valueint] is defined. *)
Fixpoint defined (j : json) : bool :=
  match j with
  | JNumber S754_nan => false
  | JArray l => (fix go (l : list json) : bool := match l with [] => true | v :: l => defined v && go l end) l
  | JObject l => (fix go (l : list (bytes * json)) : bool :=
                    match l with [] => true | (_, v) :: l => defined v && go l end) l
  | _ => true
  end.

Lemma defined_array l : defined (JArray l) = forallb defined l.
Proof. reflexivity. Qed.
Lemma defined_object l : defined (JObject l) = forallb defined l.*2.
Proof. induction l as [|[k v] l IH]; [done|]. cbn [defined fmap list_fmap forallb snd] in *. by rewrite <- IH. Qed.

Lemma defined_number d : d <> S754_nan -> defined (JNumber d) = true.
Proof. by destruct d. Qed.

(** A buffer that ends with a NUL. *)
Definition terminated (l : bytes) : Prop := exists p, l = p ++ [0].

Lemma terminated_not_nil l : terminated l -> l <> [].
Proof. intros [p ->]. by destruct p. Qed.
Lemma terminated_app p l : terminated (p ++ l) -> l <> [] -> terminated l.
Proof.
  intros [q E] Hl. destruct (exists_last Hl) as (l' & c & ->). rewrite app_assoc in E. apply app_inj_tail in E as [_ ->]. by exists l'.
Qed.
Lemma terminated_cons c l : terminated (c :: l) -> c <> 0 -> terminated l.
Proof. intros H Hc. apply (terminated_app [c]); [done|]. intros ->. destruct H as [[|d [|e p]] [=]]; done. Qed.
Lemma terminated_drop k l : terminated l -> Forall (fun c => c <> 0) (take k l) -> terminated (drop k l).
Proof.
  intros Ht Hk. rewrite <- (take_drop k l) in Ht. apply (terminated_app (take k l)); [done|]. intros E.
  rewrite E, app_nil_r in Ht. destruct Ht as [p Ep]. rewrite Ep, Forall_app, Forall_singleton in Hk. by destruct Hk.
Qed.

(** What a parsing step on [l] yields: a value in [P] and a shorter rest, which is terminated
    like [l]; a read past the end only if [l] is not; and no lack of fuel when there was
    [enough]. *)
Definition step_ok {A : Type} (enough : Prop) (l : bytes) (P : A -> Prop) (r : presult (A * bytes)) : Prop :=
  match r with
  | Parsed (a, l') => (length l' < length l)%nat /\ (terminated l -> terminated l') /\ P a
  | Failed => True
  | PastEnd => ~ terminated l
  | NoFuel => ~ enough
  end.

Lemma skip_ws_terminated l : terminated l -> terminated (buffer_skip_whitespace l).
Proof.
  induction l as [|c r IH]; cbn; [done|]. destruct (c <=? 32); [|done]. destruct r as [|d r]; [done|].
  intros H. by apply IH, (terminated_app [c]).
Qed.

Lemma skip_ws_length l : (length (buffer_skip_whitespace l) <= length l)%nat.
Proof.
  induction l as [|c r IH]; cbn; [lia|]. destruct (c <=? 32); [|done]. destruct r; cbn in *; lia.
Qed.

Lemma digits_length acc n s :
  let '(_, n', r) := digits acc n s in
  n' = n + Z.of_nat (length s) - Z.of_nat (length r) /\ (length r <= length s)%nat.
Proof.
  revert acc n. induction s as [|c s IH]; intros acc n; cbn; [lia|].
  destruct (is_digit c); cbn; [|lia].
  specialize (IH (10 * acc + (c - 48)) (n + 1)). destruct (digits _ _ s) as [[m n'] r]. lia.
Qed.

Lemma exponent_length s : (length (exponent s).2 <= length s)%nat.
Proof.
  unfold exponent. destruct s as [|c r]; [done|]. destruct (_ || _); [|done].
  assert (exists neg r1, match r with
    | [] => (false, r) | d :: r' => if d =? 45 then (true, r') else if d =? 43 then (false, r') else (false, r)
    end = (neg, r1) /\ (length r1 <= length r)%nat) as (neg & r1 & -> & Hr1).
  { destruct r as [|d r']; [eauto|]. destruct (d =? 45), (d =? 43); eexists _, _; (split; [done|]); cbn; lia. }
  pose proof (digits_length 0 0 r1) as Hd. destruct (digits 0 0 r1) as [[e n] r2].
  destruct (n =? 0); cbn; [done|]. lia.
Qed.

Lemma strtod_length s d r : strtod s = Some (d, r) -> (length r < length s)%nat.
Proof.
  unfold strtod.
  assert (exists neg s1, match s with
    | [] => (false, s) | c :: r => if c =? 45 then (true, r) else if c =? 43 then (false, r) else (false, s)
    end = (neg, s1) /\ (length s1 <= length s)%nat) as (neg & s1 & -> & Hs1).
  { destruct s as [|c s']; [eauto|]. destruct (c =? 45), (c =? 43); eexists _, _; (split; [done|]); cbn; lia. }
  pose proof (digits_length 0 0 s1) as H1. destruct (digits 0 0 s1) as [[m1 d1] s2].
  assert (exists m2 d2 s3, match s2 with
    | [] => (m1, 0, s2) | c :: r => if c =? 46 then digits m1 0 r else (m1, 0, s2) end = (m2, d2, s3) /\
    0 <= d2 <= Z.of_nat (length s2) - Z.of_nat (length s3) /\ (length s3 <= length s2)%nat)
    as (m2 & d2 & s3 & -> & Hd2 & Hs3).
  { destruct s2 as [|c s2]; [eexists _, _, _; split; [done|]; cbn; lia|].
    destruct (c =? 46); [|eexists _, _, _; split; [done|]; cbn; lia].
    pose proof (digits_length m1 0 s2) as H2. destruct (digits m1 0 s2) as [[m2 d2] s3].
    eexists _, _, _. split; [done|]. cbn [length] in *. lia. }
  destruct (d1 + d2 =? 0) eqn:E; [done|].
  pose proof (exponent_length s3) as He. destruct (exponent s3) as [e s4]. intros [= _ <-]. cbn in H1, He. lia.
Qed.

Lemma decimal_not_nan s m e : decimal s m e <> S754_nan.
Proof.
  unfold decimal. destruct m as [|p|p]; [done| |done]. destruct (400 <? e); [done|]. destruct (e <? -400); [done|].
  destruct (0 <=? e); [apply binary_normalize_not_nan|apply SFdiv_finite_not_nan].
Qed.

Lemma strtod_not_nan s d r : strtod s = Some (d, r) -> d <> S754_nan.
Proof.
  unfold strtod. destruct (match s with [] => _ | _ => _ end) as [neg s1]. destruct (digits 0 0 s1) as [[m1 d1] s2].
  destruct (match s2 with [] => _ | _ => _ end) as [[m2 d2] s3]. destruct (_ =? 0); [done|].
  destruct (exponent s3). intros [= <- _]. apply decimal_not_nan.
Qed.

Lemma number_chars_length n l : (length (number_chars n l) <= length l)%nat.
Proof.
  revert l. induction n as [|n IH]; intros [|c l]; cbn; try lia. destruct (is_number_char c); cbn; [|lia].
  specialize (IH l). lia.
Qed.

Lemma number_chars_take n l k : (k <= length (number_chars n l))%nat -> Forall (fun c => c <> 0) (take k l).
Proof.
  revert l k. induction n as [|n IH]; intros [|c l] k; cbn; try (intros Hk; assert (k = 0)%nat as -> by lia; apply Forall_nil_2).
  destruct (is_number_char c) eqn:E; cbn; intros Hk; [|assert (k = 0)%nat as -> by lia; apply Forall_nil_2].
  destruct k as [|k]; [apply Forall_nil_2|]. cbn. constructor; [by intros ->|apply IH; lia].
Qed.

Lemma parse_number_ok enough l : step_ok enough l (fun j => height j = 0 /\ defined j = true) (parse_number l).
Proof.
  unfold parse_number. destruct (strtod _) as [[d r]|] eqn:E; [|done].
  pose proof (strtod_not_nan _ _ _ E) as Hnan. apply strtod_length in E.
  pose proof (number_chars_length 63 l). unfold step_ok. rewrite length_drop. split; [lia|]. split; [|split; [done|by apply defined_number]].
  intros Ht. apply terminated_drop; [done|]. apply (number_chars_take 63). lia.
Qed.

Lemma scan_string_bound l n k n' k' :
  scan_string l n k = Some (n', k') -> (n <= n' < n + length l)%nat.
Proof.
  remember (length l) as m eqn:Hm. revert l Hm n k. induction m as [m IH] using lt_wf_ind.
  intros l -> n k. destruct l as [|c r]; cbn; [done|]. destruct (c =? 34).
  { intros [= <- <-]. lia. }
  destruct (c =? 92).
  - destruct r as [|d r]; [done|]. intros H. pose proof (IH (length r) ltac:(cbn; lia) r eq_refl _ _ H). cbn. lia.
  - intros H. pose proof (IH (length r) ltac:(cbn; lia) r eq_refl _ _ H). cbn. lia.
Qed.

(** The closing quote is there. *)
Lemma scan_string_quote l n k n' k' : scan_string l n k = Some (n', k') -> l !! (n' - n)%nat = Some 34.
Proof.
  remember (length l) as m eqn:Hm. revert l Hm n k. induction m as [m IH] using lt_wf_ind.
  intros l -> n k. destruct l as [|c r]; cbn [scan_string]; [done|]. destruct (Z.eqb_spec c 34) as [->|Hc].
  { intros [= <- <-]. by rewrite Nat.sub_diag. }
  destruct (c =? 92).
  - destruct r as [|d r]; [done|]. intros H. pose proof (scan_string_bound _ _ _ _ _ H).
    replace (n' - n)%nat with (S (S (n' - S (S n)))) by lia. exact (IH (length r) ltac:(cbn; lia) r eq_refl _ _ H).
  - intros H. pose proof (scan_string_bound _ _ _ _ _ H).
    replace (n' - n)%nat with (S (n' - S n)) by lia. exact (IH (length r) ltac:(cbn; lia) r eq_refl _ _ H).
Qed.

(** Decoding stays before the closing quote, or stops right behind it. *)
Lemma utf16_consumes p n out k : utf16_literal_to_utf8 p n = Some (out, k) -> (1 <= k)%nat /\ Z.of_nat k <= n.
Proof. unfold utf16_literal_to_utf8. repeat case_match; try done; unfold option_map; case_match; try done; intros [= _ <-]; lia. Qed.

Lemma unescape_in_bounds fuel p n : n < Z.of_nat (length p) -> unescape fuel p n <> PastEnd.
Proof.
  revert p n. induction fuel as [|fuel IH]; intros p n Hn; cbn; destruct (n <=? 0) eqn:E; try done;
    (destruct p as [|c r]; [cbn in Hn; lia|]); cbn [length] in Hn.
  - destruct (negb _); [done|]. destruct r as [|d r]; [cbn in Hn; lia|]. repeat case_match; done.
  - assert (forall p' n' out, n' < Z.of_nat (length p') ->
      match unescape fuel p' n' with Parsed t => Parsed (out ++ t) | r => r end <> PastEnd) as Hmore.
    { intros p' n' out Hp'. specialize (IH p' n' Hp'). by destruct (unescape fuel p' n'). }
    destruct (negb _); [apply (Hmore r (n - 1) [c]); lia|]. destruct r as [|d r]; [cbn in Hn; lia|]. cbn [length] in Hn.
    destruct (d =? 117).
    + destruct (utf16_literal_to_utf8 _ n) as [[out k]|] eqn:Eu; [|done]. apply utf16_consumes in Eu. apply Hmore.
      rewrite length_drop. cbn [length]. lia.
    + destruct (escape_char d) as [c'|]; [apply (Hmore r (n - 2) [c']); lia|done].
Qed.

(** With as much fuel as there are characters to decode, decoding ends. *)
Lemma unescape_total fuel p n : n <= Z.of_nat fuel -> unescape fuel p n <> NoFuel.
Proof.
  revert p n. induction fuel as [|fuel IH]; intros p n Hn; cbn; destruct (n <=? 0) eqn:E; try done; [lia|].
  destruct p as [|c r]; [done|].
  assert (forall p' k out, 1 <= k ->
    match unescape fuel p' (n - k) with Parsed t => Parsed (out ++ t) | r => r end <> NoFuel) as Hmore.
  { intros p' k out Hk. specialize (IH p' (n - k)). destruct (unescape fuel p' (n - k)); [done..|].
    intros _. apply IH; [lia|done]. }
  destruct (negb (c =? 92)); [by apply (Hmore _ 1 [c])|]. destruct r as [|d r]; [done|].
  destruct (d =? 117).
  - destruct (utf16_literal_to_utf8 _ n) as [[out k]|] eqn:Eu; [|done]. apply Hmore.
    apply utf16_consumes in Eu. lia.
  - destruct (escape_char d) as [c'|]; [by apply (Hmore _ 2 [c'])|done].
Qed.

Lemma parse_string_ok l : step_ok True l (fun _ => True) (parse_string l).
Proof.
  unfold parse_string. destruct l as [|c r]; [by intros []%terminated_not_nil|]. destruct (negb _) eqn:Ec; [done|].
  destruct (scan_string r 0 0) as [[n k]|] eqn:E; [|done]. pose proof (scan_string_quote _ _ _ _ _ E) as Hq.
  rewrite Nat.sub_0_r in Hq. pose proof (lookup_lt_Some _ _ _ Hq) as Hl.
  pose proof (unescape_total n r (Z.of_nat n)) as Ht. pose proof (unescape_in_bounds n r (Z.of_nat n) ltac:(lia)) as Hb.
  destruct (unescape n r (Z.of_nat n)); cbn; [|done|done|].
  - rewrite length_drop. cbn. split; [lia|]. split; [|done]. intros Hz. apply terminated_cons in Hz; [|intros ->; done].
    rewrite <- (take_drop_middle r n 34 Hq) in Hz. apply terminated_app in Hz; [|done]. by apply terminated_cons in Hz.
  - intros _. by apply Ht.
Qed.

Lemma heights_cons v l : heights (v :: l) = Z.max (height v) (heights l).
Proof. reflexivity. Qed.

Definition shallow (depth h : Z) : Prop := depth <= CJSON_NESTING_LIMIT -> depth + h <= CJSON_NESTING_LIMIT.

Lemma starts_with_length s l : starts_with s l = true -> (length s <= length l)%nat.
Proof.
  unfold starts_with. rewrite bool_decide_eq_true. intros H. apply (f_equal length) in H.
  rewrite length_take in H. lia.
Qed.

Lemma starts_with_rest s l : starts_with s l = true -> Forall (fun c => c <> 0) s -> terminated l -> terminated (drop (length s) l).
Proof. unfold starts_with. rewrite bool_decide_eq_true. intros H Hs Ht. apply terminated_drop; [done|by rewrite H]. Qed.

(** What holds of a tree parsed inside [depth] arrays and objects. *)
Definition tree_ok (depth : Z) (j : json) : Prop := shallow depth (height j) /\ defined j = true.
Definition trees_ok (depth : Z) (l : list json) : Prop := shallow depth (heights l) /\ forallb defined l = true.

Lemma trees_ok_cons depth v l : tree_ok depth v -> trees_ok depth l -> trees_ok depth (v :: l).
Proof.
  intros [H1 D1] [H2 D2]. split; [|cbn; by rewrite D1].
  rewrite heights_cons. unfold shallow in *. lia.
Qed.
Lemma trees_ok_nil depth : trees_ok depth [].
Proof. split; [|done]. unfold shallow, heights. cbn. lia. Qed.

Lemma tree_ok_leaf depth j : height j = 0 -> defined j = true -> tree_ok depth j.
Proof. intros Hh Hd. split; [|done]. unfold shallow. lia. Qed.

Definition parse_value_ok (fuel : nat) : Prop := forall depth l,
  step_ok (2 * length l + 1 <= fuel)%nat l (tree_ok depth) (parse_value fuel depth l).
Definition parse_elements_ok (fuel : nat) : Prop := forall depth l,
  step_ok (2 * length l + 2 <= fuel)%nat l (trees_ok depth) (parse_elements fuel depth l).
Definition parse_members_ok (fuel : nat) : Prop := forall depth l,
  step_ok (2 * length l + 2 <= fuel)%nat l (fun ms => trees_ok depth ms.*2) (parse_members fuel depth l).

(** Behind a character that is not NUL, after white space. *)
Lemma terminated_next l c r : terminated l -> buffer_skip_whitespace l = c :: r -> c <> 0 -> terminated r.
Proof. intros Ht E Hc. apply skip_ws_terminated in Ht. rewrite E in Ht. by apply terminated_cons in Ht. Qed.

Lemma parse_array_step fuel depth c r :
  parse_elements_ok fuel -> c <> 0 -> depth < CJSON_NESTING_LIMIT ->
  step_ok (2 * length (c :: r) + 1 <= S fuel)%nat (c :: r) (tree_ok depth)
    (match buffer_skip_whitespace r with
     | [] => Failed
     | d :: l' => if d =? 93 then Parsed (JArray [], l')
                  else match parse_elements fuel (depth + 1) (d :: l') with
                       | Parsed (es, l'') => Parsed (JArray es, l'')
                       | Failed => Failed | PastEnd => PastEnd | NoFuel => NoFuel end
     end).
Proof.
  intros IHe Hc Hdepth. pose proof (skip_ws_length r) as Hr.
  assert (forall es, trees_ok (depth + 1) es -> tree_ok depth (JArray es)) as Hup.
  { intros es [H1 H2]. split; [rewrite height_array; unfold shallow in *; lia|by rewrite defined_array]. }
  destruct (buffer_skip_whitespace r) as [|d l'] eqn:Ed; [done|]. cbn [length] in Hr. unfold step_ok.
  assert (terminated (c :: r) -> terminated (d :: l')) as Hz.
  { intros Hz. rewrite <- Ed. apply skip_ws_terminated. by apply terminated_cons in Hz. }
  destruct (Z.eqb_spec d 93) as [->|Hd].
  { split; [cbn; lia|]. split; [intros H%Hz; by apply terminated_cons in H|apply Hup, trees_ok_nil]. }
  specialize (IHe (depth + 1) (d :: l')). unfold step_ok in IHe. cbn [length] in *.
  destruct (parse_elements fuel (depth + 1) (d :: l')) as [[es l'']| | |]; [|done|tauto|lia].
  destruct IHe as (H1 & H2 & H3). split; [lia|]. split; [tauto|by apply Hup].
Qed.

Lemma parse_object_step fuel depth c r :
  parse_members_ok fuel -> c <> 0 -> depth < CJSON_NESTING_LIMIT ->
  step_ok (2 * length (c :: r) + 1 <= S fuel)%nat (c :: r) (tree_ok depth)
    (match buffer_skip_whitespace r with
     | [] => Failed
     | d :: l' => if d =? 125 then Parsed (JObject [], l')
                  else match parse_members fuel (depth + 1) (d :: l') with
                       | Parsed (ms, l'') => Parsed (JObject ms, l'')
                       | Failed => Failed | PastEnd => PastEnd | NoFuel => NoFuel end
     end).
Proof.
  intros IHm Hc Hdepth. pose proof (skip_ws_length r) as Hr.
  assert (forall ms, trees_ok (depth + 1) ms.*2 -> tree_ok depth (JObject ms)) as Hup.
  { intros ms [H1 H2]. split; [rewrite height_object; unfold shallow in *; lia|by rewrite defined_object]. }
  destruct (buffer_skip_whitespace r) as [|d l'] eqn:Ed; [done|]. cbn [length] in Hr. unfold step_ok.
  assert (terminated (c :: r) -> terminated (d :: l')) as Hz.
  { intros Hz. rewrite <- Ed. apply skip_ws_terminated. by apply terminated_cons in Hz. }
  destruct (Z.eqb_spec d 125) as [->|Hd].
  { split; [cbn; lia|]. split; [intros H%Hz; by apply terminated_cons in H|apply Hup, trees_ok_nil]. }
  specialize (IHm (depth + 1) (d :: l')). unfold step_ok in IHm. cbn [length] in *.
  destruct (parse_members fuel (depth + 1) (d :: l')) as [[ms l'']| | |]; [|done|tauto|lia].
  destruct IHm as (H1 & H2 & H3). split; [lia|]. split; [tauto|by apply Hup].
Qed.

Lemma parse_value_step fuel :
  parse_elements_ok fuel -> parse_members_ok fuel -> parse_value_ok (S fuel).
Proof.
  intros IHe IHm depth l. cbn [parse_value].
  destruct (starts_with s_null l) eqn:E1; [|destruct (starts_with s_false l) eqn:E2;
    [|destruct (starts_with s_true l) eqn:E3]].
  1-3: match goal with E : starts_with _ _ = true |- _ =>
      pose proof (starts_with_length _ _ E); pose proof (starts_with_rest _ _ E ltac:(repeat constructor; done)) end;
    unfold step_ok; rewrite length_drop; cbn [length s_null s_false s_true] in *;
    split; [lia|split; [done|by apply tree_ok_leaf]].
  destruct l as [|c r]; [done|]. destruct (c =? 34).
  { pose proof (parse_string_ok (c :: r)) as Hs. unfold step_ok in *.
    destruct (parse_string (c :: r)) as [[s l']| | |]; [|done|done|tauto]. split; [apply Hs|split; [apply Hs|by apply tree_ok_leaf]]. }
  destruct (_ || _).
  { pose proof (parse_number_ok (2 * length (c :: r) + 1 <= S fuel)%nat (c :: r)) as Hn. unfold step_ok in *.
    destruct (parse_number (c :: r)) as [[s l']| | |]; [|done..]. destruct Hn as (? & ? & ? & ?).
    split; [done|split; [done|by apply tree_ok_leaf]]. }
  destruct (Z.eqb_spec c 91) as [->|_]; [|destruct (Z.eqb_spec c 123) as [->|_]; [|done]];
    (destruct (Z.leb_spec CJSON_NESTING_LIMIT depth); [done|]); [by apply parse_array_step|by apply parse_object_step].
Qed.

Lemma parse_elements_step fuel :
  parse_value_ok fuel -> parse_elements_ok fuel -> parse_elements_ok (S fuel).
Proof.
  intros IHv IHe depth l. cbn [parse_elements].
  pose proof (skip_ws_length l) as Hl. pose proof (skip_ws_terminated l) as Hz.
  specialize (IHv depth (buffer_skip_whitespace l)). unfold step_ok in *.
  destruct (parse_value fuel depth _) as [[v l1]| | |]; [|done|tauto|lia]. destruct IHv as (L1 & Z1 & T1).
  pose proof (skip_ws_length l1) as Hl1. destruct (buffer_skip_whitespace l1) as [|c l2] eqn:E; [done|].
  pose proof (fun H => terminated_next l1 c l2 H E) as Z2. cbn [length] in *. destruct (Z.eqb_spec c 44) as [->|_].
  - specialize (IHe depth l2). unfold step_ok in *. destruct (parse_elements fuel depth l2) as [[vs l3]| | |]; [|done| |lia].
    + destruct IHe as (L3 & Z3 & T3). split; [lia|]. split; [intros H; by apply Z3, (Z2 (Z1 (Hz H)))|by apply trees_ok_cons].
    + intros H. by apply IHe, (Z2 (Z1 (Hz H))).
  - destruct (Z.eqb_spec c 93) as [->|_]; [|done]. split; [lia|].
    split; [intros H; by apply (Z2 (Z1 (Hz H)))|by apply trees_ok_cons, trees_ok_nil].
Qed.

Lemma parse_members_step fuel :
  parse_value_ok fuel -> parse_members_ok fuel -> parse_members_ok (S fuel).
Proof.
  intros IHv IHm depth l. cbn [parse_members].
  pose proof (skip_ws_length l) as Hl. pose proof (skip_ws_terminated l) as Hz.
  pose proof (parse_string_ok (buffer_skip_whitespace l)) as Hs.
  unfold step_ok in Hs |- *. destruct (parse_string _) as [[k l0]| | |]; [|done|tauto|tauto]. destruct Hs as (L0 & Z0 & _).
  pose proof (skip_ws_length l0) as Hl0. destruct (buffer_skip_whitespace l0) as [|c0 l0'] eqn:E0; [done|].
  pose proof (fun H => terminated_next l0 c0 l0' H E0) as Z0'. destruct (Z.eqb_spec c0 58) as [->|_]; cbn [negb]; [|done].
  pose proof (skip_ws_length l0') as Hl0'. pose proof (skip_ws_terminated l0') as Hz0'.
  specialize (IHv depth (buffer_skip_whitespace l0')). unfold step_ok in *. cbn [length] in *.
  destruct (parse_value fuel depth _) as [[v l1]| | |]; [|done| |lia].
  2:{ intros H. by apply IHv, Hz0', (Z0' (Z0 (Hz H))). }
  destruct IHv as (L1 & Z1 & T1). pose proof (skip_ws_length l1) as Hl1.
  destruct (buffer_skip_whitespace l1) as [|c l2] eqn:E; [done|].
  assert (terminated l -> c <> 0 -> terminated l2) as Z2.
  { intros H. apply (terminated_next l1 c l2); [|done]. by apply Z1, Hz0', (Z0' (Z0 (Hz H))). }
  cbn [length] in *. destruct (Z.eqb_spec c 44) as [->|_].
  - specialize (IHm depth l2). unfold step_ok in *. destruct (parse_members fuel depth l2) as [[vs l3]| | |]; [|done| |lia].
    + destruct IHm as (L3 & Z3 & T3). split; [lia|]. split; [intros H; by apply Z3, Z2|by apply trees_ok_cons].
    + intros H. by apply IHm, Z2.
  - destruct (Z.eqb_spec c 125) as [->|_]; [|done]. split; [lia|].
    split; [intros H; by apply Z2|by apply trees_ok_cons, trees_ok_nil].
Qed.

Lemma parse_ok fuel : parse_value_ok fuel /\ parse_elements_ok fuel /\ parse_members_ok fuel.
Proof.
  induction fuel as [|fuel (IHv & IHe & IHm)].
  - split_and!; intros depth l; cbn; lia.
  - split_and!; [by apply parse_value_step|by apply parse_elements_step|by apply parse_members_step].
Qed.

Lemma skip_bom_length l : (length (skip_utf8_bom l) <= length l)%nat.
Proof. unfold skip_utf8_bom. destruct (_ && _); [|done]. rewrite length_drop. lia. Qed.

Lemma skip_bom_terminated l : terminated l -> terminated (skip_utf8_bom l).
Proof.
  unfold skip_utf8_bom. intros Ht. destruct (Z.leb_spec 5 (Z.of_nat (length l))) as [Hl|]; cbn [andb]; [|done].
  destruct (bool_decide _); [|done]. rewrite <- (take_drop 3 l) in Ht. apply terminated_app in Ht; [done|].
  intros E. apply (f_equal length) in E. rewrite length_drop in E. cbn in E. lia.
Qed.

Lemma parse_answer (value : bytes) :
  match cJSON_ParseWithLengthOpts value with
  | Parsed j => height j <= CJSON_NESTING_LIMIT /\ defined j = true
  | Failed => True
  | PastEnd => ~ terminated value
  | NoFuel => False
  end.
Proof.
  unfold cJSON_ParseWithLengthOpts. set (l := buffer_skip_whitespace _).
  assert (length l <= length value)%nat as Hl.
  { pose proof (skip_ws_length (skip_utf8_bom value)). pose proof (skip_bom_length value). subst l. lia. }
  assert (terminated value -> terminated l) as Hz by (intros H; by apply skip_ws_terminated, skip_bom_terminated).
  destruct (parse_ok (parse_fuel value)) as [Hv _]. specialize (Hv 0 l). unfold step_ok, parse_fuel in *.
  destruct (parse_value _ 0 l) as [[j l']| | |]; [|done|tauto|lia].
  destruct Hv as (_ & _ & Hv & Hd). split; [by apply Hv|done].
Qed.

(** C13. The parser is total and bounded: on every buffer [cJSON_ParseWithLengthOpts] ends,
    and a tree it returns nests no deeper than [CJSON_NESTING_LIMIT] (the bound on its
    recursion) and has no NaN in it, so that every conversion to [valueint] was defined. On a
    buffer that ends with a NUL, such as every string that [cJSON_Parse] is given, it reads
    no byte past the end; on others it may (see [parse_past_end]). *)
Theorem parse_total (value : bytes) :
  match cJSON_ParseWithLengthOpts value with
  | Parsed j => height j <= CJSON_NESTING_LIMIT /\ defined j = true
  | Failed => True
  | PastEnd => ~ terminated value
  | NoFuel => False
  end.
Proof. apply parse_answer. Qed.

(** The buffer [{"a":1,] without a NUL: after a comma at the end [parse_string] reads the
    byte behind the buffer. *)
Lemma parse_past_end : cJSON_ParseWithLengthOpts [123; 34; 97; 34; 58; 49; 44] = PastEnd.
Proof. vm_compute. reflexivity. Qed.

(** ** Integers as doubles *)

Lemma digits2_shift k m : digits2_pos (shift_pos k m) = (digits2_pos m + k)%positive.
Proof.
  unfold shift_pos. induction k as [|k IH] using Pos.peano_ind; cbn; [lia|].
  rewrite Pos.iter_succ. cbn. rewrite IH. lia.
Qed.
Lemma shift_pos_value k m : Zpos (shift_pos k m) = Zpos m * 2 ^ Zpos k.
Proof.
  unfold shift_pos. induction k as [|k IH] using Pos.peano_ind; cbn; [lia|].
  rewrite Pos.iter_succ, Pos2Z.inj_succ, Z.pow_succ_r by lia. rewrite Pos2Z.inj_xO, IH. lia.
Qed.
Lemma digits2_size m : digits2_pos m = Pos.size m.
Proof. induction m as [m IH|m IH|]; cbn; try rewrite IH; reflexivity. Qed.

(** A small integer is the double with a 53-bit significand: no rounding. *)
Lemma of_Z_small (m : positive) (s : bool) :
  Zpos (digits2_pos m) < 53 ->
  exists k, Zpos k = 53 - Zpos (digits2_pos m) /\
    of_Z binary64 (cond_Zopp s (Zpos m)) = S754_finite s (shift_pos k m) (Zneg k).
Proof.
  intros Hd. exists (Z.to_pos (53 - Zpos (digits2_pos m))). set (k := Z.to_pos _).
  assert (Zpos k = 53 - Zpos (digits2_pos m)) as Hk by (unfold k; rewrite Z2Pos.id; lia).
  split; [done|]. unfold of_Z, binary_normalize. cbn [prec emax binary64].
  assert (shl_align m 0 (fexp 53 1024 (Zpos (digits2_pos m) + 0)) = (shift_pos k m, Zneg k)) as Hs.
  { unfold fexp, SpecFloat.emin, shl_align.
    replace (Z.max (Zpos (digits2_pos m) + 0 - 53) (3 - 1024 - 53) - 0) with (Zneg k) by lia.
    replace (Z.max (Zpos (digits2_pos m) + 0 - 53) (3 - 1024 - 53)) with (Zneg k) by lia. done. }
  assert (shr_fexp 53 1024 (Zpos (shift_pos k m)) (Zneg k) loc_Exact =
    (Build_shr_record (Zpos (shift_pos k m)) false false, Zneg k)) as Hr.
  { unfold shr_fexp, fexp, SpecFloat.emin, Zdigits2. rewrite digits2_shift.
    replace (Z.max _ _ - Zneg k) with 0 by lia. done. }
  assert (binary_round_aux 53 1024 s (Zpos (shift_pos k m)) (Zneg k) loc_Exact =
    S754_finite s (shift_pos k m) (Zneg k)) as Ha.
  { unfold binary_round_aux. rewrite Hr. cbn [loc_of_shr_record shr_m shr_r shr_s round_nearest_even].
    rewrite Hr. cbn [shr_m]. rewrite (proj2 (Z.leb_le (Zneg k) (1024 - 53))) by lia. done. }
  assert (binary_round 53 1024 s m 0 = S754_finite s (shift_pos k m) (Zneg k)) as Hb
    by (unfold binary_round; rewrite Hs; exact Ha).
  destruct s; exact Hb.
Qed.

Lemma small_digits (m : positive) : Zpos m <= 2 ^ 31 -> Zpos (digits2_pos m) < 53.
Proof.
  intros Hm. rewrite digits2_size. pose proof (Pos.size_le m) as H.
  destruct (Z.lt_ge_cases (Zpos (Pos.size m)) 53) as [|Hge]; [done|exfalso].
  assert (2 ^ 53 <= 2 ^ Zpos (Pos.size m)) by (apply Z.pow_le_mono_r; lia).
  assert (2 ^ Zpos (Pos.size m) <= 2 * Zpos m).
  { change 2 with (Zpos 2) at 1. rewrite <- Pos2Z.inj_pow. lia. }
  lia.
Qed.

Definition int_range (n : Z) : Prop := INT_MIN <= n <= INT_MAX.

Lemma int_cases n : int_range n -> n = 0 \/ exists s m, n = cond_Zopp s (Zpos m) /\ Zpos m <= 2 ^ 31.
Proof.
  unfold int_range, INT_MIN, INT_MAX. intros Hn. destruct n as [|m|m]; [auto|..]; right.
  - exists false, m. cbn [cond_Zopp]. lia.
  - exists true, m. cbn [cond_Zopp Z.opp]. lia.
Qed.

Lemma trunc_of_Z n : int_range n -> trunc (of_Z binary64 n) = Some n.
Proof.
  intros Hn. destruct (int_cases n Hn) as [-> |(s & m & -> & Hm)]; [done|].
  destruct (of_Z_small m s (small_digits m Hm)) as (k & Hk & ->). cbn [trunc].
  rewrite (proj2 (Z.leb_gt 0 (Zneg k))) by lia. rewrite shift_pos_value.
  replace (- Zneg k) with (Zpos k) by lia. rewrite Z.div_mul by lia. destruct s; reflexivity.
Qed.

Lemma saturate_of_Z n : int_range n -> saturate (of_Z binary64 n) = Some n.
Proof.
  intros Hn. pose proof (trunc_of_Z n Hn) as Ht. unfold saturate, int_range in *.
  destruct (of_Z binary64 n) as [| | |]; try discriminate Ht; rewrite Ht;
    (destruct (INT_MAX <=? n) eqn:E1; [f_equal; lia|destruct (n <=? INT_MIN) eqn:E2; f_equal; lia]).
Qed.

Lemma SFeqb_of_Z n : int_range n -> SFeqb (of_Z binary64 n) (of_Z binary64 n) = true.
Proof.
  intros Hn. destruct (int_cases n Hn) as [-> |(s & m & -> & Hm)]; [done|].
  destruct (of_Z_small m s (small_digits m Hm)) as (k & Hk & ->).
  unfold SFeqb. cbn [SFcompare]. rewrite Z.compare_refl.
  destruct s; rewrite Pos.compare_cont_refl; reflexivity.
Qed.

(** ** Printing and reading integers *)

(** [f] holds on the first character, if any. *)
Definition heads (f : Z -> bool) (l : bytes) : bool := match l with [] => true | c :: _ => f c end.

Lemma digits_cons acc k c s :
  is_digit c = true -> digits acc k (c :: s) = digits (10 * acc + (c - 48)) (k + 1) s.
Proof. cbn. by intros ->. Qed.

Lemma digits_stop acc k s : heads (fun c => negb (is_digit c)) s = true -> digits acc k s = (acc, k, s).
Proof. destruct s as [|c s]; cbn; [done|]. by destruct (is_digit c). Qed.

Lemma dec_digits_app fuel n acc : dec_digits fuel n acc = dec_digits fuel n [] ++ acc.
Proof.
  revert n acc. induction fuel as [|fuel IH]; intros n acc; [done|]. cbn [dec_digits].
  destruct (n <? 10); [done|]. rewrite IH, (IH _ [_]), <- app_assoc. done.
Qed.

Lemma digit_of_mod n : is_digit (48 + n mod 10) = true.
Proof. unfold is_digit. pose proof (Z.mod_pos_bound n 10). lia. Qed.

(** Reading back the digits written. *)
Lemma digits_dec fuel n a k s :
  0 <= n < 2 ^ Z.of_nat fuel ->
  digits a k (dec_digits fuel n [] ++ s) =
    digits (a * 10 ^ Z.of_nat (length (dec_digits fuel n [])) + n)
      (k + Z.of_nat (length (dec_digits fuel n []))) s.
Proof.
  revert n a k s. induction fuel as [|fuel IH]; intros n a k s Hn.
  { cbn. f_equal; cbn in Hn; lia. }
  pose proof (digit_of_mod n) as Hd. pose proof (Z.div_mod n 10 ltac:(lia)) as Hdm.
  cbn [dec_digits]. destruct (n <? 10) eqn:E.
  - cbn [app length]. rewrite digits_cons by done. rewrite Z.mod_small by lia. f_equal; lia.
  - rewrite (dec_digits_app fuel (n / 10)), <- app_assoc. cbn [app].
    rewrite IH by (rewrite Nat2Z.inj_succ, Z.pow_succ_r in Hn by lia; split; [apply Z.div_pos; lia|apply Z.div_lt_upper_bound; lia]).
    rewrite digits_cons by done. rewrite length_app. cbn [length].
    rewrite Nat.add_1_r, Nat2Z.inj_succ, Z.pow_succ_r by lia. f_equal; [|lia].
    set (p := 10 ^ _). nia.
Qed.

Lemma dec_digits_chars fuel n : forallb is_digit (dec_digits fuel n []) = true.
Proof.
  revert n. induction fuel as [|fuel IH]; intros n; [done|]. cbn [dec_digits].
  pose proof (digit_of_mod n) as Hd. destruct (n <? 10); [cbn; by rewrite Hd|].
  rewrite dec_digits_app, forallb_app, IH. cbn. by rewrite Hd.
Qed.

Lemma dec_digits_length fuel n k :
  0 <= n < 10 ^ Z.of_nat k -> (1 <= k)%nat -> (length (dec_digits fuel n []) <= k)%nat.
Proof.
  revert n k. induction fuel as [|fuel IH]; intros n k Hn Hk; cbn [dec_digits length]; [lia|].
  destruct (n <? 10) eqn:E; [cbn; lia|].
  rewrite dec_digits_app, length_app. cbn [length].
  destruct k as [|[|k]]; [lia|cbn in Hn; lia|].
  rewrite Nat2Z.inj_succ, Z.pow_succ_r in Hn by lia.
  assert (length (dec_digits fuel (n / 10) []) <= S k)%nat; [|lia].
  apply IH; [|lia]. split; [apply Z.div_pos; lia|apply Z.div_lt_upper_bound; lia].
Qed.

Lemma decimal_fuel n : 0 <= n -> n < 2 ^ Z.of_nat (S (Z.to_nat (Z.log2 n))).
Proof.
  intros Hn. rewrite Nat2Z.inj_succ, Z2Nat.id by apply Z.log2_nonneg.
  destruct (Z.eq_dec n 0) as [->|]; [done|]. apply Z.log2_spec. lia.
Qed.

(** A printed number starts with a digit. *)
Lemma decimal_of_cons n : exists c r, decimal_of n = c :: r /\ is_digit c = true.
Proof.
  pose proof (dec_digits_chars (S (Z.to_nat (Z.log2 n))) n) as Hc. unfold decimal_of.
  destruct (dec_digits _ n []) as [|c r] eqn:E.
  - exfalso. cbn [dec_digits] in E. destruct (n <? 10); [done|].
    rewrite dec_digits_app in E. by apply app_nil in E as [_ ?].
  - exists c, r. split; [done|]. cbn in Hc. by apply andb_prop in Hc as [? _].
Qed.

Lemma decimal_int s p : decimal s (Zpos p) (0 - 0) = of_Z binary64 (cond_Zopp s (Zpos p)).
Proof.
  change (decimal s (Zpos p) (0 - 0)) with (binary_normalize 53 1024 (cond_Zopp s (Zpos p * 1)) 0 s).
  rewrite Z.mul_1_r. by destruct s.
Qed.

Lemma strtod_sprintf_d n : int_range n -> strtod (sprintf_d n) = Some (of_Z binary64 n, []).
Proof.
  intros Hn. unfold sprintf_d.
  assert (forall m, 0 <= m -> exists k, 0 < k /\ digits 0 0 (decimal_of m) = (m, k, [])) as Hd.
  { intros m Hm. exists (Z.of_nat (length (decimal_of m))).
    destruct (decimal_of_cons m) as (c & r & E & _). split; [rewrite E; cbn; lia|].
    pose proof (digits_dec (S (Z.to_nat (Z.log2 m))) m 0 0 []) as H.
    rewrite app_nil_r in H. unfold decimal_of. rewrite H by (split; [lia|by apply decimal_fuel]). done. }
  destruct (n <? 0) eqn:E; unfold strtod.
  - cbn [Z.eqb Pos.eqb]. destruct (Hd (- n)) as (k & Hk & ->); [lia|]. cbn [exponent].
    replace (k + 0 =? 0) with false by lia. do 2 f_equal.
    destruct n as [|p|p]; [discriminate E..|]. exact (decimal_int true p).
  - destruct (decimal_of_cons n) as (c & r & Ec & Hc). rewrite Ec. unfold is_digit in Hc.
    replace (c =? 45) with false by lia. replace (c =? 43) with false by lia. rewrite <- Ec.
    destruct (Hd n) as (k & Hk & ->); [lia|]. cbn [exponent].
    replace (k + 0 =? 0) with false by lia. do 2 f_equal.
    destruct n as [|p|p]; [done| |discriminate E]. exact (decimal_int false p).
Qed.

Lemma sprintf_d_chars n :
  int_range n -> (length (sprintf_d n) <= 11)%nat /\ forallb is_number_char (sprintf_d n) = true.
Proof.
  intros Hn.
  assert (forall m, 0 <= m < 10 ^ 10 -> (length (decimal_of m) <= 10)%nat) as Hl.
  { intros m Hm. apply dec_digits_length; [exact Hm|lia]. }
  assert (forall m, forallb is_number_char (decimal_of m) = true) as Hc.
  { intros m. pose proof (dec_digits_chars (S (Z.to_nat (Z.log2 m))) m) as H. unfold decimal_of.
    rewrite forallb_forall in H |- *. intros c Hin. unfold is_number_char. by rewrite (H c Hin). }
  unfold int_range, INT_MIN, INT_MAX in Hn. unfold sprintf_d. destruct (n <? 0) eqn:E; cbn [length forallb].
  - rewrite Hc. split; [|done]. specialize (Hl (- n)). lia.
  - rewrite Hc. split; [|done]. specialize (Hl n). lia.
Qed.

Lemma number_chars_app n s rest :
  forallb is_number_char s = true -> (length s <= n)%nat ->
  heads (fun c => negb (is_number_char c)) rest = true -> number_chars n (s ++ rest) = s.
Proof.
  revert n. induction s as [|c s IH]; intros n Hs Hn Hr; cbn.
  - destruct n, rest as [|c r]; cbn in *; try done. by destruct (is_number_char c).
  - cbn in Hs, Hn. apply andb_prop in Hs as [Hc Hs]. destruct n as [|n]; [lia|]. cbn. rewrite Hc.
    f_equal. apply IH; [done|lia|done].
Qed.

Lemma parse_number_print n rest :
  int_range n -> heads (fun c => negb (is_number_char c)) rest = true ->
  parse_number (sprintf_d n ++ rest) = Parsed (JNumber (of_Z binary64 n), rest).
Proof.
  intros Hn Hr. destruct (sprintf_d_chars n Hn) as [Hl Hc]. unfold parse_number.
  rewrite number_chars_app by (try done; lia). rewrite strtod_sprintf_d by done. cbn [length].
  rewrite Nat.sub_0_r, drop_app_length. done.
Qed.

Lemma print_number_int n : int_range n -> print_number (of_Z binary64 n) = Some (sprintf_d n).
Proof.
  intros Hn. unfold print_number. pose proof (saturate_of_Z n Hn) as Hs. pose proof (SFeqb_of_Z n Hn) as Hf.
  destruct (sprintf_d_chars n Hn) as [Hl _]. pose proof (trunc_of_Z n Hn) as Ht.
  destruct (of_Z binary64 n) eqn:Eo; try discriminate Ht; rewrite Hs, Eo, Hf;
    (destruct (25 <? _) eqn:E; [lia|done]).
Qed.

(** ** Printing and reading strings *)

Definition char_ok (c : Z) : Prop := 1 <= c <= 255.

Lemma hex_digit_char d : 0 <= d < 16 -> hex_digit (hex_char d) = Some d.
Proof.
  intros Hd. unfold hex_digit, hex_char. destruct (d <? 10) eqn:E.
  - rewrite (proj2 (andb_true_iff _ _)) by lia. f_equal. lia.
  - destruct ((48 <=? 87 + d) && _) eqn:E1; [lia|]. destruct ((65 <=? 87 + d) && _) eqn:E2; [lia|].
    rewrite (proj2 (andb_true_iff _ _)) by lia. f_equal. lia.
Qed.

Lemma parse_hex4_char c t :
  0 <= c < 256 -> parse_hex4 (48 :: 48 :: hex_char (c / 16) :: hex_char (c mod 16) :: t) = c.
Proof.
  intros Hc. pose proof (Z.div_mod c 16 ltac:(lia)). pose proof (Z.mod_pos_bound c 16 ltac:(lia)).
  assert (0 <= c / 16 < 16) by (split; [apply Z.div_pos; lia|apply Z.div_lt_upper_bound; lia]).
  unfold parse_hex4. cbn [hex4_loop]. rewrite !hex_digit_char by lia.
  change (hex_digit 48) with (Some 0). cbv beta iota. change (Z.shiftl (0 + 0) 4) with 0.
  rewrite Z.shiftl_mul_pow2 by lia. change (Z.shiftl (0 + 0) 4) with 0. lia.
Qed.

(** The escape of one character is passed over by the scan. *)
Lemma scan_escape c t n k :
  char_ok c -> exists k', scan_string (escape c ++ t) n k = scan_string t (n + length (escape c))%nat k'.
Proof.
  intros Hc. unfold char_ok, escape in *. destruct (_ && _) eqn:E.
  { exists k. cbn. replace (c =? 34) with false by lia. replace (c =? 92) with false by lia.
    by rewrite Nat.add_1_r. }
  repeat (match goal with |- context [if ?b then _ else _] => lazymatch b with c =? _ => destruct b end end;
    [exists (S k); cbn; by rewrite Nat.add_comm|]).
  assert (forall d, 0 <= d < 16 -> (hex_char d =? 34) = false /\ (hex_char d =? 92) = false) as Hh.
  { intros d Hd. unfold hex_char. destruct (d <? 10) eqn:Ed; lia. }
  assert (0 <= c < 32) as Hc' by lia.
  destruct (Hh (c / 16)) as [H1 H2]; [split; [apply Z.div_pos; lia|apply Z.div_lt_upper_bound; lia]|].
  destruct (Hh (c mod 16)) as [H3 H4]; [apply Z.mod_pos_bound; lia|].
  exists (S k). cbn [app scan_string Z.eqb Pos.eqb length]. rewrite H1, H2, H3, H4. f_equal. lia.
Qed.

Lemma scan_print s t n k :
  Forall char_ok s ->
  exists k', scan_string (flat_map escape s ++ 34 :: t) n k = Some ((n + length (flat_map escape s))%nat, k').
Proof.
  intros Hs. revert n k. induction Hs as [|c s Hc Hs IH]; intros n k; cbn [flat_map app].
  { exists k. cbn. by rewrite Nat.add_0_r. }
  rewrite <- app_assoc. destruct (scan_escape c (flat_map escape s ++ 34 :: t) n k Hc) as [k1 ->].
  destruct (IH (n + length (escape c))%nat k1) as [k2 ->]. exists k2. rewrite length_app. do 2 f_equal. lia.
Qed.

(** One turn of the decoding loop undoes one escape. *)
Lemma unescape_escape c fuel t n :
  char_ok c -> Z.of_nat (length (escape c)) <= n ->
  unescape (S fuel) (escape c ++ t) n =
    match unescape fuel t (n - Z.of_nat (length (escape c))) with Parsed s => Parsed (c :: s) | r => r end.
Proof.
  intros Hc Hn. unfold char_ok, escape in *. destruct (_ && _) eqn:E.
  { cbn [length] in *. cbn [unescape app]. replace (n <=? 0) with false by lia.
    replace (c =? 92) with false by lia. done. }
  repeat (match goal with |- context [if ?b then _ else _] => lazymatch b with c =? _ => destruct b eqn:? end end;
    [cbn [length] in *; cbn [unescape app]; replace (n <=? 0) with false by lia;
     match goal with H : (c =? _) = true |- _ => apply Z.eqb_eq in H; subst c end; done|]).
  assert (0 <= c < 32) as Hc' by lia. cbn [length] in *. cbn [unescape app].
  replace (n <=? 0) with false by lia. cbn [Z.eqb Pos.eqb negb].
  unfold utf16_literal_to_utf8. replace (n <? 6) with false by lia. cbn [drop].
  rewrite parse_hex4_char by lia.
  replace ((56320 <=? c) && _) with false by lia. replace ((55296 <=? c) && _) with false by lia.
  unfold encode_utf8. replace (c <? 128) with true by lia.
  assert (Z.land c 0x7F = c) as ->; [|done].
  change 0x7F with (Z.ones 7). rewrite Z.land_ones by lia. apply Z.mod_small. lia.
Qed.

Lemma escape_length c : (1 <= length (escape c))%nat.
Proof. unfold escape. destruct (_ && _); cbn; lia. Qed.

Lemma unescape_print s fuel t :
  Forall char_ok s -> (length (flat_map escape s) <= fuel)%nat ->
  unescape fuel (flat_map escape s ++ t) (Z.of_nat (length (flat_map escape s))) = Parsed s.
Proof.
  intros Hs. revert fuel. induction Hs as [|c s Hc Hs IH]; intros fuel Hf; cbn [flat_map] in *.
  { destruct fuel; reflexivity. }
  rewrite length_app in *. pose proof (escape_length c). destruct fuel as [|fuel]; [lia|].
  rewrite <- app_assoc, unescape_escape by (try done; lia).
  replace (Z.of_nat _ - _) with (Z.of_nat (length (flat_map escape s))) by lia.
  rewrite IH by lia. done.
Qed.

Lemma c_string_id s : Forall char_ok s -> c_string s = s.
Proof.
  induction 1 as [|c s Hc Hs IH]; [done|]. cbn. unfold char_ok in Hc.
  replace (c =? 0) with false by lia. by rewrite IH.
Qed.

Lemma parse_string_print s rest :
  Forall char_ok s -> parse_string (print_string_ptr s ++ rest) = Parsed (s, rest).
Proof.
  intros Hs. unfold print_string_ptr. rewrite <- !app_assoc. cbn [app parse_string Z.eqb Pos.eqb negb].
  destruct (scan_print s rest 0 0 Hs) as [k ->]. cbn [Nat.add].
  rewrite unescape_print by (try done; lia). rewrite c_string_id by done.
  cbn [drop]. change (34 :: rest) with ([34] ++ rest). rewrite app_assoc.
  do 2 f_equal. rewrite drop_app_ge; rewrite ?length_app; cbn [length]; [|lia].
  by replace (_ - _)%nat with 0%nat by lia.
Qed.

(** ** Printing and reading values *)

(** The values the firmware builds: integers, strings without a NUL, and objects and
    arrays of them. *)
Inductive printable : json -> Prop :=
  | printable_false : printable JFalse
  | printable_true : printable JTrue
  | printable_null : printable JNull
  | printable_number n : int_range n -> printable (JNumber (of_Z binary64 n))
  | printable_string s : Forall char_ok s -> printable (JString s)
  | printable_array l : Forall printable l -> printable (JArray l)
  | printable_object l : Forall (fun kv => Forall char_ok kv.1 /\ printable kv.2) l -> printable (JObject l).

Fixpoint print_elements (l : list json) : option bytes :=
  match l with
  | [] => Some [93]
  | v :: l => match print_value v, print_elements l with
              | Some s, Some t => Some (s ++ (match l with [] => [] | _ => [44] end) ++ t)
              | _, _ => None
              end
  end.
Fixpoint print_members (l : list (bytes * json)) : option bytes :=
  match l with
  | [] => Some [125]
  | (k, v) :: l =>
      match print_value v, print_members l with
      | Some s, Some t =>
          Some (print_string_ptr k ++ [58] ++ s ++ (match l with [] => [] | _ => [44] end) ++ t)
      | _, _ => None
      end
  end.
Lemma print_array l : print_value (JArray l) = option_map (cons 91) (print_elements l).
Proof. reflexivity. Qed.
Lemma print_object l : print_value (JObject l) = option_map (cons 123) (print_members l).
Proof. reflexivity. Qed.

(** A printed value starts with an ASCII character that is neither white space nor a
    closing bracket. *)
Definition opens (c : Z) : bool := (32 <? c) && (c <? 128) && negb (c =? 93) && negb (c =? 125).

Lemma print_value_head j p : printable j -> print_value j = Some p -> p <> [] /\ heads opens p = true.
Proof.
  intros Hj. destruct Hj as [| | |n Hn|s Hs|l Hl|l Hl]; try (intros [= <-]; done).
  - cbn [print_value]. rewrite print_number_int by done. intros [= <-]. unfold sprintf_d.
    destruct (n <? 0); [done|]. destruct (decimal_of_cons n) as (c & r & -> & Hc).
    unfold is_digit in Hc. split; [done|]. unfold heads, opens. lia.
  - rewrite print_array. destruct (print_elements l); intros [= <-]; done.
  - rewrite print_object. destruct (print_members l); intros [= <-]; done.
Qed.

Lemma skip_ws_opens p t : p <> [] -> heads opens p = true -> buffer_skip_whitespace (p ++ t) = p ++ t.
Proof.
  intros Hp Hh. destruct p as [|c p]; [done|]. cbn in *. unfold opens in Hh.
  replace (c <=? 32) with false by lia. done.
Qed.

(** Text that may follow a value. *)
Definition follows (l : bytes) : bool := heads (fun c => negb (is_number_char c)) l.

Definition reads (j : json) : Prop := forall fuel depth p rest,
  printable j -> print_value j = Some p -> depth + height j <= CJSON_NESTING_LIMIT ->
  (2 * length p + 1 <= fuel)%nat -> follows rest = true ->
  parse_value fuel depth (p ++ rest) = Parsed (j, rest).

Lemma starts_with_head s c d l : c <> d -> starts_with (d :: s) (c :: l) = false.
Proof. intros Hne. unfold starts_with. apply bool_decide_eq_false. cbn. intros [= ? ?]. done. Qed.

(** The tests of [parse_value] on a first character that no literal starts with. *)
Lemma parse_value_other fuel depth c r :
  c <> 110 -> c <> 102 -> c <> 116 ->
  parse_value (S fuel) depth (c :: r) =
    if c =? 34 then match parse_string (c :: r) with
                    | Parsed (s, l') => Parsed (JString s, l') | Failed => Failed | PastEnd => PastEnd | NoFuel => NoFuel end
    else if (c =? 45) || is_digit c then parse_number (c :: r)
    else if c =? 91 then
      if CJSON_NESTING_LIMIT <=? depth then Failed
      else match buffer_skip_whitespace r with
           | [] => Failed
           | d :: l' => if d =? 93 then Parsed (JArray [], l')
                        else match parse_elements fuel (depth + 1) (d :: l') with
                             | Parsed (es, l'') => Parsed (JArray es, l'') | Failed => Failed | PastEnd => PastEnd | NoFuel => NoFuel end
           end
    else if c =? 123 then
      if CJSON_NESTING_LIMIT <=? depth then Failed
      else match buffer_skip_whitespace r with
           | [] => Failed
           | d :: l' => if d =? 125 then Parsed (JObject [], l')
                        else match parse_members fuel (depth + 1) (d :: l') with
                             | Parsed (ms, l'') => Parsed (JObject ms, l'') | Failed => Failed | PastEnd => PastEnd | NoFuel => NoFuel end
           end
    else Failed.
Proof.
  intros H1 H2 H3. cbn [parse_value]. unfold s_null, s_false, s_true.
  rewrite !starts_with_head by done. done.
Qed.

Lemma heights_nonneg l : 0 <= heights l.
Proof. induction l as [|v l IH]; [done|rewrite heights_cons; lia]. Qed.

Lemma reads_elements l fuel depth p rest :
  Forall reads l -> l <> [] -> Forall printable l -> print_elements l = Some p ->
  depth + heights l <= CJSON_NESTING_LIMIT -> (2 * length p + 2 <= fuel)%nat ->
  parse_elements fuel depth (p ++ rest) = Parsed (l, rest).
Proof.
  intros Hr. revert fuel p. induction Hr as [|v l Hv Hr IH]; intros fuel p Hne Hp Hpr Hh Hf; [done|].
  apply Forall_cons in Hp as [Hpv Hp]. rewrite heights_cons in Hh. cbn [print_elements] in Hpr.
  destruct (print_value v) as [s|] eqn:Es; [|done]. destruct (print_elements l) as [t|] eqn:Et; [|done].
  injection Hpr as <-. destruct (print_value_head v s Hpv Es) as [Hs1 Hs2].
  destruct fuel as [|fuel]; [lia|]. cbn [parse_elements]. rewrite !length_app in Hf.
  rewrite <- !app_assoc, skip_ws_opens by done.
  rewrite (Hv fuel depth s); [|done|done|lia|lia|destruct l; [by injection Et as <-|done]].
  destruct l as [|w l].
  - injection Et as <-. done.
  - cbn [app buffer_skip_whitespace Z.leb Z.compare Pos.compare Pos.compare_cont Z.eqb Pos.eqb].
    cbn [length app] in Hf. rewrite IH by (try done; lia). done.
Qed.

Lemma reads_members l fuel depth p rest :
  Forall (fun kv => reads kv.2) l -> l <> [] ->
  Forall (fun kv => Forall char_ok kv.1 /\ printable kv.2) l -> print_members l = Some p ->
  depth + heights l.*2 <= CJSON_NESTING_LIMIT -> (2 * length p + 2 <= fuel)%nat ->
  parse_members fuel depth (p ++ rest) = Parsed (l, rest).
Proof.
  intros Hr. revert fuel p. induction Hr as [|[k v] l Hv Hr IH]; intros fuel p Hne Hp Hpr Hh Hf; [done|].
  apply Forall_cons in Hp as [[Hk Hpv] Hp]. cbn [fst snd fmap list_fmap] in *.
  rewrite heights_cons in Hh. cbn [print_members] in Hpr.
  destruct (print_value v) as [s|] eqn:Es; [|done]. destruct (print_members l) as [t|] eqn:Et; [|done].
  apply (inj Some) in Hpr as <-. destruct (print_value_head v s Hpv Es) as [Hs1 Hs2].
  destruct fuel as [|fuel]; [lia|]. cbn [parse_members]. rewrite !length_app in Hf. cbn [length] in Hf.
  rewrite <- !app_assoc, skip_ws_opens by (by unfold print_string_ptr).
  rewrite parse_string_print by done. cbn [app buffer_skip_whitespace Z.leb Z.compare Pos.compare Pos.compare_cont Z.eqb Pos.eqb negb].
  rewrite skip_ws_opens by done.
  rewrite (Hv fuel depth s); [|done|done|lia|lia|destruct l; [by injection Et as <-|done]].
  destruct l as [|w l].
  - injection Et as <-. done.
  - cbn [app buffer_skip_whitespace Z.leb Z.compare Pos.compare Pos.compare_cont Z.eqb Pos.eqb].
    cbn [length app] in Hf. rewrite IH by (try done; lia). done.
Qed.

Lemma reads_number n : int_range n -> reads (JNumber (of_Z binary64 n)).
Proof.
  intros Hn fuel depth p rest Hj Hp Hh Hf Hrest. destruct fuel as [|fuel]; [lia|].
  cbn [print_value] in Hp. rewrite print_number_int in Hp by done. injection Hp as <-.
  rewrite <- (parse_number_print n rest) by done.
  destruct (print_value_head _ _ Hj (print_number_int n Hn)) as [Hne Hhd].
  destruct (sprintf_d n) as [|c r] eqn:E; [done|].
  assert (((c =? 45) || is_digit c = true) /\ c <> 110 /\ c <> 102 /\ c <> 116 /\ c <> 34) as (H1 & H2 & H3 & H4 & H5).
  { revert E. unfold sprintf_d. destruct (n <? 0); [intros [= <- _]; done|].
    destruct (decimal_of_cons n) as (c' & r' & -> & Hc'). intros [= <- _]. rewrite Hc', orb_true_r.
    unfold is_digit in Hc'. lia. }
  cbn [app]. rewrite parse_value_other by done. replace (c =? 34) with false by lia. by rewrite H1.
Qed.

Lemma reads_string s : Forall char_ok s -> reads (JString s).
Proof.
  intros Hs fuel depth p rest Hj Hp Hh Hf Hrest. destruct fuel as [|fuel]; [lia|]. injection Hp as <-.
  change (34 :: (flat_map escape s ++ [34]) ++ rest) with (print_string_ptr s ++ rest).
  pose proof (parse_string_print s rest Hs) as Hps. unfold print_string_ptr in *. cbn [app] in *.
  rewrite parse_value_other by done. cbn [Z.eqb Pos.eqb]. by rewrite Hps.
Qed.

Lemma print_elements_head l t :
  l <> [] -> Forall printable l -> print_elements l = Some t -> t <> [] /\ heads opens t = true.
Proof.
  intros Hne Hl Et. destruct l as [|v l]; [done|]. cbn [print_elements] in Et. apply Forall_cons in Hl as [Hv _].
  destruct (print_value v) as [s|] eqn:Es; [|done]. destruct (print_elements l); [|done].
  apply (inj Some) in Et as <-. destruct (print_value_head v s Hv Es) as [? ?]. by destruct s.
Qed.

Ltac eval_head :=
  cbn [Z.eqb Pos.eqb orb is_digit Z.leb Z.compare Pos.compare Pos.compare_cont andb buffer_skip_whitespace].

Lemma reads_array l : Forall reads l -> Forall printable l -> reads (JArray l).
Proof.
  intros IH Hl fuel depth p rest Hj Hp Hh Hf Hrest. destruct fuel as [|fuel]; [lia|].
  rewrite print_array in Hp. rewrite height_array in Hh. pose proof (heights_nonneg l).
  destruct (print_elements l) as [t|] eqn:Et; [|done]. apply (inj Some) in Hp as <-.
  cbn [app]. rewrite parse_value_other by done. eval_head.
  rewrite (proj2 (Z.leb_gt CJSON_NESTING_LIMIT depth)) by lia. cbn [length] in Hf.
  destruct (decide (l = [])) as [->|Hne]; [injection Et as <-; done|].
  destruct (print_elements_head l t Hne Hl Et) as [Ht1 Ht2].
  rewrite skip_ws_opens by done. pose proof (reads_elements l fuel (depth + 1) t rest IH Hne Hl Et) as Hr.
  destruct t as [|c t]; [done|]. cbn [heads] in Ht2. unfold opens in Ht2. cbn [app] in *.
  replace (c =? 93) with false by lia. rewrite Hr by lia. done.
Qed.

Lemma reads_object l :
  Forall (fun kv => reads kv.2) l -> Forall (fun kv => Forall char_ok kv.1 /\ printable kv.2) l -> reads (JObject l).
Proof.
  intros IH Hl fuel depth p rest Hj Hp Hh Hf Hrest. destruct fuel as [|fuel]; [lia|].
  rewrite print_object in Hp. rewrite height_object in Hh. pose proof (heights_nonneg l.*2).
  destruct (print_members l) as [t|] eqn:Et; [|done]. apply (inj Some) in Hp as <-.
  cbn [app]. rewrite parse_value_other by done. eval_head.
  rewrite (proj2 (Z.leb_gt CJSON_NESTING_LIMIT depth)) by lia. cbn [length] in Hf.
  destruct (decide (l = [])) as [->|Hne]; [injection Et as <-; done|].
  assert (exists t', t = 34 :: t') as [t' ->].
  { destruct l as [|[k v] l]; [done|]. cbn [print_members] in Et.
    destruct (print_value v) as [s|] eqn:Es; [|done]. destruct (print_members l); [|done].
    injection Et as <-. by eexists. }
  pose proof (reads_members l fuel (depth + 1) (34 :: t') rest IH Hne Hl Et) as Hr. cbn [app] in *.
  eval_head. rewrite Hr by (cbn [length] in *; lia). done.
Qed.

Lemma reads_all j : printable j -> reads j.
Proof.
  induction j as [| | |d|s|l IH|l IH] using json_ind'; intros Hj;
    inversion Hj as [| | |n Hn En|s' Hs|l' Hl|l' Hl]; subst.
  1-3: intros [|fuel] depth p rest _ Hp Hh Hf Hrest; [lia|]; injection Hp as <-; destruct rest; done.
  - by apply reads_number.
  - by apply reads_string.
  - apply reads_array; [|done]. rewrite Forall_forall in IH, Hl |- *. auto.
  - apply reads_object; [|done]. rewrite Forall_forall in IH, Hl |- *. intros kv Hkv. apply IH; [done|by apply Hl].
Qed.

Lemma prints j : printable j -> is_Some (print_value j).
Proof.
  induction j as [| | |d|s|l IH|l IH] using json_ind'; intros Hj;
    inversion Hj as [| | |n Hn En|s' Hs|l' Hl|l' Hl]; subst; try (eexists; reflexivity).
  - cbn [print_value]. rewrite print_number_int by done. by eexists.
  - rewrite print_array. assert (is_Some (print_elements l)) as [t ->]; [|by eexists].
    clear Hj. induction IH as [|v l Hv _ IHl]; [by eexists|]. apply Forall_cons in Hl as [Hpv Hl]. cbn [print_elements].
    destruct (Hv Hpv) as [s ->], (IHl Hl) as [t ->]. by eexists.
  - rewrite print_object. assert (is_Some (print_members l)) as [t ->]; [|by eexists].
    clear Hj. induction IH as [|[k v] l Hv _ IHl]; [by eexists|]. apply Forall_cons in Hl as [[_ Hpv] Hl]. cbn [print_members snd] in *.
    destruct (Hv Hpv) as [s ->], (IHl Hl) as [t ->]. by eexists.
Qed.

Lemma print_parse_tree (j : json) :
  printable j -> height j <= CJSON_NESTING_LIMIT ->
  exists p, cJSON_PrintUnformatted j = Some p /\ cJSON_Parse p = Some j.
Proof.
  intros Hj Hh. destruct (prints j Hj) as [p Hp]. exists p. split; [exact Hp|].
  destruct (print_value_head j p Hj Hp) as [Hne Hhd]. unfold cJSON_Parse, cJSON_ParseWithLengthOpts.
  assert (skip_utf8_bom (p ++ [0]) = p ++ [0]) as ->.
  { unfold skip_utf8_bom. destruct p as [|c p]; [done|]. cbn [heads] in Hhd. unfold opens in Hhd.
    rewrite bool_decide_false, andb_false_r; [done|]. cbn. intros [= -> _]. done. }
  rewrite skip_ws_opens by done. rewrite (reads_all j Hj) by (try done; unfold parse_fuel; rewrite ?length_app; lia).
  done.
Qed.

(** C14. Printing and parsing are inverse: a tree of integers, strings without NUL, arrays
    and objects, nested within the limit, prints, and [cJSON_Parse] of the text gives the
    tree back. *)
Theorem print_parse (j : json) :
  printable j -> height j <= CJSON_NESTING_LIMIT ->
  exists p, cJSON_PrintUnformatted j = Some p /\ cJSON_Parse p = Some j.
Proof. apply print_parse_tree. Qed.

Lemma print_parse_witness :
  let j := JObject [([97], JArray [JNumber (of_Z binary64 1); JNumber (of_Z binary64 (-20))]); ([98], JString [10])] in
  printable j /\ height j <= CJSON_NESTING_LIMIT /\
  exists p, cJSON_PrintUnformatted j = Some p /\ cJSON_Parse p = Some j.
Proof.
  intros j. assert (printable j) as Hj.
  { unfold j. repeat constructor; unfold int_range, char_ok, INT_MIN, INT_MAX; lia. }
  split; [exact Hj|]. split; [done|]. apply (print_parse j Hj). done.
Defined.

(** ** Members of parsed trees *)

Lemma parse_defined text j : cJSON_Parse text = Some j -> defined j = true.
Proof.
  unfold cJSON_Parse. pose proof (parse_answer (text ++ [0])) as H.
  destruct (cJSON_ParseWithLengthOpts _); [|done..]. intros [= ->]. apply H.
Qed.

Lemma defined_item root name node :
  defined root = true -> cJSON_GetObjectItem (Some root) name = Some node -> defined node = true.
Proof.
  destruct root as [| | | | | |l]; try done. rewrite defined_object. cbn.
  induction l as [|[k v] l IH]; cbn; [done|]. rewrite andb_true_iff. intros [Hv Hl].
  destruct (case_insensitive_eq name k); [by intros [= <-]|by apply IH].
Qed.

Lemma valueint_defined j : defined j = true -> exists v, valueint j = Some v /\ int_range v.
Proof.
  unfold int_range, INT_MIN, INT_MAX. destruct j as [| | |d| | |]; intros Hd;
    try (eexists; split; [reflexivity|lia]).
  destruct d as [s|s| |s m e]; [| |done|]; cbn [valueint saturate trunc].
  - eexists. split; [reflexivity|]. done.
  - eexists. split; [reflexivity|]. unfold INT_MIN, INT_MAX. destruct s; lia.
  - eexists. split; [reflexivity|]. unfold INT_MIN, INT_MAX. repeat case_match; lia.
Qed.
