(* ===== verification/JsonFormat.v ===== *)
(** * Formatted printing and minification

    The formatted printer of [packages/cJSON-v1.7.17/cJSON.c] ([cJSON_Print]: [print_value]
    and its helpers with [format] set) and [cJSON_Minify]. What is printed with white space
    parses to the tree, like what is printed without; and minifying it gives the text
    printed without, unless a string ends in a backslash. *)

From stdpp Require Import base numbers list.
From Stdlib Require Import ZArith Lia Floats.SpecFloat.
From S2P Require Import Prelude CFloat Json.

Open Scope Z_scope.

(** ** The printer *)

Definition tabs (depth : nat) : bytes := replicate depth 9.

(** [depth] is [output_buffer->depth]. *)
Fixpoint print_formatted (depth : nat) (j : json) : option bytes :=
  match j with
  | JArray l =>
      let fix elements (l : list json) : option bytes :=
        match l with
        | [] => Some [93]
        | v :: l => match print_formatted (S depth) v, elements l with
                    | Some s, Some t => Some (s ++ (match l with [] => [] | _ => [44; 32] end) ++ t)
                    | _, _ => None
                    end
        end in
      option_map (cons 91) (elements l)
  | JObject l =>
      let fix members (l : list (bytes * json)) : option bytes :=
        match l with
        | [] => Some (tabs depth ++ [125])
        | (k, v) :: l =>
            match print_formatted (S depth) v, members l with
            | Some s, Some t =>
                Some (tabs (S depth) ++ print_string_ptr k ++ [58; 9] ++ s ++ (match l with [] => [] | _ => [44] end) ++ [10] ++ t)
            | _, _ => None
            end
        end in
      option_map (fun t => 123 :: 10 :: t) (members l)
  | _ => print_value j
  end.

Definition cJSON_Print (j : json) : option bytes := print_formatted 0 j.

Definition format_elements (depth : nat) : list json -> option bytes := fix elements l :=
  match l with
  | [] => Some [93]
  | v :: l => match print_formatted (S depth) v, elements l with
              | Some s, Some t => Some (s ++ (match l with [] => [] | _ => [44; 32] end) ++ t)
              | _, _ => None
              end
  end.
Definition format_members (depth : nat) : list (bytes * json) -> option bytes := fix members l :=
  match l with
  | [] => Some (tabs depth ++ [125])
  | (k, v) :: l =>
      match print_formatted (S depth) v, members l with
      | Some s, Some t =>
          Some (tabs (S depth) ++ print_string_ptr k ++ [58; 9] ++ s ++ (match l with [] => [] | _ => [44] end) ++ [10] ++ t)
      | _, _ => None
      end
  end.
Lemma format_array depth l : print_formatted depth (JArray l) = option_map (cons 91) (format_elements depth l).
Proof. reflexivity. Qed.
Lemma format_object depth l :
  print_formatted depth (JObject l) = option_map (fun t => 123 :: 10 :: t) (format_members depth l).
Proof. reflexivity. Qed.
Lemma format_elements_cons depth v l : format_elements depth (v :: l) =
  match print_formatted (S depth) v, format_elements depth l with
  | Some s, Some t => Some (s ++ (match l with [] => [] | _ => [44; 32] end) ++ t)
  | _, _ => None
  end.
Proof. reflexivity. Qed.
Lemma format_members_cons depth k v l : format_members depth ((k, v) :: l) =
  match print_formatted (S depth) v, format_members depth l with
  | Some s, Some t =>
      Some (tabs (S depth) ++ print_string_ptr k ++ [58; 9] ++ s ++ (match l with [] => [] | _ => [44] end) ++ [10] ++ t)
  | _, _ => None
  end.
Proof. reflexivity. Qed.

(** ** cJSON_Minify

    The text is rewritten in place, from behind the reading position: the output is a list
    of its own. *)

(** From behind the opening quote: what is copied, and what follows the string. *)
Fixpoint minify_string (l : bytes) : bytes * bytes :=
  match l with
  | [] => ([], [])
  | c :: r =>
      if c =? 34 then ([34], r)
      else match r with
           | d :: r' => if (c =? 92) && (d =? 34) then let '(o, rest) := minify_string r' in (92 :: 34 :: o, rest)
                        else let '(o, rest) := minify_string r in (c :: o, rest)
           | [] => ([c], [])
           end
  end.

(** Behind the comment's opening. *)
Fixpoint skip_oneline_comment (l : bytes) : bytes :=
  match l with
  | [] => []
  | c :: r => if c =? 10 then r else skip_oneline_comment r
  end.
Fixpoint skip_multiline_comment (l : bytes) : bytes :=
  match l with
  | [] => []
  | c :: r => match r with
              | d :: r' => if (c =? 42) && (d =? 47) then r' else skip_multiline_comment r
              | [] => []
              end
  end.

(** The loop, for at most as many turns as there are characters. *)
Fixpoint minify (fuel : nat) (l : bytes) : bytes :=
  match fuel, l with
  | S fuel, c :: r =>
      if (c =? 32) || (c =? 9) || (c =? 13) || (c =? 10) then minify fuel r
      else if c =? 47 then
        match r with
        | d :: r' => if d =? 47 then minify fuel (skip_oneline_comment r')
                     else if d =? 42 then minify fuel (skip_multiline_comment r')
                     else minify fuel r
        | [] => []
        end
      else if c =? 34 then let '(o, rest) := minify_string r in 34 :: o ++ minify fuel rest
      else c :: minify fuel r
  | _, _ => []
  end.
Definition cJSON_Minify (l : bytes) : bytes := minify (length l) l.

(** ** White space *)

Definition blank (l : bytes) : Prop := Forall (fun c => c = 32 \/ c = 9 \/ c = 10) l.

Lemma blank_tabs n : blank (tabs n).
Proof. apply Forall_replicate. auto. Qed.

Lemma blank_one c : c = 32 \/ c = 9 \/ c = 10 -> blank [c].
Proof. intros Hc. by constructor. Qed.

Lemma skip_blank w p t : blank w -> p <> [] -> heads (fun c => 32 <? c) p = true -> buffer_skip_whitespace (w ++ p ++ t) = p ++ t.
Proof.
  intros Hw Hp Hh. induction Hw as [|c w Hc Hw IH]; cbn [app].
  - destruct p as [|c p]; [done|]. cbn in *. by replace (c <=? 32) with false by lia.
  - cbn [buffer_skip_whitespace]. replace (c <=? 32) with true by lia. rewrite IH.
    by destruct w; [destruct p|].
Qed.

Lemma format_head depth j p : printable j -> print_formatted depth j = Some p -> p <> [] /\ heads opens p = true.
Proof.
  intros Hj. destruct Hj as [| | |n Hn|s Hs|l Hl|l Hl]; try (intros [= <-]; done).
  - apply print_value_head. by constructor.
  - rewrite format_array. destruct (format_elements depth l); intros [= <-]; done.
  - rewrite format_object. destruct (format_members depth l); intros [= <-]; done.
Qed.

Lemma opens_black p : heads opens p = true -> heads (fun c => 32 <? c) p = true.
Proof. destruct p as [|c p]; [done|]. cbn. unfold opens. lia. Qed.

(** ** Reading it back *)

Definition reads_formatted (j : json) : Prop := forall fuel n depth p rest,
  printable j -> print_formatted n j = Some p -> depth + height j <= CJSON_NESTING_LIMIT ->
  (2 * length p + 1 <= fuel)%nat -> follows rest = true ->
  parse_value fuel depth (p ++ rest) = Parsed (j, rest).

Lemma formatted_elements l fuel n depth w p rest :
  Forall reads_formatted l -> l <> [] -> Forall printable l -> format_elements n l = Some p -> blank w ->
  depth + heights l <= CJSON_NESTING_LIMIT -> (2 * length p + 2 <= fuel)%nat ->
  parse_elements fuel depth (w ++ p ++ rest) = Parsed (l, rest).
Proof.
  intros Hr. revert fuel w p. induction Hr as [|v l Hv Hr IH]; intros fuel w p Hne Hp Hpr Hw Hh Hf; [done|].
  apply Forall_cons in Hp as [Hpv Hp]. rewrite heights_cons in Hh. rewrite format_elements_cons in Hpr.
  destruct (print_formatted (S n) v) as [s|] eqn:Es; [|done]. destruct (format_elements n l) as [t|] eqn:Et; [|done].
  injection Hpr as <-. destruct (format_head _ v s Hpv Es) as [Hs1 Hs2].
  destruct fuel as [|fuel]; [lia|]. cbn [parse_elements]. rewrite !length_app in Hf.
  rewrite <- !app_assoc, skip_blank by (try done; by apply opens_black).
  rewrite (Hv fuel (S n) depth s); [|done|done|lia|lia|destruct l; [by injection Et as <-|done]].
  destruct l as [|x l].
  - injection Et as <-. done.
  - change (buffer_skip_whitespace (([44; 32] ++ t ++ rest))) with (44 :: [32] ++ t ++ rest). cbv iota. cbn [Z.eqb Pos.eqb].
    cbn [length app] in Hf. rewrite (IH fuel [32]) by (try done; try lia; apply blank_one; auto). done.
Qed.

Lemma formatted_members l fuel n depth w p rest :
  Forall (fun kv => reads_formatted kv.2) l -> l <> [] ->
  Forall (fun kv => Forall char_ok kv.1 /\ printable kv.2) l -> format_members n l = Some p -> blank w ->
  depth + heights l.*2 <= CJSON_NESTING_LIMIT -> (2 * length p + 2 <= fuel)%nat ->
  parse_members fuel depth (w ++ p ++ rest) = Parsed (l, rest).
Proof.
  intros Hr. revert fuel w p. induction Hr as [|[k v] l Hv Hr IH]; intros fuel w p Hne Hp Hpr Hw Hh Hf; [done|].
  apply Forall_cons in Hp as [[Hk Hpv] Hp]. cbn [fst snd fmap list_fmap] in *.
  rewrite heights_cons in Hh. rewrite format_members_cons in Hpr.
  destruct (print_formatted (S n) v) as [s|] eqn:Es; [|done]. destruct (format_members n l) as [t|] eqn:Et; [|done].
  apply (inj Some) in Hpr as <-. destruct (format_head _ v s Hpv Es) as [Hs1 Hs2].
  destruct fuel as [|fuel]; [lia|]. cbn [parse_members]. rewrite !length_app in Hf. cbn [length] in Hf.
  rewrite <- !app_assoc, (app_assoc w), skip_blank; [|apply Forall_app; split; [done|apply blank_tabs]|done|done].
  rewrite parse_string_print by done. cbn [app].
  change (buffer_skip_whitespace (58 :: ?x)) with (58 :: x). cbv iota. cbn [Z.eqb Pos.eqb negb].
  change (9 :: s ++ ?x) with ([9] ++ s ++ x). rewrite skip_blank; [|apply blank_one; auto|done|by apply opens_black].
  rewrite (Hv fuel (S n) depth s); [|done|done|lia|lia|by destruct l].
  destruct l as [|x l].
  - injection Et as <-. cbn [app]. rewrite <- app_assoc. change (10 :: tabs n ++ [125] ++ rest) with ((10 :: tabs n) ++ [125] ++ rest).
    rewrite skip_blank; [done|constructor; [auto|apply blank_tabs]|done|done].
  - cbn [app]. change (buffer_skip_whitespace (44 :: ?x)) with (44 :: x). cbv iota. cbn [Z.eqb Pos.eqb].
    change (10 :: t ++ rest) with ([10] ++ t ++ rest). cbn [length app] in Hf.
    rewrite (IH fuel [10]) by (try done; try lia; apply blank_one; auto). done.
Qed.

Lemma formatted_array l : Forall reads_formatted l -> Forall printable l -> reads_formatted (JArray l).
Proof.
  intros IH Hl fuel n depth p rest Hj Hp Hh Hf Hrest. destruct fuel as [|fuel]; [lia|].
  rewrite format_array in Hp. rewrite height_array in Hh. pose proof (heights_nonneg l).
  destruct (format_elements n l) as [t|] eqn:Et; [|done]. apply (inj Some) in Hp as <-.
  cbn [app]. rewrite parse_value_other by done. eval_head.
  rewrite (proj2 (Z.leb_gt CJSON_NESTING_LIMIT depth)) by lia. cbn [length] in Hf.
  destruct (decide (l = [])) as [->|Hne]; [injection Et as <-; done|].
  assert (t <> [] /\ heads opens t = true) as [Ht1 Ht2].
  { destruct l as [|v l]; [done|]. rewrite format_elements_cons in Et. apply Forall_cons in Hl as [Hv _].
    destruct (print_formatted (S n) v) as [s|] eqn:Es; [|done]. destruct (format_elements n l); [|done].
    apply (inj Some) in Et as <-. destruct (format_head _ v s Hv Es) as [? ?]. by destruct s. }
  rewrite skip_ws_opens by done. pose proof (formatted_elements l fuel n (depth + 1) [] t rest IH Hne Hl Et) as Hr.
  destruct t as [|c t]; [done|]. cbn [heads] in Ht2. unfold opens in Ht2. cbn [app] in *.
  replace (c =? 93) with false by lia. rewrite Hr; [done|constructor|lia|lia].
Qed.

Ltac eval_tests := cbn [Z.eqb Pos.eqb orb is_digit Z.leb Z.compare Pos.compare Pos.compare_cont andb].

Lemma formatted_object l :
  Forall (fun kv => reads_formatted kv.2) l -> Forall (fun kv => Forall char_ok kv.1 /\ printable kv.2) l ->
  reads_formatted (JObject l).
Proof.
  intros IH Hl fuel n depth p rest Hj Hp Hh Hf Hrest. destruct fuel as [|fuel]; [lia|].
  rewrite format_object in Hp. rewrite height_object in Hh. pose proof (heights_nonneg l.*2).
  destruct (format_members n l) as [t|] eqn:Et; [|done]. apply (inj Some) in Hp as <-.
  cbn [app]. rewrite parse_value_other by done. eval_tests.
  rewrite (proj2 (Z.leb_gt CJSON_NESTING_LIMIT depth)) by lia. cbn [length] in Hf.
  destruct (decide (l = [])) as [->|Hne].
  { injection Et as <-. rewrite <- app_assoc. change (10 :: tabs n ++ [125] ++ rest) with ((10 :: tabs n) ++ [125] ++ rest).
    rewrite skip_blank; [done|constructor; [auto|apply blank_tabs]|done|done]. }
  assert (exists t', t = tabs (S n) ++ 34 :: t') as [t' Et'].
  { destruct l as [|[k v] l]; [done|]. rewrite format_members_cons in Et.
    destruct (print_formatted (S n) v) as [s|] eqn:Es; [|done]. destruct (format_members n l); [|done].
    apply (inj Some) in Et as <-. by eexists. }
  assert (buffer_skip_whitespace (10 :: t ++ rest) = 34 :: t' ++ rest) as ->.
  { rewrite Et', <- app_assoc. change (10 :: tabs (S n) ++ (34 :: t') ++ rest) with ((10 :: tabs (S n)) ++ (34 :: t') ++ rest).
    rewrite skip_blank; [done|constructor; [auto|apply blank_tabs]|done|done]. }
  cbn [Z.eqb Pos.eqb].
  assert (parse_members fuel (depth + 1) (34 :: t' ++ rest) = Parsed (l, rest)) as ->; [|done].
  rewrite <- (formatted_members l fuel n (depth + 1) [] t rest IH Hne Hl Et); [|constructor|lia|lia].
  destruct fuel as [|fuel]; [lia|]. cbn [parse_members app]. rewrite Et', <- app_assoc.
  rewrite (skip_blank (tabs (S n)) (34 :: t')); [done|apply blank_tabs|done|done].
Qed.

Lemma formatted_all j : printable j -> reads_formatted j.
Proof.
  induction j as [| | |d|s|l IH|l IH] using json_ind'; intros Hj;
    inversion Hj as [| | |n Hn En|s' Hs|l' Hl|l' Hl]; subst.
  1-5: intros fuel n' depth p rest Hj' Hp; by apply (reads_all _ Hj).
  - apply formatted_array; [|done]. rewrite Forall_forall in IH, Hl |- *. auto.
  - apply formatted_object; [|done]. rewrite Forall_forall in IH, Hl |- *. intros kv Hkv. apply IH; [done|by apply Hl].
Qed.

Lemma formats n j : printable j -> is_Some (print_formatted n j).
Proof.
  intros Hj. revert n. induction j as [| | |d|s|l IH|l IH] using json_ind'; intros n;
    inversion Hj as [| | |m Hm Em|s' Hs|l' Hl|l' Hl]; subst; try by apply prints.
  - rewrite format_array. assert (is_Some (format_elements n l)) as [t ->]; [|by eexists].
    clear Hj. induction IH as [|v l Hv _ IHl]; [by eexists|]. apply Forall_cons in Hl as [Hpv Hl].
    rewrite format_elements_cons. destruct (Hv Hpv (S n)) as [s ->], (IHl Hl) as [t ->]. by eexists.
  - rewrite format_object. assert (is_Some (format_members n l)) as [t ->]; [|by eexists].
    clear Hj. induction IH as [|[k v] l Hv _ IHl]; [by eexists|]. apply Forall_cons in Hl as [[_ Hpv] Hl].
    cbn [snd] in *. rewrite format_members_cons.
    destruct (Hv Hpv (S n)) as [s ->], (IHl Hl) as [t ->]. by eexists.
Qed.

(** What [cJSON_Print] prints parses to the tree it was printed from. *)
Lemma formatted_parse (j : json) :
  printable j -> height j <= CJSON_NESTING_LIMIT ->
  exists p, cJSON_Print j = Some p /\ cJSON_Parse p = Some j.
Proof.
  intros Hj Hh. destruct (formats 0 j Hj) as [p Hp]. exists p. split; [exact Hp|].
  destruct (format_head 0 j p Hj Hp) as [Hne Hhd]. unfold cJSON_Parse, cJSON_ParseWithLengthOpts.
  assert (skip_utf8_bom (p ++ [0]) = p ++ [0]) as ->.
  { unfold skip_utf8_bom. destruct p as [|c p]; [done|]. cbn [heads] in Hhd. unfold opens in Hhd.
    rewrite bool_decide_false, andb_false_r; [done|]. cbn. intros [= -> _]. done. }
  rewrite skip_ws_opens by done.
  rewrite (formatted_all j Hj _ 0%nat 0 p [0]) by (try done; unfold parse_fuel; rewrite ?length_app; lia).
  done.
Qed.

(** ** Minifying *)

Lemma skip_oneline_length l : (length (skip_oneline_comment l) <= length l)%nat.
Proof. induction l as [|c r IH]; cbn; [done|]. destruct (c =? 10); lia. Qed.

Lemma skip_multiline_length l : (length (skip_multiline_comment l) <= length l)%nat.
Proof.
  induction l as [|c r IH]; cbn; [done|]. destruct r as [|d r]; [cbn; lia|].
  destruct ((c =? 42) && (d =? 47)); cbn [length] in *; lia.
Qed.

(** A step of [minify_string] over a pair. *)
Lemma minify_string_cons c d r : minify_string (c :: d :: r) =
  if c =? 34 then ([34], d :: r)
  else if (c =? 92) && (d =? 34) then let '(o, rest) := minify_string r in (92 :: 34 :: o, rest)
  else let '(o, rest) := minify_string (d :: r) in (c :: o, rest).
Proof. reflexivity. Qed.

Lemma minify_string_length k l : (length l <= k)%nat -> (length (minify_string l).2 <= length l)%nat.
Proof.
  revert l. induction k as [|k IH]; intros [|c [|d r]] Hk; cbn [length] in Hk; try (cbn; lia).
  - cbn. destruct (c =? 34); cbn; lia.
  - rewrite minify_string_cons. cbn [length] in *. destruct (c =? 34); [cbn; lia|].
    destruct ((c =? 92) && (d =? 34)).
    + specialize (IH r). destruct (minify_string r). cbn in *. lia.
    + specialize (IH (d :: r)). destruct (minify_string (d :: r)). cbn in *. lia.
Qed.

(** The loop gives the same whatever turns it has, from as many as there are characters. *)
Lemma minify_enough a b l : (length l <= a)%nat -> (length l <= b)%nat -> minify a l = minify b l.
Proof.
  revert b l. induction a as [|a IH]; intros [|b] [|c r] Ha Hb; cbn [length] in *; try (done || lia).
  cbn [minify]. destruct ((c =? 32) || (c =? 9) || (c =? 13) || (c =? 10)); [apply IH; lia|].
  destruct (c =? 47).
  - destruct r as [|d r]; [done|]. cbn [length] in *.
    pose proof (skip_oneline_length r). pose proof (skip_multiline_length r).
    destruct (d =? 47); [apply IH; lia|]. destruct (d =? 42); [apply IH; lia|]. apply IH; cbn; lia.
  - destruct (c =? 34); [|f_equal; apply IH; lia].
    pose proof (minify_string_length _ r (Nat.le_refl _)). destruct (minify_string r) as [o rest]. cbn in *.
    do 2 f_equal. apply IH; lia.
Qed.

(** Characters the loop copies. *)
Definition copied (c : Z) : bool := (32 <? c) && negb (c =? 47) && negb (c =? 34).

Lemma minify_copied l rest : forallb copied l = true -> cJSON_Minify (l ++ rest) = l ++ cJSON_Minify rest.
Proof.
  induction l as [|c l IH]; [done|]. cbn [forallb app]. unfold copied at 1. rewrite !andb_true_iff. intros [[[H1 H2] H3] Hl].
  rewrite <- (IH Hl). unfold cJSON_Minify. cbn [length minify].
  replace ((c =? 32) || (c =? 9) || (c =? 13) || (c =? 10)) with false by lia.
  replace (c =? 47) with false by lia. by replace (c =? 34) with false by lia.
Qed.

Lemma minify_blank w rest : blank w -> cJSON_Minify (w ++ rest) = cJSON_Minify rest.
Proof.
  intros Hw. induction Hw as [|c w Hc _ IH]; [done|]. rewrite <- IH. unfold cJSON_Minify. cbn [app length minify].
  by replace ((c =? 32) || (c =? 9) || (c =? 13) || (c =? 10)) with true by lia.
Qed.

(** A string that does not end in a backslash, which [minify_string] needs. *)
Definition tidy_string (s : bytes) : bool := bool_decide (last s <> Some 92).

(** Text without a quote is copied, as long as it is not a backslash before a quote. *)
Lemma minify_string_plain e d r o rest :
  forallb (fun c => negb (c =? 34)) e = true -> (last e <> Some 92 \/ d <> 34) ->
  minify_string (d :: r) = (o, rest) -> minify_string (e ++ d :: r) = (e ++ o, rest).
Proof.
  intros He Hd Hr. induction e as [|c e IH]; [done|]. cbn [forallb] in He. apply andb_true_iff in He as [Hc He].
  assert (last e <> Some 92 \/ d <> 34) as Hd' by (destruct e; [by left|done]).
  specialize (IH He Hd'). replace (c =? 34) with false in Hc |- * by lia.
  destruct e as [|c' e].
  - cbn [app]. rewrite minify_string_cons, Hr. replace (c =? 34) with false by lia.
    replace ((c =? 92) && (d =? 34)) with false; [done|]. symmetry. apply andb_false_iff.
    destruct Hd as [Hd|Hd]; [left|right; lia]. apply Z.eqb_neq. intros ->. by apply Hd.
  - cbn [app] in *. rewrite minify_string_cons, IH. replace (c =? 34) with false by lia.
    cbn [forallb] in He. replace ((c =? 92) && (c' =? 34)) with false by lia. done.
Qed.

Lemma hex_char_plain n : 0 <= n -> negb (hex_char n =? 34) = true /\ hex_char n <> 92.
Proof. unfold hex_char. destruct (n <? 10) eqn:E; lia. Qed.

(** What is copied of the printed characters of a string. *)
Lemma minify_escapes s rest :
  Forall char_ok s -> tidy_string s = true ->
  minify_string (flat_map escape s ++ 34 :: rest) = (flat_map escape s ++ [34], rest).
Proof.
  unfold tidy_string. rewrite bool_decide_eq_true. intros Hs Ht. induction Hs as [|c s Hc Hs IH]; [done|].
  assert (s = [] \/ last s <> Some 92) as Ht' by (destruct s; [by left|by right]).
  assert (minify_string (flat_map escape s ++ 34 :: rest) = (flat_map escape s ++ [34], rest)) as Hr.
  { destruct Ht' as [->|Ht']; [done|by apply IH]. }
  cbn [flat_map]. rewrite <- !app_assoc.
  assert (exists d r, flat_map escape s ++ 34 :: rest = d :: r /\ (s <> [] -> d <> 34)) as (d & r & Ed & Hd).
  { destruct s as [|c' s]; [by exists 34, rest|]. cbn [flat_map]. unfold escape at 1.
    destruct ((31 <? c') && negb (c' =? 34) && negb (c' =? 92)) eqn:E; (eexists _, _; split; [reflexivity|]); lia. }
  rewrite Ed in Hr |- *. unfold char_ok in Hc.
  destruct (decide (c = 34)) as [->|H34]; [change (escape 34) with [92; 34]; cbn [app]; rewrite minify_string_cons; cbn [Z.eqb Pos.eqb andb]; by rewrite Hr|].
  apply minify_string_plain; [| |exact Hr].
  - unfold escape. destruct ((31 <? c) && negb (c =? 34) && negb (c =? 92)) eqn:E; [cbn; lia|].
    pose proof (hex_char_plain (c / 16) ltac:(apply Z.div_pos; lia)) as [Hx _].
    pose proof (hex_char_plain (c mod 16) ltac:(apply Z.mod_pos_bound; lia)) as [Hy _].
    repeat (case_match; [cbn; lia|]). cbn [forallb]. by rewrite Hx, Hy.
  - destruct (decide (c = 92)) as [->|H92].
    + right. apply Hd. intros ->. by apply Ht.
    + left. unfold escape. destruct ((31 <? c) && negb (c =? 34) && negb (c =? 92)) eqn:E; [by intros [= ->]|].
      pose proof (hex_char_plain (c mod 16) ltac:(apply Z.mod_pos_bound; lia)) as [_ Hy].
      repeat (case_match; [cbn; first [congruence | lia]|]). cbn. congruence.
Qed.

Lemma minify_printed_string s rest :
  Forall char_ok s -> tidy_string s = true ->
  cJSON_Minify (print_string_ptr s ++ rest) = print_string_ptr s ++ cJSON_Minify rest.
Proof.
  intros Hs Ht. unfold print_string_ptr. rewrite <- !app_assoc. cbn [app]. unfold cJSON_Minify at 1. cbn [length minify].
  cbn [Z.eqb Pos.eqb orb]. rewrite minify_escapes by done. rewrite <- app_assoc. cbn [app]. do 3 f_equal.
  apply minify_enough; rewrite ?length_app; cbn; lia.
Qed.

Fixpoint tidy (j : json) : bool :=
  match j with
  | JString s => tidy_string s
  | JArray l => forallb tidy l
  | JObject l => forallb (fun kv => tidy_string kv.1 && tidy kv.2) l
  | _ => true
  end.

(** Minifying turns the formatted print of a tree into the unformatted one. *)
Definition minifies (j : json) : Prop := forall n p q rest,
  printable j -> tidy j = true -> print_formatted n j = Some p -> print_value j = Some q ->
  cJSON_Minify (p ++ rest) = q ++ cJSON_Minify rest.

Lemma minify_one c rest : copied c = true -> cJSON_Minify (c :: rest) = c :: cJSON_Minify rest.
Proof. intros Hc. apply (minify_copied [c]). cbn [forallb]. by rewrite Hc. Qed.

Lemma minify_number n : int_range n -> minifies (JNumber (of_Z binary64 n)).
Proof.
  intros Hn m p q rest _ _ Hp Hq. cbn [print_formatted] in Hp. rewrite Hp in Hq. apply (inj Some) in Hq as <-.
  cbn [print_value] in Hp. rewrite print_number_int in Hp by done. apply (inj Some) in Hp as <-.
  apply minify_copied. unfold sprintf_d.
  assert (forall m, forallb copied (decimal_of m) = true) as Hd.
  { intros k. pose proof (dec_digits_chars (S (Z.to_nat (Z.log2 k))) k) as Hk. unfold decimal_of.
    rewrite forallb_forall in Hk |- *. intros c Hc. specialize (Hk c Hc). unfold is_digit in Hk. unfold copied. lia. }
  destruct (n <? 0); [cbn [forallb]|]; by rewrite Hd.
Qed.

Lemma minify_elements n l p q rest :
  Forall minifies l -> Forall printable l -> forallb tidy l = true ->
  format_elements n l = Some p -> print_elements l = Some q -> cJSON_Minify (p ++ rest) = q ++ cJSON_Minify rest.
Proof.
  intros Hm. revert p q. induction Hm as [|v l Hv Hm IH]; intros p q Hp Ht Hf Hu.
  - injection Hf as <-. injection Hu as <-. by apply (minify_copied [93]).
  - apply Forall_cons in Hp as [Hpv Hp]. cbn [forallb] in Ht. apply andb_true_iff in Ht as [Htv Ht].
    rewrite format_elements_cons in Hf. cbn [print_elements] in Hu.
    destruct (print_formatted (S n) v) as [s|] eqn:Es; [|done]. destruct (format_elements n l) as [t|] eqn:Et; [|done].
    destruct (print_value v) as [s'|] eqn:Es'; [|done]. destruct (print_elements l) as [t'|] eqn:Et'; [|done].
    apply (inj Some) in Hf as <-. apply (inj Some) in Hu as <-. rewrite <- !app_assoc.
    rewrite (Hv (S n) s s') by done. f_equal.
    rewrite <- (IH t t') by done. destruct l as [|x l]; [done|].
    cbn [app]. by rewrite minify_one.
Qed.

Lemma minify_members n l p q rest :
  Forall (fun kv => minifies kv.2) l -> Forall (fun kv => Forall char_ok kv.1 /\ printable kv.2) l ->
  forallb (fun kv => tidy_string kv.1 && tidy kv.2) l = true ->
  format_members n l = Some p -> print_members l = Some q -> cJSON_Minify (p ++ rest) = q ++ cJSON_Minify rest.
Proof.
  intros Hm. revert p q. induction Hm as [|[k v] l Hv Hm IH]; intros p q Hp Ht Hf Hu.
  - apply (inj Some) in Hf as <-. apply (inj Some) in Hu as <-.
    rewrite <- app_assoc, minify_blank by apply blank_tabs. by apply (minify_copied [125]).
  - apply Forall_cons in Hp as [[Hk Hpv] Hp]. cbn [forallb fst snd] in *.
    apply andb_true_iff in Ht as [[Htk Htv]%andb_true_iff Ht].
    rewrite format_members_cons in Hf. cbn [print_members] in Hu.
    destruct (print_formatted (S n) v) as [s|] eqn:Es; [|done]. destruct (format_members n l) as [t|] eqn:Et; [|done].
    destruct (print_value v) as [s'|] eqn:Es'; [|done]. destruct (print_members l) as [t'|] eqn:Et'; [|done].
    apply (inj Some) in Hf as <-. apply (inj Some) in Hu as <-. rewrite <- !app_assoc.
    rewrite minify_blank by apply blank_tabs. rewrite minify_printed_string by done. f_equal.
    cbn [app]. rewrite minify_one by done. apply (f_equal (cons 58)).
    change (9 :: ?x) with ([9] ++ x). rewrite (minify_blank [9]) by (apply blank_one; auto).
    rewrite (Hv (S n) s s') by done. f_equal. rewrite <- (IH t t') by done.
    destruct l as [|x l]; [done|]. cbn [app]. by rewrite minify_one.
Qed.

Lemma minifies_all j : printable j -> minifies j.
Proof.
  induction j as [| | |d|s|l IH|l IH] using json_ind'; intros Hj;
    inversion Hj as [| | |n Hn En|s' Hs|l' Hl|l' Hl]; subst.
  1-3: intros n p q rest _ _ Hp Hq; injection Hp as <-; injection Hq as <-; by apply minify_copied.
  - by apply minify_number.
  - intros n p q rest _ Ht Hp Hq. apply (inj Some) in Hp as <-. apply (inj Some) in Hq as <-. by apply minify_printed_string.
  - intros n p q rest _ Ht Hp Hq. rewrite format_array in Hp. rewrite print_array in Hq.
    destruct (format_elements n l) as [t|] eqn:Et; [|done]. destruct (print_elements l) as [t'|] eqn:Et'; [|done].
    apply (inj Some) in Hp as <-. apply (inj Some) in Hq as <-. cbn [app]. rewrite minify_one by done. f_equal.
    apply (minify_elements n l); try done. rewrite Forall_forall in IH, Hl |- *. auto.
  - intros n p q rest _ Ht Hp Hq. rewrite format_object in Hp. rewrite print_object in Hq.
    destruct (format_members n l) as [t|] eqn:Et; [|done]. destruct (print_members l) as [t'|] eqn:Et'; [|done].
    apply (inj Some) in Hp as <-. apply (inj Some) in Hq as <-. cbn [app]. rewrite minify_one by done. apply (f_equal (cons 123)).
    change (10 :: ?x) with ([10] ++ x). rewrite (minify_blank [10]) by (apply blank_one; auto).
    apply (minify_members n l); try done. rewrite Forall_forall in IH, Hl |- *. intros kv Hkv. apply IH; [done|by apply Hl].
Qed.

(** Formatting is invisible: for a tree of integers, strings without NUL, arrays and
    objects, nested within the limit, whose strings do not end in a backslash, the
    formatted text parses to the tree, and minifying it gives the unformatted text. *)
Theorem format_transparent (j : json) :
  printable j -> tidy j = true -> height j <= CJSON_NESTING_LIMIT ->
  exists p q, cJSON_Print j = Some p /\ cJSON_PrintUnformatted j = Some q /\
    cJSON_Parse p = Some j /\ cJSON_Parse q = Some j /\ cJSON_Minify p = q.
Proof.
  intros Hj Ht Hh. destruct (formatted_parse j Hj Hh) as (p & Hp & Hpp), (print_parse_tree j Hj Hh) as (q & Hq & Hqp).
  exists p, q. repeat (split; [done|]). pose proof (minifies_all j Hj 0%nat p q [] Hj Ht Hp Hq) as H.
  by rewrite !app_nil_r in H.
Qed.

Lemma format_transparent_witness :
  let j := JObject [([97], JArray [JNumber (of_Z binary64 1); JString [92; 34; 32]]); ([98], JString [10; 47; 47])] in
  exists p q, cJSON_Print j = Some p /\ cJSON_PrintUnformatted j = Some q /\
    cJSON_Parse p = Some j /\ cJSON_Parse q = Some j /\ cJSON_Minify p = q.
Proof.
  intros j. apply (format_transparent j); [|reflexivity|done].
  unfold j. repeat constructor; unfold int_range, char_ok, INT_MIN, INT_MAX; lia.
Defined.

(** A string that ends in a backslash is printed with two of them before its closing
    quote, and [minify_string] takes the second one to escape the quote: what follows is
    copied as if it belonged to the string, and the white space of the next string is
    dropped. The minified text parses to another tree. *)
Theorem minify_trailing_backslash :
  let j := JArray [JString [92]; JString [97; 32; 98]] in
  exists q, cJSON_PrintUnformatted j = Some q /\ cJSON_Parse q = Some j /\
    cJSON_Parse (cJSON_Minify q) = Some (JArray [JString [92]; JString [97; 98]]).
Proof. eexists. split; [reflexivity|]. by vm_compute. Qed.
