(* ===== verification/JsonStore.v ===== *)
(** * JSON trees in memory

    [packages/cJSON-v1.7.17/cJSON.c] as it works on memory: nodes allocated one by one,
    linked with their siblings ([next], [prev], the first node's [prev] being the last) and
    with their first child, their strings allocated beside them. The allocator is a
    parameter that may refuse any request. The functions that create nodes, add them to
    arrays and objects, look them up, take them out, insert and replace them and delete
    whole trees are shown to keep the lists linked, to free what they own and nothing else,
    and to do on the tree what [Json] says. *)

From stdpp Require Import base numbers list gmap.
From Stdlib Require Import ZArith Lia Floats.SpecFloat.
From S2P Require Import Prelude CFloat Json.

Open Scope Z_scope.

(** ** Memory *)

Abbreviation loc := positive.

(** A [char *]: to an allocated string, or to one the program holds. *)
Inductive chars : Type :=
  | Allocated (p : loc)
  | Literal (s : bytes).

(** [struct cJSON]. *)
Record cJSON : Type := mk_cJSON {
  next : option loc;
  prev : option loc;
  child : option loc;
  type : Z;
  valuestring : option chars;
  valueint : Z;
  valuedouble : spec_float;
  name : option chars
}.

Definition cJSON_Invalid : Z := 0.
Definition cJSON_False : Z := 1.
Definition cJSON_True : Z := 2.
Definition cJSON_NULL : Z := 4.
Definition cJSON_Number : Z := 8.
Definition cJSON_String : Z := 16.
Definition cJSON_Array : Z := 32.
Definition cJSON_Object : Z := 64.
Definition cJSON_Raw : Z := 128.
Definition cJSON_IsReference : Z := 256.
Definition cJSON_StringIsConst : Z := 512.

Definition set_next (x : option loc) (n : cJSON) : cJSON :=
  mk_cJSON x (prev n) (child n) (type n) (valuestring n) (valueint n) (valuedouble n) (name n).
Definition set_prev (x : option loc) (n : cJSON) : cJSON :=
  mk_cJSON (next n) x (child n) (type n) (valuestring n) (valueint n) (valuedouble n) (name n).
Definition set_child (x : option loc) (n : cJSON) : cJSON :=
  mk_cJSON (next n) (prev n) x (type n) (valuestring n) (valueint n) (valuedouble n) (name n).
Definition set_type (x : Z) (n : cJSON) : cJSON :=
  mk_cJSON (next n) (prev n) (child n) x (valuestring n) (valueint n) (valuedouble n) (name n).
Definition set_valuestring (x : option chars) (n : cJSON) : cJSON :=
  mk_cJSON (next n) (prev n) (child n) (type n) x (valueint n) (valuedouble n) (name n).
Definition set_number (i : Z) (d : spec_float) (n : cJSON) : cJSON :=
  mk_cJSON (next n) (prev n) (child n) (type n) (valuestring n) i d (name n).
Definition set_name (x : option chars) (n : cJSON) : cJSON :=
  mk_cJSON (next n) (prev n) (child n) (type n) (valuestring n) (valueint n) (valuedouble n) x.

(** What an address holds: a node, a string with its terminating NUL left implicit, or
    bytes that no NUL terminates. *)
Inductive block : Type :=
  | Node (n : cJSON)
  | Text (s : bytes)
  | Unterminated (s : bytes).

(** The memory, and how often the allocator was asked. *)
Record store : Type := mk_store { mem : gmap loc block; requests : nat }.

(** The allocator the library is set up with: whether it refuses the [n]-th request, any
    sequence of answers being possible, and the address it gives otherwise, which is that of
    no block in use. *)
Class Allocator : Type := {
  refuses : nat -> bool;
  place : nat -> gset loc -> loc;
  place_fresh : forall n live, place n live ∉ live
}.
Definition malloc `{Allocator} (n : nat) (live : gset loc) : option loc :=
  if refuses n then None else Some (place n live).

Lemma malloc_fresh `{Allocator} n live p : malloc n live = Some p -> p ∉ live.
Proof. unfold malloc. destruct (refuses n); [done|]. intros [= <-]. apply place_fresh. Qed.
Lemma malloc_none `{Allocator} n live : malloc n live = None -> refuses n = true.
Proof. unfold malloc. by destruct (refuses n). Qed.

Section Operations.
Context `{Allocator}.

(** [hooks->allocate], the block filled at once with what the caller stores there. *)
Definition allocate (b : block) : M store (option loc) :=
  s <- get ;;
  match malloc (requests s) (dom (mem s)) with
  | Some p => put (mk_store (<[p := b]> (mem s)) (S (requests s))) ;;; ret (Some p)
  | None => put (mk_store (mem s) (S (requests s))) ;;; ret None
  end.

(** [hooks->deallocate]. *)
Definition deallocate (p : loc) : M store unit :=
  s <- get ;;
  match mem s !! p with
  | Some _ => put (mk_store (delete p (mem s)) (requests s))
  | None => raise DoubleFree
  end.
(** Of a string that was not allocated, the allocator's behaviour is undefined. *)
Definition deallocate_chars (c : chars) : M store unit :=
  match c with Allocated p => deallocate p | Literal _ => raise UseAfterFree end.

(** [*p]. *)
Definition deref (p : option loc) : M store cJSON :=
  match p with
  | None => raise NullAccess
  | Some p => s <- get ;; match mem s !! p with Some (Node n) => ret n | _ => raise UseAfterFree end
  end.
(** An assignment to fields of [*p]. *)
Definition update (p : option loc) (f : cJSON -> cJSON) : M store unit :=
  match p with
  | None => raise NullAccess
  | Some q => n <- deref p ;; s <- get ;; put (mk_store (<[q := Node (f n)]> (mem s)) (requests s))
  end.
(** The characters behind a [char *]. *)
Definition read_chars (c : chars) : M store bytes :=
  match c with
  | Literal s => ret s
  | Allocated p => s <- get ;; match mem s !! p with Some (Text t) => ret t | _ => raise UseAfterFree end
  end.

(** ** Nodes *)

(** The argument is the text it points to, [None] for NULL. *)
Definition cJSON_strdup (string : option bytes) : M store (option loc) :=
  match string with
  | None => ret None
  | Some s => allocate (Text s)
  end.

Definition cJSON_New_Item : M store (option loc) :=
  allocate (Node (mk_cJSON None None None 0 None 0 (S754_zero false) None)).

Definition flag (t f : Z) : bool := negb (Z.land t f =? 0).

(** The loop over the siblings, with the recursive call for the children; at most [fuel]
    nodes. *)
Fixpoint delete_loop (fuel : nat) (item : option loc) : M store unit :=
  match item, fuel with
  | None, _ => ret tt
  | Some _, O => raise StillWaiting
  | Some p, S fuel =>
      n <- deref item ;;
      when (negb (flag (type n) cJSON_IsReference) && bool_decide (child n <> None)) (delete_loop fuel (child n)) ;;;
      (match valuestring n with
       | Some c => when (negb (flag (type n) cJSON_IsReference)) (deallocate_chars c)
       | None => ret tt
       end) ;;;
      (match name n with
       | Some c => when (negb (flag (type n) cJSON_StringIsConst)) (deallocate_chars c)
       | None => ret tt
       end) ;;;
      deallocate p ;;;
      delete_loop fuel (next n)
  end.
(** There are no more nodes than blocks. *)
Definition cJSON_Delete (item : option loc) : M store unit :=
  s <- get ;; delete_loop (size (mem s)) item.

(** A node of a type and no value, as [cJSON_CreateNull], [cJSON_CreateTrue],
    [cJSON_CreateFalse], [cJSON_CreateBool], [cJSON_CreateArray] and
    [cJSON_CreateObject] make it. *)
Definition create (t : Z) : M store (option loc) :=
  item <- cJSON_New_Item ;;
  match item with
  | Some _ => update item (set_type t) ;;; ret item
  | None => ret None
  end.
Definition cJSON_CreateNull : M store (option loc) := create cJSON_NULL.
Definition cJSON_CreateTrue : M store (option loc) := create cJSON_True.
Definition cJSON_CreateFalse : M store (option loc) := create cJSON_False.
Definition cJSON_CreateBool (boolean : bool) : M store (option loc) := create (if boolean then cJSON_True else cJSON_False).
Definition cJSON_CreateArray : M store (option loc) := create cJSON_Array.
Definition cJSON_CreateObject : M store (option loc) := create cJSON_Object.

(** The conversion of a NaN is undefined. *)
Definition cJSON_CreateNumber (num : spec_float) : M store (option loc) :=
  item <- cJSON_New_Item ;;
  match item with
  | Some _ =>
      match saturate num with
      | Some i => update item (set_type cJSON_Number) ;;; update item (set_number i num) ;;; ret item
      | None => raise BadConversion
      end
  | None => ret None
  end.

(** [cJSON_CreateString] and [cJSON_CreateRaw]. *)
Definition create_text (t : Z) (string : option bytes) : M store (option loc) :=
  item <- cJSON_New_Item ;;
  match item with
  | Some _ =>
      update item (set_type t) ;;;
      copy <- cJSON_strdup string ;;
      update item (set_valuestring (option_map Allocated copy)) ;;;
      match copy with
      | Some _ => ret item
      | None => cJSON_Delete item ;;; ret None
      end
  | None => ret None
  end.
Definition cJSON_CreateString (string : option bytes) : M store (option loc) := create_text cJSON_String string.
Definition cJSON_CreateRaw (raw : option bytes) : M store (option loc) := create_text cJSON_Raw raw.

(** ** Adding *)

Definition suffix_object (prev item : option loc) : M store unit :=
  update prev (set_next item) ;;; update item (set_prev prev).

Definition add_item_to_array (array item : option loc) : M store bool :=
  match item, array with
  | Some i, Some a =>
      if decide (a = i) then ret false
      else
        arr <- deref array ;;
        match child arr with
        | None =>
            update array (set_child item) ;;; update item (set_prev item) ;;; update item (set_next None) ;;; ret true
        | Some _ =>
            first <- deref (child arr) ;;
            match prev first with
            | Some _ => suffix_object (prev first) item ;;; arr <- deref array ;; update (child arr) (set_prev item) ;;; ret true
            | None => ret true
            end
        end
  | _, _ => ret false
  end.
Definition cJSON_AddItemToArray : option loc -> option loc -> M store bool := add_item_to_array.

Definition add_item_to_object (object : option loc) (string : option bytes) (item : option loc) (constant_key : bool) :
    M store bool :=
  match object, string, item with
  | Some o, Some s, Some i =>
      if decide (o = i) then ret false
      else
        new_key <- (if constant_key then ret (Some (Literal s))
                    else copy <- cJSON_strdup string ;; ret (option_map Allocated copy)) ;;
        match new_key with
        | None => ret false
        | Some _ =>
            n <- deref item ;;
            let new_type := if constant_key then Z.lor (type n) cJSON_StringIsConst
                            else Z.land (type n) (Z.lnot cJSON_StringIsConst) in
            (match name n with
             | Some c => when (negb (flag (type n) cJSON_StringIsConst)) (deallocate_chars c)
             | None => ret tt
             end) ;;;
            update item (set_name new_key) ;;;
            update item (set_type new_type) ;;;
            add_item_to_array object item
        end
  | _, _, _ => ret false
  end.
Definition cJSON_AddItemToObject (object : option loc) (string : option bytes) (item : option loc) : M store bool :=
  add_item_to_object object string item false.
Definition cJSON_AddItemToObjectCS (object : option loc) (string : option bytes) (item : option loc) : M store bool :=
  add_item_to_object object string item true.

(** What the [cJSON_Add...ToObject] do with the node they create. *)
Definition add_created (object : option loc) (name : option bytes) (create : M store (option loc)) : M store (option loc) :=
  item <- create ;;
  added <- add_item_to_object object name item false ;;
  if added then ret item else cJSON_Delete item ;;; ret None.
Definition cJSON_AddNullToObject (object : option loc) (name : option bytes) : M store (option loc) :=
  add_created object name cJSON_CreateNull.
Definition cJSON_AddTrueToObject (object : option loc) (name : option bytes) : M store (option loc) :=
  add_created object name cJSON_CreateTrue.
Definition cJSON_AddFalseToObject (object : option loc) (name : option bytes) : M store (option loc) :=
  add_created object name cJSON_CreateFalse.
Definition cJSON_AddBoolToObject (object : option loc) (name : option bytes) (boolean : bool) : M store (option loc) :=
  add_created object name (cJSON_CreateBool boolean).
Definition cJSON_AddNumberToObject (object : option loc) (name : option bytes) (number : spec_float) : M store (option loc) :=
  add_created object name (cJSON_CreateNumber number).
Definition cJSON_AddStringToObject (object : option loc) (name string : option bytes) : M store (option loc) :=
  add_created object name (cJSON_CreateString string).
Definition cJSON_AddRawToObject (object : option loc) (name raw : option bytes) : M store (option loc) :=
  add_created object name (cJSON_CreateRaw raw).
Definition cJSON_AddObjectToObject (object : option loc) (name : option bytes) : M store (option loc) :=
  add_created object name cJSON_CreateObject.
Definition cJSON_AddArrayToObject (object : option loc) (name : option bytes) : M store (option loc) :=
  add_created object name cJSON_CreateArray.
End Operations.

(** ** Trees

    A tree tells the addresses of its nodes and strings from what they say. Of the links
    nothing is recorded: they follow from the positions. *)

(** A string field: an allocated copy, or a constant. *)
Inductive text : Type :=
  | Own (p : loc) (s : bytes)
  | Const (s : bytes).
Definition text_chars (t : text) : chars := match t with Own p _ => Allocated p | Const s => Literal s end.
Definition text_bytes (t : text) : bytes := match t with Own _ s => s | Const s => s end.

Record payload : Type := mk_payload {
  p_type : Z;
  p_valuestring : option text;
  p_valueint : Z;
  p_valuedouble : spec_float;
  p_name : option text
}.

Inductive tree : Type := Tree (p : loc) (d : payload) (kids : list tree).
Definition root (t : tree) : loc := match t with Tree p _ _ => p end.
Definition data (t : tree) : payload := match t with Tree _ d _ => d end.
Definition kids (t : tree) : list tree := match t with Tree _ _ l => l end.

Definition text_blocks (t : option text) : list (loc * block) :=
  match t with Some (Own p s) => [(p, Text s)] | _ => [] end.
Definition payload_blocks (d : payload) : list (loc * block) :=
  text_blocks (p_valuestring d) ++ text_blocks (p_name d).

(** The address a list of siblings starts with, [e] if it is empty; its last address. *)
Definition first (e : option loc) (l : list tree) : option loc := match l with [] => e | t :: _ => Some (root t) end.
Definition final (e : option loc) (l : list tree) : option loc := match last l with Some t => Some (root t) | None => e end.

Definition node_of (nx pv ch : option loc) (d : payload) : cJSON :=
  mk_cJSON nx pv ch (p_type d) (option_map text_chars (p_valuestring d)) (p_valueint d) (p_valuedouble d)
    (option_map text_chars (p_name d)).

(** The blocks of a tree whose root has the given links. *)
Fixpoint cells (nx pv : option loc) (t : tree) : list (loc * block) :=
  match t with
  | Tree p d ks =>
      let fix go (pv : option loc) (l : list tree) : list (loc * block) :=
        match l with
        | [] => []
        | t :: l => cells (first None l) pv t ++ go (Some (root t)) l
        end in
      (p, Node (node_of nx pv (first None ks) d)) :: payload_blocks d ++ go (final None ks) ks
  end.
(** The blocks of siblings, behind [pv] and before [nx]. *)
Definition chain (nx : option loc) : option loc -> list tree -> list (loc * block) := fix go pv l :=
  match l with
  | [] => []
  | t :: l => cells (first nx l) pv t ++ go (Some (root t)) l
  end.
(** What a tree owns besides its root. *)
Definition inner (t : tree) : list (loc * block) :=
  payload_blocks (data t) ++ chain None (final None (kids t)) (kids t).
Definition head_cell (nx pv : option loc) (t : tree) : loc * block :=
  (root t, Node (node_of nx pv (first None (kids t)) (data t))).

Lemma cells_eq nx pv t : cells nx pv t = head_cell nx pv t :: inner t.
Proof. by destruct t. Qed.

Lemma chain_cons nx pv t l : chain nx pv (t :: l) = head_cell (first nx l) pv t :: inner t ++ chain nx (Some (root t)) l.
Proof. cbn [chain]. by rewrite cells_eq. Qed.

Lemma first_app nx a b : first nx (a ++ b) = first (first nx b) a.
Proof. by destruct a. Qed.

Lemma final_cons pv t l : final pv (t :: l) = final (Some (root t)) l.
Proof. unfold final. rewrite last_cons. by destruct (last l). Qed.

Lemma final_snoc pv l t : final pv (l ++ [t]) = Some (root t).
Proof. unfold final. by rewrite last_snoc. Qed.

Lemma siblings_app nx pv a b : chain nx pv (a ++ b) = chain (first nx b) pv a ++ chain nx (final pv a) b.
Proof.
  revert pv. induction a as [|t a IH]; intros pv; [done|].
  rewrite final_cons, <- app_comm_cons, !chain_cons, IH, first_app. cbn [app]. by rewrite <- app_assoc.
Qed.

(** The memory holds these blocks and no others. *)
Definition owns (m : gmap loc block) (l : list (loc * block)) : Prop := NoDup l.*1 /\ m = list_to_map l.

#[export] Instance owns_proper m : Proper ((≡ₚ) ==> iff) (owns m).
Proof.
  assert (forall l l', l ≡ₚ l' -> owns m l -> owns m l') as H.
  { intros l l' Hl [Hd ->]. unfold owns. split; [by rewrite <- Hl|]. by apply list_to_map_proper. }
  intros l l' Hl. split; apply H; [done|by symmetry].
Qed.

Lemma owns_perm m l l' : owns m l -> l ≡ₚ l' -> owns m l'.
Proof. intros Ho Hl. by rewrite <- Hl. Qed.

(** The hypothesis [Ho], its blocks in another order. *)
Ltac same_blocks Ho := apply (owns_perm _ _ _ Ho); solve_Permutation.

Lemma owns_lookup m p b l : owns m ((p, b) :: l) -> m !! p = Some b.
Proof. intros [_ ->]. cbn. apply lookup_insert_eq. Qed.

Lemma owns_write m p b b' l : owns m ((p, b) :: l) -> owns (<[p := b']> m) ((p, b') :: l).
Proof. intros [Hd ->]. split; [done|]. cbn. by rewrite insert_insert_eq. Qed.

Lemma owns_free m p b l : owns m ((p, b) :: l) -> owns (delete p m) l.
Proof.
  intros [Hd ->]. cbn in Hd. apply NoDup_cons in Hd as [Hp Hd]. split; [done|]. cbn.
  rewrite delete_insert_eq, delete_id; [done|]. by apply not_elem_of_list_to_map_1.
Qed.

Lemma owns_fresh m p b l : p ∉ dom m -> owns m l -> owns (<[p := b]> m) ((p, b) :: l).
Proof.
  intros Hp [Hd ->]. split; [|done]. cbn. apply NoDup_cons. split; [|done].
  intros Hin. apply Hp. rewrite dom_list_to_map_L. set_solver.
Qed.

Lemma owns_size m l : owns m l -> size m = length l.
Proof. intros [Hd ->]. by apply map_size_list_to_map. Qed.

Lemma owns_distinct m p b q c l : owns m ((p, b) :: (q, c) :: l) -> p <> q.
Proof. intros [Hd _]. cbn in Hd. apply NoDup_cons in Hd as [Hp _]. set_solver. Qed.

(** ** Rules

    Each statement takes the block it works on out of the list, wherever it is. *)

Section Rules.
Context `{Allocator}.

Lemma wp_deref p n l s (Q : cJSON -> store -> Prop) L :
  owns (mem s) L -> L ≡ₚ (p, Node n) :: l -> Q n s -> wp (deref (Some p)) s Q.
Proof.
  intros Ho Hl HQ. rewrite Hl in Ho. unfold deref. apply wp_bind, wp_get. by rewrite (owns_lookup _ _ _ _ Ho).
Qed.

Lemma wp_update p n f l s (Q : unit -> store -> Prop) L :
  owns (mem s) L -> L ≡ₚ (p, Node n) :: l ->
  (forall s', owns (mem s') ((p, Node (f n)) :: l) -> Q tt s') -> wp (update (Some p) f) s Q.
Proof.
  intros Ho Hl HQ. unfold update. apply wp_bind. eapply wp_deref; [done..|]. apply wp_bind, wp_get, wp_put, HQ.
  cbn [mem]. rewrite Hl in Ho. by eapply owns_write.
Qed.

Lemma wp_deallocate p b l s (Q : unit -> store -> Prop) L :
  owns (mem s) L -> L ≡ₚ (p, b) :: l ->
  (forall s', owns (mem s') l -> Q tt s') -> wp (deallocate p) s Q.
Proof.
  intros Ho Hl HQ. rewrite Hl in Ho. unfold deallocate. apply wp_bind, wp_get.
  rewrite (owns_lookup _ _ _ _ Ho). apply wp_put, HQ. by eapply owns_free.
Qed.

(** The allocator is one that refuses some request: where a statement offers this, an
    allocator that refuses none rules the case out. *)
Definition refused : Prop := exists n, refuses n = true.

Lemma malloc_refused n live : malloc n live = None -> refused.
Proof. intros E. exists n. by eapply malloc_none. Qed.

(** The refusal is that of the last request so far. *)
Lemma wp_allocate_last b s (Q : option loc -> store -> Prop) l :
  owns (mem s) l ->
  (forall p s', owns (mem s') ((p, b) :: l) -> Q (Some p) s') ->
  (forall s', requests s' = S (requests s) -> refuses (requests s) = true -> owns (mem s') l -> Q None s') -> wp (allocate b) s Q.
Proof.
  intros Ho Hy Hn. unfold allocate. apply wp_bind, wp_get.
  destruct (malloc (requests s) (dom (mem s))) as [p|] eqn:E; apply wp_bind, wp_put, wp_ret;
    [|apply Hn; [done|by eapply malloc_none|done]].
  apply Hy. cbn [mem]. apply owns_fresh; [by eapply malloc_fresh|done].
Qed.

Lemma wp_allocate b s (Q : option loc -> store -> Prop) l :
  owns (mem s) l ->
  (forall p s', owns (mem s') ((p, b) :: l) -> Q (Some p) s') ->
  (forall s', refused -> owns (mem s') l -> Q None s') -> wp (allocate b) s Q.
Proof.
  intros Ho Hy Hn. eapply wp_allocate_last; [exact Ho|exact Hy|]. intros s' _ Hr Ho'. apply Hn; [by eexists|done].
Qed.

Lemma wp_read_chars x s L R (Q : bytes -> store -> Prop) :
  owns (mem s) L -> L ≡ₚ text_blocks (Some x) ++ R -> Q (text_bytes x) s -> wp (read_chars (text_chars x)) s Q.
Proof.
  intros Ho Hl HQ. rewrite Hl in Ho. destruct x as [q t|t]; cbn; [|by apply wp_ret].
  apply wp_bind, wp_get. by rewrite (owns_lookup _ _ _ _ Ho).
Qed.

(** ** Deleting *)

(** A node owns what it points to: it is no reference, and its name is an allocated string
    exactly when the flag of constant names is not set. *)
Definition owned (d : payload) : Prop :=
  flag (p_type d) cJSON_IsReference = false /\
  match p_valuestring d with Some (Const _) => False | _ => True end /\
  match p_name d with
  | Some (Const _) => flag (p_type d) cJSON_StringIsConst = true
  | Some (Own _ _) => flag (p_type d) cJSON_StringIsConst = false
  | None => True
  end.
Inductive sound : tree -> Prop :=
  | sound_tree p d ks : owned d -> Forall sound ks -> sound (Tree p d ks).

Lemma wp_delete_texts d s (Q : unit -> store -> Prop) l pc :
  owned d -> owns (mem s) (payload_blocks d ++ l) ->
  (forall s', owns (mem s') l -> wp pc s' Q) ->
  wp ((match option_map text_chars (p_valuestring d) with
       | Some c => when (negb (flag (p_type d) cJSON_IsReference)) (deallocate_chars c)
       | None => ret tt
       end) ;;;
      (match option_map text_chars (p_name d) with
       | Some c => when (negb (flag (p_type d) cJSON_StringIsConst)) (deallocate_chars c)
       | None => ret tt
       end) ;;; pc) s Q.
Proof.
  intros (Hr & Hv & Hn) Ho HQ. rewrite Hr. unfold payload_blocks in Ho.
  assert (forall s', owns (mem s') (text_blocks (p_name d) ++ l) ->
    wp ((match option_map text_chars (p_name d) with
       | Some c => when (negb (flag (p_type d) cJSON_StringIsConst)) (deallocate_chars c)
       | None => ret tt
       end) ;;; pc) s' Q) as Hname.
  { intros s' Ho'. apply wp_bind. destruct (p_name d) as [[p t|t]|]; cbn [option_map text_chars text_blocks app] in *.
    - rewrite Hn. eapply wp_deallocate; [exact Ho'|done|exact HQ].
    - rewrite Hn. by apply wp_ret, HQ.
    - by apply wp_ret, HQ. }
  apply wp_bind. rewrite <- app_assoc in Ho.
  destruct (p_valuestring d) as [[p t|t]|]; [|done|]; cbn [option_map text_chars text_blocks app negb when] in *.
  - eapply wp_deallocate; [exact Ho|done|exact Hname].
  - by apply wp_ret, Hname.
Qed.

(** A list of siblings is freed with all they own; nothing else is touched. *)
Lemma delete_loop_spec fuel pv l s (Q : unit -> store -> Prop) F :
  (length (chain None pv l) <= fuel)%nat -> Forall sound l -> owns (mem s) (chain None pv l ++ F) ->
  (forall s', owns (mem s') F -> Q tt s') -> wp (delete_loop fuel (first None l)) s Q.
Proof.
  revert pv l s Q F. induction fuel as [|fuel IH]; intros pv l s Q F Hf Hs Ho HQ.
  - destruct l as [|t l]; [by apply HQ|]. rewrite chain_cons in Hf. cbn in Hf. lia.
  - destruct l as [|[p d ks] l]; [by apply HQ|]. apply Forall_cons in Hs as [Ht Hl].
    inversion Ht as [? ? ? Hd Hks]; subst.
    rewrite chain_cons in Hf, Ho. unfold inner in Hf, Ho. cbn [root data kids length] in *. rewrite !length_app in Hf.
    unfold head_cell in Ho. cbn [root data kids app] in Ho. rewrite <- !app_assoc in Ho.
    cbn [first delete_loop root]. apply wp_bind. eapply wp_deref; [exact Ho|reflexivity|].
    cbn [node_of next child type valuestring name]. rewrite (proj1 Hd) at 1. cbn [negb andb].
    apply wp_bind. eapply (wp_mono _ _ (fun _ s' => owns (mem s')
      ((p, Node (node_of (first None l) pv (first None ks) d)) :: payload_blocks d ++ chain None (Some p) l ++ F))).
    { destruct ks as [|k ks].
      - cbn [first]. rewrite bool_decide_false by (intros Hx; by apply Hx). by apply wp_ret.
      - rewrite bool_decide_true by done. cbn [when].
        eapply (IH (final None (k :: ks))); [lia|done| |intros s' Ho'; exact Ho'].
        same_blocks Ho. }
    intros _ s1 Ho1. apply (wp_delete_texts d s1 Q ((p, Node (node_of (first None l) pv (first None ks) d)) :: chain None (Some p) l ++ F));
      [exact Hd|same_blocks Ho1|].
    intros s2 Ho2. apply wp_bind. eapply wp_deallocate; [exact Ho2|reflexivity|]. intros s3 Ho3.
    eapply (IH (Some p)); [lia|done|exact Ho3|exact HQ].
Qed.

(** A tree on its own is freed whole. *)
Lemma wp_delete pv t s (Q : unit -> store -> Prop) F :
  sound t -> owns (mem s) (cells None pv t ++ F) ->
  (forall s', owns (mem s') F -> Q tt s') -> wp (cJSON_Delete (Some (root t))) s Q.
Proof.
  intros Ht Ho HQ. unfold cJSON_Delete. apply wp_bind, wp_get. rewrite (owns_size _ _ Ho).
  assert (cells None pv t = chain None pv [t]) as E by (cbn [chain first]; by rewrite app_nil_r).
  rewrite E in Ho |- *. apply (delete_loop_spec _ pv [t] s Q F); [rewrite length_app; lia|by constructor|done|done].
Qed.

End Rules.

(** ** Adding *)

Lemma set_next_node x nx pv ch d : set_next x (node_of nx pv ch d) = node_of x pv ch d.
Proof. reflexivity. Qed.
Lemma set_prev_node x nx pv ch d : set_prev x (node_of nx pv ch d) = node_of nx x ch d.
Proof. reflexivity. Qed.
Lemma set_child_node x nx pv ch d : set_child x (node_of nx pv ch d) = node_of nx pv x d.
Proof. reflexivity. Qed.

(** The blocks [Ho] lists with the node at [p] first. *)
Ltac without p L :=
  lazymatch L with
  | (p, Node ?n) :: ?R => constr:((n, R))
  | ?x :: ?R => let r := without p R in lazymatch r with (?n, ?R') => constr:((n, x :: R')) end
  | ?A ++ ?R => let r := without p R in lazymatch r with (?n, ?R') => constr:((n, A ++ R')) end
  end.
Ltac node_first Ho p :=
  lazymatch type of Ho with
  | owns ?m ?L =>
      let r := without p L in
      lazymatch r with (?n, ?R) => let H := fresh in assert (owns m ((p, Node n) :: R)) as H by same_blocks Ho; clear Ho; rename H into Ho end
  end.
Ltac flat Ho := repeat (progress (rewrite <- ?app_assoc in Ho; cbn [app] in Ho)).
(** One memory access, and what [Ho] says afterwards. *)
Ltac links Ho := rewrite ?set_next_node, ?set_prev_node, ?set_child_node in Ho.
Ltac read_node Ho :=
  lazymatch goal with |- wp (deref (Some ?p)) _ _ => node_first Ho p end;
  eapply wp_deref; [exact Ho|reflexivity|cbn [node_of next prev child type valuestring name]].
Ltac write_node Ho :=
  lazymatch goal with |- wp (update (Some ?p) _) _ _ => node_first Ho p end;
  let s' := fresh "s" in let H := fresh in
  eapply wp_update; [exact Ho|reflexivity|intros s' H; clear Ho; rename H into Ho; links Ho].

Section Trees.
Context `{Allocator}.

Lemma roots_distinct nx pv t nx' pv' u m F : owns m (cells nx pv t ++ cells nx' pv' u ++ F) -> root t <> root u.
Proof.
  rewrite !cells_eq. intros Ho.
  apply (owns_distinct m _ (head_cell nx pv t).2 _ (head_cell nx' pv' u).2 (inner t ++ inner u ++ F)).
  apply (owns_perm _ _ _ Ho). unfold head_cell. cbn [snd]. solve_Permutation.
Qed.

(** An item that is in no list becomes the last child. *)
Lemma wp_add_item nx pv a d ks pv' t s (Q : bool -> store -> Prop) F :
  owns (mem s) (cells nx pv (Tree a d ks) ++ cells None pv' t ++ F) ->
  (forall s', owns (mem s') (cells nx pv (Tree a d (ks ++ [t])) ++ F) -> Q true s') ->
  wp (add_item_to_array (Some a) (Some (root t))) s Q.
Proof.
  intros Ho HQ. pose proof (roots_distinct _ _ _ _ _ _ _ _ Ho) as Hne. cbn [root] in Hne.
  rewrite !cells_eq in Ho. unfold head_cell, inner at 1 in Ho. cbn [root data kids app] in Ho.
  rewrite <- !app_assoc in Ho. unfold add_item_to_array.
  rewrite decide_False by done. apply wp_bind. eapply wp_deref; [exact Ho|reflexivity|]. cbn [node_of child].
  set (nt := first None (kids t)) in *. set (I := payload_blocks d) in *.
  destruct ks as [|k ks]; cbn [first].
  - cbn [chain app] in Ho. do 3 (apply wp_bind; write_node Ho).
    apply wp_ret, HQ. rewrite cells_eq. unfold head_cell, inner. cbn [root data kids app first].
    change (final None [t]) with (Some (root t)). rewrite chain_cons. cbn [first chain]. unfold head_cell. same_blocks Ho.
  - set (kn := first None (kids k)) in *. rewrite final_cons, chain_cons in Ho. unfold head_cell in Ho. fold kn in Ho.
    destruct ks as [|u ks _] using rev_ind.
    + cbn [first chain app] in Ho. change (final (Some (root k)) []) with (Some (root k)) in Ho. rewrite app_nil_r in Ho.
      apply wp_bind. read_node Ho. apply wp_bind. unfold suffix_object. apply wp_bind. write_node Ho. write_node Ho.
      apply wp_bind. read_node Ho. apply wp_bind. write_node Ho.
      apply wp_ret, HQ. rewrite cells_eq. unfold head_cell, inner at 1. cbn [root data kids app first].
      change (final None [k; t]) with (Some (root t)). rewrite !chain_cons. cbn [first chain]. unfold head_cell. same_blocks Ho.
    + rewrite final_snoc, siblings_app, chain_cons, first_app in Ho. cbn [first chain] in Ho. unfold head_cell in Ho. flat Ho.
      apply wp_bind. read_node Ho. apply wp_bind. unfold suffix_object. apply wp_bind. write_node Ho. write_node Ho.
      apply wp_bind. read_node Ho. apply wp_bind. write_node Ho.
      apply wp_ret, HQ. rewrite cells_eq. unfold head_cell, inner at 1. cbn [root data kids app first].
      rewrite final_cons, final_snoc.
      rewrite chain_cons, !siblings_app, final_snoc, !first_app. cbn [first]. rewrite !chain_cons. cbn [first chain].
      unfold head_cell. same_blocks Ho.
Qed.

Definition with_name (nm : option text) (d : payload) : payload :=
  mk_payload (p_type d) (p_valuestring d) (p_valueint d) (p_valuedouble d) nm.
Definition with_type (t : Z) (d : payload) : payload :=
  mk_payload t (p_valuestring d) (p_valueint d) (p_valuedouble d) (p_name d).

Lemma set_name_node nm nx pv ch d :
  set_name (option_map text_chars nm) (node_of nx pv ch d) = node_of nx pv ch (with_name nm d).
Proof. reflexivity. Qed.
Lemma set_type_node t nx pv ch d : set_type t (node_of nx pv ch d) = node_of nx pv ch (with_type t d).
Proof. reflexivity. Qed.

(** The payload of an item added under a name that was copied. *)
Definition renamed (q : loc) (s : bytes) (d : payload) : payload :=
  with_type (Z.land (p_type d) (Z.lnot cJSON_StringIsConst)) (with_name (Some (Own q s)) d).

(** An item added to an object gets a copy of the name; its old name is freed. Without
    memory for the copy nothing changes. *)
Lemma wp_add_to_object nx pv o d ks pv' i di ki string s (Q : bool -> store -> Prop) F :
  owned di ->
  owns (mem s) (cells nx pv (Tree o d ks) ++ cells None pv' (Tree i di ki) ++ F) ->
  (forall q s', owns (mem s') (cells nx pv (Tree o d (ks ++ [Tree i (renamed q string di) ki])) ++ F) -> Q true s') ->
  (forall s', refused -> owns (mem s') (cells nx pv (Tree o d ks) ++ cells None pv' (Tree i di ki) ++ F) -> Q false s') ->
  wp (add_item_to_object (Some o) (Some string) (Some i) false) s Q.
Proof.
  intros (_ & _ & Hdn) Ho Hy Hn. pose proof (roots_distinct _ _ _ _ _ _ _ _ Ho) as Hne. cbn [root] in Hne.
  unfold add_item_to_object. rewrite decide_False by done. apply wp_bind. apply wp_bind. unfold cJSON_strdup.
  eapply wp_allocate; [exact Ho| |intros s1 Hx Ho1; by apply wp_ret, wp_ret, Hn].
  clear Ho. intros q s1 Ho. apply wp_ret. cbn [option_map].
  rewrite (cells_eq None pv') in Ho. unfold head_cell, inner, payload_blocks in Ho. cbn [root data kids] in Ho. flat Ho.
  set (C := cells nx pv (Tree o d ks)) in *. set (K := chain None (final None ki) ki) in *.
  apply wp_bind. read_node Ho.
  apply wp_bind. eapply (wp_mono _ _ (fun _ s' => owns (mem s') ((i, Node (node_of None pv' (first None ki) di)) ::
    (q, Text string) :: C ++ text_blocks (p_valuestring di) ++ K ++ F))).
  { destruct (p_name di) as [[r t|t]|] eqn:En; cbn [option_map text_chars text_blocks] in *; rewrite ?Hdn; cbn [negb when].
    - eapply (wp_deallocate r (Text t) ((i, Node (node_of None pv' (first None ki) di)) ::
        (q, Text string) :: C ++ text_blocks (p_valuestring di) ++ K ++ F)); [exact Ho|flat Ho; solve_Permutation|done].
    - apply wp_ret. flat Ho. same_blocks Ho.
    - apply wp_ret. flat Ho. same_blocks Ho. }
  clear Ho. intros _ s2 Ho. apply wp_bind. 
  change (Some (Allocated q)) with (option_map text_chars (Some (Own q string))).
  write_node Ho. rewrite set_name_node in Ho. apply wp_bind. write_node Ho. rewrite set_type_node in Ho.
  eapply (wp_add_item nx pv o d ks pv' (Tree i (renamed q string di) ki)); [|intros s' Ho'; by eapply Hy].
  rewrite (cells_eq None pv'). unfold head_cell, inner, payload_blocks. cbn [root data kids renamed with_type with_name p_valuestring p_name text_blocks].
  fold C K. same_blocks Ho.
Qed.

(** ** What a tree says *)

Definition kind (d : payload) : Z := Z.land (p_type d) 255.
(** The fields of a payload that say [j], its name aside. *)
Definition says (d : payload) (j : json) : Prop :=
  match j with
  | JFalse => kind d = cJSON_False
  | JTrue => kind d = cJSON_True
  | JNull => kind d = cJSON_NULL
  | JNumber x => kind d = cJSON_Number /\ p_valuedouble d = x /\ saturate x = Some (p_valueint d)
  | JString s => kind d = cJSON_String /\ option_map text_bytes (p_valuestring d) = Some s
  | JArray _ => kind d = cJSON_Array
  | JObject _ => kind d = cJSON_Object
  end.

Inductive is_json : tree -> json -> Prop :=
  | is_array p d ks l : says d (JArray l) -> Forall2 is_json ks l -> is_json (Tree p d ks) (JArray l)
  | is_object p d ks l : says d (JObject l) -> Forall2 is_member ks l -> is_json (Tree p d ks) (JObject l)
  | is_scalar p d j :
      says d j -> (match j with JArray _ | JObject _ => False | _ => True end) -> is_json (Tree p d []) j
with is_member : tree -> bytes * json -> Prop :=
  | named t k j : option_map text_bytes (p_name (data t)) = Some k -> is_json t j -> is_member t (k, j).

Lemma renamed_says q k d j : says d j -> says (renamed q k d) j.
Proof.
  assert (kind (renamed q k d) = kind d) as E.
  { unfold kind, renamed. cbn [with_type with_name p_type]. rewrite <- Z.land_assoc. f_equal. }
  destruct j; cbn; rewrite E; done.
Qed.

Lemma renamed_owned q k d : owned d -> owned (renamed q k d).
Proof.
  intros (Hr & Hv & _). unfold owned, renamed, flag in *. cbn [with_type with_name p_type p_valuestring p_name].
  rewrite <- !Z.land_assoc. split; [exact Hr|]. split; [exact Hv|]. by rewrite Z.land_0_r.
Qed.

Lemma renamed_member q k i d ks j : is_json (Tree i d ks) j -> is_member (Tree i (renamed q k d) ks) (k, j).
Proof.
  intros Hj. constructor; [done|].
  inversion Hj; subst; [apply is_array|apply is_object|apply is_scalar]; try done; by apply renamed_says.
Qed.

(** ** Creating

    A function that makes a childless item that says [j], owns what it points to and has no
    name, or answers NULL and leaves the memory as it was. *)
Class Creates (c : M store (option loc)) (j : json) : Prop := creates :
  forall s (Q : option loc -> store -> Prop) F,
    owns (mem s) F ->
    (forall p d s', owned d -> is_json (Tree p d []) j ->
      owns (mem s') (cells None None (Tree p d []) ++ F) -> Q (Some p) s') ->
    (forall s', refused -> owns (mem s') F -> Q None s') -> wp c s Q.

Definition plain (t : Z) : payload := mk_payload t None 0 (S754_zero false) None.

Lemma wp_create t s (Q : option loc -> store -> Prop) F :
  owns (mem s) F ->
  (forall p s', owns (mem s') (cells None None (Tree p (plain t) []) ++ F) -> Q (Some p) s') ->
  (forall s', refused -> owns (mem s') F -> Q None s') -> wp (create t) s Q.
Proof.
  intros Ho Hy Hn. unfold create. apply wp_bind. unfold cJSON_New_Item.
  eapply wp_allocate; [exact Ho| |intros s1 Hx Ho1; apply wp_ret, Hn; auto]. clear Ho. intros p s1 Ho.
  apply wp_bind. change (mk_cJSON None None None 0 None 0 (S754_zero false) None) with (node_of None None None (plain 0)) in Ho.
  write_node Ho. rewrite set_type_node in Ho. apply wp_ret, (Hy p), Ho.
Qed.

(** The types without a value. *)
Lemma create_creates t j :
  flag t cJSON_IsReference = false -> (forall p, is_json (Tree p (plain t) []) j) -> Creates (create t) j.
Proof.
  intros Hr Hj s Q F Ho Hy Hn. eapply wp_create; [exact Ho| |exact Hn]. intros p s' Ho'.
  eapply (Hy p (plain t)); [done|apply Hj|exact Ho'].
Qed.
#[export] Instance null_creates : Creates cJSON_CreateNull JNull.
Proof. apply create_creates; [done|]. intros p. by apply is_scalar. Qed.
#[export] Instance true_creates : Creates cJSON_CreateTrue JTrue.
Proof. apply create_creates; [done|]. intros p. by apply is_scalar. Qed.
#[export] Instance false_creates : Creates cJSON_CreateFalse JFalse.
Proof. apply create_creates; [done|]. intros p. by apply is_scalar. Qed.
#[export] Instance bool_creates b : Creates (cJSON_CreateBool b) (if b then JTrue else JFalse).
Proof. destruct b; [apply true_creates|apply false_creates]. Qed.
#[export] Instance array_creates : Creates cJSON_CreateArray (JArray []).
Proof. apply create_creates; [done|]. intros p. by apply is_array. Qed.
#[export] Instance object_creates : Creates cJSON_CreateObject (JObject []).
Proof. apply create_creates; [done|]. intros p. by apply is_object. Qed.

Lemma number_creates num i : saturate num = Some i -> Creates (cJSON_CreateNumber num) (JNumber num).
Proof.
  intros Hi s Q F Ho Hy Hn. unfold cJSON_CreateNumber. apply wp_bind. unfold cJSON_New_Item.
  eapply wp_allocate; [exact Ho| |intros s1 Hx Ho1; apply wp_ret, Hn; auto]. clear Ho. intros p s1 Ho. rewrite Hi.
  change (mk_cJSON None None None 0 None 0 (S754_zero false) None) with (node_of None None None (plain 0)) in Ho.
  do 2 (apply wp_bind; write_node Ho). apply wp_ret.
  apply (Hy p (mk_payload cJSON_Number None i num None)); [done|by apply is_scalar|exact Ho].
Qed.

(** [cJSON_CreateString] and [cJSON_CreateRaw]: of NULL they make nothing. *)
Lemma wp_create_text t text s (Q : option loc -> store -> Prop) F :
  flag t cJSON_IsReference = false -> owns (mem s) F ->
  (forall p q string s', text = Some string ->
    owns (mem s') (cells None None (Tree p (mk_payload t (Some (Own q string)) 0 (S754_zero false) None) []) ++ F) -> Q (Some p) s') ->
  (forall s', text = None \/ refused -> owns (mem s') F -> Q None s') -> wp (create_text t text) s Q.
Proof.
  intros Hr Ho Hy Hn. unfold create_text. apply wp_bind. unfold cJSON_New_Item.
  eapply wp_allocate; [exact Ho| |intros s1 Hx Ho1; apply wp_ret, Hn; auto]. clear Ho. intros p s1 Ho.
  change (mk_cJSON None None None 0 None 0 (S754_zero false) None) with (node_of None None None (plain 0)) in Ho.
  apply wp_bind. write_node Ho. rewrite set_type_node in Ho. change (with_type t (plain 0)) with (plain t) in Ho.
  assert (forall s', text = None \/ refused -> owns (mem s') ((p, Node (node_of None None None (plain t))) :: F) ->
    wp (update (Some p) (set_valuestring None) ;;; cJSON_Delete (Some p) ;;; ret None) s' Q) as Hnone.
  { intros s' Hx Ho'. apply wp_bind. write_node Ho'. apply wp_bind.
    eapply (wp_delete None (Tree p (plain t) [])); [by repeat constructor|exact Ho'|]. intros s9 Ho9. apply wp_ret, Hn; auto. }
  apply wp_bind. unfold cJSON_strdup. destruct text as [string|]; [|apply wp_ret, Hnone; auto].
  eapply wp_allocate; [exact Ho| |intros s8 Hx; apply Hnone; auto]. clear Ho. intros q s9 Ho. cbn [option_map].
  apply wp_bind. write_node Ho. apply wp_ret. by apply (Hy p q string).
Qed.

#[export] Instance string_creates text : Creates (cJSON_CreateString (Some text)) (JString text).
Proof.
  intros s Q F Ho Hy Hn. eapply wp_create_text; [done|exact Ho| |intros s' [?|?]; [done|by apply Hn]]. intros p q string s' [= <-] Ho'.
  eapply (Hy p); [|apply is_scalar|exact Ho']; done.
Qed.

(** ** Members

    Whatever the allocator answers, an object either gets the member or stays as it is, and
    in neither case is a block lost. *)
Lemma add_created_spec c j nx pv o d ks k s (Q : option loc -> store -> Prop) F :
  Creates c j -> owns (mem s) (cells nx pv (Tree o d ks) ++ F) ->
  (forall p t s', root t = p -> is_member t (k, j) -> sound t ->
    owns (mem s') (cells nx pv (Tree o d (ks ++ [t])) ++ F) -> Q (Some p) s') ->
  (forall s', refused -> owns (mem s') (cells nx pv (Tree o d ks) ++ F) -> Q None s') ->
  wp (add_created (Some o) (Some k) c) s Q.
Proof.
  intros Hc Ho Hy Hn. unfold add_created. apply wp_bind. eapply Hc; [exact Ho| |].
  - clear Ho. intros p e s1 He Hj Ho. apply wp_bind.
    assert (owns (mem s1) (cells nx pv (Tree o d ks) ++ cells None None (Tree p e []) ++ F)) as Ho' by same_blocks Ho.
    eapply wp_add_to_object; [exact He|exact Ho'| |].
    + intros q s2 Ho2. apply wp_ret. eapply (Hy p); [|by apply renamed_member| |exact Ho2]; [done|].
      constructor; [by apply renamed_owned|done].
    + intros s2 Hx Ho2. apply wp_bind. apply (wp_delete None (Tree p e []) s2 _ (cells nx pv (Tree o d ks) ++ F)); [by constructor|same_blocks Ho2|].
      intros s3 Ho3. by apply wp_ret, Hn.
  - intros s1 Hx Ho1. apply wp_bind. unfold add_item_to_object. apply wp_ret. apply wp_bind.
    unfold cJSON_Delete. apply wp_bind, wp_get. destruct (size (mem s1)); by apply wp_ret, wp_ret, Hn.
Qed.

End Trees.

(** ** The requests of a run

    What a computation does depends on the answers to its own requests only: these can be
    told from the rest of the allocator. *)

(** The allocator that refuses what [A] refuses among the requests from [i] on and before
    [j]. *)
#[refine] Definition narrowed (A : Allocator) (i j : nat) : Allocator :=
  {| refuses n := refuses n && ((i <=? n) && (n <? j))%nat; place := place |}.
Proof. apply place_fresh. Defined.

Lemma narrowed_refuses A i j n : @refuses (narrowed A i j) n = true -> (i <= n < j)%nat /\ @refuses A n = true.
Proof. cbn [narrowed refuses]. rewrite !andb_true_iff, Nat.leb_le, Nat.ltb_lt. tauto. Qed.
Lemma narrowed_malloc A i j n live : (i <= n < j)%nat -> @malloc (narrowed A i j) n live = @malloc A n live.
Proof.
  intros [Hi Hj]. unfold malloc. cbn [narrowed refuses place].
  by rewrite (proj2 (Nat.leb_le _ _) Hi), (proj2 (Nat.ltb_lt _ _) Hj), andb_true_r.
Qed.

(** One of the requests between two states was refused. *)
Definition refused_between `{Allocator} (s s' : store) : Prop :=
  exists n, (requests s <= n < requests s')%nat /\ refuses n = true.
Lemma narrowed_refused A (s s' : store) :
  @refused (narrowed A (requests s) (requests s')) -> @refused_between A s s'.
Proof. intros [n Hn]. exists n. by apply narrowed_refuses. Qed.

Definition local {X : Type} (m : Allocator -> M store X) : Prop := forall A s a s', m A s = Ok (a, s') ->
  (requests s <= requests s')%nat /\
  forall i j, (i <= requests s)%nat -> (requests s' <= j)%nat -> m (narrowed A i j) s = Ok (a, s').

Section Locality.
Context {X Y : Type}.

Lemma local_ret (x : X) : local (fun _ => ret x).
Proof. intros A s a s' [= <- <-]. by split. Qed.
Lemma local_raise f : local (fun _ => raise f : M store X).
Proof. done. Qed.
Lemma local_bind (m : Allocator -> M store X) (k : Allocator -> X -> M store Y) :
  local m -> (forall x, local (fun A => k A x)) -> local (fun A => bind (m A) (k A)).
Proof.
  intros Hm Hk A s b s' E. unfold bind in E. destruct (m A s) as [[a s1]|] eqn:E1; [|done].
  destruct (Hm A s a s1 E1) as [L1 N1], (Hk a A s1 b s' E) as [L2 N2]. split; [lia|].
  intros i j Hi Hj. unfold bind. rewrite (N1 i j) by lia. apply N2; lia.
Qed.
(** What asks for nothing. *)
Lemma local_const (m : M store X) :
  (forall s a s', m s = Ok (a, s') -> requests s' = requests s) -> local (fun _ => m).
Proof. intros Hm A s a s' E. rewrite (Hm s a s' E). by split. Qed.
End Locality.

Create HintDb local_db.

Lemma local_get : local (fun _ => get).
Proof. by apply local_const; intros s a s' [= <- <-]. Qed.
Lemma local_deref p : local (fun _ => deref p).
Proof.
  apply local_const. intros s a s' E. unfold deref, bind, get, ret, raise in E.
  repeat case_match; simplify_eq; done.
Qed.
Lemma local_update p f : local (fun _ => update p f).
Proof.
  apply local_const. intros s a s' E. unfold update, deref, bind, get, put, ret, raise in E.
  repeat case_match; simplify_eq; done.
Qed.
Lemma local_deallocate p : local (fun _ => deallocate p).
Proof.
  apply local_const. intros s a s' E. unfold deallocate, bind, get, put, raise in E.
  repeat case_match; simplify_eq; done.
Qed.
Lemma local_read_chars c : local (fun _ => read_chars c).
Proof.
  apply local_const. intros s a s' E. unfold read_chars, bind, get, ret, raise in E.
  repeat case_match; simplify_eq; done.
Qed.
Lemma local_allocate b : local (fun A => allocate b).
Proof.
  intros A s a s' E. unfold allocate, bind, get, put, ret in *.
  assert (requests s' = S (requests s)) as Es by (destruct (malloc _ _); by simplify_eq).
  split; [lia|]. intros i j Hi Hj. by rewrite narrowed_malloc by lia.
Qed.
#[export] Hint Resolve local_get local_deref local_update local_deallocate local_read_chars local_allocate : local_db.

(** A computation is taken apart into its steps and branches. *)
Ltac local_step :=
  lazymatch goal with
  | |- local (fun A => bind (@?m A) (@?k A)) => apply (local_bind m k); [|intros ?; cbv beta]
  | |- local (fun _ => ret _) => apply local_ret
  | |- local (fun _ => raise _) => apply local_raise
  | |- local (fun A => if ?b then _ else _) => destruct b
  | |- local (fun A => match ?x with _ => _ end) => destruct x
  | |- local (fun A => when _ _) => unfold when
  | |- local (fun A => let '_ := ?x in _) => destruct x
  end.
Ltac local_auto := cbv zeta; repeat (solve [auto 1 with local_db nocore] || assumption || local_step).

Lemma local_deallocate_chars c : local (fun _ => deallocate_chars c).
Proof. unfold deallocate_chars. local_auto. Qed.
#[export] Hint Resolve local_deallocate_chars : local_db.

Lemma local_delete_loop fuel item : local (fun _ => delete_loop fuel item).
Proof. revert item. induction fuel as [|fuel IH]; intros [p|]; cbn [delete_loop]; local_auto; apply IH. Qed.
#[export] Hint Resolve local_delete_loop : local_db.

Lemma local_delete item : local (fun _ => cJSON_Delete item).
Proof. unfold cJSON_Delete. local_auto. Qed.
Lemma local_strdup x : local (fun A => cJSON_strdup x).
Proof. unfold cJSON_strdup. local_auto. Qed.
Lemma local_new_item : local (fun A => cJSON_New_Item).
Proof. unfold cJSON_New_Item. local_auto. Qed.
#[export] Hint Resolve local_delete local_strdup local_new_item : local_db.

Lemma local_create t : local (fun A => create t).
Proof. unfold create. local_auto. Qed.
Lemma local_create_number x : local (fun A => cJSON_CreateNumber x).
Proof. unfold cJSON_CreateNumber. local_auto. Qed.
Lemma local_create_text t x : local (fun A => create_text t x).
Proof. unfold create_text. local_auto. Qed.
Lemma local_add_to_array a i : local (fun _ => add_item_to_array a i).
Proof. unfold add_item_to_array, suffix_object. local_auto. Qed.
#[export] Hint Resolve local_create local_create_number local_create_text local_add_to_array : local_db.

Lemma local_add_to_object o k i c : local (fun A => add_item_to_object o k i c).
Proof. unfold add_item_to_object. local_auto. Qed.
#[export] Hint Resolve local_add_to_object : local_db.

Lemma local_add_created o k (c : Allocator -> M store (option loc)) : local c -> local (fun A => add_created o k (c A)).
Proof. intros Hc. unfold add_created. local_auto. Qed.
#[export] Hint Resolve local_add_created : local_db.
