(* ===== verification/JsonPrinter.v ===== *)
(** * The printer in memory

    [print] of [packages/cJSON-v1.7.17/cJSON.c] on the nodes and the growing buffer in
    memory: [ensure] with its reallocation, the offset kept by [update_offset], the writes
    within the room that was asked for, and the ways out when the allocator refuses. What
    it leaves in the buffer is what [Json.print_value] or [JsonFormat.print_formatted] give
    for the tree; when it fails it has freed its buffer. *)

From stdpp Require Import base numbers list gmap.
From Stdlib Require Import ZArith Lia Floats.SpecFloat.
From S2P Require Import Prelude CFloat Json JsonFormat JsonStore.

Open Scope Z_scope.

(** ** The buffer *)

(** [printbuffer], its hooks being those of the whole library. *)
Record printbuffer : Type := mk_printbuffer {
  buffer : option loc;
  buffer_length : Z;
  offset : Z;
  depth : nat;
  noalloc : bool;
  format : bool
}.
Definition set_buffer (b : option loc) (l : Z) (p : printbuffer) : printbuffer :=
  mk_printbuffer b l (offset p) (depth p) (noalloc p) (format p).
Definition advance (n : Z) (p : printbuffer) : printbuffer :=
  mk_printbuffer (buffer p) (buffer_length p) (offset p + n) (depth p) (noalloc p) (format p).
Definition set_depth (d : nat) (p : printbuffer) : printbuffer :=
  mk_printbuffer (buffer p) (buffer_length p) (offset p) d (noalloc p) (format p).

(** What a printing function answers, with the buffer it leaves. *)
Abbreviation printed := (bool * printbuffer)%type.

Section Printer.
Context `{Allocator}.

(** Go on when a step has not failed. *)
Definition attempt (m : M store printed) (k : printbuffer -> M store printed) : M store printed :=
  r <- m ;; if fst r then k (snd r) else ret r.
Notation "p <-! m ;; k" := (attempt m (fun p => k)) (at level 100, m at next level, right associativity).

(** [hooks->reallocate]: the block moves with what it holds; the sizes asked for are never
    below that. *)
Definition reallocate (b : loc) : M store (option loc) :=
  s <- get ;;
  match mem s !! b with
  | None => raise UseAfterFree
  | Some c =>
      match malloc (requests s) (dom (delete b (mem s))) with
      | Some q => put (mk_store (<[q := c]> (delete b (mem s))) (S (requests s))) ;;; ret (Some q)
      | None => put (mk_store (mem s) (S (requests s))) ;;; ret None
      end
  end.

(** The size to grow to. *)
Definition new_size (needed : Z) : option Z :=
  if INT_MAX / 2 <? needed then (if needed <=? INT_MAX then Some INT_MAX else None) else Some (needed * 2).

Definition ensure (p : printbuffer) (needed : Z) : M store printed :=
  match buffer p with
  | None => ret (false, p)
  | Some b =>
      if (0 <? buffer_length p) && (buffer_length p <=? offset p) then ret (false, p)
      else if INT_MAX <? needed then ret (false, p)
      else
        let needed := u32 (needed + (offset p + 1)) in
        if needed <=? buffer_length p then ret (true, p)
        else if noalloc p then ret (false, p)
        else
          match new_size needed with
          | None => ret (false, p)
          | Some newsize =>
              newbuffer <- reallocate b ;;
              match newbuffer with
              | None => deallocate b ;;; ret (false, set_buffer None 0 p)
              | Some q => ret (true, set_buffer (Some q) newsize p)
              end
          end
  end.

(** Characters written at the offset; there has to be room for them and for a NUL. What was
    behind them is not text any more. *)
Definition write (p : printbuffer) (w : bytes) : M store unit :=
  match buffer p with
  | None => raise NullAccess
  | Some b =>
      s <- get ;;
      match mem s !! b with
      | Some (Text t) =>
          if offset p + Z.of_nat (length w) <? buffer_length p
          then put (mk_store (<[b := Text (take (Z.to_nat (offset p)) t ++ w)]> (mem s)) (requests s))
          else raise OutOfBounds
      | _ => raise UseAfterFree
      end
  end.

(** The offset moves by the [strlen] of what starts there. *)
Definition update_offset (p : printbuffer) : M store printbuffer :=
  match buffer p with
  | None => ret p
  | Some b => t <- read_chars (Allocated b) ;; ret (advance (Z.of_nat (length (drop (Z.to_nat (offset p)) t))) p)
  end.

(** [ensure] and, if there is room, the writes behind it. *)
Definition emit (p : printbuffer) (needed : Z) (w : bytes) : M store printed :=
  p <-! ensure p needed ;; write p w ;;; ret (true, p).

(** ** The parts of a text *)

(** [number_buffer], from [valueint] and [valuedouble]. *)
Definition number_buffer (i : Z) (d : spec_float) : bytes :=
  match d with
  | S754_nan | S754_infinity _ => s_null
  | _ => if SFeqb d (of_Z binary64 i) then sprintf_d i
         else let s := sprintf_g 15 d in
              match strtod s with
              | Some (test, _) => if compare_double test d then s else sprintf_g 17 d
              | None => sprintf_g 17 d
              end
  end.
Definition print_number (n : cJSON) (p : printbuffer) : M store printed :=
  let w := number_buffer (valueint n) (valuedouble n) in
  let len := Z.of_nat (length w) in
  if 25 <? len then ret (false, p)
  else p <-! emit p (len + 1) w ;; ret (true, advance len p).

(** The additional characters that a character of a string takes. *)
Definition escape_characters (c : Z) : Z :=
  if (c =? 34) || (c =? 92) || (c =? 8) || (c =? 12) || (c =? 10) || (c =? 13) || (c =? 9) then 1
  else if c <? 32 then 5 else 0.
Definition output_length (input : bytes) : Z :=
  Z.of_nat (length input) + foldr (fun c n => escape_characters c + n) 0 input.

Definition print_string_ptr (input : option chars) (p : printbuffer) : M store printed :=
  match input with
  | None => emit p 3 [34; 34]
  | Some c => s <- read_chars c ;; emit p (output_length s + 3) (Json.print_string_ptr s)
  end.

Definition print_raw (n : cJSON) (p : printbuffer) : M store printed :=
  match valuestring n with
  | None => ret (false, p)
  | Some c => s <- read_chars c ;; emit p (Z.of_nat (length s) + 1) s
  end.

(** The end of [print_array], and of [print_object]. *)
Definition close_array (p : printbuffer) : M store printed :=
  p <-! emit p 2 [93] ;; ret (true, set_depth (pred (depth p)) p).
Definition close_object (p : printbuffer) : M store printed :=
  p <-! emit p (if format p then Z.of_nat (depth p) + 1 else 2)
          ((if format p then tabs (depth p - 1) else []) ++ [125]) ;;
  ret (true, set_depth (pred (depth p)) p).

(** What is between two elements, and behind a member. *)
Definition separator (p : printbuffer) : bytes := if format p then [44; 32] else [44].
Definition member_end (p : printbuffer) (nx : option loc) : bytes :=
  (match nx with Some _ => [44] | None => [] end) ++ (if format p then [10] else []).
Definition indent (p : printbuffer) : M store printed :=
  if format p
  then p <-! emit p (Z.of_nat (depth p)) (tabs (depth p)) ;; ret (true, advance (Z.of_nat (depth p)) p)
  else ret (true, p).

(** A text that is written and skipped at once. *)
Definition emit_skip (p : printbuffer) (needed : Z) (w : bytes) : M store printed :=
  p <-! emit p needed w ;; ret (true, advance (Z.of_nat (length w)) p).

(** [print_value], and the loops of [print_array] and [print_object] from a child on;
    each node takes a turn of a loop and a call. *)
Fixpoint print_value (fuel : nat) (item : option loc) (p : printbuffer) : M store printed :=
  match item, fuel with
  | None, _ => ret (false, p)
  | Some _, O => raise StillWaiting
  | Some _, S fuel =>
      n <- deref item ;;
      let t := Z.land (type n) 255 in
      if t =? cJSON_NULL then emit p 5 s_null
      else if t =? cJSON_False then emit p 6 s_false
      else if t =? cJSON_True then emit p 5 s_true
      else if t =? cJSON_Number then print_number n p
      else if t =? cJSON_Raw then print_raw n p
      else if t =? cJSON_String then print_string_ptr (valuestring n) p
      else if t =? cJSON_Array then
        p <-! emit_skip p 1 [91] ;; print_elements fuel (child n) (set_depth (S (depth p)) p)
      else if t =? cJSON_Object then
        let w := if format p then [123; 10] else [123] in
        p <-! emit_skip p (Z.of_nat (length w) + 1) w ;; print_members fuel (child n) (set_depth (S (depth p)) p)
      else ret (false, p)
  end
with print_elements (fuel : nat) (current_element : option loc) (p : printbuffer) : M store printed :=
  match current_element, fuel with
  | None, _ => close_array p
  | Some _, O => raise StillWaiting
  | Some _, S fuel =>
      p <-! print_value fuel current_element p ;;
      p <- update_offset p ;;
      n <- deref current_element ;;
      p <-! (match next n with
             | Some _ => emit_skip p (Z.of_nat (length (separator p)) + 1) (separator p)
             | None => ret (true, p)
             end) ;;
      print_elements fuel (next n) p
  end
with print_members (fuel : nat) (current_item : option loc) (p : printbuffer) : M store printed :=
  match current_item, fuel with
  | None, _ => close_object p
  | Some _, O => raise StillWaiting
  | Some _, S fuel =>
      p <-! indent p ;;
      n <- deref current_item ;;
      p <-! print_string_ptr (name n) p ;;
      p <- update_offset p ;;
      (let w := if format p then [58; 9] else [58] in
       p <-! emit_skip p (Z.of_nat (length w)) w ;;
       p <-! print_value fuel current_item p ;;
       p <- update_offset p ;;
       n <- deref current_item ;;
       let w := member_end p (next n) in
       p <-! emit_skip p (Z.of_nat (length w) + 1) w ;;
       print_members fuel (next n) p)
  end.

(** [print]: the text in a block of its own, or NULL. *)
Definition print (item : option loc) (fmt : bool) : M store (option loc) :=
  b <- allocate (Text []) ;;
  match b with
  | None => ret None
  | Some _ =>
      s <- get ;;
      r <- print_value (2 * size (mem s)) item (mk_printbuffer b 256 0 0 false fmt) ;;
      (if fst r then
         p <- update_offset (snd r) ;;
         match buffer p with
         | Some q =>
             moved <- reallocate q ;;
             match moved with
             | Some t => ret (Some t)
             | None => deallocate q ;;; ret None
             end
         | None => ret None
         end
       else
         match buffer (snd r) with
         | Some q => deallocate q ;;; ret None
         | None => ret None
         end)
  end.
Definition cJSON_Print (item : option loc) : M store (option loc) := print item true.
Definition cJSON_PrintUnformatted (item : option loc) : M store (option loc) := print item false.
End Printer.

(** ** The text of a tree *)

Definition spec_text (fmt : bool) (d : nat) (j : json) : option bytes :=
  if fmt then print_formatted d j else Json.print_value j.
Definition text_elements (fmt : bool) (d : nat) (l : list json) : option bytes :=
  if fmt then format_elements d l else Json.print_elements l.
Definition text_members (fmt : bool) (d : nat) (l : list (bytes * json)) : option bytes :=
  if fmt then format_members d l else Json.print_members l.

Lemma spec_array fmt d l : spec_text fmt d (JArray l) = option_map (cons 91) (text_elements fmt d l).
Proof. destruct fmt; [apply format_array|apply print_array]. Qed.

Lemma spec_object fmt d l :
  spec_text fmt d (JObject l) = option_map (app (if fmt then [123; 10] else [123])) (text_members fmt d l).
Proof. destruct fmt; [apply format_object|apply print_object]. Qed.

Lemma text_elements_cons fmt d v l : text_elements fmt d (v :: l) =
  match spec_text fmt (S d) v, text_elements fmt d l with
  | Some s, Some t => Some (s ++ (match l with [] => [] | _ => if fmt then [44; 32] else [44] end) ++ t)
  | _, _ => None
  end.
Proof. by destruct fmt. Qed.

Lemma text_members_cons fmt d k v l : text_members fmt d ((k, v) :: l) =
  match spec_text fmt (S d) v, text_members fmt d l with
  | Some s, Some t =>
      Some ((if fmt then tabs (S d) else []) ++ Json.print_string_ptr k ++ (if fmt then [58; 9] else [58]) ++ s ++
            ((match l with [] => [] | _ => [44] end) ++ (if fmt then [10] else [])) ++ t)
  | _, _ => None
  end.
Proof.
  destruct fmt; cbn [text_members spec_text app].
  - rewrite format_members_cons. destruct (print_formatted (S d) v), (format_members d l); try done.
    do 2 f_equal. by destruct l.
  - cbn [Json.print_members]. destruct (Json.print_value v), (Json.print_members l); try done. by rewrite app_nil_r.
Qed.

Lemma number_buffer_text i d w : saturate d = Some i -> Json.print_number d = Some w ->
  number_buffer i d = w /\ (length w <= 25)%nat.
Proof.
  intros Hi.
  assert (forall b, (if 25 <? Z.of_nat (length b) then None else Some b) = Some w -> b = w /\ (length w <= 25)%nat) as H.
  { intros b. destruct (25 <? Z.of_nat (length b)) eqn:E; [done|]. intros [= <-]. split; [done|lia]. }
  unfold Json.print_number. destruct d; rewrite ?Hi; apply H.
Qed.

(** The room asked for a string is what it takes. *)
Lemma output_length_text s : Forall char_ok s -> Z.of_nat (length (Json.print_string_ptr s)) = output_length s + 2.
Proof.
  intros Hs. unfold Json.print_string_ptr, output_length. rewrite !length_app. cbn [length].
  assert (Z.of_nat (length (flat_map escape s)) = Z.of_nat (length s) + foldr (fun c n => escape_characters c + n) 0 s) as E; [|lia].
  induction Hs as [|c s Hc _ IH]; [done|]. cbn [flat_map foldr length]. rewrite length_app, Nat2Z.inj_add, IH.
  assert (Z.of_nat (length (escape c)) = 1 + escape_characters c) as Ec; [|lia].
  unfold escape, escape_characters, char_ok in *.
  destruct ((31 <? c) && negb (c =? 34) && negb (c =? 92)) eqn:E; repeat (case_match; cbn [length]; try lia).
Qed.

Section Correctness.
Context `{Allocator}.

Abbreviation len l := (Z.of_nat (length l)).

(** The buffer holds [full], and nothing is owned besides it and [F]; the offset may be
    behind the end of the text. *)
Definition wrote (fmt : bool) (d : nat) (p : printbuffer) (s : store) (full : bytes) (F : list (loc * block)) : Prop :=
  (exists b, buffer p = Some b /\ owns (mem s) ((b, Text full) :: F)) /\
  0 <= offset p <= len full /\ len full < buffer_length p /\ noalloc p = false /\ format p = fmt /\ depth p = d.
Definition ready fmt d p s full F : Prop := wrote fmt d p s full F /\ offset p = len full.
(** What a failing function leaves to be freed. *)
Definition left (p : printbuffer) (s : store) (F : list (loc * block)) : Prop :=
  match buffer p with Some b => exists t, owns (mem s) ((b, Text t) :: F) | None => owns (mem s) F end.
(** Success with [Q], or failure, which there is only with an allocator that refuses requests. *)
Definition gives (m : M store printed) (s : store) (F : list (loc * block)) (Q : printbuffer -> store -> Prop) : Prop :=
  wp m s (fun r s' => if fst r then Q (snd r) s' else left (snd r) s' F /\ refused).

#[export] Instance wrote_proper fmt d p s full : Proper ((≡ₚ) ==> iff) (wrote fmt d p s full).
Proof. intros F F' HF. unfold wrote. by setoid_rewrite HF. Qed.
#[export] Instance left_proper p s : Proper ((≡ₚ) ==> iff) (left p s).
Proof. intros F F' HF. unfold left. destruct (buffer p); by setoid_rewrite HF. Qed.

Lemma gives_ret p s F (Q : printbuffer -> store -> Prop) : Q p s -> gives (ret (true, p)) s F Q.
Proof. intros HQ. by apply wp_ret. Qed.

Lemma gives_attempt m k s F Q :
  gives m s F (fun p s' => gives (k p) s' F Q) -> gives (attempt m k) s F Q.
Proof.
  intros Hm. unfold gives, attempt in *. apply wp_bind. eapply wp_mono; [exact Hm|].
  intros [[] p] s' HQ; cbn [fst snd] in *; [exact HQ|by apply wp_ret].
Qed.

Lemma gives_frame m s F F' (Q : printbuffer -> store -> Prop) : F ≡ₚ F' -> gives m s F Q -> gives m s F' Q.
Proof.
  intros HF Hm. eapply wp_mono; [exact Hm|]. intros [[] p] s'; cbn [fst snd]; [done|]. by rewrite HF.
Qed.

Lemma ensure_spec fmt d p needed s full F (Q : printbuffer -> store -> Prop) :
  ready fmt d p s full F -> 0 <= needed -> len full + needed + 1 <= INT_MAX ->
  (forall p' s', ready fmt d p' s' full F -> len full + needed + 1 <= buffer_length p' -> Q p' s') ->
  gives (ensure p needed) s F Q.
Proof.
  intros [((b & Hb & Ho) & Hr & Hlt & Hna & Hf & Hd) Hat] Hn Hmax HQ. unfold ensure, INT_MAX in *. rewrite Hb, Hna.
  replace ((0 <? buffer_length p) && (buffer_length p <=? offset p)) with false by lia.
  replace (2147483647 <? needed) with false by lia. cbv zeta. rewrite wrap_small by lia.
  destruct (needed + (offset p + 1) <=? buffer_length p) eqn:E.
  { apply gives_ret, HQ; [|lia]. split; [|done]. split; [by exists b|]. done. }
  unfold new_size, INT_MAX. replace (needed + (offset p + 1) <=? 2147483647) with true by lia.
  set (size := if 2147483647 / 2 <? needed + (offset p + 1) then Some 2147483647 else Some ((needed + (offset p + 1)) * 2)).
  assert (exists z, size = Some z /\ needed + (offset p + 1) <= z) as (z & -> & Hz).
  { unfold size. destruct (2147483647 / 2 <? _); eexists; (split; [reflexivity|lia]). }
  unfold reallocate. apply wp_bind, wp_bind, wp_get. rewrite (owns_lookup _ _ _ _ Ho).
  destruct (malloc (requests s) (dom (delete b (mem s)))) as [q|] eqn:Em; apply wp_bind, wp_put, wp_ret.
  - apply wp_ret. cbn [fst snd]. apply HQ; [|cbn; lia]. split; [|done]. split; [|cbn; repeat split; try done; lia].
    exists q. split; [done|]. cbn [mem]. apply owns_fresh; [by eapply malloc_fresh|]. by eapply owns_free.
  - apply wp_bind. eapply wp_deallocate; [exact Ho|reflexivity|]. intros s' Ho'. apply wp_ret. cbn [fst snd].
    split; [exact Ho'|]. by eapply malloc_refused.
Qed.

Lemma emit_spec fmt d p needed w s full F (Q : printbuffer -> store -> Prop) :
  ready fmt d p s full F -> len w <= needed -> len full + needed + 1 <= INT_MAX ->
  (forall p' s', wrote fmt d p' s' (full ++ w) F -> offset p' = len full -> Q p' s') ->
  gives (emit p needed w) s F Q.
Proof.
  intros Hp Hw Hmax HQ. apply gives_attempt. eapply ensure_spec; [exact Hp|lia|exact Hmax|].
  clear p s Hp. intros p s [((b & Hb & Ho) & Hr & Hlt & Hna & Hf & Hd) Hat] Hl. unfold gives, write. rewrite Hb.
  apply wp_bind, wp_bind, wp_get. rewrite (owns_lookup _ _ _ _ Ho).
  replace (offset p + len w <? buffer_length p) with true by lia. apply wp_put, wp_ret. cbn [fst snd].
  rewrite Hat, Nat2Z.id, firstn_all. apply HQ; [|done]. split.
  - exists b. split; [done|]. cbn [mem]. by eapply owns_write.
  - split; [|split; [|done]]; rewrite length_app; lia.
Qed.

Lemma wrote_advance fmt d p s full w F :
  wrote fmt d p s (full ++ w) F -> offset p = len full -> ready fmt d (advance (len w) p) s (full ++ w) F.
Proof.
  intros (Hb & Hr & Hlt & Hx) Ho. split; [|cbn; rewrite length_app; lia]. split; [exact Hb|]. split; [|split; [exact Hlt|exact Hx]].
  cbn [advance offset]. rewrite length_app in *. lia.
Qed.

Lemma emit_skip_spec fmt d p needed w s full F (Q : printbuffer -> store -> Prop) :
  ready fmt d p s full F -> len w <= needed -> len full + needed + 1 <= INT_MAX ->
  (forall p' s', ready fmt d p' s' (full ++ w) F -> Q p' s') -> gives (emit_skip p needed w) s F Q.
Proof.
  intros Hp Hw Hmax HQ. apply gives_attempt. eapply emit_spec; [done..|]. intros p' s' Hw' Ho. apply gives_ret, HQ.
  by apply wrote_advance.
Qed.

Lemma update_offset_spec fmt d p s full F (Q : printbuffer -> store -> Prop) :
  wrote fmt d p s full F -> (forall p', ready fmt d p' s full F -> Q p' s) -> wp (update_offset p) s Q.
Proof.
  intros ((b & Hb & Ho) & Hr & Hx) HQ. unfold update_offset, read_chars. rewrite Hb. apply wp_bind, wp_bind, wp_get.
  rewrite (owns_lookup _ _ _ _ Ho). apply wp_ret, wp_ret, HQ. rewrite length_drop. split.
  - split; [by exists b|]. split; [cbn; lia|done].
  - cbn. lia.
Qed.

Lemma ready_format fmt d p s full F : ready fmt d p s full F -> format p = fmt /\ depth p = d.
Proof. intros [(_ & _ & _ & _ & Hf & Hd) _]. done. Qed.

Lemma ready_depth fmt d d' p s full F : ready fmt d p s full F -> ready fmt d' (set_depth d' p) s full F.
Proof. intros [(Hb & Hr & Hl & Hna & Hf & Hd) Hat]. split; [|exact Hat]. by repeat (split; [done|]). Qed.

Lemma wrote_depth fmt d d' p s full F : wrote fmt d p s full F -> wrote fmt d' (set_depth d' p) s full F.
Proof. intros (Hb & Hr & Hl & Hna & Hf & Hd). by repeat (split; [done|]). Qed.

Lemma close_array_spec fmt d p s full F (Q : printbuffer -> store -> Prop) :
  ready fmt (S d) p s full F -> len full + 3 <= INT_MAX ->
  (forall p' s', wrote fmt d p' s' (full ++ [93]) F -> Q p' s') -> gives (close_array p) s F Q.
Proof.
  intros Hp Hmax HQ. apply gives_attempt. eapply emit_spec; [exact Hp|cbn; lia|lia|].
  intros p' s' Hw _. apply gives_ret, HQ. pose proof Hw as (_ & _ & _ & _ & _ & ->). by eapply wrote_depth.
Qed.

Lemma close_object_spec fmt d p s full F (Q : printbuffer -> store -> Prop) :
  ready fmt (S d) p s full F -> len full + len (if fmt then tabs d else []) + 8 <= INT_MAX ->
  (forall p' s', wrote fmt d p' s' (full ++ (if fmt then tabs d else []) ++ [125]) F -> Q p' s') ->
  gives (close_object p) s F Q.
Proof.
  intros Hp Hmax HQ. destruct (ready_format _ _ _ _ _ _ Hp) as [Hf Hd]. unfold close_object. rewrite Hf, Hd.
  assert (len (tabs d) = Z.of_nat d) as Hl by (unfold tabs; by rewrite length_replicate).
  rewrite Nat.sub_1_r. cbn [pred]. apply gives_attempt. eapply emit_spec; [exact Hp| | |].
  - rewrite length_app. destruct fmt; cbn [length]; lia.
  - destruct fmt; lia.
  - intros p' s' Hw _. apply gives_ret, HQ. pose proof Hw as (_ & _ & _ & _ & _ & ->). by eapply wrote_depth.
Qed.

Lemma indent_spec fmt d p s full F (Q : printbuffer -> store -> Prop) :
  ready fmt d p s full F -> len full + len (if fmt then tabs d else []) + 1 <= INT_MAX ->
  (forall p' s', ready fmt d p' s' (full ++ (if fmt then tabs d else [])) F -> Q p' s') -> gives (indent p) s F Q.
Proof.
  intros Hp Hmax HQ. destruct (ready_format _ _ _ _ _ _ Hp) as [Hf Hd]. unfold indent. rewrite Hf, Hd. destruct fmt.
  - assert (len (tabs d) = Z.of_nat d) as Hl by (unfold tabs; by rewrite length_replicate).
    apply gives_attempt. eapply emit_spec; [exact Hp|lia|lia|]. intros p' s' Hw Ho. apply gives_ret, HQ.
    pose proof Hw as (_ & _ & _ & _ & _ & ->). rewrite <- Hl. by apply wrote_advance.
  - apply gives_ret, HQ. by rewrite app_nil_r.
Qed.

Lemma print_string_spec fmt d p x R s full F (Q : printbuffer -> store -> Prop) :
  ready fmt d p s full F -> F ≡ₚ text_blocks (Some x) ++ R -> Forall char_ok (text_bytes x) ->
  len full + len (Json.print_string_ptr (text_bytes x)) + 2 <= INT_MAX ->
  (forall p' s', wrote fmt d p' s' (full ++ Json.print_string_ptr (text_bytes x)) F -> Q p' s') ->
  gives (print_string_ptr (Some (text_chars x)) p) s F Q.
Proof.
  intros Hp HF Hx Hmax HQ. unfold gives, print_string_ptr. apply wp_bind. pose proof Hp as [((b & Hb & Ho) & _) _].
  eapply (wp_read_chars _ _ _ ((b, Text full) :: R)); [exact Ho|rewrite HF; solve_Permutation|].
  pose proof (output_length_text _ Hx) as Hl. eapply emit_spec; [exact Hp|lia|lia|]. intros p' s' Hw _. by apply HQ.
Qed.

Lemma wp_deref_root fmt d p s full nx pv t F (Q : cJSON -> store -> Prop) :
  wrote fmt d p s full (cells nx pv t ++ F) -> Q (node_of nx pv (first None (kids t)) (data t)) s ->
  wp (deref (Some (root t))) s Q.
Proof.
  intros ((b & _ & Ho) & _) HQ. rewrite cells_eq in Ho. unfold head_cell in Ho.
  eapply (wp_deref _ _ ((b, Text full) :: inner t ++ F)); [exact Ho|solve_Permutation|exact HQ].
Qed.

(** What the three functions promise, with two turns for each block. *)
Definition value_ok (fuel : nat) : Prop := forall t j nx pv fmt d p s full F w (Q : printbuffer -> store -> Prop),
  is_json t j -> printable j -> spec_text fmt d j = Some w -> (2 * length (cells nx pv t) <= fuel)%nat ->
  ready fmt d p s full (cells nx pv t ++ F) -> len full + len w + 8 <= INT_MAX ->
  (forall p' s', wrote fmt d p' s' (full ++ w) (cells nx pv t ++ F) -> Q p' s') ->
  gives (print_value fuel (Some (root t)) p) s (cells nx pv t ++ F) Q.
Definition elements_ok (fuel : nat) : Prop := forall l js pv fmt d p s full F w (Q : printbuffer -> store -> Prop),
  Forall2 is_json l js -> Forall printable js -> text_elements fmt d js = Some w -> (2 * length (chain None pv l) + 1 <= fuel)%nat ->
  ready fmt (S d) p s full (chain None pv l ++ F) -> len full + len w + 8 <= INT_MAX ->
  (forall p' s', wrote fmt d p' s' (full ++ w) (chain None pv l ++ F) -> Q p' s') ->
  gives (print_elements fuel (first None l) p) s (chain None pv l ++ F) Q.
Definition members_ok (fuel : nat) : Prop := forall l js pv fmt d p s full F w (Q : printbuffer -> store -> Prop),
  Forall2 is_member l js -> Forall (fun kv => Forall char_ok kv.1 /\ printable kv.2) js ->
  text_members fmt d js = Some w -> (2 * length (chain None pv l) + 1 <= fuel)%nat ->
  ready fmt (S d) p s full (chain None pv l ++ F) -> len full + len w + 8 <= INT_MAX ->
  (forall p' s', wrote fmt d p' s' (full ++ w) (chain None pv l ++ F) -> Q p' s') ->
  gives (print_members fuel (first None l) p) s (chain None pv l ++ F) Q.

Lemma elements_step fuel : value_ok fuel -> elements_ok fuel -> elements_ok (S fuel).
Proof.
  intros IHv IHe l js pv fmt d p s full F w Q Hl Hpr Hw Hf Hp Hmax HQ. destruct Hl as [|t j l js Hj Hl].
  - cbn [first print_elements]. destruct fmt; injection Hw as <-;
      (eapply close_array_spec; [exact Hp|cbn in Hmax; lia|exact HQ]).
  - apply Forall_cons in Hpr as [Hjp Hpr]. rewrite text_elements_cons in Hw.
    destruct (spec_text fmt (S d) j) as [w1|] eqn:E1; [|done]. destruct (text_elements fmt d js) as [w2|] eqn:E2; [|done].
    apply (inj Some) in Hw as <-. cbn [chain] in *. rewrite !length_app in *. rewrite cells_eq in Hf at 1. cbn [length] in Hf.
    rewrite <- app_assoc in Hp, HQ |- *. set (G := chain None (Some (root t)) l ++ F) in *.
    assert (2 * length (cells (first None l) pv t) <= fuel)%nat as Hft by (rewrite cells_eq; cbn; lia).
    cbn [first print_elements]. apply gives_attempt.
    eapply IHv; [exact Hj|exact Hjp|exact E1|exact Hft|exact Hp|lia|]. clear p s Hp. intros p s Hp.
    apply wp_bind. eapply update_offset_spec; [exact Hp|]. clear p Hp. intros p Hp.
    apply wp_bind. eapply wp_deref_root; [exact (proj1 Hp)|]. cbn [node_of next].
    apply gives_attempt. destruct (ready_format _ _ _ _ _ _ Hp) as [Hf1 _].
    set (sep := match js with [] => [] | _ => if fmt then [44; 32] else [44] end) in *.
    assert (len sep <= 2) as Hsep by (unfold sep; destruct js, fmt; cbn; lia).
    assert (forall p s, ready fmt (S d) p s ((full ++ w1) ++ sep) (cells (first None l) pv t ++ G) ->
      gives (print_elements fuel (first None l) p) s (cells (first None l) pv t ++ G) Q) as Hrest.
    { clear p s Hp Hf1. intros p s Hp.
      eapply gives_frame; [apply Permutation_app_swap_app|].
      apply (IHe l js (Some (root t)) fmt d p s ((full ++ w1) ++ sep) _ w2);
        [exact Hl|exact Hpr|exact E2|lia| |rewrite !length_app; lia|].
      - destruct Hp as [Hp Hat]. split; [|exact Hat]. eapply wrote_proper; [|exact Hp]. apply Permutation_app_swap_app.
      - intros p' s' Hp'. apply HQ. apply (wrote_proper _ _ _ _ _ _ _ (Permutation_app_swap_app _ _ _)) in Hp'. by rewrite <- !app_assoc in Hp'. }
    assert (match first None l with
            | Some _ => emit_skip p (len (separator p) + 1) (separator p)
            | None => ret (true, p)
            end = if bool_decide (l = []) then ret (true, p) else emit_skip p (len sep + 1) sep) as ->.
    { unfold separator. rewrite Hf1. by destruct Hl. }
    destruct (bool_decide_reflect (l = [])) as [->|Hne].
    + inversion Hl; subst js. apply gives_ret, Hrest. unfold sep. by rewrite app_nil_r.
    + eapply emit_skip_spec; [exact Hp|lia|rewrite length_app; lia|exact Hrest].
Qed.

Lemma members_step fuel : value_ok fuel -> members_ok fuel -> members_ok (S fuel).
Proof.
  intros IHv IHm l js pv fmt d p s full F w Q Hl Hpr Hw Hf Hp Hmax HQ. destruct Hl as [|t [k j] l js Hj Hl].
  - cbn [first print_members]. assert (w = (if fmt then tabs d else []) ++ [125]) as -> by (destruct fmt; by injection Hw as <-).
    rewrite length_app in Hmax. cbn [length] in Hmax. eapply close_object_spec; [exact Hp|lia|exact HQ].
  - apply Forall_cons in Hpr as [[Hk Hjp] Hpr]. cbn [fst snd] in *. rewrite text_members_cons in Hw.
    inversion Hj as [t' k' j' Hn Hjj]; subst t' k' j'.
    destruct (p_name (data t)) as [x|] eqn:Ex; [|done]. apply (inj Some) in Hn as Ek.
    destruct (spec_text fmt (S d) j) as [w1|] eqn:E1; [|done]. destruct (text_members fmt d js) as [w2|] eqn:E2; [|done].
    apply (inj Some) in Hw as <-.
    set (w0 := if fmt then tabs (S d) else []) in *. set (sep := if fmt then [58; 9] else [58]) in *.
    set (fin := (match js with [] => [] | _ => [44] end) ++ (if fmt then [10] else [])) in *.
    cbn [chain] in *. rewrite !length_app in *. rewrite cells_eq in Hf at 1. cbn [length] in Hf.
    rewrite <- app_assoc in Hp, HQ |- *. set (G := chain None (Some (root t)) l ++ F) in *.
    assert (2 * length (cells (first None l) pv t) <= fuel)%nat as Hft by (rewrite cells_eq; cbn; lia).
    cbn [first print_members]. apply gives_attempt.
    eapply indent_spec; [exact Hp|fold w0; lia|]. fold w0. clear p s Hp. intros p s Hp.
    apply wp_bind. eapply wp_deref_root; [exact (proj1 Hp)|]. cbn [node_of name]. rewrite Ex. cbn [option_map].
    apply gives_attempt. eapply (print_string_spec _ _ _ x (head_cell (first None l) pv t :: text_blocks (p_valuestring (data t)) ++
      chain None (final None (kids t)) (kids t) ++ G)); [exact Hp| |by rewrite Ek|rewrite Ek, length_app; lia|].
    { rewrite cells_eq. unfold inner, payload_blocks. rewrite Ex. solve_Permutation. }
    rewrite Ek. clear p s Hp. intros p s Hp. apply wp_bind. eapply update_offset_spec; [exact Hp|]. clear p Hp. intros p Hp.
    destruct (ready_format _ _ _ _ _ _ Hp) as [Hf1 _]. rewrite Hf1. fold sep.
    apply gives_attempt. eapply emit_skip_spec; [exact Hp|lia|rewrite !length_app; lia|]. clear p s Hp Hf1. intros p s Hp.
    apply gives_attempt. eapply IHv; [exact Hjj|exact Hjp|exact E1|exact Hft|exact Hp|rewrite !length_app; lia|].
    clear p s Hp. intros p s Hp. apply wp_bind. eapply update_offset_spec; [exact Hp|]. clear p Hp. intros p Hp.
    apply wp_bind. eapply wp_deref_root; [exact (proj1 Hp)|]. cbn [node_of next].
    destruct (ready_format _ _ _ _ _ _ Hp) as [Hf1 _].
    assert (member_end p (first None l) = fin) as -> by (unfold member_end, fin; rewrite Hf1; by destruct Hl).
    assert (len fin <= 2) as Hfin by (unfold fin; destruct js, fmt; cbn; lia).
    apply gives_attempt. eapply emit_skip_spec; [exact Hp|lia|rewrite !length_app; lia|]. clear p s Hp Hf1. intros p s Hp.
    eapply gives_frame; [apply Permutation_app_swap_app|].
    apply (IHm l js (Some (root t)) fmt d p s ((((((full ++ w0) ++ Json.print_string_ptr k) ++ sep) ++ w1) ++ fin)) _ w2);
      [exact Hl|exact Hpr|exact E2|lia| |rewrite !length_app; lia|].
    + destruct Hp as [Hp Hat]. split; [|exact Hat]. eapply wrote_proper; [|exact Hp]. apply Permutation_app_swap_app.
    + intros p' s' Hp'. apply HQ. apply (wrote_proper _ _ _ _ _ _ _ (Permutation_app_swap_app _ _ _)) in Hp'.
      by rewrite <- !app_assoc in Hp'.
Qed.

Lemma cells_frame nx pv a e ks F :
  chain None (final None ks) ks ++ (head_cell nx pv (Tree a e ks) :: payload_blocks e ++ F) ≡ₚ cells nx pv (Tree a e ks) ++ F.
Proof. rewrite cells_eq. unfold inner. cbn [data kids]. solve_Permutation. Qed.

Lemma ready_frame fmt d p s full F F' : F ≡ₚ F' -> ready fmt d p s full F -> ready fmt d p s full F'.
Proof. intros HF [Hp Hat]. split; [by rewrite <- HF|exact Hat]. Qed.

Lemma number_spec fmt d p e nx pv ch x s full F w (Q : printbuffer -> store -> Prop) :
  says e (JNumber x) -> Json.print_number x = Some w -> ready fmt d p s full F -> len full + len w + 8 <= INT_MAX ->
  (forall p' s', wrote fmt d p' s' (full ++ w) F -> Q p' s') -> gives (print_number (node_of nx pv ch e) p) s F Q.
Proof.
  intros (_ & Hx & Hi) Hw Hp Hmax HQ. unfold print_number. cbn [node_of valueint valuedouble]. rewrite Hx.
  destruct (number_buffer_text _ _ _ Hi Hw) as [-> Hl]. replace (25 <? len w) with false by lia.
  apply gives_attempt. eapply emit_spec; [exact Hp|lia|lia|]. intros p' s' Hp' Ho. apply gives_ret, HQ.
  by eapply wrote_advance.
Qed.

Lemma scalar_spec fmt d p e nx pv ch j fuel t s full F w (Q : printbuffer -> store -> Prop) :
  says e j -> (match j with JArray _ | JObject _ => False | _ => True end) -> printable j ->
  spec_text fmt d j = Some w -> ready fmt d p s full F -> len full + len w + 8 <= INT_MAX ->
  (exists R, F ≡ₚ payload_blocks e ++ R) ->
  wp (deref (Some t)) s (fun n s' => n = node_of nx pv ch e /\ s' = s) ->
  (forall p' s', wrote fmt d p' s' (full ++ w) F -> Q p' s') -> gives (print_value (S fuel) (Some t) p) s F Q.
Proof.
  intros Hk Hs Hpr Hw Hp Hmax [R HR] Ht HQ. cbn [print_value]. apply wp_bind. eapply wp_mono; [exact Ht|].
  intros n s1 [-> ->]. cbn [node_of type valuestring]. fold (kind e).
  assert (forall m lit, w = lit -> len lit <= m -> m <= 7 -> gives (emit p m lit) s F Q) as Hlit.
  { intros m lit <- Hl Hm. eapply emit_spec; [exact Hp|exact Hl|lia|]. intros p' s' Hp' _. by apply HQ. }
  destruct j as [| | |x|str|l|l]; try done; cbn [says] in Hk.
  - rewrite Hk. apply Hlit; [by destruct fmt; injection Hw|done|done].
  - rewrite Hk. apply Hlit; [by destruct fmt; injection Hw|done|done].
  - rewrite Hk. apply Hlit; [by destruct fmt; injection Hw|done|done].
  - rewrite (proj1 Hk). cbn. eapply number_spec; [exact Hk|by destruct fmt|exact Hp|exact Hmax|exact HQ].
  - destruct Hk as [-> Hx]. destruct (p_valuestring e) as [x|] eqn:Ex; [|done]. apply (inj Some) in Hx as <-.
    assert (w = Json.print_string_ptr (text_bytes x)) as -> by (destruct fmt; by injection Hw).
    inversion Hpr; subst. cbn [option_map]. cbn [Z.eqb Pos.eqb cJSON_String cJSON_NULL cJSON_False cJSON_True cJSON_Number cJSON_Raw].
    eapply (print_string_spec _ _ _ x (text_blocks (p_name e) ++ R)); [exact Hp| |done|lia|exact HQ].
    rewrite HR. unfold payload_blocks. rewrite Ex. by rewrite <- app_assoc.
Qed.

Lemma value_step fuel : elements_ok fuel -> members_ok fuel -> value_ok (S fuel).
Proof.
  intros IHe IHm t j nx pv fmt d p s full F w Q Hj Hpr Hw Hf Hp Hmax HQ.
  rewrite cells_eq in Hf. cbn [length] in Hf. unfold inner in Hf. rewrite length_app in Hf.
  destruct Hj as [a e ks l Hk Hl|a e ks l Hk Hl|a e j Hk Hs]; cbn [data kids root] in *.
  3: { eapply (scalar_spec _ _ _ e nx pv None j); [exact Hk|exact Hs|exact Hpr|exact Hw|exact Hp|exact Hmax| | |exact HQ].
       - exists (head_cell nx pv (Tree a e []) :: F). rewrite cells_eq. unfold inner. cbn [data kids chain]. solve_Permutation.
       - eapply (wp_deref_root _ _ _ _ _ nx pv (Tree a e [])); [exact (proj1 Hp)|done]. }
  all: cbn [print_value]; apply wp_bind; eapply (wp_deref_root _ _ _ _ _ nx pv (Tree a e ks)); [exact (proj1 Hp)|];
    cbn [node_of type valuestring child kids data]; fold (kind e); cbn [says] in Hk; rewrite Hk;
    cbn [Z.eqb Pos.eqb cJSON_NULL cJSON_False cJSON_True cJSON_Number cJSON_Raw cJSON_String cJSON_Array cJSON_Object];
    inversion Hpr; subst.
  - rewrite spec_array in Hw. destruct (text_elements fmt d l) as [w1|] eqn:E; [|done]. apply (inj Some) in Hw as <-.
    cbn [length] in Hmax. apply gives_attempt. eapply emit_skip_spec; [exact Hp|done|lia|]. clear p s Hp. intros p s Hp.
    destruct (ready_format _ _ _ _ _ _ Hp) as [_ ->]. eapply gives_frame; [apply cells_frame|].
    apply (IHe ks l (final None ks) fmt d _ s (full ++ [91]) _ w1);
      [exact Hl|done|exact E|lia| |rewrite length_app; cbn [length]; lia|].
    + eapply ready_depth, ready_frame; [symmetry; apply cells_frame|exact Hp].
    + intros p' s' Hp'. apply HQ. rewrite cells_frame in Hp'. by rewrite <- app_assoc in Hp'.
  - rewrite spec_object in Hw. destruct (text_members fmt d l) as [w1|] eqn:E; [|done]. apply (inj Some) in Hw as <-.
    destruct (ready_format _ _ _ _ _ _ Hp) as [Hf1 _]. rewrite Hf1. set (op := if fmt then [123; 10] else [123]) in *.
    rewrite length_app in Hmax. apply gives_attempt. eapply emit_skip_spec; [exact Hp|lia|lia|]. clear p s Hp Hf1. intros p s Hp.
    destruct (ready_format _ _ _ _ _ _ Hp) as [_ ->]. eapply gives_frame; [apply cells_frame|].
    apply (IHm ks l (final None ks) fmt d _ s (full ++ op) _ w1);
      [exact Hl|done|exact E|lia| |rewrite length_app; lia|].
    + eapply ready_depth, ready_frame; [symmetry; apply cells_frame|exact Hp].
    + intros p' s' Hp'. apply HQ. rewrite cells_frame in Hp'. by rewrite <- app_assoc in Hp'.
Qed.

Lemma printer_ok fuel : value_ok fuel /\ elements_ok fuel /\ members_ok fuel.
Proof.
  induction fuel as [|fuel (IHv & IHe & IHm)].
  - split; [|split].
    + intros t j nx pv fmt d p s full F w Q _ _ _ Hf. rewrite cells_eq in Hf. cbn in Hf. lia.
    + intros l js pv fmt d p s full F w Q _ _ _ Hf. lia.
    + intros l js pv fmt d p s full F w Q _ _ _ Hf. lia.
  - split; [by apply value_step|]. split; [by apply elements_step|by apply members_step].
Qed.

(** [print] leaves the text in a block of its own beside the tree, or nothing but the tree,
    which there is only with an allocator that refuses requests. *)
Lemma print_spec t j nx pv fmt w s F :
  is_json t j -> printable j -> spec_text fmt 0 j = Some w -> len w + 8 <= INT_MAX ->
  owns (mem s) (cells nx pv t ++ F) ->
  wp (print (Some (root t)) fmt) s (fun r s' =>
    match r with
    | Some q => owns (mem s') ((q, Text w) :: cells nx pv t ++ F)
    | None => owns (mem s') (cells nx pv t ++ F) /\ refused
    end).
Proof.
  intros Hj Hpr Hw Hmax Ho. unfold print, allocate. apply wp_bind, wp_bind, wp_get.
  destruct (malloc (requests s) (dom (mem s))) as [b|] eqn:Eb; apply wp_bind, wp_put, wp_ret;
    [|apply wp_ret; split; [done|by eapply malloc_refused]].
  apply (owns_fresh _ b (Text [])) in Ho; [|by eapply malloc_fresh].
  set (s1 := mk_store (<[b:=Text []]> (mem s)) (S (requests s))). fold (mem s1) in Ho.
  change (owns (mem s1) ((b, Text []) :: cells nx pv t ++ F)) in Ho.
  apply wp_bind, wp_get. rewrite (owns_size _ _ Ho). apply wp_bind.
  assert (ready fmt 0 (mk_printbuffer (Some b) 256 0 0 false fmt) s1 [] (cells nx pv t ++ F)) as Hp.
  { split; [|done]. split; [by exists b|]. done. }
  destruct (printer_ok (2 * length ((b, Text []) :: cells nx pv t ++ F))) as [Hv _].
  eapply wp_mono.
  { eapply (Hv t j nx pv fmt 0%nat _ s1 [] F w (fun p s' => wrote fmt 0 p s' w (cells nx pv t ++ F)));
      [done|done|done|cbn [length]; rewrite length_app; lia|exact Hp|cbn [length]; lia|done]. }
  intros [[] p] s2; cbn [fst snd].
  - intros Hp2. apply wp_bind. eapply update_offset_spec; [exact Hp2|]. clear p Hp2. intros p [((q & Hq & Ho2) & _) _].
    rewrite Hq. unfold reallocate. apply wp_bind, wp_bind, wp_get. rewrite (owns_lookup _ _ _ _ Ho2).
    destruct (malloc (requests s2) (dom (delete q (mem s2)))) as [m|] eqn:Em; apply wp_bind, wp_put, wp_ret.
    + apply wp_ret. cbn [mem]. apply owns_fresh; [by eapply malloc_fresh|by eapply owns_free].
    + apply wp_bind. eapply wp_deallocate; [exact Ho2|reflexivity|]. intros s3 Ho3. apply wp_ret. split; [done|by eapply malloc_refused].
  - unfold left. intros [Hl Hr]. destruct (buffer p) as [q|]; [|by apply wp_ret].
    destruct Hl as [txt Ho2]. apply wp_bind. eapply wp_deallocate; [exact Ho2|reflexivity|]. intros s3 Ho3. by apply wp_ret.
Qed.
End Correctness.

(** ** The requests of the printer *)

Lemma local_attempt (m : Allocator -> M store printed) (k : Allocator -> printbuffer -> M store printed) :
  local m -> (forall p, local (fun A => k A p)) -> local (fun A => attempt (m A) (k A)).
Proof. intros Hm Hk. unfold attempt. local_auto. Qed.
Ltac printer_step :=
  lazymatch goal with
  | |- local (fun A => attempt (@?m A) (@?k A)) => apply (local_attempt m k); [|intros ?; cbv beta]
  end.
Ltac printer_auto := cbv zeta; repeat (solve [auto 1 with local_db nocore] || assumption || printer_step || local_step).

Lemma local_reallocate b : local (fun A => reallocate b).
Proof.
  intros A s a s' E. unfold reallocate, bind, get, put, ret, raise in *. destruct (mem s !! b); [|done].
  assert (requests s' = S (requests s)) as Es by (destruct (malloc _ _); by simplify_eq).
  split; [lia|]. intros i j Hi Hj. by rewrite narrowed_malloc by lia.
Qed.
Lemma local_write p w : local (fun _ => write p w).
Proof.
  apply local_const. intros s a s' E. unfold write, bind, get, put, raise in E. repeat case_match; simplify_eq; done.
Qed.
#[export] Hint Resolve local_reallocate local_write : local_db.

Lemma local_ensure p n : local (fun A => ensure p n).
Proof. unfold ensure. printer_auto. Qed.
Lemma local_update_offset p : local (fun _ => update_offset p).
Proof. unfold update_offset. printer_auto. Qed.
#[export] Hint Resolve local_ensure local_update_offset : local_db.

Lemma local_emit p n w : local (fun A => emit p n w).
Proof. unfold emit. printer_auto. Qed.
#[export] Hint Resolve local_emit : local_db.

Lemma local_print_string_ptr x p : local (fun A => print_string_ptr x p).
Proof. unfold print_string_ptr. printer_auto. Qed.
Lemma local_print_number n p : local (fun A => print_number n p).
Proof. unfold print_number. printer_auto. Qed.
Lemma local_print_raw n p : local (fun A => print_raw n p).
Proof. unfold print_raw. printer_auto. Qed.
Lemma local_emit_skip p n w : local (fun A => emit_skip p n w).
Proof. unfold emit_skip. printer_auto. Qed.
#[export] Hint Resolve local_print_string_ptr local_print_number local_print_raw local_emit_skip : local_db.

Lemma local_close_array p : local (fun A => close_array p).
Proof. unfold close_array. printer_auto. Qed.
Lemma local_close_object p : local (fun A => close_object p).
Proof. unfold close_object. printer_auto. Qed.
Lemma local_indent p : local (fun A => indent p).
Proof. unfold indent. printer_auto. Qed.
#[export] Hint Resolve local_close_array local_close_object local_indent : local_db.

Lemma local_print_value fuel :
  (forall x p, local (fun A => print_value fuel x p)) /\ (forall x p, local (fun A => print_elements fuel x p)) /\
  (forall x p, local (fun A => print_members fuel x p)).
Proof.
  induction fuel as [|fuel (IV & IE & IM)]; (split; [|split]); intros [x|] p;
    cbn [print_value print_elements print_members]; printer_auto; auto.
Qed.

Lemma local_print x fmt : local (fun A => print x fmt).
Proof. unfold print. local_auto. apply local_print_value. Qed.
#[export] Hint Resolve local_print : local_db.
