(* ===== verification/JsonEdit.v ===== *)
(** * Looking up and editing lists of children

    The functions of [packages/cJSON-v1.7.17/cJSON.c] that walk and change the list of an
    array's or an object's children, on the memory of [JsonStore]: by position and by name,
    taking out, inserting, replacing, deleting. Each is shown to do at its position what
    the list operation does, the links of the neighbours and of the first child included. *)

From stdpp Require Import base numbers list gmap.
From Stdlib Require Import ZArith Lia Floats.SpecFloat.
From S2P Require Import Prelude CFloat Json JsonStore.

Open Scope Z_scope.

Section Operations.
Context `{Allocator}.

(** The loop of [get_array_item]. *)
Fixpoint walk (index : nat) (current_child : option loc) : M store (option loc) :=
  match index, current_child with
  | S index, Some _ => n <- deref current_child ;; walk index (next n)
  | _, _ => ret current_child
  end.
Definition get_array_item (array : option loc) (index : nat) : M store (option loc) :=
  match array with
  | None => ret None
  | Some _ => n <- deref array ;; walk index (child n)
  end.
Definition cJSON_GetArrayItem (array : option loc) (index : Z) : M store (option loc) :=
  if index <? 0 then ret None else get_array_item array (Z.to_nat index).

(** The loop of [cJSON_GetArraySize], for at most [fuel] children. *)
Fixpoint count (fuel : nat) (child : option loc) (size : Z) : M store Z :=
  match child, fuel with
  | None, _ => ret size
  | Some _, O => raise StillWaiting
  | Some _, S fuel => n <- deref child ;; count fuel (next n) (size + 1)
  end.
Definition cJSON_GetArraySize (array : option loc) : M store Z :=
  match array with
  | None => ret 0
  | Some _ => n <- deref array ;; s <- get ;; z <- count (size (mem s)) (child n) 0 ;; ret (i32 z)
  end.

(** Whether the loops of [get_object_item] stop at a node with this name. *)
Definition stops (case_sensitive : bool) (key : bytes) (string : option bytes) : bool :=
  match string with
  | None => case_sensitive
  | Some s => if case_sensitive then bool_decide (key = s) else case_insensitive_eq key s
  end.
Definition read_name (n : cJSON) : M store (option bytes) :=
  match name n with
  | None => ret None
  | Some c => s <- read_chars c ;; ret (Some s)
  end.
Fixpoint find (fuel : nat) (key : bytes) (case_sensitive : bool) (current_element : option loc) : M store (option loc) :=
  match current_element, fuel with
  | None, _ => ret None
  | Some _, O => raise StillWaiting
  | Some _, S fuel =>
      n <- deref current_element ;;
      string <- read_name n ;;
      if stops case_sensitive key string
      then ret (match string with None => None | Some _ => current_element end)
      else find fuel key case_sensitive (next n)
  end.
Definition get_object_item (object : option loc) (key : option bytes) (case_sensitive : bool) : M store (option loc) :=
  match object, key with
  | Some _, Some k => n <- deref object ;; s <- get ;; find (size (mem s)) k case_sensitive (child n)
  | _, _ => ret None
  end.
Definition cJSON_GetObjectItem (object : option loc) (key : option bytes) : M store (option loc) :=
  get_object_item object key false.
Definition cJSON_GetObjectItemCaseSensitive (object : option loc) (key : option bytes) : M store (option loc) :=
  get_object_item object key true.
Definition cJSON_HasObjectItem (object : option loc) (key : option bytes) : M store bool :=
  item <- cJSON_GetObjectItem object key ;; ret (bool_decide (item <> None)).

Definition cJSON_DetachItemViaPointer (parent item : option loc) : M store (option loc) :=
  match parent, item with
  | Some _, Some _ =>
      par <- deref parent ;;
      (if decide (item = child par) then ret tt
       else it <- deref item ;; update (prev it) (set_next (next it))) ;;;
      it <- deref item ;;
      (match next it with
       | Some _ => update (next it) (set_prev (prev it))
       | None => ret tt
       end) ;;;
      par <- deref parent ;;
      it <- deref item ;;
      (if decide (item = child par) then update parent (set_child (next it))
       else match next it with
            | None => update (child par) (set_prev (prev it))
            | Some _ => ret tt
            end) ;;;
      update item (set_prev None) ;;;
      update item (set_next None) ;;;
      ret item
  | _, _ => ret None
  end.
Definition cJSON_DetachItemFromArray (array : option loc) (which : Z) : M store (option loc) :=
  if which <? 0 then ret None
  else item <- get_array_item array (Z.to_nat which) ;; cJSON_DetachItemViaPointer array item.
Definition cJSON_DeleteItemFromArray (array : option loc) (which : Z) : M store unit :=
  item <- cJSON_DetachItemFromArray array which ;; cJSON_Delete item.
Definition cJSON_DetachItemFromObject (object : option loc) (string : option bytes) : M store (option loc) :=
  to_detach <- cJSON_GetObjectItem object string ;; cJSON_DetachItemViaPointer object to_detach.
Definition cJSON_DetachItemFromObjectCaseSensitive (object : option loc) (string : option bytes) : M store (option loc) :=
  to_detach <- cJSON_GetObjectItemCaseSensitive object string ;; cJSON_DetachItemViaPointer object to_detach.
Definition cJSON_DeleteItemFromObject (object : option loc) (string : option bytes) : M store unit :=
  item <- cJSON_DetachItemFromObject object string ;; cJSON_Delete item.
Definition cJSON_DeleteItemFromObjectCaseSensitive (object : option loc) (string : option bytes) : M store unit :=
  item <- cJSON_DetachItemFromObjectCaseSensitive object string ;; cJSON_Delete item.

Definition cJSON_InsertItemInArray (array : option loc) (which : Z) (newitem : option loc) : M store bool :=
  if (which <? 0) || bool_decide (newitem = None) then ret false
  else
    after_inserted <- get_array_item array (Z.to_nat which) ;;
    match after_inserted with
    | None => add_item_to_array array newitem
    | Some _ =>
        arr <- deref array ;;
        after <- deref after_inserted ;;
        if bool_decide (after_inserted <> child arr) && bool_decide (prev after = None) then ret false
        else
          update newitem (set_next after_inserted) ;;;
          update newitem (set_prev (prev after)) ;;;
          update after_inserted (set_prev newitem) ;;;
          (if decide (after_inserted = child arr) then update array (set_child newitem)
           else it <- deref newitem ;; update (prev it) (set_next newitem)) ;;;
          ret true
    end.

Definition cJSON_ReplaceItemViaPointer (parent item replacement : option loc) : M store bool :=
  match parent, replacement, item with
  | Some _, Some _, Some _ =>
      par <- deref parent ;;
      match child par with
      | None => ret false
      | Some _ =>
          if decide (replacement = item) then ret true
          else
            it <- deref item ;;
            update replacement (set_next (next it)) ;;;
            update replacement (set_prev (prev it)) ;;;
            re <- deref replacement ;;
            (match next re with
             | Some _ => update (next re) (set_prev replacement)
             | None => ret tt
             end) ;;;
            (if decide (child par = item) then
               first <- deref (child par) ;;
               (if decide (prev first = child par) then update replacement (set_prev replacement) else ret tt) ;;;
               update parent (set_child replacement)
             else
               re <- deref replacement ;;
               (match prev re with
                | Some _ => update (prev re) (set_next replacement)
                | None => ret tt
                end) ;;;
               match next re with
               | None => update (child par) (set_prev replacement)
               | Some _ => ret tt
               end) ;;;
            update item (set_next None) ;;;
            update item (set_prev None) ;;;
            cJSON_Delete item ;;;
            ret true
      end
  | _, _, _ => ret false
  end.
Definition cJSON_ReplaceItemInArray (array : option loc) (which : Z) (newitem : option loc) : M store bool :=
  if which <? 0 then ret false
  else item <- get_array_item array (Z.to_nat which) ;; cJSON_ReplaceItemViaPointer array item newitem.

Definition replace_item_in_object (object : option loc) (string : option bytes) (replacement : option loc)
    (case_sensitive : bool) : M store bool :=
  match replacement, string with
  | Some _, Some _ =>
      re <- deref replacement ;;
      (match name re with
       | Some c => when (negb (flag (type re) cJSON_StringIsConst)) (deallocate_chars c)
       | None => ret tt
       end) ;;;
      copy <- cJSON_strdup string ;;
      update replacement (set_name (option_map Allocated copy)) ;;;
      match copy with
      | None => ret false
      | Some _ =>
          update replacement (set_type (Z.land (type re) (Z.lnot cJSON_StringIsConst))) ;;;
          item <- get_object_item object string case_sensitive ;;
          cJSON_ReplaceItemViaPointer object item replacement
      end
  | _, _ => ret false
  end.
Definition cJSON_ReplaceItemInObject (object : option loc) (string : option bytes) (newitem : option loc) : M store bool :=
  replace_item_in_object object string newitem false.
Definition cJSON_ReplaceItemInObjectCaseSensitive (object : option loc) (string : option bytes) (newitem : option loc) :
    M store bool :=
  replace_item_in_object object string newitem true.
End Operations.

(** ** Positions *)

(** The cells of siblings, split at one of them. *)
Lemma chain_split nx pv a t b :
  chain nx pv (a ++ t :: b) = chain (Some (root t)) pv a ++ head_cell (first nx b) (final pv a) t :: inner t ++ chain nx (Some (root t)) b.
Proof. by rewrite siblings_app, chain_cons. Qed.

Lemma final_app pv a t b : final pv (a ++ t :: b) = final (Some (root t)) b.
Proof. unfold final. rewrite last_app_cons, last_cons. by destruct (last b). Qed.

Lemma first_lookup nx l i : first nx (drop i l) = from_option (fun t => Some (root t)) nx (l !! i).
Proof. revert i. induction l as [|t l IH]; intros [|i]; try done. apply IH. Qed.

(** A tree with one of its children in view. *)
Lemma cells_split nx pv p d a t b :
  cells nx pv (Tree p d (a ++ t :: b)) ≡ₚ
    head_cell nx pv (Tree p d (a ++ t :: b)) :: head_cell (first None b) (final (final None (a ++ t :: b)) a) t ::
    chain (Some (root t)) (final None (a ++ t :: b)) a ++ chain None (Some (root t)) b ++ inner t ++ payload_blocks d.
Proof. rewrite cells_eq. unfold inner at 1. cbn [data kids]. rewrite chain_split. solve_Permutation. Qed.

Section Lookup.
Context `{Allocator}.

Lemma wp_deref_kid nx pv p d a t b s F (Q : cJSON -> store -> Prop) :
  owns (mem s) (cells nx pv (Tree p d (a ++ t :: b)) ++ F) ->
  Q (node_of (first None b) (final (final None (a ++ t :: b)) a) (first None (kids t)) (data t)) s ->
  wp (deref (Some (root t))) s Q.
Proof.
  intros Ho HQ. rewrite cells_split in Ho. unfold head_cell at 2 in Ho.
  eapply (wp_deref _ _ (head_cell nx pv (Tree p d (a ++ t :: b)) :: (chain (Some (root t)) (final None (a ++ t :: b)) a ++
    chain None (Some (root t)) b ++ inner t ++ payload_blocks d) ++ F)); [exact Ho|solve_Permutation|exact HQ].
Qed.

Lemma wp_deref_parent nx pv t s F (Q : cJSON -> store -> Prop) :
  owns (mem s) (cells nx pv t ++ F) -> Q (node_of nx pv (first None (kids t)) (data t)) s -> wp (deref (Some (root t))) s Q.
Proof.
  intros Ho HQ. rewrite cells_eq in Ho. unfold head_cell in Ho.
  eapply (wp_deref _ _ (inner t ++ F)); [exact Ho|solve_Permutation|exact HQ].
Qed.

Lemma walk_spec nx pv p d a b i s F (Q : option loc -> store -> Prop) :
  owns (mem s) (cells nx pv (Tree p d (a ++ b)) ++ F) -> Q (option_map root (b !! i)) s -> wp (walk i (first None b)) s Q.
Proof.
  revert a b. induction i as [|i IH]; intros a b Ho HQ.
  - destruct b as [|t b]; by apply wp_ret.
  - destruct b as [|t b]; [by apply wp_ret|]. cbn [first walk]. apply wp_bind. eapply wp_deref_kid; [exact Ho|].
    cbn [node_of next]. eapply (IH (a ++ [t])); [rewrite <- app_assoc; exact Ho|done].
Qed.

(** The child at a position, NULL behind the last. *)
Lemma get_array_item_spec nx pv t i s F (Q : option loc -> store -> Prop) :
  owns (mem s) (cells nx pv t ++ F) -> Q (option_map root (kids t !! i)) s -> wp (get_array_item (Some (root t)) i) s Q.
Proof.
  intros Ho HQ. unfold get_array_item. apply wp_bind. eapply wp_deref_parent; [exact Ho|]. cbn [node_of child].
  destruct t as [p d ks]. by eapply (walk_spec nx pv p d [] ks).
Qed.

Lemma count_spec nx pv p d a b z fuel s F (Q : Z -> store -> Prop) :
  (length b <= fuel)%nat -> owns (mem s) (cells nx pv (Tree p d (a ++ b)) ++ F) ->
  Q (z + Z.of_nat (length b)) s -> wp (count fuel (first None b) z) s Q.
Proof.
  revert a b z. induction fuel as [|fuel IH]; intros a [|t b] z Hf Ho HQ; cbn [length] in *; try lia;
    cbn [first count]; try (apply wp_ret; by rewrite Z.add_0_r in HQ).
  apply wp_bind. eapply wp_deref_kid; [exact Ho|]. cbn [node_of next].
  eapply (IH (a ++ [t])); [lia|rewrite <- app_assoc; exact Ho|]. by replace (z + 1 + Z.of_nat (length b)) with (z + Z.of_nat (S (length b))) by lia.
Qed.

Lemma kids_length nx pv t : (length (kids t) <= length (cells nx pv t))%nat.
Proof.
  rewrite cells_eq. unfold inner. cbn [length]. rewrite length_app.
  enough (forall pv l, length l <= length (chain None pv l))%nat as Hc by (specialize (Hc (final None (kids t)) (kids t)); lia).
  intros pv' l. revert pv'. induction l as [|k l IH]; intros pv'; [done|]. rewrite chain_cons. cbn [length]. rewrite length_app.
  specialize (IH (Some (root k))). lia.
Qed.

Lemma array_size_spec nx pv t s F :
  owns (mem s) (cells nx pv t ++ F) ->
  wp (cJSON_GetArraySize (Some (root t))) s (fun z s' => z = i32 (Z.of_nat (length (kids t))) /\ s' = s).
Proof.
  intros Ho. unfold cJSON_GetArraySize. apply wp_bind. eapply wp_deref_parent; [exact Ho|]. cbn [node_of child].
  apply wp_bind, wp_get, wp_bind. pose proof (kids_length nx pv t). destruct t as [p d ks].
  eapply (count_spec nx pv p d [] ks); [|exact Ho|by apply wp_ret].
  rewrite (owns_size _ _ Ho), length_app. cbn [kids] in *. lia.
Qed.

(** What the search finds: the first child with the name. *)
Definition named_as (case_sensitive : bool) (key : bytes) (t : tree) : bool :=
  match option_map text_bytes (p_name (data t)) with
  | Some s => if case_sensitive then bool_decide (key = s) else case_insensitive_eq key s
  | None => false
  end.

Lemma read_name_spec nx pv p d a t b s F (Q : option bytes -> store -> Prop) ch nx' pv' :
  owns (mem s) (cells nx pv (Tree p d (a ++ t :: b)) ++ F) ->
  Q (option_map text_bytes (p_name (data t))) s -> wp (read_name (node_of nx' pv' ch (data t))) s Q.
Proof.
  intros Ho HQ. unfold read_name. cbn [node_of name]. rewrite cells_split in Ho.
  destruct (p_name (data t)) as [x|] eqn:Ex; cbn [option_map] in *; [|by apply wp_ret].
  apply wp_bind.
  eapply (wp_read_chars x _ _ (head_cell nx pv (Tree p d (a ++ t :: b)) :: head_cell (first None b) (final (final None (a ++ t :: b)) a) t ::
    chain (Some (root t)) (final None (a ++ t :: b)) a ++ chain None (Some (root t)) b ++ text_blocks (p_valuestring (data t)) ++
    chain None (final None (kids t)) (kids t) ++ payload_blocks d ++ F)); [exact Ho| |by apply wp_ret].
  unfold inner at 1, payload_blocks at 1. rewrite Ex. solve_Permutation.
Qed.

Lemma find_spec nx pv p d a b fuel k cs s F (Q : option loc -> store -> Prop) :
  (length b <= fuel)%nat -> owns (mem s) (cells nx pv (Tree p d (a ++ b)) ++ F) ->
  (cs = true -> Forall (fun t => p_name (data t) <> None) b) ->
  Q (option_map root (List.find (named_as cs k) b)) s -> wp (find fuel k cs (first None b)) s Q.
Proof.
  revert a b. induction fuel as [|fuel IH]; intros a [|t b] Hf Ho Hn HQ; cbn [length] in *; try lia;
    cbn [first find List.find] in *; try by apply wp_ret.
  apply wp_bind. eapply wp_deref_kid; [exact Ho|]. apply wp_bind. eapply read_name_spec; [exact Ho|].
  unfold stops. cbn [node_of next]. unfold named_as in HQ at 1.
  destruct (p_name (data t)) as [x|] eqn:Ex; cbn [option_map] in *.
  - destruct (if cs then bool_decide (k = text_bytes x) else case_insensitive_eq k (text_bytes x)); [by apply wp_ret|].
    eapply (IH (a ++ [t])); [lia|rewrite <- app_assoc; exact Ho| |done]. intros Hc. by apply Hn in Hc as [_ Hc]%Forall_cons.
  - destruct cs; [specialize (Hn eq_refl); apply Forall_cons in Hn as [Hn _]; congruence|].
    eapply (IH (a ++ [t])); [lia|rewrite <- app_assoc; exact Ho|done|done].
Qed.

(** The first child with the name, letters of either case being the same unless the search
    tells them apart. *)
Lemma get_object_item_spec nx pv t k cs s F (Q : option loc -> store -> Prop) :
  owns (mem s) (cells nx pv t ++ F) -> (cs = true -> Forall (fun t => p_name (data t) <> None) (kids t)) ->
  Q (option_map root (List.find (named_as cs k) (kids t))) s -> wp (get_object_item (Some (root t)) (Some k) cs) s Q.
Proof.
  intros Ho Hn HQ. unfold get_object_item. apply wp_bind. eapply wp_deref_parent; [exact Ho|]. cbn [node_of child].
  apply wp_bind, wp_get. pose proof (kids_length nx pv t). destruct t as [p d ks].
  eapply (find_spec nx pv p d [] ks); [|exact Ho|exact Hn|exact HQ].
  rewrite (owns_size _ _ Ho), length_app. cbn [kids] in *. lia.
Qed.

Lemma find_member ks kvs k :
  Forall2 is_member ks kvs ->
  match List.find (named_as false k) ks, Json.get_object_item kvs k with
  | Some t, Some j => is_json t j
  | None, None => True
  | _, _ => False
  end.
Proof.
  intros Hks. induction Hks as [|t [k' j] ks kvs Ht _ IH]; cbn [List.find Json.get_object_item]; [done|].
  inversion Ht as [t' k2 j' Hn Hj]; subst. unfold named_as. rewrite Hn.
  by destruct (case_insensitive_eq k k').
Qed.

(** On an object, [cJSON_GetObjectItem] finds the node of the member that [Json] says. *)
Lemma object_item_refined nx pv t l k s F :
  is_json t (JObject l) -> owns (mem s) (cells nx pv t ++ F) ->
  wp (cJSON_GetObjectItem (Some (root t)) (Some k)) s (fun r s' => s' = s /\
    match r, Json.cJSON_GetObjectItem (Some (JObject l)) k with
    | Some p, Some j => exists u, u ∈ kids t /\ root u = p /\ is_json u j
    | None, None => True
    | _, _ => False
    end).
Proof.
  intros Hj Ho. eapply get_object_item_spec; [exact Ho|done|]. split; [done|]. cbn [Json.cJSON_GetObjectItem].
  assert (Forall2 is_member (kids t) l) as Hks by (inversion Hj; [done|by destruct j]).
  pose proof (find_member _ _ k Hks) as Hf.
  destruct (List.find (named_as false k) (kids t)) as [u|] eqn:Eu, (Json.get_object_item l k); cbn [option_map]; try done.
  apply find_some in Eu as [Hu _]. exists u. split; [by apply list_elem_of_In|done].
Qed.
End Lookup.

(** ** Changing the list *)

Section Editing.
Context `{Allocator}.

(** The list of an array in the cases the code tells apart. *)
Lemma kids_first nx pv p d t b F :
  cells nx pv (Tree p d (t :: b)) ++ F ≡ₚ
    (p, Node (node_of nx pv (Some (root t)) d)) :: (root t, Node (node_of (first None b) (final (Some (root t)) b) (first None (kids t)) (data t))) ::
    chain None (Some (root t)) b ++ inner t ++ payload_blocks d ++ F.
Proof.
  rewrite cells_eq. unfold inner at 1. cbn [data kids]. rewrite chain_cons, final_cons. unfold head_cell. cbn [root data kids first].
  solve_Permutation.
Qed.

Lemma kids_later nx pv p d c v t b F :
  cells nx pv (Tree p d (c ++ v :: t :: b)) ++ F ≡ₚ
    (p, Node (node_of nx pv (first (Some (root v)) c) d)) ::
    (root t, Node (node_of (first None b) (Some (root v)) (first None (kids t)) (data t))) ::
    (root v, Node (node_of (Some (root t)) (final (final (Some (root t)) b) c) (first None (kids v)) (data v))) ::
    chain (Some (root v)) (final (Some (root t)) b) c ++ chain None (Some (root t)) b ++ inner t ++ inner v ++ payload_blocks d ++ F.
Proof.
  rewrite cells_eq. unfold inner at 1. cbn [data kids]. rewrite final_app, final_cons.
  rewrite chain_split, chain_cons. unfold head_cell. cbn [root data kids]. rewrite first_app. cbn [first]. solve_Permutation.
Qed.

(** The first of siblings that are followed by another. *)
Lemma chain_first nx pv h c : chain nx pv (h :: c) =
  (root h, Node (node_of (first nx c) pv (first None (kids h)) (data h))) :: inner h ++ chain nx (Some (root h)) c.
Proof. apply chain_cons. Qed.

Lemma not_first nx pv p d c v t b m F :
  owns m (cells nx pv (Tree p d (c ++ v :: t :: b)) ++ F) -> Some (root t) <> first (Some (root v)) c.
Proof.
  intros Ho. rewrite kids_later in Ho. destruct Ho as [Hd _]. destruct c as [|h c]; cbn [first]; intros [= E];
    rewrite ?chain_first in Hd; cbn [fmap list_fmap fst app] in Hd; rewrite !NoDup_cons in Hd; destruct Hd as (_ & Ht & _); set_solver.
Qed.

(** An item taken out is on its own; its neighbours are linked with each other. *)
Lemma wp_detach nx pv p d a b t F s (Q : option loc -> store -> Prop) :
  owns (mem s) (cells nx pv (Tree p d (a ++ t :: b)) ++ F) ->
  (forall s', owns (mem s') (cells nx pv (Tree p d (a ++ b)) ++ cells None None t ++ F) -> Q (Some (root t)) s') ->
  wp (cJSON_DetachItemViaPointer (Some p) (Some (root t))) s Q.
Proof.
  intros Ho HQ. rewrite (cells_eq None None t) in HQ. unfold head_cell in HQ. unfold cJSON_DetachItemViaPointer.
  destruct a as [|v c _] using rev_ind; cbn [app] in *.
  - rewrite kids_first in Ho. apply wp_bind. read_node Ho. rewrite decide_True by done. apply wp_bind, wp_ret, wp_bind. read_node Ho.
    destruct b as [|u b]; cbn [first].
    + apply wp_bind, wp_ret. apply wp_bind. read_node Ho. apply wp_bind. read_node Ho. rewrite decide_True by done.
      do 3 (apply wp_bind; write_node Ho). apply wp_ret, HQ. rewrite cells_eq. unfold inner at 1, head_cell. cbn [root data kids chain first].
      cbn [chain] in Ho. same_blocks Ho.
    + rewrite chain_first, final_cons in Ho. flat Ho. apply wp_bind. write_node Ho. apply wp_bind. read_node Ho. apply wp_bind. read_node Ho.
      rewrite decide_True by done. do 3 (apply wp_bind; write_node Ho). apply wp_ret, HQ. rewrite kids_first.
      rewrite ?final_cons in Ho. cbn [first] in Ho. same_blocks Ho.
  - rewrite <- !app_assoc in Ho, HQ. cbn [app] in Ho, HQ. pose proof (not_first _ _ _ _ _ _ _ _ _ _ Ho) as Hne. rewrite kids_later in Ho.
    apply wp_bind. read_node Ho. rewrite decide_False by done. apply wp_bind, wp_bind. read_node Ho. write_node Ho.
    apply wp_bind. read_node Ho. destruct b as [|u b]; cbn [first].
    + apply wp_bind, wp_ret, wp_bind. read_node Ho. apply wp_bind. read_node Ho. rewrite decide_False by done.
      destruct c as [|h c]; cbn [first].
      * do 3 (apply wp_bind; write_node Ho). apply wp_ret, HQ. cbn [app]. rewrite kids_first. cbn [chain app final last] in *. same_blocks Ho.
      * rewrite chain_first in Ho. flat Ho. do 3 (apply wp_bind; write_node Ho). apply wp_ret, HQ. cbn [app].
        rewrite kids_first, siblings_app, final_snoc, first_app. cbn [first chain]. rewrite cells_eq. unfold head_cell.
        rewrite ?final_cons in Ho. same_blocks Ho.
    + rewrite chain_first in Ho. flat Ho. apply wp_bind. write_node Ho. apply wp_bind. read_node Ho. apply wp_bind. read_node Ho.
      rewrite decide_False by done. apply wp_bind, wp_ret. do 2 (apply wp_bind; write_node Ho). apply wp_ret, HQ.
      rewrite kids_later. rewrite ?final_cons in Ho. cbn [first] in Ho. same_blocks Ho.
Qed.

Lemma wp_insert_at nx pv p d a t b pv' n s (Q : bool -> store -> Prop) F :
  owns (mem s) (cells nx pv (Tree p d (a ++ t :: b)) ++ cells None pv' n ++ F) ->
  (forall s', owns (mem s') (cells nx pv (Tree p d (a ++ n :: t :: b)) ++ F) -> Q true s') ->
  wp (cJSON_InsertItemInArray (Some p) (Z.of_nat (length a)) (Some (root n))) s Q.
Proof.
  intros Ho HQ. unfold cJSON_InsertItemInArray. rewrite bool_decide_false by done.
  rewrite (proj2 (Z.ltb_ge (Z.of_nat (length a)) 0)) by lia. cbn [orb]. rewrite Nat2Z.id.
  apply wp_bind. eapply (get_array_item_spec nx pv (Tree p d (a ++ t :: b))); [exact Ho|]. cbn [kids].
  rewrite list_lookup_middle by done. cbn [option_map]. rewrite (cells_eq None pv' n) in Ho. unfold head_cell in Ho.
  destruct a as [|v c _] using rev_ind; cbn [app] in *.
  - rewrite kids_first in Ho. flat Ho. apply wp_bind. read_node Ho. apply wp_bind. read_node Ho.
    rewrite bool_decide_false by (intros Hx; by apply Hx). cbn [andb]. do 3 (apply wp_bind; write_node Ho).
    apply wp_bind. rewrite decide_True by done. write_node Ho. apply wp_ret, HQ.
    rewrite kids_first, chain_first, final_cons. same_blocks Ho.
  - rewrite <- !app_assoc in Ho, HQ. cbn [app] in Ho, HQ.
    pose proof (not_first _ _ _ _ _ _ _ _ _ _ Ho) as Hne. rewrite kids_later in Ho. flat Ho.
    apply wp_bind. read_node Ho. apply wp_bind. read_node Ho. rewrite andb_comm, bool_decide_false by done. cbn [andb].
    do 3 (apply wp_bind; write_node Ho). apply wp_bind. rewrite decide_False by done.
    apply wp_bind. read_node Ho. write_node Ho. apply wp_ret, HQ. rewrite kids_later, chain_first, final_cons. same_blocks Ho.
Qed.

(** An item is inserted before the one at the position, or becomes the last. *)
Lemma wp_insert nx pv p d ks i pv' n s (Q : bool -> store -> Prop) F :
  owns (mem s) (cells nx pv (Tree p d ks) ++ cells None pv' n ++ F) ->
  (forall s', owns (mem s') (cells nx pv (Tree p d (take i ks ++ n :: drop i ks)) ++ F) -> Q true s') ->
  wp (cJSON_InsertItemInArray (Some p) (Z.of_nat i) (Some (root n))) s Q.
Proof.
  intros Ho HQ. destruct (decide (i < length ks)%nat) as [Hi|Hi].
  - destruct (lookup_lt_is_Some_2 ks i Hi) as [t Ht]. rewrite (drop_S ks t i Ht) in HQ.
    rewrite <- (take_drop_middle ks i t Ht) in Ho.
    pose proof (wp_insert_at nx pv p d (take i ks) t (drop (S i) ks) pv' n s Q F Ho HQ) as Hw.
    by rewrite length_take_le in Hw by lia.
  - rewrite take_ge, drop_ge in HQ by lia. unfold cJSON_InsertItemInArray. rewrite bool_decide_false by done.
    rewrite (proj2 (Z.ltb_ge (Z.of_nat i) 0)) by lia. cbn [orb]. rewrite Nat2Z.id.
    apply wp_bind. eapply (get_array_item_spec nx pv (Tree p d ks)); [exact Ho|]. cbn [kids].
    rewrite lookup_ge_None_2 by lia. cbn [option_map]. by eapply wp_add_item.
Qed.

(** Taken out by position and deleted. *)
Lemma wp_delete_at nx pv p d ks i t s (Q : unit -> store -> Prop) F :
  ks !! i = Some t -> sound t -> owns (mem s) (cells nx pv (Tree p d ks) ++ F) ->
  (forall s', owns (mem s') (cells nx pv (Tree p d (delete i ks)) ++ F) -> Q tt s') ->
  wp (cJSON_DeleteItemFromArray (Some p) (Z.of_nat i)) s Q.
Proof.
  intros Ht Hs Ho HQ. unfold cJSON_DeleteItemFromArray, cJSON_DetachItemFromArray.
  rewrite (proj2 (Z.ltb_ge (Z.of_nat i) 0)) by lia. rewrite Nat2Z.id. apply wp_bind, wp_bind.
  eapply (get_array_item_spec nx pv (Tree p d ks)); [exact Ho|]. cbn [kids]. rewrite Ht. cbn [option_map].
  rewrite <- (take_drop_middle ks i t Ht) in Ho. eapply wp_detach; [exact Ho|]. clear s Ho. intros s Ho.
  rewrite <- delete_take_drop in Ho.
  apply (wp_delete None t s _ (cells nx pv (Tree p d (delete i ks)) ++ F)); [done|same_blocks Ho|exact HQ].
Qed.

Lemma chain_roots nx pv l : sublist (root <$> l) (chain nx pv l).*1.
Proof.
  revert pv. induction l as [|t l IH]; intros pv; [constructor|]. rewrite chain_cons. cbn [fmap list_fmap].
  apply sublist_skip. change (fst <$> (inner t ++ chain nx (Some (root t)) l)) with ((inner t ++ chain nx (Some (root t)) l).*1).
  rewrite fmap_app. apply sublist_inserts_l, IH.
Qed.

Lemma last_not_first nx pv p d t u b m F :
  owns m (cells nx pv (Tree p d (t :: u :: b)) ++ F) -> final (Some (root t)) (u :: b) <> Some (root t).
Proof.
  intros Ho. rewrite kids_first in Ho. destruct Ho as [Hd _]. cbn [fmap list_fmap fst] in Hd.
  apply NoDup_cons in Hd as [_ Hd]. apply NoDup_cons in Hd as [Ht _]. rewrite fmap_app, not_elem_of_app in Ht. destruct Ht as [Ht _].
  unfold final. destruct (last (u :: b)) as [w|] eqn:Ew; [|by rewrite last_cons in Ew; destruct (last b)].
  intros [= E]. apply Ht. rewrite <- E. eapply elem_of_submseteq; [|apply sublist_submseteq, chain_roots].
  apply list_elem_of_fmap. exists w. split; [done|]. by apply last_Some_elem_of.
Qed.

(** The replacement takes the item's place; the item is deleted. *)
Lemma wp_replace nx pv p d a t b r pv' s (Q : bool -> store -> Prop) F :
  sound t -> owns (mem s) (cells nx pv (Tree p d (a ++ t :: b)) ++ cells None pv' r ++ F) ->
  (forall s', owns (mem s') (cells nx pv (Tree p d (a ++ r :: b)) ++ F) -> Q true s') ->
  wp (cJSON_ReplaceItemViaPointer (Some p) (Some (root t)) (Some (root r))) s Q.
Proof.
  intros Hs Ho HQ.
  assert (forall s', owns (mem s') (cells nx pv (Tree p d (a ++ r :: b)) ++ (root t, Node (node_of None None (first None (kids t)) (data t))) ::
    inner t ++ F) -> wp (cJSON_Delete (Some (root t)) ;;; ret true) s' Q) as Hend.
  { intros s' Ho'. apply wp_bind. apply (wp_delete None t s' _ (cells nx pv (Tree p d (a ++ r :: b)) ++ F)); [done| |].
    - rewrite cells_eq. unfold head_cell. same_blocks Ho'.
    - intros s2 Ho2. by apply wp_ret, HQ. }
  clear HQ. unfold cJSON_ReplaceItemViaPointer.
  assert (Some (root r) <> Some (root t)) as Hne.
  { clear -Ho. rewrite cells_split, (cells_eq None pv' r) in Ho. destruct Ho as [Hd _]. rewrite fmap_app in Hd. cbn in Hd.
    rewrite !NoDup_cons in Hd. destruct Hd as (_ & Ht & _). intros [= E]. apply Ht. rewrite <- E. set_solver. }
  apply wp_bind.
  destruct a as [|v c _] using rev_ind; cbn [app] in *.
  - assert (forall u b', b = u :: b' -> final (Some (root t)) b <> Some (root t)) as Hlast.
    { intros u b' ->. eapply last_not_first. exact Ho. }
    rewrite (cells_eq None pv' r), kids_first in Ho. unfold head_cell in Ho. flat Ho.
    read_node Ho. rewrite decide_False by done. apply wp_bind. read_node Ho. do 2 (apply wp_bind; write_node Ho).
    apply wp_bind. read_node Ho. apply wp_bind. destruct b as [|u b]; cbn [first].
    + apply wp_ret, wp_bind. rewrite decide_True by done. apply wp_bind. read_node Ho. apply wp_bind.
      rewrite decide_True by done. write_node Ho. write_node Ho. do 2 (apply wp_bind; write_node Ho).
      apply Hend. rewrite kids_first. cbn [chain first final last app] in *. same_blocks Ho.
    + rewrite chain_first in Ho. flat Ho. write_node Ho. apply wp_bind. rewrite decide_True by done.
      apply wp_bind. read_node Ho. apply wp_bind. rewrite decide_False by (by eapply Hlast). apply wp_ret.
      write_node Ho. do 2 (apply wp_bind; write_node Ho). apply Hend. rewrite kids_first, chain_first, final_cons.
      rewrite final_cons in Ho. cbn [first] in Ho. same_blocks Ho.
  - rewrite <- !app_assoc in Ho, Hend. cbn [app] in Ho, Hend.
    pose proof (not_first _ _ _ _ _ _ _ _ _ _ Ho) as Hnf. rewrite (cells_eq None pv' r), kids_later in Ho. unfold head_cell in Ho. flat Ho.
    read_node Ho. destruct (first (Some (root v)) c) as [ch|] eqn:Ech; [|by destruct c]. rewrite decide_False by done.
    apply wp_bind. read_node Ho. do 2 (apply wp_bind; write_node Ho). apply wp_bind. read_node Ho. apply wp_bind.
    destruct b as [|u b]; cbn [first].
    + apply wp_ret, wp_bind. rewrite decide_False by (intros Hx; by apply Hnf). apply wp_bind. read_node Ho.
      cbn [first]. apply wp_bind. write_node Ho. destruct c as [|h c].
      * injection Ech as <-. write_node Ho. do 2 (apply wp_bind; write_node Ho). apply Hend. rewrite kids_later. cbn [chain first final last app] in *. same_blocks Ho.
      * injection Ech as <-. rewrite chain_first in Ho. flat Ho. write_node Ho. do 2 (apply wp_bind; write_node Ho). apply Hend.
        rewrite kids_later, chain_first, final_cons. rewrite ?final_cons in Ho. cbn [chain first final last app] in *. same_blocks Ho.
    + rewrite chain_first in Ho. flat Ho. write_node Ho. apply wp_bind. rewrite decide_False by (intros Hx; by apply Hnf).
      apply wp_bind. read_node Ho. cbn [first]. apply wp_bind. write_node Ho. apply wp_ret.
      do 2 (apply wp_bind; write_node Ho). apply Hend. rewrite kids_later, chain_first, Ech, final_cons.
      rewrite ?final_cons in Ho. cbn [first] in Ho. same_blocks Ho.
Qed.
End Editing.

(** The list of an array's children is edited as a list: looking up, taking out, deleting,
    inserting and replacing at a position do in memory what the list operations do, free
    what they delete and keep everything else. *)
Theorem list_edited `{Allocator} nx pv p d ks i t pv' n s F :
  ks !! i = Some t -> sound t -> owns (mem s) (cells nx pv (Tree p d ks) ++ cells None pv' n ++ F) ->
  let rest := cells None pv' n ++ F in let which := Z.of_nat i in
  wp (cJSON_GetArrayItem (Some p) which) s (fun r s' => r = Some (root t) /\ s' = s) /\
  wp (cJSON_DetachItemFromArray (Some p) which) s (fun r s' =>
    r = Some (root t) /\ owns (mem s') (cells nx pv (Tree p d (delete i ks)) ++ cells None None t ++ rest)) /\
  wp (cJSON_DeleteItemFromArray (Some p) which) s (fun _ s' => owns (mem s') (cells nx pv (Tree p d (delete i ks)) ++ rest)) /\
  wp (cJSON_InsertItemInArray (Some p) which (Some (root n))) s (fun r s' =>
    r = true /\ owns (mem s') (cells nx pv (Tree p d (take i ks ++ n :: drop i ks)) ++ F)) /\
  wp (cJSON_ReplaceItemInArray (Some p) which (Some (root n))) s (fun r s' =>
    r = true /\ owns (mem s') (cells nx pv (Tree p d (<[i := n]> ks)) ++ F)).
Proof.
  intros Ht Hs Ho rest which. assert ((which <? 0) = false) as Hw by (apply Z.ltb_ge; unfold which; lia).
  assert (forall Q : option loc -> store -> Prop, Q (Some (root t)) s -> wp (get_array_item (Some p) (Z.to_nat which)) s Q) as Hget.
  { intros Q HQ. unfold which. rewrite Nat2Z.id. eapply (get_array_item_spec nx pv (Tree p d ks)); [exact Ho|].
    cbn [kids]. by rewrite Ht. }
  pose proof Ho as Ho2. rewrite <- (take_drop_middle ks i t Ht) in Ho2. split_and!.
  - unfold cJSON_GetArrayItem. rewrite Hw. apply Hget. by split.
  - unfold cJSON_DetachItemFromArray. rewrite Hw. apply wp_bind, Hget. eapply wp_detach; [exact Ho2|].
    intros s' Ho'. split; [done|]. by rewrite delete_take_drop.
  - by eapply wp_delete_at.
  - eapply wp_insert; [exact Ho|]. intros s' Ho'. by split.
  - unfold cJSON_ReplaceItemInArray. rewrite Hw. apply wp_bind, Hget. eapply wp_replace; [exact Hs|exact Ho2|].
    intros s' Ho'. split; [done|]. rewrite insert_take_drop; [done|by eapply lookup_lt_Some].
Qed.
