(* ===== verification/Display.v ===== *)
(** * The display

    Models [applications/src/my_oled.c]. The SSD1306 package is not in the repository: what
    is modelled is the sequence of the calls made to it, and the arrays the texts are printed
    into. *)

From stdpp Require Import base numbers list strings.
From Stdlib Require Import ZArith Lia.
From S2P Require Import Prelude Json.

Open Scope Z_scope.

Inductive font : Set := Font_11x18 | Font_7x10 | Font_6x8.
Inductive colour : Set := Black | White.

(** The calls to the package. *)
Inductive drawing : Set :=
| ssd1306_Init
| ssd1306_Fill (c : colour)
| ssd1306_SetCursor (x y : Z)
| ssd1306_WriteString (s : bytes) (f : font) (c : colour)
| ssd1306_UpdateScreen.

Definition draw (d : drawing) : M (list drawing) unit := modify (fun l => l ++ [d]).

(** [sprintf] of a text into an array of [size] characters. *)
Definition sprintf_into (size : Z) (s : bytes) : M (list drawing) unit :=
  if size <? Z.of_nat (length s) + 1 then raise OutOfBounds else ret tt.

Definition my_oled_test : M (list drawing) unit :=
  draw ssd1306_Init ;;;
  draw (ssd1306_Fill Black) ;;;
  draw (ssd1306_SetCursor 2 0) ;;;
  draw (ssd1306_WriteString (str "Testing...") Font_11x18 White) ;;;
  draw (ssd1306_SetCursor 2 20) ;;;
  draw (ssd1306_WriteString (str "My OLED Test!") Font_7x10 White) ;;;
  draw ssd1306_UpdateScreen.

Definition my_oled_init : M (list drawing) unit :=
  draw ssd1306_Init ;;;
  draw (ssd1306_SetCursor 2 0) ;;;
  draw (ssd1306_WriteString (str "Sensor_Data") Font_11x18 White) ;;;
  draw ssd1306_UpdateScreen.

Definition my_clean_line (y : Z) : M (list drawing) unit :=
  draw (ssd1306_SetCursor 0 (u8 y)) ;;;
  draw (ssd1306_WriteString (str "                    ") Font_7x10 White).

Definition my_oled_print_led (message : bytes) : M (list drawing) unit :=
  draw (ssd1306_SetCursor 2 60) ;;;
  draw (ssd1306_WriteString message Font_7x10 White).

(** The second [sprintf] also reads the array it writes; it is taken to read it first. *)
Definition my_oled_print_dht (temp humi : Z) : M (list drawing) unit :=
  let d := str "temp:" ++ sprintf_d (u8 temp) ++ str "C humi:" ++ sprintf_d (u8 humi) in
  sprintf_into 25 d ;;;
  let d := d ++ [37; 10] in
  sprintf_into 25 d ;;;
  my_clean_line 30 ;;;
  draw (ssd1306_SetCursor 2 30) ;;;
  draw (ssd1306_WriteString d Font_7x10 White).

Definition my_oled_print_light (value : Z) : M (list drawing) unit :=
  let d := str "light:" ++ sprintf_d (i32 value) ++ [76; 10] in
  sprintf_into 50 d ;;;
  draw (ssd1306_SetCursor 2 50) ;;;
  draw (ssd1306_WriteString d Font_6x8 White).

Definition my_oled_print_mq2 (value : Z) : M (list drawing) unit :=
  let d := str "mq2:" ++ sprintf_d (i32 value) ++ str "ppm" ++ [10] in
  sprintf_into 25 d ;;;
  draw (ssd1306_SetCursor 70 50) ;;;
  draw (ssd1306_WriteString d Font_6x8 White) ;;;
  draw ssd1306_UpdateScreen.

(** ** The texts fit *)

Lemma decimal_u8 n : 0 <= n < 256 -> (length (sprintf_d n) <= 3)%nat.
Proof.
  intros Hn. unfold sprintf_d. rewrite (proj2 (Z.ltb_ge n 0)) by lia.
  assert (forall k, (k < 256)%nat -> (length (decimal_of (Z.of_nat k)) <=? 3)%nat = true) as H.
  { intros k Hk. apply (proj1 (forallb_forall (fun k => (length (decimal_of (Z.of_nat k)) <=? 3)%nat) (seq 0 256)));
      [vm_compute; reflexivity|apply in_seq; lia]. }
  specialize (H (Z.to_nat n) ltac:(lia)). rewrite Z2Nat.id in H by lia. by apply Nat.leb_le.
Qed.

Lemma sprintf_into_fits size s l (Q : unit -> list drawing -> Prop) :
  Z.of_nat (length s) + 1 <= size -> Q tt l -> wp (sprintf_into size s) l Q.
Proof. intros H HQ. unfold sprintf_into. by rewrite (proj2 (Z.ltb_ge size _)) by lia. Qed.

Lemma i32_range z : int_range (i32 z).
Proof. unfold int_range, INT_MIN, INT_MAX. pose proof (swrap_range 32 z ltac:(lia)). lia. Qed.

(** What a call draws: the climate in line 30, the light and the smoke side by side in
    line 50. *)
Definition climate_label (t h : Z) : bytes := str "temp:" ++ sprintf_d t ++ str "C humi:" ++ sprintf_d h ++ [37; 10].
Definition light_label (v : Z) : bytes := str "light:" ++ sprintf_d v ++ [76; 10].
Definition smoke_label (v : Z) : bytes := str "mq2:" ++ sprintf_d v ++ str "ppm" ++ [10].

Definition climate_shown (t h : Z) : list drawing :=
  [ssd1306_SetCursor 0 30; ssd1306_WriteString (str "                    ") Font_7x10 White;
   ssd1306_SetCursor 2 30; ssd1306_WriteString (climate_label t h) Font_7x10 White].
Definition light_shown (v : Z) : list drawing :=
  [ssd1306_SetCursor 2 50; ssd1306_WriteString (light_label v) Font_6x8 White].
Definition smoke_shown (v : Z) : list drawing :=
  [ssd1306_SetCursor 70 50; ssd1306_WriteString (smoke_label v) Font_6x8 White; ssd1306_UpdateScreen].

Definition title_shown : list drawing :=
  [ssd1306_Init; ssd1306_SetCursor 2 0; ssd1306_WriteString (str "Sensor_Data") Font_11x18 White; ssd1306_UpdateScreen].

Lemma oled_init_spec l (Q : unit -> list drawing -> Prop) : Q tt (l ++ title_shown) -> wp my_oled_init l Q.
Proof. intros HQ. unfold my_oled_init, draw. wp_steps. rewrite <- !app_assoc. exact HQ. Qed.

(** The arrays of the display's functions hold every text printed into them, whatever the
    measured values. *)
Ltac text_fits :=
  apply sprintf_into_fits;
  [rewrite ?length_app;
   repeat match goal with |- context [length (str ?s)] => let n := eval vm_compute in (length (str s)) in change (length (str s)) with n end;
   cbn [length]; lia|].

Lemma print_dht_spec t h l (Q : unit -> list drawing -> Prop) :
  Q tt (l ++ climate_shown (u8 t) (u8 h)) -> wp (my_oled_print_dht t h) l Q.
Proof.
  intros HQ. pose proof (decimal_u8 (u8 t) (wrap_range 8 t ltac:(lia))). pose proof (decimal_u8 (u8 h) (wrap_range 8 h ltac:(lia))).
  unfold my_oled_print_dht, my_clean_line, draw. wp_steps. text_fits. wp_steps. text_fits. wp_steps. change (u8 30) with 30.
  unfold climate_shown, climate_label in HQ. rewrite <- !app_assoc in *. exact HQ.
Qed.

Lemma print_light_spec v l (Q : unit -> list drawing -> Prop) :
  Q tt (l ++ light_shown (i32 v)) -> wp (my_oled_print_light v) l Q.
Proof.
  intros HQ. destruct (sprintf_d_chars (i32 v) (i32_range v)) as [Hv _].
  unfold my_oled_print_light, draw. wp_steps. text_fits. wp_steps. rewrite <- !app_assoc. exact HQ.
Qed.

Lemma print_mq2_spec v l (Q : unit -> list drawing -> Prop) :
  Q tt (l ++ smoke_shown (i32 v)) -> wp (my_oled_print_mq2 v) l Q.
Proof.
  intros HQ. destruct (sprintf_d_chars (i32 v) (i32_range v)) as [Hv _].
  unfold my_oled_print_mq2, draw. wp_steps. text_fits. wp_steps. rewrite <- !app_assoc. exact HQ.
Qed.
