(* ===== verification/DataUpload.v ===== *)
(** * Shared data of the building controller

    Models [applications/src/my_data_upload.c] and [applications/includes/my_data_upload.h]:
    the three structures every thread and callback of the firmware shares (the states of
    the devices, the environment, the thresholds), their initial values, and their
    accessors. The structures are one state record; each getter returns a field of it and
    each setter replaces one, as the C functions do with the global variables.
    [Get_Device_Properties] and its two companions return pointers to the globals: the
    threads that keep such a pointer read the same record. *)

From stdpp Require Import base numbers.
From Stdlib Require Import ZArith.
From S2P Require Import Prelude.

Record Devices_t : Set := Devices {
  Beep_State : bool;
  Relay_State : bool;
  LED0_State : bool;
  LED1_State : bool;
  Door_State : bool;
  DHT11_Sensor_State : bool;
  Light_Sensor_State : bool
}.

Record Environment_t : Set := Environment { temp : Z; humi : Z; light : Z; smoke : Z }.

Record Thresholds_t : Set := Thresholds {
  Temp_Limit : Z; Humi_Limit : Z; Light_Up_Limit : Z; Light_Down_Limit : Z
}.

Record props : Set := Props {
  my_devices : Devices_t;
  my_environment : Environment_t;
  my_thresholds : Thresholds_t
}.

Definition initial_props : props :=
  Props (Devices false false false false false true true) (Environment 0 0 0 0)
    (Thresholds 50 60 2000 1250).

#[export] Instance Devices_t_eq_dec : EqDecision Devices_t.
Proof. solve_decision. Defined.
#[export] Instance Thresholds_t_eq_dec : EqDecision Thresholds_t.
Proof. solve_decision. Defined.

Definition on_devices (f : Devices_t -> Devices_t) (p : props) : props :=
  Props (f (my_devices p)) (my_environment p) (my_thresholds p).
Definition on_environment (f : Environment_t -> Environment_t) (p : props) : props :=
  Props (my_devices p) (f (my_environment p)) (my_thresholds p).
Definition on_thresholds (f : Thresholds_t -> Thresholds_t) (p : props) : props :=
  Props (my_devices p) (my_environment p) (f (my_thresholds p)).

Definition Get_Device_Properties : M props Devices_t := gets my_devices.
Definition Get_Environment_Properties : M props Environment_t := gets my_environment.
Definition Get_Thresholds_Properties : M props Thresholds_t := gets my_thresholds.

Definition Get_Devpro_BeepState : M props bool := gets (fun p => Beep_State (my_devices p)).
Definition Get_Devpro_RelayState : M props bool := gets (fun p => Relay_State (my_devices p)).
Definition Get_Devpro_LED0State : M props bool := gets (fun p => LED0_State (my_devices p)).
Definition Get_Devpro_LED1State : M props bool := gets (fun p => LED1_State (my_devices p)).
Definition Get_Devpro_DoorState : M props bool := gets (fun p => Door_State (my_devices p)).
Definition Get_Devpro_DHT11_Sensor_State : M props bool := gets (fun p => DHT11_Sensor_State (my_devices p)).
Definition Get_Devpro_Light_Sensor_State : M props bool := gets (fun p => Light_Sensor_State (my_devices p)).

Definition Set_Devpro_BeepState (state : bool) : M props unit :=
  modify (on_devices (fun d => Devices state (Relay_State d) (LED0_State d) (LED1_State d)
    (Door_State d) (DHT11_Sensor_State d) (Light_Sensor_State d))).
Definition Set_Devpro_RelayState (state : bool) : M props unit :=
  modify (on_devices (fun d => Devices (Beep_State d) state (LED0_State d) (LED1_State d)
    (Door_State d) (DHT11_Sensor_State d) (Light_Sensor_State d))).
Definition Set_Devpro_LED0State (state : bool) : M props unit :=
  modify (on_devices (fun d => Devices (Beep_State d) (Relay_State d) state (LED1_State d)
    (Door_State d) (DHT11_Sensor_State d) (Light_Sensor_State d))).
Definition Set_Devpro_LED1State (state : bool) : M props unit :=
  modify (on_devices (fun d => Devices (Beep_State d) (Relay_State d) (LED0_State d) state
    (Door_State d) (DHT11_Sensor_State d) (Light_Sensor_State d))).
Definition Set_Devpro_DoorState (state : bool) : M props unit :=
  modify (on_devices (fun d => Devices (Beep_State d) (Relay_State d) (LED0_State d) (LED1_State d)
    state (DHT11_Sensor_State d) (Light_Sensor_State d))).
Definition Set_Devpro_DHT11_Sensor_State (state : bool) : M props unit :=
  modify (on_devices (fun d => Devices (Beep_State d) (Relay_State d) (LED0_State d) (LED1_State d)
    (Door_State d) state (Light_Sensor_State d))).
Definition Set_Devpro_Light_Sensor_State (state : bool) : M props unit :=
  modify (on_devices (fun d => Devices (Beep_State d) (Relay_State d) (LED0_State d) (LED1_State d)
    (Door_State d) (DHT11_Sensor_State d) state)).

Definition Get_Devpro_temp : M props Z := gets (fun p => temp (my_environment p)).
Definition Get_Devpro_humi : M props Z := gets (fun p => humi (my_environment p)).
Definition Get_Devpro_light : M props Z := gets (fun p => light (my_environment p)).
Definition Get_Devpro_smoke : M props Z := gets (fun p => smoke (my_environment p)).

(** The parameters are [int]. *)
Definition Set_Devpro_temp (v : Z) : M props unit :=
  modify (on_environment (fun e => Environment (i32 v) (humi e) (light e) (smoke e))).
Definition Set_Devpro_humi (v : Z) : M props unit :=
  modify (on_environment (fun e => Environment (temp e) (i32 v) (light e) (smoke e))).
Definition Set_Devpro_light (v : Z) : M props unit :=
  modify (on_environment (fun e => Environment (temp e) (humi e) (i32 v) (smoke e))).
Definition Set_Devpro_smoke (v : Z) : M props unit :=
  modify (on_environment (fun e => Environment (temp e) (humi e) (light e) (i32 v))).

Definition Get_Devpro_Temp_Limit : M props Z := gets (fun p => Temp_Limit (my_thresholds p)).
Definition Get_Devpro_Humi_Limit : M props Z := gets (fun p => Humi_Limit (my_thresholds p)).
Definition Get_Devpro_Light_Up_Limit : M props Z := gets (fun p => Light_Up_Limit (my_thresholds p)).
Definition Get_Devpro_Light_Down_Limit : M props Z := gets (fun p => Light_Down_Limit (my_thresholds p)).

Definition Set_Devpro_Temp_Limit (v : Z) : M props unit :=
  modify (on_thresholds (fun t => Thresholds (i32 v) (Humi_Limit t) (Light_Up_Limit t) (Light_Down_Limit t))).
Definition Set_Devpro_Humi_Limit (v : Z) : M props unit :=
  modify (on_thresholds (fun t => Thresholds (Temp_Limit t) (i32 v) (Light_Up_Limit t) (Light_Down_Limit t))).
Definition Set_Devpro_Light_Up_Limit (v : Z) : M props unit :=
  modify (on_thresholds (fun t => Thresholds (Temp_Limit t) (Humi_Limit t) (i32 v) (Light_Down_Limit t))).
Definition Set_Devpro_Light_Down_Limit (v : Z) : M props unit :=
  modify (on_thresholds (fun t => Thresholds (Temp_Limit t) (Humi_Limit t) (Light_Up_Limit t) (i32 v))).
