(* ===== verification/Actuators.v ===== *)
(** * Actuators of the building controller

    Models the code that drives the outputs: the alarm timer
    ([applications/src/my_hwtimer.c]), the pins, keys and their handlers
    ([applications/src/my_multiThread.c]) and the door servo
    ([applications/src/my_pwm_ctrl_door.c]). They run on a [board]: the pin driver, the
    timer, the PWM device, the two converters, the registered devices, the shared data and
    the global variables of the application files. Clients see the actuators through the
    class [Actuators] and its contract [ActuatorsOk], proved here for the board together
    with two invariants. [board_ok]: the pins of the fill light and the fan and the alarm
    timer agree with the states announced for them, the buzzer is silent when there is no
    alarm, and the warning lamp follows the buzzer (whatever [LED0_State] says). [door_ok]:
    the servo is driven, at one of its three positions. *)

From stdpp Require Import base numbers list gmap.
From Stdlib Require Import ZArith Lia Floats.SpecFloat.
From S2P Require Import Prelude Gpio Device CFloat Tim HwTimer Pwm Adc Display DataUpload.

(** ** Pins and names *)

Definition LED0_PIN : Z := GET_PIN PORT_F 9.
Definition LED1_PIN : Z := GET_PIN PORT_F 10.
Definition KEY0_PIN : Z := GET_PIN PORT_E 4.
Definition KEY1_PIN : Z := GET_PIN PORT_E 3.
Definition BEEP_PIN : Z := GET_PIN PORT_F 8.
Definition Relay_PIN : Z := GET_PIN PORT_D 4.
Definition MQ2_D0_PIN : Z := GET_PIN PORT_A 6.

(** "timer3" and "pwm4". *)
Definition HWTIMER_DEV_NAME : list Z := [116; 105; 109; 101; 114; 51].
Definition PWM_DEV_NAME : list Z := [112; 119; 109; 52].
Definition PWM_DEV_CHANNEL : Z := 1.

Inductive key_handler : Set := IQR_HANDALE_KEY0_h | IQR_HANDALE_KEY1_h.
#[export] Instance key_handler_eq_dec : EqDecision key_handler.
Proof. solve_decision. Defined.

Inductive timer_cb : Set := my_timeout_cb_h.

(** ** The board *)

(** The global variables of the application files. A device handle is the object's
    address, or [None] for [RT_NULL]. *)
Record app : Type := App {
  hw_dev : option Z;             (* my_hwtimer.c *)
  hw_ret : Z;
  timeout_s : rt_hwtimerval;
  hw_mode : Z;
  my_hwtimer_temp_time : Z;
  pwm_dev : option Z;            (* my_pwm_ctrl_door.c *)
  angle : Z;                     (* uint8_t *)
  door_period : Z;
  adc_light_dev : option Z;      (* my_adc.c *)
  adc_mq2_dev : option Z;
  light_value : Z;
  mq2_value : Z;
  emergency_light_state : Z;
  light_hard_error_state : Z;
  light_limit : Z;
  dht_temp : Z;                  (* my_dht11.c: temp, humi *)
  dht_humi : Z;
  temp_limit : Z;
  beep_state : Z
}.

Record board : Type := Board {
  b_gpio : gpio key_handler;
  b_timer : hwtimer timer_cb;
  b_pwm : pwm;
  b_adc3 : adc;
  b_adc2 : adc;
  b_objs : object_list;
  b_props : props;
  b_app : app;
  b_oled : list drawing
}.

#[export, refine] Instance board_gpio : Lens board (gpio key_handler) :=
  {| view := b_gpio;
     over := fun x b => Board x (b_timer b) (b_pwm b) (b_adc3 b) (b_adc2 b) (b_objs b) (b_props b) (b_app b) (b_oled b) |}.
Proof. all: intros; try destruct s; reflexivity. Defined.
#[export, refine] Instance board_timer : Lens board (hwtimer timer_cb) :=
  {| view := b_timer;
     over := fun x b => Board (b_gpio b) x (b_pwm b) (b_adc3 b) (b_adc2 b) (b_objs b) (b_props b) (b_app b) (b_oled b) |}.
Proof. all: intros; try destruct s; reflexivity. Defined.
#[export, refine] Instance board_pwm : Lens board pwm :=
  {| view := b_pwm;
     over := fun x b => Board (b_gpio b) (b_timer b) x (b_adc3 b) (b_adc2 b) (b_objs b) (b_props b) (b_app b) (b_oled b) |}.
Proof. all: intros; try destruct s; reflexivity. Defined.
#[export, refine] Instance board_objs : Lens board object_list :=
  {| view := b_objs;
     over := fun x b => Board (b_gpio b) (b_timer b) (b_pwm b) (b_adc3 b) (b_adc2 b) x (b_props b) (b_app b) (b_oled b) |}.
Proof. all: intros; try destruct s; reflexivity. Defined.
#[export, refine] Instance board_props : Lens board props :=
  {| view := b_props;
     over := fun x b => Board (b_gpio b) (b_timer b) (b_pwm b) (b_adc3 b) (b_adc2 b) (b_objs b) x (b_app b) (b_oled b) |}.
Proof. all: intros; try destruct s; reflexivity. Defined.
#[export, refine] Instance board_app : Lens board app :=
  {| view := b_app;
     over := fun x b => Board (b_gpio b) (b_timer b) (b_pwm b) (b_adc3 b) (b_adc2 b) (b_objs b) (b_props b) x (b_oled b) |}.
Proof. all: intros; try destruct s; reflexivity. Defined.
#[export, refine] Instance board_oled : Lens board (list drawing) :=
  {| view := b_oled;
     over := fun x b => Board (b_gpio b) (b_timer b) (b_pwm b) (b_adc3 b) (b_adc2 b) (b_objs b) (b_props b) (b_app b) x |}.
Proof. all: intros; try destruct s; reflexivity. Defined.

(** The two converters have the same type: their lenses are named. *)
#[refine] Definition board_adc3 : Lens board adc :=
  {| view := b_adc3;
     over := fun x b => Board (b_gpio b) (b_timer b) (b_pwm b) x (b_adc2 b) (b_objs b) (b_props b) (b_app b) (b_oled b) |}.
Proof. all: intros; try destruct s; reflexivity. Defined.
#[refine] Definition board_adc2 : Lens board adc :=
  {| view := b_adc2;
     over := fun x b => Board (b_gpio b) (b_timer b) (b_pwm b) (b_adc3 b) x (b_objs b) (b_props b) (b_app b) (b_oled b) |}.
Proof. all: intros; try destruct s; reflexivity. Defined.

Definition set_hw_dev (v : option Z) (a : app) : app :=
  App v (hw_ret a) (timeout_s a) (hw_mode a) (my_hwtimer_temp_time a) (pwm_dev a) (angle a) (door_period a)
    (adc_light_dev a) (adc_mq2_dev a) (light_value a) (mq2_value a) (emergency_light_state a)
    (light_hard_error_state a) (light_limit a) (dht_temp a) (dht_humi a) (temp_limit a) (beep_state a).
Definition set_hw_ret (v : Z) (a : app) : app :=
  App (hw_dev a) v (timeout_s a) (hw_mode a) (my_hwtimer_temp_time a) (pwm_dev a) (angle a) (door_period a)
    (adc_light_dev a) (adc_mq2_dev a) (light_value a) (mq2_value a) (emergency_light_state a)
    (light_hard_error_state a) (light_limit a) (dht_temp a) (dht_humi a) (temp_limit a) (beep_state a).
Definition set_timeout (v : rt_hwtimerval) (m t : Z) (a : app) : app :=
  App (hw_dev a) (hw_ret a) v m t (pwm_dev a) (angle a) (door_period a)
    (adc_light_dev a) (adc_mq2_dev a) (light_value a) (mq2_value a) (emergency_light_state a)
    (light_hard_error_state a) (light_limit a) (dht_temp a) (dht_humi a) (temp_limit a) (beep_state a).
Definition set_door (d : option Z) (ang per : Z) (a : app) : app :=
  App (hw_dev a) (hw_ret a) (timeout_s a) (hw_mode a) (my_hwtimer_temp_time a) d ang per
    (adc_light_dev a) (adc_mq2_dev a) (light_value a) (mq2_value a) (emergency_light_state a)
    (light_hard_error_state a) (light_limit a) (dht_temp a) (dht_humi a) (temp_limit a) (beep_state a).
Definition set_adc_devs (l m : option Z) (a : app) : app :=
  App (hw_dev a) (hw_ret a) (timeout_s a) (hw_mode a) (my_hwtimer_temp_time a) (pwm_dev a) (angle a) (door_period a)
    l m (light_value a) (mq2_value a) (emergency_light_state a)
    (light_hard_error_state a) (light_limit a) (dht_temp a) (dht_humi a) (temp_limit a) (beep_state a).
Definition set_adc_values (l m : Z) (a : app) : app :=
  App (hw_dev a) (hw_ret a) (timeout_s a) (hw_mode a) (my_hwtimer_temp_time a) (pwm_dev a) (angle a) (door_period a)
    (adc_light_dev a) (adc_mq2_dev a) l m (emergency_light_state a)
    (light_hard_error_state a) (light_limit a) (dht_temp a) (dht_humi a) (temp_limit a) (beep_state a).
Definition set_light_flags (st err lim : Z) (a : app) : app :=
  App (hw_dev a) (hw_ret a) (timeout_s a) (hw_mode a) (my_hwtimer_temp_time a) (pwm_dev a) (angle a) (door_period a)
    (adc_light_dev a) (adc_mq2_dev a) (light_value a) (mq2_value a) st
    err lim (dht_temp a) (dht_humi a) (temp_limit a) (beep_state a).
Definition set_dht (t h lim bs : Z) (a : app) : app :=
  App (hw_dev a) (hw_ret a) (timeout_s a) (hw_mode a) (my_hwtimer_temp_time a) (pwm_dev a) (angle a) (door_period a)
    (adc_light_dev a) (adc_mq2_dev a) (light_value a) (mq2_value a) (emergency_light_state a)
    (light_hard_error_state a) (light_limit a) t h lim bs.

(** Shorthands: pins, shared data, the application's globals. *)
Definition pin_write (p v : Z) : M board unit := zoom (rt_pin_write p v : M (gpio key_handler) unit).
Definition pin_read (p : Z) : M board Z := zoom (rt_pin_read p : M (gpio key_handler) Z).
Definition data {A : Type} (m : M props A) : M board A := zoom m.
Definition app_gets {A : Type} (f : app -> A) : M board A := gets (fun b => f (b_app b)).
Definition app_modify (f : app -> app) : M board unit := zoom (modify f).
Definition find_device (name : list Z) : M board (option Z) := zoom (rt_device_find name).

(** ** my_hwtimer.c *)

Definition timer {A : Type} (m : M (hwtimer timer_cb) A) : M board A := zoom m.

(** The timer's interrupt calls it in interrupt context; its arguments are not used. *)
Definition my_timeout_cb : M board rt_err_t :=
  v <- pin_read LED0_PIN ;;
  pin_write LED0_PIN (1 - v) ;;;
  v <- pin_read BEEP_PIN ;;
  pin_write BEEP_PIN (1 - v) ;;;
  ret 0.

Definition my_hwtimer_openTimer : M board Z :=
  d <- find_device HWTIMER_DEV_NAME ;;
  app_modify (set_hw_dev d) ;;;
  match d with
  | None => ret RT_ERROR
  | Some _ =>
      r <- timer (rt_device_open RT_DEVICE_OFLAG_RDWR) ;;
      app_modify (set_hw_ret r) ;;;
      if negb (r =? RT_EOK) then ret r
      else
        timer (rt_device_set_rx_indicate (Some my_timeout_cb_h)) ;;;
        app_modify (fun a => set_timeout (timeout_s a) HWTIMER_MODE_PERIOD (my_hwtimer_temp_time a) a) ;;;
        m <- app_gets hw_mode ;;
        r <- timer (rt_device_control HWTIMER_CTRL_MODE_SET (Some m)) ;;
        app_modify (set_hw_ret r) ;;;
        if negb (r =? RT_EOK) then ret r
        else
          app_modify (fun a => set_timeout (Hwtimerval 0 (100 * 1000)) (hw_mode a) (my_hwtimer_temp_time a) a) ;;;
          tv <- app_gets timeout_s ;;
          n <- timer (rt_device_write 0 tv sizeof_hwtimerval) ;;
          if negb (n =? sizeof_hwtimerval) then ret RT_ERROR
          else app_gets hw_ret
  end.

Definition my_hwtimer_closeTimer : M board Z :=
  d <- app_gets hw_dev ;;
  match d with
  | None => ret RT_ERROR
  | Some _ =>
      r <- timer rt_device_close ;;
      app_modify (set_hw_ret r) ;;;
      ret r
  end.

Definition my_hwtimer_max_time : Z := 5000.
Definition my_hwtimer_min_time : Z := 125.

(** [/] and [%] of C truncate; sums of [int]s are taken modulo 2^32, as the
    hardware computes them (their overflow is undefined in C). *)
Definition my_hwtimer_set_ms (t : Z) : M board unit :=
  app_modify (fun a => set_timeout (Hwtimerval (Z.quot t 1000) (Z.rem t 1000 * 1000))
                         (hw_mode a) (my_hwtimer_temp_time a) a).

Definition my_hwtimer_restart : M board Z :=
  tv <- app_gets timeout_s ;;
  n <- timer (rt_device_write 0 tv sizeof_hwtimerval) ;;
  if negb (n =? sizeof_hwtimerval) then ret RT_ERROR else app_gets hw_ret.

Definition my_hwtimer_addTime (ms_ : Z) : M board Z :=
  d <- app_gets hw_dev ;;
  match d with
  | None => ret RT_ERROR
  | Some _ =>
      tv <- app_gets timeout_s ;;
      let t := i32 (sec tv * 1000 + Z.quot (usec tv) 1000) in
      app_modify (fun a => set_timeout (timeout_s a) (hw_mode a) t a) ;;;
      let sum := i32 (t + ms_) in
      (if my_hwtimer_max_time <=? sum then my_hwtimer_set_ms my_hwtimer_max_time
       else
         app_modify (fun a => set_timeout (timeout_s a) (hw_mode a) sum a) ;;;
         my_hwtimer_set_ms sum) ;;;
      my_hwtimer_restart
  end.

Definition my_hwtimer_subTime (ms_ : Z) : M board Z :=
  d <- app_gets hw_dev ;;
  match d with
  | None => ret RT_ERROR
  | Some _ =>
      tv <- app_gets timeout_s ;;
      let t := i32 (sec tv * 1000 + Z.quot (usec tv) 1000) in
      app_modify (fun a => set_timeout (timeout_s a) (hw_mode a) t a) ;;;
      let diff := i32 (t - ms_) in
      (if diff <=? my_hwtimer_min_time then my_hwtimer_set_ms my_hwtimer_min_time
       else
         app_modify (fun a => set_timeout (timeout_s a) (hw_mode a) diff a) ;;;
         my_hwtimer_set_ms diff) ;;;
      my_hwtimer_restart
  end.

(** ** my_multiThread.c *)

Definition beep_change (state : bool) : M board unit :=
  (if negb state then
     my_hwtimer_closeTimer ;;;
     pin_write LED0_PIN PIN_HIGH ;;;
     pin_write BEEP_PIN PIN_LOW
   else
     my_hwtimer_openTimer ;;; ret tt) ;;;
  data (Set_Devpro_LED0State state) ;;;
  data (Set_Devpro_BeepState state).

Definition relay_change (state : bool) : M board unit :=
  (if negb state then pin_write Relay_PIN PIN_LOW else pin_write Relay_PIN PIN_HIGH) ;;;
  data (Set_Devpro_RelayState state).

(** [set_emergency_light_state], [set_light_limit] and the hard-error flag of my_adc.c. *)
Definition set_emergency_light_state (state : Z) : M board unit :=
  app_modify (fun a => set_light_flags (u8 state) (light_hard_error_state a) (light_limit a) a).

Definition emergency_light_open : M board unit :=
  pin_write LED1_PIN PIN_LOW ;;; set_emergency_light_state 1.
Definition emergency_light_close : M board unit :=
  pin_write LED1_PIN PIN_HIGH ;;; set_emergency_light_state 0.

Definition emergency_light_change (state : bool) : M board unit :=
  (if negb state then pin_write LED1_PIN PIN_HIGH else pin_write LED1_PIN PIN_LOW) ;;;
  data (Set_Devpro_LED1State state).

Definition IQR_HANDALE_KEY0 : M board unit :=
  b <- data Get_Devpro_DHT11_Sensor_State ;;
  data (Set_Devpro_DHT11_Sensor_State (negb b)).
Definition IQR_HANDALE_KEY1 : M board unit :=
  b <- data Get_Devpro_Light_Sensor_State ;;
  data (Set_Devpro_Light_Sensor_State (negb b)).

(** What an attached handler runs. *)
Definition run_key (h : key_handler) : M board unit :=
  match h with IQR_HANDALE_KEY0_h => IQR_HANDALE_KEY0 | IQR_HANDALE_KEY1_h => IQR_HANDALE_KEY1 end.

Definition Get_MQ2_D0 : M board Z := v <- pin_read MQ2_D0_PIN ;; ret (u8 v).

Definition pins_do {A : Type} (m : M (gpio key_handler) A) : M board A := zoom m.

Definition my_GPIO_Init : M board unit :=
  pins_do (rt_pin_mode LED0_PIN PIN_MODE_OUTPUT) ;;;
  pins_do (rt_pin_mode LED1_PIN PIN_MODE_OUTPUT) ;;;
  pin_write LED0_PIN PIN_HIGH ;;;
  pin_write LED1_PIN PIN_HIGH ;;;
  pins_do (rt_pin_mode KEY0_PIN PIN_MODE_INPUT) ;;;
  pins_do (rt_pin_mode KEY1_PIN PIN_MODE_INPUT) ;;;
  pins_do (rt_pin_attach_irq KEY0_PIN PIN_IRQ_MODE_FALLING (Some IQR_HANDALE_KEY0_h) 0) ;;;
  pins_do (rt_pin_attach_irq KEY1_PIN PIN_IRQ_MODE_FALLING (Some IQR_HANDALE_KEY1_h) 0) ;;;
  pins_do (rt_pin_irq_enable KEY0_PIN PIN_IRQ_ENABLE) ;;;
  pins_do (rt_pin_irq_enable KEY1_PIN PIN_IRQ_ENABLE) ;;;
  pins_do (rt_pin_mode BEEP_PIN PIN_MODE_OUTPUT) ;;;
  pin_write BEEP_PIN PIN_LOW ;;;
  pins_do (rt_pin_mode Relay_PIN PIN_MODE_OUTPUT) ;;;
  pin_write Relay_PIN PIN_LOW ;;;
  pins_do (rt_pin_mode MQ2_D0_PIN PIN_MODE_INPUT).

(** ** my_pwm_ctrl_door.c *)

Definition pwm_do {A : Type} (m : M pwm A) : M board A := zoom m.

(** A [void] function: its early [return RT_ERROR] has no effect. *)
Definition my_pwm_init : M board unit :=
  d <- find_device PWM_DEV_NAME ;;
  app_modify (fun a => set_door d (angle a) (20 * 1000000) a) ;;;
  match d with
  | None => ret tt
  | Some _ =>
      per <- app_gets door_period ;;
      pwm_do (rt_pwm_set true PWM_DEV_CHANNEL per 500000) ;;;
      pwm_do (rt_pwm_enable true PWM_DEV_CHANNEL) ;;;
      ret tt
  end.

(** [(uint32_t)(1000000*(0.5 + angles*(2.5-0.5)/180.0))], in double. *)
Definition servo_pulse (angles : Z) : option Z :=
  let d := of_Z binary64 in
  to_unsigned 32
    (fmul binary64 (d 1000000)
      (fadd binary64 (literal binary64 5 10)
        (fdiv binary64
          (fmul binary64 (d angles) (fsub binary64 (literal binary64 25 10) (literal binary64 5 10)))
          (d 180)))).

Definition clamp_angle (angles : Z) : Z :=
  let angles := if angles <=? 0 then 5 else angles in
  if 180 <=? angles then 170 else angles.

Definition my_pwm_set_angle (angles : Z) : M board unit :=
  match servo_pulse (clamp_angle (u8 angles)) with
  | None => raise BadConversion
  | Some pulses =>
      d <- app_gets pwm_dev ;;
      per <- app_gets door_period ;;
      pwm_do (rt_pwm_set (bool_decide (is_Some d)) PWM_DEV_CHANNEL per pulses) ;;;
      ret tt
  end.

Definition my_pwm_angle_change (direction : bool) (angles : Z) : M board unit :=
  a <- app_gets angle ;;
  (if direction then
     when (a <? 180) (app_modify (fun s => set_door (pwm_dev s) (u8 (a + u8 angles)) (door_period s) s))
   else
     when (0 <? a) (app_modify (fun s => set_door (pwm_dev s) (u8 (a - u8 angles)) (door_period s) s))) ;;;
  data (Set_Devpro_DoorState direction) ;;;
  a <- app_gets angle ;;
  my_pwm_set_angle a.

(** ** What clients may rely on *)

(** The effect of each actuator call on the announced states. *)
Definition with_beep (b : bool) (d : Devices_t) : Devices_t :=
  Devices b (Relay_State d) b (LED1_State d) (Door_State d) (DHT11_Sensor_State d) (Light_Sensor_State d).
Definition with_relay (b : bool) (d : Devices_t) : Devices_t :=
  Devices (Beep_State d) b (LED0_State d) (LED1_State d) (Door_State d) (DHT11_Sensor_State d) (Light_Sensor_State d).
Definition with_light (b : bool) (d : Devices_t) : Devices_t :=
  Devices (Beep_State d) (Relay_State d) (LED0_State d) b (Door_State d) (DHT11_Sensor_State d) (Light_Sensor_State d).
Definition with_door (b : bool) (d : Devices_t) : Devices_t :=
  Devices (Beep_State d) (Relay_State d) (LED0_State d) (LED1_State d) b (DHT11_Sensor_State d) (Light_Sensor_State d).

(** The states that outputs follow are unchanged. *)
Definition same_outputs (p p' : props) : Prop :=
  Beep_State (my_devices p') = Beep_State (my_devices p) /\
  Relay_State (my_devices p') = Relay_State (my_devices p) /\
  LED1_State (my_devices p') = LED1_State (my_devices p) /\
  Door_State (my_devices p') = Door_State (my_devices p).

(** Where a door command turns the servo from one of its positions, in degrees. *)
Definition next_angle (direction : bool) (a : Z) : Z :=
  if direction then (if a <? 180 then a + 90 else a) else (if 0 <? a then a - 90 else a).

Class Actuators (S : Type) := {
  act_props :: Lens S props;
  act_beep : bool -> M S unit;
  act_relay : bool -> M S unit;
  act_light : bool -> M S unit;
  act_door : bool -> Z -> M S unit;
  act_mq2_d0 : M S Z
}.

(** [T] is the part of the state that belongs to the client. Whether the alarm is on, the fan
    and the fill light, and the servo's position are those of the hardware: they are not read
    off the announced states, but agree with them as long as the actuators are in order; for
    the servo, an open door is turned by 90 degrees at least and a closed one by 90 at most. *)
Class ActuatorsOk (S T : Type) `{act : !Actuators S, mine : !Lens S T} := {
  act_ok : S -> Prop;
  act_alarm : S -> bool;
  act_fan : S -> bool;
  act_lit : S -> bool;
  act_position : S -> Z;
  act_agrees : forall s, act_ok s ->
    let d := my_devices (view s) in
    act_alarm s = Beep_State d /\ act_fan s = Relay_State d /\ act_lit s = LED1_State d /\
    if Door_State d then 90 <= act_position s else act_position s <= 90;
  act_beep_ok : forall b s, act_ok s ->
    wp (act_beep b) s (fun _ s' => act_ok s' /\ view (T := T) s' = view s /\
      view s' = on_devices (with_beep b) (view s) /\ act_position s' = act_position s);
  act_relay_ok : forall b s, act_ok s ->
    wp (act_relay b) s (fun _ s' => act_ok s' /\ view (T := T) s' = view s /\
      view s' = on_devices (with_relay b) (view s) /\ act_position s' = act_position s);
  act_light_ok : forall b s, act_ok s ->
    wp (act_light b) s (fun _ s' => act_ok s' /\ view (T := T) s' = view s /\
      view s' = on_devices (with_light b) (view s) /\ act_position s' = act_position s);
  act_door_ok : forall b s, act_ok s ->
    wp (act_door b 90) s (fun _ s' => act_ok s' /\ view (T := T) s' = view s /\
      view s' = on_devices (with_door b) (view s) /\ act_position s' = next_angle b (act_position s));
  act_mq2_ok : forall s, act_ok s ->
    wp act_mq2_d0 s (fun v s' => s' = s /\ (v = PIN_LOW \/ v = PIN_HIGH));
  act_data_ok : forall p s, act_ok s -> same_outputs (view s) p -> act_ok (over p s);
  act_data_position : forall (p : props) s, act_position (over p s) = act_position s;
  act_mine_ok : forall (t : T) s, act_ok s -> act_ok (over t s);
  act_mine_position : forall (t : T) s, act_position (over t s) = act_position s;
  act_mine_props : forall (t : T) s, view (T := props) (over t s) = view s;
  act_props_mine : forall (p : props) s, view (T := T) (over p s) = view s
}.

(** ** The board keeps the contract *)

#[export] Instance board_actuators : Actuators board :=
  {| act_props := board_props; act_beep := beep_change; act_relay := relay_change;
     act_light := emergency_light_change; act_door := my_pwm_angle_change;
     act_mq2_d0 := Get_MQ2_D0 |}.

(** The outputs agree with the states: the fill light's LED is active low, the relay active
    high; the warning lamp (active low) is lit exactly when the buzzer (active high)
    sounds; no alarm, no sound. *)
Record pins_ok (g : gpio key_handler) (d : Devices_t) : Prop := {
  ok_ops : hw_pin_ops g = true;
  ok_outputs : Forall (is_output g) [LED0_PIN; LED1_PIN; BEEP_PIN; Relay_PIN];
  ok_led1 : level g LED1_PIN = if LED1_State d then PIN_LOW else PIN_HIGH;
  ok_relay : level g Relay_PIN = if Relay_State d then PIN_HIGH else PIN_LOW;
  ok_lamp : level g LED0_PIN = if level g BEEP_PIN =? PIN_HIGH then PIN_LOW else PIN_HIGH;
  ok_quiet : Beep_State d = false -> level g BEEP_PIN = PIN_LOW
}.

(** The alarm timer is open and ticking towards its callback exactly while the alarm is on. *)
Definition timer_ok (t : hwtimer timer_cb) (dev : option Z) (beep : bool) : Prop :=
  if beep then stands_for Opened t /\ is_Some dev /\
    exists c, 1 <= c <= 2 /\ periodic 2 c my_timeout_cb_h t
  else stands_for Closed t /\ rx_indicate (tdev t) = None.

Definition devices_ok (o : object_list) : Prop :=
  is_Some (rt_object_find HWTIMER_DEV_NAME o) /\ is_Some (rt_object_find PWM_DEV_NAME o).

Definition angle_ok (a : app) : Prop := angle a = 0 \/ angle a = 90 \/ angle a = 180.

Record board_ok (b : board) : Prop := {
  ok_pins : pins_ok (b_gpio b) (my_devices (b_props b));
  ok_timer : timer_ok (b_timer b) (hw_dev (b_app b)) (Beep_State (my_devices (b_props b)));
  ok_devices : devices_ok (b_objs b);
  ok_angle : angle_ok (b_app b)
}.

(** The period [my_pwm_init] sets, in nanoseconds, and the pulses the code asks for: 0.5 ms at
    the start, then one for each of the door's three positions. *)
Definition servo_period : Z := 20 * 1000000.
Definition rest_pulse : Z := 500000.
Definition position_pulse (a : Z) : Z := if a =? 0 then 555555 else if a =? 90 then 1500000 else 2388888.

(** The output of channel 1 is enabled and its timer counts. *)
Definition servo_on (p : pwm) : Prop :=
  Z.testbit (pwm_regs p CCER) 0 = true /\ Z.testbit (pwm_regs p CR1) CR1_CEN = true.

(** The timer makes a pulse of [pul] nanoseconds in each of the servo's periods. *)
Definition servo_regs (p : pwm) (per pul : Z) : Prop :=
  pwm_regs p PSC = pwm_psc per - 1 /\ pwm_regs p ARR = pwm_arr per - 1 /\ pwm_regs p CCR1 = pwm_cmp per pul - 1.

(** The position nearest to the pulse that the compare register sets: a pulse is 1615 or
    1794, 4846 or 7717 counts long. *)
Definition servo_position (p : pwm) : Z :=
  let counts := pwm_regs p CCR1 + 1 in
  if counts <? 3320 then 0 else if counts <? 6281 then 90 else 180.

(** The door: the servo is driven to the position that the variable [angle] holds, which is
    within 90 degrees of the announced state. *)
Record door_ok (b : board) : Prop := {
  door_found : is_Some (pwm_dev (b_app b));
  door_timed : door_period (b_app b) = servo_period;
  door_on : servo_on (b_pwm b);
  door_driven : exists pul, servo_regs (b_pwm b) servo_period pul /\
    (pul = position_pulse (angle (b_app b)) \/ angle (b_app b) = 0 /\ pul = rest_pulse);
  door_announced : if Door_State (my_devices (b_props b)) then 90 <= angle (b_app b) else angle (b_app b) <= 90
}.

(** All the door depends on. *)
Definition door_part (b : board) : pwm * option Z * Z * Z * bool :=
  (b_pwm b, pwm_dev (b_app b), door_period (b_app b), angle (b_app b), Door_State (my_devices (b_props b))).

Lemma output_pins_valid : Forall valid_pin [LED0_PIN; LED1_PIN; BEEP_PIN; Relay_PIN; MQ2_D0_PIN].
Proof. repeat (constructor; [by split|]). constructor. Qed.

(** Closes [p <> q] for two of the pins above. *)
Ltac pin_ne := let H := fresh in intros H; vm_compute in H; discriminate H.

(** Walks through a computation on the board, entering its components. *)
Ltac board_steps :=
  repeat (first [wp_step|apply wp_zoom|progress unfold dev_modify
                |progress unfold rt_device_set_rx_indicate|progress cbn]).

Section BoardFacts.
Implicit Types b : board.

Lemma wp_pin_write p v b Q :
  hw_pin_ops (b_gpio b) = true -> valid_pin p ->
  Q tt (over (write_level (b_gpio b) p v) b) -> wp (pin_write p v) b Q.
Proof.
  intros Ho Hp HQ. unfold pin_write. apply wp_zoom. unfold wp. by rewrite rt_pin_write_eq.
Qed.

Lemma wp_pin_read p b Q :
  hw_pin_ops (b_gpio b) = true -> valid_pin p ->
  Q (level (b_gpio b) p) b -> wp (pin_read p) b Q.
Proof.
  intros Ho Hp HQ. unfold pin_read. apply wp_zoom. unfold wp. rewrite rt_pin_read_eq by done.
  by rewrite over_view.
Qed.

Lemma is_output_write (g : gpio key_handler) p q v : is_output g q -> is_output (write_level g p v) q.
Proof. exact id. Qed.

Lemma level_write (g : gpio key_handler) p q v :
  is_output g p ->
  level (write_level g p v) q = if decide (q = p) then (if v =? 0 then PIN_LOW else PIN_HIGH) else level g q.
Proof. intros Ho. case_decide; [subst; by apply level_write_same|by apply level_write_other]. Qed.

(** A write to one output. *)
Lemma write_output (g : gpio key_handler) p v :
  hw_pin_ops g = true -> Forall (is_output g) [LED0_PIN; LED1_PIN; BEEP_PIN; Relay_PIN] ->
  p ∈ [LED0_PIN; LED1_PIN; BEEP_PIN; Relay_PIN] ->
  hw_pin_ops (write_level g p v) = true /\
  Forall (is_output (write_level g p v)) [LED0_PIN; LED1_PIN; BEEP_PIN; Relay_PIN] /\
  forall q, level (write_level g p v) q =
    if decide (q = p) then (if v =? 0 then PIN_LOW else PIN_HIGH) else level g q.
Proof.
  intros Ho Hout Hp. split; [done|]. split; [done|]. intros q. apply level_write.
  by eapply Forall_forall; [exact Hout|].
Qed.

Lemma pins_write (g : gpio key_handler) d p v :
  pins_ok g d -> p ∈ [LED0_PIN; LED1_PIN; BEEP_PIN; Relay_PIN] ->
  hw_pin_ops (write_level g p v) = true /\
  Forall (is_output (write_level g p v)) [LED0_PIN; LED1_PIN; BEEP_PIN; Relay_PIN] /\
  forall q, level (write_level g p v) q =
    if decide (q = p) then (if v =? 0 then PIN_LOW else PIN_HIGH) else level g q.
Proof. intros Hg. apply write_output; apply Hg. Qed.

Lemma level_01 (g : gpio key_handler) p : level g p = PIN_LOW \/ level g p = PIN_HIGH.
Proof. unfold level, HAL_GPIO_ReadPin. destruct (negb _); auto. Qed.

Lemma wp_data {A : Type} (m : M props A) b Q :
  wp m (b_props b) (fun a p => Q a (over p b)) -> wp (data m) b Q.
Proof. intros H. by apply wp_zoom. Qed.

Lemma relay_change_spec state b :
  board_ok b ->
  wp (relay_change state) b (fun _ b' => board_ok b' /\
    b_props b' = on_devices (with_relay state) (b_props b)).
Proof.
  intros [Hp Ht Hd Ha]. unfold relay_change. wp_steps.
  destruct (pins_write _ _ Relay_PIN (if state then PIN_HIGH else PIN_LOW) Hp) as (W1 & W2 & W3);
      [rewrite !elem_of_cons; auto|].
  apply wp_mono with (P := fun _ b' =>
    b' = over (write_level (b_gpio b) Relay_PIN (if state then PIN_HIGH else PIN_LOW)) b).
  { destruct state; cbn [negb]; by apply wp_pin_write; [apply Hp|..]. }
  intros _ b' ->. apply wp_data, wp_modify. split; [|done].
  split; cbn; try done. split; cbn; rewrite ?W3.
  - done.
  - done.
  - rewrite decide_False by pin_ne. apply Hp.
  - rewrite decide_True by done. by destruct state.
  - rewrite !decide_False by pin_ne. apply Hp.
  - rewrite decide_False by pin_ne. apply Hp.
Qed.

Lemma light_change_spec state b :
  board_ok b ->
  wp (emergency_light_change state) b (fun _ b' => board_ok b' /\
    b_props b' = on_devices (with_light state) (b_props b)).
Proof.
  intros [Hp Ht Hd Ha]. unfold emergency_light_change. wp_steps.
  destruct (pins_write _ _ LED1_PIN (if state then PIN_LOW else PIN_HIGH) Hp) as (W1 & W2 & W3);
      [rewrite !elem_of_cons; auto|].
  apply wp_mono with (P := fun _ b' =>
    b' = over (write_level (b_gpio b) LED1_PIN (if state then PIN_LOW else PIN_HIGH)) b).
  { destruct state; cbn [negb]; by apply wp_pin_write; [apply Hp|..]. }
  intros _ b' ->. apply wp_data, wp_modify. split; [|done].
  split; cbn; try done. split; cbn; rewrite ?W3.
  - done.
  - done.
  - rewrite decide_True by done. by destruct state.
  - rewrite decide_False by pin_ne. apply Hp.
  - rewrite !decide_False by pin_ne. apply Hp.
  - rewrite decide_False by pin_ne. apply Hp.
Qed.

(** *** The door *)

(** The pulses of the three positions: 5 degrees, 90 and 170, of the 20 ms period. *)
Lemma servo_pulses :
  servo_pulse (clamp_angle 0) = Some 555555 /\ servo_pulse (clamp_angle 90) = Some 1500000 /\
  servo_pulse (clamp_angle 180) = Some 2388888.
Proof. vm_compute. split_and!; reflexivity. Qed.

Lemma rt_pwm_set_frame d ch per pul (p : pwm) :
  wp (rt_pwm_set d ch per pul) p (fun _ _ => True).
Proof. unfold rt_pwm_set. destruct d; by repeat wp_step. Qed.

(** Setting a pulse leaves the channel on or off, as it was. *)
Definition pwm_switches (p : pwm) : Z * Z := (pwm_regs p CCER, pwm_regs p CR1).

Lemma rt_pwm_set_switches d per pul : leaves pwm_switches (rt_pwm_set d PWM_DEV_CHANNEL per pul).
Proof.
  unfold rt_pwm_set, rt_device_control. cbn [device_control pwm_driver]. destruct d; cbn [negb]; [|apply leaves_ret].
  unfold _pwm_control. apply leaves_bind; [|intros; apply leaves_ret].
  set (c := Pwm_configuration _ _ _).
  change (drv_pwm_control PWM_CMD_SET c) with (r <- drv_pwm_set c ;; ret (r, c)).
  apply leaves_bind; [|intros; apply leaves_ret]. unfold drv_pwm_set.
  intros p a p' [= _ <-]. unfold pwm_switches. cbn [pwm_regs set_pwm_regs]. unfold HAL_TIM_GenerateEvent.
  change (ccr (hal_channel c)) with CCR1. rewrite !generate_update_ne by done. rewrite !wr_ne by done. done.
Qed.

Lemma rt_pwm_set_spec dev per pul (p : pwm) :
  0 <= per < 2 ^ 32 -> 0 <= pul < 2 ^ 32 ->
  wp (rt_pwm_set dev PWM_DEV_CHANNEL per pul) p (fun r p' => dev = true ->
    servo_regs p' per pul).
Proof.
  intros Hper Hpul. unfold rt_pwm_set, rt_device_control. destruct dev; cbn [negb]; [|by wp_steps].
  cbn [device_control pwm_driver]. unfold _pwm_control. wp_steps.
  set (c := Pwm_configuration _ _ _).
  change (drv_pwm_control PWM_CMD_SET c) with (r <- drv_pwm_set c ;; ret (r, c)). wp_steps.
  eapply wp_mono; [by apply drv_pwm_set_spec|]. cbn beta. intros r p' (_ & _ & E1 & E2 & E3 & _). wp_steps. by intros _.
Qed.

Lemma door_change_spec direction b :
  board_ok b ->
  wp (my_pwm_angle_change direction 90) b (fun _ b' => board_ok b' /\
    angle (b_app b') = next_angle direction (angle (b_app b)) /\
    b_gpio b' = b_gpio b /\ b_timer b' = b_timer b /\
    b_props b' = on_devices (with_door direction) (b_props b) /\
    door_period (b_app b') = door_period (b_app b) /\ pwm_dev (b_app b') = pwm_dev (b_app b) /\
    pwm_switches (b_pwm b') = pwm_switches (b_pwm b) /\
    let per := door_period (b_app b) in
    (is_Some (pwm_dev (b_app b)) -> 0 <= per < 2 ^ 32 ->
     servo_regs (b_pwm b') per (position_pulse (next_angle direction (angle (b_app b)))))).
Proof.
  intros [Hp Ht Hd Ha]. unfold my_pwm_angle_change, app_gets. wp_steps.
  set (a' := next_angle direction (angle (b_app b))).
  assert (a' = 0 \/ a' = 90 \/ a' = 180) as Ha'.
  { unfold a', next_angle. destruct Ha as [-> |[-> | ->]]; destruct direction; cbn; auto. }
  apply wp_mono with (P := fun _ b' =>
    b' = over (set_door (pwm_dev (b_app b)) a' (door_period (b_app b)) (b_app b)) b).
  { assert (forall k, over (set_door (pwm_dev (b_app b)) (angle (b_app b)) (door_period (b_app b)) (b_app b)) b = k -> b = k) as Hid.
    { intros k <-. destruct b as [? ? ? ? ? ? ? []]. reflexivity. }
    unfold a', next_angle, app_modify.
    destruct Ha as [E|[E|E]]; rewrite E; destruct direction; cbn [when Z.ltb Z.compare Pos.compare Pos.compare_cont];
      first [by apply wp_zoom, wp_modify|apply wp_ret, Hid; by rewrite E]. }
  intros _ b' ->. wp_steps. apply wp_data, wp_modify. wp_steps. cbn.
  unfold my_pwm_set_angle.
  assert (servo_pulse (clamp_angle (u8 a')) = Some (position_pulse a')) as ->.
  { destruct servo_pulses as (S1 & S2 & S3). destruct Ha' as [-> |[-> | ->]]; [apply S1|apply S2|apply S3]. }
  unfold app_gets, pwm_do. wp_steps. apply wp_zoom. cbn.
  eapply wp_mono; [apply (wp_leaves pwm_switches); [apply rt_pwm_set_switches|]|].
  { apply wp_mono with (P := fun _ p' => is_Some (pwm_dev (b_app b)) -> 0 <= door_period (b_app b) < 2 ^ 32 ->
      servo_regs p' (door_period (b_app b)) (position_pulse a')); [|exact (fun _ _ H => H)].
    destruct (decide (0 <= door_period (b_app b) < 2 ^ 32)) as [Hper|Hper].
    - eapply wp_mono; [apply rt_pwm_set_spec; [done|unfold position_pulse; repeat case_match; lia]|]. cbn beta.
      intros _ p' Hregs Hdev _. apply Hregs. by apply bool_decide_true.
    - eapply wp_mono; [apply rt_pwm_set_frame|]. done. }
  cbn beta. intros _ p' [Hregs Hon]. wp_steps. split; [split; cbn; [by destruct Hp|done..]|by split_and!].
Qed.

(** The positions are told apart by the counts of their pulses. *)
Lemma position_counts a pul p :
  a = 0 \/ a = 90 \/ a = 180 -> servo_regs p servo_period pul ->
  pul = position_pulse a \/ a = 0 /\ pul = rest_pulse -> servo_position p = a.
Proof.
  intros Ha (_ & _ & E) Hp. unfold servo_position. rewrite E, Z.sub_add.
  destruct Hp as [-> |[-> ->]]; [|vm_compute; reflexivity]. destruct Ha as [-> |[-> | ->]]; vm_compute; reflexivity.
Qed.

Lemma door_position b : board_ok b -> door_ok b -> servo_position (b_pwm b) = angle (b_app b).
Proof. intros Hb [_ _ _ (pul & H1 & H2) _]. eapply position_counts; [apply Hb|exact H1|exact H2]. Qed.

Lemma door_frame b b' : door_part b' = door_part b -> door_ok b -> door_ok b'.
Proof. intros E Hd. unfold door_part in E. injection E as E1 E2 E3 E4 E5. destruct Hd. split; by rewrite ?E1, ?E2, ?E3, ?E4, ?E5. Qed.

Lemma door_command_ok direction b :
  board_ok b -> door_ok b ->
  wp (my_pwm_angle_change direction 90) b (fun _ b' => board_ok b' /\ door_ok b' /\
    b_props b' = on_devices (with_door direction) (b_props b) /\ servo_position (b_pwm b') = next_angle direction (servo_position (b_pwm b))).
Proof.
  intros Hb Hd. eapply wp_mono; [by apply door_change_spec|]. cbn beta. cbv zeta.
  intros _ b' (Hb' & Ea & _ & _ & Ep & Eper & Edev & Eon & Hregs). pose proof Hd as [D1 D2 D3 D4 D5].
  rewrite D2 in Hregs. specialize (Hregs D1 ltac:(unfold servo_period; lia)).
  assert (door_ok b') as Hd'.
  { split.
    - by rewrite Edev.
    - by rewrite Eper.
    - injection Eon as E1 E2. unfold servo_on. by rewrite E1, E2.
    - exists (position_pulse (angle (b_app b'))). rewrite Ea at 1. split; [exact Hregs|by left].
    - rewrite Ep, Ea. cbn [on_devices my_devices with_door Door_State]. unfold next_angle.
      destruct (ok_angle _ Hb) as [-> |[-> | ->]]; destruct direction; cbn; lia. }
  split; [done|]. split; [done|]. split; [done|]. by rewrite !door_position by done.
Qed.

(** The other actuators leave the door alone. *)
Lemma beep_leaves_door state : leaves door_part (beep_change state).
Proof.
  unfold beep_change, my_hwtimer_closeTimer, my_hwtimer_openTimer, app_gets, app_modify, timer, find_device, pin_write, data,
    Set_Devpro_LED0State, Set_Devpro_BeepState. leaves_auto.
Qed.
Lemma relay_leaves_door state : leaves door_part (relay_change state).
Proof. unfold relay_change, pin_write, data, Set_Devpro_RelayState. leaves_auto. Qed.
Lemma light_leaves_door state : leaves door_part (emergency_light_change state).
Proof. unfold emergency_light_change, pin_write, data, Set_Devpro_LED1State. leaves_auto. Qed.

(** *** The alarm *)

Lemma openTimer_spec beep b :
  timer_ok (b_timer b) (hw_dev (b_app b)) beep -> devices_ok (b_objs b) ->
  wp my_hwtimer_openTimer b (fun _ b' =>
    timer_ok (b_timer b') (hw_dev (b_app b')) true /\ b_gpio b' = b_gpio b /\
    b_objs b' = b_objs b /\ b_props b' = b_props b /\ angle (b_app b') = angle (b_app b)).
Proof.
  intros Ht Hd. unfold my_hwtimer_openTimer, find_device, app_modify, app_gets, timer.
  wp_steps. apply wp_zoom. unfold rt_device_find. wp_steps.
  destruct Hd as [[o Ho] _]. cbn. rewrite Ho. apply wp_zoom. wp_steps. apply wp_zoom. cbn.
  unfold timer_ok in Ht. destruct beep.
  - destruct Ht as (Hs & Hdev & Hr). unfold wp. rewrite rt_device_open_busy by done. cbn.
    by split_and!.
  - destruct Ht as [Hs Hrx]. eapply wp_mono; [by apply rt_device_open_spec|]. cbn.
    intros r t1 (-> & Hs1 & Hf & Hirq). board_steps.
    destruct timeout_100ms as [p Hc].
    match goal with |- wp _ ?t _ => set (t2 := t) end.
    assert (stands_for Opened t2) as Hs2 by (by apply (stands_for_tdev Opened t1)).
    eapply wp_mono; [eapply (device_write_periodic my_timeout_cb_h); [done|by apply armed_of|exact Hc]|].
    cbn beta. intros n t3 (-> & Hs3 & Hp3 & _). wp_steps. clear Hc Hs2. cbn.
    split; [split; [exact Hs3|]; split; [eexists; reflexivity|]; exists 2; split; [lia|exact Hp3]|].
    split_and!; reflexivity.
Qed.

Lemma closeTimer_spec beep b :
  timer_ok (b_timer b) (hw_dev (b_app b)) beep ->
  wp my_hwtimer_closeTimer b (fun _ b' =>
    timer_ok (b_timer b') (hw_dev (b_app b')) false /\ b_gpio b' = b_gpio b /\
    b_objs b' = b_objs b /\ b_props b' = b_props b /\ angle (b_app b') = angle (b_app b)).
Proof.
  intros Ht. unfold my_hwtimer_closeTimer, app_modify, app_gets, timer.
  wp_steps. unfold timer_ok in Ht. destruct beep.
  - destruct Ht as (Hs & [d Hdev] & Hr). rewrite Hdev. wp_steps. apply wp_zoom. cbn.
    eapply wp_mono; [by apply device_close_silent|]. cbn. intros r t' [Hs' Hrx].
    board_steps. by split_and!.
  - destruct Ht as [Hs Hrx]. destruct (hw_dev (b_app b)) as [d|]; [|by wp_steps].
    wp_steps. apply wp_zoom. cbn. unfold wp at 1. rewrite rt_device_close_closed by done.
    board_steps. by split_and!.
Qed.

Lemma beep_change_spec state b :
  board_ok b ->
  wp (beep_change state) b (fun _ b' => board_ok b' /\
    angle (b_app b') = angle (b_app b) /\
    b_props b' = on_devices (with_beep state) (b_props b) /\
    if state then b_gpio b' = b_gpio b
    else level (b_gpio b') BEEP_PIN = PIN_LOW /\ level (b_gpio b') LED0_PIN = PIN_HIGH).
Proof.
  intros Hb. unfold beep_change. wp_steps. destruct state; cbn [negb]; wp_steps.
  - eapply wp_mono; [eapply openTimer_spec; apply Hb|]. cbn beta.
    intros _ b1 (Ht & Hg & Ho & Hpr & Han). wp_steps. apply wp_data, wp_modify.
    wp_steps. apply wp_data, wp_modify. cbn. rewrite Hpr. split; [|done].
    destruct Hb as [Hp _ Hd Ha]. unfold angle_ok in Ha. rewrite <- Han in Ha.
    split; cbn; rewrite ?Hpr, ?Hg, ?Ho; try done.
    destruct Hp. split; cbn; try done.
  - eapply wp_mono; [eapply closeTimer_spec, Hb|]. cbn beta.
    intros _ b1 (Ht & Hg & Ho & Hpr & Han). destruct Hb as [Hp _ Hd Ha].
    unfold angle_ok in Ha. rewrite <- Han in Ha. rewrite <- Hg in Hp.
    destruct (pins_write _ _ LED0_PIN PIN_HIGH Hp) as (W1 & W2 & W3);
      [rewrite !elem_of_cons; auto|].
    wp_steps. apply wp_pin_write; [apply Hp|done|].
    wp_steps. apply wp_pin_write; [done|done|]. wp_steps. apply wp_data, wp_modify. wp_steps. apply wp_data, wp_modify.
    cbn. rewrite Hpr.
    assert (forall q, level (write_level (write_level (b_gpio b1) LED0_PIN PIN_HIGH) BEEP_PIN PIN_LOW) q =
      if decide (q = BEEP_PIN) then PIN_LOW else if decide (q = LED0_PIN) then PIN_HIGH
      else level (b_gpio b1) q) as W.
    { intros q. rewrite level_write, W3; [done|]. eapply Forall_forall; [exact W2|rewrite !elem_of_cons; auto]. }
    split_and!; try done.
    split; cbn; rewrite ?Ho; try done.
    split; cbn [hw_pin_ops on_devices my_devices Beep_State LED1_State Relay_State]; rewrite ?W;
      rewrite ?decide_True by done; rewrite ?decide_False by pin_ne; try done; apply Hp.
Qed.

(** *** Interrupts *)

(** The timer's overflow, with the callback the interrupt handler makes. *)
Definition timer_interrupt : M board unit :=
  o <- timer timer_overflow_event ;;
  match o with
  | Some my_timeout_cb_h => my_timeout_cb ;;; ret tt
  | None => ret tt
  end.

(** A key's interrupt: the EXTI handler, with the handlers it calls. *)
Definition key_interrupt (exti : M (gpio key_handler) (list (key_handler * Z))) : M board unit :=
  hs <- pins_do exti ;;
  for_each hs (fun h => run_key h.1).

(** The callback toggles the two pins, whatever their levels. *)
Lemma timeout_cb_toggles b :
  hw_pin_ops (b_gpio b) = true -> Forall (is_output (b_gpio b)) [LED0_PIN; LED1_PIN; BEEP_PIN; Relay_PIN] ->
  wp my_timeout_cb b (fun _ b' => exists g, b' = over g b /\ hw_pin_ops g = true /\
    Forall (is_output g) [LED0_PIN; LED1_PIN; BEEP_PIN; Relay_PIN] /\
    forall q, level g q = if decide (q = BEEP_PIN) then 1 - level (b_gpio b) BEEP_PIN
      else if decide (q = LED0_PIN) then 1 - level (b_gpio b) LED0_PIN else level (b_gpio b) q).
Proof.
  intros Ho Hout. unfold my_timeout_cb. wp_steps.
  destruct (write_output _ LED0_PIN (1 - level (b_gpio b) LED0_PIN) Ho Hout) as (W1 & W2 & W3);
    [rewrite !elem_of_cons; auto|].
  apply wp_pin_read; [done|done|]. wp_steps.
  apply wp_pin_write; [done|done|]. wp_steps.
  apply wp_pin_read; [done|done|]. wp_steps.
  apply wp_pin_write; [done|done|]. wp_steps. cbn [b_gpio over board_gpio].
  rewrite (W3 BEEP_PIN), decide_False by pin_ne.
  set (vb := level (b_gpio b) BEEP_PIN) in *. set (vl := level (b_gpio b) LED0_PIN) in *.
  destruct (write_output _ BEEP_PIN (1 - vb) W1 W2) as (V1 & V2 & V3); [rewrite !elem_of_cons; auto|].
  eexists. split; [done|]. split; [exact V1|]. split; [exact V2|]. intros q. rewrite V3, W3.
  destruct (level_01 (b_gpio b) BEEP_PIN) as [E1|E1]; fold vb in E1; rewrite E1;
    (destruct (level_01 (b_gpio b) LED0_PIN) as [E2|E2]; fold vl in E2; rewrite E2; reflexivity).
Qed.

Lemma timeout_cb_spec b :
  board_ok b -> Beep_State (my_devices (b_props b)) = true ->
  wp my_timeout_cb b (fun _ b' => board_ok b' /\ b_props b' = b_props b /\ b_timer b' = b_timer b /\
    level (b_gpio b') BEEP_PIN = 1 - level (b_gpio b) BEEP_PIN /\
    level (b_gpio b') LED0_PIN = 1 - level (b_gpio b) LED0_PIN).
Proof.
  intros [Hp Ht Hd Ha] Hbeep. eapply wp_mono; [apply timeout_cb_toggles; apply Hp|]. cbn beta.
  intros _ b' (g & -> & G1 & G2 & W). cbn [b_gpio over board_gpio b_props b_timer].
  rewrite !W, decide_True by done. rewrite decide_False by pin_ne. rewrite decide_True by done.
  split; [|done]. split; cbn [b_gpio b_props b_timer b_app b_objs over board_gpio]; try done.
  split; rewrite ?W; rewrite ?decide_True by done; rewrite ?decide_False by pin_ne;
    rewrite ?decide_True by done; try done; try apply Hp; [|congruence].
  destruct Hp as [_ _ _ _ Hl _]. rewrite Hl.
  destruct (level_01 (b_gpio b) BEEP_PIN) as [-> | ->]; reflexivity.
Qed.

(** The timer's interrupt, by whether its callback is run. *)
Lemma timer_interrupt_cases beep b (Q : unit -> board -> Prop) :
  timer_ok (b_timer b) (hw_dev (b_app b)) beep ->
  (forall t, timer_ok t (hw_dev (b_app b)) beep -> Q tt (over t b)) ->
  (forall t, beep = true -> timer_ok t (hw_dev (b_app b)) beep -> wp my_timeout_cb (over t b) (fun _ b' => Q tt b')) ->
  wp timer_interrupt b Q.
Proof.
  intros Ht Hno Hcb. unfold timer_interrupt, timer. wp_steps. apply wp_zoom. cbn [view board_timer]. destruct beep.
  - destruct Ht as (Hs & Hdev & c & Hc & Hper).
    destruct (overflow_event_periodic 2 c my_timeout_cb_h (b_timer b) Hper) as (t' & E & Hper'); [lia|].
    pose proof (overflow_event_frame (b_timer b)) as Hf. unfold wp in Hf |- * at 1. rewrite E in Hf |- *.
    destruct Hf as [Hf _].
    assert (timer_ok t' (hw_dev (b_app b)) true) as Ht'.
    { split; [by eapply frame_stands_for|]. split; [done|]. eexists. split; [|exact Hper']. case_match; lia. }
    destruct (c =? 1); wp_steps; [|by apply Hno].
    eapply wp_mono; [by apply Hcb|]. cbn beta. intros _ b' HQ. by wp_steps.
  - destruct Ht as [Hs Hrx]. eapply wp_mono; [apply overflow_event_frame|]. cbn beta.
    intros o t' [Hf Ho].
    assert (timer_ok t' (hw_dev (b_app b)) false) as Ht' by (split; [by eapply frame_stands_for|by rewrite (proj1 Hf)]).
    destruct Ho as [-> | ->]; [|rewrite Hrx]; wp_steps; by apply Hno.
Qed.

Lemma timer_interrupt_spec b :
  board_ok b ->
  wp timer_interrupt b (fun _ b' => board_ok b' /\ b_props b' = b_props b).
Proof.
  intros Hb. apply (timer_interrupt_cases (Beep_State (my_devices (b_props b)))); [apply Hb|..].
  - intros t Ht. split; [|done]. destruct Hb. by split.
  - intros t Hbeep Ht. eapply wp_mono; [apply timeout_cb_spec|].
    + destruct Hb. by split.
    + done.
    + cbn. intros _ b' (? & Hpr & _). by split.
Qed.

(** The shared data may change, but for the three states the outputs follow. *)
Lemma board_data_ok p b : board_ok b -> same_outputs (b_props b) p -> board_ok (over p b).
Proof.
  intros [Hp Ht Hd Ha] (H1 & H2 & H3 & _). split; cbn; try done; [|by rewrite H1].
  destruct Hp. split; try done; by rewrite ?H1, ?H2, ?H3.
Qed.

(** A pin driver that differs only in its pending and handler tables. *)
Lemma board_gpio_ok g b :
  board_ok b -> hw_pin_ops g = hw_pin_ops (b_gpio b) -> config g = config (b_gpio b) ->
  odr g = odr (b_gpio b) ->
  Forall (is_output (b_gpio b)) [LED0_PIN; LED1_PIN; BEEP_PIN; Relay_PIN] ->
  board_ok (over g b).
Proof.
  intros [Hp Ht Hd Ha] Ho Hc Hodr Hout. split; cbn; try done.
  assert (forall q, is_output (b_gpio b) q -> level g q = level (b_gpio b) q) as Hl.
  { intros q [pull Hq]. unfold level, HAL_GPIO_ReadPin, idr_bit, odr_of. by rewrite Hc, Hq, Hodr. }
  rewrite !Forall_cons in Hout. destruct Hout as (O1 & O2 & O3 & O4 & _).
  destruct Hp as [P1 P2 P3 P4 P5 P6]. split; rewrite ?Hl by done; try done.
  - congruence.
  - unfold is_output in *. by rewrite Hc.
Qed.

(** A key changes neither the states the outputs follow nor the measurements and limits. *)
Definition key_step (p p' : props) : Prop :=
  same_outputs p p' /\ my_environment p' = my_environment p /\ my_thresholds p' = my_thresholds p.

Lemma run_key_spec h b :
  board_ok b -> wp (run_key h) b (fun _ b' => board_ok b' /\ key_step (b_props b) (b_props b')).
Proof.
  intros Hb. destruct h; cbn; unfold IQR_HANDALE_KEY0, IQR_HANDALE_KEY1; wp_steps;
    apply wp_data, wp_gets; apply wp_data, wp_modify; cbn [view board_props];
    (split; [|done]); (split; cbn; try apply Hb; destruct Hb as [[] ? ? ?]; by split).
Qed.

Lemma exti_handler_frame pin_ (g : gpio key_handler) :
  wp (HAL_GPIO_EXTI_IRQHandler pin_) g (fun _ g' => hw_pin_ops g' = hw_pin_ops g /\
    config g' = config g /\ odr g' = odr g).
Proof. unfold HAL_GPIO_EXTI_IRQHandler. by wp_auto. Qed.

Lemma exti_lines_frame lines (g : gpio key_handler) :
  wp (exti_lines lines) g (fun _ g' => hw_pin_ops g' = hw_pin_ops g /\
    config g' = config g /\ odr g' = odr g).
Proof.
  revert g. induction lines as [|l lines IH]; intros g; cbn; [by apply wp_ret|]. wp_steps.
  eapply wp_mono; [apply exti_handler_frame|]. intros hs g1 (E1 & E2 & E3). wp_steps.
  eapply wp_mono; [apply IH|]. intros hs' g2 (F1 & F2 & F3). wp_steps. split_and!; congruence.
Qed.

Lemma key_interrupt_spec lines b :
  board_ok b ->
  wp (key_interrupt (exti_lines lines)) b (fun _ b' => board_ok b' /\ key_step (b_props b) (b_props b')).
Proof.
  intros Hb. unfold key_interrupt, pins_do. wp_steps. apply wp_zoom. cbn [view board_gpio].
  eapply wp_mono; [apply exti_lines_frame|]. intros hs g (E1 & E2 & E3). cbn beta.
  assert (board_ok (over g b)) as Hb' by (apply board_gpio_ok; try done; apply Hb).
  change (b_props b) with (b_props (over g b)). clear E1 E2 E3. revert Hb'.
  generalize (over g b : board). intros b1 Hb1. clear b Hb g.
  revert b1 Hb1. induction hs as [|h hs IH]; intros b1 Hb1; cbn; [by wp_steps|]. wp_steps.
  eapply wp_mono; [by apply run_key_spec|]. intros _ b2 [Hb2 S2].
  eapply wp_mono; [by apply IH|]. cbn. intros _ b3 [Hb3 S3]. split; [done|].
  destruct S2 as ((? & ? & ? & ?) & ? & ?), S3 as ((? & ? & ? & ?) & ? & ?).
  unfold key_step, same_outputs. split_and!; congruence.
Qed.

(** Neither interrupt moves the door. *)
Lemma leaves_for_each {A B : Type} (f : board -> B) (l : list A) (body : A -> M board unit) :
  (forall x, leaves f (body x)) -> leaves f (for_each l body).
Proof. intros Hb. induction l as [|x l IH]; cbn [for_each]; [apply leaves_ret|]. by apply leaves_bind. Qed.

Lemma timer_leaves_door : leaves door_part timer_interrupt.
Proof. unfold timer_interrupt, timer, my_timeout_cb, pin_read, pin_write. leaves_auto. Qed.
Lemma key_leaves_door m : leaves door_part (key_interrupt m).
Proof.
  unfold key_interrupt, pins_do. leaves_auto. apply leaves_for_each. intros [[] ?];
    cbn; unfold IQR_HANDALE_KEY0, IQR_HANDALE_KEY1, data, Get_Devpro_DHT11_Sensor_State, Get_Devpro_Light_Sensor_State,
      Set_Devpro_DHT11_Sensor_State, Set_Devpro_Light_Sensor_State; leaves_auto.
Qed.

(** An actuator in order that leaves the door alone keeps the door in order. *)
Lemma wp_keeps_door {A : Type} (m : M board A) b (Q : A -> board -> Prop) :
  door_ok b -> leaves door_part m -> wp m b Q ->
  wp m b (fun a b' => Q a b' /\ door_ok b' /\ servo_position (b_pwm b') = servo_position (b_pwm b)).
Proof.
  intros Hd Hl Hw. eapply wp_mono; [by apply (wp_leaves door_part)|]. cbn beta. intros a b' [HQ E].
  split; [done|]. split; [by eapply door_frame|]. unfold door_part in E. by injection E as -> _.
Qed.
End BoardFacts.

(** ** The board with a client's state *)

Record system (T : Type) : Type := System { sys_board : board; sys_client : T }.
Arguments System {T} _ _.
Arguments sys_board {T} _.
Arguments sys_client {T} _.

Section SystemLens.
Context {T : Type}.

#[export, refine] Instance system_board : Lens (system T) board :=
  {| view := sys_board; over := fun b s => System b (sys_client s) |}.
Proof. all: intros; try destruct s; reflexivity. Defined.
#[export, refine] Instance system_client : Lens (system T) T :=
  {| view := sys_client; over := fun t s => System (sys_board s) t |}.
Proof. all: intros; try destruct s; reflexivity. Defined.
#[export, refine] Instance system_props : Lens (system T) props :=
  {| view := fun s => b_props (sys_board s);
     over := fun p s => System (over p (sys_board s)) (sys_client s) |}.
Proof. all: intros; try (destruct s as [[]]); reflexivity. Defined.

#[export] Instance system_actuators : Actuators (system T) :=
  {| act_props := system_props;
     act_beep := fun b => zoom (beep_change b);
     act_relay := fun b => zoom (relay_change b);
     act_light := fun b => zoom (emergency_light_change b);
     act_door := fun d a => zoom (my_pwm_angle_change d a);
     act_mq2_d0 := zoom Get_MQ2_D0 |}.

#[export, refine] Instance system_actuators_ok : ActuatorsOk (system T) T :=
  {| act_ok := fun s => board_ok (sys_board s) /\ door_ok (sys_board s);
     act_alarm := fun s => has RT_DEVICE_OFLAG_OPEN (open_flag (tdev (b_timer (sys_board s))));
     act_fan := fun s => level (b_gpio (sys_board s)) Relay_PIN =? PIN_HIGH;
     act_lit := fun s => level (b_gpio (sys_board s)) LED1_PIN =? PIN_LOW;
     act_position := fun s => servo_position (b_pwm (sys_board s)) |}.
Proof.
  - intros s [Hb Hd]. cbn. destruct (ok_pins _ Hb) as [_ _ H1 H2 _ _]. pose proof (ok_timer _ Hb) as Ht.
    rewrite (door_position _ Hb Hd). split; [|split; [|split]].
    + unfold timer_ok in Ht. destruct (Beep_State _); destruct Ht as (([_ Ht] & _) & _); apply Ht.
    + rewrite H2. by destruct (Relay_State _).
    + rewrite H1. by destruct (LED1_State _).
    + apply Hd.
  - intros b s [Hb Hd]. apply wp_zoom. eapply wp_mono; [apply wp_keeps_door; [done|apply beep_leaves_door|by apply beep_change_spec]|].
    intros _ b' ((? & _ & ? & _) & ? & ?). by split_and!.
  - intros b s [Hb Hd]. apply wp_zoom. eapply wp_mono; [apply wp_keeps_door; [done|apply relay_leaves_door|by apply relay_change_spec]|].
    intros _ b' ((? & ?) & ? & ?). by split_and!.
  - intros b s [Hb Hd]. apply wp_zoom. eapply wp_mono; [apply wp_keeps_door; [done|apply light_leaves_door|by apply light_change_spec]|].
    intros _ b' ((? & ?) & ? & ?). by split_and!.
  - intros b s [Hb Hd]. apply wp_zoom. eapply wp_mono; [by apply door_command_ok|].
    intros _ b' (? & ? & ? & ?). by split_and!.
  - intros s [Hs _]. apply wp_zoom. unfold Get_MQ2_D0. wp_steps.
    apply wp_pin_read; [apply Hs|done|]. wp_steps. destruct s as [b t]. split; [done|].
    cbn. destruct (level_01 (b_gpio b) MQ2_D0_PIN) as [-> | ->]; auto.
  - intros p s [Hs Hd] Hp. split; [by apply board_data_ok|]. apply (door_frame (sys_board s)); [|done].
    unfold door_part. cbn. by rewrite (proj2 (proj2 (proj2 Hp))).
  - done.
  - intros t s Hs. exact Hs.
  - done.
  - done.
  - done.
Defined.
End SystemLens.
