(* ===== verification/ActuatorProps.v ===== *)
(** * What the actuators do

    Properties of the alarm (buzzer and warning lamp, driven by the alarm timer's interrupt)
    and of the emergency door (the servo), on the board of [Actuators.v]. *)

From stdpp Require Import base numbers list gmap.
From Stdlib Require Import ZArith Lia.
From S2P Require Import Prelude Gpio Device CFloat Tim HwTimer Pwm Adc DataUpload Actuators.

(** A number of the timer's overflows, with what their interrupts do. *)
Fixpoint timer_interrupts (n : nat) : M board unit :=
  match n with
  | O => ret tt
  | S n => timer_interrupt ;;; timer_interrupts n
  end.

Section Alarm.
Implicit Types b : board.

(** One overflow while the alarm is on, [c] overflows before the next callback. *)
Lemma timer_interrupt_step b c :
  board_ok b -> Beep_State (my_devices (b_props b)) = true -> 1 <= c <= 2 ->
  periodic 2 c my_timeout_cb_h (b_timer b) ->
  wp timer_interrupt b (fun _ b' => board_ok b' /\ b_props b' = b_props b /\
    periodic 2 (if c =? 1 then 2 else c - 1) my_timeout_cb_h (b_timer b') /\
    let v p := if c =? 1 then 1 - level (b_gpio b) p else level (b_gpio b) p in
    level (b_gpio b') BEEP_PIN = v BEEP_PIN /\ level (b_gpio b') LED0_PIN = v LED0_PIN).
Proof.
  intros Hb Hbeep Hc Hper.
  destruct (overflow_event_periodic 2 c my_timeout_cb_h (b_timer b) Hper) as (t' & E & Hper'); [lia|].
  pose proof (overflow_event_frame (b_timer b)) as Hf. unfold wp in Hf. rewrite E in Hf. destruct Hf as [Hf _].
  unfold timer_interrupt, timer. wp_steps. apply wp_zoom. cbn [view board_timer]. unfold wp at 1. rewrite E.
  assert (board_ok (over t' b)) as Hb'.
  { destruct Hb as [Hp Ht Hd Ha]. split; cbn; try done. rewrite Hbeep in *. destruct Ht as (Hs & Hdev & _). split_and!; [|done|].
    - by eapply frame_stands_for.
    - eexists. split; [|exact Hper']. case_match; lia. }
  destruct (Z.eqb_spec c 1) as [->|Hne].
  - wp_steps. eapply wp_mono; [by apply timeout_cb_spec|]. cbn beta. intros _ b' (Hok & Ep & Et & V1 & V2). wp_steps.
    split; [done|]. split; [done|]. rewrite Et. split; [exact Hper'|]. by split.
  - wp_steps. by split_and!.
Qed.

(** Two overflows toggle both outputs once. *)
Lemma timer_interrupt_twice b :
  board_ok b -> Beep_State (my_devices (b_props b)) = true ->
  wp (timer_interrupt ;;; timer_interrupt) b (fun _ b' => board_ok b' /\ b_props b' = b_props b /\
    level (b_gpio b') BEEP_PIN = 1 - level (b_gpio b) BEEP_PIN /\ level (b_gpio b') LED0_PIN = 1 - level (b_gpio b) LED0_PIN).
Proof.
  intros Hb Hbeep. pose proof (ok_timer _ Hb) as Ht. rewrite Hbeep in Ht. destruct Ht as (_ & _ & c & Hc & Hper).
  wp_steps. eapply wp_mono; [by apply (timer_interrupt_step b c)|]. cbn beta. intros _ b1 (Hb1 & Ep1 & Hper1 & V1 & L1).
  eapply wp_mono; [eapply (timer_interrupt_step b1); [done|by rewrite Ep1| |exact Hper1]|]; [case_match; lia|]. cbn beta.
  intros _ b2 (Hb2 & Ep2 & _ & V2 & L2). split; [done|]. split; [congruence|]. rewrite V2, L2, V1, L1.
  assert (c = 1 \/ c = 2) as [-> | ->] by lia; done.
Qed.

Lemma timer_interrupts_app n m b (Q : unit -> board -> Prop) :
  wp (timer_interrupts n) b (fun _ b' => wp (timer_interrupts m) b' Q) -> wp (timer_interrupts (n + m)) b Q.
Proof.
  revert b. induction n as [|n IH]; intros b; cbn [timer_interrupts Nat.add]; [done|]. intros Hw.
  unfold wp, bind in *. destruct (timer_interrupt b) as [[? b1]|]; [|done]. by apply IH.
Qed.

Lemma toggles n b :
  board_ok b -> Beep_State (my_devices (b_props b)) = true ->
  wp (timer_interrupts (2 * n)) b (fun _ b' => board_ok b' /\ b_props b' = b_props b /\
    let v p := if Nat.even n then level (b_gpio b) p else 1 - level (b_gpio b) p in
    level (b_gpio b') BEEP_PIN = v BEEP_PIN /\ level (b_gpio b') LED0_PIN = v LED0_PIN).
Proof.
  intros Hb Hbeep. induction n as [|n IH]; [by apply wp_ret|].
  replace (2 * S n)%nat with (2 * n + 2)%nat by lia. apply timer_interrupts_app.
  eapply wp_mono; [exact IH|]. cbn beta. intros _ b1 (Hb1 & Ep1 & V1 & L1). cbn [timer_interrupts].
  assert (wp (timer_interrupt ;;; timer_interrupt) b1 (fun _ b2 => wp (ret tt) b2 (fun _ b' => board_ok b' /\ b_props b' = b_props b /\
    level (b_gpio b') BEEP_PIN = 1 - level (b_gpio b1) BEEP_PIN /\ level (b_gpio b') LED0_PIN = 1 - level (b_gpio b1) LED0_PIN))) as Hw.
  { eapply wp_mono; [apply timer_interrupt_twice; [done|by rewrite Ep1]|]. cbn beta.
    intros _ b2 (Hb2 & Ep2 & V2 & L2). wp_steps. split_and!; try done; congruence. }
  wp_steps. unfold wp, bind in Hw |- *. destruct (timer_interrupt b1) as [[? b2]|]; [|done].
  destruct (timer_interrupt b2) as [[? b3]|]; [|done]. cbn [ret] in *. destruct Hw as (Hb3 & Ep3 & V3 & L3).
  split; [done|]. split; [done|]. rewrite V3, L3, V1, L1, Nat.even_succ, <- Nat.negb_even. destruct (Nat.even n); cbn; lia.
Qed.

Lemma interrupts_keep n b :
  board_ok b -> wp (timer_interrupts n) b (fun _ b' => board_ok b' /\ b_props b' = b_props b).
Proof.
  revert b. induction n as [|n IH]; intros b Hb; cbn [timer_interrupts]; [by apply wp_ret|]. wp_steps.
  eapply wp_mono; [by apply timer_interrupt_spec|]. cbn beta. intros _ b1 [Hb1 Ep1].
  eapply wp_mono; [by apply IH|]. cbn beta. intros _ b2 [Hb2 Ep2]. split; [done|congruence].
Qed.

(** C17. The sounding alarm: once switched on from silence, the alarm toggles the buzzer and
    the lamp together every second overflow of its timer: after [2 * n] overflows the
    buzzer sounds and the lamp is lit when [n] is odd, and both are off when [n] is even. *)
Theorem alarm_sounds b n :
  board_ok b -> Beep_State (my_devices (b_props b)) = false ->
  wp (beep_change true ;;; timer_interrupts (2 * n)) b (fun _ b' => board_ok b' /\
    b_props b' = on_devices (with_beep true) (b_props b) /\
    level (b_gpio b') BEEP_PIN = (if Nat.even n then PIN_LOW else PIN_HIGH) /\
    level (b_gpio b') LED0_PIN = (if Nat.even n then PIN_HIGH else PIN_LOW)).
Proof.
  intros Hb Hbeep. destruct Hb as [Hp Ht Hd Ha]. pose proof (ok_quiet _ _ Hp Hbeep) as Hq. pose proof (ok_lamp _ _ Hp) as Hl.
  rewrite Hq in Hl. wp_steps. eapply wp_mono; [by apply beep_change_spec|]. cbn beta.
  intros _ b1 (Hb1 & _ & Ep1 & Eg1). eapply wp_mono; [apply (toggles n b1); [done|by rewrite Ep1]|]. cbn beta.
  intros _ b2 (Hb2 & Ep2 & V2 & L2). split; [done|]. split; [congruence|]. rewrite V2, L2, Eg1, Hq, Hl. by destruct (Nat.even n).
Qed.

(** C18. The silenced alarm: after it is switched off, whatever state it was in, the buzzer
    stays silent and the lamp dark over any number of overflows. *)
Theorem alarm_silenced b n :
  board_ok b ->
  wp (beep_change false ;;; timer_interrupts n) b (fun _ b' =>
    b_props b' = on_devices (with_beep false) (b_props b) /\
    level (b_gpio b') BEEP_PIN = PIN_LOW /\ level (b_gpio b') LED0_PIN = PIN_HIGH).
Proof.
  intros Hb. wp_steps. eapply wp_mono; [by apply beep_change_spec|]. cbn beta.
  intros _ b1 (Hb1 & _ & Ep1 & _). eapply wp_mono; [by apply (interrupts_keep n)|]. cbn beta.
  intros _ b2 (Hb2 & Ep2). pose proof (ok_pins _ Hb2) as Hp. split; [congruence|].
  assert (level (b_gpio b2) BEEP_PIN = PIN_LOW) as Hq by (apply (ok_quiet _ _ Hp); by rewrite Ep2, Ep1).
  split; [done|]. by rewrite (ok_lamp _ _ Hp), Hq.
Qed.
End Alarm.

(** ** The door *)


(** What the servo sees: the length of a count is [PSC + 1] ticks of a 84 MHz clock, so the
    pulse and the period last this many nanoseconds, times 84. *)
Definition pulse_84ns (p : pwm) : Z := (pwm_regs p CCR1 + 1) * (pwm_regs p PSC + 1) * 1000.
Definition period_84ns (p : pwm) : Z := (pwm_regs p ARR + 1) * (pwm_regs p PSC + 1) * 1000.

Section Door.
Implicit Types b : board.

Lemma servo_exact a : a = 0 \/ a = 90 \/ a = 180 ->
  position_pulse a * 84 - 26000 < pwm_cmp servo_period (position_pulse a) * 26 * 1000 <= position_pulse a * 84.
Proof.
  assert (pwm_cmp servo_period 555555 = 1794 /\ pwm_cmp servo_period 1500000 = 4846 /\ pwm_cmp servo_period 2388888 = 7717)
    as (E1 & E2 & E3) by (vm_compute; done).
  intros [-> |[-> | ->]]; unfold position_pulse; cbn [Z.eqb Pos.eqb]; rewrite ?E1, ?E2, ?E3; lia.
Qed.

(** What the servo of a door in order gets: in a period of 20 ms the pulse of the position the
    variable [angle] holds (of 0.5 ms before the first command), both exact to one count. *)
Record door_drives b : Prop := {
  drives_on : servo_on (b_pwm b);
  drives_position : servo_position (b_pwm b) = angle (b_app b);
  drives_pulse : exists pul, (pul = position_pulse (angle (b_app b)) \/ angle (b_app b) = 0 /\ pul = rest_pulse) /\
    pul * 84 - 26000 < pulse_84ns (b_pwm b) <= pul * 84;
  drives_period : servo_period * 84 - 26000 < period_84ns (b_pwm b) <= servo_period * 84
}.

Lemma door_ok_drives b : board_ok b -> door_ok b -> door_drives b.
Proof.
  intros Hb Hd. pose proof (door_position b Hb Hd) as Hpos. destruct Hd as [_ _ D3 (pul & (R1 & R2 & R3) & Hpul) _].
  split; [done|done|exists pul; split; [done|]|]; unfold pulse_84ns, period_84ns; rewrite ?R1, ?R2, ?R3;
    change (pwm_psc servo_period) with 26; rewrite ?Z.sub_add.
  - destruct Hpul as [-> |[_ ->]]; [by apply servo_exact, ok_angle|].
    change (pwm_cmp servo_period rest_pulse) with 1615. unfold rest_pulse. lia.
  - change (pwm_arr servo_period) with 64615. unfold servo_period. lia.
Qed.

(** C24. The door's servo: a door command moves the stored angle one step of 90 degrees
    towards its end and sends the servo a pulse for that angle, exact to one count of the
    timer (26 ticks of 84 MHz), in a period of 20 ms, also exact to one count. *)
Theorem door_servo direction b :
  board_ok b -> is_Some (pwm_dev (b_app b)) -> door_period (b_app b) = servo_period ->
  wp (my_pwm_angle_change direction 90) b (fun _ b' =>
    Door_State (my_devices (b_props b')) = direction /\
    angle (b_app b') = next_angle direction (angle (b_app b)) /\
    position_pulse (angle (b_app b')) * 84 - 26000 < pulse_84ns (b_pwm b') <= position_pulse (angle (b_app b')) * 84 /\
    servo_period * 84 - 26000 < period_84ns (b_pwm b') <= servo_period * 84).
Proof.
  intros Hb Hd Hp. eapply wp_mono; [by apply door_change_spec|]. cbn beta.
  intros _ b' (Hb' & Ea & _ & _ & Ep & _ & _ & _ & Hregs). rewrite Hp in Hregs.
  destruct (Hregs Hd) as (R1 & R2 & R3); [unfold servo_period; lia|]. split; [by rewrite Ep|]. split; [done|].
  unfold pulse_84ns, period_84ns. rewrite R1, R2, R3, <- Ea.
  change (pwm_psc servo_period) with 26. change (pwm_arr servo_period) with 64615. rewrite !Z.sub_add.
  split; [by apply servo_exact, ok_angle|]. unfold servo_period. lia.
Qed.

(** A sequence of door commands. *)
Definition door_commands (directions : list bool) : M board unit :=
  for_each directions (fun d => my_pwm_angle_change d 90).

Lemma door_commands_spec ds b :
  board_ok b ->
  wp (door_commands ds) b (fun _ b' => board_ok b' /\
    angle (b_app b') = foldl (fun a d => next_angle d a) (angle (b_app b)) ds /\
    Door_State (my_devices (b_props b')) = foldl (fun _ d => d) (Door_State (my_devices (b_props b))) ds).
Proof.
  unfold door_commands. revert b. induction ds as [|d ds IH]; intros b Hb; cbn [for_each]; wp_steps; [done|].
  eapply wp_mono; [by apply door_change_spec|]. cbn beta. intros _ b1 (Hb1 & A & _ & _ & Ep & _).
  eapply wp_mono; [by apply IH|]. cbn beta. intros _ b2 (Hb2 & A2 & D2).
  by rewrite A2, D2, A, Ep.
Qed.

(** A door left ajar: after any door commands the announced state is the direction of
    the last one, whatever the servo's angle; so a door that is opened by two or more
    commands and then closed by one is announced closed while the servo holds it at 90
    degrees, half open. *)
Theorem door_left_ajar b n :
  board_ok b -> angle (b_app b) = 0 -> (2 <= n)%nat ->
  wp (door_commands (replicate n true ++ [false])) b (fun _ b' =>
    Door_State (my_devices (b_props b')) = false /\ angle (b_app b') = 90).
Proof.
  intros Hb Ha Hn. eapply wp_mono; [by apply door_commands_spec|]. cbn beta. intros _ b' (_ & A & D).
  rewrite A, D, Ha, !foldl_app. split; [done|]. destruct n as [|[|n]]; [lia..|].
  assert (foldl (fun a d => next_angle d a) 180 (replicate n true) = 180) as E.
  { clear. induction n as [|n IH]; [done|exact IH]. }
  cbn [replicate foldl]. change (next_angle true (next_angle true 0)) with 180. by rewrite E.
Qed.
End Door.
