(* ===== verification/Preemption.v ===== *)
(** * Commands of several threads

    In System.v a turn of a thread is one step. The application takes no lock, so in truth a
    thread of higher priority, or one that runs while another waits for a driver, may issue
    its commands between two calls of a command another thread is in, and interrupts come
    at any time. Here a command to an actuator is the sequence of the calls it makes, and the
    threads' calls and the interrupts are interleaved freely. Commands to different outputs
    do not disturb each other; two commands to one output can leave it in a state that is not
    the announced one. *)

From stdpp Require Import base numbers list gmap relations.
From Stdlib Require Import ZArith Lia.
From S2P Require Import Prelude Gpio Device CFloat Tim HwTimer Pwm Adc DataUpload Actuators.

(** ** Commands as sequences of calls *)

Inductive output : Set := Alarm | Fan | FillLight | DoorServo.
#[export] Instance output_eq_dec : EqDecision output.
Proof. solve_decision. Defined.

Abbreviation command := (output * bool)%type.

Definition beep_actions (state : bool) : list (M board unit) :=
  (if negb state then
     [my_hwtimer_closeTimer ;;; ret tt; pin_write LED0_PIN PIN_HIGH; pin_write BEEP_PIN PIN_LOW]
   else [my_hwtimer_openTimer ;;; ret tt]) ++
  [data (Set_Devpro_LED0State state); data (Set_Devpro_BeepState state)].
Definition relay_actions (state : bool) : list (M board unit) :=
  [(if negb state then pin_write Relay_PIN PIN_LOW else pin_write Relay_PIN PIN_HIGH);
   data (Set_Devpro_RelayState state)].
Definition light_actions (state : bool) : list (M board unit) :=
  [(if negb state then pin_write LED1_PIN PIN_HIGH else pin_write LED1_PIN PIN_LOW);
   data (Set_Devpro_LED1State state)].
Definition door_actions (direction : bool) : list (M board unit) :=
  [a <- app_gets angle ;;
   (if direction then
      when (a <? 180) (app_modify (fun s => set_door (pwm_dev s) (u8 (a + u8 90)) (door_period s) s))
    else
      when (0 <? a) (app_modify (fun s => set_door (pwm_dev s) (u8 (a - u8 90)) (door_period s) s)));
   data (Set_Devpro_DoorState direction);
   a <- app_gets angle ;; my_pwm_set_angle a].

Definition actions (c : command) : list (M board unit) :=
  match c with
  | (Alarm, v) => beep_actions v
  | (Fan, v) => relay_actions v
  | (FillLight, v) => light_actions v
  | (DoorServo, v) => door_actions v
  end.

Definition carry_out (c : command) : M board unit :=
  match c with
  | (Alarm, v) => beep_change v
  | (Fan, v) => relay_change v
  | (FillLight, v) => emergency_light_change v
  | (DoorServo, v) => my_pwm_angle_change v 90
  end.

(** The sequences are the functions of Actuators.v. *)
Lemma actions_carry_out c b : for_each (actions c) (fun a => a) b = (carry_out c ;;; ret tt) b.
Proof.
  destruct c as [[] v]; cbn [actions carry_out];
    unfold beep_actions, beep_change, relay_actions, relay_change, light_actions, emergency_light_change, door_actions, my_pwm_angle_change;
    destruct v; cbn [negb Datatypes.app for_each]; unfold bind, ret;
    repeat (match goal with |- context [match ?m with Ok _ => _ | Fault _ => _ end] =>
      lazymatch m with context [match _ with Ok _ => _ | Fault _ => _ end] => fail | _ => destruct m as [[[] ?]|] end end; try done).
Qed.

(** ** Interleavings *)

Inductive interrupt : M board unit -> Prop :=
| timer_irq : interrupt timer_interrupt
| key_irq lines : interrupt (key_interrupt (exti_lines lines)).

(** The commands in progress, each with the number of the calls it has made, and the board. *)
Abbreviation configuration := (list (command * nat) * board)%type.

Inductive step : configuration -> configuration -> Prop :=
| step_call cs b i c k a b' :
    cs !! i = Some (c, k) -> actions c !! k = Some a -> a b = Ok (tt, b') ->
    step (cs, b) (<[i := (c, S k)]> cs, b')
| step_interrupt cs b irq b' :
    interrupt irq -> irq b = Ok (tt, b') -> step (cs, b) (cs, b').

Definition issued (cs : list command) : list (command * nat) := (fun c => (c, 0%nat)) <$> cs.
Definition finished (cs : list command) : list (command * nat) := (fun c => (c, length (actions c))) <$> cs.

(** ** Between the calls *)

Definition announced (o : output) (d : Devices_t) : bool :=
  match o with
  | Alarm => Beep_State d
  | Fan => Relay_State d
  | FillLight => LED1_State d
  | DoorServo => Door_State d
  end.

(** How far the command to each output is. *)
Abbreviation progress := (output -> option (bool * nat)).

(** What an output of one pin shows: after the first of its two calls the commanded state. *)
Definition shown (p : option (bool * nat)) (a : bool) : bool :=
  match p with Some (v, 1%nat) => v | _ => a end.

(** Whether the alarm's timer runs: as commanded after the first call. *)
Definition ringing (p : option (bool * nat)) (a : bool) : bool :=
  match p with Some (v, S _) => v | _ => a end.

(** While the alarm is switched off its pins are stopped where they were, then the lamp is
    dark, then the buzzer silent too. *)
Definition lamp_follows (p : option (bool * nat)) : bool :=
  match p with Some (false, 2%nat) => false | _ => true end.
Definition silenced (p : option (bool * nat)) (a : bool) : bool :=
  match p with Some (false, (1 | 2)%nat) => false | _ => negb (ringing p a) end.

(** The calls after which a command's state is announced: all, but for the door's last. *)
Definition told (c : command) : nat := match c with (DoorServo, _) => 2 | _ => length (actions c) end.

Record midway (ph : progress) (b : board) : Prop := {
  mid_ops : hw_pin_ops (b_gpio b) = true;
  mid_outputs : Forall (is_output (b_gpio b)) [LED0_PIN; LED1_PIN; BEEP_PIN; Relay_PIN];
  mid_light : level (b_gpio b) LED1_PIN = if shown (ph FillLight) (LED1_State (my_devices (b_props b))) then PIN_LOW else PIN_HIGH;
  mid_relay : level (b_gpio b) Relay_PIN = if shown (ph Fan) (Relay_State (my_devices (b_props b))) then PIN_HIGH else PIN_LOW;
  mid_timer : timer_ok (b_timer b) (hw_dev (b_app b)) (ringing (ph Alarm) (Beep_State (my_devices (b_props b))));
  mid_lamp : level (b_gpio b) LED0_PIN =
    if lamp_follows (ph Alarm) then (if level (b_gpio b) BEEP_PIN =? PIN_HIGH then PIN_LOW else PIN_HIGH) else PIN_HIGH;
  mid_quiet : silenced (ph Alarm) (Beep_State (my_devices (b_props b))) = true -> level (b_gpio b) BEEP_PIN = PIN_LOW;
  mid_devices : devices_ok (b_objs b);
  mid_angle : angle_ok (b_app b);
  mid_done : forall o v k, ph o = Some (v, k) -> (told (o, v) <= k)%nat -> announced o (my_devices (b_props b)) = v
}.

(** No command has begun. *)
Definition at_start (ph : progress) : Prop := forall o v k, ph o = Some (v, k) -> k = 0%nat.

Lemma midway_start ph b : at_start ph -> board_ok b -> midway ph b.
Proof.
  intros H0 [[P1 P2 P3 P4 P5 P6] Ht Hd Ha].
  assert (forall o A (f : option (bool * nat) -> A) , (forall v, f (Some (v, 0%nat)) = f None) -> f (ph o) = f None) as Hf.
  { intros o A f E. destruct (ph o) as [[v k]|] eqn:Eo; [|done]. by rewrite (H0 o v k Eo). }
  assert (forall o a, shown (ph o) a = a /\ ringing (ph o) a = a /\ lamp_follows (ph o) = true /\ silenced (ph o) a = negb a) as Hs.
  { intros o a. split_and!.
    - by apply (Hf o _ (fun p => shown p a)).
    - by apply (Hf o _ (fun p => ringing p a)).
    - apply (Hf o _ lamp_follows). by intros [].
    - apply (Hf o _ (fun p => silenced p a)). by intros []. }
  destruct (Hs Alarm (Beep_State (my_devices (b_props b)))) as (_ & S2 & S3 & S4).
  split; try done.
  - by rewrite (proj1 (Hs _ _)).
  - by rewrite (proj1 (Hs _ _)).
  - by rewrite S2.
  - by rewrite S3.
  - rewrite S4. intros E. apply P6. by destruct (Beep_State _).
  - intros o v k E Hk. apply H0 in E. subst k. destruct o, v; cbn in Hk; lia.
Qed.

(** All commands have ended, or not begun. *)
Lemma midway_end ph b :
  (forall o v k, ph o = Some (v, k) -> k = length (actions (o, v))) -> midway ph b -> board_ok b.
Proof.
  intros He [M1 M2 M3 M4 M5 M6 M7 M8 M9 M10].
  assert (forall o, o <> Alarm -> o <> DoorServo -> forall a, shown (ph o) a = a) as Hs.
  { intros o N1 N2 a. destruct (ph o) as [[v k]|] eqn:Eo; [|done]. rewrite (He o v k Eo). by destruct o. }
  assert (let a := Beep_State (my_devices (b_props b)) in
    ringing (ph Alarm) a = a /\ lamp_follows (ph Alarm) = true /\ silenced (ph Alarm) a = negb a) as (S2 & S3 & S4).
  { cbv zeta. destruct (ph Alarm) as [[v k]|] eqn:Eo; [|done].
    pose proof (He Alarm v k Eo) as Ek. subst k. specialize (M10 _ _ _ Eo (le_n _)). cbn [announced] in M10.
    rewrite M10. by destruct v. }
  rewrite Hs in M3, M4 by done. rewrite S2 in M5. rewrite S3 in M6. rewrite S4 in M7.
  split; [split|..]; try done. intros E. apply M7. by rewrite E.
Qed.

Definition advance (o : output) (p : option (bool * nat)) (ph : progress) : progress :=
  fun o' => if decide (o = o') then p else ph o'.

Lemma done_advance ph o v k d d' :
  (forall o v k, ph o = Some (v, k) -> (told (o, v) <= k)%nat -> announced o d = v) ->
  (forall o', o <> o' -> announced o' d' = announced o' d) ->
  ((told (o, v) <= k)%nat -> announced o d' = v) ->
  forall o' v' k', advance o (Some (v, k)) ph o' = Some (v', k') -> (told (o', v') <= k')%nat -> announced o' d' = v'.
Proof.
  intros Hd Hother Hsame o' v' k' E Hk. unfold advance in E. destruct (decide (o = o')) as [<-|Hne].
  - injection E as <- <-. by apply Hsame.
  - rewrite Hother by done. by apply (Hd _ _ k').
Qed.

(** The call of a command that writes one pin. *)
Lemma pin_call_midway ph b o v k p x :
  midway ph b -> p ∈ [LED0_PIN; LED1_PIN; BEEP_PIN; Relay_PIN] -> (S k < told (o, v))%nat ->
  (forall g, hw_pin_ops g = true -> Forall (is_output g) [LED0_PIN; LED1_PIN; BEEP_PIN; Relay_PIN] ->
     (forall q, level g q = if decide (q = p) then (if x =? 0 then PIN_LOW else PIN_HIGH) else level (b_gpio b) q) ->
     (forall o' v' k', advance o (Some (v, S k)) ph o' = Some (v', k') -> (told (o', v') <= k')%nat -> announced o' (my_devices (b_props b)) = v') ->
     midway (advance o (Some (v, S k)) ph) (over g b)) ->
  wp (pin_write p x) b (fun _ b' => midway (advance o (Some (v, S k)) ph) b').
Proof.
  intros Hm Hp Hk Hg. destruct (write_output _ p x (mid_ops _ _ Hm) (mid_outputs _ _ Hm) Hp) as (W1 & W2 & W3).
  apply wp_pin_write; [apply Hm|..].
  - pose proof output_pins_valid as Hv. rewrite !Forall_cons in Hv. rewrite !elem_of_cons in Hp.
    destruct Hv as (V1 & V2 & V3 & V4 & _), Hp as [-> |[-> |[-> |[-> |Hp]]]]; try done. by apply elem_of_nil in Hp.
  - apply Hg; try done. eapply done_advance; [apply Hm|done|lia].
Qed.

(** Which calls of a command announce its state. *)
Ltac tell := first [done|by intros []|cbn; lia].

Ltac levels W := rewrite !W; rewrite ?decide_True by done; rewrite ?decide_False by pin_ne.

Lemma fan_call ph v k a b :
  midway ph b -> ph Fan = Some (v, k) -> relay_actions v !! k = Some a ->
  wp a b (fun _ b' => midway (advance Fan (Some (v, S k)) ph) b').
Proof.
  intros Hm Ho Ha. unfold relay_actions in Ha. destruct k as [|[|k]]; [| |done]; injection Ha as <-.
  - assert (wp (pin_write Relay_PIN (if v then PIN_HIGH else PIN_LOW)) b (fun _ b' => midway (advance Fan (Some (v, 1%nat)) ph) b')) as H;
      [|by destruct v].
    apply pin_call_midway; [done|rewrite !elem_of_cons; auto|tell|]. intros g G1 G2 W Hd. destruct Hm.
    split; cbn [b_gpio b_props b_timer b_app b_objs over board_gpio]; try done; levels W; try done. by destruct v.
  - apply wp_data, wp_modify. destruct Hm as [M1 M2 M3 M4 M5 M6 M7 M8 M9 M10]. rewrite Ho in M4. split; try done.
    apply (done_advance ph Fan v 2 (my_devices (b_props b))); [exact M10|tell|tell].
Qed.

Lemma light_call ph v k a b :
  midway ph b -> ph FillLight = Some (v, k) -> light_actions v !! k = Some a ->
  wp a b (fun _ b' => midway (advance FillLight (Some (v, S k)) ph) b').
Proof.
  intros Hm Ho Ha. unfold light_actions in Ha. destruct k as [|[|k]]; [| |done]; injection Ha as <-.
  - assert (wp (pin_write LED1_PIN (if v then PIN_LOW else PIN_HIGH)) b (fun _ b' => midway (advance FillLight (Some (v, 1%nat)) ph) b')) as H;
      [|by destruct v].
    apply pin_call_midway; [done|rewrite !elem_of_cons; auto|tell|]. intros g G1 G2 W Hd. destruct Hm.
    split; cbn [b_gpio b_props b_timer b_app b_objs over board_gpio]; try done; levels W; try done. by destruct v.
  - apply wp_data, wp_modify. destruct Hm as [M1 M2 M3 M4 M5 M6 M7 M8 M9 M10]. rewrite Ho in M3. split; try done.
    apply (done_advance ph FillLight v 2 (my_devices (b_props b))); [exact M10|tell|tell].
Qed.

Lemma alarm_call ph v k a b :
  midway ph b -> ph Alarm = Some (v, k) -> beep_actions v !! k = Some a ->
  wp a b (fun _ b' => midway (advance Alarm (Some (v, S k)) ph) b').
Proof.
  intros Hm Ho Ha. pose proof Hm as [M1 M2 M3 M4 M5 M6 M7 M8 M9 M10]. rewrite Ho in *.
  unfold beep_actions in Ha. destruct v; cbn [negb Datatypes.app] in Ha.
  - destruct k as [|[|[|k]]]; [| | |done]; injection Ha as <-.
    + wp_steps. eapply wp_mono; [by eapply openTimer_spec|]. cbn beta.
      intros _ b1 (Ht & Hg & Hob & Hpr & Han). wp_steps. unfold angle_ok in M9. rewrite <- Han in M9.
      split; rewrite ?Hg, ?Hpr, ?Hob; try done.
      eapply done_advance; [exact M10|tell|tell].
    + apply wp_data, wp_modify. split; try done.
      apply (done_advance ph Alarm true 2 (my_devices (b_props b))); [exact M10|tell|tell].
    + apply wp_data, wp_modify. split; try done.
      apply (done_advance ph Alarm true 3 (my_devices (b_props b))); [exact M10|tell|tell].
  - destruct k as [|[|[|[|[|k]]]]]; [| | | | |done]; injection Ha as <-.
    + wp_steps. eapply wp_mono; [by eapply closeTimer_spec|]. cbn beta.
      intros _ b1 (Ht & Hg & Hob & Hpr & Han). wp_steps. unfold angle_ok in M9. rewrite <- Han in M9.
      split; rewrite ?Hg, ?Hpr, ?Hob; try done.
      eapply done_advance; [exact M10|tell|tell].
    + apply pin_call_midway; [done|rewrite !elem_of_cons; auto|tell|]. intros g G1 G2 W Hd.
      split; cbn [b_gpio b_props b_timer b_app b_objs over board_gpio]; try done; levels W; done.
    + apply pin_call_midway; [done|rewrite !elem_of_cons; auto|tell|]. intros g G1 G2 W Hd.
      split; cbn [b_gpio b_props b_timer b_app b_objs over board_gpio]; try done; levels W; done.
    + apply wp_data, wp_modify. split; try done.
      apply (done_advance ph Alarm false 4 (my_devices (b_props b))); [exact M10|tell|tell].
    + apply wp_data, wp_modify. split; try done.
      apply (done_advance ph Alarm false 5 (my_devices (b_props b))); [exact M10|tell|tell].
Qed.

Lemma door_call ph v k a b :
  midway ph b -> ph DoorServo = Some (v, k) -> door_actions v !! k = Some a ->
  wp a b (fun _ b' => midway (advance DoorServo (Some (v, S k)) ph) b').
Proof.
  intros Hm Ho Ha. pose proof Hm as [M1 M2 M3 M4 M5 M6 M7 M8 M9 M10].
  unfold door_actions in Ha. destruct k as [|[|[|k]]]; [| | |done]; injection Ha as <-.
  - unfold app_gets. wp_steps.
    assert (forall x, x = 0 \/ x = 90 \/ x = 180 ->
      midway (advance DoorServo (Some (v, 1%nat)) ph) (over (set_door (pwm_dev (b_app b)) x (door_period (b_app b)) (b_app b)) b)) as Hx.
    { intros x Hx. split; try done. apply (done_advance ph DoorServo v 1 (my_devices (b_props b))); [exact M10|tell|tell]. }
    assert (midway (advance DoorServo (Some (v, 1%nat)) ph) b) as Hstay.
    { split; try done. apply (done_advance ph DoorServo v 1 (my_devices (b_props b))); [exact M10|tell|tell]. }
    destruct v, M9 as [E|[E|E]]; rewrite E; cbn [when Z.ltb Z.compare Pos.compare Pos.compare_cont];
      first [exact Hstay|apply wp_zoom, wp_modify, Hx; cbn; auto].
  - apply wp_data, wp_modify. split; try done.
    apply (done_advance ph DoorServo v 2 (my_devices (b_props b))); [exact M10|tell|tell].
  - unfold app_gets, my_pwm_set_angle. wp_steps.
    assert (servo_pulse (clamp_angle (u8 (angle (b_app b)))) = Some (position_pulse (angle (b_app b)))) as ->.
    { destruct servo_pulses as (S1 & S2 & S3). destruct M9 as [-> |[-> | ->]]; [apply S1|apply S2|apply S3]. }
    unfold app_gets, pwm_do. wp_steps. apply wp_zoom. eapply wp_mono; [apply rt_pwm_set_frame|]. cbn beta.
    intros _ p' _. wp_steps. split; try done.
    apply (done_advance ph DoorServo v 3 (my_devices (b_props b))); [exact M10|tell|]. intros _. apply (M10 _ _ _ Ho). cbn. lia.
Qed.

Lemma call_midway ph o v k a b :
  midway ph b -> ph o = Some (v, k) -> actions (o, v) !! k = Some a ->
  wp a b (fun _ b' => midway (advance o (Some (v, S k)) ph) b').
Proof. destruct o; [apply alarm_call|apply fan_call|apply light_call|apply door_call]. Qed.

(** The keys change only the sensors' states, and the EXTI handlers no output. *)
Lemma keys_midway ph lines b : midway ph b -> wp (key_interrupt (exti_lines lines)) b (fun _ b' => midway ph b').
Proof.
  intros [M1 M2 M3 M4 M5 M6 M7 M8 M9 M10]. unfold key_interrupt, pins_do. wp_steps. apply wp_zoom. cbn [view board_gpio].
  eapply wp_mono; [apply exti_lines_frame|]. intros hs g (E1 & E2 & E3). cbn beta.
  assert (midway ph (over g b)) as Hm.
  { assert (forall q, is_output (b_gpio b) q -> level g q = level (b_gpio b) q) as Hl.
    { intros q [pull Hq]. unfold level, HAL_GPIO_ReadPin, idr_bit, odr_of. by rewrite E2, Hq, E3. }
    pose proof M2 as Hout. rewrite !Forall_cons in Hout. destruct Hout as (O1 & O2 & O3 & O4 & _).
    split; cbn [b_gpio b_props b_timer b_app b_objs over board_gpio]; rewrite ?Hl by done; try done.
    - congruence.
    - unfold is_output in *. by rewrite E2. }
  clear M1 M2 M3 M4 M5 M6 M7 M8 M9 M10 E1 E2 E3. revert Hm. generalize (over g b : board). clear b g.
  induction hs as [|h hs IH]; intros b Hm; cbn [for_each]; [by apply wp_ret|]. wp_steps.
  apply wp_mono with (P := fun _ b' => midway ph b'); [|intros _ b'; apply IH]. destruct Hm.
  destruct h.1; cbn; unfold IQR_HANDALE_KEY0, IQR_HANDALE_KEY1; wp_steps; apply wp_data, wp_gets; apply wp_data, wp_modify;
    split; try done; intros [] v k E Hk; by apply mid_done0 in E.
Qed.

Lemma timer_midway ph b : midway ph b -> wp timer_interrupt b (fun _ b' => midway ph b').
Proof.
  intros Hm. eapply timer_interrupt_cases; [apply Hm|..].
  - intros t Ht. destruct Hm. by split.
  - intros t Hring Ht. destruct Hm as [M1 M2 M3 M4 M5 M6 M7 M8 M9 M10].
    eapply wp_mono; [by apply timeout_cb_toggles|]. cbn beta. intros _ b' (g & -> & G1 & G2 & W).
    cbn [b_gpio over board_timer] in W.
    assert (lamp_follows (ph Alarm) = true /\ silenced (ph Alarm) (Beep_State (my_devices (b_props b))) = false) as [E1 E2].
    { destruct (ph Alarm) as [[[] [|[|[|k]]]]|]; cbn in Hring |- *; try done; by rewrite Hring. }
    rewrite E1 in M6. split; cbn [b_gpio b_props b_timer b_app b_objs over board_gpio board_timer]; rewrite ?E1, ?E2; try done; levels W;
      rewrite ?decide_True by done; try done.
    rewrite M6. by destruct (level_01 (b_gpio b) BEEP_PIN) as [-> | ->].
Qed.

Lemma interrupt_midway ph irq b : interrupt irq -> midway ph b -> wp irq b (fun _ b' => midway ph b').
Proof. intros []; [apply timer_midway|apply keys_midway]. Qed.

(** *** The door meanwhile *)

(** How far the servo is turned: by the first call of a command, from [a]; and whether it is
    driven there, as it is but between the first call and the last. *)
Definition turned (p : option (bool * nat)) (a : Z) : Z :=
  match p with Some (v, S _) => next_angle v a | _ => a end.
Definition settled (p : option (bool * nat)) : bool :=
  match p with Some (_, (1 | 2)%nat) => false | _ => true end.

Record door_midway (a : Z) (p : option (bool * nat)) (b : board) : Prop := {
  dm_found : is_Some (pwm_dev (b_app b));
  dm_timed : door_period (b_app b) = servo_period;
  dm_on : servo_on (b_pwm b);
  dm_angle : angle (b_app b) = turned p a;
  dm_driven : settled p = true -> exists pul, servo_regs (b_pwm b) servo_period pul /\
    (pul = position_pulse (angle (b_app b)) \/ angle (b_app b) = 0 /\ pul = rest_pulse);
  dm_announced : if shown p (Door_State (my_devices (b_props b))) then 90 <= angle (b_app b) else angle (b_app b) <= 90
}.

Lemma door_midway_frame a p b b' : door_part b' = door_part b -> door_midway a p b -> door_midway a p b'.
Proof. intros E Hd. unfold door_part in E. injection E as E1 E2 E3 E4 E5. destruct Hd. split; by rewrite ?E1, ?E2, ?E3, ?E4, ?E5. Qed.

Lemma door_midway_start p b : (forall v k, p = Some (v, k) -> k = 0%nat) -> door_ok b -> door_midway (angle (b_app b)) p b.
Proof.
  intros Hp [D1 D2 D3 D4 D5]. destruct p as [[v k]|]; [rewrite (Hp v k eq_refl)|]; by split.
Qed.

Lemma door_midway_end a p b : (forall v k, p = Some (v, k) -> k = 3%nat) -> door_midway a p b -> door_ok b /\ angle (b_app b) = turned p a.
Proof.
  intros Hp [D1 D2 D3 D4 D5 D6]. split; [|done].
  destruct p as [[v k]|]; [rewrite (Hp v k eq_refl) in *|]; split; try done; by apply D5.
Qed.

Lemma next_angle_ok v a : a = 0 \/ a = 90 \/ a = 180 ->
  (next_angle v a = 0 \/ next_angle v a = 90 \/ next_angle v a = 180) /\ (if v then 90 <= next_angle v a else next_angle v a <= 90).
Proof. unfold next_angle. intros [-> |[-> | ->]]; destruct v; cbn; lia. Qed.

Lemma door_call_turns a0 v k a b :
  angle_ok (b_app b) -> door_midway a0 (Some (v, k)) b -> door_actions v !! k = Some a ->
  wp a b (fun _ b' => door_midway a0 (Some (v, S k)) b').
Proof.
  intros Hok [D1 D2 D3 D4 D5 D6] Ha. unfold door_actions in Ha. destruct k as [|[|[|k]]]; [| | |done]; injection Ha as <-.
  - unfold app_gets. wp_steps. destruct (next_angle_ok v _ Hok) as [_ Hn]. cbn [turned] in D4.
    apply wp_mono with (P := fun _ b' => b' = over (set_door (pwm_dev (b_app b)) (next_angle v (angle (b_app b))) (door_period (b_app b)) (b_app b)) b).
    { assert (over (set_door (pwm_dev (b_app b)) (angle (b_app b)) (door_period (b_app b)) (b_app b)) b = b) as Hid
        by (by destruct b as [? ? ? ? ? ? ? []]).
      unfold next_angle, app_modify. destruct Hok as [E|[E|E]]; rewrite E in Hid |- *; destruct v;
        cbn [when Z.ltb Z.compare Pos.compare Pos.compare_cont]; first [by apply wp_zoom, wp_modify|by apply wp_ret]. }
    intros _ b' ->. split; cbn; try done. by rewrite D4.
  - apply wp_data, wp_modify. split; try done.
  - unfold app_gets, my_pwm_set_angle. wp_steps.
    assert (servo_pulse (clamp_angle (u8 (angle (b_app b)))) = Some (position_pulse (angle (b_app b)))) as ->.
    { destruct servo_pulses as (S1 & S2 & S3). destruct Hok as [-> |[-> | ->]]; [apply S1|apply S2|apply S3]. }
    unfold app_gets, pwm_do. wp_steps. apply wp_zoom. cbn [view board_pwm]. rewrite (bool_decide_true _ D1).
    eapply wp_mono; [apply (wp_leaves pwm_switches); [apply rt_pwm_set_switches|apply rt_pwm_set_spec]|].
    + rewrite D2. unfold servo_period. lia.
    + unfold position_pulse. repeat case_match; lia.
    + cbn beta. intros _ p' [Hregs Hsw]. wp_steps. specialize (Hregs eq_refl). rewrite D2 in Hregs.
      split; try done; cbn.
      * injection Hsw as E1 E2. unfold servo_on. by rewrite E1, E2.
      * intros _. eexists. split; [exact Hregs|by left].
Qed.

(** The calls to the other outputs leave it alone. *)
Lemma others_leave_door o v k a : o <> DoorServo -> actions (o, v) !! k = Some a -> leaves door_part a.
Proof.
  intros Hne Ha. destruct o; try done; cbn in Ha; unfold beep_actions, relay_actions, light_actions in Ha;
    destruct v; cbn [negb Datatypes.app] in Ha;
    repeat (destruct k as [|k]; [injection Ha as <-;
      unfold my_hwtimer_closeTimer, my_hwtimer_openTimer, app_gets, app_modify, timer, find_device, pin_write, data,
        Set_Devpro_LED0State, Set_Devpro_BeepState, Set_Devpro_RelayState, Set_Devpro_LED1State; leaves_auto|]); done.
Qed.

Lemma call_door a0 ph o v k a b :
  midway ph b -> door_midway a0 (ph DoorServo) b -> ph o = Some (v, k) -> actions (o, v) !! k = Some a ->
  wp a b (fun _ b' => door_midway a0 (advance o (Some (v, S k)) ph DoorServo) b').
Proof.
  intros Hm Hd Ho Ha. unfold advance. destruct (decide (o = DoorServo)) as [->|Hne].
  - rewrite Ho in Hd. apply door_call_turns; [apply Hm|done|done].
  - eapply wp_mono; [apply (wp_leaves door_part); [by eapply others_leave_door|by eapply call_midway]|]. cbn beta.
    intros _ b' [_ E]. by eapply door_midway_frame.
Qed.

Lemma interrupt_leaves_door irq : interrupt irq -> leaves door_part irq.
Proof. intros []; [apply timer_leaves_door|apply key_leaves_door]. Qed.

(** ** Commands to different outputs *)

(** The progress of the commands of a configuration. *)
Fixpoint progress_of (cs : list (command * nat)) : progress :=
  match cs with
  | [] => fun _ => None
  | ((o, v), k) :: cs => fun o' => if decide (o = o') then Some (v, k) else progress_of cs o'
  end.

Lemma midway_ext ph ph' b : (forall o, ph o = ph' o) -> midway ph b -> midway ph' b.
Proof. intros E []. split; rewrite <- ?E; try done. intros o v k. rewrite <- E. apply mid_done0. Qed.

Lemma output_in (cs : list (command * nat)) i c k : cs !! i = Some (c, k) -> c.1 ∈ cs.*1.*1.
Proof.
  intros Hi. apply list_elem_of_fmap. exists c. split; [done|]. apply list_elem_of_fmap. exists (c, k).
  split; [done|]. by eapply list_elem_of_lookup_2.
Qed.

Lemma progress_lookup cs o v k : NoDup cs.*1.*1 -> (progress_of cs o = Some (v, k) <-> exists i, cs !! i = Some ((o, v), k)).
Proof.
  induction cs as [|[[o1 v1] k1] cs IH]; intros Hn; cbn [progress_of].
  - split; [done|]. by intros [i ?].
  - cbn in Hn. apply NoDup_cons in Hn as [Hn1 Hn]. specialize (IH Hn). destruct (decide (o1 = o)) as [->|Hne].
    + split; [intros [= -> ->]; by exists 0%nat|]. intros [[|i] Hi]; [by injection Hi as -> ->|]. destruct Hn1.
      exact (output_in cs i _ _ Hi).
    + rewrite IH. split; [intros [i Hi]; by exists (S i)|]. intros [[|i] Hi]; [injection Hi as -> -> ->; done|by exists i].
Qed.

Lemma progress_insert cs i o v k k' : NoDup cs.*1.*1 -> cs !! i = Some ((o, v), k) ->
  forall o', progress_of (<[i := ((o, v), k')]> cs) o' = advance o (Some (v, k')) (progress_of cs) o'.
Proof.
  revert i. induction cs as [|[[o1 v1] k1] cs IH]; intros [|i] Hn Hi o'; try done; cbn in Hi, Hn; apply NoDup_cons in Hn as [Hn1 Hn]; cbn [insert list_insert progress_of].
  - injection Hi as -> -> ->. unfold advance. by destruct (decide (o = o')).
  - rewrite IH by done. unfold advance. cbn [progress_of]. destruct (decide (o1 = o')) as [->|Hne], (decide (o = o')) as [->|Hne2]; try done.
    destruct Hn1. exact (output_in cs i _ _ Hi).
Qed.

Lemma outputs_insert (cs : list (command * nat)) i c k k' : cs !! i = Some (c, k) -> (<[i := (c, k')]> cs).*1.*1 = cs.*1.*1.
Proof.
  intros Hi. rewrite !list_fmap_insert. cbn. apply list_insert_id. by rewrite !list_lookup_fmap, Hi.
Qed.

(** What is kept at every step, when the servo was at [a]. *)
Definition undisturbed (a : Z) (x : configuration) : Prop :=
  NoDup x.1.*1.*1 /\ Forall (fun ck => ck.2 <= length (actions ck.1))%nat x.1 /\ midway (progress_of x.1) x.2 /\
  door_midway a (progress_of x.1 DoorServo) x.2.

Lemma step_undisturbed a x y : undisturbed a x -> step x y -> undisturbed a y.
Proof.
  intros (Hn & Hk & Hm & Hd) Hs. destruct Hs as [cs b i [o v] k act b' Hi Ha E|cs b irq b' Hirq E]; cbn [fst snd] in *.
  - assert (progress_of cs o = Some (v, k)) as Hp by (apply progress_lookup; [done|by exists i]).
    split; [by cbn [fst]; rewrite (outputs_insert cs i (o, v) k)|]. split; [|split]; cbn [fst snd].
    + apply Forall_insert; [done|]. exact (lookup_lt_Some _ _ _ Ha).
    + apply (midway_ext (advance o (Some (v, S k)) (progress_of cs))).
      * intros o'. symmetry. by eapply progress_insert.
      * exact (wp_ok _ _ _ _ _ E (call_midway _ o v k act b Hm Hp Ha)).
    + rewrite (progress_insert cs i o v k) by done. exact (wp_ok _ _ _ _ _ E (call_door a _ o v k act b Hm Hd Hp Ha)).
  - split; [done|]. split; [done|]. split; cbn [fst snd].
    + exact (wp_ok _ _ _ _ _ E (interrupt_midway _ irq b Hirq Hm)).
    + apply (door_midway_frame a _ b); [|done]. by eapply interrupt_leaves_door.
Qed.

Lemma rtc_undisturbed a x y : undisturbed a x -> rtc step x y -> undisturbed a y.
Proof. intros Hx Hs. induction Hs as [|x y z Hxy _ IH]; [done|]. by apply IH, (step_undisturbed a x). Qed.

Lemma progress_issued cs o v k : NoDup cs.*1 -> progress_of (issued cs) o = Some (v, k) -> k = 0%nat.
Proof.
  intros Hn Hp. assert ((issued cs).*1 = cs) as E by (unfold issued; rewrite <- list_fmap_compose; by apply list_fmap_id).
  apply progress_lookup in Hp as [i Hi]; [|by rewrite E].
  unfold issued in Hi. rewrite list_lookup_fmap in Hi. destruct (cs !! i); [|done]. by injection Hi as _ <-.
Qed.

Lemma issued_undisturbed cs b : NoDup cs.*1 -> board_ok b -> door_ok b -> undisturbed (angle (b_app b)) (issued cs, b).
Proof.
  intros Hn Hb Hd. assert ((issued cs).*1 = cs) as E by (unfold issued; rewrite <- list_fmap_compose; by apply list_fmap_id).
  split; [by cbn [fst]; rewrite E|]. split; [|split]; cbn [fst snd].
  - apply Forall_fmap, Forall_true. intros c. cbn. lia.
  - apply midway_start; [|done]. intros o v k. by apply progress_issued.
  - apply door_midway_start; [|done]. intros v k. by apply progress_issued.
Qed.

(** The next call of any command can be made, and any interrupt served. *)
Lemma undisturbed_call a cs b i c k :
  undisturbed a (cs, b) -> cs !! i = Some (c, k) -> (k < length (actions c))%nat ->
  exists b', step (cs, b) (<[i := (c, S k)]> cs, b') /\ undisturbed a (<[i := (c, S k)]> cs, b').
Proof.
  intros Hu Hi Hk. pose proof Hu as (Hn & _ & Hm & _). cbn [fst snd] in *. destruct c as [o v].
  destruct (lookup_lt_is_Some_2 (actions (o, v)) k Hk) as [act Ha].
  destruct (wp_total act b _ (call_midway _ o v k act b Hm ltac:(apply progress_lookup; [done|by exists i]) Ha)) as ([] & b' & E & _).
  assert (step (cs, b) (<[i := ((o, v), S k)]> cs, b')) as Hs by (by eapply step_call).
  exists b'. split; [done|]. by eapply step_undisturbed.
Qed.
Lemma undisturbed_interrupt a cs b irq :
  undisturbed a (cs, b) -> interrupt irq -> exists b', step (cs, b) (cs, b') /\ undisturbed a (cs, b').
Proof.
  intros Hu Hirq. pose proof Hu as (_ & _ & Hm & _). destruct (wp_total irq b _ (interrupt_midway _ irq b Hirq Hm)) as ([] & b' & E & _).
  assert (step (cs, b) (cs, b')) as Hs by (by eapply step_interrupt). exists b'. split; [done|]. by eapply step_undisturbed.
Qed.

(** Where the commands turn the servo: one step, if one of them is to the door. *)
Definition commanded_turn (cs : list command) (a : Z) : Z :=
  foldr (fun c a => match c with (DoorServo, v) => next_angle v a | _ => a end) a cs.

Lemma turn_finished cs a : NoDup cs.*1 -> turned (progress_of (finished cs) DoorServo) a = commanded_turn cs a.
Proof.
  induction cs as [|[o v] cs IH]; intros Hn; [done|]. cbn in Hn. apply NoDup_cons in Hn as [Hni Hn].
  change (finished ((o, v) :: cs)) with (((o, v), length (actions (o, v))) :: finished cs).
  change (commanded_turn ((o, v) :: cs) a) with (match o with DoorServo => next_angle v (commanded_turn cs a) | _ => commanded_turn cs a end).
  cbn [progress_of]. destruct o; cbn [decide]; try (by rewrite <- IH). rewrite decide_True by done.
  assert (commanded_turn cs a = a) as ->; [|done]. clear IH Hn. induction cs as [|[o' v'] cs IH]; [done|].
  cbn [list_fmap fmap fst] in Hni. apply not_elem_of_cons in Hni as [Hne Hni].
  change (commanded_turn ((o', v') :: cs) a) with (match o' with DoorServo => next_angle v' (commanded_turn cs a) | _ => commanded_turn cs a end).
  rewrite IH by done. by destruct o'.
Qed.

(** C35. Commands to different outputs do not disturb each other: however the calls of the
    threads that issue them and the interrupts of the timer and the keys are interleaved, no
    call fails, and when all commands have ended, every commanded state is announced; the
    fill light, the fan, the alarm timer and the buzzer are in order for the announced states
    ([board_ok], in which the warning lamp follows the buzzer and not the announced
    [LED0_State]); the servo has been turned one step by the command to the door, or not at
    all without one, and is driven to its new position ([door_ok]). *)
Theorem different_outputs cs b x :
  NoDup cs.*1 -> board_ok b -> door_ok b -> rtc step (issued cs, b) x ->
  (forall i c k, x.1 !! i = Some (c, k) -> k = length (actions c) \/ exists a b', actions c !! k = Some a /\ a x.2 = Ok (tt, b')) /\
  (forall irq, interrupt irq -> exists b', irq x.2 = Ok (tt, b')) /\
  (x.1 = finished cs -> board_ok x.2 /\ door_ok x.2 /\
    servo_position (b_pwm x.2) = commanded_turn cs (servo_position (b_pwm b)) /\
    forall o v, (o, v) ∈ cs -> announced o (my_devices (b_props x.2)) = v).
Proof.
  intros Hn Hb Hd Hs. pose proof (rtc_undisturbed _ _ _ (issued_undisturbed cs b Hn Hb Hd) Hs) as (Hn' & Hk & Hm & Hdm). clear Hs.
  destruct x as [cs' b']. cbn [fst snd] in *. split; [|split].
  - intros i [o v] k Hi. rewrite Forall_lookup in Hk. specialize (Hk _ _ Hi). cbn [fst snd] in Hk.
    destruct (decide (k = length (actions (o, v)))) as [->|Hne]; [by left|right].
    destruct (lookup_lt_is_Some_2 (actions (o, v)) k) as [a Ha]; [lia|].
    destruct (wp_total a b' _ (call_midway _ o v k a b' Hm ltac:(apply progress_lookup; [done|by exists i]) Ha)) as ([] & b2 & E & _).
    by exists a, b2.
  - intros irq Hirq. destruct (wp_total irq b' _ (interrupt_midway _ irq b' Hirq Hm)) as ([] & b2 & E & _). by exists b2.
  - intros ->.
    assert (forall o v k, progress_of (finished cs) o = Some (v, k) -> k = length (actions (o, v))) as Hend.
    { intros o v k Hp. apply progress_lookup in Hp as [i Hi]; [|done].
      unfold finished in Hi. rewrite list_lookup_fmap in Hi. destruct (cs !! i) as [c|]; [|done]. by injection Hi as -> <-. }
    assert (board_ok b') as Hb' by (by apply (midway_end (progress_of (finished cs)))).
    destruct (door_midway_end _ _ _ (Hend DoorServo) Hdm) as [Hd' Ha]. rewrite turn_finished in Ha by done.
    split; [done|]. split; [done|]. split; [by rewrite !door_position by done|].
    intros o v Hin. apply (mid_done _ _ Hm o v (length (actions (o, v)))); [|by destruct o, v; cbn; lia].
    apply progress_lookup; [done|]. apply list_elem_of_lookup in Hin as [i Hi].
    exists i. unfold finished. by rewrite list_lookup_fmap, Hi.
Qed.

(** ** Two commands to one output *)

Lemma one_call cs i (c : command) k a b b' cs' x :
  cs !! i = Some (c, k) -> actions c !! k = Some a -> a b = Ok (tt, b') -> <[i := (c, S k)]> cs = cs' ->
  rtc step (cs', b') x -> rtc step (cs, b) x.
Proof. intros Hi Ha E <- Hx. eapply rtc_l; [by eapply step_call|exact Hx]. Qed.

Lemma pin_write_ok p v b : hw_pin_ops (b_gpio b) = true -> valid_pin p ->
  pin_write p v b = Ok (tt, over (write_level (b_gpio b) p v) b).
Proof. intros Ho Hp. unfold pin_write, zoom. cbn [view board_gpio]. by rewrite rt_pin_write_eq. Qed.

(** Without a lock, two commands to the fan are enough: one thread is preempted between its
    two calls by another that carries out the opposite command as a whole. The fan's pin
    then follows the one command and its announced state the other. *)
Theorem fan_race v b :
  board_ok b -> exists b', rtc step (issued [(Fan, v); (Fan, negb v)], b) (finished [(Fan, v); (Fan, negb v)], b') /\
    Relay_State (my_devices (b_props b')) = v /\
    level (b_gpio b') Relay_PIN = (if negb v then PIN_HIGH else PIN_LOW) /\ ~ board_ok b'.
Proof.
  intros Hb. pose proof (ok_pins _ Hb) as Hp. set (x v := if v : bool then PIN_HIGH else PIN_LOW).
  destruct (pins_write _ _ Relay_PIN (x v) Hp) as (W1 & W2 & W3); [rewrite !elem_of_cons; auto|].
  destruct (write_output _ Relay_PIN (x (negb v)) W1 W2) as (V1 & V2 & V3); [rewrite !elem_of_cons; auto|].
  set (g := write_level (write_level (b_gpio b) Relay_PIN (x v)) Relay_PIN (x (negb v))) in *.
  assert (level g Relay_PIN = x (negb v)) as Hl by (rewrite V3, decide_True by done; by destruct v).
  set (p := on_devices (with_relay v) (on_devices (with_relay (negb v)) (b_props b))).
  exists (over p (over g b)). split; [|split; [done|split; [exact Hl|]]].
  - assert (forall v b, hw_pin_ops (b_gpio b) = true ->
      (if negb v then pin_write Relay_PIN PIN_LOW else pin_write Relay_PIN PIN_HIGH) b =
      Ok (tt, over (write_level (b_gpio b) Relay_PIN (x v)) b)) as E by (intros [] ? Ho; by apply pin_write_ok).
    eapply (one_call _ 0%nat); [done|done|apply E, Hp|done|].
    eapply (one_call _ 1%nat); [done|done|by apply E|done|].
    eapply (one_call _ 1%nat); [done|done|done|done|].
    eapply (one_call _ 0%nat); [done|done|done|done|]. apply rtc_refl.
  - intros Hb'. pose proof (ok_relay _ _ (ok_pins _ Hb')) as Hr. change (level g Relay_PIN = x v) in Hr. rewrite Hl in Hr. by destruct v.
Qed.

(** The same with the alarm leaves it sounding while it is announced as off: the thread that
    switches it off is preempted, when it has stopped the timer, by one that switches it
    on. *)
Theorem alarm_race b :
  board_ok b -> exists b', rtc step (issued [(Alarm, false); (Alarm, true)], b) (finished [(Alarm, false); (Alarm, true)], b') /\
    Beep_State (my_devices (b_props b')) = false /\ timer_ok (b_timer b') (hw_dev (b_app b')) true /\ ~ board_ok b'.
Proof.
  intros Hb. destruct (wp_total _ _ _ (closeTimer_spec _ _ (ok_timer _ Hb))) as (r & b1 & E1 & T1 & G1 & O1 & P1 & A1).
  pose proof (ok_devices _ Hb) as Hd. rewrite <- O1 in Hd.
  destruct (wp_total _ _ _ (openTimer_spec _ _ T1 Hd)) as (r2 & b2 & E2 & T2 & G2 & O2 & P2 & A2).
  pose proof (ok_pins _ Hb) as [Ho Hout _ _ _ _]. rewrite <- G1, <- G2 in Ho, Hout.
  set (on := on_devices (with_beep true)). set (off := on_devices (with_beep false)).
  set (g := write_level (write_level (b_gpio b2) LED0_PIN PIN_HIGH) BEEP_PIN PIN_LOW).
  exists (over (off (on (b_props b2))) (over g b2)). split; [|split; [done|split; [exact T2|]]].
  - eapply (one_call _ 0%nat); [done|done|unfold bind; rewrite E1; reflexivity|done|].
    eapply (one_call _ 1%nat); [done|done|unfold bind; rewrite E2; reflexivity|done|].
    eapply (one_call _ 1%nat); [done|done|reflexivity|done|].
    eapply (one_call _ 1%nat); [done|done|reflexivity|done|].
    eapply (one_call _ 0%nat); [done|done|by apply pin_write_ok|done|].
    eapply (one_call _ 0%nat); [done|done|by apply pin_write_ok|done|].
    eapply (one_call _ 0%nat); [done|done|reflexivity|done|].
    eapply (one_call _ 0%nat); [done|done|reflexivity|done|]. apply rtc_refl.
  - intros Hb'. pose proof (ok_timer _ Hb') as [((_ & Hs & _) & _) _]. destruct T2 as [((_ & Ht & _) & _) _].
    assert (0 = 1) by (rewrite <- Hs, <- Ht; reflexivity). done.
Qed.
