(* ===== verification/LedSample.v ===== *)
(** * The PWM sample

    Models [applications/src/my_pwm.c], the shell command [pwm_led_sample]: it sets the duty
    of a PWM channel up and down for ever. The channel is the one [my_pwm_ctrl_door.h]
    names, the door servo's. *)

From stdpp Require Import base numbers list.
From Stdlib Require Import ZArith Lia.
From S2P Require Import Prelude Gpio Device Tim HwTimer Pwm DataUpload Actuators.

Definition sample_period : Z := 2000000.

(** The local variables [pulse] and [dir], 32-bit words. *)
Abbreviation locals := (Z * Z)%type.

(** What the command does before its loop: its locals, or [None] when it returns. *)
Definition pwm_led_sample : M board (option locals) :=
  d <- find_device PWM_DEV_NAME ;;
  match d with
  | None => ret None
  | Some _ =>
      pwm_do (rt_pwm_set true PWM_DEV_CHANNEL sample_period 0) ;;;
      pwm_do (rt_pwm_enable true PWM_DEV_CHANNEL) ;;;
      ret (Some (0, 1))
  end.

(** A turn of the loop, after its delay of 50 ms. *)
Definition sample_turn (x : locals) : M board locals :=
  let '(pulse, dir) := x in
  let pulse := if negb (dir =? 0) then u32 (pulse + 5000) else u32 (pulse - 5000) in
  let dir := if sample_period <=? pulse then 0 else dir in
  let dir := if 0 =? pulse then 1 else dir in
  pwm_do (rt_pwm_set true PWM_DEV_CHANNEL sample_period pulse) ;;;
  ret (pulse, dir).

Fixpoint sample_turns (n : nat) (x : locals) : M board locals :=
  match n with
  | O => ret x
  | S n => x <- sample_turns n x ;; sample_turn x
  end.

(** The wave of 800 turns: 400 up, 400 down. *)
Definition wave (n : nat) : locals :=
  let m := Z.of_nat n mod 800 in
  if m <? 400 then (5000 * m, 1) else (5000 * (800 - m), 0).

Lemma wave_range n : 0 <= (wave n).1 <= sample_period.
Proof. unfold wave, sample_period. destruct (_ <? 400) eqn:E; cbn [fst]; Z.to_euclidean_division_equations; lia. Qed.

(** The computation of a turn takes the wave on. *)
Lemma wave_next n :
  let '(pulse, dir) := wave n in
  let pulse' := if negb (dir =? 0) then u32 (pulse + 5000) else u32 (pulse - 5000) in
  (pulse', if 0 =? pulse' then 1 else if sample_period <=? pulse' then 0 else dir) = wave (S n).
Proof.
  unfold wave, sample_period. set (m := Z.of_nat n mod 800).
  assert (0 <= m < 800 /\ Z.of_nat (S n) mod 800 = if m =? 799 then 0 else m + 1) as [Hm ->].
  { unfold m. destruct (_ =? 799) eqn:E; Z.to_euclidean_division_equations; lia. }
  destruct (m <? 400) eqn:E1; [change (negb (1 =? 0)) with true|change (negb (0 =? 0)) with false]; cbv iota zeta.
  - rewrite (proj2 (Z.eqb_neq m 799)) by lia. rewrite wrap_small by lia. rewrite (proj2 (Z.eqb_neq 0 _)) by lia.
    destruct (m + 1 <? 400) eqn:E2; [rewrite (proj2 (Z.leb_gt _ _)) by lia|rewrite (proj2 (Z.leb_le _ _)) by lia]; f_equal; lia.
  - rewrite wrap_small by lia. destruct (m =? 799) eqn:E2.
    + assert (m = 799) as -> by lia. reflexivity.
    + rewrite (proj2 (Z.eqb_neq 0 _)), (proj2 (Z.ltb_ge (m + 1) _)) by lia. destruct (2000000 <=? _) eqn:E3; f_equal; lia.
Qed.

Lemma sample_turn_spec n b :
  board_ok b -> wp (sample_turn (wave n)) b (fun x b' => x = wave (S n) /\
    pwm_regs (b_pwm b') CCR1 = pwm_cmp sample_period x.1 - 1 /\ board_ok b' /\ b_props b' = b_props b /\ b_gpio b' = b_gpio b).
Proof.
  intros [Hp Ht Hd Ha]. pose proof (wave_next n) as Ew. pose proof (wave_range (S n)) as Hr. unfold sample_turn.
  destruct (wave n) as [pulse dir]. cbv zeta in Ew |- *. rewrite <- Ew in *. cbn [fst] in Hr.
  wp_steps. unfold pwm_do. apply wp_zoom. cbn [view board_pwm]. unfold sample_period in *.
  eapply wp_mono; [apply rt_pwm_set_spec; lia|]. cbn beta. intros r p' Hregs. wp_steps. destruct (Hregs eq_refl) as (_ & _ & E).
  split; [done|]. split; [exact E|]. by split.
Qed.

(** The sample's pulse is a triangle between nothing and the whole period, with 800 turns
    from one dark moment to the next: it never wraps around, the compare register follows
    it, and the outputs of the board are left alone. *)
Theorem led_fades n b :
  board_ok b ->
  wp (sample_turns (S n) (0, 1)) b (fun x b' => x = wave (S n) /\ 0 <= x.1 <= sample_period /\
    pwm_regs (b_pwm b') CCR1 = pwm_cmp sample_period x.1 - 1 /\
    board_ok b' /\ b_props b' = b_props b /\ b_gpio b' = b_gpio b).
Proof.
  intros Hb. assert (forall k, wp (sample_turns k (0, 1)) b (fun x b' => x = wave k /\ board_ok b' /\ b_props b' = b_props b /\ b_gpio b' = b_gpio b)) as H.
  { induction k as [|k IH]; cbn [sample_turns]; [by apply wp_ret|]. wp_steps. eapply wp_mono; [exact IH|]. cbn beta.
    intros x b1 (-> & Hb1 & E1 & E2). eapply wp_mono; [by apply sample_turn_spec|]. cbn beta.
    intros x b2 (-> & _ & Hb2 & F1 & F2). split_and!; try done; congruence. }
  cbn [sample_turns]. wp_steps. eapply wp_mono; [apply H|]. cbn beta. intros x b1 (-> & Hb1 & E1 & E2).
  eapply wp_mono; [by apply sample_turn_spec|]. cbn beta. intros x b2 (-> & Hr & Hb2 & F1 & F2).
  split; [done|]. split; [apply wave_range|]. split_and!; try done; congruence.
Qed.
