(* ===== verification/RtList.v ===== *)
(** * The kernel's linked lists

    Models the intrusive doubly linked lists of [rt-thread/include/rtservice.h]: a node holds
    its two neighbours, a list is a ring through its head, and a node that is in no list is
    a ring of its own. The operations are the assignments of the code; they are proved to be
    the operations on sequences that their names say, whatever list a node is in. *)

From stdpp Require Import base numbers functions list.
From Stdlib Require Import ZArith Lia.
From S2P Require Import Prelude.

(** ** The code *)

Section Code.
Context {N : Type} `{EqDecision N}.

(** [struct rt_list_node] of every node. *)
Record links : Type := Links { next : N -> N; prev : N -> N }.

Definition set_next (a b : N) (s : links) : links := Links (<[a := b]> (next s)) (prev s).
Definition set_prev (a b : N) (s : links) : links := Links (next s) (<[a := b]> (prev s)).

Definition rt_list_init (l : N) (s : links) : links := set_next l l (set_prev l l s).

Definition rt_list_insert_after (l n : N) (s : links) : links :=
  let s := set_prev (next s l) n s in
  let s := set_next n (next s l) s in
  let s := set_next l n s in
  set_prev n l s.

Definition rt_list_insert_before (l n : N) (s : links) : links :=
  let s := set_next (prev s l) n s in
  let s := set_prev n (prev s l) s in
  let s := set_prev l n s in
  set_next n l s.

Definition rt_list_remove (n : N) (s : links) : links :=
  let s := set_prev (next s n) (prev s n) s in
  let s := set_next (prev s n) (next s n) s in
  let s := set_prev n n s in
  set_next n n s.

Definition rt_list_isempty (l : N) (s : links) : bool := bool_decide (next s l = l).

(** ** Chains *)

(** From [a] the nodes of [l] follow one another. *)
Fixpoint chain (s : links) (a : N) (l : list N) : Prop :=
  match l with
  | [] => True
  | b :: l => (next s a = b /\ prev s b = a) /\ chain s b l
  end.

Lemma chain_app s a l1 l2 : chain s a (l1 ++ l2) <-> chain s a l1 /\ chain s (List.last (a :: l1) a) l2.
Proof.
  assert (forall d, chain s a (l1 ++ l2) <-> chain s a l1 /\ chain s (List.last (a :: l1) d) l2) as H; [|apply H].
  intros d. revert a. induction l1 as [|b l1 IH]; intros a; cbn [app chain List.last]; [tauto|].
  rewrite (IH b). cbn [List.last]. tauto.
Qed.

(** A chain reads [next] of all nodes but the last, and [prev] of all but the first. *)
Lemma chain_ext s s' a l :
  (forall x, x ∈ removelast (a :: l) -> next s' x = next s x) -> (forall x, x ∈ l -> prev s' x = prev s x) ->
  chain s a l -> chain s' a l.
Proof.
  revert a. induction l as [|b l IH]; intros a Hn Hp; [done|]. cbn [chain]. intros ((H1 & H2) & H3). split; [split|].
  - rewrite Hn; [done|cbn; left].
  - rewrite Hp; [done|left].
  - apply IH; [|intros x Hx; apply Hp; by right|done]. intros x Hx. apply Hn. cbn [removelast]. by right.
Qed.

Lemma removelast_in (x : N) l : x ∈ removelast l -> x ∈ l.
Proof.
  destruct l as [|b l _] using rev_ind; [done|]. rewrite removelast_last. intros H. apply elem_of_app. by left.
Qed.
Lemma last_in (a : N) l d : List.last (a :: l) d ∈ a :: l.
Proof. revert a. induction l as [|b l IH]; intros a; [left|]. cbn [List.last]. right. apply IH. Qed.
Lemma removelast_ne (x : N) a l d : NoDup (a :: l) -> x ∈ removelast (a :: l) -> x <> List.last (a :: l) d.
Proof.
  destruct (a :: l) as [|b l' _] eqn:E using rev_ind; [done|]. rewrite removelast_last, List.last_last.
  intros (Hn & Hd & _)%NoDup_app Hx ->. by apply (Hd b); [|left].
Qed.

(** Between [p] and [q], the neighbours in [s], comes [n]. *)
Record spliced (p n q : N) (s s' : links) : Prop := {
  sp_arcs : next s' p = n /\ prev s' n = p /\ next s' n = q /\ prev s' q = n;
  sp_next_other : forall x, x <> p -> x <> n -> next s' x = next s x;
  sp_prev_other : forall x, x <> q -> x <> n -> prev s' x = prev s x
}.

(** [n] is taken out from between them. *)
Record taken (p n q : N) (s s' : links) : Prop := {
  tk_arc : next s' p = q /\ prev s' q = p;
  tk_alone : next s' n = n /\ prev s' n = n;
  tk_next_other : forall x, x <> p -> x <> n -> next s' x = next s x;
  tk_prev_other : forall x, x <> q -> x <> n -> prev s' x = prev s x
}.

Section Ring.
Context (h : N) (xs ys : list N) (n : N).
Abbreviation p := (List.last (h :: xs) h).
Abbreviation q := (hd h ys).

(** What both leave of the chain before and behind the place. *)
Lemma chain_ends s s' : NoDup (h :: xs ++ ys) -> n ∉ h :: xs ++ ys ->
  (forall x, x <> p -> x <> n -> next s' x = next s x) -> (forall x, x <> q -> x <> n -> prev s' x = prev s x) ->
  chain s h xs -> chain s q (tl (ys ++ [h])) -> chain s' h xs /\ chain s' q (tl (ys ++ [h])).
Proof.
  intros Hd Hn Hnx Hpv H1 H2. pose proof Hd as Hd'. rewrite app_comm_cons in Hd'. apply NoDup_app in Hd' as (Hx & Hxy & Hy).
  rewrite app_comm_cons, elem_of_app in Hn. split.
  - apply (chain_ext s); [| |done].
    + intros x Hin. apply Hnx; [by apply removelast_ne|]. intros ->. apply removelast_in in Hin. tauto.
    + intros x Hin. apply Hpv; [|intros ->; apply Hn; left; by right].
      intros ->. destruct ys as [|y ys']; cbn in Hin; [by apply NoDup_cons in Hx as [? _]|].
      apply (Hxy y); [by right|left].
  - apply (chain_ext s); [| |done].
    + intros x Hin. assert (x ∈ ys) as Hxin.
      { destruct ys as [|y ys']; cbn in Hin |- *; [by apply elem_of_nil in Hin|].
        replace (y :: ys' ++ [h]) with ((y :: ys') ++ [h]) in Hin by done.
        change (x ∈ removelast ((y :: ys') ++ [h])) in Hin. by rewrite removelast_last in Hin. }
      apply Hnx; [|intros ->; tauto]. intros ->. exact (Hxy p (last_in _ _ _) Hxin).
    + intros x Hin. destruct ys as [|y ys']; cbn in Hin |- *; [by apply elem_of_nil in Hin|].
      apply elem_of_app in Hin. apply NoDup_cons in Hy as [Hy1 Hy2]. apply Hpv; cbn.
      * intros ->. destruct Hin as [Hin|Hin%list_elem_of_singleton]; [done|]. subst y. apply (Hxy h); left.
      * intros ->. apply Hn. destruct Hin as [Hin|Hin%list_elem_of_singleton]; [right; by right|left; subst; left].
Qed.

Lemma behind s : chain s p (ys ++ [h]) <-> (next s p = q /\ prev s q = p) /\ chain s q (tl (ys ++ [h])).
Proof. by destruct ys. Qed.

Lemma ring_insert s s' : NoDup (h :: xs ++ ys) -> n ∉ h :: xs ++ ys -> spliced p n q s s' ->
  chain s h (xs ++ ys ++ [h]) -> chain s' h (xs ++ n :: ys ++ [h]).
Proof.
  intros Hd Hn [(A1 & A2 & A3 & A4) Hnx Hpv]. rewrite (chain_app s h xs), (chain_app s' h xs). intros [H1 H2]. apply behind in H2 as [_ H2].
  destruct (chain_ends s s' Hd Hn Hnx Hpv H1 H2) as [G1 G2]. split; [done|]. cbn [chain]. split; [done|].
  destruct ys; cbn in *; done.
Qed.

Lemma ring_remove s s' : NoDup (h :: xs ++ ys) -> n ∉ h :: xs ++ ys -> taken p n q s s' ->
  chain s h (xs ++ n :: ys ++ [h]) -> chain s' h (xs ++ ys ++ [h]).
Proof.
  intros Hd Hn [A _ Hnx Hpv]. rewrite (chain_app s h xs), (chain_app s' h xs). cbn [chain]. intros (H1 & _ & H2).
  assert (chain s q (tl (ys ++ [h]))) as H2' by (destruct ys; cbn in *; [done|apply H2]).
  destruct (chain_ends s s' Hd Hn Hnx Hpv H1 H2') as [G1 G2]. split; [done|]. by apply behind.
Qed.

(** The assignments of the code do just that. *)
Lemma insert_after_spliced s : n ∉ h :: xs ++ ys -> chain s h (xs ++ ys ++ [h]) -> spliced p n q s (rt_list_insert_after p n s).
Proof.
  intros Hn. rewrite chain_app. intros [_ [[A1 A2] _]%behind].
  assert (p <> n) as Hpn by (intros E; apply Hn; rewrite <- E; rewrite app_comm_cons; apply elem_of_app; left; apply last_in).
  unfold rt_list_insert_after, set_next, set_prev. cbn [next prev]. rewrite !A1.
  assert (n <> q) as Hqn by (intros ->; apply Hn; destruct ys; cbn; [left|right; apply elem_of_app; right; left]).
  split; cbn [next prev].
  - rewrite !fn_lookup_insert, fn_lookup_insert_ne by done. rewrite fn_lookup_insert. split_and!; try done.
    by rewrite fn_lookup_insert_ne, fn_lookup_insert by done.
  - intros x Hxp Hxn. by rewrite !fn_lookup_insert_ne by congruence.
  - intros x Hxq Hxn. by rewrite !fn_lookup_insert_ne by congruence.
Qed.

Lemma insert_before_spliced s : n ∉ h :: xs ++ ys -> chain s h (xs ++ ys ++ [h]) -> spliced p n q s (rt_list_insert_before q n s).
Proof.
  intros Hn. rewrite chain_app. intros [_ [[A1 A2] _]%behind].
  assert (p <> n) as Hpn by (intros E; apply Hn; rewrite <- E; rewrite app_comm_cons; apply elem_of_app; left; apply last_in).
  unfold rt_list_insert_before, set_next, set_prev. cbn [next prev]. rewrite !A2.
  assert (n <> q) as Hqn by (intros ->; apply Hn; destruct ys; cbn; [left|right; apply elem_of_app; right; left]).
  split; cbn [next prev].
  - rewrite !fn_lookup_insert. split_and!; try done.
    + by rewrite fn_lookup_insert_ne, fn_lookup_insert by done.
    + by rewrite fn_lookup_insert_ne, fn_lookup_insert by done.
  - intros x Hxp Hxn. by rewrite !fn_lookup_insert_ne by congruence.
  - intros x Hxq Hxn. by rewrite !fn_lookup_insert_ne by congruence.
Qed.

Lemma remove_taken s : n ∉ h :: xs ++ ys -> chain s h (xs ++ n :: ys ++ [h]) -> taken p n q s (rt_list_remove n s).
Proof.
  intros Hn. rewrite chain_app. intros (_ & [A1 A2] & B).
  assert (next s n = q /\ prev s q = n) as [B1 B2] by (destruct ys; cbn in *; apply B).
  assert (p <> n) as Hpn by (intros E; apply Hn; rewrite <- E; rewrite app_comm_cons; apply elem_of_app; left; apply last_in).
  assert (n <> q) as Hqn by (intros ->; apply Hn; destruct ys; cbn; [left|right; apply elem_of_app; right; left]).
  unfold rt_list_remove, set_next, set_prev. cbn [next prev]. rewrite !B1, !A2.
  rewrite (fn_lookup_insert_ne (prev s) q n) by congruence. rewrite A2. split; cbn [next prev].
  - rewrite (fn_lookup_insert_ne _ n p), (fn_lookup_insert_ne _ n q) by congruence. by rewrite !fn_lookup_insert.
  - by rewrite !fn_lookup_insert.
  - intros x Hxp Hxn. by rewrite !fn_lookup_insert_ne by congruence.
  - intros x Hxq Hxn. by rewrite !fn_lookup_insert_ne by congruence.
Qed.
End Ring.
End Code.
Arguments links : clear implicits.

(** ** Lists of elements *)

(** A node is the head of a list or the node embedded in an element. *)
Inductive node (H T : Type) : Type := Head (h : H) | Elem (t : T).
Arguments Head {H T}.
Arguments Elem {H T}.

#[export] Instance node_eq_dec {H T : Type} `{EqDecision H, EqDecision T} : EqDecision (node H T).
Proof. solve_decision. Defined.

Section Rings.
Context {H T : Type} `{EqDecision H, EqDecision T}.
Abbreviation N := (node H T).
Implicit Types (s : links N) (Q : H -> list T) (h : H) (t u : T).

(** The elements of every list, in order. *)
Abbreviation rings := (H -> list T).

Definition in_no_list Q t : Prop := forall h, t ∉ Q h.

(** The links are those of the lists [Q], and every other element is alone. *)
Record linked s Q : Prop := {
  lk_ring : forall h, chain s (Head h) ((Elem <$> Q h) ++ [Head h]);
  lk_nodup : forall h, NoDup (Q h);
  lk_unique : forall h h' t, t ∈ Q h -> t ∈ Q h' -> h = h';
  lk_alone : forall t, in_no_list Q t -> next s (Elem t) = Elem t /\ prev s (Elem t) = Elem t
}.

#[export] Instance linked_proper : Proper (eq ==> pointwise_relation H eq ==> iff) linked.
Proof.
  assert (forall s Q Q', (forall h, Q h = Q' h) -> linked s Q -> linked s Q') as Hi.
  { intros s Q Q' E [R Nd U A]. split.
    - intros h. rewrite <- E. apply R.
    - intros h. rewrite <- E. apply Nd.
    - intros h h' t. rewrite <- !E. apply U.
    - intros t Hn. apply A. intros h. rewrite E. apply Hn. }
  intros s _ <- Q Q' E. split; apply Hi; intros h; [|symmetry]; apply E.
Qed.

(** No list, nothing linked. *)
Lemma linked_none : linked (Links id id) (fun _ => []).
Proof. split; intros; [done|constructor|by apply elem_of_nil in H0|done]. Qed.

Lemma ring_nodup Q h : NoDup (Q h) -> NoDup (Head h :: (Elem <$> Q h) : list N).
Proof.
  intros Hd. apply NoDup_cons. split; [intros (x & E & _)%list_elem_of_fmap; discriminate|].
  apply NoDup_fmap_2; [|done]. by intros ?? [= ->].
Qed.
Lemma not_in_ring Q h t : t ∉ Q h -> Elem t ∉ (Head h :: (Elem <$> Q h) : list N).
Proof. intros Hn [E|(x & E & Hx)%list_elem_of_fmap]%elem_of_cons; [discriminate|]. by injection E as <-. Qed.

(** Rings do not share nodes, so what changes in one leaves the others. *)
Lemma other_ring s s' Q h h' (p q : N) t :
  linked s Q -> h <> h' -> p ∈ Head h :: (Elem <$> Q h) -> q ∈ Head h :: (Elem <$> Q h) -> t ∉ Q h' ->
  (forall x, x <> p -> x <> Elem t -> next s' x = next s x) -> (forall x, x <> q -> x <> Elem t -> prev s' x = prev s x) ->
  chain s' (Head h') ((Elem <$> Q h') ++ [Head h']).
Proof.
  intros [R Nd U A] Hne Hp Hq Ht Hnx Hpv.
  assert (forall x : N, x ∈ Head h :: (Elem <$> Q h) -> x ∈ Head h' :: (Elem <$> Q h') -> False) as Hdis.
  { intros x [->|(a & -> & Ha)%list_elem_of_fmap]%elem_of_cons [E|(b & E & Hb)%list_elem_of_fmap]%elem_of_cons; try discriminate.
    - by injection E.
    - injection E as <-. apply Hne. by apply (U h h' a). }
  apply (chain_ext s); [| |apply R].
  - intros x Hx. rewrite app_comm_cons, removelast_last in Hx. apply Hnx.
    + intros ->. by apply (Hdis p).
    + intros ->. by apply (not_in_ring Q h' t).
  - intros x Hx. assert (x ∈ (Head h' :: (Elem <$> Q h') : list N)) as Hx'.
    { apply elem_of_app in Hx as [Hx|Hx%list_elem_of_singleton]; [by right|subst; left]. }
    apply Hpv; [intros ->; by apply (Hdis q)|intros ->; by apply (not_in_ring Q h' t)].
Qed.

Abbreviation before xs h := (List.last (Head h :: (Elem <$> xs)) (Head h) : N).
Abbreviation behind_of ys h := (hd (Head h) (Elem <$> ys) : N).

Lemma before_in xs ys h : before xs h ∈ (Head h :: (Elem <$> xs ++ ys) : list N).
Proof. rewrite fmap_app, app_comm_cons. apply elem_of_app. left. apply last_in. Qed.
Lemma behind_in xs ys h : behind_of ys h ∈ (Head h :: (Elem <$> xs ++ ys) : list N).
Proof. destruct ys; cbn; [left|]. right. rewrite fmap_app. apply elem_of_app. right. left. Qed.

(** Insertion at any place of a list. *)
Lemma linked_spliced s s' Q h xs ys t :
  linked s Q -> in_no_list Q t -> Q h = xs ++ ys -> spliced (before xs h) (Elem t) (behind_of ys h) s s' ->
  linked s' (<[h := xs ++ t :: ys]> Q).
Proof.
  intros L Ht E Hs. pose proof L as [R Nd U A]. split.
  - intros h'. destruct (decide (h' = h)) as [->|Hne].
    + rewrite fn_lookup_insert, fmap_app, fmap_cons, <- app_assoc. apply (ring_insert _ _ _ _ s); [| |done|].
      * rewrite <- fmap_app, <- E. apply ring_nodup, Nd.
      * rewrite <- fmap_app, <- E. apply not_in_ring, Ht.
      * specialize (R h). by rewrite E, fmap_app, <- app_assoc in R.
    + rewrite fn_lookup_insert_ne by done. destruct Hs as [_ Hnx Hpv].
      apply (other_ring s s' Q h h' (before xs h) (behind_of ys h) t); try done; try apply Ht; rewrite E; [apply before_in|apply behind_in].
  - intros h'. destruct (decide (h' = h)) as [->|Hne]; [|rewrite fn_lookup_insert_ne by done; apply Nd].
    rewrite fn_lookup_insert, <- Permutation_middle, <- E. apply NoDup_cons. split; [apply Ht|apply Nd].
  - assert (forall h' u, u ∈ (<[h := xs ++ t :: ys]> Q) h' -> (u = t /\ h' = h) \/ u ∈ Q h') as Hin.
    { intros h' u. destruct (decide (h' = h)) as [->|Hne]; [|rewrite fn_lookup_insert_ne by done; tauto].
      rewrite fn_lookup_insert, <- Permutation_middle, <- E, elem_of_cons. tauto. }
    intros h1 h2 u [[-> ->]|H1]%Hin [[E2 ->]|H2]%Hin; [done|by destruct (Ht h2)|subst; by destruct (Ht h1)|by apply (U _ _ u)].
  - intros u Hu. assert (u <> t) as Hne.
    { intros ->. apply (Hu h). rewrite fn_lookup_insert. apply elem_of_app. right. left. }
    assert (in_no_list Q u) as Hu'.
    { intros h' Hin. apply (Hu h'). destruct (decide (h' = h)) as [->|]; [|by rewrite fn_lookup_insert_ne].
      rewrite fn_lookup_insert, <- Permutation_middle, <- E. by right. }
    destruct Hs as [_ Hnx Hpv]. specialize (A u Hu').
    assert (Elem u ∉ (Head h :: (Elem <$> Q h) : list N)) as Hnu by apply not_in_ring, Hu'.
    rewrite Hnx, Hpv; [done| |congruence| |congruence]; intros E'; apply Hnu; rewrite E', E; [apply behind_in|apply before_in].
Qed.

(** The lists without an element. *)
Definition without t Q : rings := fun h => filter (fun u => u <> t) (Q h).

Lemma filter_ne_notin t (l : list T) : t ∉ l -> filter (fun u => u <> t) l = l.
Proof.
  induction l as [|u l IH]; intros Hn; [done|]. apply not_elem_of_cons in Hn as [Hu Hl].
  rewrite filter_cons_True by congruence. by rewrite IH.
Qed.
Lemma filter_ne_split t xs ys : NoDup (xs ++ t :: ys) -> filter (fun u => u <> t) (xs ++ t :: ys) = xs ++ ys.
Proof.
  intros (_ & Hx & [Hy _]%NoDup_cons)%NoDup_app.
  rewrite filter_app, filter_cons_False by tauto. rewrite !filter_ne_notin; [done|done|]. intros Hin. apply (Hx t Hin). left.
Qed.

Lemma elem_of_without t u Q h : u ∈ without t Q h <-> u <> t /\ u ∈ Q h.
Proof. unfold without. by rewrite list_elem_of_filter. Qed.
Lemma without_notin t Q : in_no_list Q t -> pointwise_relation H eq (without t Q) Q.
Proof. intros Hn h. apply filter_ne_notin, Hn. Qed.
Lemma without_in t Q : in_no_list (without t Q) t.
Proof. intros h [Hne _]%elem_of_without. done. Qed.
Lemma without_at s t Q h xs ys h' : linked s Q -> Q h = xs ++ t :: ys ->
  without t Q h' = if decide (h' = h) then xs ++ ys else Q h'.
Proof.
  intros [R Nd U A] E. unfold without. case_decide as Hh; [subst; rewrite E; apply filter_ne_split; rewrite <- E; apply Nd|].
  apply filter_ne_notin. intros Hin. apply Hh, (U _ _ t); [done|]. rewrite E. apply elem_of_app. right. left.
Qed.

Lemma linked_taken s s' Q h xs ys t :
  linked s Q -> Q h = xs ++ t :: ys -> taken (before xs h) (Elem t) (behind_of ys h) s s' -> linked s' (without t Q).
Proof.
  intros L E Hs. pose proof L as [R Nd U A]. pose proof (fun h' => without_at s t Q h xs ys h' L E) as Hw.
  pose proof (Nd h) as Hd. rewrite E, <- Permutation_middle in Hd. apply NoDup_cons in Hd as [Hn Hd]. split.
  - intros h'. rewrite Hw. case_decide as Hh.
    + subst h'. rewrite fmap_app, <- app_assoc. apply (ring_remove _ _ _ (Elem t) s); [| |done|].
      * rewrite <- fmap_app. by apply (ring_nodup (fun _ => xs ++ ys) h).
      * rewrite <- fmap_app. by apply (not_in_ring (fun _ => xs ++ ys) h).
      * specialize (R h). by rewrite E, fmap_app, fmap_cons, <- app_assoc in R.
    + destruct Hs as [_ _ Hnx Hpv].
      apply (other_ring s s' Q h h' (before xs h) (behind_of ys h) t); try done.
      * rewrite E. apply before_in.
      * rewrite E. rewrite (fmap_app _ xs). destruct ys; cbn; [left|]. right. apply elem_of_app. right. right. left.
      * intros Hin. apply Hh, (U _ _ t); [done|]. rewrite E. apply elem_of_app. right. left.
  - intros h'. apply NoDup_filter, Nd.
  - intros h1 h2 u [_ H1]%elem_of_without [_ H2]%elem_of_without. by apply (U _ _ u).
  - intros u Hu. destruct Hs as [_ Halone Hnx Hpv]. destruct (decide (u = t)) as [->|Hne]; [done|].
    assert (in_no_list Q u) as Hu' by (intros h' Hin; apply (Hu h'); by apply elem_of_without).
    specialize (A u Hu'). assert (Elem u ∉ (Head h :: (Elem <$> Q h) : list N)) as Hnu by apply not_in_ring, Hu'.
    rewrite Hnx, Hpv; [done| |congruence| |congruence]; intros E'; apply Hnu; rewrite E', E.
    + rewrite (fmap_app _ xs). destruct ys; cbn; [left|]. right. apply elem_of_app. right. right. left.
    + apply before_in.
Qed.

(** ** What the operations do to the lists *)

Lemma insert_place s Q h xs ys t : linked s Q -> in_no_list Q t -> Q h = xs ++ ys ->
  linked (rt_list_insert_after (before xs h) (Elem t) s) (<[h := xs ++ t :: ys]> Q) /\
  linked (rt_list_insert_before (behind_of ys h) (Elem t) s) (<[h := xs ++ t :: ys]> Q).
Proof.
  intros L Ht E. pose proof L as [R _ _ _]. specialize (R h). rewrite E, fmap_app, <- app_assoc in R.
  assert (Elem t ∉ (Head h :: (Elem <$> xs) ++ (Elem <$> ys) : list N)) as Hn.
  { rewrite <- fmap_app, <- E. apply not_in_ring, Ht. }
  split; apply (linked_spliced s); try done; [by apply insert_after_spliced|by apply insert_before_spliced].
Qed.

(** At the end and at the beginning of a list. *)
Lemma linked_append s Q h t : linked s Q -> in_no_list Q t ->
  linked (rt_list_insert_before (Head h) (Elem t) s) (<[h := Q h ++ [t]]> Q).
Proof. intros L Ht. apply (insert_place s Q h (Q h) [] t L Ht). by rewrite app_nil_r. Qed.
Lemma linked_push s Q h t : linked s Q -> in_no_list Q t ->
  linked (rt_list_insert_after (Head h) (Elem t) s) (<[h := t :: Q h]> Q).
Proof. intros L Ht. by apply (insert_place s Q h [] (Q h) t L Ht). Qed.

(** Next to an element. *)
Lemma linked_before s Q h xs u ys t : linked s Q -> in_no_list Q t -> Q h = xs ++ u :: ys ->
  linked (rt_list_insert_before (Elem u) (Elem t) s) (<[h := xs ++ t :: u :: ys]> Q).
Proof. intros L Ht E. by apply (insert_place s Q h xs (u :: ys) t L Ht). Qed.
Lemma linked_after s Q h xs u ys t : linked s Q -> in_no_list Q t -> Q h = xs ++ u :: ys ->
  linked (rt_list_insert_after (Elem u) (Elem t) s) (<[h := xs ++ u :: t :: ys]> Q).
Proof.
  intros L Ht E. destruct (insert_place s Q h (xs ++ [u]) ys t L Ht) as [H1 _]; [by rewrite <- app_assoc|].
  rewrite <- app_assoc in H1. assert (before (xs ++ [u]) h = Elem u) as E'; [|by rewrite E' in H1].
  rewrite fmap_app. change (Head h :: (Elem <$> xs) ++ (Elem <$> [u])) with ((Head h :: (Elem <$> xs)) ++ [Elem u] : list N). by rewrite List.last_last.
Qed.

(** An element leaves the list it is in, and nothing happens when it is in none. *)
Lemma linked_remove_in s Q h t : linked s Q -> t ∈ Q h -> linked (rt_list_remove (Elem t) s) (without t Q).
Proof.
  intros L (xs & ys & E)%list_elem_of_split. pose proof L as [R Nd _ _]. specialize (R h).
  apply (linked_taken s _ Q h xs ys t L E), remove_taken.
  - rewrite <- fmap_app. pose proof (Nd h) as Hd. rewrite E, <- Permutation_middle in Hd. apply NoDup_cons in Hd as [Hn _].
    by apply (not_in_ring (fun _ => xs ++ ys) h).
  - by rewrite E, fmap_app, fmap_cons, <- app_assoc in R.
Qed.
(** Pointers that lead where they led. *)
Lemma linked_same s s' Q : (forall x, next s' x = next s x /\ prev s' x = prev s x) -> linked s Q -> linked s' Q.
Proof.
  intros Hsame [R Nd U A]. split; try done.
  - intros h. apply (chain_ext s); [intros; apply Hsame|intros; apply Hsame|apply R].
  - intros u Hu. destruct (Hsame (Elem u)) as [-> ->]. by apply A.
Qed.
Lemma linked_remove_alone s Q t : linked s Q -> in_no_list Q t -> linked (rt_list_remove (Elem t) s) Q.
Proof.
  intros L Hn. destruct (lk_alone _ _ L t Hn) as [A1 A2]. apply (linked_same s); [|done]. intros x.
  unfold rt_list_remove, set_next, set_prev. cbn [next prev]. rewrite A1, A2, fn_lookup_insert.
  split; destruct (decide (x = Elem t)) as [->|]; by rewrite ?fn_lookup_insert, ?fn_lookup_insert_ne by congruence.
Qed.
Lemma linked_remove s Q t : linked s Q -> (exists h, t ∈ Q h) \/ in_no_list Q t ->
  linked (rt_list_remove (Elem t) s) (without t Q).
Proof.
  intros L [[h Hh]|Hn]; [by apply (linked_remove_in s Q h)|]. rewrite without_notin by done. by apply linked_remove_alone.
Qed.

(** Initialising the head of an empty list, or an element that is alone, again changes nothing. *)
Lemma linked_init_at s Q n : linked s Q -> next s n = n -> prev s n = n -> linked (rt_list_init n s) Q.
Proof.
  intros L A1 A2. apply (linked_same s); [|done]. intros x. unfold rt_list_init, set_next, set_prev. cbn [next prev].
  split; destruct (decide (x = n)) as [->|]; by rewrite ?fn_lookup_insert, ?fn_lookup_insert_ne by congruence.
Qed.
Lemma linked_init s Q h : linked s Q -> Q h = [] -> linked (rt_list_init (Head h) s) Q.
Proof. intros L E. pose proof (lk_ring _ _ L h) as Rh. rewrite E in Rh. destruct Rh as [[A1 A2] _]. by apply linked_init_at. Qed.
Lemma linked_init_alone s Q t : linked s Q -> in_no_list Q t -> linked (rt_list_init (Elem t) s) Q.
Proof. intros L Hn. by apply linked_init_at; [|apply (lk_alone _ _ L t Hn)..]. Qed.

(** Where the pointers lead. *)
Lemma next_head s Q h : linked s Q -> next s (Head h) = behind_of (Q h) h.
Proof. intros [R _ _ _]. specialize (R h). destruct (Q h); apply R. Qed.
Lemma next_elem s Q h xs t ys : linked s Q -> Q h = xs ++ t :: ys -> next s (Elem t) = behind_of ys h.
Proof.
  intros [R _ _ _] E. specialize (R h). rewrite E, fmap_app, fmap_cons, <- app_assoc in R.
  apply chain_app in R as [_ R]. destruct ys; apply R.
Qed.
Lemma next_before s Q h xs ys : linked s Q -> Q h = xs ++ ys -> next s (before xs h) = behind_of ys h.
Proof.
  intros [R _ _ _] E. specialize (R h). rewrite E, fmap_app, <- app_assoc in R. apply chain_app in R as [_ R].
  apply (behind (Head h) (Elem <$> xs) (Elem <$> ys)) in R. apply R.
Qed.
Lemma before_last xs ys h : NoDup (xs ++ ys) -> before xs h = before (xs ++ ys) h -> ys = [].
Proof.
  intros Hd E. destruct ys as [|y ys _] using rev_ind; [done|]. exfalso.
  assert (before (xs ++ ys ++ [y]) h = Elem y) as E'.
  { rewrite !fmap_app, !app_assoc, app_comm_cons. apply List.last_last. }
  rewrite E' in E. pose proof (last_in (Head h) (Elem <$> xs) (Head h)) as Hin. rewrite E in Hin.
  apply elem_of_cons in Hin as [|(x & [= <-] & Hx)%list_elem_of_fmap]; [discriminate|].
  apply NoDup_app in Hd as (_ & Hd & _). apply (Hd y Hx). apply elem_of_app. right. left.
Qed.
Lemma prev_head s Q h : linked s Q -> prev s (Head h) = before (Q h) h.
Proof. intros [R _ _ _]. specialize (R h). apply chain_app in R as [_ R]. by destruct R as [[_ R] _]. Qed.

Lemma isempty_spec s Q h : linked s Q -> rt_list_isempty (Head h) s = bool_decide (Q h = []).
Proof. intros L. unfold rt_list_isempty. rewrite (next_head s Q h L). destruct (Q h) as [|t l]; cbn; [by rewrite !bool_decide_true|by rewrite !bool_decide_false]. Qed.
End Rings.
