(* ===== verification/Kernel.v ===== *)
(** * The scheduler

    Models the single-core RT-Thread kernel under the threads:
    [rt-thread/src/scheduler.c], [thread.c], [timer.c] and [clock.c] with the configuration
    of [rtconfig.h] (32 priorities, one row per timer list). The code runs with interrupts
    disabled, so an operation is one step; [rt_schedule] sets [rt_current_thread], and what
    its caller does when it runs again is the caller's next step. The ready lists, the
    waiting lists and the timer list are the linked lists of RtList.v. A thread's own timer
    is a hard, one-shot timer whose timeout function is [rt_thread_timeout]; soft timers,
    other timers, the object lists and the stacks are left out. *)

From stdpp Require Import base numbers functions list.
From Stdlib Require Import ZArith Lia Sorted.
From S2P Require Import Prelude RtList.

Open Scope Z_scope.

(** ** Data *)

(** A thread control block is its number; NULL is [None]. *)
Abbreviation tid := nat.

Definition RT_ETIMEOUT : Z := 2.
Definition RT_EFULL : Z := 3.
Definition RT_TICK_MAX : Z := 0xffffffff.
Definition RT_THREAD_PRIORITY_MAX : Z := 32.
Definition RT_MAIN_THREAD_PRIORITY : Z := 10.
Definition RT_TIMER_THREAD_PRIO : Z := 4.

Definition RT_THREAD_INIT : Z := 0.
Definition RT_THREAD_READY : Z := 1.
Definition RT_THREAD_SUSPEND : Z := 2.
Definition RT_THREAD_RUNNING : Z := 3.
Definition RT_THREAD_CLOSE : Z := 4.
Definition RT_THREAD_STAT_MASK : Z := 7.
Definition RT_THREAD_STAT_YIELD : Z := 8.

Definition RT_TIMER_FLAG_ACTIVATED : Z := 1.
Definition RT_TIMER_FLAG_PERIODIC : Z := 2.

(** The lists a thread's node can be in. The waiting lists of the kernel's objects are
    numbered. *)
Inductive queue : Set := Ready (p : Z) | Defunct | SemList (s : nat) | MutexList (m : nat) | EventList (e : nat).
#[export] Instance queue_eq_dec : EqDecision queue.
Proof. solve_decision. Defined.

(** [rt_timer_list] and the temporary list of [rt_timer_check]. *)
Inductive timer_queue : Set := TimerList | Expired.
#[export] Instance timer_queue_eq_dec : EqDecision timer_queue.
Proof. solve_decision. Defined.

Record rt_timer : Type := Rt_timer { flag : Z; init_tick : Z; timeout_tick : Z }.

Record rt_thread : Type := Rt_thread {
  stat : Z;
  error : Z;
  current_priority : Z;
  init_priority : Z;
  number_mask : Z;
  event_set : Z;
  event_info : Z;
  slice : Z;              (* init_tick *)
  remaining_tick : Z
}.

Record kernel : Type := Kernel {
  thread : tid -> rt_thread;
  thread_timer : tid -> rt_timer;
  tlists : links (node queue tid);
  rows : links (node timer_queue tid);
  rt_thread_ready_priority_group : Z;
  rt_scheduler_lock_nest : Z;
  rt_current_thread : option tid;
  rt_current_priority : Z;
  rt_interrupt_nest : Z;
  rt_tick : Z;
  thread_count : nat      (* the threads are the numbers below it *)
}.

Definition set_thread (t : tid) (x : rt_thread) (k : kernel) : kernel :=
  Kernel (<[t := x]> (thread k)) (thread_timer k) (tlists k) (rows k) (rt_thread_ready_priority_group k)
    (rt_scheduler_lock_nest k) (rt_current_thread k) (rt_current_priority k) (rt_interrupt_nest k) (rt_tick k) (thread_count k).
Definition set_timer (t : tid) (x : rt_timer) (k : kernel) : kernel :=
  Kernel (thread k) (<[t := x]> (thread_timer k)) (tlists k) (rows k) (rt_thread_ready_priority_group k)
    (rt_scheduler_lock_nest k) (rt_current_thread k) (rt_current_priority k) (rt_interrupt_nest k) (rt_tick k) (thread_count k).
Definition set_tlists (l : links (node queue tid)) (k : kernel) : kernel :=
  Kernel (thread k) (thread_timer k) l (rows k) (rt_thread_ready_priority_group k)
    (rt_scheduler_lock_nest k) (rt_current_thread k) (rt_current_priority k) (rt_interrupt_nest k) (rt_tick k) (thread_count k).
Definition set_rows (l : links (node timer_queue tid)) (k : kernel) : kernel :=
  Kernel (thread k) (thread_timer k) (tlists k) l (rt_thread_ready_priority_group k)
    (rt_scheduler_lock_nest k) (rt_current_thread k) (rt_current_priority k) (rt_interrupt_nest k) (rt_tick k) (thread_count k).
Definition set_group (g : Z) (k : kernel) : kernel :=
  Kernel (thread k) (thread_timer k) (tlists k) (rows k) g
    (rt_scheduler_lock_nest k) (rt_current_thread k) (rt_current_priority k) (rt_interrupt_nest k) (rt_tick k) (thread_count k).
Definition set_lock_nest (n : Z) (k : kernel) : kernel :=
  Kernel (thread k) (thread_timer k) (tlists k) (rows k) (rt_thread_ready_priority_group k)
    n (rt_current_thread k) (rt_current_priority k) (rt_interrupt_nest k) (rt_tick k) (thread_count k).
Definition set_current (t : option tid) (p : Z) (k : kernel) : kernel :=
  Kernel (thread k) (thread_timer k) (tlists k) (rows k) (rt_thread_ready_priority_group k)
    (rt_scheduler_lock_nest k) t p (rt_interrupt_nest k) (rt_tick k) (thread_count k).
Definition set_interrupt_nest (n : Z) (k : kernel) : kernel :=
  Kernel (thread k) (thread_timer k) (tlists k) (rows k) (rt_thread_ready_priority_group k)
    (rt_scheduler_lock_nest k) (rt_current_thread k) (rt_current_priority k) n (rt_tick k) (thread_count k).
Definition set_tick (n : Z) (k : kernel) : kernel :=
  Kernel (thread k) (thread_timer k) (tlists k) (rows k) (rt_thread_ready_priority_group k)
    (rt_scheduler_lock_nest k) (rt_current_thread k) (rt_current_priority k) (rt_interrupt_nest k) n (thread_count k).

Definition set_stat (v : Z) (x : rt_thread) : rt_thread :=
  Rt_thread v (error x) (current_priority x) (init_priority x) (number_mask x) (event_set x) (event_info x) (slice x) (remaining_tick x).
Definition set_error (v : Z) (x : rt_thread) : rt_thread :=
  Rt_thread (stat x) v (current_priority x) (init_priority x) (number_mask x) (event_set x) (event_info x) (slice x) (remaining_tick x).
Definition set_priority (p mask : Z) (x : rt_thread) : rt_thread :=
  Rt_thread (stat x) (error x) p (init_priority x) mask (event_set x) (event_info x) (slice x) (remaining_tick x).
Definition set_event (s i : Z) (x : rt_thread) : rt_thread :=
  Rt_thread (stat x) (error x) (current_priority x) (init_priority x) (number_mask x) s i (slice x) (remaining_tick x).
Definition set_remaining (v : Z) (x : rt_thread) : rt_thread :=
  Rt_thread (stat x) (error x) (current_priority x) (init_priority x) (number_mask x) (event_set x) (event_info x) (slice x) v.
Definition set_flag (v : Z) (x : rt_timer) : rt_timer := Rt_timer v (init_tick x) (timeout_tick x).
Definition set_init_tick (v : Z) (x : rt_timer) : rt_timer := Rt_timer (flag x) v (timeout_tick x).
Definition set_timeout_tick (v : Z) (x : rt_timer) : rt_timer := Rt_timer (flag x) (init_tick x) v.

Definition upd_thread (t : tid) (f : rt_thread -> rt_thread) : M kernel unit := modify (fun k => set_thread t (f (thread k t)) k).
Definition upd_timer (t : tid) (f : rt_timer -> rt_timer) : M kernel unit := modify (fun k => set_timer t (f (thread_timer k t)) k).
Definition on_tlists (f : links (node queue tid) -> links (node queue tid)) : M kernel unit := modify (fun k => set_tlists (f (tlists k)) k).
Definition on_rows (f : links (node timer_queue tid) -> links (node timer_queue tid)) : M kernel unit := modify (fun k => set_rows (f (rows k)) k).

(** [stat & RT_THREAD_STAT_MASK], and the assignment that keeps the other bits. *)
Definition status (x : rt_thread) : Z := Z.land (stat x) RT_THREAD_STAT_MASK.
Definition with_status (v : Z) (x : rt_thread) : rt_thread := set_stat (Z.lor v (Z.land (stat x) (Z.lnot RT_THREAD_STAT_MASK))) x.

(** [&rt_thread_priority_table[p]]. *)
Definition priority_list (p : Z) : M kernel (node queue tid) :=
  if (0 <=? p) && (p <? RT_THREAD_PRIORITY_MAX) then ret (Head (Ready p)) else raise OutOfBounds.

(** [rt_list_entry] of a node: reading a list's head as the structure is out of bounds. *)
Definition entry {H : Type} (n : node H tid) : M kernel tid :=
  match n with Elem t => ret t | Head _ => raise OutOfBounds end.

(** ** scheduler.c *)

Fixpoint trailing_zeros (p : positive) : Z :=
  match p with xO p => trailing_zeros p + 1 | _ => 0 end.
Definition __rt_ffs (v : Z) : Z := match v with Zpos p => trailing_zeros p + 1 | _ => 0 end.

Definition _get_highest_priority_thread : M kernel (tid * Z) :=
  g <- gets rt_thread_ready_priority_group ;;
  let highest := __rt_ffs g - 1 in
  h <- priority_list highest ;;
  n <- gets (fun k => next (tlists k) h) ;;
  t <- entry n ;;
  ret (t, highest).

Definition rt_thread_self : M kernel (option tid) := gets rt_current_thread.

(** [rt_current_thread] where the code reads it through. *)
Definition self : M kernel tid :=
  c <- rt_thread_self ;; match c with Some t => ret t | None => raise NullAccess end.

Definition rt_schedule_insert_thread (t : tid) : M kernel unit :=
  c <- rt_thread_self ;;
  if bool_decide (c = Some t) then upd_thread t (with_status RT_THREAD_RUNNING)
  else
    upd_thread t (with_status RT_THREAD_READY) ;;;
    p <- gets (fun k => current_priority (thread k t)) ;;
    h <- priority_list p ;;
    on_tlists (rt_list_insert_before h (Elem t)) ;;;
    modify (fun k => set_group (Z.lor (rt_thread_ready_priority_group k) (number_mask (thread k t))) k).

Definition rt_schedule_remove_thread (t : tid) : M kernel unit :=
  on_tlists (rt_list_remove (Elem t)) ;;;
  p <- gets (fun k => current_priority (thread k t)) ;;
  h <- priority_list p ;;
  empty <- gets (fun k => rt_list_isempty h (tlists k)) ;;
  when empty (modify (fun k => set_group (Z.land (rt_thread_ready_priority_group k) (Z.lnot (number_mask (thread k t)))) k)).

(** The switch at the end of [rt_schedule]. *)
Definition switch_to (c to_thread : tid) (highest : Z) (need_insert_from_thread : bool) : M kernel unit :=
  if negb (bool_decide (to_thread = c)) then
    modify (set_current (Some to_thread) (u8 highest)) ;;;
    when need_insert_from_thread (rt_schedule_insert_thread c) ;;;
    rt_schedule_remove_thread to_thread ;;;
    upd_thread to_thread (with_status RT_THREAD_RUNNING)
  else
    rt_schedule_remove_thread c ;;;
    upd_thread c (with_status RT_THREAD_RUNNING).

Definition rt_schedule : M kernel unit :=
  nest <- gets rt_scheduler_lock_nest ;;
  when (nest =? 0)
   (g <- gets rt_thread_ready_priority_group ;;
    when (negb (g =? 0))
     (best <- _get_highest_priority_thread ;;
      let '(to_thread, highest) := best in
      c <- self ;;
      x <- gets (fun k => thread k c) ;;
      choice <- (if status x =? RT_THREAD_RUNNING then
                   upd_thread c (fun x => set_stat (Z.land (stat x) (Z.lnot RT_THREAD_STAT_YIELD)) x) ;;;
                   ret (if current_priority x <? highest then (c, false)
                        else if (current_priority x =? highest) && (Z.land (stat x) RT_THREAD_STAT_YIELD =? 0) then (c, false)
                        else (to_thread, true))
                 else ret (to_thread, false)) ;;
      let '(to_thread, need_insert_from_thread) := choice in
      switch_to c to_thread highest need_insert_from_thread)).

Definition rt_system_scheduler_init : M kernel unit :=
  modify (set_lock_nest 0) ;;;
  for_each (seqZ 0 RT_THREAD_PRIORITY_MAX) (fun offset => on_tlists (rt_list_init (Head (Ready offset)))) ;;;
  modify (set_group 0) ;;;
  on_tlists (rt_list_init (Head Defunct)).

Definition rt_system_scheduler_start : M kernel unit :=
  best <- _get_highest_priority_thread ;;
  let '(to_thread, _) := best in
  modify (fun k => set_current (Some to_thread) (rt_current_priority k) k) ;;;
  rt_schedule_remove_thread to_thread ;;;
  upd_thread to_thread (set_stat RT_THREAD_RUNNING).

Definition rt_enter_critical : M kernel unit :=
  modify (fun k => set_lock_nest (swrap 16 (rt_scheduler_lock_nest k + 1)) k).

Definition rt_exit_critical : M kernel unit :=
  modify (fun k => set_lock_nest (swrap 16 (rt_scheduler_lock_nest k - 1)) k) ;;;
  n <- gets rt_scheduler_lock_nest ;;
  when (n <=? 0)
   (modify (set_lock_nest 0) ;;;
    c <- rt_thread_self ;;
    when (bool_decide (is_Some c)) rt_schedule).

(** ** timer.c *)

Definition _rt_timer_init (t : tid) (time f : Z) : M kernel unit :=
  upd_timer t (fun _ => Rt_timer (Z.land f (Z.lnot RT_TIMER_FLAG_ACTIVATED)) time 0) ;;;
  on_rows (rt_list_init (Elem t)).

Definition _rt_timer_remove (t : tid) : M kernel unit := on_rows (rt_list_remove (Elem t)).

Definition activated (x : rt_timer) : bool := negb (Z.land (flag x) RT_TIMER_FLAG_ACTIVATED =? 0).
Definition deactivate (x : rt_timer) : rt_timer := set_flag (Z.land (flag x) (Z.lnot RT_TIMER_FLAG_ACTIVATED)) x.

Definition rt_timer_detach (t : tid) : M kernel Z :=
  _rt_timer_remove t ;;;
  upd_timer t deactivate ;;;
  ret RT_EOK.

Definition rt_timer_stop (t : tid) : M kernel Z :=
  x <- gets (fun k => thread_timer k t) ;;
  if negb (activated x) then ret (- RT_ERROR)
  else
    _rt_timer_remove t ;;;
    upd_timer t deactivate ;;;
    ret RT_EOK.

Definition rt_system_timer_init : M kernel unit := on_rows (rt_list_init (Head TimerList)).

(** The commands of [rt_timer_control] that the kernel gives to a thread's timer. *)
Definition rt_timer_set_time (t : tid) (time : Z) : M kernel unit := upd_timer t (set_init_tick (u32 time)).

(** The loop of [rt_timer_start]: from [row_head] to the node the timer goes behind. *)
Fixpoint row_search (fuel : nat) (t : tid) (row_head : node timer_queue tid) : M kernel (node timer_queue tid) :=
  match fuel with
  | O => raise OutOfBounds
  | S fuel =>
      last <- gets (fun k => prev (rows k) (Head TimerList)) ;;
      if bool_decide (row_head = last) then ret row_head
      else
        p <- gets (fun k => next (rows k) row_head) ;;
        u <- entry p ;;
        delta <- gets (fun k => u32 (timeout_tick (thread_timer k u) - timeout_tick (thread_timer k t))) ;;
        if delta =? 0 then row_search fuel t p
        else if delta <? RT_TICK_MAX / 2 then ret row_head
        else row_search fuel t p
  end.

Definition rt_timer_start (t : tid) : M kernel Z :=
  _rt_timer_remove t ;;;
  upd_timer t deactivate ;;;
  x <- gets (fun k => thread_timer k t) ;;
  rt_assert (init_tick x <? RT_TICK_MAX / 2) ;;;
  now <- gets rt_tick ;;
  upd_timer t (set_timeout_tick (u32 (now + init_tick x))) ;;;
  n <- gets thread_count ;;
  row_head <- row_search (S n) t (Head TimerList) ;;
  on_rows (rt_list_insert_after row_head (Elem t)) ;;;
  upd_timer t (fun x => set_flag (Z.lor (flag x) RT_TIMER_FLAG_ACTIVATED) x) ;;;
  ret RT_EOK.

(** ** thread.c *)

Definition _rt_thread_init (t : tid) (priority tick : Z) : M kernel Z :=
  on_tlists (rt_list_init (Elem t)) ;;;
  rt_assert (priority <? RT_THREAD_PRIORITY_MAX) ;;;
  upd_thread t (fun x => Rt_thread RT_THREAD_INIT RT_EOK priority priority 0 (event_set x) (event_info x) tick tick) ;;;
  _rt_timer_init t 0 0 ;;;
  ret RT_EOK.

Definition rt_thread_suspend (t : tid) : M kernel Z :=
  x <- gets (fun k => thread k t) ;;
  if negb (status x =? RT_THREAD_READY) && negb (status x =? RT_THREAD_RUNNING) then ret (- RT_ERROR)
  else
    c <- rt_thread_self ;;
    when (status x =? RT_THREAD_RUNNING) (rt_assert (bool_decide (c = Some t))) ;;;
    rt_schedule_remove_thread t ;;;
    upd_thread t (with_status RT_THREAD_SUSPEND) ;;;
    _ <- rt_timer_stop t ;;
    ret RT_EOK.

Definition rt_thread_resume (t : tid) : M kernel Z :=
  x <- gets (fun k => thread k t) ;;
  if negb (status x =? RT_THREAD_SUSPEND) then ret (- RT_ERROR)
  else
    on_tlists (rt_list_remove (Elem t)) ;;;
    _ <- rt_timer_stop t ;;
    rt_schedule_insert_thread t ;;;
    ret RT_EOK.

Definition rt_thread_startup (t : tid) : M kernel Z :=
  x <- gets (fun k => thread k t) ;;
  rt_assert (status x =? RT_THREAD_INIT) ;;;
  upd_thread t (fun x => set_priority (init_priority x) (u32 (Z.shiftl 1 (init_priority x))) x) ;;;
  upd_thread t (set_stat RT_THREAD_SUSPEND) ;;;
  _ <- rt_thread_resume t ;;
  c <- rt_thread_self ;;
  when (bool_decide (is_Some c)) rt_schedule ;;;
  ret RT_EOK.

(** The threads that [rtthread_startup] (components.c) makes: the main thread, the thread of
    the soft timers and the idle thread. *)
Definition rt_application_init (t : tid) : M kernel unit :=
  _ <- _rt_thread_init t RT_MAIN_THREAD_PRIORITY 20 ;; _ <- rt_thread_startup t ;; ret tt.
Definition rt_system_timer_thread_init (t : tid) : M kernel unit :=
  _ <- _rt_thread_init t RT_TIMER_THREAD_PRIO 10 ;; _ <- rt_thread_startup t ;; ret tt.
Definition rt_thread_idle_init (t : tid) : M kernel unit :=
  _ <- _rt_thread_init t (RT_THREAD_PRIORITY_MAX - 1) 32 ;; _ <- rt_thread_startup t ;; ret tt.
Definition rtthread_startup (main timer idle : tid) : M kernel unit :=
  rt_system_timer_init ;;;
  rt_system_scheduler_init ;;;
  rt_application_init main ;;;
  rt_system_timer_thread_init timer ;;;
  rt_thread_idle_init idle ;;;
  rt_system_scheduler_start.

Definition rt_thread_timeout (t : tid) : M kernel unit :=
  x <- gets (fun k => thread k t) ;;
  rt_assert (status x =? RT_THREAD_SUSPEND) ;;;
  upd_thread t (set_error (- RT_ETIMEOUT)) ;;;
  on_tlists (rt_list_remove (Elem t)) ;;;
  rt_schedule_insert_thread t ;;;
  rt_schedule.

Definition rt_thread_yield : M kernel Z :=
  t <- self ;;
  upd_thread t (fun x => set_remaining (slice x) x) ;;;
  upd_thread t (fun x => set_stat (Z.lor (stat x) RT_THREAD_STAT_YIELD) x) ;;;
  rt_schedule ;;;
  ret RT_EOK.

(** The part of [rt_thread_sleep] before the thread is switched away from, and what it does
    when it runs again. *)
Definition rt_thread_sleep (tick : Z) : M kernel unit :=
  t <- self ;;
  _ <- rt_thread_suspend t ;;
  rt_timer_set_time t tick ;;;
  _ <- rt_timer_start t ;;
  rt_schedule.
Definition rt_thread_awake (t : tid) : M kernel Z :=
  x <- gets (fun k => thread k t) ;;
  when (error x =? - RT_ETIMEOUT) (upd_thread t (set_error RT_EOK)) ;;;
  ret RT_EOK.

(** [rt_thread_control] with RT_THREAD_CTRL_CHANGE_PRIORITY. *)
Definition change_priority (t : tid) (p : Z) : M kernel unit :=
  x <- gets (fun k => thread k t) ;;
  if status x =? RT_THREAD_READY then
    rt_schedule_remove_thread t ;;;
    upd_thread t (set_priority p (u32 (Z.shiftl 1 p))) ;;;
    rt_schedule_insert_thread t
  else upd_thread t (set_priority p (u32 (Z.shiftl 1 p))).

(** [rt_thread_exit] of a thread that is not a static object. *)
Definition rt_thread_exit : M kernel unit :=
  t <- self ;;
  rt_schedule_remove_thread t ;;;
  upd_thread t (set_stat RT_THREAD_CLOSE) ;;;
  _ <- rt_timer_detach t ;;
  on_tlists (rt_list_insert_after (Head Defunct) (Elem t)) ;;;
  rt_schedule.

(** [rt_thread_delete], without the cleanup function of the thread. *)
Definition rt_thread_delete (t : tid) : M kernel Z :=
  x <- gets (fun k => thread k t) ;;
  if status x =? RT_THREAD_CLOSE then ret RT_EOK
  else
    when (negb (status x =? RT_THREAD_INIT)) (rt_schedule_remove_thread t) ;;;
    _ <- rt_timer_detach t ;;
    upd_thread t (set_stat RT_THREAD_CLOSE) ;;;
    on_tlists (rt_list_insert_after (Head Defunct) (Elem t)) ;;;
    ret RT_EOK.

(** The loop of [rt_thread_idle_excute] (idle.c), without the release of the memory. *)
Fixpoint idle_loop (fuel : nat) : M kernel unit :=
  match fuel with
  | O => raise OutOfBounds
  | S fuel =>
      n <- gets (fun k => next (tlists k) (Head Defunct)) ;;
      if bool_decide (n = Head Defunct) then ret tt
      else
        t <- entry n ;;
        on_tlists (rt_list_remove (Elem t)) ;;;
        idle_loop fuel
  end.
Definition rt_thread_idle_excute : M kernel unit := n <- gets thread_count ;; idle_loop (S n).

(** ** The clock: timer.c, clock.c, irq.c *)

(** A timer that has run out, and the time when its function returns. *)
Definition expire_timer (t : tid) (x : rt_timer) : M kernel Z :=
  _rt_timer_remove t ;;;
  when (Z.land (flag x) RT_TIMER_FLAG_PERIODIC =? 0) (upd_timer t deactivate) ;;;
  on_rows (rt_list_insert_after (Head Expired) (Elem t)) ;;;
  rt_thread_timeout t ;;;
  now <- gets rt_tick ;;
  gone <- gets (fun k => rt_list_isempty (Head Expired) (rows k)) ;;
  (if gone then ret tt
   else
     on_rows (rt_list_remove (Elem t)) ;;;
     x <- gets (fun k => thread_timer k t) ;;
     when (negb (Z.land (flag x) RT_TIMER_FLAG_PERIODIC =? 0) && activated x)
       (upd_timer t deactivate ;;; _ <- rt_timer_start t ;; ret tt)) ;;;
  ret now.

Fixpoint timer_check_loop (fuel : nat) (current_tick : Z) : M kernel unit :=
  match fuel with
  | O => raise OutOfBounds
  | S fuel =>
      empty <- gets (fun k => rt_list_isempty (Head TimerList) (rows k)) ;;
      if empty then ret tt
      else
        n <- gets (fun k => next (rows k) (Head TimerList)) ;;
        t <- entry n ;;
        x <- gets (fun k => thread_timer k t) ;;
        if u32 (current_tick - timeout_tick x) <? RT_TICK_MAX / 2 then
          now <- expire_timer t x ;;
          timer_check_loop fuel now
        else ret tt
  end.

Definition rt_timer_check : M kernel unit :=
  on_rows (rt_list_init (Head Expired)) ;;;
  now <- gets rt_tick ;;
  n <- gets thread_count ;;
  timer_check_loop (S n) now.

Definition rt_tick_increase : M kernel unit :=
  modify (fun k => set_tick (u32 (rt_tick k + 1)) k) ;;;
  t <- self ;;
  upd_thread t (fun x => set_remaining (u32 (remaining_tick x - 1)) x) ;;;
  x <- gets (fun k => thread k t) ;;
  when (remaining_tick x =? 0)
   (upd_thread t (fun x => set_remaining (slice x) x) ;;;
    upd_thread t (fun x => set_stat (Z.lor (stat x) RT_THREAD_STAT_YIELD) x) ;;;
    rt_schedule) ;;;
  rt_timer_check.

Definition rt_interrupt_enter : M kernel unit := modify (fun k => set_interrupt_nest (u8 (rt_interrupt_nest k + 1)) k).
Definition rt_interrupt_leave : M kernel unit := modify (fun k => set_interrupt_nest (u8 (rt_interrupt_nest k - 1)) k).

(** The HAL's own tick counter is left out. *)
Definition SysTick_Handler : M kernel unit :=
  rt_interrupt_enter ;;;
  rt_tick_increase ;;;
  rt_interrupt_leave.

(** ** Bits *)

Lemma status_with v x : 0 <= v < 8 -> status (with_status v x) = v.
Proof.
  intros Hv. unfold status, with_status, RT_THREAD_STAT_MASK. cbn [stat set_stat]. apply Z.bits_inj'. intros n Hn.
  change 7 with (Z.ones 3). rewrite Z.land_spec, Z.lor_spec, Z.land_spec, Z.lnot_spec by lia.
  destruct (Z.ltb_spec n 3) as [H3|H3].
  - rewrite Z.ones_spec_low by lia. cbn [negb]. by rewrite andb_false_r, orb_false_r, andb_true_r.
  - rewrite Z.ones_spec_high by lia. rewrite andb_false_r. symmetry. destruct (Z.eq_dec v 0) as [->|]; [apply Z.bits_0|].
    apply Z.bits_above_log2; [lia|]. apply Z.log2_lt_pow2; [lia|].
    apply Z.lt_le_trans with (2 ^ 3); [lia|apply Z.pow_le_mono_r; lia].
Qed.

(** The yield bit is apart from the status. *)
Lemma land_8_7 : Z.land 8 7 = 0. Proof. reflexivity. Qed.
Lemma status_yield x : status (set_stat (Z.lor (stat x) RT_THREAD_STAT_YIELD) x) = status x.
Proof. unfold status, RT_THREAD_STAT_MASK, RT_THREAD_STAT_YIELD. cbn [stat set_stat]. by rewrite Z.land_lor_distr_l, land_8_7, Z.lor_0_r. Qed.
Lemma status_no_yield x : status (set_stat (Z.land (stat x) (Z.lnot RT_THREAD_STAT_YIELD)) x) = status x.
Proof.
  unfold status, RT_THREAD_STAT_MASK, RT_THREAD_STAT_YIELD. cbn [stat set_stat]. rewrite <- Z.land_assoc.
  by change (Z.land (Z.lnot 8) 7) with 7.
Qed.

Definition yielding (x : rt_thread) : bool := negb (Z.land (stat x) RT_THREAD_STAT_YIELD =? 0).
Lemma yielding_no_yield x : yielding (set_stat (Z.land (stat x) (Z.lnot RT_THREAD_STAT_YIELD)) x) = false.
Proof. unfold yielding, RT_THREAD_STAT_YIELD. cbn [stat set_stat]. rewrite <- Z.land_assoc. change (Z.land (Z.lnot 8) 8) with 0. by rewrite Z.land_0_r. Qed.
Lemma yielding_with v x : 0 <= v < 8 -> yielding (with_status v x) = yielding x.
Proof.
  intros Hv. unfold yielding, with_status, RT_THREAD_STAT_YIELD, RT_THREAD_STAT_MASK. cbn [stat set_stat]. do 2 f_equal.
  rewrite Z.land_lor_distr_l, <- Z.land_assoc. change (Z.land (Z.lnot 7) 8) with 8.
  assert (Z.land v 8 = 0) as ->; [|apply Z.lor_0_l]. apply Z.bits_inj'. intros n Hn. rewrite Z.bits_0, Z.land_spec.
  change 8 with (2 ^ 3). destruct (Z.eq_dec n 3) as [->|Hne]; [|rewrite Z.pow2_bits_false by lia; apply andb_false_r].
  destruct (Z.eq_dec v 0) as [->|]; [done|]. rewrite Z.bits_above_log2; [done|lia|]. apply Z.log2_lt_pow2; lia.
Qed.

(** [__rt_ffs] finds the lowest bit that is set. *)
Lemma trailing_zeros_spec p :
  0 <= trailing_zeros p /\ Z.testbit (Zpos p) (trailing_zeros p) = true /\
  forall j, 0 <= j < trailing_zeros p -> Z.testbit (Zpos p) j = false.
Proof.
  induction p as [p _|p (H1 & H2 & H3)|]; cbn [trailing_zeros]; [split_and!; [lia|done|lia]| |split_and!; [lia|done|lia]].
  rewrite Pos2Z.inj_xO. split; [lia|]. split.
  - by rewrite Z.add_1_r, Z.double_bits_succ.
  - intros j Hj. destruct (Z.eq_dec j 0) as [->|]; [apply Z.testbit_even_0|].
    replace j with (Z.succ (j - 1)) by lia. rewrite Z.double_bits_succ. apply H3. lia.
Qed.

Lemma rt_ffs_spec g : 0 < g < 2 ^ 32 ->
  let p := __rt_ffs g - 1 in
  0 <= p < 32 /\ Z.testbit g p = true /\ forall j, 0 <= j < p -> Z.testbit g j = false.
Proof.
  destruct g as [|g|]; try lia. intros Hg. cbn [__rt_ffs]. replace (trailing_zeros g + 1 - 1) with (trailing_zeros g) by lia.
  destruct (trailing_zeros_spec g) as (H1 & H2 & H3). split; [|by split]. split; [done|].
  destruct (Z.lt_ge_cases (trailing_zeros g) 32) as [|Hge]; [done|]. exfalso.
  rewrite Z.bits_above_log2 in H2; [done|lia|]. apply Z.lt_le_trans with 32; [|done]. apply Z.log2_lt_pow2; lia.
Qed.

Lemma below_pow2 w x : 0 <= w -> 0 <= x -> (forall n, w <= n -> Z.testbit x n = false) -> x < 2 ^ w.
Proof.
  intros Hw Hx Hb. destruct (Z.lt_ge_cases x (2 ^ w)) as [|Hge]; [done|]. pose proof (Z.pow_pos_nonneg 2 w ltac:(lia) Hw).
  assert (w <= Z.log2 x) as Hl by (rewrite <- (Z.log2_pow2 w) by lia; by apply Z.log2_le_mono).
  specialize (Hb _ Hl). rewrite Z.bit_log2 in Hb by lia. discriminate.
Qed.
Lemma bit_above w x n : 0 <= x < 2 ^ w -> 0 <= w <= n -> Z.testbit x n = false.
Proof.
  intros Hx Hn. destruct (Z.eq_dec x 0) as [->|]; [apply Z.bits_0|]. apply Z.bits_above_log2; [lia|].
  apply Z.log2_lt_pow2; [lia|]. apply Z.lt_le_trans with (2 ^ w); [lia|]. apply Z.pow_le_mono_r; lia.
Qed.

(** ** The invariant *)

Definition waiting (q : queue) : bool := match q with Ready _ | Defunct => false | _ => true end.

(** Where a thread may be, for its status and its priority. *)
Inductive place_ok (st p : Z) : option queue -> Prop :=
| place_init : st = RT_THREAD_INIT -> place_ok st p None
| place_ready : st = RT_THREAD_READY -> place_ok st p (Some (Ready p))
| place_suspended : st = RT_THREAD_SUSPEND -> place_ok st p None
| place_waiting q : st = RT_THREAD_SUSPEND -> waiting q = true -> place_ok st p (Some q)
| place_running : st = RT_THREAD_RUNNING -> place_ok st p None
| place_closed : st = RT_THREAD_CLOSE -> place_ok st p (Some Defunct)
| place_gone : st = RT_THREAD_CLOSE -> place_ok st p None.

(** The queue an element is in. *)
Definition placed {H T : Type} (Q : H -> list T) (t : T) (o : option H) : Prop := forall q, t ∈ Q q <-> o = Some q.

Definition priority_ok (x : rt_thread) : Prop :=
  0 <= current_priority x < RT_THREAD_PRIORITY_MAX /\ number_mask x = 2 ^ current_priority x.

(** The bits of the ready group are the lists that are not empty. *)
Definition group_ok (g : Z) (Q : queue -> list tid) : Prop :=
  0 <= g < 2 ^ 32 /\ forall p, 0 <= p < 32 -> Z.testbit g p = negb (bool_decide (Q (Ready p) = [])).

Record consistent (Q : queue -> list tid) (k : kernel) : Prop := {
  c_links : linked (tlists k) Q;
  c_place : forall t, exists o, placed Q t o /\ place_ok (status (thread k t)) (current_priority (thread k t)) o;
  c_priority : forall t, status (thread k t) <> RT_THREAD_INIT -> priority_ok (thread k t);
  c_running : forall t, status (thread k t) = RT_THREAD_RUNNING -> rt_current_thread k = Some t;
  c_count : forall t, status (thread k t) <> RT_THREAD_INIT -> (t < thread_count k)%nat;
  c_group : group_ok (rt_thread_ready_priority_group k) Q
}.

(** How long a timer still runs; it is -1 when a tick has passed it. *)
Definition due (k : kernel) (t : tid) : Z := i32 (timeout_tick (thread_timer k t) - rt_tick k).

(** The timers that run are in the list, in the order in which they are due, and belong to
    suspended threads. *)
Record timers_ok (R : timer_queue -> list tid) (k : kernel) : Prop := {
  t_rows : linked (rows k) R;
  t_expired : R Expired = [];
  t_active : forall t, t ∈ R TimerList <-> activated (thread_timer k t) = true;
  t_suspended : forall t, activated (thread_timer k t) = true -> status (thread k t) = RT_THREAD_SUSPEND;
  t_one_shot : forall t, flag (thread_timer k t) = 0 \/ flag (thread_timer k t) = RT_TIMER_FLAG_ACTIVATED;
  t_tick : 0 <= rt_tick k < 2 ^ 32;
  t_sorted : StronglySorted (fun t u => due k t <= due k u) (R TimerList);
  t_due : forall t, t ∈ R TimerList -> -1 <= due k t < 2 ^ 31 - 1
}.

Section Facts.
Implicit Types (k : kernel) (t u c : tid) (Q : queue -> list tid) (R : timer_queue -> list tid).

Lemma placed_linked {L} Q t o : linked L Q -> placed Q t o -> (exists q, t ∈ Q q) \/ in_no_list Q t.
Proof. intros _ Hp. destruct o as [q|]; [left; exists q; by apply Hp|right]. intros q Hq. by apply Hp in Hq. Qed.
Lemma placed_none Q t : placed Q t None <-> in_no_list Q t.
Proof. split; [intros Hp q Hq; by apply Hp in Hq|]. intros Hn q. split; [intros Hq; by destruct (Hn q)|done]. Qed.
Lemma placed_in {L} Q t q : linked L Q -> t ∈ Q q -> placed Q t (Some q).
Proof. intros L' Hq q'. split; [|by intros [= <-]]. intros Hq'. f_equal. by apply (lk_unique _ _ L' _ _ t). Qed.
Lemma placed_without Q t : placed (without t Q) t None.
Proof. apply placed_none, without_in. Qed.

(** A thread that is not READY is in no ready list. *)
Lemma ready_status Q k t p : consistent Q k -> t ∈ Q (Ready p) ->
  status (thread k t) = RT_THREAD_READY /\ current_priority (thread k t) = p.
Proof.
  intros Hc Hin. destruct (c_place Q k Hc t) as (o & Hp & Hok). apply Hp in Hin. subst o.
  inversion Hok; subst; by try (split; congruence).
Qed.
Lemma ready_in Q k t : consistent Q k -> status (thread k t) = RT_THREAD_READY ->
  t ∈ Q (Ready (current_priority (thread k t))).
Proof.
  intros Hc Hst. destruct (c_place Q k Hc t) as (o & Hp & Hok). apply Hp. inversion Hok; try (rewrite Hst in *; discriminate). done.
Qed.

(** What a change of one thread and its place has to respect. *)
Lemma consistent_move Q Q' k k' t o :
  consistent Q k -> linked (tlists k') Q' -> group_ok (rt_thread_ready_priority_group k') Q' ->
  (forall u q, u <> t -> u ∈ Q' q <-> u ∈ Q q) -> placed Q' t o ->
  (forall u, u <> t -> thread k' u = thread k u) ->
  place_ok (status (thread k' t)) (current_priority (thread k' t)) o ->
  (status (thread k' t) <> RT_THREAD_INIT -> priority_ok (thread k' t) /\ (t < thread_count k)%nat) ->
  (status (thread k' t) = RT_THREAD_RUNNING -> rt_current_thread k' = Some t) ->
  (forall u, u <> t -> status (thread k u) = RT_THREAD_RUNNING -> rt_current_thread k' = Some u) ->
  thread_count k' = thread_count k -> consistent Q' k'.
Proof.
  intros [L P Pr Ru Co Gr] L' Gr' Hq Ht Hth Hok Hpr Hr1 Hr2 Hcount. split; try done.
  - intros u. destruct (decide (u = t)) as [->|Hne]; [by exists o|]. destruct (P u) as (o' & Hp & Hpl).
    exists o'. rewrite Hth by done. split; [|done]. intros q. rewrite Hq by done. apply Hp.
  - intros u. destruct (decide (u = t)) as [->|Hne]; [intros H; by apply Hpr|rewrite Hth by done; apply Pr].
  - intros u. destruct (decide (u = t)) as [->|Hne]; [done|rewrite Hth by done; by apply Hr2].
  - intros u. rewrite Hcount. destruct (decide (u = t)) as [->|Hne]; [intros H; by apply Hpr|rewrite Hth by done; apply Co].
Qed.

(** ** The scheduler's lists *)

Lemma wp_priority_list p k (Post : node queue tid -> kernel -> Prop) :
  0 <= p < RT_THREAD_PRIORITY_MAX -> Post (Head (Ready p)) k -> wp (priority_list p) k Post.
Proof.
  intros Hp HQ. unfold priority_list. rewrite (proj2 (Z.leb_le 0 p)), (proj2 (Z.ltb_lt p _)) by lia. exact HQ.
Qed.

(** Removing a thread, wherever it is. *)
Lemma remove_thread_spec Q k t o (Post : unit -> kernel -> Prop) :
  linked (tlists k) Q -> group_ok (rt_thread_ready_priority_group k) Q -> priority_ok (thread k t) -> placed Q t o ->
  (forall p, o = Some (Ready p) -> p = current_priority (thread k t)) ->
  (forall l g, linked l (without t Q) -> group_ok g (without t Q) -> Post tt (set_group g (set_tlists l k))) ->
  wp (rt_schedule_remove_thread t) k Post.
Proof.
  intros L [Hg Hbit] [Hp Hm] Ht Ho HQ. unfold rt_schedule_remove_thread, on_tlists. wp_steps. cbn [thread set_tlists tlists].
  set (p := current_priority (thread k t)) in *. apply wp_priority_list; [done|]. wp_steps. cbn [tlists set_tlists].
  pose proof (linked_remove (tlists k) Q t L (placed_linked (L := tlists k) Q t o L Ht)) as L'. rewrite (isempty_spec _ _ _ L').
  assert (forall j, 0 <= j < 32 -> j <> p -> without t Q (Ready j) = Q (Ready j)) as Hother.
  { intros j Hj Hne. apply filter_ne_notin. intros Hin%Ht. apply Hne. by apply Ho. }
  unfold when. case_bool_decide as He.
  - wp_steps. apply (HQ (rt_list_remove (Elem t) (tlists k)) (Z.land (rt_thread_ready_priority_group k) (Z.lnot (number_mask (thread k t))))); [done|].
    rewrite <- Z.ldiff_land, Hm. split.
    + assert (0 <= Z.ldiff (rt_thread_ready_priority_group k) (2 ^ p)) by (apply Z.ldiff_nonneg; lia). split; [done|].
      apply below_pow2; [lia|done|]. intros n Hn. by rewrite Z.ldiff_spec, (bit_above 32) by lia.
    + intros j Hj. rewrite testbit_clear by (unfold RT_THREAD_PRIORITY_MAX in Hp; lia). destruct (Z.eqb_spec j p) as [->|Hne].
      * by rewrite bool_decide_true.
      * rewrite Hother by done. by apply Hbit.
  - wp_steps. apply (HQ (rt_list_remove (Elem t) (tlists k)) (rt_thread_ready_priority_group k)); [done|].
    split; [done|]. intros j Hj. rewrite Hbit by done. destruct (decide (j = p)) as [->|Hne]; [|by rewrite Hother].
    rewrite !bool_decide_false; [done|done|]. intros E. apply He. unfold without. by rewrite E.
Qed.

(** Inserting one that is alone and not running. *)
Lemma insert_thread_spec Q k t (Post : unit -> kernel -> Prop) :
  linked (tlists k) Q -> group_ok (rt_thread_ready_priority_group k) Q -> priority_ok (thread k t) -> in_no_list Q t ->
  rt_current_thread k <> Some t ->
  (let Q' := <[Ready (current_priority (thread k t)) := Q (Ready (current_priority (thread k t))) ++ [t]]> Q in
   forall l g, linked l Q' -> group_ok g Q' -> Post tt (set_group g (set_tlists l (set_thread t (with_status RT_THREAD_READY (thread k t)) k)))) ->
  wp (rt_schedule_insert_thread t) k Post.
Proof.
  intros L [Hg Hbit] [Hp Hm] Ht Hc HQ. unfold rt_schedule_insert_thread, rt_thread_self, upd_thread, on_tlists. wp_steps.
  rewrite bool_decide_false by done. wp_steps. cbn [thread set_thread]. rewrite fn_lookup_insert.
  cbn [current_priority with_status set_stat]. set (p := current_priority (thread k t)) in *.
  apply wp_priority_list; [done|]. wp_steps. cbn [thread set_tlists set_thread tlists rt_thread_ready_priority_group]. rewrite fn_lookup_insert.
  cbn [number_mask with_status set_stat]. rewrite Hm. apply HQ; [by apply linked_append|]. unfold RT_THREAD_PRIORITY_MAX in Hp. split.
  - assert (0 <= Z.lor (rt_thread_ready_priority_group k) (2 ^ p)) by (apply Z.lor_nonneg; lia). split; [done|].
    apply below_pow2; [lia|done|]. intros n Hn. rewrite Z.lor_spec, (bit_above 32) by lia. by rewrite Z.pow2_bits_false by lia.
  - intros j Hj. rewrite testbit_set by lia. destruct (Z.eqb_spec j p) as [->|Hne].
    + rewrite fn_lookup_insert, bool_decide_false; [done|]. by destruct (Q (Ready p)).
    + rewrite fn_lookup_insert_ne by congruence. by apply Hbit.
Qed.

(** The scheduler's choice. *)
Lemma highest_spec Q k (Post : tid * Z -> kernel -> Prop) :
  consistent Q k -> rt_thread_ready_priority_group k <> 0 ->
  (forall p t l, 0 <= p < 32 -> Q (Ready p) = t :: l -> (forall j, 0 <= j < p -> Q (Ready j) = []) -> Post (t, p) k) ->
  wp _get_highest_priority_thread k Post.
Proof.
  intros Hc Hg HQ. destruct (c_group Q k Hc) as [Hr Hbit]. destruct (rt_ffs_spec (rt_thread_ready_priority_group k) ltac:(lia)) as (Hp & Hb & Hl).
  unfold _get_highest_priority_thread. wp_steps. apply wp_priority_list; [done|]. wp_steps.
  set (p := __rt_ffs (rt_thread_ready_priority_group k) - 1) in *. rewrite (next_head _ Q _ (c_links Q k Hc)).
  rewrite Hbit in Hb by done. destruct (Q (Ready p)) as [|t l] eqn:E; [by rewrite bool_decide_true in Hb|]. cbn [hd fmap list_fmap entry]. wp_steps.
  apply (HQ p t l); [done|done|]. intros j Hj. specialize (Hl j Hj). rewrite Hbit in Hl by lia.
  by destruct (Q (Ready j)).
Qed.

(** ** Scheduling *)

(** The thread that runs next when [c] runs, and the lists then: [c] stays when its priority
    is the best, or as good as the best and it does not yield; otherwise the first of the
    best ready threads takes its place and [c], if it can still run, goes behind the others
    of its priority. *)
Inductive picked Q (x : rt_thread) (c : tid) : tid -> (queue -> list tid) -> Prop :=
| picked_stays :
    status x = RT_THREAD_RUNNING ->
    (forall p, 0 <= p < 32 -> Q (Ready p) <> [] ->
      current_priority x < p \/ (current_priority x = p /\ yielding x = false)) ->
    picked Q x c c Q
| picked_switches t p l :
    Q (Ready p) = t :: l -> (forall j, 0 <= j < p -> Q (Ready j) = []) -> 0 <= p < 32 ->
    (status x = RT_THREAD_RUNNING -> p < current_priority x \/ (p = current_priority x /\ yielding x = true)) ->
    picked Q x c t (without t (if status x =? RT_THREAD_RUNNING
                               then <[Ready (current_priority x) := Q (Ready (current_priority x)) ++ [c]]> Q else Q)).

(** What a change of the lists and of the threads' status leaves alone. *)
Record same_rest k k' : Prop := {
  sr_timer : thread_timer k' = thread_timer k;
  sr_rows : rows k' = rows k;
  sr_lock : rt_scheduler_lock_nest k' = rt_scheduler_lock_nest k;
  sr_nest : rt_interrupt_nest k' = rt_interrupt_nest k;
  sr_tick : rt_tick k' = rt_tick k;
  sr_count : thread_count k' = thread_count k
}.

(** From [k], where [c] is the current thread, to [k'], where [c'] is. *)
Record scheduled Q k c c' Q' k' : Prop := {
  sch_ok : consistent Q' k';
  sch_picked : picked Q (thread k c) c c' Q';
  sch_current : rt_current_thread k' = Some c';
  sch_thread : forall u, exists v, thread k' u = set_stat v (thread k u);
  sch_status : forall u, status (thread k' u) =
    if decide (u = c') then RT_THREAD_RUNNING
    else if decide (u = c /\ status (thread k u) = RT_THREAD_RUNNING) then RT_THREAD_READY
    else status (thread k u);
  sch_rest : same_rest k k'
}.

Lemma consistent_ext Q Q' k : (forall q, Q q = Q' q) -> consistent Q k -> consistent Q' k.
Proof.
  intros E [L P Pr Ru Co [Gr Gb]]. split; try done.
  - by apply (linked_proper (tlists k) (tlists k) eq_refl Q Q' E).
  - intros t. destruct (P t) as (o & Hp & Ho). exists o. split; [|done]. intros q. rewrite <- E. apply Hp.
  - split; [done|]. intros p. rewrite <- E. apply Gb.
Qed.

Lemma group_zero g Q : group_ok g Q -> g = 0 -> forall p, 0 <= p < 32 -> Q (Ready p) = [].
Proof. intros [_ Hb] -> p Hp. specialize (Hb p Hp). rewrite Z.bits_0 in Hb. by destruct (Q (Ready p)). Qed.

Lemma set_stat_id x : set_stat (stat x) x = x.
Proof. by destruct x. Qed.

(** A thread's record changes in what the lists do not depend on. *)
Lemma consistent_same Q k t x : consistent Q k -> status x = status (thread k t) ->
  current_priority x = current_priority (thread k t) -> number_mask x = number_mask (thread k t) ->
  consistent Q (set_thread t x k).
Proof.
  intros Hc Hs Hp Hm. pose proof Hc as [L P Pr Ru Co Gr]. destruct (P t) as (o & Hpl & Ho).
  apply (consistent_move Q Q k _ t o); try done; cbn [thread set_thread rt_current_thread].
  - intros u Hne. by rewrite fn_lookup_insert_ne.
  - rewrite fn_lookup_insert. by rewrite Hs, Hp.
  - rewrite fn_lookup_insert, Hs. intros H. split; [|by apply Co]. unfold priority_ok. rewrite Hp, Hm. by apply (Pr t).
  - rewrite fn_lookup_insert, Hs. apply Ru.
  - intros u _. apply Ru.
Qed.

(** The switch to a ready thread. *)
Lemma switch_in_spec Q k t p l f (Post : unit -> kernel -> Prop) :
  consistent Q k -> Q (Ready p) = t :: l -> rt_current_thread k = Some t ->
  (exists v, f (thread k t) = set_stat v (thread k t)) -> status (f (thread k t)) = RT_THREAD_RUNNING ->
  (forall k', consistent (without t Q) k' -> thread k' = <[t := f (thread k t)]> (thread k) ->
    rt_current_thread k' = Some t -> same_rest k k' -> Post tt k') ->
  wp (rt_schedule_remove_thread t) k (fun _ s => wp (upd_thread t f) s Post).
Proof.
  intros Hc E Hcur [v Hf] Hrun HQ. pose proof Hc as [L P Pr Ru Co Gr].
  assert (t ∈ Q (Ready p)) as Hin by (rewrite E; left). destruct (ready_status Q k t p Hc Hin) as [Hst Hpr].
  assert (status (thread k t) <> RT_THREAD_INIT) as Hni by (rewrite Hst; done).
  eapply (remove_thread_spec Q k t (Some (Ready p))); [done|done|by apply Pr|by apply (placed_in (L := tlists k))| |].
  { intros p' [= <-]. done. }
  intros l' g' L' G'. unfold upd_thread. wp_steps. apply HQ; [|reflexivity|done|by split].
  apply (consistent_move Q _ k _ t None); cbn [thread tlists rt_thread_ready_priority_group rt_current_thread set_thread set_group set_tlists thread_count]; try done.
  - intros u q Hne. rewrite elem_of_without. tauto.
  - apply placed_without.
  - intros u Hne. by rewrite fn_lookup_insert_ne.
  - rewrite fn_lookup_insert. by apply place_running.
  - intros _. rewrite fn_lookup_insert, Hf. split; [by apply (Pr t)|by apply Co].
  - intros u Hne Hr. by apply Ru.
Qed.

(** The old thread goes behind the others of its priority. *)
Lemma switch_out_spec Q k c t (Post : unit -> kernel -> Prop) :
  consistent Q k -> status (thread k c) = RT_THREAD_RUNNING -> c <> t ->
  (forall k', consistent (<[Ready (current_priority (thread k c)) := Q (Ready (current_priority (thread k c))) ++ [c]]> Q) k' ->
    thread k' = <[c := with_status RT_THREAD_READY (thread k c)]> (thread k) ->
    rt_current_thread k' = Some t -> same_rest k k' -> Post tt k') ->
  forall p, wp (rt_schedule_insert_thread c) (set_current (Some t) p k) Post.
Proof.
  intros Hc Hrun Hne HQ pr. pose proof Hc as [L P Pr Ru Co Gr].
  assert (status (thread k c) <> RT_THREAD_INIT) as Hni by (rewrite Hrun; done).
  destruct (P c) as (o & Hp & Ho). assert (o = None) as -> by (rewrite Hrun in Ho; inversion Ho; first [done|discriminate]).
  pose proof (proj1 (placed_none Q c) Hp) as Halone.
  apply (insert_thread_spec Q); try done; [by apply Pr|cbn; congruence|]. cbv zeta.
  intros l' g' L' G'. apply HQ; [|done|done|by split].
  apply (consistent_move Q _ k _ c (Some (Ready (current_priority (thread k c))))); cbn [thread tlists rt_thread_ready_priority_group rt_current_thread set_current set_thread set_group set_tlists thread_count]; try done.
  - intros u q Hu. destruct (decide (q = Ready (current_priority (thread k c)))) as [->|Hq]; [|by rewrite fn_lookup_insert_ne].
    rewrite fn_lookup_insert, elem_of_app, list_elem_of_singleton. tauto.
  - intros q. destruct (decide (q = Ready (current_priority (thread k c)))) as [->|Hq].
    + rewrite fn_lookup_insert, elem_of_app, list_elem_of_singleton. tauto.
    + rewrite fn_lookup_insert_ne by done. split; [intros Hin; by destruct (Halone q)|intros [= <-]; done].
  - intros u Hu. by rewrite fn_lookup_insert_ne.
  - rewrite fn_lookup_insert. apply place_ready. by apply status_with.
  - intros _. rewrite fn_lookup_insert. split; [by apply (Pr c)|by apply Co].
  - rewrite fn_lookup_insert, status_with by done. done.
  - intros u Hu Hr. apply Ru in Hr. apply Ru in Hrun. congruence.
Qed.

Lemma same_rest_refl k : same_rest k k.
Proof. by split. Qed.
Lemma same_rest_trans k1 k2 k3 : same_rest k1 k2 -> same_rest k2 k3 -> same_rest k1 k3.
Proof. intros [] []. split; congruence. Qed.

(** The record of the running thread when its yield bit is cleared. *)
Abbreviation no_yield x := (set_stat (Z.land (stat x) (Z.lnot RT_THREAD_STAT_YIELD)) x).

Lemma stays_scheduled Q k k' c :
  consistent Q k' -> status (thread k c) = RT_THREAD_RUNNING -> rt_current_thread k' = Some c -> same_rest k k' ->
  (exists v, (forall u, thread k' u = (<[c := set_stat v (thread k c)]> (thread k)) u) /\ status (set_stat v (thread k c)) = RT_THREAD_RUNNING) ->
  picked Q (thread k c) c c Q -> scheduled Q k c c Q k'.
Proof.
  intros Hc Hrun Hcur Hsr (v & Hth & Hv) Hp. split; try done.
  - intros u. rewrite Hth. destruct (decide (u = c)) as [->|Hne]; [exists v; by rewrite fn_lookup_insert|].
    exists (stat (thread k u)). by rewrite fn_lookup_insert_ne, set_stat_id.
  - intros u. rewrite Hth. case_decide as Hu; [subst; by rewrite fn_lookup_insert|].
    rewrite fn_lookup_insert_ne by done. by rewrite decide_False by tauto.
Qed.

(** The three ways to switch, in the state where the yield bit of [c] has been cleared when
    it runs. *)
Section Switches.
Context (Q : queue -> list tid) (k : kernel) (c t : tid) (p : Z) (l : list tid) (Post : unit -> kernel -> Prop).
Context (Hc : consistent Q k) (Hcur : rt_current_thread k = Some c).
Context (Hp : 0 <= p < 32) (E : Q (Ready p) = t :: l) (Hless : forall j, 0 <= j < p -> Q (Ready j) = []) (Htc : t <> c).
Context (HQ : forall c' Q' k', scheduled Q k c c' Q' k' -> Post tt k').

Lemma switch_leaves : status (thread k c) <> RT_THREAD_RUNNING -> wp (switch_to c t p false) k Post.
Proof using All.
  intros Hrun. unfold switch_to. rewrite bool_decide_false by done. cbn [negb when]. wp_steps.
  assert (consistent Q (set_current (Some t) (u8 p) k)) as Hc'.
  { destruct Hc as [L P Pr Ru Co Gr]. split; try done. cbn. intros u Hu. pose proof (Ru u Hu). congruence. }
  apply (switch_in_spec Q _ t p l _ _ Hc' E eq_refl); [by eexists|by apply status_with|]. intros k' Hk' Hth Hcur' Hsr. cbn [thread set_current] in Hth.
  apply (HQ t (without t Q) k'). split; try done.
  - pose proof (picked_switches Q (thread k c) c t p l E Hless Hp) as Hpick. rewrite (proj2 (Z.eqb_neq _ _) Hrun) in Hpick. by apply Hpick.
  - intros u. rewrite Hth. destruct (decide (u = t)) as [->|Hu]; [rewrite fn_lookup_insert; by eexists|].
    exists (stat (thread k u)). by rewrite fn_lookup_insert_ne, set_stat_id.
  - intros u. rewrite Hth. case_decide as Hu; [subst; rewrite fn_lookup_insert; by apply status_with|].
    rewrite fn_lookup_insert_ne, decide_False; [done| |done]. intros [-> ?]. done.
  - by destruct Hsr; split.
Qed.

Context (Hrun : status (thread k c) = RT_THREAD_RUNNING).
Let x := thread k c.
Let k1 := set_thread c (no_yield x) k.

Lemma cleared_ok : consistent Q k1 /\ thread k1 c = no_yield x /\ (forall u, u <> c -> thread k1 u = thread k u).
Proof using Hc.
  split_and!; [apply consistent_same; [done|apply status_no_yield|done..]|apply fn_lookup_insert|].
  intros u Hu. unfold k1. cbn [thread set_thread]. by rewrite fn_lookup_insert_ne.
Qed.

Lemma switch_keeps : current_priority x < p \/ (current_priority x = p /\ yielding x = false) -> wp (switch_to c c p false) k1 Post.
Proof using All.
  intros Hstay. destruct cleared_ok as (Hc1 & Ex & Eu). unfold switch_to. rewrite bool_decide_true by done. cbn [negb]. wp_steps.
  assert (status x <> RT_THREAD_INIT) as Hni by (unfold x; by rewrite Hrun).
  assert (status (thread k1 c) = RT_THREAD_RUNNING) as Hrun1 by (by rewrite Ex, status_no_yield).
  destruct (c_place Q k1 Hc1 c) as (o & Hpl & Hok). rewrite Hrun1 in Hok. assert (o = None) as -> by (inversion Hok; first [done|discriminate]).
  apply (remove_thread_spec Q k1 c None); [apply Hc1|apply Hc1|apply (c_priority Q k1 Hc1); by rewrite Hrun1|done|done|].
  intros l' g' L' G'. unfold upd_thread. wp_steps. apply (HQ c Q). pose proof (proj1 (placed_none Q c) Hpl) as Halone.
  set (k' := set_thread c _ _).
  assert (forall q, without c Q q = Q q) as Hsame by (intros q; by apply (without_notin c Q)).
  assert (thread k' c = with_status RT_THREAD_RUNNING (no_yield x)) as Ec by (unfold k'; cbn [thread set_thread]; rewrite fn_lookup_insert; by rewrite <- Ex).
  assert (forall u, u <> c -> thread k' u = thread k u) as Eu' by (intros u Hu; rewrite <- Eu by done; unfold k'; cbn [thread set_thread]; by rewrite fn_lookup_insert_ne).
  apply stays_scheduled; try done.
  - apply (consistent_ext (without c Q)); [done|]. apply (consistent_move Q _ k1 k' c None); try done.
    + intros u q _. by rewrite Hsame.
    + apply placed_without.
    + intros u Hu. by rewrite Eu', Eu.
    + rewrite Ec. apply place_running. by apply status_with.
    + intros _. rewrite Ec. split; [exact (c_priority Q k Hc c Hni)|exact (c_count Q k Hc c Hni)].
    + intros u Hu. apply (c_running Q k1 Hc1).
  - eexists. split; [|by apply (status_with RT_THREAD_RUNNING (no_yield x))]. intros u.
    destruct (decide (u = c)) as [->|Hu]; [by rewrite fn_lookup_insert|by rewrite fn_lookup_insert_ne, Eu'].
  - apply picked_stays; [done|]. intros j Hj Hne. assert (p <= j) by (destruct (Z.lt_ge_cases j p); [by destruct (Hne (Hless j ltac:(lia)))|done]).
    fold x. destruct Hstay as [|[]]; [left; lia|]. destruct (Z.eq_dec j p); [right; split; [lia|done]|left; lia].
Qed.

Lemma switch_takes : p < current_priority x \/ (p = current_priority x /\ yielding x = true) -> wp (switch_to c t p true) k1 Post.
Proof using All.
  intros Hgo. destruct cleared_ok as (Hc1 & Ex & Eu). unfold switch_to. rewrite bool_decide_false by done. cbn [negb when]. wp_steps.
  assert (status (thread k1 c) = RT_THREAD_RUNNING) as Hrun1 by (by rewrite Ex, status_no_yield).
  apply (switch_out_spec Q k1 c t); [done|done|done|]. rewrite Ex. cbn [current_priority set_stat]. intros k2 Hc2 Hth2 Hcur2 Hsr2.
  assert (thread k2 t = thread k t) as Et by (by rewrite Hth2, fn_lookup_insert_ne, Eu).
  set (Q1 := <[Ready (current_priority x) := Q (Ready (current_priority x)) ++ [c]]> Q) in *.
  assert (exists l1, Q1 (Ready p) = t :: l1) as [l1 E1].
  { unfold Q1. destruct (decide (p = current_priority x)) as [->|Hne]; [rewrite fn_lookup_insert, E; by eexists|].
    rewrite fn_lookup_insert_ne by congruence. by exists l. }
  wp_steps. apply (switch_in_spec Q1 k2 t p l1); [done..|by eexists|by apply status_with|]. intros k3 Hc3 Hth3 Hcur3 Hsr3.
  apply (HQ t (without t Q1)). split; try done.
  - pose proof (picked_switches Q x c t p l E Hless Hp) as Hpick. rewrite (proj2 (Z.eqb_eq (status x) _) Hrun) in Hpick. by apply Hpick.
  - intros u. rewrite Hth3. destruct (decide (u = t)) as [->|Hu]; [rewrite fn_lookup_insert, Et; by eexists|].
    rewrite fn_lookup_insert_ne, Hth2 by done. destruct (decide (u = c)) as [->|Hu']; [rewrite fn_lookup_insert; by eexists|].
    rewrite fn_lookup_insert_ne, Eu by done. exists (stat (thread k u)). by rewrite set_stat_id.
  - intros u. rewrite Hth3. case_decide as Hu; [subst; rewrite fn_lookup_insert; by apply status_with|].
    rewrite fn_lookup_insert_ne, Hth2 by done. destruct (decide (u = c)) as [->|Hu'].
    + rewrite fn_lookup_insert, status_with by done. by rewrite decide_True.
    + rewrite fn_lookup_insert_ne, Eu by done. by rewrite decide_False by tauto.
  - apply (same_rest_trans k k2); [|done]. by destruct Hsr2; split.
Qed.
End Switches.

Lemma schedule_spec Q k c (Post : unit -> kernel -> Prop) :
  consistent Q k -> rt_current_thread k = Some c -> rt_scheduler_lock_nest k = 0 -> status (thread k c) <> RT_THREAD_READY ->
  status (thread k c) = RT_THREAD_RUNNING \/ rt_thread_ready_priority_group k <> 0 ->
  (forall c' Q' k', scheduled Q k c c' Q' k' -> Post tt k') -> wp rt_schedule k Post.
Proof.
  intros Hc Hcur Hlock Hnr Hnext HQ. unfold rt_schedule. wp_steps. rewrite Hlock. cbn [Z.eqb when].
  wp_steps. destruct (Z.eqb_spec (rt_thread_ready_priority_group k) 0) as [Hg|Hg]; cbn [negb when].
  { destruct Hnext as [Hrun|]; [|done]. wp_steps. apply (HQ c Q k), (stays_scheduled Q k k c); try done.
    - exists (stat (thread k c)). rewrite !set_stat_id. split; [|done]. intros u. destruct (decide (u = c)) as [->|]; by rewrite ?fn_lookup_insert, ?fn_lookup_insert_ne.
    - apply picked_stays; [done|]. intros p Hp Hne. by destruct (Hne (group_zero _ Q (c_group Q k Hc) Hg p Hp)). }
  wp_steps. eapply highest_spec; [done|done|]. intros p t l Hp E Hless. unfold self, rt_thread_self. wp_steps. rewrite Hcur. wp_steps.
  assert (t ∈ Q (Ready p)) as Hin by (rewrite E; left). destruct (ready_status Q k t p Hc Hin) as [Htst Htp].
  assert (t <> c) as Htc by (intros ->; done).
  destruct (Z.eqb_spec (status (thread k c)) RT_THREAD_RUNNING) as [Hrun|Hrun].
  2:{ wp_steps. by apply (switch_leaves Q k c t p l). }
  unfold upd_thread at 1. wp_steps. cbv beta. set (x := thread k c).
  fold (yielding x). rewrite <- (negb_involutive (_ =? 0)). fold (yielding x).
  destruct (Z.ltb_spec (current_priority x) p) as [Hlt|Hge]; [apply (switch_keeps Q k c t p l); try done; by left|].
  destruct (Z.eqb_spec (current_priority x) p) as [Heq|Hne]; cbn [andb]; [|apply (switch_takes Q k c t p l); try done; left; fold x; lia].
  destruct (yielding x) eqn:Ey; [apply (switch_takes Q k c t p l); try done; right; by split|apply (switch_keeps Q k c t p l); try done; right; by split].
Qed.

(** The thread that runs has the best priority of those that can. *)
Lemma scheduled_highest Q k c c' Q' k' u : consistent Q k -> scheduled Q k c c' Q' k' ->
  status (thread k' u) = RT_THREAD_READY -> current_priority (thread k' c') <= current_priority (thread k' u).
Proof.
  intros Hc [Hok Hp Hcur Hth Hst Hsr] Hu. pose proof (ready_in Q' k' u Hok Hu) as Hin.
  pose proof (c_priority Q' k' Hok u) as Hpu. destruct Hpu as [Hpu _]; [by rewrite Hu|]. unfold RT_THREAD_PRIORITY_MAX in Hpu.
  destruct (Hth c') as [v Ev]. rewrite Ev. cbn [current_priority set_stat].
  inversion Hp as [Hrun Hbest|t p l E Hless Hpr Hc1]; subst.
  - destruct (Hbest (current_priority (thread k' u))) as [|[]]; [lia| |lia|lia]. intros E. by rewrite E in Hin; apply elem_of_nil in Hin.
  - apply elem_of_without in Hin as [Hne Hin].
    destruct (ready_status Q k c' p Hc) as [_ Hpc]; [rewrite E; left|]. rewrite Hpc.
    destruct (Z.lt_ge_cases (current_priority (thread k' u)) p) as [Hlt|]; [|done]. exfalso.
    assert (forall q, q = Ready (current_priority (thread k' u)) -> u ∉ Q q) as Hno.
    { intros q ->. rewrite Hless by lia. apply not_elem_of_nil. }
    destruct (Z.eqb_spec (status (thread k c)) RT_THREAD_RUNNING) as [Hrun|Hrun]; [|by apply (Hno _ eq_refl)].
    destruct (decide (current_priority (thread k c) = current_priority (thread k' u))) as [Eq|Hq].
    + destruct (Hc1 Hrun) as [|[]]; lia.
    + rewrite fn_lookup_insert_ne in Hin by congruence. by apply (Hno _ eq_refl).
Qed.

(** ** Timers *)

Lemma timers_relink R k k' : timers_ok R k -> linked (rows k') R -> thread_timer k' = thread_timer k -> rt_tick k' = rt_tick k ->
  (forall t, activated (thread_timer k t) = true -> status (thread k' t) = status (thread k t)) -> timers_ok R k'.
Proof.
  intros [Ro Ex Ac Su On Ti So Du] Er Et Ek Hs. split; unfold due; rewrite ?Et, ?Ek; try done.
  intros t Ht. rewrite Hs by done. by apply Su.
Qed.
Lemma timers_frame R k k' : timers_ok R k -> rows k' = rows k -> thread_timer k' = thread_timer k -> rt_tick k' = rt_tick k ->
  (forall t, activated (thread_timer k t) = true -> status (thread k' t) = status (thread k t)) -> timers_ok R k'.
Proof.
  intros Ht Er. apply timers_relink; [done|]. rewrite Er. apply Ht.
Qed.
Lemma timers_ext R R' k : (forall q, R q = R' q) -> timers_ok R k -> timers_ok R' k.
Proof.
  intros E [Ro Ex Ac Su On Ti So Du]. split; rewrite <- ?E; try done.
  all: first [by apply (linked_proper (rows k) (rows k) eq_refl R R' E)|intros t; rewrite <- E; by auto].
Qed.

Lemma scheduled_timers Q R k c c' Q' k' : consistent Q k -> rt_current_thread k = Some c ->
  timers_ok R k -> scheduled Q k c c' Q' k' -> timers_ok R k'.
Proof.
  intros Hc Hcur Ht [Hok Hp _ Hth Hst Hsr]. apply (timers_frame R k); [done|apply Hsr..|]. intros u Hu.
  pose proof (t_suspended R k Ht u Hu) as Hsu. rewrite Hst. case_decide as H1.
  - subst u. inversion Hp as [Hrun _|t p l E _ _ _]; subst; [by rewrite Hsu in Hrun|].
    destruct (ready_status Q k c' p Hc) as [Hr _]; [rewrite E; left|]. by rewrite Hsu in Hr.
  - rewrite decide_False; [done|]. intros [-> Hr]. by rewrite Hsu in Hr.
Qed.

(** Stopping a timer takes it out of the list. *)
Lemma activated_deactivate x : activated (deactivate x) = false.
Proof.
  unfold activated, deactivate, RT_TIMER_FLAG_ACTIVATED. cbn [flag set_flag]. rewrite <- Z.land_assoc.
  change (Z.land (Z.lnot 1) 1) with 0. by rewrite Z.land_0_r.
Qed.
Lemma deactivate_flag x : flag x = 0 \/ flag x = RT_TIMER_FLAG_ACTIVATED -> flag (deactivate x) = 0.
Proof. unfold deactivate, set_flag. cbn [flag]. by intros [-> | ->]. Qed.

Lemma sorted_without (P : tid -> tid -> Prop) l t : StronglySorted P l -> StronglySorted P (filter (fun u => u <> t) l).
Proof.
  induction 1 as [|u l Hs IH Hf]; [constructor|]. destruct (decide (u = t)) as [->|Hne].
  - by rewrite filter_cons_False by tauto.
  - rewrite filter_cons_True by done. constructor; [done|]. rewrite Forall_forall in *. intros v [_ Hv]%list_elem_of_filter. by apply Hf.
Qed.
Lemma sorted_weaken (P P' : tid -> tid -> Prop) l :
  (forall u v, u ∈ l -> v ∈ l -> P u v -> P' u v) -> StronglySorted P l -> StronglySorted P' l.
Proof.
  intros H Hs. induction Hs as [|u l Hs IH Hf]; [constructor|]. constructor.
  - apply IH. intros v w Hv Hw. apply H; by right.
  - rewrite Forall_forall in *. intros v Hv. apply H; [left|by right|by apply Hf].
Qed.

Lemma sorted_insert (f : tid -> Z) xs t ys :
  StronglySorted (fun t u => f t <= f u) (xs ++ ys) -> Forall (fun u => f u <= f t) xs ->
  (forall u, head ys = Some u -> f t < f u) -> StronglySorted (fun t u => f t <= f u) (xs ++ t :: ys).
Proof.
  intros Hs Hx Hy. induction xs as [|x xs IH]; cbn [app] in *.
  - constructor; [done|]. destruct ys as [|y ys]; [constructor|]. specialize (Hy y eq_refl).
    apply StronglySorted_inv in Hs as [_ Hf]. constructor; [lia|]. eapply Forall_impl; [exact Hf|]. cbn. intros; lia.
  - apply StronglySorted_inv in Hs as [Hs Hf]. apply Forall_cons in Hx as [Hx1 Hx2]. constructor; [by apply IH|].
    rewrite Forall_app in *. destruct Hf as [Hf1 Hf2]. split; [done|]. by constructor.
Qed.

(** The state without a timer. *)
Definition stopped (t : tid) (l : links (node timer_queue tid)) (k : kernel) : kernel :=
  set_timer t (deactivate (thread_timer k t)) (set_rows l k).

Lemma stopped_ok R k t l : timers_ok R k -> linked l (without t R) -> timers_ok (without t R) (stopped t l k).
Proof.
  intros [Ro Ex Ac Su On Ti So Du] L. unfold stopped.
  assert (forall u, u <> t -> thread_timer (set_timer t (deactivate (thread_timer k t)) (set_rows l k)) u = thread_timer k u) as Hu.
  { intros u Hne. cbn [thread_timer set_timer]. by rewrite fn_lookup_insert_ne. }
  assert (thread_timer (set_timer t (deactivate (thread_timer k t)) (set_rows l k)) t = deactivate (thread_timer k t)) as Ht by apply fn_lookup_insert.
  assert (forall u, due (set_timer t (deactivate (thread_timer k t)) (set_rows l k)) u = due k u) as Hd.
  { intros u. unfold due. destruct (decide (u = t)) as [->|Hne]; [by rewrite Ht|by rewrite Hu]. }
  split; try done.
  - unfold without. by rewrite Ex.
  - intros u. rewrite elem_of_without. destruct (decide (u = t)) as [->|Hne]; [rewrite Ht, activated_deactivate; split; [tauto|done]|].
    rewrite Hu by done. rewrite <- Ac. tauto.
  - intros u. destruct (decide (u = t)) as [->|Hne]; [by rewrite Ht, activated_deactivate|rewrite Hu by done; apply Su].
  - intros u. destruct (decide (u = t)) as [->|Hne]; [rewrite Ht; left; by apply deactivate_flag|rewrite Hu by done; apply On].
  - apply sorted_without. apply (sorted_weaken (fun t u => due k t <= due k u)); [|done]. intros u v _ _. by rewrite !Hd.
  - intros u [_ Hin]%elem_of_without. rewrite Hd. by apply Du.
Qed.

Lemma timer_place R k t : timers_ok R k -> (exists q, t ∈ R q) \/ in_no_list R t.
Proof.
  intros [Ro Ex Ac _ _ _ _ _]. destruct (activated (thread_timer k t)) eqn:E; [left; exists TimerList; by apply Ac|right].
  intros [|]; [rewrite Ac; by rewrite E|rewrite Ex; apply not_elem_of_nil].
Qed.
Lemma inactive_no_list R k t : timers_ok R k -> activated (thread_timer k t) = false -> in_no_list R t.
Proof.
  intros [Ro Ex Ac _ _ _ _ _] E [|]; [rewrite Ac; by rewrite E|rewrite Ex; apply not_elem_of_nil].
Qed.

Lemma timer_stop_spec R k t (Post : Z -> kernel -> Prop) : timers_ok R k ->
  (activated (thread_timer k t) = false -> Post (- RT_ERROR) k) ->
  (forall l, activated (thread_timer k t) = true -> linked l (without t R) -> Post RT_EOK (stopped t l k)) ->
  wp (rt_timer_stop t) k Post.
Proof.
  intros Ht H0 H1. unfold rt_timer_stop. wp_steps. destruct (activated (thread_timer k t)) eqn:E; cbn [negb].
  - unfold _rt_timer_remove, on_rows, upd_timer. wp_steps. apply H1; [done|]. cbn [rows].
    apply (linked_remove_in _ R TimerList); [apply Ht|by apply (t_active R k Ht)].
  - wp_steps. by apply H0.
Qed.

(** What an operation on one timer leaves alone. *)
Record only_timer (t : tid) k k' : Prop := {
  ot_timer : forall u, u <> t -> thread_timer k' u = thread_timer k u;
  ot_thread : thread k' = thread k;
  ot_tlists : tlists k' = tlists k;
  ot_group : rt_thread_ready_priority_group k' = rt_thread_ready_priority_group k;
  ot_lock : rt_scheduler_lock_nest k' = rt_scheduler_lock_nest k;
  ot_current : rt_current_thread k' = rt_current_thread k;
  ot_nest : rt_interrupt_nest k' = rt_interrupt_nest k;
  ot_tick : rt_tick k' = rt_tick k;
  ot_count : thread_count k' = thread_count k
}.

Lemma stopped_only t l k : only_timer t k (stopped t l k).
Proof. split; try done. intros u Hu. cbn. by rewrite fn_lookup_insert_ne. Qed.

Lemma only_timer_consistent Q t k k' : only_timer t k k' -> consistent Q k -> consistent Q k'.
Proof. intros [_ E1 E2 E3 _ E4 _ _ E5] []. split; by rewrite ?E1, ?E2, ?E3, ?E4, ?E5. Qed.

Lemma u32_i32_sub x y z : u32 (i32 (x - z) - i32 (y - z)) = u32 (x - y).
Proof.
  unfold wrap, swrap. change (2 ^ (32 - 1)) with (2 ^ 31).
  rewrite (Zminus_mod (_ - _) (_ - _)), (Zminus_mod ((_ + _) mod _)), Zmod_mod, <- (Zminus_mod (x - z + 2 ^ 31)).
  rewrite (Zminus_mod ((y - z + 2 ^ 31) mod _)), Zmod_mod, <- (Zminus_mod (y - z + 2 ^ 31)), <- Zminus_mod. f_equal. lia.
Qed.

(** The tests of [rt_timer_start] compare when the timers are due. *)
Lemma delta_tests a b : -1 <= a < 2 ^ 31 - 1 -> 0 <= b < 2 ^ 31 - 1 ->
  (if u32 (a - b) =? 0 then true else negb (u32 (a - b) <? RT_TICK_MAX / 2)) = (a <=? b).
Proof.
  intros Ha Hb. change (RT_TICK_MAX / 2) with 2147483647. unfold wrap. destruct (Z.leb_spec a b) as [H|H].
  - destruct (Z.eq_dec a b) as [->|]; [by rewrite Z.sub_diag|].
    replace ((a - b) mod 2 ^ 32) with (a - b + 2 ^ 32) by (apply (Z.mod_unique _ _ (-1)); lia).
    rewrite (proj2 (Z.eqb_neq _ 0)) by lia. by rewrite (proj2 (Z.ltb_ge _ _)) by lia.
  - rewrite Z.mod_small by lia. rewrite (proj2 (Z.eqb_neq _ 0)) by lia. by rewrite (proj2 (Z.ltb_lt _ _)) by lia.
Qed.

Abbreviation before xs := (List.last (Head TimerList :: (Elem <$> xs)) (Head TimerList) : node timer_queue tid).

Lemma row_search_spec R k t n : linked (rows k) R -> in_no_list R t ->
  i32 (timeout_tick (thread_timer k t) - rt_tick k) = n -> 0 <= n < 2 ^ 31 - 1 ->
  (forall u, u ∈ R TimerList -> -1 <= due k u < 2 ^ 31 - 1) ->
  forall fuel xs ys, R TimerList = xs ++ ys -> (length ys < fuel)%nat -> Forall (fun u => due k u <= n) xs ->
  exists xs' ys', R TimerList = xs' ++ ys' /\ Forall (fun u => due k u <= n) xs' /\
    (forall u, head ys' = Some u -> n < due k u) /\ row_search fuel t (before xs) k = Ok (before xs', k).
Proof.
  intros L Ht Hn Hnr Hdue. induction fuel as [|fuel IH]; intros xs ys E Hf Hxs; [lia|].
  cbn [row_search]. rewrite (bind_ok _ _ k k (prev (rows k) (Head TimerList)) eq_refl), (prev_head _ R _ L).
  destruct ys as [|y ys].
  - rewrite bool_decide_true by (by rewrite E, app_nil_r). exists xs, []. by split_and!.
  - rewrite bool_decide_false.
    2:{ rewrite E. intros Eb. apply before_last in Eb; [done|]. rewrite <- E. apply (lk_nodup _ _ L). }
    rewrite (bind_ok _ _ k k (next (rows k) (before xs)) eq_refl), (next_before _ R _ xs (y :: ys) L E). cbn [hd fmap list_fmap entry].
    rewrite (bind_ok _ _ k k y eq_refl), (bind_ok _ _ k k _ eq_refl).
    assert (-1 <= due k y < 2 ^ 31 - 1) as Hy by (apply Hdue; rewrite E; apply elem_of_app; right; left).
    rewrite <- (u32_i32_sub _ _ (rt_tick k)), Hn. change (i32 (timeout_tick (thread_timer k y) - rt_tick k)) with (due k y).
    pose proof (delta_tests (due k y) n Hy Hnr) as Htest.
    assert (exists xs' ys', R TimerList = xs' ++ ys' /\ Forall (fun u => due k u <= n) xs' /\
      (forall u, head ys' = Some u -> n < due k u) /\
      (if due k y <=? n then row_search fuel t (Elem y) k else Ok (before xs, k)) = Ok (before xs', k)) as (xs' & ys' & H1 & H2 & H3 & H4).
    { destruct (Z.leb_spec (due k y) n).
      - destruct (IH (xs ++ [y]) ys) as (xs' & ys' & H1 & H2 & H3 & H4).
        + by rewrite <- app_assoc.
        + cbn in Hf. lia.
        + rewrite Forall_app, Forall_singleton. by split.
        + exists xs', ys'. split_and!; try done.
          assert (before (xs ++ [y]) = Elem y) as Eb by (rewrite fmap_app, app_comm_cons; apply List.last_last). by rewrite Eb in H4.
      - exists xs, (y :: ys). split_and!; try done. by intros u [= <-]. }
    exists xs', ys'. split_and!; try done. rewrite <- H4, <- Htest. destruct (u32 (due k y - n) =? 0); [done|]. by destruct (u32 (due k y - n) <? RT_TICK_MAX / 2).
Qed.

Lemma timer_start_spec R k t (Post : Z -> kernel -> Prop) :
  timers_ok R k -> status (thread k t) = RT_THREAD_SUSPEND -> 0 <= init_tick (thread_timer k t) < 2 ^ 31 - 1 ->
  (length (R TimerList) <= thread_count k)%nat ->
  (forall xs ys k', without t R TimerList = xs ++ ys -> timers_ok (<[TimerList := xs ++ t :: ys]> (without t R)) k' ->
    only_timer t k k' -> thread_timer k' t = Rt_timer RT_TIMER_FLAG_ACTIVATED (init_tick (thread_timer k t)) (u32 (rt_tick k + init_tick (thread_timer k t))) ->
    due k' t = init_tick (thread_timer k t) -> Post RT_EOK k') ->
  wp (rt_timer_start t) k Post.
Proof.
  intros Ht Hst Hi Hlen HQ. unfold rt_timer_start, _rt_timer_remove, on_rows, upd_timer. wp_steps.
  set (l0 := rt_list_remove (Elem t) (rows k)). set (i := init_tick (thread_timer k t)) in *.
  assert (linked l0 (without t R)) as L0 by (apply linked_remove; [apply Ht|by apply (timer_place R k)]).
  pose proof (stopped_ok R k t l0 Ht L0) as Hs. change (set_timer t (deactivate (thread_timer (set_rows l0 k) t)) (set_rows l0 k)) with (stopped t l0 k).
  set (k0 := stopped t l0 k) in *.
  assert (thread_timer k0 t = deactivate (thread_timer k t)) as E0 by apply fn_lookup_insert. rewrite E0.
  assert (flag (deactivate (thread_timer k t)) = 0) as Ef by (apply deactivate_flag, Ht).
  change (init_tick (deactivate (thread_timer k t))) with i.
  unfold rt_assert. rewrite (proj2 (Z.ltb_lt i _)) by (change (RT_TICK_MAX / 2) with 2147483647; lia). wp_steps.
  change (rt_tick k0) with (rt_tick k). rewrite E0. set (k1 := set_timer t (set_timeout_tick (u32 (rt_tick k + i)) (deactivate (thread_timer k t))) k0).
  assert (thread_timer k1 t = set_timeout_tick (u32 (rt_tick k + i)) (deactivate (thread_timer k t))) as E1 by apply fn_lookup_insert.
  assert (forall u, u <> t -> thread_timer k1 u = thread_timer k u) as E1'.
  { intros u Hu. unfold k1, k0, stopped. cbn [thread_timer set_timer set_rows]. by rewrite !fn_lookup_insert_ne. }
  assert (i32 (timeout_tick (thread_timer k1 t) - rt_tick k1) = i) as Edue.
  { rewrite E1. cbn [timeout_tick set_timeout_tick]. change (rt_tick k1) with (rt_tick k).
    assert (i32 (u32 (rt_tick k + i) - rt_tick k) = i32 (u32 (u32 (rt_tick k + i) - rt_tick k))) as -> by (symmetry; apply swrap_wrap; lia).
    assert (u32 (u32 (rt_tick k + i) - rt_tick k) = i) as ->; [|apply swrap_small; lia].
    unfold wrap. rewrite Zminus_mod_idemp_l. replace (rt_tick k + i - rt_tick k) with i by lia. apply Z.mod_small. lia. }
  assert (forall u, u ∈ without t R TimerList -> due k1 u = due k u) as Hd1.
  { intros u [Hu _]%elem_of_without. unfold due. by rewrite E1'. }
  destruct (row_search_spec (without t R) k1 t i L0 (without_in t R) Edue Hi) with (fuel := S (thread_count k)) (xs := @nil tid) (ys := without t R TimerList)
    as (xs & ys & Exy & Hxs & Hys & Erun); [|done| |constructor|].
  { intros u Hu. rewrite Hd1 by done. apply elem_of_without in Hu as [_ Hu]. by apply (t_due R k Ht). }
  { unfold without. pose proof (length_filter (fun u => u <> t) (R TimerList)). lia. }
  change (thread_count k1) with (thread_count k). unfold wp at 1. change (before []) with (Head TimerList : node timer_queue tid) in Erun. rewrite Erun.
  wp_steps. cbn [rows set_rows set_timer].
  destruct (insert_place l0 (without t R) TimerList xs ys t L0 (without_in t R) Exy) as [L1 _].
  change (rows k1) with l0. set (l1 := rt_list_insert_after (before xs) (Elem t) l0) in *. cbn [thread_timer set_rows].
  rewrite E1. set (x2 := set_flag _ _). assert (x2 = Rt_timer RT_TIMER_FLAG_ACTIVATED i (u32 (rt_tick k + i))) as Ex2.
  { unfold x2, set_flag. cbn [flag set_timeout_tick init_tick timeout_tick]. by rewrite Ef. }
  rewrite Ex2. set (k2 := set_timer t _ (set_rows l1 k1)).
  assert (thread_timer k2 t = Rt_timer RT_TIMER_FLAG_ACTIVATED i (u32 (rt_tick k + i))) as E2 by apply fn_lookup_insert.
  assert (forall u, u <> t -> thread_timer k2 u = thread_timer k u) as E2'.
  { intros u Hu. unfold k2. cbn [thread_timer set_timer set_rows]. by rewrite fn_lookup_insert_ne, E1'. }
  assert (due k2 t = i) as Hd2 by (rewrite <- Edue; unfold due; rewrite E2, E1; reflexivity).
  assert (forall u, u <> t -> due k2 u = due k u) as Hd2' by (intros u Hu; unfold due; by rewrite E2').
  apply (HQ xs ys); [done| |by split|done|done].
  destruct Ht as [Ro Ex Ac Su On Ti So Du]. split; try done.
  - by rewrite fn_lookup_insert_ne; [unfold without; rewrite Ex|].
  - intros u. rewrite fn_lookup_insert, <- Permutation_middle, <- Exy, elem_of_cons, elem_of_without.
    destruct (decide (u = t)) as [->|Hu]; [rewrite E2; split; [done|by left]|]. rewrite E2' by done. rewrite <- Ac. tauto.
  - intros u. destruct (decide (u = t)) as [->|Hu]; [done|rewrite E2' by done; apply Su].
  - intros u. destruct (decide (u = t)) as [->|Hu]; [rewrite E2; by right|rewrite E2' by done; apply On].
  - rewrite fn_lookup_insert. clear HQ Erun Hs.
    assert (StronglySorted (fun t u => due k2 t <= due k2 u) (xs ++ ys)) as Hsort.
    { rewrite <- Exy. apply (sorted_weaken (fun t u => due k t <= due k u)); [|by apply sorted_without].
      intros u v [Hu _]%elem_of_without [Hv _]%elem_of_without. by rewrite !Hd2'. }
    assert (forall u, u ∈ xs ++ ys -> u <> t /\ u ∈ without t R TimerList) as Hnt.
    { intros u Hu. rewrite <- Exy in Hu. split; [by apply elem_of_without in Hu as [? _]|done]. }
    apply sorted_insert; [done| |].
    + rewrite Forall_forall in *. intros u Hu. destruct (Hnt u) as [Hu1 Hu2]; [apply elem_of_app; by left|].
      specialize (Hxs u Hu). rewrite Hd1 in Hxs by done. by rewrite Hd2, Hd2'.
    + intros u Hu. assert (u ∈ ys) as Hin by (destruct ys; [done|]; injection Hu as ->; left).
      destruct (Hnt u) as [Hu1 Hu2]; [apply elem_of_app; by right|]. specialize (Hys u Hu). rewrite Hd1 in Hys by done. by rewrite Hd2, Hd2'.
  - intros u. rewrite fn_lookup_insert, <- Permutation_middle, <- Exy, elem_of_cons, elem_of_without.
    intros [->|[Hu Hin]]; [rewrite Hd2; lia|rewrite Hd2' by done; by apply Du].
Qed.

Lemma timers_length Q R k : consistent Q k -> timers_ok R k -> (length (R TimerList) <= thread_count k)%nat.
Proof.
  intros Hc Ht. rewrite <- (length_seq (thread_count k) 0). apply submseteq_length, NoDup_submseteq.
  - apply (lk_nodup _ _ (t_rows R k Ht)).
  - intros t Hin%(t_active R k Ht)%(t_suspended R k Ht). apply elem_of_seq. split; [lia|].
    apply (c_count Q k Hc). by rewrite Hin.
Qed.

(** ** Suspending and resuming *)

(** Of a thread that can run, the timer is not started. *)
Lemma not_active R k t : timers_ok R k -> status (thread k t) <> RT_THREAD_SUSPEND -> activated (thread_timer k t) = false.
Proof. intros Ht Hs. destruct (activated _) eqn:E; [|done]. destruct Hs. by apply (t_suspended R k Ht t). Qed.

Lemma suspend_spec Q R k t (Post : Z -> kernel -> Prop) :
  consistent Q k -> timers_ok R k -> status (thread k t) = RT_THREAD_READY \/ status (thread k t) = RT_THREAD_RUNNING ->
  (forall k', consistent (without t Q) k' -> timers_ok R k' ->
    thread k' = <[t := with_status RT_THREAD_SUSPEND (thread k t)]> (thread k) ->
    rt_current_thread k' = rt_current_thread k -> same_rest k k' -> Post RT_EOK k') ->
  wp (rt_thread_suspend t) k Post.
Proof.
  intros Hc Ht Hst HQ. pose proof Hc as [L P Pr Ru Co Gr]. unfold rt_thread_suspend, rt_thread_self. wp_steps.
  assert (negb (status (thread k t) =? RT_THREAD_READY) && negb (status (thread k t) =? RT_THREAD_RUNNING) = false) as ->.
  { destruct Hst as [-> | ->]; reflexivity. }
  assert (status (thread k t) <> RT_THREAD_INIT) as Hni by (by destruct Hst as [-> | ->]).
  assert (forall (P0 : unit -> kernel -> Prop), P0 tt k -> wp (when (status (thread k t) =? RT_THREAD_RUNNING) (rt_assert (bool_decide (rt_current_thread k = Some t)))) k P0) as Hassert.
  { intros P0 H0. destruct (Z.eqb_spec (status (thread k t)) RT_THREAD_RUNNING) as [Hr|]; cbn [when]; [|by wp_steps].
    rewrite bool_decide_true by (by apply Ru). by cbn. }
  wp_steps. apply Hassert. wp_steps. destruct (P t) as (o & Hp & Ho).
  eapply (remove_thread_spec Q k t o); [done|done|by apply Pr|done| |].
  { intros p ->. inversion Ho; [done|]. subst q. discriminate. }
  intros l g L' G'. unfold upd_thread. wp_steps. cbn [thread set_group set_tlists].
  set (k1 := set_thread t _ _).
  assert (thread k1 = <[t := with_status RT_THREAD_SUSPEND (thread k t)]> (thread k)) as Eth by reflexivity.
  assert (timers_ok R k1) as Ht1.
  { apply (timers_frame R k); try done. intros u Hu. rewrite Eth. destruct (decide (u = t)) as [->|Hne]; [|by rewrite fn_lookup_insert_ne].
    rewrite (t_suspended R k Ht t Hu) in Hst. by destruct Hst. }
  apply (timer_stop_spec R k1 t); [done| |].
  2:{ intros l1 Ha. exfalso. change (thread_timer k1 t) with (thread_timer k t) in Ha. rewrite (not_active R k t) in Ha; [done|done|].
    by destruct Hst as [-> | ->]. }
  intros _. wp_steps. apply HQ; [|done..|by split]. apply (consistent_move Q _ k k1 t None); try done.
  - intros u q Hne. rewrite elem_of_without. tauto.
  - apply placed_without.
  - intros u Hne. by rewrite Eth, fn_lookup_insert_ne.
  - rewrite Eth, fn_lookup_insert. apply place_suspended. by apply status_with.
  - intros _. rewrite Eth, fn_lookup_insert. split; [by apply (Pr t)|by apply Co].
  - rewrite Eth, fn_lookup_insert, status_with by done. done.
  - intros u Hne. apply Ru.
Qed.

(** The lists when a thread leaves its waiting list and can run. *)
Definition woken (current : option tid) (t : tid) (p : Z) (Q : queue -> list tid) : queue -> list tid :=
  if decide (current = Some t) then without t Q else <[Ready p := without t Q (Ready p) ++ [t]]> (without t Q).
Definition woken_status (current : option tid) (t : tid) : Z :=
  if decide (current = Some t) then RT_THREAD_RUNNING else RT_THREAD_READY.

Lemma suspended_not_ready Q k t p : consistent Q k -> status (thread k t) = RT_THREAD_SUSPEND -> t ∉ Q (Ready p).
Proof. intros Hc Hs Hin. destruct (ready_status Q k t p Hc Hin) as [Hr _]. by rewrite Hs in Hr. Qed.

(** From [k], the thread's node and perhaps its timer and error have changed in [k1]. *)
Lemma wake_spec Q k k1 t x (Post : unit -> kernel -> Prop) :
  consistent Q k -> status (thread k t) = RT_THREAD_SUSPEND ->
  (forall u, thread k1 u = (<[t := x]> (thread k)) u) -> status x = RT_THREAD_SUSPEND -> current_priority x = current_priority (thread k t) ->
  number_mask x = number_mask (thread k t) ->
  linked (tlists k1) (without t Q) -> rt_thread_ready_priority_group k1 = rt_thread_ready_priority_group k ->
  rt_current_thread k1 = rt_current_thread k -> thread_count k1 = thread_count k ->
  (forall k', consistent (woken (rt_current_thread k) t (current_priority x) Q) k' ->
    (forall u, thread k' u = (<[t := with_status (woken_status (rt_current_thread k) t) x]> (thread k)) u) ->
    rt_current_thread k' = rt_current_thread k -> same_rest k1 k' -> Post tt k') ->
  wp (rt_schedule_insert_thread t) k1 Post.
Proof.
  intros Hc Hs Hth Hx Hxp Hxm L1 Hg Hcu Hco HQ. pose proof Hc as [L P Pr Ru Co Gr].
  assert (status (thread k t) <> RT_THREAD_INIT) as Hni by (by rewrite Hs).
  assert (priority_ok x) as Hpx by (unfold priority_ok; rewrite Hxp, Hxm; by apply (Pr t)).
  assert (thread k1 t = x) as Ex by (by rewrite Hth, fn_lookup_insert).
  assert (group_ok (rt_thread_ready_priority_group k1) (without t Q)) as Gr1.
  { rewrite Hg. destruct Gr as [Gr Gb]. split; [done|]. intros p Hp. rewrite Gb by done. unfold without.
    by rewrite filter_ne_notin by (by apply (suspended_not_ready Q k)). }
  unfold woken, woken_status in HQ. destruct (decide (rt_current_thread k = Some t)) as [Hcur|Hcur].
  - unfold rt_schedule_insert_thread, rt_thread_self, upd_thread. wp_steps. rewrite Hcu, bool_decide_true by done. wp_steps.
    rewrite Ex. assert (forall u, thread (set_thread t (with_status RT_THREAD_RUNNING x) k1) u = (<[t := with_status RT_THREAD_RUNNING x]> (thread k)) u) as Hth'.
    { intros u. cbn [thread set_thread]. destruct (decide (u = t)) as [->|]; [by rewrite !fn_lookup_insert|by rewrite !fn_lookup_insert_ne, Hth, fn_lookup_insert_ne]. }
    apply HQ; [|done|done|by split]. apply (consistent_move Q _ k _ t None); try done; cbn [rt_current_thread set_thread thread_count].
    + intros u q Hne. rewrite elem_of_without. tauto.
    + apply placed_without.
    + intros u Hne. by rewrite Hth', fn_lookup_insert_ne.
    + rewrite Hth', fn_lookup_insert. apply place_running. by apply status_with.
    + intros _. rewrite Hth', fn_lookup_insert. split; [done|by apply Co].
    + intros _. by rewrite Hcu.
    + intros u Hne Hr. rewrite Hcu. by apply Ru.
  - apply (insert_thread_spec (without t Q)); [done|done|by rewrite Ex|apply without_in|by rewrite Hcu|]. cbv zeta. rewrite Ex.
    intros l g L' G'.
    assert (forall u, thread (set_group g (set_tlists l (set_thread t (with_status RT_THREAD_READY x) k1))) u = (<[t := with_status RT_THREAD_READY x]> (thread k)) u) as Hth'.
    { intros u. cbn [thread set_thread set_group set_tlists]. destruct (decide (u = t)) as [->|]; [by rewrite !fn_lookup_insert|by rewrite !fn_lookup_insert_ne, Hth, fn_lookup_insert_ne]. }
    apply HQ; [|done|done|by split]. apply (consistent_move Q _ k _ t (Some (Ready (current_priority x)))); try done; cbn [rt_current_thread set_thread set_group set_tlists thread_count].
    + intros u q Hne. destruct (decide (q = Ready (current_priority x))) as [->|Hq].
      * rewrite fn_lookup_insert, elem_of_app, list_elem_of_singleton, elem_of_without. tauto.
      * rewrite fn_lookup_insert_ne, elem_of_without by done. tauto.
    + intros q. destruct (decide (q = Ready (current_priority x))) as [->|Hq].
      * rewrite fn_lookup_insert, elem_of_app, list_elem_of_singleton. tauto.
      * rewrite fn_lookup_insert_ne, elem_of_without by done. split; [tauto|]. intros [= <-]. done.
    + intros u Hne. by rewrite Hth', fn_lookup_insert_ne.
    + rewrite Hth', fn_lookup_insert. apply place_ready. by apply status_with.
    + intros _. rewrite Hth', fn_lookup_insert. split; [done|by apply Co].
    + rewrite Hth', fn_lookup_insert, status_with by done. done.
    + intros u Hne Hr. rewrite Hcu. by apply Ru.
Qed.

(** What an operation on threads and one timer leaves alone. *)
Record but_timer (t : tid) k k' : Prop := {
  bt_timer : forall u, u <> t -> thread_timer k' u = thread_timer k u;
  bt_lock : rt_scheduler_lock_nest k' = rt_scheduler_lock_nest k;
  bt_nest : rt_interrupt_nest k' = rt_interrupt_nest k;
  bt_tick : rt_tick k' = rt_tick k;
  bt_count : thread_count k' = thread_count k
}.

Lemma resume_spec Q R k t (Post : Z -> kernel -> Prop) :
  consistent Q k -> timers_ok R k -> status (thread k t) = RT_THREAD_SUSPEND ->
  (forall k', consistent (woken (rt_current_thread k) t (current_priority (thread k t)) Q) k' -> timers_ok (without t R) k' ->
    (forall u, thread k' u = (<[t := with_status (woken_status (rt_current_thread k) t) (thread k t)]> (thread k)) u) ->
    rt_current_thread k' = rt_current_thread k -> but_timer t k k' -> Post RT_EOK k') ->
  wp (rt_thread_resume t) k Post.
Proof.
  intros Hc Ht Hst HQ. unfold rt_thread_resume, on_tlists. wp_steps. rewrite Hst, Z.eqb_refl. cbn [negb]. wp_steps.
  set (l := rt_list_remove (Elem t) (tlists k)). set (k1 := set_tlists l k).
  destruct (c_place Q k Hc t) as (o & Hp & _).
  assert (linked l (without t Q)) as L1 by (apply linked_remove; [apply Hc|by apply (placed_linked (L := tlists k) Q t o (c_links Q k Hc))]).
  assert (forall k2, timers_ok (without t R) k2 -> activated (thread_timer k2 t) = false -> only_timer t k1 k2 ->
    wp (rt_schedule_insert_thread t ;;; ret RT_EOK) k2 Post) as Hrest.
  { intros k2 Ht2 Hn2 Ho. wp_steps. destruct Ho as [O1 O2 O3 O4 O5 O6 O7 O8 O9].
    apply (wake_spec Q k k2 t (thread k t)); try done.
    - intros u. rewrite O2. destruct (decide (u = t)) as [->|]; by rewrite ?fn_lookup_insert, ?fn_lookup_insert_ne.
    - by rewrite O3.
    - intros k' Hc' Hth Hcu Hsr. wp_steps. apply HQ; try done.
      + apply (timers_frame _ k2); [done|apply Hsr..|]. intros u Hu. rewrite O2. cbn [thread k1 set_tlists].
        rewrite Hth. destruct (decide (u = t)) as [->|Hne]; [by rewrite Hn2 in Hu|]. by rewrite fn_lookup_insert_ne.
      + destruct Hsr as [S1 S2 S3 S4 S5 S6]. split; [|by rewrite S3, O5|by rewrite S4, O7|by rewrite S5, O8|by rewrite S6, O9]. intros u Hu. rewrite S1. by rewrite O1. }
  assert (timers_ok R k1) as Ht1 by (by apply (timers_frame R k)).
  apply (timer_stop_spec R k1 t); [done| |].
  - intros Hn. apply Hrest; [|done|by split]. apply (timers_ext R); [|done].
    intros q. symmetry. apply without_notin. by apply (inactive_no_list R k1).
  - intros l1 _ L2. apply Hrest; [by apply stopped_ok| |apply stopped_only].
    unfold stopped. cbn [thread_timer set_timer]. rewrite fn_lookup_insert. apply activated_deactivate.
Qed.

(** A thread that is ready or runs. *)
Definition can_run (x : rt_thread) : Prop := status x = RT_THREAD_READY \/ status x = RT_THREAD_RUNNING.

(** Scheduling moves threads between READY and RUNNING only. *)
Definition same_or_runs (x x' : rt_thread) : Prop := status x' = status x \/ (can_run x /\ can_run x').

Lemma scheduled_moves Q k c c' Q' k' u : consistent Q k -> rt_current_thread k = Some c -> scheduled Q k c c' Q' k' ->
  same_or_runs (thread k u) (thread k' u).
Proof.
  intros Hc Hcur [Hok Hp _ Hth Hst _]. unfold same_or_runs, can_run. rewrite Hst. case_decide as H1.
  - right. split; [|by right]. subst u. inversion Hp as [Hrun _|t p l E _ _ _]; subst; [by right|].
    left. destruct (ready_status Q k c' p Hc); [rewrite E; left|done].
  - case_decide as H2; [right|by left]. split; [right; apply H2|by left].
Qed.

(** The threads of [E] have left the waiting lists, and nothing else has changed there. *)
Definition keeps (E : tid -> Prop) Q Q' : Prop := forall u q, waiting q = true -> u ∈ Q' q <-> u ∈ Q q /\ ~ E u.

Lemma keeps_refl Q : keeps (fun _ => False) Q Q.
Proof. intros u q _. tauto. Qed.
Lemma keeps_trans E Q1 Q2 Q3 : keeps E Q1 Q2 -> keeps (fun _ => False) Q2 Q3 -> keeps E Q1 Q3.
Proof. intros H1 H2 u q Hq. rewrite (H2 u q Hq), (H1 u q Hq). tauto. Qed.

(** A thread that is not in the waiting lists leaves one of the others. *)
Lemma without_keeps Q k t : consistent Q k -> status (thread k t) <> RT_THREAD_SUSPEND -> keeps (fun _ => False) Q (without t Q).
Proof.
  intros Hc Hst u q Hq. rewrite elem_of_without. split; [tauto|]. intros [Hin _]. split; [|done]. intros ->.
  destruct (c_place Q k Hc t) as (o & Hp & Hok). apply Hp in Hin. subst o. inversion Hok; subst; by try discriminate Hq.
Qed.
Lemma append_keeps Q p l : keeps (fun _ => False) Q (<[Ready p := l]> Q).
Proof. intros u q Hq. rewrite fn_lookup_insert_ne by (intros <-; discriminate Hq). tauto. Qed.
Lemma keeps_weaken E E' Q Q' : (forall u, E u <-> E' u) -> keeps E Q Q' -> keeps E' Q Q'.
Proof. intros He H u q Hq. rewrite (H u q Hq), He. tauto. Qed.

Lemma scheduled_keeps Q k c c' Q' k' : consistent Q k -> scheduled Q k c c' Q' k' -> keeps (fun _ => False) Q Q'.
Proof.
  intros Hc [_ Hp _ _ _ _]. destruct Hp as [_ _|t p l E _ _ _]; [apply keeps_refl|].
  assert (t ∈ Q (Ready p)) as Hin by (rewrite E; left).
  intros u q Hq. rewrite elem_of_without.
  assert (u ∈ (if status (thread k c) =? RT_THREAD_RUNNING then <[Ready (current_priority (thread k c)) := Q (Ready (current_priority (thread k c))) ++ [c]]> Q else Q) q <-> u ∈ Q q) as ->.
  { destruct (_ =? _); [|done]. by rewrite fn_lookup_insert_ne by (intros <-; discriminate Hq). }
  split; [tauto|]. intros [Hu _]. split; [|done]. intros ->.
  pose proof (lk_unique _ _ (c_links Q k Hc) _ _ _ Hin Hu) as Eq. subst q. discriminate Hq.
Qed.

Lemma woken_keeps Q o t p : keeps (fun u => u = t) Q (woken o t p Q).
Proof.
  intros u q Hq. unfold woken. destruct (decide _); [rewrite elem_of_without; tauto|].
  rewrite fn_lookup_insert_ne by (intros <-; discriminate Hq). rewrite elem_of_without. tauto.
Qed.

(** The state between two operations of the kernel: [c] runs. *)
Record runs Q (c : tid) k : Prop := {
  r_ok : consistent Q k;
  r_current : rt_current_thread k = Some c;
  r_status : status (thread k c) = RT_THREAD_RUNNING;
  r_lock : rt_scheduler_lock_nest k = 0
}.

Lemma scheduled_runs Q k c c' Q' k' : rt_scheduler_lock_nest k = 0 -> scheduled Q k c c' Q' k' -> runs Q' c' k'.
Proof.
  intros Hl [Hok _ Hcur _ Hst Hsr]. split; try done; [|by rewrite (sr_lock _ _ Hsr)].
  rewrite Hst. by rewrite decide_True.
Qed.

(** No ready thread is better than the one that runs. *)
Definition highest c k : Prop := forall u, status (thread k u) = RT_THREAD_READY -> current_priority (thread k c) <= current_priority (thread k u).

Lemma timeout_spec Q k c t (Post : unit -> kernel -> Prop) :
  runs Q c k -> status (thread k t) = RT_THREAD_SUSPEND ->
  (forall Q' c' k', runs Q' c' k' -> highest c' k' -> can_run (thread k' t) ->
    (forall u, exists v, thread k' u = set_stat v (if decide (u = t) then set_error (- RT_ETIMEOUT) (thread k u) else thread k u)) ->
    (forall u, u <> t -> same_or_runs (thread k u) (thread k' u)) -> same_rest k k' -> keeps (fun u => u = t) Q Q' -> Post tt k') ->
  wp (rt_thread_timeout t) k Post.
Proof.
  intros [Hc Hcur Hrun Hlock] Hst HQ. unfold rt_thread_timeout, rt_assert, upd_thread, on_tlists. wp_steps.
  rewrite Hst, Z.eqb_refl. wp_steps. cbn [tlists set_thread]. set (x := set_error (- RT_ETIMEOUT) (thread k t)).
  assert (t <> c) as Htc by (intros ->; by rewrite Hst in Hrun).
  set (l := rt_list_remove (Elem t) (tlists k)). set (k1 := set_tlists l (set_thread t x k)).
  destruct (c_place Q k Hc t) as (o & Hp & _).
  apply (wake_spec Q k k1 t x); try done.
  { apply linked_remove; [apply Hc|by apply (placed_linked (L := tlists k) Q t o (c_links Q k Hc))]. }
  rewrite Hcur. unfold woken_status. rewrite decide_False by congruence. intros k2 Hc2 Hth2 Hcu2 Hsr2.
  assert (thread k2 c = thread k c) as Ec by (by rewrite Hth2, fn_lookup_insert_ne).
  assert (rt_scheduler_lock_nest k2 = 0) as Hl2 by (by rewrite (sr_lock _ _ Hsr2)).
  set (Q2 := woken (Some c) t (current_priority x) Q) in *.
  apply (schedule_spec Q2 k2 c); try done; [by rewrite Ec, Hrun|left; by rewrite Ec|].
  intros c' Q' k3 Hs. assert (rt_current_thread k2 = Some c) as Hcur2 by congruence.
  apply (HQ Q' c' k3); [by apply (scheduled_runs Q2 k2 c)|intros u; by apply (scheduled_highest Q2 k2 c c' Q')| | | | |].
  - destruct (scheduled_moves Q2 k2 c c' Q' k3 t Hc2 Hcur2 Hs) as [E|[_ H]]; [|done].
    left. rewrite E, Hth2, fn_lookup_insert. by apply status_with.
  - intros u. destruct (sch_thread _ _ _ _ _ _ Hs u) as [v Ev]. exists v. rewrite Ev, Hth2. case_decide as Hu.
    + subst u. by rewrite fn_lookup_insert.
    + by rewrite fn_lookup_insert_ne.
  - intros u Hu. pose proof (scheduled_moves Q2 k2 c c' Q' k3 u Hc2 Hcur2 Hs) as Hm. rewrite Hth2, fn_lookup_insert_ne in Hm by done. done.
  - apply (same_rest_trans k k2); [by destruct Hsr2; split|by apply Hs].
  - apply (keeps_trans _ Q Q2); [apply woken_keeps|]. by apply (scheduled_keeps Q2 k2 c c' Q' k3).
Qed.

(** ** The tick *)

(** The record of a thread but for its status word and its time slice. *)
Definition like (x x' : rt_thread) : Prop := exists v w, x' = set_stat v (set_remaining w x).

Lemma like_refl x : like x x.
Proof. exists (stat x), (remaining_tick x). by destruct x. Qed.
Lemma like_trans x y z : like x y -> like y z -> like x z.
Proof. intros (v & w & ->) (v' & w' & ->). by exists v', w'. Qed.
Lemma like_stat x v : like x (set_stat v x).
Proof. exists v, (remaining_tick x). by destruct x. Qed.

(** The threads of [E] have been woken by their timers, and nothing else has happened. *)
Definition clocked (E : tid -> Prop) Q k Q' k' : Prop := keeps E Q Q' /\ forall u,
  (E u -> can_run (thread k' u) /\ like (set_error (- RT_ETIMEOUT) (thread k u)) (thread k' u)) /\
  (~ E u -> same_or_runs (thread k u) (thread k' u) /\ like (thread k u) (thread k' u) /\
    thread_timer k' u = thread_timer k u).

Definition expired R k u : Prop := u ∈ R TimerList /\ due k u <= 0.

Lemma same_or_runs_trans x y z : same_or_runs x y -> same_or_runs y z -> same_or_runs x z.
Proof. unfold same_or_runs, can_run. intros [->|[H1 H2]] [E|[H3 H4]]; rewrite ?E in *; tauto. Qed.
Lemma same_or_runs_can x y : same_or_runs x y -> can_run x -> can_run y.
Proof. unfold same_or_runs, can_run. intros [->|[_ H]]; tauto. Qed.

Lemma clocked_none Q R k : (forall u, ~ expired R k u) -> clocked (expired R k) Q k Q k.
Proof.
  intros H. split; [apply (keeps_weaken (fun _ => False)); [intros u; split; [done|apply H]|apply keeps_refl]|]. intros u. split; [intros Hu; by destruct (H u)|]. intros _. split_and!; [by left|apply like_refl|done].
Qed.
Lemma clocked_ext (E E' : tid -> Prop) Q k Q' k' : (forall u, E u <-> E' u) -> clocked E Q k Q' k' -> clocked E' Q k Q' k'.
Proof. intros H [Hk Hc]. split; [by apply (keeps_weaken E)|]. intros u. destruct (Hc u) as [A B]. split; rewrite <- H; done. Qed.
Lemma clocked_trans (E1 E2 : tid -> Prop) Q1 k1 Q2 k2 Q3 k3 : (forall u, E1 u -> ~ E2 u) -> (forall u, Decision (E1 u)) -> (forall u, Decision (E2 u)) ->
  clocked E1 Q1 k1 Q2 k2 -> clocked E2 Q2 k2 Q3 k3 -> clocked (fun u => E1 u \/ E2 u) Q1 k1 Q3 k3.
Proof.
  intros Hd D1 D2 [K1 H1] [K2 H2]. split; [intros u q Hq; rewrite (K2 u q Hq), (K1 u q Hq); tauto|]. intros u. destruct (H1 u) as [A1 B1], (H2 u) as [A2 B2].
  destruct (decide (E1 u)) as [e1|e1]; [|destruct (decide (E2 u)) as [e2|e2]].
  - destruct (A1 e1) as (Hr & Hl). destruct (B2 (Hd u e1)) as (Hs & Hl' & _). split; [intros _|tauto].
    split; [by apply (same_or_runs_can (thread k2 u))|by apply (like_trans _ (thread k2 u))].
  - destruct (B1 e1) as (Hs & (v & w & Ev) & _). destruct (A2 e2) as (Hr & v' & w' & Ew). split; [intros _|tauto].
    split; [done|]. exists v', w'. by rewrite Ew, Ev.
  - destruct (B1 e1) as (Hs & Hl & Ht). destruct (B2 e2) as (Hs' & Hl' & Ht'). split; [tauto|intros _].
    split_and!; [by apply (same_or_runs_trans _ (thread k2 u))|by apply (like_trans _ (thread k2 u))|congruence].
Qed.

(** The test of [rt_timer_check]. *)
Lemma expired_test now d x : i32 (x - now) = d -> -1 <= d < 2 ^ 31 - 1 -> (u32 (now - x) <? RT_TICK_MAX / 2) = (d <=? 0).
Proof.
  intros Hd Hr. change (RT_TICK_MAX / 2) with 2147483647.
  assert (u32 (now - x) = u32 (- d)) as ->.
  { pose proof (u32_i32_sub now x now) as H. rewrite Z.sub_diag in H. change (i32 0) with 0 in H. rewrite Hd in H. by rewrite <- H, Z.sub_0_l. }
  unfold wrap. destruct (Z.leb_spec d 0).
  - rewrite Z.mod_small by lia. apply Z.ltb_lt. lia.
  - replace (- d mod 2 ^ 32) with (2 ^ 32 - d) by (apply (Z.mod_unique _ _ (-1)); lia). apply Z.ltb_ge. lia.
Qed.

(** The timers when one that has run out has left the temporary list. *)
Lemma expired_timers R k t k1 k' : timers_ok (without t R) k1 -> activated (thread_timer k1 t) = false -> thread k1 = thread k ->
  linked (rows k') (without t (<[Expired := [t]]> (without t R))) -> thread_timer k' = thread_timer k1 -> rt_tick k' = rt_tick k1 ->
  (forall u, u <> t -> same_or_runs (thread k u) (thread k' u)) -> timers_ok (without t R) k'.
Proof.
  intros Ht1 Hna Eth L Etm Ek Hmv. apply (timers_relink _ k1); [done| |done|done|].
  - apply (linked_proper (rows k') (rows k') eq_refl (without t (<[Expired := [t]]> (without t R)))); [|done].
    intros [|]; unfold without at 1; [rewrite fn_lookup_insert_ne by done; apply filter_ne_notin, without_in|].
    rewrite fn_lookup_insert, (t_expired _ _ Ht1). cbn. by rewrite decide_False by tauto.
  - intros u Hu. pose proof (t_suspended _ _ Ht1 u Hu) as Hsu. destruct (decide (u = t)) as [->|Hne]; [by rewrite Hna in Hu|].
    rewrite Eth in *. destruct (Hmv u Hne) as [|[[Hc1|Hc1] _]]; [done|by rewrite Hsu in Hc1..].
Qed.

(** The first timer runs out. *)
Lemma expire_spec Q R c k t : runs Q c k -> timers_ok R k -> t ∈ R TimerList ->
  wp (expire_timer t (thread_timer k t)) k (fun now k' => exists Q' c', now = rt_tick k' /\ runs Q' c' k' /\ timers_ok (without t R) k' /\
    highest c' k' /\ clocked (fun u => u = t) Q k Q' k' /\
    rt_tick k' = rt_tick k /\ rt_interrupt_nest k' = rt_interrupt_nest k /\ thread_count k' = thread_count k).
Proof.
  intros Hr Ht Hin. unfold expire_timer, _rt_timer_remove, on_rows, upd_timer. wp_steps.
  assert (flag (thread_timer k t) = RT_TIMER_FLAG_ACTIVATED) as Hfl.
  { destruct (t_one_shot R k Ht t) as [H0|]; [|done]. pose proof (proj1 (t_active R k Ht t) Hin) as Ha. unfold activated in Ha. by rewrite H0 in Ha. }
  rewrite Hfl. change (Z.land RT_TIMER_FLAG_ACTIVATED RT_TIMER_FLAG_PERIODIC =? 0) with true. cbn [when]. wp_steps.
  set (l1 := rt_list_remove (Elem t) (rows k)).
  assert (linked l1 (without t R)) as L1 by (apply (linked_remove_in _ R TimerList); [apply Ht|done]).
  cbv beta. change (set_timer t (deactivate (thread_timer (set_rows l1 k) t)) (set_rows l1 k)) with (stopped t l1 k). set (k1 := stopped t l1 k).
  assert (timers_ok (without t R) k1) as Ht1 by by apply stopped_ok.
  set (l2 := rt_list_insert_after (Head Expired) (Elem t) (rows k1)).
  assert (linked l2 (<[Expired := [t]]> (without t R))) as L2.
  { pose proof (linked_push l1 (without t R) Expired t L1 (without_in t R)) as L2. by rewrite (t_expired _ _ Ht1) in L2. }
  assert (runs Q c (set_rows l2 k1)) as Hr2 by (destruct Hr as [Hc Hcu Hst Hl]; split; [|done..]; destruct Hc; by split).
  apply (timeout_spec Q _ c t); [done|by apply (t_suspended R k Ht), (t_active R k Ht)|].
  intros Q' c' k3 Hr3 Hhi Hcan Hth Hmv Hsr Hke. wp_steps. rewrite (sr_rows _ _ Hsr). change (rows (set_rows l2 k1)) with l2.
  rewrite (isempty_spec _ _ _ L2), fn_lookup_insert, bool_decide_false by done. wp_steps.
  set (l4 := rt_list_remove (Elem t) (rows k3)). set (k4 := set_rows l4 k3).
  pose proof (sr_timer _ _ Hsr : thread_timer k4 = thread_timer k1) as Ek4.
  assert (thread_timer k4 t = deactivate (thread_timer k t)) as Etm by (rewrite Ek4; apply fn_lookup_insert).
  rewrite Etm. assert (flag (deactivate (thread_timer k t)) = 0) as -> by (by apply deactivate_flag; right).
  change (Z.land 0 RT_TIMER_FLAG_PERIODIC) with 0. cbn [Z.eqb negb andb when]. wp_steps.
  exists Q', c'. split_and!; [done| | |done| |exact (sr_tick _ _ Hsr)|exact (sr_nest _ _ Hsr)|exact (sr_count _ _ Hsr)].
  - destruct Hr3 as [Hc Hcu Hst Hl]; split; [|done..]; destruct Hc; by split.
  - apply (expired_timers R k t k1); try done.
    + rewrite <- Ek4, Etm. apply activated_deactivate.
    + unfold k4, l4. cbn [rows set_rows]. rewrite (sr_rows _ _ Hsr). apply (linked_remove_in l2 _ Expired); [done|]. rewrite fn_lookup_insert. left.
    + exact (sr_tick _ _ Hsr).
  - split; [done|]. intros u. destruct (Hth u) as [v Ev]. change (thread k4) with (thread k3). split.
    + intros ->. rewrite decide_True in Ev by done. split; [done|]. rewrite Ev. apply like_stat.
    + intros Hu. rewrite decide_False in Ev by done. split_and!; [by apply Hmv|rewrite Ev; apply like_stat|].
      rewrite Ek4. cbn. by rewrite fn_lookup_insert_ne.
Qed.

Lemma check_loop_spec fuel : forall Q R c k,
  runs Q c k -> timers_ok R k -> (length (R TimerList) < fuel)%nat ->
  wp (timer_check_loop fuel (rt_tick k)) k (fun _ k' => exists Q' R' c', runs Q' c' k' /\ timers_ok R' k' /\
    (highest c k -> highest c' k') /\ clocked (expired R k) Q k Q' k' /\ (forall u, u ∈ R' TimerList -> 1 <= due k' u) /\
    rt_tick k' = rt_tick k /\ rt_interrupt_nest k' = rt_interrupt_nest k /\ thread_count k' = thread_count k).
Proof.
  induction fuel as [|fuel IH]; intros Q R c k Hr Ht Hf; [lia|]. cbn [timer_check_loop]. wp_steps.
  rewrite (isempty_spec _ _ _ (t_rows R k Ht)). destruct (R TimerList) as [|t l] eqn:E.
  { rewrite bool_decide_true by done. wp_steps. exists Q, R, c. split_and!; try done.
    - apply clocked_none. intros u [Hu _]. by rewrite E in Hu; apply elem_of_nil in Hu.
    - intros u Hu. by rewrite E in Hu; apply elem_of_nil in Hu. }
  rewrite bool_decide_false by done. wp_steps. rewrite (next_head _ _ _ (t_rows R k Ht)), E. cbn [hd fmap list_fmap entry]. wp_steps.
  assert (t ∈ R TimerList) as Hin by (rewrite E; left).
  rewrite (expired_test _ (due k t)) by (try done; by apply (t_due R k Ht)).
  destruct (Z.leb_spec (due k t) 0) as [Hd|Hd].
  2:{ wp_steps. assert (forall u, u ∈ R TimerList -> 1 <= due k u) as Hall.
    { pose proof (t_sorted R k Ht) as Hs. rewrite E in Hs. apply StronglySorted_inv in Hs as [_ Hs]. rewrite Forall_forall in Hs.
      intros u Hu. rewrite E in Hu. apply elem_of_cons in Hu as [->|Hu]; [lia|]. specialize (Hs u Hu). lia. }
    exists Q, R, c. split_and!; try done. apply clocked_none. intros u [Hu Hle]. specialize (Hall u Hu). lia. }
  apply wp_bind. eapply wp_mono; [by apply (expire_spec Q R c k t)|]. cbn beta.
  intros now k4 (Q4 & c4 & -> & Hr4 & Ht4 & Hh4 & Hck4 & Et4 & En4 & Eco4).
  eapply wp_mono; [apply (IH Q4 (without t R) c4 k4 Hr4 Ht4)|].
  { rewrite (without_at (rows k) t R TimerList [] l TimerList (t_rows R k Ht) E), decide_True by done. cbn in Hf |- *. lia. }
  cbn beta. intros _ k' (Q5 & R5 & c5 & Hr5 & Ht5 & Hhi5 & Hck & Hon & Et5 & En5 & Eco5). exists Q5, R5, c5.
  split_and!; try done; [intros _; by apply Hhi5| |congruence..].
  apply (clocked_ext (fun u => u = t \/ expired (without t R) k4 u)).
  { intros u. unfold expired. rewrite elem_of_without. unfold due. rewrite Et4.
    destruct (decide (u = t)) as [->|Hu]; [tauto|]. destruct (proj2 Hck4 u) as [_ B]. destruct (B Hu) as (_ & _ & ->). tauto. }
  apply (clocked_trans _ _ Q k Q4 k4 Q5 k'); [|apply _|intros u; unfold expired; apply _|done|done].
  intros u -> [Hu _]. by apply without_in in Hu.
Qed.

(** The time passes: every timer is due a tick earlier. *)
Lemma due_tick k u : 0 <= due k u < 2 ^ 31 - 1 -> due (set_tick (u32 (rt_tick k + 1)) k) u = due k u - 1.
Proof.
  unfold due. cbn [rt_tick thread_timer set_tick]. set (x := timeout_tick (thread_timer k u)). intros Hd.
  rewrite <- (swrap_wrap 32 (x - u32 _)) by lia.
  assert (u32 (x - u32 (rt_tick k + 1)) = u32 (i32 (x - rt_tick k) - 1)) as ->.
  { unfold wrap at 1 2. rewrite Zminus_mod_idemp_r. unfold wrap, swrap. change (2 ^ (32 - 1)) with (2 ^ 31).
    replace ((x - rt_tick k + 2 ^ 31) mod 2 ^ 32 - 2 ^ 31 - 1) with ((x - rt_tick k + 2 ^ 31) mod 2 ^ 32 - (2 ^ 31 + 1)) by lia.
    rewrite Zminus_mod_idemp_l. f_equal. lia. }
  rewrite swrap_wrap by lia. apply swrap_small; lia.
Qed.

Lemma timers_tick R k : timers_ok R k -> (forall u, u ∈ R TimerList -> 0 <= due k u) -> timers_ok R (set_tick (u32 (rt_tick k + 1)) k).
Proof.
  intros [Ro Ex Ac Su On Ti So Du] H0.
  assert (forall u, u ∈ R TimerList -> due (set_tick (u32 (rt_tick k + 1)) k) u = due k u - 1) as Hd.
  { intros u Hu. apply due_tick. specialize (H0 u Hu). specialize (Du u Hu). lia. }
  split; try done.
  - cbn. apply wrap_range. lia.
  - apply (sorted_weaken (fun t u => due k t <= due k u)); [|done]. intros u v Hu Hv. rewrite !Hd by done. lia.
  - intros u Hu. rewrite Hd by done. specialize (H0 u Hu). specialize (Du u Hu). lia.
Qed.

Lemma runs_same Q c k x : runs Q c k -> status x = status (thread k c) -> current_priority x = current_priority (thread k c) ->
  number_mask x = number_mask (thread k c) -> runs Q c (set_thread c x k).
Proof.
  intros [Hc Hcu Hst Hl] H1 H2 H3. split; try done; [by apply consistent_same|]. cbn [thread set_thread]. by rewrite fn_lookup_insert, H1.
Qed.
Lemma timers_same R k t x : timers_ok R k -> status x = status (thread k t) -> timers_ok R (set_thread t x k).
Proof.
  intros Ht Hs. apply (timers_frame R k); try done. intros u _. cbn [thread set_thread].
  destruct (decide (u = t)) as [->|]; by rewrite ?fn_lookup_insert, ?fn_lookup_insert_ne.
Qed.
Lemma highest_same c k t x : highest c k -> status x = status (thread k t) -> current_priority x = current_priority (thread k t) ->
  highest c (set_thread t x k).
Proof.
  intros Hh H1 H2 u. cbn [thread set_thread]. 
  destruct (decide (u = t)) as [->|Hu], (decide (c = t)) as [->|Hc]; rewrite ?fn_lookup_insert, ?fn_lookup_insert_ne by done;
    rewrite ?H1, ?H2; apply Hh.
Qed.

(** One turn of [rt_schedule] when a thread runs. *)
Lemma reschedule_spec Q R c k (Post : unit -> kernel -> Prop) :
  runs Q c k -> timers_ok R k ->
  (forall Q' c' k', runs Q' c' k' -> timers_ok R k' -> highest c' k' -> scheduled Q k c c' Q' k' -> Post tt k') -> wp rt_schedule k Post.
Proof.
  intros [Hc Hcu Hst Hl] Ht HQ. apply (schedule_spec Q k c); try done; [by rewrite Hst|by left|].
  intros c' Q' k' Hs. apply (HQ Q' c' k'); [by apply (scheduled_runs Q k c)|by apply (scheduled_timers Q R k c c' Q')| |done].
  intros u. by apply (scheduled_highest Q k c c' Q').
Qed.

(** The check of the timers, in [k3], after the tick has advanced from [k]. *)
Lemma timer_check_spec Q R c k k3 :
  runs Q c k3 -> timers_ok R k3 -> rt_tick k3 = u32 (rt_tick k + 1) -> thread_timer k3 = thread_timer k ->
  rt_interrupt_nest k3 = rt_interrupt_nest k -> thread_count k3 = thread_count k ->
  timers_ok R k -> (forall u, u ∈ R TimerList -> 0 <= due k u) ->
  (forall u, like (thread k u) (thread k3 u) /\ same_or_runs (thread k u) (thread k3 u)) ->
  wp rt_timer_check k3 (fun _ k' => exists Q' R' c', runs Q' c' k' /\ timers_ok R' k' /\ (highest c k3 -> highest c' k') /\
    clocked (fun u => u ∈ R TimerList /\ due k u <= 1) Q k Q' k' /\ (forall u, u ∈ R' TimerList -> 1 <= due k' u) /\
    rt_tick k' = u32 (rt_tick k + 1) /\ rt_interrupt_nest k' = rt_interrupt_nest k /\ thread_count k' = thread_count k).
Proof.
  intros Hr Ht3 Etick Etm Enest Ecount Ht H0 Hth. unfold rt_timer_check, on_rows. wp_steps.
  set (l := rt_list_init (Head Expired) (rows k3)). set (k4 := set_rows l k3).
  assert (runs Q c k4) as Hr4 by (destruct Hr as [Hc Hcu Hst Hl]; split; [destruct Hc; by split|done..]).
  assert (timers_ok R k4) as Ht4 by (apply (timers_relink R k3); try done; apply linked_init; apply Ht3).
  eapply wp_mono; [apply (check_loop_spec _ Q R c k4 Hr4 Ht4); pose proof (timers_length Q R k4 (r_ok _ _ _ Hr4) Ht4); lia|].
  cbn beta. intros _ k' (Q' & R' & c' & Hr' & Ht' & Hh' & Hck & Hon & E1 & E2 & E3).
  exists Q', R', c'. split_and!; try done; [|by rewrite E1|by rewrite E2|by rewrite E3].
  assert (forall u, expired R k4 u <-> u ∈ R TimerList /\ due k u <= 1) as He.
  { intros u. unfold expired. destruct (decide (u ∈ R TimerList)) as [Hin|]; [|tauto].
    assert (due k4 u = due k u - 1) as ->; [|intuition lia].
    rewrite <- due_tick by (pose proof (t_due R k Ht u Hin); pose proof (H0 u Hin); lia).
    unfold due. cbn [rt_tick thread_timer set_tick k4 set_rows]. by rewrite Etick, Etm. }
  destruct Hck as [Hke Hck]. split; [by apply (keeps_weaken (expired R k4))|].
  intros u. destruct (Hck u) as [A B], (Hth u) as [Hl Hs]. rewrite <- He. split.
  - intros E. destruct (A E) as [A1 A2]. split; [done|]. apply (like_trans _ (set_error (- RT_ETIMEOUT) (thread k4 u))); [|done].
    change (thread k4 u) with (thread k3 u). destruct Hl as (v & w & ->). by exists v, w.
  - intros E. destruct (B E) as (B1 & B2 & B3). split_and!.
    + by apply (same_or_runs_trans _ (thread k3 u)).
    + by apply (like_trans _ (thread k3 u)).
    + rewrite B3. change (thread_timer k4) with (thread_timer k3). by rewrite Etm.
Qed.

Lemma tick_increase_spec Q R c k :
  runs Q c k -> timers_ok R k -> (forall u, u ∈ R TimerList -> 0 <= due k u) ->
  wp rt_tick_increase k (fun _ k' => exists Q' R' c', runs Q' c' k' /\ timers_ok R' k' /\ (highest c k -> highest c' k') /\
    clocked (fun u => u ∈ R TimerList /\ due k u <= 1) Q k Q' k' /\ (forall u, u ∈ R' TimerList -> 1 <= due k' u) /\
    rt_tick k' = u32 (rt_tick k + 1) /\ rt_interrupt_nest k' = rt_interrupt_nest k /\ thread_count k' = thread_count k).
Proof.
  intros Hr Ht H0. unfold rt_tick_increase, self, rt_thread_self, upd_thread. wp_steps.
  set (k1 := set_tick (u32 (rt_tick k + 1)) k).
  assert (runs Q c k1) as Hr1 by (destruct Hr as [Hc Hcu Hst Hl]; split; [destruct Hc; by split|done..]).
  assert (timers_ok R k1) as Ht1 by by apply timers_tick.
  change (rt_current_thread k1) with (rt_current_thread k). rewrite (r_current _ _ _ Hr). wp_steps.
  set (x1 := set_remaining (u32 (remaining_tick (thread k1 c) - 1)) (thread k1 c)). set (k2 := set_thread c x1 k1).
  assert (runs Q c k2) as Hr2 by by apply (runs_same Q c k1 x1). assert (timers_ok R k2) as Ht2 by by apply (timers_same R k1 c x1).
  assert (highest c k -> highest c k2) as Hh2 by (intros Hh; by apply (highest_same c k1 c x1 Hh)).
  assert (forall Q3 c3 k3, runs Q3 c3 k3 -> timers_ok R k3 -> (highest c k -> highest c3 k3) -> rt_tick k3 = rt_tick k1 -> thread_timer k3 = thread_timer k1 ->
    rt_interrupt_nest k3 = rt_interrupt_nest k1 -> thread_count k3 = thread_count k1 ->
    (forall u, like (thread k u) (thread k3 u) /\ same_or_runs (thread k u) (thread k3 u)) -> keeps (fun _ => False) Q Q3 ->
    wp rt_timer_check k3 (fun _ k' => exists Q' R' c', runs Q' c' k' /\ timers_ok R' k' /\ (highest c k -> highest c' k') /\
      clocked (fun u => u ∈ R TimerList /\ due k u <= 1) Q k Q' k' /\ (forall u, u ∈ R' TimerList -> 1 <= due k' u) /\
      rt_tick k' = u32 (rt_tick k + 1) /\ rt_interrupt_nest k' = rt_interrupt_nest k /\ thread_count k' = thread_count k)) as Hcheck.
  { intros Q3 c3 k3 Hr3 Ht3 Hh3 Etick Etm Enest Ecount Hth Hke3.
    eapply wp_mono; [by apply (timer_check_spec Q3 R c3 k k3)|]. intros _ k' (Q' & R' & c' & H1 & H2 & H3 & H4).
    destruct H4 as ([Hke Hck] & Hrest). exists Q', R', c'. split_and!; try done; [intros Hh; by apply H3, Hh3| |apply Hrest..].
    split; [|done]. intros u q Hq. rewrite (Hke u q Hq), (Hke3 u q Hq). tauto. }
  wp_steps. change (thread k2 c) with ((<[c := x1]> (thread k1)) c). rewrite fn_lookup_insert.
  destruct (remaining_tick x1 =? 0); cbn [when].
  - wp_steps. set (k3 := set_thread c _ k2). set (k4 := set_thread c _ k3).
    assert (runs Q c k4) as Hr4 by (apply (runs_same Q c k3); [by apply (runs_same Q c k2)|apply status_yield|done..]).
    assert (timers_ok R k4) as Ht4 by (apply (timers_same R k3 c); [by apply (timers_same R k2 c)|apply status_yield]).
    assert (forall u, like (thread k u) (thread k4 u) /\ status (thread k4 u) = status (thread k u)) as Hlike.
    { intros u. change (thread k4) with (<[c := set_stat (Z.lor (stat (thread k3 c)) RT_THREAD_STAT_YIELD) (thread k3 c)]> (thread k3)).
      destruct (decide (u = c)) as [->|Hu].
      - rewrite fn_lookup_insert, status_yield. change (thread k3) with (<[c := set_remaining (slice (thread k2 c)) (thread k2 c)]> (thread k2)).
        rewrite fn_lookup_insert. change (thread k2) with (<[c := x1]> (thread k1)). rewrite fn_lookup_insert. split; [|done].
        eexists _, _. reflexivity.
      - rewrite fn_lookup_insert_ne by done. change (thread k3) with (<[c := set_remaining (slice (thread k2 c)) (thread k2 c)]> (thread k2)).
        rewrite fn_lookup_insert_ne by done. change (thread k2) with (<[c := x1]> (thread k1)). rewrite fn_lookup_insert_ne by done.
        split; [apply like_refl|done]. }
    apply (reschedule_spec Q R c k4); [done|done|]. intros Q' c' k' Hr' Ht' Hh' Hs. pose proof (sch_rest _ _ _ _ _ _ Hs) as [S1 S2 S3 S4 S5 S6].
    apply (Hcheck Q' c'); try done; [|by apply (scheduled_keeps Q k4 c c' Q' k'); [apply (r_ok _ _ _ Hr4)|]].
    intros u. destruct (Hlike u) as [Hl Hl']. split.
    + apply (like_trans _ (thread k4 u)); [done|]. destruct (sch_thread _ _ _ _ _ _ Hs u) as [v ->]. apply like_stat.
    + apply (same_or_runs_trans _ (thread k4 u)); [by left|].
      apply (scheduled_moves Q k4 c c' Q' k' u); [exact (r_ok _ _ _ Hr4)|exact (r_current _ _ _ Hr4)|done].
  - wp_steps. apply (Hcheck Q c k2); try done; [|apply keeps_refl]. intros u. change (thread k2) with (<[c := x1]> (thread k)).
    destruct (decide (u = c)) as [->|Hu]; rewrite ?fn_lookup_insert, ?fn_lookup_insert_ne by done; split; try (by left).
    + exists (stat (thread k c)), (u32 (remaining_tick (thread k1 c) - 1)). unfold x1. change (thread k1 c) with (thread k c). by destruct (thread k c).
    + apply like_refl.
Qed.
End Facts.
