(* ===== verification/Threads.v ===== *)
(** * Threads

    What the operations of Kernel.v promise to the threads: the kernel's lists stay well
    formed whatever the threads and the clock do, the best ready thread runs, and a thread
    that sleeps is awake after the ticks it asked for, and not before. *)

From stdpp Require Import base numbers functions list.
From Stdlib Require Import ZArith Lia Sorted.
From S2P Require Import Prelude RtList Kernel.

Section Threads.
Implicit Types (k : kernel) (t u c : tid) (Q : queue -> list tid) (R : timer_queue -> list tid).

(** Between two operations a thread runs, no timer is late, and no interrupt is served. *)
Definition on_time R k : Prop := forall u, u ∈ R TimerList -> 0 <= due k u.

Record settled Q R c k : Prop := {
  s_runs : runs Q c k;
  s_timers : timers_ok R k;
  s_on_time : on_time R k;
  s_nest : rt_interrupt_nest k = 0
}.

(** The idle thread can always run. *)
Definition kernel_ok (idle : tid) k : Prop := (exists Q R c, settled Q R c k) /\ can_run (thread k idle).

Lemma on_time_same R k k' : on_time R k -> thread_timer k' = thread_timer k -> rt_tick k' = rt_tick k -> on_time R k'.
Proof. intros H Et Ek u Hu. unfold due. rewrite Et, Ek. by apply H. Qed.

(** A thread that can run and is not the running one is in the ready lists, so that there is
    a thread to switch to. *)
Lemma ready_group Q k u : consistent Q k -> status (thread k u) = RT_THREAD_READY -> rt_thread_ready_priority_group k <> 0.
Proof.
  intros Hc Hu E. pose proof (ready_in Q k u Hc Hu) as Hin.
  destruct (c_priority Q k Hc u) as [Hp _]; [by rewrite Hu|].
  rewrite (group_zero _ Q (c_group Q k Hc) E) in Hin by exact Hp. by apply elem_of_nil in Hin.
Qed.
Lemma can_run_ready Q c k u : runs Q c k -> can_run (thread k u) -> u <> c -> status (thread k u) = RT_THREAD_READY.
Proof. intros Hr [|Hu] Hne; [done|]. apply (c_running Q k (r_ok _ _ _ Hr)) in Hu. rewrite (r_current _ _ _ Hr) in Hu. congruence. Qed.

(** Scheduling after the current thread has been taken from the processor. *)
Lemma leave_spec idle Q R c k (Post : unit -> kernel -> Prop) :
  consistent Q k -> timers_ok R k -> on_time R k -> rt_current_thread k = Some c -> rt_scheduler_lock_nest k = 0 ->
  rt_interrupt_nest k = 0 -> ~ can_run (thread k c) -> status (thread k idle) = RT_THREAD_READY ->
  (forall Q' c' k', settled Q' R c' k' -> highest c' k' -> scheduled Q k c c' Q' k' -> kernel_ok idle k' -> Post tt k') ->
  wp rt_schedule k Post.
Proof.
  intros Hc Ht Hon Hcu Hl Hnest Hnr Hi HQ. apply (schedule_spec Q k c); try done; [intros E; apply Hnr; by left| |].
  { right. by apply (ready_group Q k idle). }
  intros c' Q' k' Hs. assert (settled Q' R c' k') as Hset.
  { split; [by apply (scheduled_runs Q k c)|by apply (scheduled_timers Q R k c c' Q')| |].
    - apply (on_time_same R k); [done|apply (sch_rest _ _ _ _ _ _ Hs)..].
    - by rewrite (sr_nest _ _ (sch_rest _ _ _ _ _ _ Hs)). }
  apply (HQ Q' c' k'); try done; [intros u; by apply (scheduled_highest Q k c c' Q')|]. split; [by exists Q', R, c'|].
  apply (same_or_runs_can (thread k idle)); [by apply (scheduled_moves Q k c c' Q')|by left].
Qed.

(** Setting a timer that is not started. *)
Lemma set_time_spec R k t n (Post : unit -> kernel -> Prop) :
  timers_ok R k -> on_time R k -> activated (thread_timer k t) = false -> 0 <= n < 2 ^ 31 - 1 ->
  (forall k', timers_ok R k' -> on_time R k' -> only_timer t k k' -> rows k' = rows k -> init_tick (thread_timer k' t) = n ->
    activated (thread_timer k' t) = false -> Post tt k') ->
  wp (rt_timer_set_time t n) k Post.
Proof.
  intros [Ro Ex Ac Su On Ti So Du] Hon Hn Hr HQ. unfold rt_timer_set_time, upd_timer. wp_steps.
  set (k' := set_timer t _ k). assert (thread_timer k' t = set_init_tick (u32 n) (thread_timer k t)) as Et by apply fn_lookup_insert.
  assert (forall u, u <> t -> thread_timer k' u = thread_timer k u) as Eu by (intros u Hu; by apply fn_lookup_insert_ne).
  assert (forall u, due k' u = due k u) as Hd.
  { intros u. unfold due. destruct (decide (u = t)) as [->|Hu]; [by rewrite Et|by rewrite Eu]. }
  assert (forall u, activated (thread_timer k' u) = activated (thread_timer k u) /\ flag (thread_timer k' u) = flag (thread_timer k u)) as Ha.
  { intros u. destruct (decide (u = t)) as [->|Hu]; [by rewrite Et|by rewrite Eu]. }
  apply HQ; try done.
  - split; try done.
    + intros u. by rewrite (proj1 (Ha u)).
    + intros u. rewrite (proj1 (Ha u)). apply Su.
    + intros u. rewrite (proj2 (Ha u)). apply On.
    + apply (sorted_weaken (fun t u => due k t <= due k u)); [|done]. intros u v _ _. by rewrite !Hd.
    + intros u Hu. rewrite Hd. by apply Du.
  - intros u Hu. rewrite Hd. by apply Hon.
  - rewrite Et. cbn. apply wrap_small. lia.
  - by rewrite (proj1 (Ha t)).
Qed.

(** ** Sleeping *)

(** A started timer keeps the others on time. *)
Lemma on_time_start R k k' t xs ys n : on_time R k -> without t R TimerList = xs ++ ys -> only_timer t k k' ->
  due k' t = n -> 0 <= n -> on_time (<[TimerList := xs ++ t :: ys]> (without t R)) k'.
Proof.
  intros Hon E Ho Hd Hn u. rewrite fn_lookup_insert, <- Permutation_middle, <- E, elem_of_cons, elem_of_without.
  intros [->|[Hu Hin]]; [by rewrite Hd|]. unfold due. rewrite (ot_timer _ _ _ Ho) by done. rewrite (ot_tick _ _ _ Ho). by apply Hon.
Qed.

(** The timer of a suspended thread is set and started. *)
Lemma arm_spec Q R c k n (Post : Z -> kernel -> Prop) :
  consistent Q k -> timers_ok R k -> on_time R k -> status (thread k c) = RT_THREAD_SUSPEND -> activated (thread_timer k c) = false ->
  0 <= n < 2 ^ 31 - 1 ->
  (forall R' k', consistent Q k' -> timers_ok R' k' -> on_time R' k' -> thread k' = thread k -> rt_current_thread k' = rt_current_thread k ->
    rt_scheduler_lock_nest k' = rt_scheduler_lock_nest k -> rt_interrupt_nest k' = rt_interrupt_nest k ->
    c ∈ R' TimerList -> due k' c = n -> Post RT_EOK k') ->
  wp (rt_timer_set_time c n ;;; rt_timer_start c) k Post.
Proof.
  intros Hc Ht Hon Hst Hact Hn HQ. wp_steps. apply (set_time_spec R k c n); try done. intros k2 Ht2 Hon2 Ho2 Hrow2 Hi2 _.
  pose proof (only_timer_consistent Q c k k2 Ho2 Hc) as Hc2.
  apply (timer_start_spec R k2 c); [done|by rewrite (ot_thread _ _ _ Ho2)|by rewrite Hi2|by apply (timers_length Q)|].
  rewrite Hi2. intros xs ys k3 Exy Ht3 Ho3 Htm3 Hd3. eapply HQ; [by apply (only_timer_consistent Q c k2)|exact Ht3| | | | | | |exact Hd3].
  - by apply (on_time_start R k2 k3 c xs ys n); [| | | |lia].
  - by rewrite (ot_thread _ _ _ Ho3), (ot_thread _ _ _ Ho2).
  - by rewrite (ot_current _ _ _ Ho3), (ot_current _ _ _ Ho2).
  - by rewrite (ot_lock _ _ _ Ho3), (ot_lock _ _ _ Ho2).
  - by rewrite (ot_nest _ _ _ Ho3), (ot_nest _ _ _ Ho2).
  - rewrite fn_lookup_insert. apply elem_of_app. right. left.
Qed.

(** The current thread has suspended itself, and the processor goes to another. *)
Lemma give_way_spec idle Q R c k Qw Rw kw (Post : unit -> kernel -> Prop) :
  settled Q R c k -> can_run (thread k idle) -> c <> idle ->
  consistent Qw kw -> timers_ok Rw kw -> on_time Rw kw -> thread kw = <[c := with_status RT_THREAD_SUSPEND (thread k c)]> (thread k) ->
  rt_current_thread kw = Some c -> rt_scheduler_lock_nest kw = 0 -> rt_interrupt_nest kw = 0 ->
  (forall Q' c' k', settled Q' Rw c' k' -> highest c' k' -> can_run (thread k' idle) -> status (thread k' c) = RT_THREAD_SUSPEND ->
    keeps (fun _ => False) Qw Q' -> (forall u, u <> c -> same_or_runs (thread k u) (thread k' u)) -> (forall u, like (thread k u) (thread k' u)) ->
    due k' c = due kw c -> Post tt k') ->
  wp rt_schedule kw Post.
Proof.
  intros [Hr Ht Hon Hnest] Hi Hne Hcw Htw Honw Hth Hcu Hl Hnw HQ. pose proof Hr as [Hc _ Hst _].
  assert (thread kw c = with_status RT_THREAD_SUSPEND (thread k c)) as Ec by (by rewrite Hth, fn_lookup_insert).
  assert (forall u, u <> c -> thread kw u = thread k u) as Eu by (intros u Hu; by rewrite Hth, fn_lookup_insert_ne).
  assert (status (thread kw c) = RT_THREAD_SUSPEND) as Hsw by (rewrite Ec; by apply status_with).
  apply (leave_spec idle Qw Rw c kw); try done.
  - unfold can_run. rewrite Hsw. by intros [|].
  - rewrite Eu by done. by apply (can_run_ready Q c).
  - intros Q' c' k' Hset Hhi Hs [_ Hi']. pose proof (fun u => scheduled_moves Qw kw c c' Q' k' u Hcw Hcu Hs) as Hm.
    pose proof (sch_rest _ _ _ _ _ _ Hs) as Hsr. apply (HQ Q' c' k'); try done.
    + destruct (Hm c) as [->|[[E|E] _]]; [done|by rewrite Hsw in E..].
    + by apply (scheduled_keeps Qw kw c c' Q' k').
    + intros u Hu. rewrite <- Eu by done. apply Hm.
    + intros u. destruct (sch_thread _ _ _ _ _ _ Hs u) as [v ->]. destruct (decide (u = c)) as [->|Hu]; [rewrite Ec|rewrite Eu by done; apply like_stat].
      apply (like_trans _ (with_status RT_THREAD_SUSPEND (thread k c))); apply like_stat.
    + unfold due. by rewrite (sr_timer _ _ Hsr), (sr_tick _ _ Hsr).
Qed.

Lemma sleep_spec idle Q R c k n (Post : unit -> kernel -> Prop) :
  settled Q R c k -> can_run (thread k idle) -> c <> idle -> 0 <= n < 2 ^ 31 - 1 ->
  (forall Q' R' c' k', settled Q' R' c' k' -> highest c' k' -> can_run (thread k' idle) ->
    status (thread k' c) = RT_THREAD_SUSPEND -> c ∈ R' TimerList -> due k' c = n ->
    keeps (fun _ => False) Q Q' -> (forall u, u <> c -> same_or_runs (thread k u) (thread k' u)) -> (forall u, like (thread k u) (thread k' u)) -> Post tt k') ->
  wp (rt_thread_sleep n) k Post.
Proof.
  intros Hs Hi Hne Hn HQ. pose proof Hs as [[Hc Hcu Hst Hl] Ht Hon Hnest]. unfold rt_thread_sleep, self, rt_thread_self. wp_steps.
  rewrite Hcu. wp_steps. apply (suspend_spec Q R k c); try done; [by right|]. intros k1 Hc1 Ht1 Hth1 Hcu1 Hsr1. apply wp_bind_assoc.
  assert (on_time R k1) as Hon1 by (apply (on_time_same R k); [done|apply Hsr1..]).
  assert (status (thread k1 c) = RT_THREAD_SUSPEND) as Hst1 by (rewrite Hth1, fn_lookup_insert; by apply status_with).
  assert (activated (thread_timer k1 c) = false) as Hact.
  { rewrite (sr_timer _ _ Hsr1). apply (not_active R); [done|]. by rewrite Hst. }
  apply (arm_spec (without c Q) R c k1 n); try done. intros R' kw Hcw Htw Honw Hthw Hcuw Hlw Hnw Hin Hd.
  apply (give_way_spec idle Q R c k (without c Q) R' kw); try done; [by rewrite Hthw|by rewrite Hcuw, Hcu1|by rewrite Hlw, (sr_lock _ _ Hsr1)|by rewrite Hnw, (sr_nest _ _ Hsr1)|].
  intros Q' c' k' Hset Hhi Hi' Hst' Hke Hm Hlike Hd'. apply (HQ Q' R' c' k'); try done; [by rewrite Hd'|].
  apply (keeps_trans _ Q (without c Q)); [apply (without_keeps Q k c Hc); by rewrite Hst|done].
Qed.

(** A tick, as the interrupt handler runs it. *)
Lemma systick_spec idle Q R c k :
  settled Q R c k -> can_run (thread k idle) ->
  wp SysTick_Handler k (fun _ k' => exists Q' R' c', settled Q' R' c' k' /\ can_run (thread k' idle) /\ (highest c k -> highest c' k') /\
    clocked (fun u => u ∈ R TimerList /\ due k u <= 1) Q k Q' k' /\ rt_tick k' = u32 (rt_tick k + 1)).
Proof.
  intros [Hr Ht Hon Hnest] Hi. unfold SysTick_Handler, rt_interrupt_enter, rt_interrupt_leave. wp_steps.
  set (k1 := set_interrupt_nest _ k).
  assert (runs Q c k1) as Hr1 by (destruct Hr as [Hc Hcu Hst Hl]; split; [destruct Hc; by split|done..]).
  assert (timers_ok R k1) as Ht1 by by apply (timers_frame R k).
  eapply wp_mono; [by apply (tick_increase_spec Q R c k1)|]. cbn beta.
  intros _ k2 (Q' & R' & c' & Hr2 & Ht2 & Hhi & Hck & Hon2 & Et & En & _). wp_steps. exists Q', R', c'.
  set (k3 := set_interrupt_nest _ k2). split_and!; try done.
  - split; [destruct Hr2 as [Hc Hcu Hst Hl]; split; [destruct Hc; by split|done..]|by apply (timers_frame R' k2)| |].
    2:{ cbn. rewrite En. cbn. by rewrite Hnest. }
    intros u Hu. specialize (Hon2 u Hu). change (due k3 u) with (due k2 u). lia.
  - destruct (proj2 Hck idle) as [A B]. destruct (decide (idle ∈ R TimerList /\ due k1 idle <= 1)) as [He|He]; [by apply A|].
    apply (same_or_runs_can (thread k1 idle)); [by apply B|done].
Qed.

(** [m] ticks. *)
Fixpoint ticks (m : nat) : M kernel unit := match m with O => ret tt | S m => ticks m ;;; SysTick_Handler end.

(** What a thread that sleeps for [n] ticks is after [m] of them. *)
Definition asleep (n : Z) (m : nat) c R k : Prop :=
  if Z.of_nat m <? Z.max 1 n then status (thread k c) = RT_THREAD_SUSPEND /\ c ∈ R TimerList /\ due k c = n - Z.of_nat m
  else can_run (thread k c) /\ error (thread k c) = - RT_ETIMEOUT.

Lemma ticks_spec idle n c0 m : forall Q R c k,
  settled Q R c k -> can_run (thread k idle) -> asleep n 0 c0 R k -> 0 <= n ->
  wp (ticks m) k (fun _ k' => exists Q' R' c', settled Q' R' c' k' /\ can_run (thread k' idle) /\ (highest c k -> highest c' k') /\
    asleep n m c0 R' k').
Proof.
  induction m as [|m IH]; intros Q R c k Hs Hi Ha Hn; cbn [ticks]; [wp_steps; by exists Q, R, c|].
  wp_steps. eapply wp_mono; [by apply (IH Q R c)|]. cbn beta. intros _ k1 (Q1 & R1 & c1 & Hs1 & Hi1 & Hh1 & Ha1).
  eapply wp_mono; [by apply (systick_spec idle Q1 R1 c1)|]. cbn beta. intros _ k2 (Q2 & R2 & c2 & Hs2 & Hi2 & Hh2 & Hck & Et).
  exists Q2, R2, c2. split_and!; try done; [intros H; by apply Hh2, Hh1|]. unfold asleep in *.
  destruct (proj2 Hck c0) as [A B]. destruct (Z.ltb_spec (Z.of_nat m) (Z.max 1 n)) as [Hm|Hm].
  - destruct Ha1 as (Hst & Hin & Hd). destruct (Z.ltb_spec (Z.of_nat (S m)) (Z.max 1 n)) as [Hm'|Hm'].
    + destruct B as (B1 & B2 & B3); [intros [_ H]; lia|].
      assert (status (thread k2 c0) = RT_THREAD_SUSPEND) as Hst2.
      { destruct B1 as [E|[[E|E] _]]; [by rewrite E|by rewrite Hst in E..]. }
      split_and!; [done| |].
      * apply (t_active R2 k2 (s_timers _ _ _ _ Hs2)). rewrite B3. by apply (t_active R1 k1 (s_timers _ _ _ _ Hs1)).
      * assert (due k2 c0 = due (set_tick (u32 (rt_tick k1 + 1)) k1) c0) as ->.
        { unfold due. cbn [rt_tick thread_timer set_tick]. by rewrite B3, Et. }
        rewrite due_tick; [lia|]. pose proof (t_due R1 k1 (s_timers _ _ _ _ Hs1) c0 Hin). lia.
    + destruct A as (A1 & A2); [split; [done|lia]|]. split; [done|]. by destruct A2 as (v & w & ->).
  - rewrite (proj2 (Z.ltb_ge _ _)) by lia. destruct Ha1 as [Hr He].
    destruct B as (B1 & (v & w & B2) & _).
    { intros [Hin%(t_active R1 k1 (s_timers _ _ _ _ Hs1)) _]. apply (t_suspended R1 k1 (s_timers _ _ _ _ Hs1)) in Hin.
      destruct Hr as [E|E]; by rewrite Hin in E. }
    split; [by apply (same_or_runs_can (thread k1 c0))|]. by rewrite B2.
Qed.

(** ** Electing a thread *)

(** The best priority of a ready thread. *)
Definition best_priority Q : option Z := head (filter (fun p => Q (Ready p) <> []) (seqZ 0 RT_THREAD_PRIORITY_MAX)).

(** What scheduling means when [c] runs, on the lists alone: [c] stays when it is better than
    the ready threads, or as good and it does not yield; otherwise the first of the best ones
    runs and [c] goes behind those of its priority. *)
Definition elect Q (x : rt_thread) c : tid * (queue -> list tid) :=
  match best_priority Q with
  | None => (c, Q)
  | Some p =>
      if (current_priority x <? p) || (current_priority x =? p) && negb (yielding x) then (c, Q)
      else match Q (Ready p) with
           | [] => (c, Q)
           | t :: _ => (t, without t (<[Ready (current_priority x) := Q (Ready (current_priority x)) ++ [c]]> Q))
           end
  end.

Lemma best_priority_spec Q :
  match best_priority Q with
  | Some p => 0 <= p < 32 /\ Q (Ready p) <> [] /\ forall j, 0 <= j < p -> Q (Ready j) = []
  | None => forall j, 0 <= j < 32 -> Q (Ready j) = []
  end.
Proof.
  unfold best_priority. change RT_THREAD_PRIORITY_MAX with (0 + Z.of_nat 32). replace (0 + Z.of_nat 32) with (Z.of_nat 32) by lia.
  assert (forall n m, 0 <= m -> match head (filter (fun p => Q (Ready p) <> []) (seqZ m (Z.of_nat n))) with
    | Some p => m <= p < m + Z.of_nat n /\ Q (Ready p) <> [] /\ forall j, m <= j < p -> Q (Ready j) = []
    | None => forall j, m <= j < m + Z.of_nat n -> Q (Ready j) = [] end) as H; [|exact (H 32%nat 0 ltac:(lia))].
  induction n as [|n IH]; intros m Hm; [intros j Hj; lia|].
  rewrite seqZ_cons by lia. destruct (decide (Q (Ready m) <> [])) as [Hn|Hn].
  - rewrite filter_cons_True by done. cbn [head]. split_and!; [lia|lia|done|]. intros j Hj. lia.
  - rewrite filter_cons_False by done. specialize (IH (Z.succ m) ltac:(lia)). replace (Z.pred (Z.of_nat (S n))) with (Z.of_nat n) by lia.
    assert (Q (Ready m) = []) as E0 by (by destruct (Q (Ready m)); [|destruct Hn]).
    destruct (head _) as [p|]; [destruct IH as (H1 & H2 & H3); split_and!; [lia|lia|done|]|]; intros j Hj;
      (destruct (decide (j = m)) as [->|]; [done|]); [apply H3|apply IH]; lia.
Qed.

Lemma picked_elect Q x c c' Q' : status x = RT_THREAD_RUNNING -> picked Q x c c' Q' -> elect Q x c = (c', Q').
Proof.
  intros Hr Hp. pose proof (best_priority_spec Q) as Hb. unfold elect.
  destruct Hp as [_ Hst|t p l E Hl Hpr Hsw].
  - destruct (best_priority Q) as [p|]; [|done]. destruct Hb as (H1 & H2 & _).
    destruct (Hst p H1 H2) as [Hlt|[-> ->]]; [by rewrite (proj2 (Z.ltb_lt _ _) Hlt)|]. by rewrite Z.ltb_irrefl, Z.eqb_refl.
  - assert (best_priority Q = Some p) as ->.
    { destruct (best_priority Q) as [p'|]; [|by rewrite Hb in E]. destruct Hb as (H1 & H2 & H3). f_equal.
      destruct (Z.lt_trichotomy p p') as [H|[H|H]]; [by rewrite H3 in E by lia|done|exfalso; apply H2, Hl; lia]. }
    rewrite Hr, Z.eqb_refl, E. destruct (Hsw Hr) as [Hlt|[Heq Hy]].
    + rewrite (proj2 (Z.ltb_ge _ _)), (proj2 (Z.eqb_neq _ _)) by lia. done.
    + rewrite (proj2 (Z.ltb_ge _ _)), Hy by lia. by rewrite andb_false_r.
Qed.

(** One turn of the scheduler while [c] runs. *)
Lemma settled_schedule Q R c k (Post : unit -> kernel -> Prop) : settled Q R c k ->
  (forall Q' c' k', elect Q (thread k c) c = (c', Q') -> settled Q' R c' k' -> highest c' k' -> scheduled Q k c c' Q' k' -> Post tt k') ->
  wp rt_schedule k Post.
Proof.
  intros [Hr Ht Hon Hnest] HQ. apply (reschedule_spec Q R c k); [done|done|]. intros Q' c' k' Hr' Ht' Hh Hs.
  apply (HQ Q' c' k'); [|split; [done|done| |]|done|done].
  - apply picked_elect; [apply (r_status _ _ _ Hr)|apply (sch_picked _ _ _ _ _ _ Hs)].
  - apply (on_time_same R k); [done|apply (sch_rest _ _ _ _ _ _ Hs)..].
  - by rewrite (sr_nest _ _ (sch_rest _ _ _ _ _ _ Hs)).
Qed.

(** A change of a thread's record that the lists do not depend on. *)
Lemma settled_same Q R c k t x : settled Q R c k -> status x = status (thread k t) ->
  current_priority x = current_priority (thread k t) -> number_mask x = number_mask (thread k t) -> settled Q R c (set_thread t x k).
Proof.
  intros [[Hc Hcu Hst Hl] Ht Hon Hnest] Hs Hp Hm. split; [split|by apply timers_same|by apply (on_time_same R k)|done]; try done.
  - by apply consistent_same.
  - cbn [thread set_thread]. destruct (decide (c = t)) as [->|]; [by rewrite fn_lookup_insert, Hs|by rewrite fn_lookup_insert_ne].
Qed.

(** The running thread with its time slice refilled and its yield bit set. *)
Definition yields (x : rt_thread) : rt_thread := set_stat (Z.lor (stat x) RT_THREAD_STAT_YIELD) (set_remaining (slice x) x).

Lemma yielding_yields x : yielding (yields x) = true.
Proof.
  unfold yielding, yields, RT_THREAD_STAT_YIELD. cbn [stat set_stat]. rewrite Z.land_lor_distr_l, Z.land_diag.
  destruct (Z.eqb_spec (Z.lor (Z.land (stat x) 8) 8) 0) as [E|]; [|done]. by apply Z.lor_eq_0_iff in E as [_ E].
Qed.

Lemma yield_spec Q R c k (Post : Z -> kernel -> Prop) : settled Q R c k ->
  (forall Q' c' k', elect Q (yields (thread k c)) c = (c', Q') -> settled Q' R c' k' -> highest c' k' ->
    (forall u, same_or_runs (thread k u) (thread k' u) /\ like (thread k u) (thread k' u)) -> keeps (fun _ => False) Q Q' -> Post RT_EOK k') ->
  wp rt_thread_yield k Post.
Proof.
  intros Hs HQ. unfold rt_thread_yield, self, rt_thread_self, upd_thread. wp_steps. rewrite (r_current _ _ _ (s_runs _ _ _ _ Hs)). wp_steps.
  set (k1 := set_thread c (set_remaining (slice (thread k c)) (thread k c)) k). set (k2 := set_thread c _ k1).
  assert (settled Q R c k1) as Hs1 by by apply settled_same.
  assert (settled Q R c k2) as Hs2 by (apply settled_same; [done|apply status_yield|done..]).
  assert (thread k2 c = yields (thread k c)) as Ec.
  { unfold k2, k1. cbn [thread set_thread]. by rewrite !fn_lookup_insert. }
  assert (forall u, u <> c -> thread k2 u = thread k u) as Eu.
  { intros u Hu. unfold k2, k1. cbn [thread set_thread]. by rewrite !fn_lookup_insert_ne. }
  apply (settled_schedule Q R c k2); [done|]. intros Q' c' k' E Hs' Hh Hsch. wp_steps. rewrite Ec in E. apply (HQ Q' c' k'); [done..| |by apply (scheduled_keeps Q k2 c c' Q' k' (r_ok _ _ _ (s_runs _ _ _ _ Hs2)))].
  intros u. pose proof (scheduled_moves Q k2 c c' Q' k' u (r_ok _ _ _ (s_runs _ _ _ _ Hs2)) (r_current _ _ _ (s_runs _ _ _ _ Hs2)) Hsch) as Hm.
  destruct (sch_thread _ _ _ _ _ _ Hsch u) as [v Ev].
  assert (status (thread k2 u) = status (thread k u) /\ like (thread k u) (thread k2 u)) as [A B].
  { destruct (decide (u = c)) as [->|]; [rewrite Ec|by rewrite Eu; [split; [|apply like_refl]|]].
    split; [exact (status_yield (set_remaining (slice (thread k c)) (thread k c)))|exists (stat (yields (thread k c))), (slice (thread k c)); done]. }
  split; [apply (same_or_runs_trans _ (thread k2 u)); [by left|done]|].
  apply (like_trans _ (thread k2 u)); [done|]. rewrite Ev. apply like_stat.
Qed.

(** ** The operations keep the kernel in order *)

(** What an operation leaves: a settled kernel in which the idle thread can run. *)
Lemma kernel_ok_schedule idle Q R c k : settled Q R c k -> can_run (thread k idle) -> wp rt_schedule k (fun _ => kernel_ok idle).
Proof.
  intros Hs Hi. apply (settled_schedule Q R c k); [done|]. intros Q' c' k' _ Hs' _ Hsch. split; [by exists Q', R, c'|].
  apply (same_or_runs_can (thread k idle)); [|done]. destruct Hs as [Hr _ _ _].
  by apply (scheduled_moves Q k c c' Q' k'); [apply (r_ok _ _ _ Hr)|apply (r_current _ _ _ Hr)|].
Qed.

(** Other threads do not change. *)
Lemma moved_settled Q Q' R R' c k k' t : settled Q R c k -> consistent Q' k' -> timers_ok R' k' -> on_time R' k' ->
  t <> c -> (forall u, u <> t -> thread k' u = thread k u) ->
  rt_current_thread k' = rt_current_thread k -> rt_scheduler_lock_nest k' = rt_scheduler_lock_nest k ->
  rt_interrupt_nest k' = rt_interrupt_nest k -> settled Q' R' c k'.
Proof.
  intros [[Hc Hcu Hst Hl] Ht Hon Hnest] Hc' Ht' Hon' Hne Hth Ecu El En. split; [split|done|done|by rewrite En]; try done; [by rewrite Ecu| |by rewrite El].
  by rewrite Hth by congruence.
Qed.

Lemma resume_settled Q R c k t (Post : Z -> kernel -> Prop) : settled Q R c k ->
  (status (thread k t) <> RT_THREAD_SUSPEND -> Post (- RT_ERROR) k) ->
  (forall k', settled (woken (Some c) t (current_priority (thread k t)) Q) (without t R) c k' -> status (thread k t) = RT_THREAD_SUSPEND ->
    thread k' t = with_status RT_THREAD_READY (thread k t) -> (forall u, u <> t -> thread k' u = thread k u) -> Post RT_EOK k') ->
  wp (rt_thread_resume t) k Post.
Proof.
  intros Hs H0 H1. pose proof Hs as [[Hc Hcu Hst Hl] Ht Hon Hnest].
  destruct (decide (status (thread k t) = RT_THREAD_SUSPEND)) as [E|E].
  2:{ unfold rt_thread_resume. wp_steps. rewrite (proj2 (Z.eqb_neq _ _) E). cbn [negb]. wp_steps. by apply H0. }
  assert (t <> c) as Htc by (intros ->; by rewrite E in Hst).
  apply (resume_spec Q R k t); [done|done|done|]. rewrite Hcu. unfold woken_status. rewrite decide_False by congruence.
  intros k' Hc' Ht' Hth Hcu' Hb. apply H1; [|done|by rewrite Hth, fn_lookup_insert|intros u Hu; by rewrite Hth, fn_lookup_insert_ne].
  apply (moved_settled Q _ R _ c k k' t); try done.
  - intros u [Hu Hin]%elem_of_without. unfold due. rewrite (bt_timer _ _ _ Hb), (bt_tick _ _ _ Hb) by done. by apply Hon.
  - intros u Hu. by rewrite Hth, fn_lookup_insert_ne.
  - by rewrite Hcu', Hcu.
  - apply Hb.
  - apply Hb.
Qed.

(** Suspending a thread, and scheduling, as the interface asks of a thread that suspends itself. *)
Lemma suspend_schedule_spec idle Q R c k t : settled Q R c k -> can_run (thread k idle) -> t <> idle ->
  wp (_ <- rt_thread_suspend t ;; rt_schedule) k (fun _ => kernel_ok idle).
Proof.
  intros Hs Hi Hne. pose proof Hs as [Hr Ht Hon Hnest]. pose proof Hr as [Hc Hcu Hst Hl]. wp_steps.
  destruct (decide (can_run (thread k t))) as [Hrun|Hrun].
  2:{ unfold rt_thread_suspend. wp_steps.
      assert (negb (status (thread k t) =? RT_THREAD_READY) && negb (status (thread k t) =? RT_THREAD_RUNNING) = true) as ->.
      { unfold can_run in Hrun. apply andb_true_iff. split; apply negb_true_iff, Z.eqb_neq; tauto. }
      wp_steps. by apply (kernel_ok_schedule idle Q R c). }
  apply (suspend_spec Q R k t); [done..|]. intros k1 Hc1 Ht1 Hth1 Hcu1 Hsr1.
  assert (on_time R k1) as Hon1 by (apply (on_time_same R k); [done|apply Hsr1..]).
  assert (can_run (thread k1 idle)) as Hi1 by (by rewrite Hth1, fn_lookup_insert_ne).
  destruct (decide (t = c)) as [->|Htc].
  - apply (leave_spec idle (without c Q) R c k1); try done.
    + by rewrite Hcu1.
    + by rewrite (sr_lock _ _ Hsr1).
    + by rewrite (sr_nest _ _ Hsr1).
    + rewrite Hth1, fn_lookup_insert. unfold can_run. rewrite status_with by done. by intros [|].
    + rewrite Hth1, fn_lookup_insert_ne by done. by apply (can_run_ready Q c).
  - apply (kernel_ok_schedule idle (without t Q) R c); [|done]. apply (moved_settled Q _ R _ c k k1 t); try done.
    + intros u Hu. by rewrite Hth1, fn_lookup_insert_ne.
    + apply Hsr1.
    + apply Hsr1.
Qed.

(** ** Priorities *)

Lemma mask_of p : 0 <= p < 32 -> u32 (Z.shiftl 1 p) = 2 ^ p.
Proof.
  intros Hp. rewrite Z.shiftl_mul_pow2, Z.mul_1_l by lia. apply wrap_small. split; [by apply Z.pow_nonneg|]. apply Z.pow_lt_mono_r; lia.
Qed.

(** A new priority for a thread that is not in the ready lists. *)
Lemma reprioritised Q k t p : consistent Q k -> status (thread k t) <> RT_THREAD_READY -> 0 <= p < 32 ->
  consistent Q (set_thread t (set_priority p (2 ^ p) (thread k t)) k).
Proof.
  intros Hc Hnr Hp. pose proof Hc as [L P Pr Ru Co Gr]. destruct (P t) as (o & Hpl & Hok).
  apply (consistent_move Q Q k _ t o); try done; cbn [thread set_thread rt_current_thread].
  - intros u Hu. by rewrite fn_lookup_insert_ne.
  - rewrite fn_lookup_insert. change (status (set_priority p (2 ^ p) (thread k t))) with (status (thread k t)).
    inversion Hok; subst; first [by constructor|by destruct Hnr].
  - rewrite fn_lookup_insert. intros Hni. split; [by split|by apply Co].
  - rewrite fn_lookup_insert. apply (Ru t).
  - intros u _. apply Ru.
Qed.

Lemma change_priority_spec Q R c k t p (Post : unit -> kernel -> Prop) : settled Q R c k -> 0 <= p < 32 ->
  (forall Q' k', settled Q' R c k' -> (forall u, status (thread k' u) = status (thread k u)) -> current_priority (thread k' t) = p ->
    keeps (fun _ => False) Q Q' -> (forall u, u <> t -> thread k' u = thread k u) -> error (thread k' t) = error (thread k t) -> Post tt k') ->
  wp (change_priority t p) k Post.
Proof.
  intros Hs Hp HQ. pose proof Hs as [Hr Ht Hon Hnest]. pose proof Hr as [Hc Hcu Hst Hl]. unfold change_priority, upd_thread. wp_steps.
  destruct (Z.eqb_spec (status (thread k t)) RT_THREAD_READY) as [E|E].
  2:{ wp_steps. rewrite mask_of by done. assert (forall u, status (thread (set_thread t (set_priority p (2 ^ p) (thread k t)) k) u) = status (thread k u)) as Est.
      { intros u. cbn [thread set_thread]. destruct (decide (u = t)) as [->|]; [by rewrite fn_lookup_insert|by rewrite fn_lookup_insert_ne]. }
      apply (HQ Q); [|done|cbn [thread set_thread]; by rewrite fn_lookup_insert|apply keeps_refl
        |intros u Hu; cbn [thread set_thread]; by rewrite fn_lookup_insert_ne|cbn [thread set_thread]; by rewrite fn_lookup_insert].
      split; [split; [by apply reprioritised|done|by rewrite Est|done]|by apply timers_same|by apply (on_time_same R k)|done]. }
  assert (t <> c) as Htc by (intros ->; by rewrite E in Hst). wp_steps.
  assert (status (thread k t) <> RT_THREAD_INIT) as Hni by (by rewrite E).
  assert (t ∈ Q (Ready (current_priority (thread k t)))) as Hin by by apply ready_in.
  apply (remove_thread_spec Q k t (Some (Ready (current_priority (thread k t))))); [apply Hc|apply Hc|by apply (c_priority Q k Hc)| | |].
  { apply (placed_in (L := tlists k)); [apply Hc|done]. }
  { by intros p' [= <-]. }
  intros l g L' G'. wp_steps. rewrite mask_of by done. cbn [thread set_group set_tlists].
  set (x := set_priority p (2 ^ p) (thread k t)). set (k1 := set_thread t x _).
  assert (thread k1 = <[t := x]> (thread k)) as Eth by reflexivity.
  assert (thread k1 t = x) as Ex by (by rewrite Eth, fn_lookup_insert).
  apply (insert_thread_spec (without t Q) k1 t); [done|done|by rewrite Ex|apply without_in|cbn; congruence|]. cbv zeta. rewrite Ex. intros l2 g2 L2 G2.
  set (k2 := set_group g2 _). assert (thread k2 = <[t := with_status RT_THREAD_READY x]> (<[t := x]> (thread k))) as Eth2 by reflexivity.
  assert (thread k2 t = with_status RT_THREAD_READY x) as Et by (by rewrite Eth2, fn_lookup_insert).
  assert (forall u, u <> t -> thread k2 u = thread k u) as Eu by (intros u Hu; by rewrite Eth2, !fn_lookup_insert_ne).
  assert (forall u, status (thread k2 u) = status (thread k u)) as Est.
  { intros u. destruct (decide (u = t)) as [->|]; [rewrite Et, E; by apply status_with|by rewrite Eu]. }
  eapply HQ; [|done|by rewrite Et| |done|by rewrite Et].
  2:{ apply (keeps_trans _ Q (without t Q)); [apply (without_keeps Q k t Hc); by rewrite E|apply append_keeps]. }
  apply (moved_settled Q _ R R c k k2 t Hs); try done.
  - apply (consistent_move Q _ k k2 t (Some (Ready p))); try done.
    + intros u q Hu. destruct (decide (q = Ready p)) as [->|Hq].
      * rewrite fn_lookup_insert, elem_of_app, list_elem_of_singleton, elem_of_without. tauto.
      * rewrite fn_lookup_insert_ne, elem_of_without by done. tauto.
    + intros q. change (current_priority x) with p. destruct (decide (q = Ready p)) as [->|Hq].
      * rewrite fn_lookup_insert, elem_of_app, list_elem_of_singleton. tauto.
      * rewrite fn_lookup_insert_ne, elem_of_without by done. split; [tauto|]. intros [= <-]. done.
    + rewrite Et. apply place_ready. by apply status_with.
    + intros _. rewrite Et. split; [by split|by apply (c_count Q k Hc)].
    + rewrite Est, E. discriminate.
    + intros u Hu Hru. by apply (c_running Q k Hc).
  - apply (timers_frame R k); [done..|]. intros u _. apply Est.
Qed.

(** ** Threads come and go *)

(** The other threads and the scheduler do not change. *)
Record others (t : tid) k k' : Prop := {
  oth_thread : forall u, u <> t -> thread k' u = thread k u;
  oth_current : rt_current_thread k' = rt_current_thread k;
  oth_timer : but_timer t k k'
}.

Lemma others_trans t k1 k2 k3 : others t k1 k2 -> others t k2 k3 -> others t k1 k3.
Proof.
  intros [A1 A2 [A3 A4 A5 A6 A7]] [B1 B2 [B3 B4 B5 B6 B7]]. split; [intros u Hu; by rewrite B1, A1|congruence|].
  split; [intros u Hu; by rewrite B3, A3|congruence..].
Qed.

Lemma others_on_time R t k k' : others t k k' -> on_time R k -> on_time (without t R) k'.
Proof.
  intros [_ _ [Ht _ _ Hk _]] Hon u [Hu Hin]%elem_of_without. unfold due. rewrite Ht, Hk by done. by apply Hon.
Qed.

(** A thread block is initialised. *)
Lemma thread_init_spec Q R k t p n (Post : Z -> kernel -> Prop) : consistent Q k -> timers_ok R k ->
  status (thread k t) = RT_THREAD_INIT -> 0 <= p < 32 ->
  (forall k', consistent Q k' -> timers_ok R k' -> others t k k' -> status (thread k' t) = RT_THREAD_INIT ->
    init_priority (thread k' t) = p -> Post RT_EOK k') ->
  wp (_rt_thread_init t p n) k Post.
Proof.
  intros Hc Ht Hst Hp HQ. unfold _rt_thread_init, _rt_timer_init, rt_assert, upd_thread, upd_timer, on_tlists, on_rows. wp_steps.
  rewrite (proj2 (Z.ltb_lt _ _)) by (unfold RT_THREAD_PRIORITY_MAX; lia). wp_steps.
  set (l := rt_list_init (Elem t) (tlists k)). set (x := Rt_thread RT_THREAD_INIT RT_EOK p p 0 _ _ n n). cbn [thread_timer set_thread set_tlists rows set_timer].
  set (y := Rt_timer _ _ _). set (r := rt_list_init (Elem t) (rows k)). set (k' := set_rows r _).
  assert (thread k' = <[t := x]> (thread k)) as Eth by reflexivity.
  assert (thread_timer k' = <[t := y]> (thread_timer k)) as Etm by reflexivity.
  assert (activated (thread_timer k t) = false) as Hna by (apply (not_active R); [done|by rewrite Hst]).
  pose proof (inactive_no_list R k t Ht Hna) as Hr. destruct (c_place Q k Hc t) as (o & Hpl & Hok).
  assert (o = None) as -> by (rewrite Hst in Hok; inversion Hok; first [done|discriminate]). pose proof (proj1 (placed_none Q t) Hpl) as Hq.
  assert (forall u, u <> t -> thread k' u = thread k u) as Eu by (intros u Hu; by rewrite Eth, fn_lookup_insert_ne).
  assert (thread k' t = x) as Ex by (by rewrite Eth, fn_lookup_insert).
  assert (thread_timer k' t = y) as Ey by (by rewrite Etm, fn_lookup_insert).
  assert (forall u, u <> t -> thread_timer k' u = thread_timer k u) as Eyu by (intros u Hu; by rewrite Etm, fn_lookup_insert_ne).
  assert (forall u, u ∈ R TimerList -> u <> t) as Hne by (intros u Hu ->; by apply (Hr TimerList)).
  apply HQ.
  - apply (consistent_move Q Q k k' t None); try done.
    + apply linked_init_alone; [apply Hc|done].
    + apply Hc.
    + rewrite Ex. by apply place_init.
    + by rewrite Ex.
    + by rewrite Ex.
    + intros u Hu. apply (c_running Q k Hc).
  - destruct Ht as [Ro Exp Ac Su On Ti So Du].
    assert (forall u, u ∈ R TimerList -> due k' u = due k u) as Hd by (intros u Hu; unfold due; by rewrite Eyu by by apply Hne).
    split; try done.
    + by apply linked_init_alone.
    + intros u. destruct (decide (u = t)) as [->|Hu]; [|by rewrite Eyu]. rewrite Ey. split; [intros Hin; by destruct (Hr TimerList)|done].
    + intros u. destruct (decide (u = t)) as [->|Hu]; [by rewrite Ey|rewrite Eyu, Eu by done; apply Su].
    + intros u. destruct (decide (u = t)) as [->|Hu]; [rewrite Ey; by left|by rewrite Eyu].
    + apply (sorted_weaken (fun t u => due k t <= due k u)); [|done]. intros u v Hu Hv. by rewrite !Hd.
    + intros u Hu. rewrite Hd by done. by apply Du.
  - split; [done|done|by split].
  - by rewrite Ex.
  - by rewrite Ex.
Qed.

(** A thread that has been initialised is put in the ready lists. *)
Lemma ready_spec Q R k t (Post : Z -> kernel -> Prop) : consistent Q k -> timers_ok R k ->
  status (thread k t) = RT_THREAD_INIT -> 0 <= init_priority (thread k t) < 32 -> (t < thread_count k)%nat -> rt_current_thread k <> Some t ->
  (forall k', consistent (<[Ready (init_priority (thread k t)) := Q (Ready (init_priority (thread k t))) ++ [t]]> Q) k' -> timers_ok R k' -> others t k k' ->
    status (thread k' t) = RT_THREAD_READY ->
    wp (when (bool_decide (is_Some (rt_current_thread k))) rt_schedule) k' (fun _ => Post RT_EOK)) ->
  wp (rt_thread_startup t) k Post.
Proof.
  intros Hc Ht Hst Hp Hco Hcu HQ. unfold rt_thread_startup, rt_assert, upd_thread, rt_thread_self. wp_steps. rewrite Hst, Z.eqb_refl. wp_steps.
  rewrite mask_of by done. cbn [thread set_thread]. rewrite fn_lookup_insert. set (p := init_priority (thread k t)) in *.
  set (x := set_stat RT_THREAD_SUSPEND _). set (k1 := set_thread t x _).
  assert (thread k1 t = x) as Ex by apply fn_lookup_insert.
  assert (forall u, u <> t -> thread k1 u = thread k u) as Eu by (intros u Hu; unfold k1; cbn [thread set_thread]; by rewrite !fn_lookup_insert_ne).
  destruct (c_place Q k Hc t) as (o & Hpl & Hok).
  assert (o = None) as -> by (rewrite Hst in Hok; inversion Hok; first [done|discriminate]). pose proof (proj1 (placed_none Q t) Hpl) as Hq.
  assert (activated (thread_timer k t) = false) as Hna by (apply (not_active R); [done|by rewrite Hst]).
  pose proof (inactive_no_list R k t Ht Hna) as Hr.
  assert (consistent Q k1) as Hc1.
  { apply (consistent_move Q Q k k1 t None); try done; [apply Hc|apply Hc| | | |].
    - rewrite Ex. by apply place_suspended.
    - intros _. rewrite Ex. split; [by split|done].
    - by rewrite Ex.
    - intros u Hu. apply (c_running Q k Hc). }
  assert (timers_ok R k1) as Ht1.
  { apply (timers_frame R k); try done. intros u Hu. rewrite Eu; [done|]. intros ->. by rewrite Hna in Hu. }
  apply (resume_spec Q R k1 t); [done|done|by rewrite Ex|]. rewrite Ex. change (current_priority x) with p. change (rt_current_thread k1) with (rt_current_thread k).
  unfold woken, woken_status. rewrite !decide_False by done. intros k2 Hc2 Ht2 Hth2 Hcu2 Hb2.
  assert (others t k k2) as Ho.
  { split; [|done|destruct Hb2 as [B1 B2 B3 B4 B5]; by split]. intros u Hu. by rewrite Hth2, fn_lookup_insert_ne, Eu. }
  wp_steps. rewrite Hcu2. change (rt_current_thread k1) with (rt_current_thread k).
  eapply wp_mono; [apply HQ|cbn beta; intros; by wp_steps]; [| |done|].
  - apply (consistent_ext (<[Ready p := without t Q (Ready p) ++ [t]]> (without t Q))); [|done]. intros q.
    destruct (decide (q = Ready p)) as [->|Hqq]; [rewrite !fn_lookup_insert; by rewrite (without_notin t Q)|rewrite !fn_lookup_insert_ne by done; by apply (without_notin t Q)].
  - apply (timers_ext (without t R)); [|done]. by apply without_notin.
  - rewrite Hth2, fn_lookup_insert. by apply status_with.
Qed.

(** A thread is made and started, while another runs. *)
Definition create (t : tid) (p n : Z) : M kernel unit := _ <- _rt_thread_init t p n ;; _ <- rt_thread_startup t ;; ret tt.

Definition append p t Q : queue -> list tid := <[Ready p := Q (Ready p) ++ [t]]> Q.

Lemma thread_create_spec Q R c k t p n (Post : unit -> kernel -> Prop) : settled Q R c k ->
  status (thread k t) = RT_THREAD_INIT -> (t < thread_count k)%nat -> 0 <= p < 32 ->
  (forall Q' c' k1 k', elect (append p t Q) (thread k c) c = (c', Q') -> settled Q' R c' k' ->
    others t k k1 -> (forall u, same_or_runs (thread k1 u) (thread k' u)) -> Post tt k') ->
  wp (create t p n) k Post.
Proof.
  intros Hs Hst Hco Hp HQ. pose proof Hs as [[Hc Hcu Hru Hl] Ht Hon Hnest]. unfold create. wp_steps.
  assert (t <> c) as Htc by (intros ->; by rewrite Hst in Hru).
  apply (thread_init_spec Q R); try done. intros k1 Hc1 Ht1 Ho1 Hst1 Hp1. wp_steps.
  apply (ready_spec Q R); try done; [by rewrite Hp1|by rewrite (bt_count _ _ _ (oth_timer _ _ _ Ho1))|rewrite (oth_current _ _ _ Ho1); congruence|].
  rewrite Hp1. intros k2 Hc2 Ht2 Ho2 Hst2. rewrite (oth_current _ _ _ Ho1), Hcu, bool_decide_true by done. cbn [when].
  pose proof (others_trans _ _ _ _ Ho1 Ho2) as Ho.
  assert (settled (append p t Q) R c k2) as Hs2.
  { apply (moved_settled Q _ R R c k k2 t); try done; [|apply (oth_thread _ _ _ Ho)|apply (oth_current _ _ _ Ho)|apply (bt_lock _ _ _ (oth_timer _ _ _ Ho))|apply (bt_nest _ _ _ (oth_timer _ _ _ Ho))].
    intros u Hu. apply (others_on_time R t k); [done|done|]. apply elem_of_without. split; [|done]. intros ->.
    apply (t_active R k2 Ht2), (t_suspended R k2 Ht2) in Hu. by rewrite Hst2 in Hu. }
  apply (settled_schedule _ R c k2 _ Hs2). intros Q' c' k' Hel Hs' _ Hsch. wp_steps.
  rewrite (oth_thread _ _ _ Ho c) in Hel by congruence. apply (HQ Q' c' k2); [done..|].
  intros u. by apply (scheduled_moves _ k2 c c' Q' k' u Hc2 (r_current _ _ _ (s_runs _ _ _ _ Hs2))).
Qed.

(** A thread ends: its node, taken from its list, goes to the defunct threads, and its timer
    stops. *)
Definition ended Q t : queue -> list tid := <[Defunct := t :: without t Q Defunct]> (without t Q).

Lemma ended_spec Q R k k0 t (Post : unit -> kernel -> Prop) : consistent Q k -> timers_ok R k ->
  status (thread k t) <> RT_THREAD_INIT ->
  linked (tlists k0) (without t Q) -> group_ok (rt_thread_ready_priority_group k0) (without t Q) ->
  thread k0 = thread k -> thread_timer k0 = thread_timer k -> rows k0 = rows k -> rt_tick k0 = rt_tick k ->
  rt_current_thread k0 = rt_current_thread k -> thread_count k0 = thread_count k -> rt_scheduler_lock_nest k0 = rt_scheduler_lock_nest k ->
  rt_interrupt_nest k0 = rt_interrupt_nest k ->
  (forall k', consistent (ended Q t) k' -> timers_ok (without t R) k' -> others t k k' -> status (thread k' t) = RT_THREAD_CLOSE -> Post tt k') ->
  wp (_ <- rt_timer_detach t ;; upd_thread t (set_stat RT_THREAD_CLOSE) ;;; on_tlists (rt_list_insert_after (Head Defunct) (Elem t))) k0 Post.
Proof.
  intros Hc Ht Hni L0 G0 Eth Etm Er Ek Ecu Eco El En HQ. unfold rt_timer_detach, _rt_timer_remove, upd_timer, upd_thread, on_rows, on_tlists. wp_steps.
  set (r := rt_list_remove (Elem t) (rows k0)). change (set_timer t (deactivate (thread_timer (set_rows r k0) t)) (set_rows r k0)) with (stopped t r k0).
  set (k1 := stopped t r k0). set (x := set_stat RT_THREAD_CLOSE (thread k1 t)). set (k' := set_tlists _ _).
  assert (timers_ok R k0) as Ht0 by (apply (timers_frame R k); try done; intros u _; by rewrite Eth).
  assert (timers_ok (without t R) k1) as Ht1.
  { apply stopped_ok; [done|]. apply linked_remove; [apply Ht0|by apply (timer_place R k0)]. }
  assert (thread k' = <[t := x]> (thread k)) as Eth' by (by rewrite <- Eth).
  assert (thread k' t = x) as Ex by (by rewrite Eth', fn_lookup_insert).
  assert (forall u, u <> t -> thread k' u = thread k u) as Eu by (intros u Hu; by rewrite Eth', fn_lookup_insert_ne).
  assert (status x = RT_THREAD_CLOSE) as Hx by reflexivity.
  assert (thread k1 t = thread k t) as Et1 by (change (thread k1) with (thread k0); by rewrite Eth).
  apply HQ; [| | |by rewrite Ex].
  - apply (consistent_move Q _ k k' t (Some Defunct)); try done.
    + by apply linked_push; [|apply without_in].
    + intros u q Hu. unfold ended. destruct (decide (q = Defunct)) as [->|Hq].
      * rewrite fn_lookup_insert, elem_of_cons, elem_of_without. tauto.
      * rewrite fn_lookup_insert_ne, elem_of_without by done. tauto.
    + intros q. unfold ended. destruct (decide (q = Defunct)) as [->|Hq].
      * rewrite fn_lookup_insert, elem_of_cons. tauto.
      * rewrite fn_lookup_insert_ne, elem_of_without by done. split; [tauto|]. intros [= <-]. done.
    + rewrite Ex. by apply place_closed.
    + intros _. rewrite Ex. split; [|by apply (c_count Q k Hc)]. unfold priority_ok, x. rewrite Et1. by apply (c_priority Q k Hc t).
    + rewrite Ex, Hx. discriminate.
    + intros u Hu Hru. change (rt_current_thread k0 = Some u). rewrite Ecu. by apply (c_running Q k Hc).
  - apply (timers_frame _ k1); try done. intros u Hu. destruct (decide (u = t)) as [->|Hne].
    + change (thread_timer k1 t) with ((<[t := deactivate (thread_timer k0 t)]> (thread_timer k0)) t) in Hu.
      rewrite fn_lookup_insert, activated_deactivate in Hu. done.
    + rewrite Eu by done. change (thread k1) with (thread k0). by rewrite Eth.
  - split; [done|exact Ecu|]. split; [|exact El|exact En|exact Ek|exact Eco]. intros u Hu.
    change (thread_timer k' u) with ((<[t := deactivate (thread_timer k0 t)]> (thread_timer k0)) u). by rewrite fn_lookup_insert_ne, Etm.
Qed.

(** The lists without a thread, whatever its place. *)
Lemma remove_any_spec Q k t (Post : unit -> kernel -> Prop) : consistent Q k -> status (thread k t) <> RT_THREAD_INIT ->
  (forall l g, linked l (without t Q) -> group_ok g (without t Q) -> Post tt (set_group g (set_tlists l k))) ->
  wp (rt_schedule_remove_thread t) k Post.
Proof.
  intros Hc Hni HQ. destruct (c_place Q k Hc t) as (o & Hp & Hok).
  apply (remove_thread_spec Q k t o); [apply Hc|apply Hc|by apply (c_priority Q k Hc)|done| |done].
  intros p ->. inversion Hok; [done|]. subst. discriminate.
Qed.

Lemma exit_spec idle Q R c k : settled Q R c k -> can_run (thread k idle) -> c <> idle -> wp rt_thread_exit k (fun _ => kernel_ok idle).
Proof.
  intros Hs Hi Hne. pose proof Hs as [[Hc Hcu Hst Hl] Ht Hon Hnest]. unfold rt_thread_exit, self, rt_thread_self. wp_steps. rewrite Hcu. wp_steps.
  assert (status (thread k c) <> RT_THREAD_INIT) as Hni by (by rewrite Hst).
  apply (remove_any_spec Q k c); [done|done|]. intros l g L G.
  set (k0 := set_group g (set_tlists l k)).
  assert (wp (_ <- rt_timer_detach c ;; upd_thread c (set_stat RT_THREAD_CLOSE) ;;; on_tlists (rt_list_insert_after (Head Defunct) (Elem c))) k0
    (fun _ k' => wp rt_schedule k' (fun _ => kernel_ok idle))) as Hend.
  { apply (ended_spec Q R k k0 c); try done. intros k' Hc' Ht' Ho Hst'. apply (leave_spec idle (ended Q c) (without c R) c k'); try done.
    - by apply (others_on_time R c k).
    - by rewrite (oth_current _ _ _ Ho).
    - by rewrite (bt_lock _ _ _ (oth_timer _ _ _ Ho)).
    - by rewrite (bt_nest _ _ _ (oth_timer _ _ _ Ho)).
    - unfold can_run. rewrite Hst'. by intros [|].
    - rewrite (oth_thread _ _ _ Ho) by done. by apply (can_run_ready Q c). }
  exact Hend.
Qed.

Lemma delete_spec idle Q R c k t : settled Q R c k -> can_run (thread k idle) -> t <> idle -> t <> c -> status (thread k t) <> RT_THREAD_INIT ->
  wp (rt_thread_delete t) k (fun _ => kernel_ok idle).
Proof.
  intros Hs Hi Hti Htc Hni. pose proof Hs as [[Hc Hcu Hst Hl] Ht Hon Hnest]. unfold rt_thread_delete. wp_steps.
  destruct (Z.eqb_spec (status (thread k t)) RT_THREAD_CLOSE) as [E|E]; [wp_steps; split; [by exists Q, R, c|done]|].
  rewrite (proj2 (Z.eqb_neq _ _) Hni). cbn [negb when]. wp_steps. apply (remove_any_spec Q k t); [done|done|]. intros l g L G.
  set (k0 := set_group g (set_tlists l k)).
  assert (wp (_ <- rt_timer_detach t ;; upd_thread t (set_stat RT_THREAD_CLOSE) ;;; on_tlists (rt_list_insert_after (Head Defunct) (Elem t))) k0
    (fun _ => kernel_ok idle)) as Hend; [|exact Hend].
  apply (ended_spec Q R k k0 t); try done. intros k' Hc' Ht' Ho Hst'. split; [|by rewrite (oth_thread _ _ _ Ho)].
  exists (ended Q t), (without t R), c. apply (moved_settled Q _ R _ c k k' t); try done; [by apply (others_on_time R t k)|apply Ho..].
Qed.

Lemma defunct_closed Q k t : consistent Q k -> t ∈ Q Defunct -> status (thread k t) = RT_THREAD_CLOSE.
Proof.
  intros Hc Hin. destruct (c_place Q k Hc t) as (o & Hp & Hok). apply Hp in Hin. subst o. by inversion Hok.
Qed.

Lemma idle_loop_spec fuel : forall Q R c k, settled Q R c k -> (length (Q Defunct) < fuel)%nat ->
  wp (idle_loop fuel) k (fun _ k' => exists Q', settled Q' R c k' /\ Q' Defunct = [] /\ thread k' = thread k).
Proof.
  induction fuel as [|fuel IH]; intros Q R c k Hs Hlen; [lia|]. cbn [idle_loop]. pose proof Hs as [[Hc Hcu Hst Hl] Ht Hon Hnest].
  wp_steps. rewrite (next_head _ _ _ (c_links Q k Hc)). destruct (Q Defunct) as [|t l] eqn:E.
  { rewrite bool_decide_true by done. wp_steps. by exists Q. }
  rewrite bool_decide_false by done. cbn [entry]. unfold on_tlists. wp_steps.
  set (k1 := set_tlists (rt_list_remove (Elem t) (tlists k)) k). assert (t ∈ Q Defunct) as Hin by (rewrite E; left). pose proof (defunct_closed Q k t Hc Hin) as Hcl.
  assert (consistent (without t Q) k1) as Hc1.
  { apply (consistent_move Q _ k k1 t None); try done.
    - apply (linked_remove_in _ Q Defunct); [apply Hc|done].
    - destruct (c_group Q k Hc) as [Hg Hb]. split; [done|]. intros p Hp. change (rt_thread_ready_priority_group k1) with (rt_thread_ready_priority_group k).
      rewrite Hb by done. unfold without. rewrite filter_ne_notin; [done|]. intros H%(ready_status Q k t p Hc). destruct H as [H _]. by rewrite Hcl in H.
    - intros u q Hu. rewrite elem_of_without. tauto.
    - apply placed_without.
    - by apply place_gone.
    - intros _. split; [|apply (c_count Q k Hc); by rewrite Hcl]. apply (c_priority Q k Hc). by rewrite Hcl.
    - intros H. change (thread k1 t) with (thread k t) in H. by rewrite Hcl in H.
    - intros u _. apply (c_running Q k Hc). }
  apply (IH (without t Q) R c k1).
  - split; [by split|by apply (timers_frame R k)|by apply (on_time_same R k)|done].
  - unfold without. rewrite E, filter_cons_False by tauto. cbn [length] in Hlen. pose proof (length_filter (fun u => u <> t) l). lia.
Qed.

Lemma idle_excute_spec idle Q R c k : settled Q R c k -> can_run (thread k idle) -> wp rt_thread_idle_excute k (fun _ => kernel_ok idle).
Proof.
  intros Hs Hi. unfold rt_thread_idle_excute. wp_steps. eapply wp_mono; [apply (idle_loop_spec _ Q R c)|]; [done| |].
  - pose proof Hs as [[Hc _ _ _] _ _ _]. apply Nat.lt_succ_r. rewrite <- (length_seq (thread_count k) 0).
    apply submseteq_length, NoDup_submseteq; [apply (lk_nodup _ _ (c_links Q k Hc))|]. intros t Hin%(defunct_closed Q k t Hc).
    apply elem_of_seq. split; [lia|]. apply (c_count Q k Hc). by rewrite Hin.
  - cbn beta. intros _ k' (Q' & Hs' & _ & E). split; [by exists Q', R, c|by rewrite E].
Qed.

(** ** The system starts *)

Lemma boot_create Q R k t p n : consistent Q k -> timers_ok R k -> rt_current_thread k = None ->
  status (thread k t) = RT_THREAD_INIT -> (t < thread_count k)%nat -> 0 <= p < 32 ->
  wp (create t p n) k (fun _ k' => consistent (<[Ready p := Q (Ready p) ++ [t]]> Q) k' /\ timers_ok R k' /\ others t k k' /\
    status (thread k' t) = RT_THREAD_READY).
Proof.
  intros Hc Ht Hcu Hst Hco Hp. unfold create. wp_steps. apply (thread_init_spec Q R); try done. intros k1 Hc1 Ht1 Ho1 Hst1 Hp1. wp_steps.
  apply (ready_spec Q R); try done; [by rewrite Hp1|by rewrite (bt_count _ _ _ (oth_timer _ _ _ Ho1))|by rewrite (oth_current _ _ _ Ho1), Hcu|].
  rewrite Hp1. intros k2 Hc2 Ht2 Ho2 Hst2. rewrite (oth_current _ _ _ Ho1), Hcu, bool_decide_false by by intros []. cbn [when]. wp_steps.
  split_and!; [done|done|by apply (others_trans t k k1 k2)|done].
Qed.

Lemma init_lists_spec (l : list Z) k : linked (tlists k) (fun _ => []) ->
  wp (for_each l (fun p => on_tlists (rt_list_init (Head (Ready p))))) k (fun _ k' => exists s, linked s (fun _ => []) /\ k' = set_tlists s k).
Proof.
  revert k. induction l as [|p l IH]; intros k L; cbn [for_each]; [wp_steps; exists (tlists k); split; [done|by destruct k]|].
  unfold on_tlists at 1. wp_steps. eapply wp_mono; [apply IH; by apply linked_init|]. cbn beta. intros _ k' (s & Ls & ->). by exists s.
Qed.

Lemma start_spec Q R k (Post : unit -> kernel -> Prop) : consistent Q k -> timers_ok R k -> R TimerList = [] -> rt_current_thread k = None ->
  rt_scheduler_lock_nest k = 0 -> rt_interrupt_nest k = 0 -> rt_thread_ready_priority_group k <> 0 ->
  (forall p t l k', Q (Ready p) = t :: l -> (forall j, 0 <= j < p -> Q (Ready j) = []) -> settled (without t Q) R t k' ->
    (forall u, u <> t -> thread k' u = thread k u) -> Post tt k') ->
  wp rt_system_scheduler_start k Post.
Proof.
  intros Hc Ht Hr Hcu Hl Hnest Hg HQ. unfold rt_system_scheduler_start. wp_steps. apply (highest_spec Q k); [done|done|]. intros p t l Hp E Hless. wp_steps.
  set (k1 := set_current (Some t) _ k). assert (t ∈ Q (Ready p)) as Hin by (rewrite E; left).
  destruct (ready_status Q k t p Hc Hin) as [Hst _].
  assert (consistent Q k1) as Hc1.
  { destruct Hc as [L P Pr Ru Co Gr]. split; try done. intros u Hu%Ru. by rewrite Hcu in Hu. }
  apply (switch_in_spec Q k1 t p l (set_stat RT_THREAD_RUNNING)); [done|done|done|by eexists|done|].
  intros k2 Hc2 Hth2 Hcu2 Hsr2. apply (HQ p t l); try done.
  - split; [split; try done; [by rewrite Hth2, fn_lookup_insert|by rewrite (sr_lock _ _ Hsr2)]| | |by rewrite (sr_nest _ _ Hsr2)].
    + apply (timers_frame R k); [done|apply Hsr2..|]. intros u Hu%(t_active R k Ht). rewrite Hr in Hu. by apply elem_of_nil in Hu.
    + intros u Hu. rewrite Hr in Hu. by apply elem_of_nil in Hu.
  - intros u Hu. by rewrite Hth2, fn_lookup_insert_ne.
Qed.

(** The memory before the start: the blocks of [n] threads; the nodes that the code
    initialises when it makes their objects count as initialised. *)
Definition kernel_zero (n : nat) : kernel :=
  Kernel (fun _ => Rt_thread 0 0 0 0 0 0 0 0 0) (fun _ => Rt_timer 0 0 0) (Links id id) (Links id id) 0 0 None 0 0 0 n.

Lemma consistent_zero n : consistent (fun _ => []) (kernel_zero n).
Proof.
  split; try done; [apply linked_none| |].
  - intros t. exists None. split; [|by apply place_init]. intros q. split; [intros H; by apply elem_of_nil in H|done].
  - split; [done|]. intros p Hp. cbn [rt_thread_ready_priority_group kernel_zero]. by rewrite Z.bits_0.
Qed.
Lemma timers_zero n : timers_ok (fun _ => []) (kernel_zero n).
Proof.
  split; try done.
  - apply linked_none.
  - intros t. split; [intros H; by apply elem_of_nil in H|done].
  - intros t. by left.
  - apply SSorted_nil.
Qed.

(** The ready lists when the start is over. *)
Definition boot_lists (main timer idle : tid) : queue -> list tid :=
  without timer (append (RT_THREAD_PRIORITY_MAX - 1) idle (append RT_TIMER_THREAD_PRIO timer (append RT_MAIN_THREAD_PRIORITY main (fun _ => [])))).

Lemma startup_spec n main timer idle : NoDup [main; timer; idle] -> (forall t, t ∈ [main; timer; idle] -> t < n)%nat ->
  wp (rtthread_startup main timer idle) (kernel_zero n) (fun _ k' =>
    settled (boot_lists main timer idle) (fun _ => []) timer k' /\ can_run (thread k' idle)).
Proof.
  intros Hd Hn. unfold rtthread_startup, rt_system_timer_init, rt_system_scheduler_init, on_rows. wp_steps.
  set (k1 := set_rows _ (kernel_zero n)). assert (timers_ok (fun _ => []) k1) as Ht1.
  { apply (timers_relink _ (kernel_zero n)); [apply timers_zero| |done..]. apply linked_init; [apply linked_none|done]. }
  eapply wp_mono; [apply init_lists_spec; apply linked_none|]. cbn beta. intros _ k2 (s & Ls & ->). unfold on_tlists. wp_steps.
  set (k3 := set_tlists _ _).
  assert (consistent (fun _ => []) k3) as Hc3.
  { destruct (consistent_zero n) as [_ P Pr Ru Co Gr]. split; try done. by apply linked_init. }
  assert (timers_ok (fun _ => []) k3) as Ht3 by (by apply (timers_frame _ k1)).
  apply NoDup_cons in Hd as [Hmain [Htimer _]%NoDup_cons].
  assert (timer <> main /\ idle <> main /\ idle <> timer) as (Htm & Him & Hit).
  { split_and!; intros ->; [apply Hmain; left|apply Hmain; right; left|apply Htimer; left]. }
  eapply wp_mono; [apply (boot_create (fun _ => []) (fun _ => []) k3 main RT_MAIN_THREAD_PRIORITY 20); try done; apply Hn; left|].
  cbn beta. intros _ k4 (Hc4 & Ht4 & [Ho4 Hcu4 Hb4] & Hr4). apply wp_bind.
  eapply wp_mono; [apply (boot_create _ (fun _ => []) k4 timer RT_TIMER_THREAD_PRIO 10 Hc4 Ht4); try done|].
  { by rewrite Ho4. }
  { rewrite (bt_count _ _ _ Hb4). apply Hn. right. left. }
  cbn beta. intros _ k5 (Hc5 & Ht5 & [Ho5 Hcu5 Hb5] & Hr5). apply wp_bind.
  eapply wp_mono; [apply (boot_create _ (fun _ => []) k5 idle (RT_THREAD_PRIORITY_MAX - 1) 32 Hc5 Ht5); try done|].
  { by rewrite Hcu5, Hcu4. }
  { by rewrite Ho5, Ho4. }
  { rewrite (bt_count _ _ _ Hb5), (bt_count _ _ _ Hb4). apply Hn. right. right. left. }
  cbn beta. intros _ k6 (Hc6 & Ht6 & [Ho6 Hcu6 Hb6] & Hr6).
  eapply (start_spec _ (fun _ => []) k6 _ Hc6 Ht6); [done|by rewrite Hcu6, Hcu5, Hcu4| | |by apply (ready_group _ k6 idle Hc6)|].
  { by rewrite (bt_lock _ _ _ Hb6), (bt_lock _ _ _ Hb5), (bt_lock _ _ _ Hb4). }
  { by rewrite (bt_nest _ _ _ Hb6), (bt_nest _ _ _ Hb5), (bt_nest _ _ _ Hb4). }
  intros p t l k7 E Hless Hs7 Hth7.
  assert (t = timer) as ->.
  { destruct (Z.lt_trichotomy p 4) as [Hp|[->|Hp]].
    - rewrite !fn_lookup_insert_ne in E by (unfold RT_THREAD_PRIORITY_MAX, RT_TIMER_THREAD_PRIO, RT_MAIN_THREAD_PRIORITY; intros [= <-]; lia). done.
    - by injection E as <- <-.
    - pose proof (Hless 4 ltac:(lia)) as E4. discriminate E4. }
  split; [exact Hs7|]. rewrite Hth7 by done. by left.
Qed.

(** ** Taking turns *)

Lemma yield_turn_spec Q R c k t l (Post : Z -> kernel -> Prop) : settled Q R c k ->
  (forall j, 0 <= j < current_priority (thread k c) -> Q (Ready j) = []) -> Q (Ready (current_priority (thread k c))) = t :: l ->
  (forall Q' k', settled Q' R t k' -> current_priority (thread k' t) = current_priority (thread k c) ->
    (forall j, 0 <= j < current_priority (thread k c) -> Q' (Ready j) = []) -> Q' (Ready (current_priority (thread k c))) = l ++ [c] -> Post RT_EOK k') ->
  wp rt_thread_yield k Post.
Proof.
  intros Hs Hless E HQ. pose proof Hs as [[Hc Hcu Hst Hl] _ _ _]. set (p := current_priority (thread k c)) in *.
  assert (t ∈ Q (Ready p)) as Hin by (rewrite E; left). destruct (ready_status Q k t p Hc Hin) as [Htst Htp].
  assert (t <> c) as Htc by (intros ->; by rewrite Htst in Hst).
  assert (0 <= p < 32) as Hp by (apply (c_priority Q k Hc c); by rewrite Hst).
  assert (c ∉ l) as Hcl. { intros Hin2. destruct (ready_status Q k c p Hc) as [H _]; [rewrite E; by right|]. by rewrite Hst in H. }
  assert (t ∉ l) as Htl. { pose proof (lk_nodup _ _ (c_links Q k Hc) (Ready p)) as Hd. rewrite E in Hd. by apply NoDup_cons in Hd as [? _]. }
  apply (yield_spec Q R c k); [done|]. intros Q' c' k' Hel Hs' _ Hlike _.
  assert ((c', Q') = (t, without t (<[Ready p := Q (Ready p) ++ [c]]> Q))) as [= -> ->].
  { rewrite <- Hel. unfold elect. change (current_priority (yields (thread k c))) with p. rewrite yielding_yields.
    pose proof (best_priority_spec Q) as Hb. destruct (best_priority Q) as [p'|]; [destruct Hb as (H1 & H2 & H3)|by rewrite Hb in E].
    assert (p' = p) as ->.
    { destruct (Z.lt_trichotomy p p') as [H|[H|H]]; [by rewrite H3 in E by lia|done|exfalso; apply H2, Hless; lia]. }
    by rewrite Z.ltb_irrefl, Z.eqb_refl, E. }
  eapply HQ; [exact Hs'| | |].
  - destruct (Hlike t) as [_ (v & w & ->)]. exact Htp.
  - intros j Hj. unfold without. rewrite fn_lookup_insert_ne by (intros [= ?]; lia). by rewrite Hless.
  - unfold without. rewrite fn_lookup_insert, E. cbn [Datatypes.app]. rewrite filter_cons_False by tauto. apply filter_ne_notin.
    rewrite elem_of_app, list_elem_of_singleton. intros [|]; congruence.
Qed.

Fixpoint rounds (n : nat) : M kernel unit := match n with O => ret tt | S n => _ <- rt_thread_yield ;; rounds n end.

(** ** Sequences of operations *)

Inductive op : Type :=
| Yield | Sleep (n : Z) | Suspend (t : tid) | Resume (t : tid) | Create (t : tid) (p n : Z) | Change_priority (t : tid) (p : Z)
| Exit | Delete (t : tid) | Idle_excute | Schedule | Tick.

Definition run_op (o : op) : M kernel unit :=
  match o with
  | Yield => _ <- rt_thread_yield ;; ret tt
  | Sleep n => rt_thread_sleep n
  | Suspend t => _ <- rt_thread_suspend t ;; rt_schedule
  | Resume t => _ <- rt_thread_resume t ;; ret tt
  | Create t p n => create t p n
  | Change_priority t p => change_priority t p
  | Exit => rt_thread_exit
  | Delete t => _ <- rt_thread_delete t ;; ret tt
  | Idle_excute => rt_thread_idle_excute
  | Schedule => rt_schedule
  | Tick => SysTick_Handler
  end.

(** What an operation asks of its caller. *)
Definition allowed (idle : tid) (k : kernel) (o : op) : Prop :=
  match o with
  | Sleep n => rt_current_thread k <> Some idle /\ 0 <= n < 2 ^ 31 - 1
  | Suspend t => t <> idle
  | Create t p _ => status (thread k t) = RT_THREAD_INIT /\ (t < thread_count k)%nat /\ 0 <= p < RT_THREAD_PRIORITY_MAX
  | Change_priority _ p => 0 <= p < RT_THREAD_PRIORITY_MAX
  | Exit => rt_current_thread k <> Some idle
  | Delete t => t <> idle /\ rt_current_thread k <> Some t /\ status (thread k t) <> RT_THREAD_INIT
  | _ => True
  end.

Inductive reaches (idle : tid) (k : kernel) : kernel -> Prop :=
| reaches_refl : reaches idle k k
| reaches_step k1 k2 o : reaches idle k k1 -> allowed idle k1 o -> run_op o k1 = Ok (tt, k2) -> reaches idle k k2.

Lemma op_ok idle k o : kernel_ok idle k -> allowed idle k o -> wp (run_op o) k (fun _ => kernel_ok idle).
Proof.
  intros [(Q & R & c & Hs) Hi] Ha. pose proof (r_current _ _ _ (s_runs _ _ _ _ Hs)) as Hcu. destruct o; cbn [run_op allowed] in *.
  - wp_steps. apply (yield_spec Q R c k); [done|]. intros Q' c' k' _ Hs' _ Hm _. wp_steps. split; [by exists Q', R, c'|].
    apply (same_or_runs_can (thread k idle)); [apply Hm|done].
  - apply (sleep_spec idle Q R c); [done|done|intros ->; by destruct Ha|apply Ha|]. intros Q2 R2 c2 k2 Hs2 _ Hi2 _ _ _ _ _ _. split; [by exists Q2, R2, c2|done].
  - by apply (suspend_schedule_spec idle Q R c).
  - wp_steps. apply (resume_settled Q R c k t); [done|intros _; wp_steps; split; [by exists Q, R, c|done]|].
    intros k' Hs' Hst Ht Hu. wp_steps. split; [by eexists _, _, c|]. destruct (decide (idle = t)) as [->|Hne]; [|by rewrite Hu].
    left. rewrite Ht. by apply status_with.
  - destruct Ha as (H1 & H2 & H3). apply (thread_create_spec Q R c); [done..|]. intros Q' c' k1 k' _ Hs' Ho Hm. split; [by exists Q', R, c'|].
    apply (same_or_runs_can (thread k1 idle)); [done|]. rewrite (oth_thread _ _ _ Ho); [done|].
    intros ->. destruct Hi as [Hi|Hi]; by rewrite H1 in Hi.
  - apply (change_priority_spec Q R c k); [done|done|]. intros Q' k' Hs' Hst _ _ _ _. split; [by exists Q', R, c|]. unfold can_run. by rewrite !Hst.
  - apply (exit_spec idle Q R c); [done|done|]. by intros ->.
  - wp_steps. eapply wp_mono; [apply (delete_spec idle Q R c)|cbn beta; intros; by wp_steps]; try done; [apply Ha|intros ->; by destruct Ha as (_ & Ha & _)|apply Ha].
  - by apply (idle_excute_spec idle Q R c).
  - by apply (kernel_ok_schedule idle Q R c).
  - eapply wp_mono; [by apply (systick_spec idle Q R c)|]. cbn beta. intros _ k' (Q' & R' & c' & Hs' & Hi' & _). split; [by exists Q', R', c'|done].
Qed.
End Threads.

(** C9. The kernel never goes wrong: from a kernel in order, whatever operations the threads and
    the clock perform, each as its interface allows, the ready lists, the waiting lists, the
    bitmap of the ready priorities and the timer list stay well formed, exactly one thread
    runs, and the next operation that is allowed neither fails an assertion nor follows a
    pointer that leads nowhere. *)
Theorem kernel_never_wrong idle (k k' : kernel) (o : op) :
  kernel_ok idle k -> reaches idle k k' -> allowed idle k' o ->
  kernel_ok idle k' /\ exists k'', run_op o k' = Ok (tt, k'') /\ kernel_ok idle k''.
Proof.
  intros Hk Hr Ha. assert (kernel_ok idle k') as Hk'.
  { clear Ha. induction Hr as [|k1 k2 o' Hr IH Ha E]; [done|]. exact (wp_ok _ _ _ _ _ E (op_ok idle k1 o' IH Ha)). }
  split; [done|]. destruct (wp_total _ _ _ (op_ok idle k' o Hk' Ha)) as ([] & k'' & E & H). by exists k''.
Qed.

(** Start-up: [rtthread_startup] on zeroed memory leaves a kernel in order, and the thread
    of the soft timers, whose priority is the best, runs first. *)
Theorem system_starts (n main timer idle : nat) :
  NoDup [main; timer; idle] -> (forall t, t ∈ [main; timer; idle] -> t < n)%nat ->
  wp (rtthread_startup main timer idle) (kernel_zero n) (fun _ k' => kernel_ok idle k' /\ rt_current_thread k' = Some timer).
Proof.
  intros Hd Hn. eapply wp_mono; [by apply startup_spec|]. cbn beta. intros _ k' [Hs Hi]. split; [split; [by eexists _, _, _|done]|].
  apply (r_current _ _ _ (s_runs _ _ _ _ Hs)).
Qed.

(** C32. Scheduling on the linked lists and the bitmap is the election on the abstract lists:
    while [c] runs and the scheduler is not locked, [rt_schedule] ends with the thread that
    [elect] names running and the lists as [elect] leaves them, no timer touched, and no
    ready thread has a better priority than the one that runs. *)
Theorem schedule_elects Q R c (k : kernel) : settled Q R c k ->
  wp rt_schedule k (fun _ k' => let '(c', Q') := elect Q (thread k c) c in
    settled Q' R c' k' /\ rt_current_thread k' = Some c' /\ highest c' k').
Proof.
  intros Hs. apply (settled_schedule Q R c k); [done|]. intros Q' c' k' -> Hs' Hh _.
  split_and!; [done|apply (r_current _ _ _ (s_runs _ _ _ _ Hs'))|done].
Qed.

(** Round robin: when the threads of the best priority yield one after the other, the one
    behind [l1] runs after [length l1 + 1] turns, and the others wait in their order. *)
Theorem round_robin Q R c (k : kernel) l1 (t : tid) l2 : settled Q R c k ->
  (forall j, 0 <= j < current_priority (thread k c) -> Q (Ready j) = []) ->
  Q (Ready (current_priority (thread k c))) = l1 ++ t :: l2 ->
  wp (rounds (S (length l1))) k (fun _ k' => rt_current_thread k' = Some t /\
    exists Q', settled Q' R t k' /\ Q' (Ready (current_priority (thread k c))) = l2 ++ c :: l1).
Proof.
  revert Q c k l2. induction l1 as [|u l1 IH]; intros Q c k l2 Hs Hless E; cbn [length Datatypes.app] in *.
  - cbn [rounds]. wp_steps. apply (yield_turn_spec Q R c k t l2); [done..|]. intros Q' k' Hs' _ _ E'. wp_steps.
    split; [apply (r_current _ _ _ (s_runs _ _ _ _ Hs'))|by exists Q'].
  - change (rounds (S (S (length l1)))) with (_ <- rt_thread_yield ;; rounds (S (length l1))). wp_steps.
    apply (yield_turn_spec Q R c k u (l1 ++ t :: l2)); [done..|]. intros Q' k' Hs' Hp Hless' E'.
    rewrite <- Hp in Hless', E' |- *. rewrite <- app_assoc in E'. eapply wp_mono; [apply (IH Q' u k' (l2 ++ [c])); done|].
    cbn beta. intros _ k2 (Hcu & Q2 & Hs2 & E2). split; [done|]. exists Q2. split; [done|]. by rewrite E2, <- app_assoc.
Qed.

(** While a critical section is open nothing is scheduled; when the last one ends, the
    scheduler runs. *)
Theorem critical_sections (k : kernel) : 0 <= rt_scheduler_lock_nest k < 2 ^ 15 - 1 ->
  wp rt_enter_critical k (fun _ k' => rt_schedule k' = Ok (tt, k') /\
    rt_exit_critical k' = if (rt_scheduler_lock_nest k =? 0) && bool_decide (is_Some (rt_current_thread k)) then rt_schedule k else Ok (tt, k)).
Proof.
  intros Hn. unfold rt_enter_critical. wp_steps. rewrite swrap_small by lia. set (n := rt_scheduler_lock_nest k) in *.
  set (k1 := set_lock_nest (n + 1) k). split.
  - unfold rt_schedule, bind, gets. change (rt_scheduler_lock_nest k1) with (n + 1). by rewrite (proj2 (Z.eqb_neq _ _)) by lia.
  - unfold rt_exit_critical, modify, gets, rt_thread_self, gets, bind. change (rt_scheduler_lock_nest k1) with (n + 1).
    rewrite swrap_small by lia. replace (n + 1 - 1) with n by lia. cbn [rt_scheduler_lock_nest set_lock_nest].
    assert (set_lock_nest n k1 = k) as -> by (by destruct k).
    destruct (Z.eqb_spec n 0) as [E|E]; [rewrite (proj2 (Z.leb_le _ _)) by lia|by rewrite (proj2 (Z.leb_gt _ _)) by lia]. cbn [when andb].
    assert (set_lock_nest 0 k = k) as -> by (rewrite <- E; by destruct k). by destruct (bool_decide _).
Qed.

(** C10. Sleeping: a thread that sleeps for [n] ticks gives the processor to the best ready
    thread; after [m] ticks of the clock, whatever wakes besides, it is still suspended
    when [m] is below [n] (or below one, for a sleep of zero ticks), and ready or running
    afterwards, with the error of a timeout; the kernel's lists stay well formed and the best
    ready thread runs all along. *)
Theorem sleep_wakes idle (k : kernel) (c : tid) (n : Z) (m : nat) :
  kernel_ok idle k -> rt_current_thread k = Some c -> c <> idle -> 0 <= n < 2 ^ 31 - 1 ->
  wp (rt_thread_sleep n ;;; ticks m) k (fun _ k' => kernel_ok idle k' /\
    (exists c', rt_current_thread k' = Some c' /\ highest c' k') /\
    if Z.of_nat m <? Z.max 1 n then status (thread k' c) = RT_THREAD_SUSPEND
    else can_run (thread k' c) /\ error (thread k' c) = - RT_ETIMEOUT).
Proof.
  intros [(Q & R & c1 & Hs) Hi] Hcu Hne Hn. pose proof (r_current _ _ _ (s_runs _ _ _ _ Hs)) as Hcu1. rewrite Hcu in Hcu1. injection Hcu1 as <-.
  wp_steps. apply (sleep_spec idle Q R c); try done. intros Q' R' c' k1 Hs1 Hhi1 Hi1 Hst Hin Hd _ _ _.
  eapply wp_mono; [apply (ticks_spec idle n c m Q' R' c' k1); try done|].
  - unfold asleep. rewrite (proj2 (Z.ltb_lt _ _)) by lia. split_and!; [done|done|lia].
  - lia.
  - cbn beta. intros _ k2 (Q2 & R2 & c2 & Hs2 & Hi2 & Hh2 & Ha). split; [split; [by exists Q2, R2, c2|done]|].
    split; [exists c2; split; [exact (r_current _ _ _ (s_runs _ _ _ _ Hs2))|by apply Hh2]|]. unfold asleep in Ha. revert Ha.
    destruct (Z.of_nat m <? Z.max 1 n); [by intros [? _]|done].
Qed.

(** ** Witnesses *)

(** The system after its start, with room for two more threads, which then come with the
    priority of the running one. *)
Definition booted : kernel := match rtthread_startup 0 1 2 (kernel_zero 5) with Ok (_, k) => k | Fault _ => kernel_zero 5 end.
Definition joined (t : tid) (k : kernel) : kernel := match create t 4 10 k with Ok (_, k') => k' | Fault _ => k end.
Definition crowded : kernel := joined 4 (joined 3 booted).

Lemma three_threads : NoDup [0%nat; 1%nat; 2%nat] /\ (forall t, t ∈ [0; 1; 2] -> t < 5)%nat.
Proof. split; [by apply (bool_decide_unpack _)|]. intros t H. repeat apply elem_of_cons in H as [->|H]; [lia..|]. by apply elem_of_nil in H. Qed.

Lemma booted_settled : settled (boot_lists 0 1 2) (fun _ => []) 1%nat booted /\ can_run (thread booted 2%nat).
Proof.
  destruct (wp_total _ _ _ (startup_spec 5 0 1 2 (proj1 three_threads) (proj2 three_threads))) as ([] & k & E & H).
  unfold booted. rewrite E. exact H.
Qed.
Lemma booted_ok : kernel_ok 2 booted.
Proof. destruct booted_settled as [Hs Hi]. split; [by eexists _, _, _|done]. Qed.


Lemma elect_stays Q x c : match best_priority Q with Some p => current_priority x <= p | None => True end -> yielding x = false -> elect Q x c = (c, Q).
Proof.
  unfold elect. intros Hb ->. destruct (best_priority Q) as [p|]; [|done].
  destruct (Z.ltb_spec (current_priority x) p) as [|Hge]; [done|]. by rewrite (proj2 (Z.eqb_eq _ _)) by lia.
Qed.

Lemma joined_settled Q c k t : settled Q (fun _ => []) c k -> status (thread k t) = RT_THREAD_INIT -> (t < thread_count k)%nat ->
  best_priority (append 4 t Q) = Some 4 -> current_priority (thread k c) = 4 -> yielding (thread k c) = false ->
  settled (append 4 t Q) (fun _ => []) c (joined t k).
Proof.
  intros Hs Hst Hco Hb Hp Hy. assert (wp (create t 4 10) k (fun _ k' => settled (append 4 t Q) (fun _ => []) c k')) as Hw.
  { apply (thread_create_spec Q (fun _ => []) c k); [done..|]. intros Q' c' k1 k' Hel Hs' _ _.
    rewrite elect_stays in Hel by (rewrite ?Hb; first [done|by rewrite Hp]). by injection Hel as <- <-. }
  destruct (wp_total _ _ _ Hw) as ([] & k' & E & H). unfold joined. by rewrite E.
Qed.

Definition crowded_lists : queue -> list tid := append 4 4 (append 4 3 (boot_lists 0 1 2)).

Lemma crowded_settled : settled crowded_lists (fun _ => []) 1%nat crowded.
Proof.
  apply joined_settled; [apply joined_settled; [apply booted_settled|..]|..];
    by (vm_compute; repeat constructor).
Qed.

Lemma kernel_never_wrong_witness : exists k', kernel_ok 2 booted /\ reaches 2 booted k' /\ kernel_ok 2 k' /\
  exists k'', run_op Tick k' = Ok (tt, k'') /\ kernel_ok 2 k''.
Proof.
  assert (allowed 2 booted (Sleep 3)) as Ha by (split; [destruct booted_settled as [Hs _]; by rewrite (r_current _ _ _ (s_runs _ _ _ _ Hs))|lia]).
  destruct (wp_total _ _ _ (op_ok 2 booted (Sleep 3) booted_ok Ha)) as ([] & k1 & E & Hk1).
  pose proof (reaches_step 2 booted booted k1 (Sleep 3) (reaches_refl 2 booted) Ha E) as Hr.
  exists k1. split; [exact booted_ok|]. split; [exact Hr|]. exact (kernel_never_wrong 2 booted k1 Tick booted_ok Hr I).
Defined.

Lemma system_starts_witness : NoDup [0%nat; 1%nat; 2%nat] /\
  wp (rtthread_startup 0 1 2) (kernel_zero 5) (fun _ k' => kernel_ok 2 k' /\ rt_current_thread k' = Some 1%nat).
Proof. split; [apply three_threads|]. exact (system_starts 5 0 1 2 (proj1 three_threads) (proj2 three_threads)). Defined.

Lemma schedule_elects_witness : settled crowded_lists (fun _ => []) 1%nat crowded /\
  wp rt_schedule crowded (fun _ k' => let '(c', Q') := elect crowded_lists (thread crowded 1%nat) 1 in
    settled Q' (fun _ => []) c' k' /\ rt_current_thread k' = Some c' /\ highest c' k').
Proof. split; [exact crowded_settled|]. exact (schedule_elects crowded_lists (fun _ => []) 1 crowded crowded_settled). Defined.

Lemma round_robin_witness : crowded_lists (Ready 4) = [3%nat] ++ [4%nat] /\
  wp (rounds 2) crowded (fun _ k' => rt_current_thread k' = Some 4%nat /\ exists Q', settled Q' (fun _ => []) 4%nat k' /\ Q' (Ready 4) = [1%nat; 3%nat]).
Proof.
  split; [reflexivity|]. assert (current_priority (thread crowded 1%nat) = 4) as Hp by (by vm_compute).
  pose proof (round_robin crowded_lists (fun _ => []) 1 crowded [3%nat] 4 [] crowded_settled) as H. rewrite Hp in H.
  apply H; [|reflexivity]. intros j Hj. assert (j = 0 \/ j = 1 \/ j = 2 \/ j = 3) as [-> | [-> | [-> | ->] ] ] by lia; reflexivity.
Defined.

Lemma sleep_wakes_witness : kernel_ok 2 booted /\ wp (rt_thread_sleep 3 ;;; ticks 3) booted (fun _ k' => kernel_ok 2 k' /\
  (exists c', rt_current_thread k' = Some c' /\ highest c' k') /\ can_run (thread k' 1%nat) /\ error (thread k' 1%nat) = - RT_ETIMEOUT).
Proof.
  split; [exact booted_ok|]. destruct booted_settled as [Hs _].
  exact (sleep_wakes 2 booted 1 3 3 booted_ok (r_current _ _ _ (s_runs _ _ _ _ Hs)) ltac:(lia) ltac:(lia)).
Defined.

Lemma critical_sections_witness : rt_scheduler_lock_nest (kernel_zero 1) = 0 /\
  wp rt_enter_critical (kernel_zero 1) (fun _ k' => rt_schedule k' = Ok (tt, k') /\ rt_exit_critical k' = Ok (tt, kernel_zero 1)).
Proof. split; [reflexivity|]. exact (critical_sections (kernel_zero 1) ltac:(cbn; lia)). Defined.
