(* ===== verification/Ipc.v ===== *)
(** * Inter-thread communication

    Models [rt-thread/src/ipc.c]: semaphores and mutexes over the kernel of Kernel.v. A call
    that waits ends, for the model, when the thread has been switched away from: it returns
    [None], and what the code does when the thread runs again is [woken_result]. The objects'
    registration, signals, and the events, mailboxes and message queues are left out. *)

From stdpp Require Import base numbers functions list.
From Stdlib Require Import ZArith Lia Sorted.
From S2P Require Import Prelude RtList Kernel Threads.

Open Scope Z_scope.

(** ** Data *)

Definition RT_IPC_FLAG_FIFO : Z := 0.
Definition RT_IPC_FLAG_PRIO : Z := 1.
Definition RT_SEM_VALUE_MAX : Z := 0xffff.
Definition RT_MUTEX_VALUE_MAX : Z := 0xffff.
Definition RT_MUTEX_HOLD_MAX : Z := 0xff.

Record rt_semaphore : Type := Rt_semaphore { sem_value : Z; sem_flag : Z }.

Record rt_mutex : Type := Rt_mutex {
  mutex_value : Z;
  original_priority : Z;
  hold : Z;
  owner : option tid;
  mutex_flag : Z
}.

(** The kernel with the semaphores and mutexes, by number. *)
Record ipc : Type := Ipc { ik : kernel; sems : nat -> rt_semaphore; mutexes : nat -> rt_mutex }.

#[export] #[refine] Instance lens_ipc_kernel : Lens ipc kernel :=
  {| view := ik; over := fun k i => Ipc k (sems i) (mutexes i) |}.
Proof. all: by intros; destruct s || reflexivity. Defined.

Definition set_sem (s : nat) (x : rt_semaphore) (i : ipc) : ipc := Ipc (ik i) (<[s := x]> (sems i)) (mutexes i).
Definition set_mutex (m : nat) (x : rt_mutex) (i : ipc) : ipc := Ipc (ik i) (sems i) (<[m := x]> (mutexes i)).

Definition set_sem_value (v : Z) (x : rt_semaphore) : rt_semaphore := Rt_semaphore v (sem_flag x).
Definition set_mutex_value (v : Z) (x : rt_mutex) : rt_mutex := Rt_mutex v (original_priority x) (hold x) (owner x) (mutex_flag x).
Definition set_hold (v : Z) (x : rt_mutex) : rt_mutex := Rt_mutex (mutex_value x) (original_priority x) v (owner x) (mutex_flag x).
Definition set_owner (o : option tid) (p : Z) (x : rt_mutex) : rt_mutex := Rt_mutex (mutex_value x) p (hold x) o (mutex_flag x).

Definition upd_sem (s : nat) (f : rt_semaphore -> rt_semaphore) : M ipc unit := modify (fun i => set_sem s (f (sems i s)) i).
Definition upd_mutex (m : nat) (f : rt_mutex -> rt_mutex) : M ipc unit := modify (fun i => set_mutex m (f (mutexes i m)) i).

(** [RT_DEBUG_IN_THREAD_CONTEXT] and [RT_DEBUG_NOT_IN_INTERRUPT] *)
Definition not_in_interrupt : M kernel unit := n <- gets rt_interrupt_nest ;; rt_assert (n =? 0).
Definition in_thread_context : M kernel unit :=
  c <- rt_thread_self ;; rt_assert (bool_decide (is_Some c)) ;;; not_in_interrupt.

(** ** The lists of waiting threads *)

(** The search of [rt_ipc_list_suspend] for the place of [thread], from the node [n]. *)
Fixpoint prio_search (fuel : nat) (q : queue) (t : tid) (n : node queue tid) : M kernel unit :=
  match fuel with
  | O => raise OutOfBounds
  | S fuel =>
      if bool_decide (n = Head q) then on_tlists (rt_list_insert_before (Head q) (Elem t))
      else
        sthread <- entry n ;;
        p <- gets (fun k => current_priority (thread k t)) ;;
        sp <- gets (fun k => current_priority (thread k sthread)) ;;
        if p <? sp then on_tlists (rt_list_insert_before (Elem sthread) (Elem t))
        else n' <- gets (fun k => next (tlists k) n) ;; prio_search fuel q t n'
  end.

Definition rt_ipc_list_suspend (q : queue) (t : tid) (flag : Z) : M kernel Z :=
  _ <- rt_thread_suspend t ;;
  (if flag =? RT_IPC_FLAG_FIFO then on_tlists (rt_list_insert_before (Head q) (Elem t))
   else if flag =? RT_IPC_FLAG_PRIO then
     n <- gets (fun k => next (tlists k) (Head q)) ;;
     count <- gets thread_count ;;
     prio_search (S count) q t n
   else ret tt) ;;;
  ret RT_EOK.

Definition rt_ipc_list_resume (q : queue) : M kernel Z :=
  n <- gets (fun k => next (tlists k) (Head q)) ;;
  t <- entry n ;;
  _ <- rt_thread_resume t ;;
  ret RT_EOK.

Fixpoint resume_all_loop (fuel : nat) (q : queue) : M kernel unit :=
  match fuel with
  | O => raise OutOfBounds
  | S fuel =>
      empty <- gets (fun k => rt_list_isempty (Head q) (tlists k)) ;;
      if empty then ret tt
      else
        n <- gets (fun k => next (tlists k) (Head q)) ;;
        t <- entry n ;;
        upd_thread t (set_error (- RT_ERROR)) ;;;
        _ <- rt_thread_resume t ;;
        resume_all_loop fuel q
  end.
Definition rt_ipc_list_resume_all (q : queue) : M kernel Z :=
  n <- gets thread_count ;; resume_all_loop (S n) q ;;; ret RT_EOK.

(** The running thread waits in [q], for [time] ticks when that is positive. *)
Definition wait_in (q : queue) (t : tid) (flag time : Z) : M kernel unit :=
  _ <- rt_ipc_list_suspend q t flag ;;
  when (0 <? time) (rt_timer_set_time t time ;;; _ <- rt_timer_start t ;; ret tt) ;;;
  rt_schedule.

(** What a call that has waited returns. *)
Definition woken_result (t : tid) : M kernel Z :=
  x <- gets (fun k => thread k t) ;;
  ret (if negb (error x =? RT_EOK) then error x else RT_EOK).

(** ** Semaphores *)

Definition rt_sem_init (s : nat) (value flag : Z) : M ipc Z :=
  rt_assert (value <? 0x10000) ;;;
  zoom (on_tlists (rt_list_init (Head (SemList s)))) ;;;
  upd_sem s (fun _ => Rt_semaphore (u16 value) flag) ;;;
  ret RT_EOK.

Definition rt_sem_take (s : nat) (time : Z) : M ipc (option Z) :=
  x <- gets (fun i => sems i s) ;;
  if 0 <? sem_value x then
    upd_sem s (set_sem_value (u16 (sem_value x - 1))) ;;; ret (Some RT_EOK)
  else if time =? 0 then ret (Some (- RT_ETIMEOUT))
  else
    zoom in_thread_context ;;;
    t <- zoom self ;;
    zoom (upd_thread t (set_error RT_EOK)) ;;;
    zoom (wait_in (SemList s) t (sem_flag x) time) ;;;
    ret None.
Definition rt_sem_trytake (s : nat) : M ipc (option Z) := rt_sem_take s 0.

Definition rt_sem_release (s : nat) : M ipc Z :=
  empty <- gets (fun i => rt_list_isempty (Head (SemList s)) (tlists (ik i))) ;;
  if negb empty then
    _ <- zoom (rt_ipc_list_resume (SemList s)) ;;
    zoom rt_schedule ;;;
    ret RT_EOK
  else
    v <- gets (fun i => sem_value (sems i s)) ;;
    if v <? RT_SEM_VALUE_MAX then upd_sem s (set_sem_value (u16 (v + 1))) ;;; ret RT_EOK
    else ret (- RT_EFULL).

(** [rt_sem_control] with RT_IPC_CMD_RESET *)
Definition rt_sem_reset (s : nat) (value : Z) : M ipc Z :=
  _ <- zoom (rt_ipc_list_resume_all (SemList s)) ;;
  upd_sem s (set_sem_value (u16 value)) ;;;
  zoom rt_schedule ;;;
  ret RT_EOK.

(** ** Mutexes *)

Definition rt_mutex_init (m : nat) (flag : Z) : M ipc Z :=
  zoom (on_tlists (rt_list_init (Head (MutexList m)))) ;;;
  upd_mutex m (fun _ => Rt_mutex 1 0xFF 0 None flag) ;;;
  ret RT_EOK.

Definition rt_mutex_take (m : nat) (time : Z) : M ipc (option Z) :=
  zoom in_thread_context ;;;
  t <- zoom self ;;
  zoom (upd_thread t (set_error RT_EOK)) ;;;
  x <- gets (fun i => mutexes i m) ;;
  if bool_decide (owner x = Some t) then
    if hold x <? RT_MUTEX_HOLD_MAX then upd_mutex m (set_hold (u8 (hold x + 1))) ;;; ret (Some RT_EOK)
    else ret (Some (- RT_EFULL))
  else if 0 <? mutex_value x then
    upd_mutex m (set_mutex_value (u16 (mutex_value x - 1))) ;;;
    p <- gets (fun i => current_priority (thread (ik i) t)) ;;
    upd_mutex m (set_owner (Some t) p) ;;;
    if hold x <? RT_MUTEX_HOLD_MAX then upd_mutex m (set_hold (u8 (hold x + 1))) ;;; ret (Some RT_EOK)
    else ret (Some (- RT_EFULL))
  else if time =? 0 then
    zoom (upd_thread t (set_error (- RT_ETIMEOUT))) ;;; ret (Some (- RT_ETIMEOUT))
  else
    match owner x with
    | None => raise NullAccess
    | Some o =>
        p <- gets (fun i => current_priority (thread (ik i) t)) ;;
        op <- gets (fun i => current_priority (thread (ik i) o)) ;;
        when (p <? op) (zoom (change_priority o p)) ;;;
        zoom (wait_in (MutexList m) t (mutex_flag x) time) ;;;
        ret None
    end.

(** The end of a release, when the mutex is not held any more. *)
Definition let_go (m : nat) (h v : Z) : M ipc Z :=
  empty <- gets (fun i => rt_list_isempty (Head (MutexList m)) (tlists (ik i))) ;;
  if negb empty then
    n <- gets (fun i => next (tlists (ik i)) (Head (MutexList m))) ;;
    u <- zoom (entry n) ;;
    up <- gets (fun i => current_priority (thread (ik i) u)) ;;
    upd_mutex m (set_owner (Some u) up) ;;;
    if h <? RT_MUTEX_HOLD_MAX then
      upd_mutex m (set_hold (u8 (h + 1))) ;;;
      _ <- zoom (rt_ipc_list_resume (MutexList m)) ;;
      zoom rt_schedule ;;;
      ret RT_EOK
    else ret (- RT_EFULL)
  else if v <? RT_MUTEX_VALUE_MAX then
    upd_mutex m (set_mutex_value (u16 (v + 1))) ;;;
    upd_mutex m (set_owner None 0xff) ;;;
    ret RT_EOK
  else ret (- RT_EFULL).

Definition rt_mutex_release (m : nat) : M ipc Z :=
  zoom in_thread_context ;;;
  t <- zoom self ;;
  x <- gets (fun i => mutexes i m) ;;
  if negb (bool_decide (owner x = Some t)) then
    zoom (upd_thread t (set_error (- RT_ERROR))) ;;; ret (- RT_ERROR)
  else
    upd_mutex m (set_hold (u8 (hold x - 1))) ;;;
    h <- gets (fun i => hold (mutexes i m)) ;;
    if negb (h =? 0) then ret RT_EOK
    else
      p <- gets (fun i => current_priority (thread (ik i) t)) ;;
      when (negb (original_priority x =? p)) (zoom (change_priority t (original_priority x))) ;;;
      let_go m h (mutex_value x).

Section Waiting.
Implicit Types (k : kernel) (t u c : tid) (Q : queue -> list tid) (R : timer_queue -> list tid).

(** ** Waiting *)

(** Where a thread is put among the waiting ones: behind those whose priority is as good. *)
Definition prio_place k t (xs ys : list tid) : Prop :=
  (forall u, u ∈ xs -> current_priority (thread k u) <= current_priority (thread k t)) /\
  match ys with [] => True | u :: _ => current_priority (thread k t) < current_priority (thread k u) end.

Lemma prio_search_spec fuel Q q t k (Post : unit -> kernel -> Prop) : forall xs ys,
  linked (tlists k) Q -> in_no_list Q t -> Q q = xs ++ ys -> (length ys < fuel)%nat ->
  (forall u, u ∈ xs -> current_priority (thread k u) <= current_priority (thread k t)) ->
  (forall xs' ys' l, Q q = xs' ++ ys' -> prio_place k t xs' ys' -> linked l (<[q := xs' ++ t :: ys']> Q) -> Post tt (set_tlists l k)) ->
  wp (prio_search fuel q t (hd (Head q) (Elem <$> ys))) k Post.
Proof.
  induction fuel as [|fuel IH]; intros xs ys L Ht E Hlen Hxs HQ; [lia|]. cbn [prio_search].
  destruct ys as [|u ys]; cbn [hd fmap list_fmap].
  - rewrite bool_decide_true by done. unfold on_tlists. wp_steps. rewrite app_nil_r in E.
    apply (HQ xs []); [by rewrite app_nil_r|by split|]. pose proof (linked_append (tlists k) Q q t L Ht) as L'. by rewrite E in L'.
  - rewrite bool_decide_false by done. cbn [entry]. wp_steps.
    destruct (Z.ltb_spec (current_priority (thread k t)) (current_priority (thread k u))) as [Hlt|Hge].
    + unfold on_tlists. wp_steps. apply (HQ xs (u :: ys)); [done|by split|]. by apply linked_before.
    + wp_steps. rewrite (next_elem _ Q q xs u ys L E). apply (IH (xs ++ [u]) ys); [done|done|by rewrite <- app_assoc|cbn in Hlen; lia| |done].
      intros v [Hv|Hv]%elem_of_app; [by apply Hxs|]. apply list_elem_of_singleton in Hv as ->. done.
Qed.

(** A suspended thread is put into a waiting list. *)
Lemma enqueue_ok Q k t q xs ys l : consistent Q k -> in_no_list Q t -> status (thread k t) = RT_THREAD_SUSPEND -> waiting q = true ->
  Q q = xs ++ ys -> linked l (<[q := xs ++ t :: ys]> Q) -> consistent (<[q := xs ++ t :: ys]> Q) (set_tlists l k).
Proof.
  intros Hc Ht Hst Hq E L. assert (status (thread k t) <> RT_THREAD_INIT) as Hni by (by rewrite Hst).
  apply (consistent_move Q _ k _ t (Some q)); try done.
  - destruct (c_group Q k Hc) as [Hg Hb]. split; [done|]. intros p Hp. rewrite fn_lookup_insert_ne by (intros ->; discriminate Hq). by apply Hb.
  - intros u q' Hu. destruct (decide (q' = q)) as [->|Hq']; [|by rewrite fn_lookup_insert_ne].
    rewrite fn_lookup_insert, E, <- Permutation_middle, elem_of_cons. tauto.
  - intros q'. destruct (decide (q' = q)) as [->|Hq'].
    + rewrite fn_lookup_insert, <- Permutation_middle, elem_of_cons. tauto.
    + rewrite fn_lookup_insert_ne by done. split; [intros Hin; by destruct (Ht q')|congruence].
  - by apply place_waiting.
  - intros _. split; [by apply (c_priority Q k Hc t)|by apply (c_count Q k Hc)].
  - intros H. change (thread (set_tlists l k) t) with (thread k t) in H. by rewrite Hst in H.
  - intros u _. apply (c_running Q k Hc).
Qed.

Lemma queue_length Q k q : consistent Q k -> waiting q = true -> (length (Q q) <= thread_count k)%nat.
Proof.
  intros Hc Hq. rewrite <- (length_seq (thread_count k) 0). apply submseteq_length, NoDup_submseteq; [apply (lk_nodup _ _ (c_links Q k Hc))|].
  intros t Hin. apply elem_of_seq. split; [lia|]. apply (c_count Q k Hc). destruct (c_place Q k Hc t) as (o & Hp & Hok).
  apply Hp in Hin. subst o. inversion Hok; subst; by try discriminate; rewrite H0.
Qed.

Lemma insert_keeps Q Q' c q xs ys : keeps (fun _ => False) Q Q' -> Q' q = xs ++ ys ->
  forall u q', waiting q' = true -> u <> c -> u ∈ (<[q := xs ++ c :: ys]> Q') q' <-> u ∈ Q q'.
Proof.
  intros Hk E u q' Hq Hu. pose proof (Hk u q' Hq) as H. destruct (decide (q' = q)) as [->|Hq'].
  - rewrite fn_lookup_insert, <- Permutation_middle, <- E, elem_of_cons, H. tauto.
  - rewrite fn_lookup_insert_ne by done. rewrite H. tauto.
Qed.

(** The running thread's record may differ from the one in [k] in its status word. *)
Lemma suspend_in_spec Q R c k q flag (Post : Z -> kernel -> Prop) :
  settled Q R c k -> waiting q = true -> flag = RT_IPC_FLAG_FIFO \/ flag = RT_IPC_FLAG_PRIO ->
  (forall xs ys k', without c Q q = xs ++ ys -> (flag = RT_IPC_FLAG_FIFO -> ys = []) -> (flag = RT_IPC_FLAG_PRIO -> prio_place k c xs ys) ->
    consistent (<[q := xs ++ c :: ys]> (without c Q)) k' -> timers_ok R k' ->
    thread k' = <[c := with_status RT_THREAD_SUSPEND (thread k c)]> (thread k) -> rt_current_thread k' = Some c -> same_rest k k' -> Post RT_EOK k') ->
  wp (rt_ipc_list_suspend q c flag) k Post.
Proof.
  intros [[Hc Hcu Hst Hl] Ht Hon Hnest] Hq Hf HQ. unfold rt_ipc_list_suspend. wp_steps.
  apply (suspend_spec Q R k c); try done; [by right|]. intros k1 Hc1 Ht1 Hth1 Hcu1 Hsr1. wp_steps.
  pose proof (without_in c Q) as Hn.
  assert (thread k1 c = with_status RT_THREAD_SUSPEND (thread k c)) as Ec by (by rewrite Hth1, fn_lookup_insert).
  assert (status (thread k1 c) = RT_THREAD_SUSPEND) as Hst1 by (rewrite Ec; by apply status_with).
  assert (forall xs ys l, without c Q q = xs ++ ys -> linked l (<[q := xs ++ c :: ys]> (without c Q)) ->
    (flag = RT_IPC_FLAG_FIFO -> ys = []) -> (flag = RT_IPC_FLAG_PRIO -> prio_place k c xs ys) ->
    wp (ret RT_EOK) (set_tlists l k1) Post) as Hdone.
  { intros xs ys l E L Hf0 Hf1. wp_steps. apply (HQ xs ys); try done; [by apply enqueue_ok| |by rewrite <- Hcu|by destruct Hsr1; split].
    apply (timers_frame R k1); done. }
  destruct Hf as [-> | ->].
  - change (RT_IPC_FLAG_FIFO =? RT_IPC_FLAG_FIFO) with true. cbn iota. unfold on_tlists. wp_steps.
    apply (Hdone (without c Q q) []); [by rewrite app_nil_r| |done|done]. by apply linked_append; [apply Hc1|].
  - change (RT_IPC_FLAG_PRIO =? RT_IPC_FLAG_FIFO) with false. change (RT_IPC_FLAG_PRIO =? RT_IPC_FLAG_PRIO) with true. cbn iota. wp_steps.
    rewrite (next_head _ _ _ (c_links _ k1 Hc1)). apply (prio_search_spec _ (without c Q) q c k1 _ [] (without c Q q)); try done.
    + apply Hc1.
    + apply Nat.lt_succ_r. by apply queue_length.
    + intros u Hu. by apply elem_of_nil in Hu.
    + intros xs ys l E [P1 P2] L. apply (Hdone xs ys); [done|done|done|intros _].
      assert (forall u, u ∈ xs ++ ys -> thread k1 u = thread k u) as Eu.
      { intros u Hu. rewrite <- E in Hu. apply elem_of_without in Hu as [Hne _]. by rewrite Hth1, fn_lookup_insert_ne. }
      rewrite Ec in P1, P2. split; [intros u Hu; rewrite <- (Eu u) by (apply elem_of_app; by left); by apply P1|].
      destruct ys as [|u ys]; [done|]. rewrite <- (Eu u) by (apply elem_of_app; right; left). done.
Qed.

(** What a call that waits leaves: the caller waits in [q], the others wait where they did,
    and the best of the ready threads runs. *)
Record waits (q : queue) (time : Z) idle Q k c Q' R' k' : Prop := {
  w_idle : can_run (thread k' idle);
  w_status : status (thread k' c) = RT_THREAD_SUSPEND;
  w_in : c ∈ Q' q;
  w_others : forall u q', waiting q' = true -> u <> c -> u ∈ Q' q' <-> u ∈ Q q';
  w_moves : forall u, u <> c -> same_or_runs (thread k u) (thread k' u);
  w_like : forall u, like (thread k u) (thread k' u);
  w_timer : 0 < time -> c ∈ R' TimerList /\ due k' c = time
}.

Lemma wait_spec idle Q R c k q flag time (Post : unit -> kernel -> Prop) :
  settled Q R c k -> can_run (thread k idle) -> c <> idle -> waiting q = true ->
  flag = RT_IPC_FLAG_FIFO \/ flag = RT_IPC_FLAG_PRIO -> time < 2 ^ 31 - 1 ->
  (forall Q' R' c' k', settled Q' R' c' k' -> highest c' k' -> waits q time idle Q k c Q' R' k' -> Post tt k') ->
  wp (wait_in q c flag time) k Post.
Proof.
  intros Hs Hi Hne Hq Hf Htime HQ. pose proof Hs as [[Hc Hcu Hst Hl] Ht Hon Hnest]. unfold wait_in. wp_steps.
  apply (suspend_in_spec Q R c k q flag); try done. intros xs ys k1 E _ _ Hc1 Ht1 Hth1 Hcu1 Hsr1. wp_steps.
  assert (on_time R k1) as Hon1 by (apply (on_time_same R k); [done|apply Hsr1..]).
  assert (status (thread k1 c) = RT_THREAD_SUSPEND) as Hst1 by (rewrite Hth1, fn_lookup_insert; by apply status_with).
  assert (keeps (fun _ => False) Q (without c Q)) as Hk1 by (apply (without_keeps Q k c Hc); by rewrite Hst).
  assert (c ∈ (<[q := xs ++ c :: ys]> (without c Q)) q) as Hin by (rewrite fn_lookup_insert; apply elem_of_app; right; left).
  assert (forall R1 k2, consistent (<[q := xs ++ c :: ys]> (without c Q)) k2 -> timers_ok R1 k2 -> on_time R1 k2 -> thread k2 = thread k1 ->
    rt_current_thread k2 = Some c -> rt_scheduler_lock_nest k2 = 0 -> rt_interrupt_nest k2 = 0 ->
    (0 < time -> c ∈ R1 TimerList /\ due k2 c = time) -> wp rt_schedule k2 Post) as Hgo.
  { intros R1 k2 Hc2 Ht2 Hon2 Hth2 Hcu2 Hl2 Hn2 Hd2.
    apply (give_way_spec idle Q R c k (<[q := xs ++ c :: ys]> (without c Q)) R1 k2); try done; [by rewrite Hth2|].
    intros Q' c' k' Hset Hhi Hi' Hst' Hke Hm Hlike Hd'. apply (HQ Q' R1 c' k'); [done|done|]. split; try done.
    - apply (Hke c q Hq). tauto.
    - intros u q' Hq' Hu. rewrite (Hke u q' Hq'). rewrite (insert_keeps Q (without c Q) c q xs ys Hk1 E u q' Hq' Hu). tauto.
    - by rewrite Hd'. }
  destruct (Z.ltb_spec 0 time) as [Hpos|Hneg]; cbn [when].
  - assert (activated (thread_timer k1 c) = false) as Hact by (rewrite (sr_timer _ _ Hsr1); apply (not_active R); [done|by rewrite Hst]).
    apply (wp_bind_assoc (rt_timer_set_time c time) (fun _ => rt_timer_start c) (fun _ => ret tt)). apply (arm_spec (<[q := xs ++ c :: ys]> (without c Q)) R c k1 time); try done; [lia|].
    intros R1 k2 Hc2 Ht2 Hon2 Hth2 Hcu2 Hl2 Hn2 Hin2 Hd2. wp_steps.
    apply (Hgo R1); try done; [by rewrite Hcu2|by rewrite Hl2, (sr_lock _ _ Hsr1)|by rewrite Hn2, (sr_nest _ _ Hsr1)].
  - wp_steps. apply (Hgo R); try done; [by rewrite (sr_lock _ _ Hsr1)|by rewrite (sr_nest _ _ Hsr1)|lia].
Qed.
End Waiting.

(** ** Threads that use the objects *)

(** Besides the objects, a system records for each thread the call it is in, when that waits,
    and how often its takes of a mutex have returned RT_EOK without a release since. *)
Inductive call : Set := OnSem (s : nat) | OnMutex (m : nat).
#[export] Instance call_eq_dec : EqDecision call.
Proof. solve_decision. Defined.

Definition list_of (w : call) : queue := match w with OnSem s => SemList s | OnMutex m => MutexList m end.

Record system : Type := System { objects : ipc; pending : tid -> option call; held : nat -> tid -> Z }.

#[export] #[refine] Instance lens_system_ipc : Lens system ipc :=
  {| view := objects; over := fun i s => System i (pending s) (held s) |}.
Proof. all: by intros; destruct s || reflexivity. Defined.

Definition set_pending (t : tid) (w : option call) (s : system) : system := System (objects s) (<[t := w]> (pending s)) (held s).
Definition add_held (m : nat) (t : tid) (d : Z) (s : system) : system :=
  System (objects s) (pending s) (<[m := <[t := held s m t + d]> (held s m)]> (held s)).

Definition on_kernel {A : Type} (m : M kernel A) : M system A := zoom (S := system) (T := ipc) (zoom m).

(** What the running thread or the clock does next. *)
Inductive action : Type :=
| Mutex_take (m : nat) (time : Z) | Mutex_release (m : nat) | Sem_take (s : nat) (time : Z) | Sem_release (s : nat)
| Return | Yields | Sleeps (n : Z) | Sets_priority (t : tid) (p : Z) | Ticks.

Definition act (a : action) : M system unit :=
  match a with
  | Mutex_take m time =>
      c <- on_kernel self ;;
      r <- zoom (rt_mutex_take m time) ;;
      match r with
      | None => modify (set_pending c (Some (OnMutex m)))
      | Some r => when (r =? RT_EOK) (modify (add_held m c 1))
      end
  | Mutex_release m =>
      c <- on_kernel self ;;
      r <- zoom (rt_mutex_release m) ;;
      when (r =? RT_EOK) (modify (add_held m c (-1)))
  | Sem_take s time =>
      c <- on_kernel self ;;
      r <- zoom (rt_sem_take s time) ;;
      match r with None => modify (set_pending c (Some (OnSem s))) | Some _ => ret tt end
  | Sem_release s => _ <- zoom (rt_sem_release s) ;; ret tt
  | Return =>
      c <- on_kernel self ;;
      r <- on_kernel (woken_result c) ;;
      w <- gets (fun s => pending s c) ;;
      modify (set_pending c None) ;;;
      match w with Some (OnMutex m) => when (r =? RT_EOK) (modify (add_held m c 1)) | _ => ret tt end
  | Yields => _ <- on_kernel rt_thread_yield ;; ret tt
  | Sleeps n => on_kernel (rt_thread_sleep n)
  | Sets_priority t p => on_kernel (change_priority t p)
  | Ticks => on_kernel SysTick_Handler
  end.

(** A thread in a call that waits only returns from it; the idle thread never waits. *)
Definition may (idle : tid) (s : system) (a : action) : Prop :=
  match a with
  | Ticks => True
  | Return => exists c, rt_current_thread (ik (objects s)) = Some c /\ pending s c <> None
  | _ =>
      (exists c, rt_current_thread (ik (objects s)) = Some c /\ pending s c = None) /\
      match a with
      | Mutex_take _ time | Sem_take _ time => rt_current_thread (ik (objects s)) <> Some idle /\ time < 2 ^ 31 - 1
      | Sleeps n => rt_current_thread (ik (objects s)) <> Some idle /\ 0 <= n < 2 ^ 31 - 1
      | Sets_priority _ p => 0 <= p < RT_THREAD_PRIORITY_MAX
      | _ => True
      end
  end.

Inductive leads (idle : tid) (s : system) : system -> Prop :=
| leads_refl : leads idle s s
| leads_step s1 s2 a : leads idle s s1 -> may idle s1 a -> act a s1 = Ok (tt, s2) -> leads idle s s2.

Section Invariant.
Implicit Types (k : kernel) (t u c : tid) (Q : queue -> list tid) (R : timer_queue -> list tid).
Implicit Types (i : ipc) (pend : tid -> option call).

Definition flag_ok (f : Z) : Prop := f = RT_IPC_FLAG_FIFO \/ f = RT_IPC_FLAG_PRIO.

(** A semaphore that can be taken has no waiters. *)
Definition sem_ok Q (s : nat) (x : rt_semaphore) : Prop :=
  flag_ok (sem_flag x) /\ 0 <= sem_value x <= RT_SEM_VALUE_MAX /\ (0 < sem_value x -> Q (SemList s) = []).

(** A mutex is free, without waiters, or has one owner: a thread whose takes have returned as
    often as the mutex is held, or one to which it has been handed while it waited. *)
Definition mutex_ok Q pend (h : tid -> Z) (m : nat) (x : rt_mutex) : Prop :=
  flag_ok (mutex_flag x) /\
  match owner x with
  | None => mutex_value x = 1 /\ hold x = 0 /\ Q (MutexList m) = [] /\ forall t, h t = 0
  | Some o =>
      mutex_value x = 0 /\ 1 <= hold x <= RT_MUTEX_HOLD_MAX /\ 0 <= original_priority x < 32 /\ (o ∉ Q (MutexList m)) /\
      (forall t, t <> o -> h t = 0) /\
      ((h o = hold x /\ pend o <> Some (OnMutex m)) \/ (h o = 0 /\ hold x = 1 /\ pend o = Some (OnMutex m)))
  end.

Record ipc_inv (idle : tid) Q R c i pend (h : nat -> tid -> Z) : Prop := {
  i_settled : settled Q R c (ik i);
  i_idle : can_run (thread (ik i) idle);
  i_sem : forall s, sem_ok Q s (sems i s);
  i_mutex : forall m, mutex_ok Q pend (h m) m (mutexes i m);
  i_wait : forall t q, waiting q = true -> t ∈ Q q -> exists w, pend t = Some w /\ q = list_of w /\ error (thread (ik i) t) = RT_EOK;
  i_pend_mutex : forall t m, pend t = Some (OnMutex m) ->
    t ∈ Q (MutexList m) \/ (can_run (thread (ik i) t) /\ (owner (mutexes i m) = Some t <-> error (thread (ik i) t) = RT_EOK));
  i_pend_sem : forall t s, pend t = Some (OnSem s) -> t ∈ Q (SemList s) \/ can_run (thread (ik i) t)
}.

(** What the kernel may change: the threads of [E] have timed out, or been given a semaphore,
    and of the others those in a call keep their error and their place. *)
Lemma keeps_nil E Q Q' q : keeps E Q Q' -> waiting q = true -> Q q = [] -> Q' q = [].
Proof.
  intros Hk Hq E0. destruct (Q' q) as [|u l] eqn:E'; [done|]. assert (u ∈ Q q) as Hin by (apply (Hk u q Hq); rewrite E'; left).
  rewrite E0 in Hin. by apply elem_of_nil in Hin.
Qed.

Lemma inv_kernel (E : tid -> Prop) `{!forall u, Decision (E u)} idle Q R c i pend h Q' R' c' k' :
  ipc_inv idle Q R c i pend h -> settled Q' R' c' k' -> can_run (thread k' idle) -> keeps E Q Q' ->
  (forall u, E u -> status (thread (ik i) u) = RT_THREAD_SUSPEND /\ can_run (thread k' u) /\
    (error (thread k' u) = - RT_ETIMEOUT \/ exists s, pend u = Some (OnSem s))) ->
  (forall u, ~ E u -> pend u <> None -> same_or_runs (thread (ik i) u) (thread k' u) /\ error (thread k' u) = error (thread (ik i) u)) ->
  ipc_inv idle Q' R' c' (Ipc k' (sems i) (mutexes i)) pend h.
Proof.
  intros [Hset Hi Hsem Hmu Hw Hpm Hps] Hset' Hi' Hk HE HnE. split; try done; cbn [ik sems mutexes].
  - intros s. destruct (Hsem s) as (F & V & W). split_and!; [done|apply V..|]. intros Hv. apply (keeps_nil E Q Q'); [done..|by apply W].
  - intros m. destruct (Hmu m) as [F Hm]. split; [done|]. destruct (owner (mutexes i m)) as [o|].
    + destruct Hm as (H1 & H2 & H3 & H4 & H5). split_and!; try done; try apply H2; try apply H3; try apply H5.
      intros Hin. apply (Hk o (MutexList m) eq_refl) in Hin. tauto.
    + destruct Hm as (H1 & H2 & H3 & H4). split_and!; try done. by apply (keeps_nil E Q Q').
  - intros t q Hq Hin. apply (Hk t q Hq) in Hin as [Hin HnEt]. destruct (Hw t q Hq Hin) as (w & Hp & Hl & He).
    exists w. split_and!; [done|done|]. destruct (HnE t HnEt) as [_ ->]; [by rewrite Hp|done].
  - intros t m Hp. destruct (decide (E t)) as [Et|Et].
    + destruct (HE t Et) as (Hs & Hr & [He|(s & He)]); [|congruence]. right. split; [done|]. rewrite He. destruct (Hpm t m Hp) as [Hin|[Hru _]]; [|by destruct Hru as [Hru|Hru]; rewrite Hs in Hru].
      split; [|done]. intros Ho. destruct (Hmu m) as [_ Hm]. rewrite Ho in Hm. by destruct Hm as (_ & _ & _ & Hn & _).
    + destruct (HnE t Et) as [Hs He]; [by rewrite Hp|]. destruct (Hpm t m Hp) as [Hin|[Hr Ho]]; [left; by apply (Hk t (MutexList m) eq_refl)|].
      right. rewrite He. split; [by apply (same_or_runs_can (thread (ik i) t))|done].
  - intros t s Hp. destruct (decide (E t)) as [Et|Et]; [right; apply HE, Et|].
    destruct (HnE t Et) as [Hs _]; [by rewrite Hp|]. destruct (Hps t s Hp) as [Hin|Hr]; [left; by apply (Hk t (SemList s) eq_refl)|].
    right. by apply (same_or_runs_can (thread (ik i) t)).
Qed.

(** The kernel changes and nobody times out. *)
Lemma inv_kernel_same idle Q R c i pend h Q' R' c' k' :
  ipc_inv idle Q R c i pend h -> settled Q' R' c' k' -> can_run (thread k' idle) -> keeps (fun _ => False) Q Q' ->
  (forall u, pend u <> None -> same_or_runs (thread (ik i) u) (thread k' u) /\ error (thread k' u) = error (thread (ik i) u)) ->
  ipc_inv idle Q' R' c' (Ipc k' (sems i) (mutexes i)) pend h.
Proof. intros Hinv Hs Hi Hk Hu. apply (inv_kernel (fun _ => False) idle Q R c i); try done. intros u _. apply Hu. Qed.

Lemma inv_sem idle Q R c i pend h s x : ipc_inv idle Q R c i pend h -> sem_ok Q s x -> ipc_inv idle Q R c (set_sem s x i) pend h.
Proof.
  intros [Hset Hi Hsem Hmu Hw Hpm Hps] Hx. split; try done. intros s'. cbn [sems set_sem].
  destruct (decide (s' = s)) as [->|Hne]; [by rewrite fn_lookup_insert|by rewrite fn_lookup_insert_ne].
Qed.

Lemma inv_mutex idle Q R c i pend h m x hm : ipc_inv idle Q R c i pend h -> mutex_ok Q pend hm m x ->
  (forall t, pend t = Some (OnMutex m) -> t ∈ Q (MutexList m) \/ (owner x = Some t <-> owner (mutexes i m) = Some t)) ->
  ipc_inv idle Q R c (set_mutex m x i) pend (<[m := hm]> h).
Proof.
  intros [Hset Hi Hsem Hmu Hw Hpm Hps] Hx Ho. split; try done; cbn [mutexes set_mutex ik].
  - intros m'. destruct (decide (m' = m)) as [->|Hne]; [by rewrite !fn_lookup_insert|by rewrite !fn_lookup_insert_ne].
  - intros t m' Hp. destruct (decide (m' = m)) as [->|Hne]; [rewrite fn_lookup_insert|rewrite fn_lookup_insert_ne by done; by apply Hpm].
    destruct (Hpm t m Hp) as [Hin|[Hr Hrt]]; [by left|]. destruct (Ho t Hp) as [Hin|Hio]; [by left|]. right. by rewrite Hio.
Qed.

Lemma list_of_waiting w : waiting (list_of w) = true.
Proof. by destruct w. Qed.

(** The running thread has no place in the lists. *)
Lemma running_nowhere Q R c k q : settled Q R c k -> waiting q = true -> c ∉ Q q.
Proof.
  intros [[Hc _ Hst _] _ _ _] Hq Hin. destruct (c_place Q k Hc c) as (o & Hp & Hok). apply Hp in Hin. subst o.
  rewrite Hst in Hok. inversion Hok; subst; first [discriminate|done].
Qed.

(** The running thread begins to wait. *)
Lemma inv_waits idle Q R c i pend h Q' R' c' k' w time : ipc_inv idle Q R c i pend h -> pend c = None ->
  settled Q' R' c' k' -> waits (list_of w) time idle Q (ik i) c Q' R' k' -> error (thread (ik i) c) = RT_EOK ->
  (forall m, w = OnMutex m -> exists o, owner (mutexes i m) = Some o /\ o <> c) ->
  (forall s, w = OnSem s -> sem_value (sems i s) = 0) ->
  ipc_inv idle Q' R' c' (Ipc k' (sems i) (mutexes i)) (<[c := Some w]> pend) h.
Proof.
  intros [Hset Hi Hsem Hmu Hw Hpm Hps] Hpc Hset' [Wi Ws Win Wo Wm Wl _] He Hmw Hsw.
  pose proof (r_ok _ _ _ (s_runs _ _ _ _ Hset')) as Hc'.
  assert (forall q, waiting q = true -> c ∈ Q' q -> q = list_of w) as Huniq by (intros q _ Hin; by apply (lk_unique _ _ (c_links Q' k' Hc') _ _ c)).
  assert (forall q, waiting q = true -> q <> list_of w -> Q q = [] -> Q' q = []) as Hnil.
  { intros q Hq Hne E0. destruct (Q' q) as [|u l] eqn:E'; [done|]. assert (u ∈ Q' q) as Hin by (rewrite E'; left).
    destruct (decide (u = c)) as [->|Hu]; [by destruct Hne; apply Huniq|]. apply (Wo u q Hq Hu) in Hin. rewrite E0 in Hin. by apply elem_of_nil in Hin. }
  assert (forall u, error (thread k' u) = error (thread (ik i) u)) as Herr by (intros u; by destruct (Wl u) as (v & n & ->)).
  split; try done; cbn [ik sems mutexes].
  - intros s. destruct (Hsem s) as (F & V & W). split_and!; [done|apply V..|]. intros Hv. apply Hnil; [done| |by apply W].
    intros E. destruct w; cbn in E; [|done]. injection E as <-. specialize (Hsw s eq_refl). lia.
  - intros m. destruct (Hmu m) as [F Hm]. split; [done|]. destruct (owner (mutexes i m)) as [o|] eqn:Eo.
    + destruct Hm as (H1 & H2 & H3 & H4 & H5 & H6). split_and!; try done; try apply H2; try apply H3.
      * intros Hin. destruct (decide (o = c)) as [->|Hne]; [|by apply (Wo o (MutexList m) eq_refl Hne) in Hin].
        apply Huniq in Hin; [|done]. destruct w; [done|]. injection Hin as <-. destruct (Hmw m eq_refl) as (o & E & Hne). congruence.
      * destruct (decide (o = c)) as [->|Hne]; [rewrite fn_lookup_insert|by rewrite fn_lookup_insert_ne].
        destruct H6 as [[H6 _]|(_ & _ & H6)]; [|by rewrite Hpc in H6]. left. split; [done|]. intros [= ->].
        destruct (Hmw m eq_refl) as (o & E & Hne). congruence.
    + destruct Hm as (H1 & H2 & H3 & H4). split_and!; try done. apply Hnil; [done| |done].
      intros E. destruct w; cbn in E; [done|]. injection E as <-. destruct (Hmw m eq_refl) as (o & E & _). congruence.
  - intros t q Hq Hin. destruct (decide (t = c)) as [->|Hne].
    + exists w. rewrite fn_lookup_insert, Herr. split_and!; [done|by apply Huniq|done].
    + rewrite fn_lookup_insert_ne, Herr by done. apply Hw; [done|]. by apply (Wo t q Hq Hne).
  - intros t m. destruct (decide (t = c)) as [->|Hne]; [rewrite fn_lookup_insert; intros [= ->]; by left|rewrite fn_lookup_insert_ne by done].
    intros Hp. rewrite Herr. destruct (Hpm t m Hp) as [Hin|[Hr Ho]]; [left; by apply (Wo t (MutexList m) eq_refl Hne)|].
    right. split; [|done]. by apply (same_or_runs_can (thread (ik i) t)); [apply Wm|].
  - intros t s. destruct (decide (t = c)) as [->|Hne]; [rewrite fn_lookup_insert; intros [= ->]; by left|rewrite fn_lookup_insert_ne by done].
    intros Hp. destruct (Hps t s Hp) as [Hin|Hr]; [left; by apply (Wo t (SemList s) eq_refl Hne)|].
    right. by apply (same_or_runs_can (thread (ik i) t)); [apply Wm|].
Qed.

Lemma inv_ext idle Q R c i i' pend h : ipc_inv idle Q R c i pend h -> ik i' = ik i -> (forall s, sems i' s = sems i s) ->
  (forall m, mutexes i' m = mutexes i m) -> ipc_inv idle Q R c i' pend h.
Proof.
  intros [Hset Hi Hsem Hmu Hw Hpm Hps] Ek Es Em. split; rewrite ?Ek; try done.
  - intros s. by rewrite Es.
  - intros m. by rewrite Em.
  - intros t m. rewrite Em. apply Hpm.
Qed.

(** An object is updated several times. *)
Lemma upd_twice {A : Type} (f : nat -> A) m x y n : (<[m := y]> (<[m := x]> f)) n = (<[m := y]> f) n.
Proof. destruct (decide (n = m)) as [->|]; by rewrite ?fn_lookup_insert, ?fn_lookup_insert_ne. Qed.

(** ** The operations *)

Lemma in_thread_context_spec Q R c k (Post : unit -> kernel -> Prop) : settled Q R c k -> Post tt k -> wp in_thread_context k Post.
Proof.
  intros [[Hc Hcu Hst Hl] Ht Hon Hnest] HQ. unfold in_thread_context, not_in_interrupt, rt_thread_self, rt_assert. wp_steps.
  rewrite Hcu, bool_decide_true by done. wp_steps. by rewrite Hnest.
Qed.
Lemma self_spec Q R c k (Post : tid -> kernel -> Prop) : settled Q R c k -> Post c k -> wp self k Post.
Proof. intros Hs HQ. unfold self, rt_thread_self. wp_steps. rewrite (r_current _ _ _ (s_runs _ _ _ _ Hs)). by wp_steps. Qed.

(** The running thread, which is in no call, sets its error. *)
Lemma inv_error idle Q R c i pend h v : ipc_inv idle Q R c i pend h -> pend c = None ->
  ipc_inv idle Q R c (Ipc (set_thread c (set_error v (thread (ik i) c)) (ik i)) (sems i) (mutexes i)) pend h.
Proof.
  intros Hinv Hp. assert (forall u, thread (set_thread c (set_error v (thread (ik i) c)) (ik i)) u = if decide (u = c) then set_error v (thread (ik i) c) else thread (ik i) u) as Eu.
  { intros u. cbn [thread set_thread]. case_decide as Hu; [subst; by rewrite fn_lookup_insert|by rewrite fn_lookup_insert_ne]. }
  apply (inv_kernel_same idle Q R c i); [done|by apply settled_same; [apply Hinv|..]| |apply keeps_refl|].
  - unfold can_run. rewrite Eu. pose proof (i_idle _ _ _ _ _ _ _ Hinv) as Hi. case_decide as Hu; [by subst|done].
  - intros u Hu. rewrite Eu. rewrite decide_False by (by intros ->). split; [by left|done].
Qed.

(** What the system records of a take. *)
Definition taken (r : option Z) (m : nat) c (h : nat -> tid -> Z) : nat -> tid -> Z :=
  match r with Some v => if v =? RT_EOK then <[m := <[c := h m c + 1]> (h m)]> h else h | None => h end.
Definition entered (r : option Z) (w : call) c pend : tid -> option call :=
  match r with Some _ => pend | None => <[c := Some w]> pend end.

Lemma priority_range Q k t : consistent Q k -> status (thread k t) <> RT_THREAD_INIT -> 0 <= current_priority (thread k t) < 32.
Proof. intros Hc Hni. by apply (c_priority Q k Hc t). Qed.

(** A mutex that is free, and one that the thread owns. *)
Lemma mutex_take_free_ok Q R c i pend h m idle : ipc_inv idle Q R c i pend h -> pend c = None -> owner (mutexes i m) = None ->
  forall p, 0 <= p < 32 -> ipc_inv idle Q R c (set_mutex m (Rt_mutex 0 p 1 (Some c) (mutex_flag (mutexes i m))) i) pend (<[m := <[c := h m c + 1]> (h m)]> h).
Proof.
  intros Hinv Hp Ho p Hpr. destruct (i_mutex _ _ _ _ _ _ _ Hinv m) as [F Hm]. rewrite Ho in Hm. destruct Hm as (Hv & Hh & Hq & Hz).
  apply inv_mutex; [done| |].
  - split; [done|]. cbn [owner mutex_value hold original_priority]. split_and!; try done; [apply Hpr|apply Hpr|by rewrite Hq; apply not_elem_of_nil|intros t Ht; by rewrite fn_lookup_insert_ne|].
    left. rewrite fn_lookup_insert, Hz. split; [done|by rewrite Hp].
  - intros t Hpt. right. cbn [owner]. rewrite Ho. split; [intros [= <-]; congruence|done].
Qed.
Lemma mutex_take_again_ok Q R c i pend h m idle : ipc_inv idle Q R c i pend h -> pend c = None -> owner (mutexes i m) = Some c ->
  hold (mutexes i m) < RT_MUTEX_HOLD_MAX ->
  ipc_inv idle Q R c (set_mutex m (set_hold (u8 (hold (mutexes i m) + 1)) (mutexes i m)) i) pend (<[m := <[c := h m c + 1]> (h m)]> h).
Proof.
  intros Hinv Hp Ho Hlt. destruct (i_mutex _ _ _ _ _ _ _ Hinv m) as [F Hm]. rewrite Ho in Hm. destruct Hm as (Hv & Hh & Hpr & Hq & Hz & Hc).
  destruct Hc as [[Hc Hcp]|(_ & _ & Hc)]; [|by rewrite Hp in Hc]. unfold RT_MUTEX_HOLD_MAX in Hlt.
  apply inv_mutex; [done| |intros t _; by right]. split; [done|]. cbn [set_hold owner mutex_value hold original_priority]. rewrite Ho.
  rewrite wrap_small by lia. unfold RT_MUTEX_HOLD_MAX. split_and!; try done; [lia|lia|apply Hpr|apply Hpr|intros t Ht; by rewrite fn_lookup_insert_ne; [apply Hz|]|].
  left. rewrite fn_lookup_insert, Hc. by split.
Qed.

(** The priority that the owner of a mutex gets from a thread that begins to wait for it;
    the best of the ready threads runs next. *)
Definition lends (m : nat) c i i' : Prop :=
  exists o, owner (mutexes i m) = Some o /\ o <> c /\ mutexes i' m = mutexes i m /\
    current_priority (thread (ik i') o) = Z.min (current_priority (thread (ik i) o)) (current_priority (thread (ik i) c)) /\
    exists d, rt_current_thread (ik i') = Some d /\ highest d (ik i').

Lemma mutex_take_spec idle Q R c i pend h m time (Post : option Z -> ipc -> Prop) :
  ipc_inv idle Q R c i pend h -> pend c = None -> c <> idle -> time < 2 ^ 31 - 1 ->
  (forall r i' Q' R' c', ipc_inv idle Q' R' c' i' (entered r (OnMutex m) c pend) (taken r m c h) ->
    match r with None => lends m c i i' | Some _ => forall o, owner (mutexes i m) = Some o -> o = c \/ time = 0 end -> Post r i') ->
  wp (rt_mutex_take m time) i Post.
Proof.
  intros Hinv Hp Hne Htime HQ. pose proof (i_settled _ _ _ _ _ _ _ Hinv) as Hset. unfold rt_mutex_take. wp_steps. apply wp_zoom.
  apply (in_thread_context_spec Q R c); [done|]. wp_steps. apply wp_zoom, (self_spec Q R c); [done|]. wp_steps. apply wp_zoom. unfold upd_thread. wp_steps.
  cbn [view over lens_ipc_kernel ik sems mutexes]. pose proof (inv_error idle Q R c i pend h RT_EOK Hinv Hp) as Hinv1.
  set (k1 := set_thread c (set_error RT_EOK (thread (ik i) c)) (ik i)) in *. set (i1 := Ipc k1 (sems i) (mutexes i)) in *.
  pose proof (i_settled _ _ _ _ _ _ _ Hinv1 : settled Q R c k1) as Hset1.
  assert (0 <= current_priority (thread k1 c) < 32) as Hpr.
  { destruct Hset1 as [[Hc1 _ Hst1 _] _ _ _]. apply (priority_range Q k1 c Hc1). by rewrite Hst1. }
  assert (error (thread k1 c) = RT_EOK) as Herr by (unfold k1; cbn [thread set_thread]; by rewrite fn_lookup_insert).
  change (mutexes i m) with (mutexes i1 m). set (x := mutexes i1 m). destruct (i_mutex _ _ _ _ _ _ _ Hinv1 m) as [F Hm]. fold x in F, Hm.
  destruct (decide (owner x = Some c)) as [Ho|Ho]; [rewrite bool_decide_true by done|rewrite bool_decide_false by done].
  - assert (forall o, owner (mutexes i m) = Some o -> o = c \/ time = 0) as Hsame by (intros o E; left; change (owner x = Some o) in E; congruence).
    destruct (Z.ltb_spec (hold x) RT_MUTEX_HOLD_MAX) as [Hlt|]; unfold upd_mutex; wp_steps; [|by apply (HQ _ i1 Q R c)].
    apply (HQ _ _ Q R c); [|done]. by apply mutex_take_again_ok.
  - destruct (owner x) as [o|] eqn:Eo.
    + destruct Hm as (Hv & _ & _ & Hno & _). rewrite Hv. change (0 <? 0) with false. cbn iota.
      destruct (Z.eqb_spec time 0) as [->|Ht0].
      * wp_steps. apply wp_zoom. wp_steps. cbn [view over lens_ipc_kernel ik sems mutexes]. apply (HQ _ _ Q R c); [by apply (inv_error idle Q R c i1)|by right].
      * wp_steps. assert (forall Q2 k2, settled Q2 R c k2 -> keeps (fun _ => False) Q Q2 -> (forall u, status (thread k2 u) = status (thread k1 u)) ->
          (forall u, error (thread k2 u) = error (thread k1 u)) ->
          current_priority (thread k2 o) = Z.min (current_priority (thread k1 o)) (current_priority (thread k1 c)) ->
          wp (zoom (wait_in (MutexList m) c (mutex_flag x) time) ;;; ret None) (Ipc k2 (sems i) (mutexes i)) Post) as Hwait.
        { intros Q2 k2 Hset2 Hke2 Hst2 Herr2 Hpr2. wp_steps. apply wp_zoom. cbn [view over lens_ipc_kernel ik sems mutexes].
          assert (ipc_inv idle Q2 R c (Ipc k2 (sems i) (mutexes i)) pend h) as Hinv2.
          { apply (inv_kernel_same idle Q R c i1); try done; [|intros u _; split; [by left|done]].
            unfold can_run. rewrite Hst2. apply (i_idle _ _ _ _ _ _ _ Hinv1). }
          apply (wait_spec idle Q2 R c); try done; [apply (i_idle _ _ _ _ _ _ _ Hinv2)|].
          intros Q' R' c' k' Hset' Hhi Hw. wp_steps. cbn [view over lens_ipc_kernel ik sems mutexes]. apply (HQ None _ Q' R' c').
          - apply (inv_waits idle Q2 R c (Ipc k2 (sems i) (mutexes i)) pend h Q' R' c' k' (OnMutex m) time); try done; [by rewrite Herr2|].
            intros m' [= <-]. exists o. split; [exact Eo|congruence].
          - exists o. split_and!; [exact Eo|congruence|done| |by exists c'; split; [apply (r_current _ _ _ (s_runs _ _ _ _ Hset'))|]]. cbn [ik].
            destruct (w_like _ _ _ _ _ _ _ _ _ Hw o) as (v & n & ->). cbn [current_priority set_stat set_remaining]. rewrite Hpr2.
            unfold k1. cbn [thread set_thread]. rewrite fn_lookup_insert, fn_lookup_insert_ne by congruence. done. }
        change (ik i1) with k1. destruct (Z.ltb_spec (current_priority (thread k1 c)) (current_priority (thread k1 o))); cbn [when].
        -- apply wp_zoom. cbn [view over lens_ipc_kernel ik sems mutexes].
           apply (change_priority_spec Q R c k1); [done|done|]. intros Q2 k2 Hset2 Hst2 Hp2 Hke2 Hth2 Her2. cbn [view over lens_ipc_kernel ik sems mutexes].
           apply (Hwait Q2); try done; [|by rewrite Z.min_r by lia]. intros u. destruct (decide (u = o)) as [->|Hu]; [done|by rewrite Hth2].
        -- apply wp_ret. apply (Hwait Q); try done; [apply keeps_refl|by rewrite Z.min_l by lia].
    + destruct Hm as (Hv & Hh & _). rewrite Hv, Hh. change (0 <? 1) with true. change (0 <? RT_MUTEX_HOLD_MAX) with true. cbn iota. unfold upd_mutex. wp_steps.
      cbn [ik set_mutex mutexes]. rewrite !fn_lookup_insert. unfold x. cbn [set_mutex_value set_owner set_hold original_priority hold mutex_value owner mutex_flag].
      change (u16 (1 - 1)) with 0. change (u8 (0 + 1)) with 1.
      pose proof (mutex_take_free_ok Q R c i1 pend h m idle Hinv1 Hp Eo _ Hpr) as Hfree. apply (HQ (Some RT_EOK) _ Q R c); [|intros o E; change (owner x = Some o) in E; congruence].
      apply (inv_ext _ _ _ _ _ _ _ _ Hfree); [done|done|]. intros m'. cbn [mutexes set_mutex]. by rewrite !upd_twice.
Qed.

(** A release that hands the mutex to the first of those that wait for it. *)
Lemma hand_over_ok idle Q R c i pend h m u l p Q' R' c' k' : ipc_inv idle Q R c i pend h -> pend c = None -> owner (mutexes i m) = Some c ->
  Q (MutexList m) = u :: l -> 0 <= p < 32 -> settled Q' R' c' k' -> can_run (thread k' idle) -> keeps (fun t => t = u) Q Q' ->
  can_run (thread k' u) -> error (thread k' u) = error (thread (ik i) u) ->
  (forall t, t <> u -> pend t <> None -> same_or_runs (thread (ik i) t) (thread k' t) /\ error (thread k' t) = error (thread (ik i) t)) ->
  ipc_inv idle Q' R' c' (Ipc k' (sems i) (<[m := Rt_mutex 0 p 1 (Some u) (mutex_flag (mutexes i m))]> (mutexes i))) pend
    (<[m := <[c := 0]> (h m)]> h).
Proof.
  intros [Hset Hi Hsem Hmu Hw Hpm Hps] Hpc Ho E Hpr Hset' Hi' Hk Hru Heu Hot.
  assert (u ∈ Q (MutexList m)) as Hin by (rewrite E; left). destruct (Hw u (MutexList m) eq_refl Hin) as (w & Hpu & Hl & He).
  destruct w as [|m0]; [discriminate|]. injection Hl as <-. assert (u <> c) as Huc by congruence.
  assert (forall q, waiting q = true -> u ∉ Q' q) as Hgone by (intros q Hq Hq'; apply (Hk u q Hq) in Hq' as [_ []]; done).
  split; try done; cbn [ik sems mutexes].
  - intros s. destruct (Hsem s) as (F & V & W). split_and!; [done|apply V..|]. intros Hv. apply (keeps_nil (fun t => t = u) Q Q'); [done..|by apply W].
  - intros m'. destruct (Hmu m') as [F Hm]. destruct (decide (m' = m)) as [->|Hne].
    + rewrite !fn_lookup_insert. split; [done|]. cbn [owner mutex_value hold original_priority]. rewrite Ho in Hm. destruct Hm as (_ & _ & _ & _ & Hz & _).
      unfold RT_MUTEX_HOLD_MAX. split_and!; try lia; [by apply Hgone| |].
      * intros t Ht. destruct (decide (t = c)) as [->|Htc]; [by rewrite fn_lookup_insert|rewrite fn_lookup_insert_ne by done; by apply Hz].
      * right. rewrite fn_lookup_insert_ne by done. by rewrite Hz.
    + rewrite !fn_lookup_insert_ne by done. split; [done|]. destruct (owner (mutexes i m')) as [o|].
      * destruct Hm as (H1 & H2 & H3 & H4 & H5). split_and!; try done; try apply H2; try apply H3; try apply H5.
        intros Hin'. apply (Hk o (MutexList m') eq_refl) in Hin'. tauto.
      * destruct Hm as (H1 & H2 & H3 & H4). split_and!; try done. by apply (keeps_nil (fun t => t = u) Q Q').
  - intros t q Hq Hin'. apply (Hk t q Hq) in Hin' as [Hin' Htu]. destruct (Hw t q Hq Hin') as (w & Hp & Hl & Het).
    exists w. split_and!; [done|done|]. destruct (Hot t Htu) as [_ ->]; [by rewrite Hp|done].
  - intros t m' Hp. destruct (decide (t = u)) as [->|Htu].
    + assert (m' = m) as -> by congruence. rewrite fn_lookup_insert. right. split; [done|]. cbn [owner]. by rewrite Heu.
    + destruct (Hot t Htu) as [Hs Het]; [by rewrite Hp|]. rewrite Het. destruct (Hpm t m' Hp) as [Hin'|[Hr Hro]]; [left; by apply (Hk t (MutexList m') eq_refl)|].
      right. split; [by apply (same_or_runs_can (thread (ik i) t))|]. destruct (decide (m' = m)) as [->|Hne]; [|by rewrite fn_lookup_insert_ne].
      rewrite fn_lookup_insert. cbn [owner]. rewrite <- Hro, Ho. split; [intros [= <-]; done|intros [= <-]; congruence].
  - intros t s Hp. destruct (decide (t = u)) as [->|Htu]; [by right|].
    destruct (Hot t Htu) as [Hs _]; [by rewrite Hp|]. destruct (Hps t s Hp) as [Hin'|Hr]; [left; by apply (Hk t (SemList s) eq_refl)|].
    right. by apply (same_or_runs_can (thread (ik i) t)).
Qed.

(** The first of a waiting list is woken, and the best thread runs. *)
Lemma resume_first_spec idle Q R c k q u l (Post : unit -> kernel -> Prop) : settled Q R c k -> can_run (thread k idle) -> waiting q = true -> Q q = u :: l ->
  (forall Q' R' c' k', settled Q' R' c' k' -> highest c' k' -> can_run (thread k' idle) -> keeps (fun t => t = u) Q Q' -> can_run (thread k' u) ->
    (forall t, error (thread k' t) = error (thread k t)) -> (forall t, t <> u -> same_or_runs (thread k t) (thread k' t)) -> Post tt k') ->
  wp (rt_ipc_list_resume q) k (fun _ k1 => wp rt_schedule k1 Post).
Proof.
  intros Hset Hi Hq E HQ. pose proof Hset as [[Hc Hcu Hst Hl] _ _ _]. unfold rt_ipc_list_resume. wp_steps.
  rewrite (next_head _ _ _ (c_links Q k Hc)), E. cbn [hd fmap list_fmap entry]. wp_steps.
  assert (u ∈ Q q) as Hin by (rewrite E; left).
  assert (status (thread k u) = RT_THREAD_SUSPEND) as Hsu.
  { destruct (c_place Q k Hc u) as (o & Hp & Hok). apply Hp in Hin. subst o. inversion Hok; subst; first [done|discriminate]. }
  apply (resume_settled Q R c k u); [done|by rewrite Hsu|]. intros k1 Hset1 _ Hu Ho. wp_steps.
  assert (forall t, same_or_runs (thread k t) (thread k1 t) \/ t = u) as Hm1 by (intros t; destruct (decide (t = u)) as [->|Ht]; [by right|left; left; by rewrite Ho]).
  assert (can_run (thread k1 u)) as Hr1 by (left; rewrite Hu; by apply status_with).
  apply (settled_schedule _ _ c k1 _ Hset1). intros Q' c' k' _ Hset' Hhi Hsch.
  pose proof (s_runs _ _ _ _ Hset1) as [Hc1 Hcu1 _ _].
  pose proof (fun t => scheduled_moves _ k1 c c' Q' k' t Hc1 Hcu1 Hsch) as Hm.
  apply (HQ Q' (without u R) c' k'); try done.
  - destruct (Hm1 idle) as [Hs | ->]; [|by apply (same_or_runs_can (thread k1 u))].
    apply (same_or_runs_can (thread k1 idle)); [done|]. by apply (same_or_runs_can (thread k idle)).
  - apply (keeps_trans _ Q _ Q' (woken_keeps Q (Some c) u (current_priority (thread k u)))). by apply (scheduled_keeps _ k1 c c' Q' k').
  - by apply (same_or_runs_can (thread k1 u)).
  - intros t. destruct (sch_thread _ _ _ _ _ _ Hsch t) as [v ->]. cbn [error set_stat].
    destruct (decide (t = u)) as [->|Ht]; [by rewrite Hu|by rewrite Ho].
  - intros t Ht. destruct (Hm1 t) as [Hs|]; [|done]. by apply (same_or_runs_trans _ (thread k1 t)).
Qed.

(** What the system records of a release. *)
Definition released (r : Z) (m : nat) c (h : nat -> tid -> Z) : nat -> tid -> Z :=
  if r =? RT_EOK then <[m := <[c := h m c + (-1)]> (h m)]> h else h.

Lemma inv_held idle Q R c i pend h h' : ipc_inv idle Q R c i pend h -> (forall m t, h' m t = h m t) -> ipc_inv idle Q R c i pend h'.
Proof.
  intros [Hset Hi Hsem Hmu Hw Hpm Hps] Hh. split; try done. intros m. destruct (Hmu m) as [F Hm]. split; [done|].
  destruct (owner (mutexes i m)) as [o|].
  - destruct Hm as (H1 & H2 & H3 & H4 & H5 & H6). split_and!; try done; try apply H2; try apply H3; [intros t Ht; rewrite Hh; by apply H5|by rewrite Hh].
  - destruct Hm as (H1 & H2 & H3 & H4). split_and!; try done. intros t. by rewrite Hh.
Qed.

(** The owner's record when it does not hold the mutex any more. *)
Lemma mutex_freed_ok idle Q R c i pend h m : ipc_inv idle Q R c i pend h -> pend c = None -> owner (mutexes i m) = Some c ->
  Q (MutexList m) = [] ->
  ipc_inv idle Q R c (set_mutex m (Rt_mutex 1 0xff 0 None (mutex_flag (mutexes i m))) i) pend (<[m := <[c := 0]> (h m)]> h).
Proof.
  intros Hinv Hp Ho E. destruct (i_mutex _ _ _ _ _ _ _ Hinv m) as [F Hm]. rewrite Ho in Hm. destruct Hm as (Hv & Hh & Hpr & Hq & Hz & _).
  apply inv_mutex; [done| |].
  - split; [done|]. cbn [owner mutex_value hold]. split_and!; try done. intros t.
    destruct (decide (t = c)) as [->|Ht]; [by rewrite fn_lookup_insert|rewrite fn_lookup_insert_ne by done; by apply Hz].
  - intros t Hpt. right. cbn [owner]. rewrite Ho. split; [done|intros [= <-]; congruence].
Qed.
Lemma mutex_less_ok idle Q R c i pend h m : ipc_inv idle Q R c i pend h -> pend c = None -> owner (mutexes i m) = Some c ->
  hold (mutexes i m) <> 1 ->
  ipc_inv idle Q R c (set_mutex m (set_hold (hold (mutexes i m) - 1) (mutexes i m)) i) pend (<[m := <[c := h m c + (-1)]> (h m)]> h).
Proof.
  intros Hinv Hp Ho Hne. destruct (i_mutex _ _ _ _ _ _ _ Hinv m) as [F Hm]. rewrite Ho in Hm. destruct Hm as (Hv & Hh & Hpr & Hq & Hz & Hc).
  destruct Hc as [[Hc Hcp]|(_ & _ & Hc)]; [|by rewrite Hp in Hc].
  apply inv_mutex; [done| |intros t _; by right]. split; [done|]. cbn [set_hold owner mutex_value hold original_priority]. rewrite Ho.
  split_and!; try done; try lia; [intros t Ht; by rewrite fn_lookup_insert_ne; [apply Hz|]|]. left. rewrite fn_lookup_insert, Hc. split; [lia|done].
Qed.

Lemma let_go_spec idle Q R c i i0 pend h m (Post : Z -> ipc -> Prop) :
  ipc_inv idle Q R c i pend h -> pend c = None -> owner (mutexes i m) = Some c -> hold (mutexes i m) = 1 ->
  ik i0 = ik i -> (forall s, sems i0 s = sems i s) -> (forall n, mutexes i0 n = (<[m := set_hold 0 (mutexes i m)]> (mutexes i)) n) ->
  (forall i' Q' R' c', ipc_inv idle Q' R' c' i' pend (<[m := <[c := h m c + (-1)]> (h m)]> h) -> Post RT_EOK i') ->
  wp (let_go m 0 0) i0 Post.
Proof.
  intros Hinv Hp Ho H1 Ek Es Em HQ. pose proof (i_settled _ _ _ _ _ _ _ Hinv) as Hset. pose proof Hset as [[Hc Hcu Hst Hl] _ _ _].
  pose proof (i_mutex _ _ _ _ _ _ _ Hinv m) as [F Hm]. rewrite Ho in Hm. destruct Hm as (Hv & _ & _ & _ & _ & Hm).
  assert (h m c = 1) as Hh by (destruct Hm as [[-> _]|(_ & _ & Hm)]; [done|by rewrite Hp in Hm]).
  assert (forall n t, (<[m := <[c := h m c + (-1)]> (h m)]> h) n t = (<[m := <[c := 0]> (h m)]> h) n t) as Hheld by (intros; by rewrite Hh).
  unfold let_go. wp_steps. rewrite Ek, (isempty_spec _ _ _ (c_links Q (ik i) Hc)). destruct (Q (MutexList m)) as [|u l] eqn:E.
  - rewrite bool_decide_true by done. cbn [negb]. change (0 <? RT_MUTEX_VALUE_MAX) with true. cbn iota. unfold upd_mutex. wp_steps.
    apply (HQ _ Q R c). apply (inv_held _ _ _ _ _ _ (<[m := <[c := 0]> (h m)]> h)); [|done].
    apply (inv_ext _ _ _ _ _ _ _ _ (mutex_freed_ok idle Q R c i pend h m Hinv Hp Ho E)); [done|done|].
    intros n. cbn [mutexes set_mutex]. rewrite upd_twice. destruct (decide (n = m)) as [->|Hn]; [|by rewrite !fn_lookup_insert_ne, Em, fn_lookup_insert_ne].
    by rewrite !fn_lookup_insert, Em, fn_lookup_insert.
  - rewrite bool_decide_false by done. cbn [negb]. wp_steps. rewrite Ek, (next_head _ _ _ (c_links Q (ik i) Hc)), E. cbn [hd fmap list_fmap].
    apply wp_zoom. cbn [entry]. wp_steps. change (0 <? RT_MUTEX_HOLD_MAX) with true. cbn iota. unfold upd_mutex. wp_steps. apply wp_zoom.
    cbn [view over lens_ipc_kernel ik sems mutexes set_mutex]. rewrite Ek. assert (u ∈ Q (MutexList m)) as Hin by (rewrite E; left).
    assert (0 <= current_priority (thread (ik i) u) < 32) as Hpr.
    { apply (priority_range Q (ik i) u Hc). destruct (c_place Q (ik i) Hc u) as (o & Hpl & Hok). apply Hpl in Hin. subst o. inversion Hok; subst; first [by rewrite H|discriminate|by intros H'; rewrite H' in *]. }
    eapply wp_mono; [apply (resume_first_spec idle Q R c (ik i) (MutexList m) u l (fun _ k' => exists Q' R' c', settled Q' R' c' k' /\ can_run (thread k' idle) /\
      keeps (fun t => t = u) Q Q' /\ can_run (thread k' u) /\ (forall t, error (thread k' t) = error (thread (ik i) t)) /\
      (forall t, t <> u -> same_or_runs (thread (ik i) t) (thread k' t)))); try done; [apply Hinv|]|].
    { intros Q' R' c' k' Hset' _ Hi' Hke Hru Her Hmv. by exists Q', R', c'. }
    cbn beta. intros _ k1 Hw. wp_steps. apply wp_zoom. cbn [view over lens_ipc_kernel ik sems mutexes].
    eapply wp_mono; [exact Hw|]. cbn beta. intros _ k' (Q' & R' & c' & Hset' & Hi' & Hke & Hru & Her & Hmv). wp_steps.
    cbn [view over lens_ipc_kernel ik sems mutexes]. apply (HQ _ Q' R' c'). apply (inv_held _ _ _ _ _ _ (<[m := <[c := 0]> (h m)]> h)); [|done].
    eapply inv_ext; [apply (hand_over_ok idle Q R c i pend h m u l _ Q' R' c' k' Hinv Hp Ho E Hpr); try done; intros t Ht _; split; [by apply Hmv|done]|done|done|].
    intros n. cbn [mutexes]. rewrite upd_twice. destruct (decide (n = m)) as [->|Hn]; [|by rewrite !fn_lookup_insert_ne, Em, fn_lookup_insert_ne].
    rewrite !fn_lookup_insert, Em, fn_lookup_insert. unfold set_hold, set_owner. cbn [mutex_value original_priority hold owner mutex_flag].
    by rewrite Hv.
Qed.

Lemma mutex_release_spec idle Q R c i pend h m (Post : Z -> ipc -> Prop) :
  ipc_inv idle Q R c i pend h -> pend c = None ->
  (forall r i' Q' R' c', ipc_inv idle Q' R' c' i' pend (released r m c h) -> Post r i') ->
  wp (rt_mutex_release m) i Post.
Proof.
  intros Hinv Hp HQ. pose proof (i_settled _ _ _ _ _ _ _ Hinv) as Hset. pose proof Hset as [[Hc Hcu Hst Hl] _ _ _].
  unfold rt_mutex_release. wp_steps. apply wp_zoom. apply (in_thread_context_spec Q R c); [done|]. wp_steps. apply wp_zoom, (self_spec Q R c); [done|]. wp_steps.
  cbn [view over lens_ipc_kernel ik sems mutexes]. assert (Ipc (ik i) (sems i) (mutexes i) = i) as -> by (by destruct i).
  destruct (i_mutex _ _ _ _ _ _ _ Hinv m) as [F Hm].
  destruct (decide (owner (mutexes i m) = Some c)) as [Ho|Ho]; [rewrite bool_decide_true by done|rewrite bool_decide_false by done]; cbn [negb].
  2:{ wp_steps. apply wp_zoom. unfold upd_thread. wp_steps. cbn [view over lens_ipc_kernel ik sems mutexes]. apply (HQ _ _ Q R c). by apply inv_error. }
  rewrite Ho in Hm. destruct Hm as (Hv & Hh & Hpr & _). unfold upd_mutex at 1. wp_steps. cbn [mutexes set_mutex]. rewrite fn_lookup_insert.
  cbn [hold set_hold]. unfold RT_MUTEX_HOLD_MAX in Hh. rewrite wrap_small by lia.
  destruct (Z.eqb_spec (hold (mutexes i m) - 1) 0) as [E|E]; cbn [negb].
  2:{ wp_steps. apply (HQ _ _ Q R c). by apply mutex_less_ok; [..|lia]. }
  rewrite E. wp_steps. cbn [ik set_mutex mutexes].
  assert (forall Q2 k2, settled Q2 R c k2 -> keeps (fun _ => False) Q Q2 -> (forall u, status (thread k2 u) = status (thread (ik i) u)) ->
    (forall u, error (thread k2 u) = error (thread (ik i) u)) ->
    wp (let_go m 0 (mutex_value (mutexes i m))) (Ipc k2 (sems i) (<[m := set_hold 0 (mutexes i m)]> (mutexes i))) Post) as Hgo.
  { intros Q2 k2 Hset2 Hke2 Hst2 Herr2. rewrite Hv.
    assert (ipc_inv idle Q2 R c (Ipc k2 (sems i) (mutexes i)) pend h) as Hinv2.
    { apply (inv_kernel_same idle Q R c i); try done; [|intros u _; split; [by left|done]].
      unfold can_run. rewrite Hst2. apply (i_idle _ _ _ _ _ _ _ Hinv). }
    apply (let_go_spec idle Q2 R c (Ipc k2 (sems i) (mutexes i)) _ pend h m); try done; [cbn [mutexes]; lia|]. intros i' Q' R' c' Hi'. by apply (HQ _ i' Q' R' c'). }
  destruct (Z.eqb_spec (original_priority (mutexes i m)) (current_priority (thread (ik i) c))) as [Ep|Ep]; cbn [negb when].
  - apply wp_ret. apply (Hgo Q); try done. apply keeps_refl.
  - apply wp_zoom. cbn [view over lens_ipc_kernel ik sems mutexes set_mutex].
    apply (change_priority_spec Q R c (ik i)); [done|done|]. intros Q2 k2 Hset2 Hst2 _ Hke2 Hth2 Her2. cbn [view over lens_ipc_kernel ik sems mutexes].
    apply (Hgo Q2); try done. intros u. destruct (decide (u = c)) as [->|Hu]; [done|by rewrite Hth2].
Qed.

(** A mutex is released by its owner only: for any other thread the call fails and the
    mutexes stay as they are. (The MQTT worker releases [pub_mutex], which the publishing
    thread took, in this way.) *)
Lemma foreign_release idle Q R c i pend h m : ipc_inv idle Q R c i pend h -> owner (mutexes i m) <> Some c ->
  wp (rt_mutex_release m) i (fun r i' => r = - RT_ERROR /\ mutexes i' = mutexes i).
Proof.
  intros Hi Ho. pose proof (i_settled _ _ _ _ _ _ _ Hi) as Hset. unfold rt_mutex_release. wp_steps.
  apply wp_zoom. apply (in_thread_context_spec Q R c); [done|]. wp_steps. apply wp_zoom, (self_spec Q R c); [done|]. wp_steps.
  cbn [view over lens_ipc_kernel ik sems mutexes]. rewrite bool_decide_false by done. cbn [negb].
  wp_steps. apply wp_zoom. unfold upd_thread. by wp_steps.
Qed.

Lemma sem_take_spec idle Q R c i pend h s time (Post : option Z -> ipc -> Prop) :
  ipc_inv idle Q R c i pend h -> pend c = None -> c <> idle -> time < 2 ^ 31 - 1 ->
  (forall r i' Q' R' c', ipc_inv idle Q' R' c' i' (entered r (OnSem s) c pend) h -> Post r i') ->
  wp (rt_sem_take s time) i Post.
Proof.
  intros Hinv Hp Hne Htime HQ. pose proof (i_settled _ _ _ _ _ _ _ Hinv) as Hset. unfold rt_sem_take. wp_steps.
  destruct (i_sem _ _ _ _ _ _ _ Hinv s) as (F & V & W). destruct (Z.ltb_spec 0 (sem_value (sems i s))) as [Hpos|Hz].
  - unfold upd_sem. wp_steps. apply (HQ _ _ Q R c). apply inv_sem; [done|]. unfold RT_SEM_VALUE_MAX in V.
    split_and!; cbn [sem_flag sem_value set_sem_value]; [done|rewrite wrap_small by lia; unfold RT_SEM_VALUE_MAX; lia..|]. intros _. by apply W.
  - destruct (Z.eqb_spec time 0) as [->|Ht0]; [wp_steps; by apply (HQ _ i Q R c)|]. wp_steps. apply wp_zoom.
    apply (in_thread_context_spec Q R c); [done|]. wp_steps. apply wp_zoom, (self_spec Q R c); [done|]. wp_steps. apply wp_zoom. unfold upd_thread. wp_steps.
    cbn [view over lens_ipc_kernel ik sems mutexes]. pose proof (inv_error idle Q R c i pend h RT_EOK Hinv Hp) as Hinv1.
    set (k1 := set_thread c (set_error RT_EOK (thread (ik i) c)) (ik i)) in *. set (i1 := Ipc k1 (sems i) (mutexes i)) in *.
    apply wp_zoom. cbn [view over lens_ipc_kernel ik sems mutexes].
    apply (wait_spec idle Q R c); try done; [apply (i_settled _ _ _ _ _ _ _ Hinv1)|apply (i_idle _ _ _ _ _ _ _ Hinv1)|].
    intros Q' R' c' k' Hset' _ Hw. wp_steps. cbn [view over lens_ipc_kernel ik sems mutexes]. apply (HQ None _ Q' R' c').
    apply (inv_waits idle Q R c i1 pend h Q' R' c' k' (OnSem s) time); try done.
    + cbn [ik i1 k1 thread set_thread]. by rewrite fn_lookup_insert.
    + intros s' [= <-]. cbn [sems i1]. lia.
Qed.

Lemma sem_wakes_spec idle Q R c i pend h s u l (Post : Z -> ipc -> Prop) : ipc_inv idle Q R c i pend h -> Q (SemList s) = u :: l ->
  (forall k' Q' R' c', ipc_inv idle Q' R' c' (Ipc k' (sems i) (mutexes i)) pend h -> highest c' k' -> can_run (thread k' u) ->
    error (thread k' u) = error (thread (ik i) u) -> keeps (fun t => t = u) Q Q' -> Post RT_EOK (Ipc k' (sems i) (mutexes i))) ->
  wp (rt_sem_release s) i Post.
Proof.
  intros Hinv E HQ. pose proof (i_settled _ _ _ _ _ _ _ Hinv) as Hset. pose proof Hset as [[Hc Hcu Hst Hl] _ _ _].
  unfold rt_sem_release. wp_steps. rewrite (isempty_spec _ _ _ (c_links Q (ik i) Hc)), E, bool_decide_false by done. cbn [negb]. wp_steps.
  apply wp_zoom. cbn [view over lens_ipc_kernel]. assert (u ∈ Q (SemList s)) as Hin by (rewrite E; left).
  destruct (i_wait _ _ _ _ _ _ _ Hinv u (SemList s) eq_refl Hin) as (w & Hpu & Hlw & _). destruct w as [s0|]; [|discriminate].
  assert (status (thread (ik i) u) = RT_THREAD_SUSPEND) as Hsu.
  { destruct (c_place Q (ik i) Hc u) as (o & Hpl & Hok). apply Hpl in Hin. subst o. inversion Hok; subst; first [done|discriminate]. }
  eapply wp_mono; [apply (resume_first_spec idle Q R c (ik i) (SemList s) u l (fun _ k' => Post RT_EOK (Ipc k' (sems i) (mutexes i)))); try done; [apply Hinv|]|].
  { intros Q' R' c' k' Hset' Hh' Hi' Hke Hru Her Hmv. apply (HQ k' Q' R' c'); try done. apply (inv_kernel (fun t => t = u) idle Q R c i); try done.
    - intros t ->. split_and!; [done|done|right; by exists s0].
    - intros t Ht _. split; [by apply Hmv|done]. }
  cbn beta. intros _ k1 Hw. wp_steps. apply wp_zoom. cbn [view over lens_ipc_kernel ik sems mutexes].
  eapply wp_mono; [exact Hw|]. cbn beta. intros _ k' Hk'. by wp_steps.
Qed.

Lemma sem_release_spec idle Q R c i pend h s (Post : Z -> ipc -> Prop) :
  ipc_inv idle Q R c i pend h -> (forall r i' Q' R' c', ipc_inv idle Q' R' c' i' pend h -> Post r i') -> wp (rt_sem_release s) i Post.
Proof.
  intros Hinv HQ. pose proof (i_settled _ _ _ _ _ _ _ Hinv) as Hset. pose proof Hset as [[Hc Hcu Hst Hl] _ _ _].
  destruct (Q (SemList s)) as [|u l] eqn:E.
  2:{ apply (sem_wakes_spec idle Q R c i pend h s u l); [done|done|]. intros k' Q' R' c' Hinv' _ _ _ _. by apply (HQ _ _ Q' R' c'). }
  unfold rt_sem_release. wp_steps. rewrite (isempty_spec _ _ _ (c_links Q (ik i) Hc)), E, bool_decide_true by done. cbn [negb]. wp_steps.
  destruct (i_sem _ _ _ _ _ _ _ Hinv s) as (F & V & W).
  destruct (Z.ltb_spec (sem_value (sems i s)) RT_SEM_VALUE_MAX) as [Hlt|]; [|wp_steps; by apply (HQ _ i Q R c)].
  unfold upd_sem. wp_steps. apply (HQ _ _ Q R c). apply inv_sem; [done|]. unfold RT_SEM_VALUE_MAX in *.
  split_and!; cbn [sem_flag sem_value set_sem_value]; [done|rewrite wrap_small by lia; unfold RT_SEM_VALUE_MAX; lia..|done].
Qed.

(** A call that has waited returns. *)
Lemma inv_return idle Q R c i pend h w : ipc_inv idle Q R c i pend h -> pend c = Some w ->
  ipc_inv idle Q R c i (<[c := None]> pend) (match w with OnMutex m => taken (Some (error (thread (ik i) c))) m c h | OnSem _ => h end).
Proof.
  intros Hinv Hp. pose proof Hinv as [Hset Hi Hsem Hmu Hw Hpm Hps].
  assert (forall t q, waiting q = true -> t ∈ Q q -> t <> c) as Hnot by (intros t q Hq Hin ->; by apply (running_nowhere Q R c (ik i) q)).
  split; try done.
  - intros m. destruct (Hmu m) as [F Hm]. split; [done|].
    assert (forall t, (match w with OnMutex m => taken (Some (error (thread (ik i) c))) m c h | OnSem _ => h end) m t =
      if decide (t = c /\ w = OnMutex m /\ error (thread (ik i) c) = RT_EOK) then h m c + 1 else h m t) as Hh.
    { intros t. destruct w as [s|m']; [by rewrite decide_False by (by intros (_ & ? & _))|]. unfold taken.
      destruct (Z.eqb_spec (error (thread (ik i) c)) RT_EOK) as [Er|Er]; [|by rewrite decide_False by (by intros (_ & _ & ?))].
      destruct (decide (m' = m)) as [->|Hne]; [|rewrite fn_lookup_insert_ne, decide_False by (try intros (_ & ? & _); congruence); done].
      rewrite fn_lookup_insert. destruct (decide (t = c)) as [->|Ht]; [by rewrite fn_lookup_insert, decide_True|].
      by rewrite fn_lookup_insert_ne, decide_False by (try intros (? & _); done). }
    destruct (owner (mutexes i m)) as [o|] eqn:Eo.
    + destruct Hm as (H1 & H2 & H3 & H4 & H5 & H6). split_and!; try done; try apply H2; try apply H3.
      * intros t Ht. rewrite Hh. rewrite decide_False; [by apply H5|]. intros (-> & -> & Er).
        destruct (Hpm c m Hp) as [Hin|[_ Hro]]; [by apply Hnot in Hin|]. apply Hro in Er. congruence.
      * rewrite Hh. destruct (decide (o = c)) as [->|Hoc]; [rewrite fn_lookup_insert|rewrite fn_lookup_insert_ne, decide_False by (try intros (? & _); done); done].
        left. split; [|done]. destruct H6 as [[H6 Hn]|(H6 & H7 & H8)].
        -- rewrite decide_False; [done|]. intros (_ & -> & _). by destruct Hn.
        -- assert (w = OnMutex m) as -> by congruence. rewrite decide_True; [lia|]. split_and!; try done.
           destruct (Hpm c m Hp) as [Hin|[_ Hro]]; [by apply Hnot in Hin|]. by apply Hro.
    + destruct Hm as (H1 & H2 & H3 & H4). split_and!; try done. intros t. rewrite Hh, decide_False; [done|]. intros (-> & -> & Er).
      destruct (Hpm c m Hp) as [Hin|[_ Hro]]; [by apply Hnot in Hin|]. apply Hro in Er. congruence.
  - intros t q Hq Hin. rewrite fn_lookup_insert_ne by (intros <-; by apply (Hnot c q)). by apply Hw.
  - intros t m. destruct (decide (t = c)) as [->|Ht]; [by rewrite fn_lookup_insert|rewrite fn_lookup_insert_ne by done; apply Hpm].
  - intros t s. destruct (decide (t = c)) as [->|Ht]; [by rewrite fn_lookup_insert|rewrite fn_lookup_insert_ne by done; apply Hps].
Qed.

(** ** The system *)

Definition system_ok (idle : tid) (s : system) : Prop :=
  exists Q R c, ipc_inv idle Q R c (objects s) (pending s) (held s).

Lemma wp_on_kernel {A : Type} (m : M kernel A) (s : system) (Post : A -> system -> Prop) :
  wp m (ik (objects s)) (fun a k => Post a (System (Ipc k (sems (objects s)) (mutexes (objects s))) (pending s) (held s))) -> wp (on_kernel m) s Post.
Proof. intros H. unfold on_kernel. apply wp_zoom, wp_zoom. exact H. Qed.

Lemma system_self idle Q R c s (Post : tid -> system -> Prop) : ipc_inv idle Q R c (objects s) (pending s) (held s) -> Post c s -> wp (on_kernel self) s Post.
Proof.
  intros Hinv HQ. apply wp_on_kernel, (self_spec Q R c); [apply Hinv|]. destruct s as [[k ss ms] pend h]. exact HQ.
Qed.

Lemma inv_like idle Q R c i pend h Q' R' c' k' : ipc_inv idle Q R c i pend h -> settled Q' R' c' k' -> can_run (thread k' idle) ->
  keeps (fun _ => False) Q Q' -> pend c = None \/ same_or_runs (thread (ik i) c) (thread k' c) ->
  (forall u, u <> c -> same_or_runs (thread (ik i) u) (thread k' u)) -> (forall u, error (thread k' u) = error (thread (ik i) u)) ->
  ipc_inv idle Q' R' c' (Ipc k' (sems i) (mutexes i)) pend h.
Proof.
  intros Hinv Hset' Hi' Hk Hc Hm He. apply (inv_kernel_same idle Q R c i); try done. intros u Hu. split; [|done].
  destruct (decide (u = c)) as [->|Hne]; [by destruct Hc|by apply Hm].
Qed.

Lemma like_error x x' : like x x' -> error x' = error x.
Proof. by intros (v & w & ->). Qed.

(** The operations of the kernel. *)
Lemma kernel_act_ok idle Q R c s a : ipc_inv idle Q R c (objects s) (pending s) (held s) -> may idle s a ->
  match a with Yields | Sleeps _ | Sets_priority _ _ | Ticks => True | _ => False end -> wp (act a) s (fun _ => system_ok idle).
Proof.
  intros Hinv Hmay Ha. pose proof (i_settled _ _ _ _ _ _ _ Hinv) as Hset. pose proof (i_idle _ _ _ _ _ _ _ Hinv) as Hi.
  pose proof (r_current _ _ _ (s_runs _ _ _ _ Hset)) as Hcu. destruct a; try done; cbn [act may] in *.
  - destruct Hmay as [(c0 & Hc0 & Hp) _]. rewrite Hcu in Hc0. injection Hc0 as <-. wp_steps. apply wp_on_kernel.
    apply (yield_spec Q R c); [done|]. intros Q' c' k' _ Hset' _ Hm Hke. wp_steps. exists Q', R, c'.
    apply (inv_like idle Q R c); try done; [apply (same_or_runs_can (thread (ik (objects s)) idle)); [apply Hm|done]|by left|intros u _; apply Hm|].
    intros u. apply like_error, Hm.
  - destruct Hmay as [(c0 & Hc0 & Hp) [Hni Hn]]. rewrite Hcu in Hc0. injection Hc0 as <-. apply wp_on_kernel.
    apply (sleep_spec idle Q R c); [done|done|congruence|done|]. intros Q' R' c' k' Hset' _ Hi' _ _ _ Hke Hm Hl. exists Q', R', c'.
    apply (inv_like idle Q R c); try done; [by left|]. intros u. apply like_error, Hl.
  - destruct Hmay as [_ Hp]. apply wp_on_kernel. apply (change_priority_spec Q R c); [done|done|]. intros Q' k' Hset' Hst _ Hke Hth Her.
    exists Q', R, c. apply (inv_like idle Q R c); try done; [unfold can_run; by rewrite Hst|right; by left|intros u _; by left|].
    intros u. destruct (decide (u = t)) as [->|Hu]; [done|by rewrite Hth].
  - apply wp_on_kernel. eapply wp_mono; [by apply (systick_spec idle Q R c)|]. cbn beta.
    intros _ k' (Q' & R' & c' & Hset' & Hi' & _ & [Hke Hck] & _). exists Q', R', c'. cbn [objects pending held].
    apply (inv_kernel (fun u => u ∈ R TimerList /\ due (ik (objects s)) u <= 1) idle Q R c); try done.
    + intros u Hu. destruct (Hck u) as [A _]. destruct (A Hu) as [Hr (v & w & El)]. split_and!; [|done|left; by rewrite El].
      destruct Hset as [_ Ht _ _]. apply (t_suspended R _ Ht), (t_active R _ Ht), Hu.
    + intros u Hu _. destruct (Hck u) as [_ B]. destruct (B Hu) as (Hm & Hl & _). split; [done|by apply like_error].
Qed.

Lemma act_ok idle s a : system_ok idle s -> may idle s a -> wp (act a) s (fun _ => system_ok idle).
Proof.
  intros (Q & R & c & Hinv) Hmay. pose proof (r_current _ _ _ (s_runs _ _ _ _ (i_settled _ _ _ _ _ _ _ Hinv))) as Hcu.
  destruct a as [m time|m|n time|n| | | | |]; try by apply (kernel_act_ok idle Q R c).
  all: cbn [act may] in *; wp_steps.
  - destruct Hmay as [(c0 & Hc0 & Hp) [Hni Ht]]. rewrite Hcu in Hc0. injection Hc0 as <-. apply (system_self idle Q R c); [done|]. wp_steps. apply wp_zoom.
    apply (mutex_take_spec idle Q R c _ (pending s) (held s)); try done; [congruence|]. intros r i' Q' R' c' Hinv' _.
    destruct r as [r|]; [|wp_steps; by exists Q', R', c'].
    cbn [entered taken] in Hinv'. destruct (r =? RT_EOK); cbn [when]; wp_steps; by exists Q', R', c'.
  - destruct Hmay as [(c0 & Hc0 & Hp) _]. rewrite Hcu in Hc0. injection Hc0 as <-. apply (system_self idle Q R c); [done|]. wp_steps. apply wp_zoom.
    apply (mutex_release_spec idle Q R c _ (pending s) (held s)); try done. intros r i' Q' R' c' Hinv'.
    unfold released in Hinv'. destruct (r =? RT_EOK); cbn [when]; wp_steps; by exists Q', R', c'.
  - destruct Hmay as [(c0 & Hc0 & Hp) [Hni Ht]]. rewrite Hcu in Hc0. injection Hc0 as <-. apply (system_self idle Q R c); [done|]. wp_steps. apply wp_zoom.
    apply (sem_take_spec idle Q R c _ (pending s) (held s)); try done; [congruence|]. intros r i' Q' R' c' Hinv'.
    destruct r as [r|]; wp_steps; by exists Q', R', c'.
  - apply wp_zoom. apply (sem_release_spec idle Q R c _ (pending s) (held s)); [done|]. intros r i' Q' R' c' Hinv'. wp_steps. by exists Q', R', c'.
  - destruct Hmay as (c0 & Hc0 & Hp). rewrite Hcu in Hc0. injection Hc0 as <-. destruct (pending s c) as [w|] eqn:Ew; [|done].
    apply (system_self idle Q R c); [done|]. wp_steps. apply wp_on_kernel. unfold woken_result. wp_steps. cbn [pending]. rewrite Ew.
    pose proof (inv_return idle Q R c _ _ _ w Hinv Ew) as Hinv'.
    set (e := error (thread (ik (objects s)) c)) in *. assert ((if negb (e =? RT_EOK) then e else RT_EOK) = e) as -> by (destruct (Z.eqb_spec e RT_EOK); cbn [negb]; congruence).
    unfold set_pending. cbn [objects pending held]. assert (Ipc (ik (objects s)) (sems (objects s)) (mutexes (objects s)) = objects s) as -> by (by destruct (objects s)).
    destruct w as [n|m]; [wp_steps; by exists Q, R, c|]. unfold taken in Hinv'. destruct (e =? RT_EOK); cbn [when]; wp_steps; by exists Q, R, c.
Qed.
End Invariant.

(** C33. Mutual exclusion: whatever sequence of takes, waits, timeouts, releases, sleeps, changes
    of priority and ticks leads to a state, at most one thread has takes of a mutex that
    have returned RT_EOK and are not released, the mutex names that thread as its owner,
    and every operation that a thread may perform next succeeds and keeps it so. *)
Theorem mutual_exclusion idle (s s' : system) (m : nat) (t u : nat) : system_ok idle s -> leads idle s s' ->
  (held s' m t <> 0 -> held s' m u <> 0 -> t = u) /\
  (held s' m t <> 0 -> owner (mutexes (objects s') m) = Some t /\ held s' m t = hold (mutexes (objects s') m)) /\
  forall a, may idle s' a -> exists s2, act a s' = Ok (tt, s2) /\ system_ok idle s2.
Proof.
  intros Hs Hl. assert (system_ok idle s') as Hs'.
  { induction Hl as [|s1 s2 a Hl IH Ha E]; [done|]. exact (wp_ok _ _ _ _ _ E (act_ok idle s1 a IH Ha)). }
  assert (forall x, held s' m x <> 0 -> owner (mutexes (objects s') m) = Some x /\ held s' m x = hold (mutexes (objects s') m)) as Hown.
  { intros x Hx. destruct Hs' as (Q & R & c & Hinv). destruct (i_mutex _ _ _ _ _ _ _ Hinv m) as [_ Hm].
    destruct (owner (mutexes (objects s') m)) as [o|]; [|by destruct Hm as (_ & _ & _ & Hz); rewrite Hz in Hx].
    destruct Hm as (_ & _ & _ & _ & Hz & Ho). destruct (decide (x = o)) as [->|Hne]; [|by rewrite Hz in Hx].
    split; [done|]. destruct Ho as [[Ho _]|[Ho _]]; [done|by rewrite Ho in Hx]. }
  split_and!; [|apply Hown|].
  - intros Ht Hu. apply Hown in Ht as [Ht _]. apply Hown in Hu as [Hu _]. congruence.
  - intros a Ha. destruct (wp_total _ _ _ (act_ok idle s' a Hs' Ha)) as ([] & s2 & E & H). by exists s2.
Qed.

(** C34. Priority inheritance at a take that has to wait: it leaves the mutex to its
    owner, whose priority is right after it the better of its own and the waiting thread's;
    if the owner is ready then, the thread that runs next is the owner, or one at least as
    urgent as the waiting thread. The kernel and the objects stay in order, with the thread waiting
    for the mutex. How long the owner keeps the priority is not part of this. *)
Theorem priority_inheritance idle Q R c (i : ipc) pend h (m o : nat) (time : Z) :
  ipc_inv idle Q R c i pend h -> pend c = None -> c <> idle -> owner (mutexes i m) = Some o -> o <> c -> time <> 0 -> time < 2 ^ 31 - 1 ->
  wp (rt_mutex_take m time) i (fun r i' => r = None /\ owner (mutexes i' m) = Some o /\
    current_priority (thread (ik i') o) = Z.min (current_priority (thread (ik i) o)) (current_priority (thread (ik i) c)) /\
    (exists d, rt_current_thread (ik i') = Some d /\
      (status (thread (ik i') o) = RT_THREAD_READY -> current_priority (thread (ik i') d) <= current_priority (thread (ik i) c))) /\
    exists Q' R' c', ipc_inv idle Q' R' c' i' (<[c := Some (OnMutex m)]> pend) h).
Proof.
  intros Hinv Hp Hne Ho Hoc Ht0 Ht. apply (mutex_take_spec idle Q R c i pend h); try done. intros r i' Q' R' c' Hinv' Hr.
  destruct r as [r|]; [by destruct (Hr o Ho)|]. destruct Hr as (o' & Ho' & _ & Em & Hpr & d & Hd & Hhi). assert (o' = o) as -> by congruence.
  split_and!; [done|by rewrite Em|done| |by exists Q', R', c'].
  exists d. split; [done|]. intros Hst. specialize (Hhi o Hst). lia.
Qed.

(** A release of a semaphore that threads wait for gives it to the first of them, which can
    run then; the others wait on, and the value is as it was. *)
Theorem semaphore_hand_over idle Q R c (i : ipc) pend h (s u : nat) l :
  ipc_inv idle Q R c i pend h -> Q (SemList s) = u :: l ->
  wp (rt_sem_release s) i (fun r i' => r = RT_EOK /\ sems i' = sems i /\ can_run (thread (ik i') u) /\ error (thread (ik i') u) = RT_EOK /\
    exists Q' R' c', ipc_inv idle Q' R' c' i' pend h /\ highest c' (ik i') /\ forall t, t ∈ Q' (SemList s) <-> t ∈ l).
Proof.
  intros Hinv E. apply (sem_wakes_spec idle Q R c i pend h s u l); [done|done|]. intros k' Q' R' c' Hinv' Hh Hru He Hke. cbn [ik sems].
  assert (u ∈ Q (SemList s)) as Hin by (rewrite E; left). destruct (i_wait _ _ _ _ _ _ _ Hinv u (SemList s) eq_refl Hin) as (w & _ & _ & Heu).
  split_and!; [done|done|done|by rewrite He|]. exists Q', R', c'. split_and!; [done|done|]. intros t. rewrite (Hke t (SemList s) eq_refl), E, elem_of_cons.
  pose proof (lk_nodup _ _ (c_links _ _ (r_ok _ _ _ (s_runs _ _ _ _ (i_settled _ _ _ _ _ _ _ Hinv)))) (SemList s)) as Hd. rewrite E in Hd.
  apply NoDup_cons in Hd as [Hd _]. split; [tauto|]. intros Ht. split; [by right|]. by intros ->.
Qed.

(** ** Losing an inherited priority *)

Fixpoint acts (l : list action) : M system unit :=
  match l with [] => ret tt | a :: l => act a ;;; acts l end.

(** A system in which thread 1 has priority 4, thread 3 has 7 and thread 0 has 10. *)
Definition free_ipc (k : kernel) : ipc := Ipc k (fun _ => Rt_semaphore 0 RT_IPC_FLAG_FIFO) (fun _ => Rt_mutex 1 0xff 0 None RT_IPC_FLAG_FIFO).
Definition fresh (k : kernel) : system := System (free_ipc k) (fun _ => None) (fun _ _ => 0).
Definition three_priorities : kernel := match create 3 7 10 booted with Ok (_, k) => k | Fault _ => booted end.

(** Thread 0 takes two mutexes, thread 1 waits for the first, and thread 3 becomes ready. *)
Definition nested_locks : list action :=
  [Sleeps 2; Sleeps 4; Mutex_take 0 (-1); Mutex_take 1 (-1); Ticks; Ticks; Mutex_take 0 (-1); Ticks; Ticks].

(** An inherited priority is lost when another mutex is released: the owner of two
    mutexes, on the first of which a thread of priority 4 waits, runs with that priority;
    its release of the second takes it back to its own priority 10, and a thread of
    priority 7 runs while the thread of priority 4 still waits for the first. *)
Theorem inheritance_lost :
  wp (acts nested_locks) (fresh three_priorities) (fun _ s =>
    rt_current_thread (ik (objects s)) = Some 0%nat /\ current_priority (thread (ik (objects s)) 0%nat) = 4 /\
    wp (acts [Mutex_release 1; Yields]) s (fun _ s' =>
      rt_current_thread (ik (objects s')) = Some 3%nat /\ current_priority (thread (ik (objects s')) 3%nat) = 7 /\
      pending s' 1%nat = Some (OnMutex 0) /\ current_priority (thread (ik (objects s')) 1%nat) = 4 /\
      owner (mutexes (objects s') 0%nat) = Some 0%nat /\ current_priority (thread (ik (objects s')) 0%nat) = 10)).
Proof. vm_compute. repeat split. Qed.

(** ** Witnesses *)

Lemma fresh_inv idle Q R c k : settled Q R c k -> can_run (thread k idle) -> (forall q, waiting q = true -> Q q = []) ->
  ipc_inv idle Q R c (free_ipc k) (fun _ => None) (fun _ _ => 0).
Proof.
  intros Hs Hi Hq. split; try done; cbn [free_ipc sems mutexes].
  - intros s. split_and!; [by left|done|done|done].
  - intros m. split; [by left|]. cbn. split_and!; try done. by apply Hq.
  - intros t q Hw Hin. rewrite Hq in Hin by done. by apply elem_of_nil in Hin.
Qed.

Definition start : system := fresh booted.

Lemma start_inv : ipc_inv 2 (boot_lists 0 1 2) (fun _ => []) 1 (free_ipc booted) (fun _ => None) (fun _ _ => 0).
Proof. destruct booted_settled as [Hs Hi]. apply fresh_inv; [done|done|]. by intros [] Hq; try discriminate. Qed.
Lemma start_ok : system_ok 2 start.
Proof. eexists _, _, _. exact start_inv. Qed.

Lemma start_may time : time < 2 ^ 31 - 1 -> may 2 start (Mutex_take 0 time) /\ may 2 start (Sem_take 0 time).
Proof.
  intros Ht. pose proof (r_current _ _ _ (s_runs _ _ _ _ (proj1 booted_settled))) as Hcu.
  assert (rt_current_thread (ik (objects start)) = Some 1%nat) as Hc by exact Hcu.
  split; (split; [exists 1%nat; by split|split; [by rewrite Hc|done]]).
Qed.

Lemma mutual_exclusion_witness : exists s', leads 2 start s' /\
  (held s' 0 1 <> 0 -> held s' 0 0 <> 0 -> 1%nat = 0%nat) /\
  (held s' 0 1 <> 0 -> owner (mutexes (objects s') 0) = Some 1%nat /\ held s' 0 1 = hold (mutexes (objects s') 0)) /\
  forall a, may 2 s' a -> exists s2, act a s' = Ok (tt, s2) /\ system_ok 2 s2.
Proof.
  destruct (start_may (-1) ltac:(lia)) as [Ha _].
  destruct (wp_total _ _ _ (act_ok 2 start _ start_ok Ha)) as ([] & s1 & E & _).
  pose proof (leads_step 2 start start s1 _ (leads_refl 2 start) Ha E) as Hl.
  exists s1. split; [exact Hl|]. exact (mutual_exclusion 2 start s1 0 1 0 start_ok Hl).
Defined.

Definition next_state (a : action) (s : system) : system := match act a s with Ok (_, s') => s' | Fault _ => s end.
Lemma next_ok idle s a : system_ok idle s -> may idle s a -> system_ok idle (next_state a s).
Proof. intros Hs Ha. destruct (wp_total _ _ _ (act_ok idle s a Hs Ha)) as ([] & s' & E & H). unfold next_state. by rewrite E. Qed.

(** Thread 0, of priority 10, takes the first mutex while thread 1, of priority 4, sleeps;
    then thread 1 runs. Or thread 1 waits for the first semaphore. *)
Definition locked : system := next_state (Mutex_take 0 (-1)) (next_state (Sleeps 2) start).
Definition owned : system := next_state Ticks (next_state Ticks locked).
Definition awaited : system := next_state (Sem_take 0 (-1)) start.

Lemma owned_ok : system_ok 2 owned.
Proof.
  apply next_ok; [apply next_ok; [apply next_ok; [apply next_ok; [exact start_ok|]|]|exact I]|exact I].
  - split; [exists 1%nat; split; vm_compute; reflexivity|split; [vm_compute; congruence|lia]].
  - split; [exists 0%nat; split; vm_compute; reflexivity|split; [vm_compute; congruence|lia]].
Qed.
Lemma awaited_ok : system_ok 2 awaited.
Proof. apply next_ok; [exact start_ok|by apply start_may]. Qed.

Lemma owned_facts : rt_current_thread (ik (objects owned)) = Some 1%nat /\ pending owned 1 = None /\ owner (mutexes (objects owned) 0) = Some 0%nat /\
  current_priority (thread (ik (objects owned)) 0) = 10 /\ current_priority (thread (ik (objects owned)) 1) = 4.
Proof. vm_compute. repeat split. Qed.
Lemma awaited_facts : pending awaited 1 = Some (OnSem 0) /\ status (thread (ik (objects awaited)) 1) = RT_THREAD_SUSPEND.
Proof. vm_compute. repeat split. Qed.

(** The more urgent thread 1 waits: thread 0 gets its priority 4. *)
Lemma priority_inheritance_witness : exists Q R, ipc_inv 2 Q R 1 (objects owned) (pending owned) (held owned) /\
  current_priority (thread (ik (objects owned)) 0) = 10 /\
  wp (rt_mutex_take 0 (-1)) (objects owned) (fun r i' => r = None /\ owner (mutexes i' 0) = Some 0%nat /\
    current_priority (thread (ik i') 0) = 4).
Proof.
  destruct owned_ok as (Q & R & c & Hinv), owned_facts as (Hcu & Hp & Ho & H0 & H1).
  assert (c = 1%nat) as -> by (pose proof (r_current _ _ _ (s_runs _ _ _ _ (i_settled _ _ _ _ _ _ _ Hinv))); congruence).
  exists Q, R. split; [exact Hinv|]. split; [exact H0|].
  eapply wp_mono; [exact (priority_inheritance 2 Q R 1 (objects owned) (pending owned) (held owned) 0 0 (-1) Hinv Hp ltac:(lia) Ho ltac:(lia) ltac:(lia) ltac:(lia))|].
  intros r i' (Hr & Ho' & Hpr & _). rewrite H0, H1 in Hpr. split; [exact Hr|]. split; [exact Ho'|exact Hpr].
Defined.

Lemma semaphore_hand_over_witness : exists Q R c u l, Q (SemList 0) = u :: l /\
  wp (rt_sem_release 0) (objects awaited) (fun r i' => r = RT_EOK /\ sems i' = sems (objects awaited) /\ can_run (thread (ik i') u) /\
    error (thread (ik i') u) = RT_EOK /\
    exists Q' R' c', ipc_inv 2 Q' R' c' i' (pending awaited) (held awaited) /\ highest c' (ik i') /\ forall t, t ∈ Q' (SemList 0) <-> t ∈ l) /\
  ipc_inv 2 Q R c (objects awaited) (pending awaited) (held awaited).
Proof.
  destruct awaited_ok as (Q & R & c & Hinv), awaited_facts as (Hp & Hs).
  destruct (Q (SemList 0)) as [|u l] eqn:E.
  - exfalso. destruct (i_pend_sem _ _ _ _ _ _ _ Hinv 1%nat 0%nat Hp) as [Hin|[Hr|Hr]]; [rewrite E in Hin; by apply elem_of_nil in Hin|by rewrite Hs in Hr..].
  - exists Q, R, c, u, l. split; [exact E|]. split; [|exact Hinv].
    exact (semaphore_hand_over 2 Q R c (objects awaited) (pending awaited) (held awaited) 0 u l Hinv E).
Defined.
