(* ===== verification/Sensors.v ===== *)
(** * Sensors of the building controller

    Models the sampling threads: the light and smoke converters
    ([applications/src/my_adc.c]) and the temperature and humidity sensor
    ([applications/src/my_dht11.c]). Each thread's loop body is one computation on the
    board; what the sensor's driver returns (the DHT11 package is not part of the
    repository) is its argument. *)

From stdpp Require Import base numbers list.
From Stdlib Require Import ZArith Lia.
From S2P Require Import Prelude Gpio Device HwTimer Pwm Adc Display DataUpload Actuators.

(** "adc3", "adc2" and "temp_dht11". *)
Definition ADC_LIGHT_DEV_NAME : list Z := [97; 100; 99; 51].
Definition ADC_MQ2_DEV_NAME : list Z := [97; 100; 99; 50].
Definition ADC_LIGHT_DEV_CHANNEL : Z := 5.
Definition ADC_MQ2_DEV_CHANNEL : Z := 4.

Definition light_adc {A : Type} (m : M adc A) : M board A := @zoom _ _ _ board_adc3 m.
Definition mq2_adc {A : Type} (m : M adc A) : M board A := @zoom _ _ _ board_adc2 m.

(** A call of a function of [my_oled.c]. *)
Definition oled {A : Type} (m : M (list drawing) A) : M board A := zoom m.

(** ** my_adc.c *)

Definition change_light_hard_error_state : M board unit :=
  e <- app_gets light_hard_error_state ;;
  when (e =? 0) emergency_light_close ;;;
  app_modify (fun a => set_light_flags (emergency_light_state a) (u8 (1 - e)) (light_limit a) a).

Definition set_light_limit (limit : Z) : M board unit :=
  app_modify (fun a => set_light_flags (emergency_light_state a) (light_hard_error_state a) (u32 limit) a).

Definition my_light_ADC_Init : M board Z :=
  d <- find_device ADC_LIGHT_DEV_NAME ;;
  app_modify (fun a => set_adc_devs d (adc_mq2_dev a) a) ;;;
  match d with
  | None => ret RT_ERROR
  | Some _ => light_adc (rt_adc_enable stm_adc_ops true ADC_LIGHT_DEV_CHANNEL) ;;; ret RT_EOK
  end.

(** One turn of [my_light_entry]: [light_value] is a [rt_uint32_t], the stored intensity an
    [int]. *)
Definition my_light_entry : M board unit :=
  d <- app_gets adc_light_dev ;;
  v <- light_adc (rt_adc_read stm_adc_ops (bool_decide (is_Some d)) ADC_LIGHT_DEV_CHANNEL) ;;
  app_modify (fun a => set_adc_values (u32 v) (mq2_value a) a) ;;;
  app_modify (fun a => set_adc_values (u32 (4000 - light_value a)) (mq2_value a) a) ;;;
  v <- app_gets light_value ;;
  oled (my_oled_print_light v) ;;;
  data (Set_Devpro_light v).

Definition my_adc_get_light : M board Z := app_gets light_value.

Definition my_mq2_ADC_Init : M board Z :=
  d <- find_device ADC_MQ2_DEV_NAME ;;
  app_modify (fun a => set_adc_devs (adc_light_dev a) d a) ;;;
  match d with
  | None => ret RT_ERROR
  | Some _ => mq2_adc (rt_adc_enable stm_adc_ops true ADC_MQ2_DEV_CHANNEL) ;;; ret RT_EOK
  end.

Definition my_mq2_entry : M board unit :=
  d <- app_gets adc_mq2_dev ;;
  v <- mq2_adc (rt_adc_read stm_adc_ops (bool_decide (is_Some d)) ADC_MQ2_DEV_CHANNEL) ;;
  app_modify (fun a => set_adc_values (light_value a) (u32 v) a) ;;;
  v <- app_gets mq2_value ;;
  oled (my_oled_print_mq2 v) ;;;
  data (Set_Devpro_smoke v).

Definition my_adc_get_mq2 : M board Z := app_gets mq2_value.

(** ** my_dht11.c *)

Definition set_temp_limit (limit : Z) : M board unit :=
  app_modify (fun a => set_dht (dht_temp a) (dht_humi a) (u8 limit) (beep_state a) a).
Definition set_beep_state (state : Z) : M board unit :=
  app_modify (fun a => set_dht (dht_temp a) (dht_humi a) (temp_limit a) (u8 state) a).

Definition show_Data : M board unit :=
  t <- app_gets dht_temp ;;
  h <- app_gets dht_humi ;;
  oled (my_oled_print_dht t h).

(** One turn of [my_read_temp_entry]: [res] is what [rt_device_read] returned and [sample]
    the word it filled in, a signed 32-bit integer. The result says whether the thread
    goes on. *)
Definition my_read_temp_entry (res sample : Z) : M board bool :=
  if negb (res =? 1) then ret false
  else
    (if 0 <=? sample then
       app_modify (fun a => set_dht (u8 (Z.shiftr (Z.land sample 0xffff) 0))
                              (u8 (Z.shiftr (Z.land sample 0xffff0000) 16))
                              (temp_limit a) (beep_state a) a) ;;;
       show_Data ;;;
       t <- app_gets dht_temp ;;
       data (Set_Devpro_temp t) ;;;
       h <- app_gets dht_humi ;;
       data (Set_Devpro_humi h)
     else ret tt) ;;;
    ret true.

Definition my_dht11_get_temp : M board Z := app_gets dht_temp.
Definition my_dht11_get_humi : M board Z := app_gets dht_humi.

(** ** What a sample stores *)

Definition with_light_value (v : Z) (e : Environment_t) : Environment_t :=
  Environment (temp e) (humi e) v (smoke e).
Definition with_smoke_value (v : Z) (e : Environment_t) : Environment_t :=
  Environment (temp e) (humi e) (light e) v.
Definition with_climate (t h : Z) (e : Environment_t) : Environment_t :=
  Environment t h (light e) (smoke e).

(** Every stored quantity is within its sensor's range. *)
Definition environment_ok (e : Environment_t) : Prop :=
  0 <= temp e <= 255 /\ 0 <= humi e <= 255 /\ -95 <= light e <= 4000 /\ 0 <= smoke e <= 4095.

Section Facts.
Implicit Types b : board.

(** A change of the globals that the actuators do not use. *)
Lemma board_app_ok a b :
  board_ok b -> hw_dev a = hw_dev (b_app b) -> angle a = angle (b_app b) -> board_ok (over a b).
Proof.
  intros [Hp Ht Hd Ha] H1 H2. split; cbn; try done; [by rewrite H1|].
  unfold angle_ok. by rewrite H2.
Qed.
Lemma board_props_environment f b : board_ok b -> board_ok (over (on_environment f (b_props b)) b).
Proof. intros Hb. by apply board_data_ok. Qed.

Lemma light_entry_spec b :
  board_ok b -> is_Some (adc_light_dev (b_app b)) ->
  wp my_light_entry b (fun _ b' => board_ok b' /\ adc_light_dev (b_app b') = adc_light_dev (b_app b) /\
    adc_mq2_dev (b_app b') = adc_mq2_dev (b_app b) /\ exists raw, 0 <= raw <= 4095 /\
    raw = inputs (b_adc3 b) ADC_LIGHT_DEV_CHANNEL mod 2 ^ 12 /\
    b_props b' = on_environment (with_light_value (4000 - raw)) (b_props b) /\
    b_oled b' = b_oled b ++ light_shown (4000 - raw)).
Proof.
  intros Hb Hd. unfold my_light_entry, light_adc, oled, app_gets, app_modify, Set_Devpro_light. wp_steps.
  rewrite bool_decide_true by done. apply wp_zoom. eapply wp_mono; [apply rt_adc_read_spec; by split|].
  cbn [view board_adc3]. intros v a (Hv & Hr & _ & _). board_steps. apply print_light_spec. board_steps.
  assert (i32 (u32 (4000 - u32 v)) = 4000 - v) as Ei.
  { rewrite swrap_wrap, (wrap_small 32 v), swrap_small by lia. done. }
  rewrite Ei. clear Ei. split_and!; [|done|done|exists v; split_and!; [lia|lia|exact Hv|reflexivity|reflexivity]].
  destruct Hb as [Hp Ht Hdv Ha]. split; cbn; done.
Qed.

Lemma mq2_entry_spec b :
  board_ok b -> is_Some (adc_mq2_dev (b_app b)) ->
  wp my_mq2_entry b (fun _ b' => board_ok b' /\ adc_light_dev (b_app b') = adc_light_dev (b_app b) /\
    adc_mq2_dev (b_app b') = adc_mq2_dev (b_app b) /\ exists raw, 0 <= raw <= 4095 /\
    raw = inputs (b_adc2 b) ADC_MQ2_DEV_CHANNEL mod 2 ^ 12 /\
    b_props b' = on_environment (with_smoke_value raw) (b_props b) /\
    b_oled b' = b_oled b ++ smoke_shown raw).
Proof.
  intros Hb Hd. unfold my_mq2_entry, mq2_adc, oled, app_gets, app_modify, Set_Devpro_smoke. wp_steps.
  rewrite bool_decide_true by done. apply wp_zoom. eapply wp_mono; [apply rt_adc_read_spec; by split|].
  cbn [view board_adc2]. intros v a (Hv & Hr & _ & _). board_steps. apply print_mq2_spec. board_steps.
  assert (i32 (u32 v) = v) as Ei by (rewrite swrap_wrap, swrap_small by lia; done).
  rewrite Ei. clear Ei. split_and!; [|done|done|exists v; split_and!; [lia|lia|exact Hv|reflexivity|reflexivity]].
  destruct Hb as [Hp Ht Hdv Ha]. split; cbn; done.
Qed.

(** The sample word packs the humidity above the temperature. *)
Lemma unpack_sample t h :
  0 <= t < 256 -> 0 <= h < 256 ->
  u8 (Z.shiftr (Z.land (Z.lor (Z.shiftl h 16) t) 0xffff) 0) = t /\
  u8 (Z.shiftr (Z.land (Z.lor (Z.shiftl h 16) t) 0xffff0000) 16) = h.
Proof.
  intros Ht Hh. unfold wrap.
  assert (forall x n, 0 <= x < 256 -> 8 <= n -> Z.testbit x n = false) as Hhi.
  { intros x n Hx Hn. destruct (Z.eq_dec x 0) as [->|]; [apply Z.bits_0|].
    apply Z.bits_above_log2; [lia|]. apply Z.log2_lt_pow2; [lia|].
    apply Z.lt_le_trans with (2 ^ 8); [lia|]. apply Z.pow_le_mono_r; lia. }
  split; apply Z.bits_inj'; intros n Hn;
    (destruct (Z.ltb_spec n 8) as [Hlt|Hge];
     [rewrite Z.mod_pow2_bits_low by lia|rewrite Z.mod_pow2_bits_high by lia; by rewrite Hhi]).
  - rewrite Z.shiftr_0_r, Z.land_spec, Z.lor_spec, Z.shiftl_spec_low by lia. cbn [orb].
    change 0xffff with (Z.ones 16). rewrite Z.ones_spec_low by lia. apply andb_true_r.
  - rewrite Z.shiftr_spec, Z.land_spec, Z.lor_spec, Z.shiftl_spec, (Hhi t) by lia.
    rewrite orb_false_r. replace (n + 16 - 16) with n by lia.
    change 0xffff0000 with (Z.shiftl (Z.ones 16) 16). rewrite Z.shiftl_spec by lia.
    replace (n + 16 - 16) with n by lia. rewrite Z.ones_spec_low by lia. apply andb_true_r.
Qed.

Lemma read_temp_spec sample b :
  board_ok b -> 0 <= sample < 2 ^ 31 ->
  wp (my_read_temp_entry 1 sample) b (fun go b' => go = true /\ board_ok b' /\
    adc_light_dev (b_app b') = adc_light_dev (b_app b) /\
    adc_mq2_dev (b_app b') = adc_mq2_dev (b_app b) /\
    b_props b' = on_environment (with_climate (u8 (Z.shiftr (Z.land sample 0xffff) 0))
      (u8 (Z.shiftr (Z.land sample 0xffff0000) 16))) (b_props b) /\
    b_oled b' = b_oled b ++ climate_shown (u8 (Z.shiftr (Z.land sample 0xffff) 0))
      (u8 (Z.shiftr (Z.land sample 0xffff0000) 16))).
Proof.
  intros Hb Hs. unfold my_read_temp_entry. cbn [Z.eqb Pos.eqb negb].
  replace (0 <=? sample) with true by lia. unfold show_Data, oled, app_gets, app_modify, data, Set_Devpro_temp, Set_Devpro_humi.
  set (t := u8 (Z.shiftr (Z.land sample 0xffff) 0)).
  set (h := u8 (Z.shiftr (Z.land sample 0xffff0000) 16)).
  assert (0 <= t < 256 /\ 0 <= h < 256) as [Ht Hh] by (split; apply (wrap_range 8); lia).
  board_steps. apply print_dht_spec. rewrite !(wrap_small 8) by lia. board_steps.
  rewrite !(swrap_small 32) by lia. split_and!; try done.
  destruct Hb as [Hp Htm Hdv Ha]. split; cbn; done.
Qed.
End Facts.

(** Sampling: on a good board with both converters found, one turn of each sampling
    thread runs without fault, keeps the board good and stores exactly the converted
    reading: 4000 minus the light converter's 12-bit value, the smoke converter's value,
    and the temperature and humidity packed in the DHT11 sample. All stored values then
    lie in their sensors' ranges, the light intensity between -95 and 4000, and they are what
    the display shows. *)
Theorem sampling (b : board) (t h : Z) :
  board_ok b -> is_Some (adc_light_dev (b_app b)) -> is_Some (adc_mq2_dev (b_app b)) ->
  0 <= t < 256 -> 0 <= h < 128 ->
  wp (my_light_entry ;;; my_mq2_entry ;;; my_read_temp_entry 1 (Z.lor (Z.shiftl h 16) t)) b
    (fun _ b' => board_ok b' /\ my_devices (b_props b') = my_devices (b_props b) /\
      my_thresholds (b_props b') = my_thresholds (b_props b) /\
      environment_ok (my_environment (b_props b')) /\
      light (my_environment (b_props b')) = 4000 - inputs (b_adc3 b) ADC_LIGHT_DEV_CHANNEL mod 2 ^ 12 /\
      temp (my_environment (b_props b')) = t /\ humi (my_environment (b_props b')) = h /\
      b_oled b' = b_oled b ++ light_shown (light (my_environment (b_props b'))) ++
        smoke_shown (smoke (my_environment (b_props b'))) ++ climate_shown t h).
Proof.
  intros Hb Hl Hm Ht Hh. wp_steps. eapply wp_mono; [by apply light_entry_spec|]. cbn beta.
  intros _ b1 (Hb1 & Hl1 & Hm1 & raw & Hraw & Er & Hp1 & Ho1). rewrite <- Hm1 in Hm. wp_steps.
  eapply wp_mono; [by apply mq2_entry_spec|]. cbn beta.
  intros _ b2 (Hb2 & _ & _ & raw2 & Hraw2 & _ & Hp2 & Ho2).
  destruct (unpack_sample t h) as [Et Eh]; [lia|lia|].
  eapply wp_mono; [apply read_temp_spec; [done|]|].
  { split.
    - apply Z.lor_nonneg. split; [apply Z.shiftl_nonneg; lia|lia].
    - apply Z.lt_le_trans with (2 ^ 31); [|lia]. rewrite Z.shiftl_mul_pow2 by lia.
      assert (Z.lor (h * 2 ^ 16) t <= h * 2 ^ 16 + t); [|lia].
      rewrite <- Z.add_lor_land. pose proof (Z.land_nonneg (h * 2 ^ 16) t). lia. }
  cbn beta. intros go b3 (-> & Hb3 & _ & _ & Hp3 & Ho3). split; [done|].
  rewrite Hp3, Hp2, Hp1, Ho3, Ho2, Ho1. cbn. rewrite Et, Eh, <- !app_assoc. split_and!; try done; try lia.
  unfold environment_ok. cbn. lia.
Qed.
