(* ===== verification/Climate.v ===== *)
(** * The climate thread

    Models the thread of [applications/src/my_dht11.c] from its start: it finds the
    sensor's device, opens it, asks for a data rate, and then reads a sample a second until a
    read fails. The device is that of SensorDevice.v; the DHT11 package below it is a
    parameter, two operations on a state of its own. The turn that stores a sample is in
    Sensors.v. *)

From stdpp Require Import base numbers list strings.
From Stdlib Require Import ZArith Lia.
From S2P Require Import Prelude Gpio Device SensorDevice CFloat Tim HwTimer Pwm Adc Json Display DataUpload Actuators Sensors.

Open Scope Z_scope.

(** The board with the sensor and its driver's state. *)
Record climate (CB D : Type) : Type := Climate { c_board : board; c_members : members CB; c_driver : D }.
Arguments Climate {CB D} c_board c_members c_driver.
Arguments c_board {CB D} c.
Arguments c_members {CB D} c.
Arguments c_driver {CB D} c.

Section Lenses.
Context {CB D : Type}.

#[export, refine] Instance climate_board : Lens (climate CB D) board :=
  {| view := c_board; over := fun b c => Climate b (c_members c) (c_driver c) |}.
Proof. all: intros; try destruct s; reflexivity. Defined.
#[export, refine] Instance climate_members : Lens (climate CB D) (members CB) :=
  {| view := c_members; over := fun m c => Climate (c_board c) m (c_driver c) |}.
Proof. all: intros; try destruct s; reflexivity. Defined.
#[export, refine] Instance climate_driver : Lens (climate CB D) D :=
  {| view := c_driver; over := fun d c => Climate (c_board c) (c_members c) d |}.
Proof. all: intros; try destruct s; reflexivity. Defined.
#[export] Instance climate_gpio : Lens (climate CB D) (gpio key_handler) := lens_compose climate_board board_gpio.
#[export] Instance climate_objs : Lens (climate CB D) object_list := lens_compose climate_board board_objs.
End Lenses.

Definition dht11_name : list Z := str "temp_dht11".

Section Thread.
Context {CB D : Type}.
(** The package's operations; the sensor's address, its interrupt routine, the address of
    the thread's variable [get_data_freq], and the allocator's answer. *)
Variables (fetch : Z -> M D (Z * list rt_sensor_data)) (control : Z -> Z -> M D rt_err_t).
Variables (self freq : Z) (irq_h : key_handler) (rt_malloc_ok : bool).
Implicit Types s : climate CB D.

Definition dht11_ops : SensorDriver (climate CB D) :=
  {| fetch_data := fun len => zoom (fetch len); ops_control := Some (fun cmd arg => zoom (control cmd arg));
     irq_handle := fun _ => None |}.
#[local] Existing Instance dht11_ops.

#[local] Instance sensor_ops : DeviceDriver (climate CB D) CB Z unit (list rt_sensor_data) :=
  rt_sensor_ops self irq_h rt_malloc_ok.

(** ** The thread *)

(** Up to the loop: whether it is reached. *)
Definition read_temp_start : M (climate CB D) bool :=
  dev <- zoom (rt_device_find dht11_name) ;;
  match dev with
  | None => ret false
  | Some _ =>
      r <- rt_device_open RT_DEVICE_FLAG_RDWR ;;
      if negb (r =? RT_EOK) then ret false
      else rt_device_control RT_SENSOR_CTRL_SET_ODR freq ;;; ret true
  end.

(** One turn of the loop: whether there is another. *)
Definition read_temp_turn : M (climate CB D) bool :=
  res <- rt_device_read 0 1 [] ;;
  go <- zoom (my_read_temp_entry res.1 (data_temp (hd (Sensor_data 0 0 []) res.2))) ;;
  if negb go then rt_device_close ;;; ret false else ret true.

Fixpoint read_temp_loop (n : nat) : M (climate CB D) bool :=
  match n with
  | O => ret true
  | S n => go <- read_temp_turn ;; if go then read_temp_loop n else ret false
  end.

(** The thread, for at most [n] turns: whether it still runs. *)
Definition read_temp_thread (n : nat) : M (climate CB D) bool :=
  go <- read_temp_start ;; if go then read_temp_loop n else ret false.
End Thread.

(** ** What the thread does *)

(** The shared data after a sample. *)
Definition store_sample (p : props) (d : rt_sensor_data) : props :=
  if 0 <=? data_temp d then
    on_environment (with_climate (u8 (Z.shiftr (Z.land (data_temp d) 0xffff) 0))
      (u8 (Z.shiftr (Z.land (data_temp d) 0xffff0000) 16))) p
  else p.

(** The sensor's device in a phase: it can be read, has neither a module nor an interrupt
    pin, and nothing is buffered. *)
Record sensor_at {CB : Type} (p : phase) (m : members CB) : Prop := {
  at_phase : in_phase p (sdev (here m));
  at_flag : has RT_DEVICE_FLAG_RDONLY (flag (sdev (here m))) = true;
  at_module : module_lock m = None;
  at_pin : irq_pin (sconfig (here m)) = RT_PIN_NONE;
  at_empty : data_len (here m) = 0
}.

Section Facts.
Context {CB D : Type}.
Variables (fetch : Z -> M D (Z * list rt_sensor_data)) (control : Z -> Z -> M D rt_err_t).
Variables (self freq : Z) (irq_h : key_handler) (rt_malloc_ok : bool).
Implicit Types s : climate CB D.

(** What holds of the package's state after a failed read. *)
Variable failed : D -> Prop.

(** The package yields the samples [l], one a read, and then fails. *)
Fixpoint serves (l : list rt_sensor_data) (d : D) : Prop :=
  wp (fetch 1) d (fun r d' => match l with
                              | [] => r = (0, []) /\ failed d'
                              | x :: l => r = (1, [x]) /\ serves l d'
                              end).

(** [control] preserves both. *)
Definition preserves (P : D -> Prop) : Prop := forall cmd arg d, P d -> wp (control cmd arg) d (fun _ d' => P d').
Hypothesis control_serves : forall l, preserves (serves l).
Hypothesis control_failed : preserves failed.

#[local] Instance dht11_driver : SensorDriver (climate CB D) := dht11_ops fetch control.
#[local] Instance sensor_device : DeviceDriver (climate CB D) CB Z unit (list rt_sensor_data) :=
  rt_sensor_ops self irq_h rt_malloc_ok.

Lemma dht11_control : ops_control = Some (fun cmd arg => zoom (S := climate CB D) (control cmd arg)).
Proof. reflexivity. Qed.

(** What the driver leaves as it is. *)
Definition keeps (b : board) (P : D -> Prop) s : Prop := c_board s = b /\ P (c_driver s).

Lemma keeps_over b P (m : members CB) s : keeps b P s -> keeps b P (over m s).
Proof. exact id. Qed.

Lemma control_keeps b P : preserves P -> forall cmd arg s,
  keeps b P s -> wp (zoom (S := climate CB D) (control cmd arg)) s (fun _ s' => (view s' : members CB) = view s /\ keeps b P s').
Proof.
  intros HP cmd arg s [Hb Hl]. apply wp_zoom. eapply wp_mono; [by apply HP|]. cbn beta. intros r d' Hd. by split.
Qed.

Lemma has_readable (f : Z) : has RT_DEVICE_FLAG_RDONLY f = Z.testbit f 0.
Proof. apply (has_testbit 0). lia. Qed.

Lemma sensor_activates b P s :
  keeps b P s -> sensor_at Closed (c_members s) ->
  wp open_activate s (fun r s' => r = RT_EOK /\ keeps b P s' /\ sensor_at Closed (c_members s') /\
    has RT_DEVICE_FLAG_ACTIVATED (flag (sdev (here (c_members s')))) = true).
Proof.
  intros Hk [[Hst [Hr Ho]] Hf Hl Hp Hn]. unfold open_activate, dev_gets, dev_modify. wp_steps.
  change (view s) with (sdev (here (c_members s))).
  destruct (has RT_DEVICE_FLAG_ACTIVATED _) eqn:Ea; [apply wp_ret; split; [done|]; split; [done|]; split; [split; [by split|done..]|done]|].
  cbn [device_init sensor_device rt_sensor_ops]. wp_steps. cbn [Z.eqb RT_EOK negb]. wp_steps.
  split; [done|]. split; [done|]. rewrite has_readable in Hf. rewrite has_standalone in Hst. rewrite has_open in Ho.
  split; [split; try done|]; cbn; unfold in_phase, set_flag; cbn [flag ref_count open_flag];
    rewrite ?has_standalone, ?has_readable, ?has_activated, Z.lor_spec; [rewrite Hst; by split_and!|by rewrite Hf|apply orb_true_r].
Qed.

(** Opening the closed device. *)
Lemma sensor_opens b P s :
  preserves P -> keeps b P s -> sensor_at Closed (c_members s) ->
  wp (rt_device_open RT_DEVICE_FLAG_RDWR) s (fun r s' => r = RT_EOK /\ keeps b P s' /\ sensor_at Opened (c_members s') /\
    sc_mode (sconfig (here (c_members s'))) = RT_SENSOR_MODE_POLLING).
Proof.
  intros HP Hk Hs. unfold rt_device_open, dev_gets, dev_modify. wp_steps.
  eapply wp_mono; [by apply (sensor_activates b P)|]. cbn beta. intros r s1 (-> & Hk1 & [[Hst [Hr Ho]] Hf Hl Hp Hn] & Hact).
  cbn [Z.eqb RT_EOK negb]. wp_steps. change (view s1) with (sdev (here (c_members s1))). rewrite Hst, Ho. cbn [andb]. wp_steps.
  cbn [device_open sensor_device rt_sensor_ops].
  eapply wp_mono; [apply (rt_sensor_open_spec self irq_h rt_malloc_ok (keeps b P) _ (keeps_over b P) dht11_control (control_keeps b P HP));
    [done|change (module_lock (c_members s1) <> Some false); by rewrite Hl|done]|].
  cbn beta. intros r s2 H2. change (@view _ (members CB) _ s1) with (c_members s1) in H2. unfold lacks_buffer in H2. rewrite Hl, andb_false_r in H2.
  unfold mode_of in H2. rewrite Hf in H2. change (has RT_DEVICE_FLAG_RDONLY RT_DEVICE_FLAG_RDWR) with true in H2. cbn [andb] in H2.
  destruct H2 as [-> (rc & Em2 & Hk2)]. unfold with_buffer, lacks_buffer in Em2. cbv zeta beta in Em2.
  change (@view _ (members CB) _ s2) with (c_members s2) in Em2. change (@view _ (members CB) _ s1) with (c_members s1) in Em2.
  rewrite Hl in Em2.
  change (counts_as_open RT_EOK) with true. cbv iota. wp_steps.
  assert (sdev (here (c_members s2)) = sdev (here (c_members s1)) /\ module_lock (c_members s2) = module_lock (c_members s1) /\
    irq_pin (sconfig (here (c_members s2))) = irq_pin (sconfig (here (c_members s1))) /\
    data_len (here (c_members s2)) = data_len (here (c_members s1)) /\
    sc_mode (sconfig (here (c_members s2))) = RT_SENSOR_MODE_POLLING) as (E1 & E2 & E3 & E4 & E5)
    by (rewrite Em2; cbn; unfold powered; by destruct (rc =? RT_EOK)).
  change (view s2) with (sdev (here (c_members s2))). rewrite !view_over. cbn [ref_count set_ref_count set_open_flag].
  rewrite E1, Hr. change (u8 (0 + 1)) with 1. cbn [Z.eqb negb rt_assert]. wp_steps.
  split; [done|]. split; [exact Hk2|]. split; [|exact E5].
  split; [|exact Hf|cbn; by rewrite E2|cbn; by rewrite E3|cbn; by rewrite E4].
  unfold in_phase, set_ref_count, set_open_flag. cbn. split_and!; try done.
  by rewrite has_open, Z.lor_spec, orb_true_r.
Qed.

(** Asking for a data rate. *)
Lemma sensor_rate b P s :
  preserves P -> keeps b P s -> sensor_at Opened (c_members s) ->
  wp (rt_device_control RT_SENSOR_CTRL_SET_ODR freq) s (fun r s' => keeps b P s' /\ sensor_at Opened (c_members s') /\
    sc_mode (sconfig (here (c_members s'))) = sc_mode (sconfig (here (c_members s))) /\
    (r = RT_EOK -> sc_odr (sconfig (here (c_members s'))) = Z.land freq 0xFFFF)).
Proof.
  intros HP Hk Hs. unfold rt_device_control. cbn [device_control sensor_device rt_sensor_ops]. unfold rt_sensor_control. wp_steps.
  apply take_module_spec; [change (module_lock (c_members s) <> Some false); by rewrite (at_module _ _ Hs)|]. wp_steps.
  cbn [Z.eqb Pos.eqb RT_SENSOR_CTRL_SET_ODR RT_SENSOR_CTRL_GET_ID RT_SENSOR_CTRL_GET_INFO RT_SENSOR_CTRL_SET_RANGE]. wp_steps.
  eapply wp_mono; [apply (control_op_spec (keeps b P) _ dht11_control (control_keeps b P HP)); exact Hk|]. cbn beta.
  intros r s1 [Em1 Hk1]. wp_steps. change (c_members s1 = c_members s) in Em1.
  assert (forall s2, keeps b P s2 -> sensor_at Opened (c_members s2) ->
      sc_mode (sconfig (here (c_members s2))) = sc_mode (sconfig (here (c_members s))) ->
      (r = RT_EOK -> sc_odr (sconfig (here (c_members s2))) = Z.land freq 0xFFFF) ->
    wp (release_module (CB := CB)) s2 (fun _ s' => wp (ret r) s' (fun r s' => keeps b P s' /\ sensor_at Opened (c_members s') /\
      sc_mode (sconfig (here (c_members s'))) = sc_mode (sconfig (here (c_members s))) /\
      (r = RT_EOK -> sc_odr (sconfig (here (c_members s'))) = Z.land freq 0xFFFF)))) as Hend.
  { intros s2 Hk2 Hs2 Hm2 Hr2. unfold release_module.
    apply take_module_spec; [change (module_lock (c_members s2) <> Some false); by rewrite (at_module _ _ Hs2)|]. by wp_steps. }
  unfold when. destruct (Z.eqb_spec r RT_EOK) as [Er|Er].
  - unfold set_odr_. eapply wp_mono; [by apply (on_sensor_spec (keeps b P) (keeps_over b P))|]. cbn beta. intros _ s2 [Em2 Hk2].
    wp_steps. set (f := fun c : rt_sensor_config => _) in Em2.
    assert (c_members s2 = on_config f (c_members s)) as E2 by (rewrite <- Em1; exact Em2).
    apply Hend; [done| |by rewrite E2|by rewrite E2]. rewrite E2. destruct Hs. by split.
  - wp_steps. apply Hend; [done| | |done]; by rewrite Em1.
Qed.

(** Closing after a read that failed. *)
Lemma sensor_closes b P s :
  preserves P -> keeps b P s -> sensor_at Opened (c_members s) ->
  wp rt_device_close s (fun r s' => r = RT_EOK /\ keeps b P s' /\ sensor_at Closed (c_members s') /\
    sc_mode (sconfig (here (c_members s'))) = sc_mode (sconfig (here (c_members s)))).
Proof.
  intros HP Hk [[Hst (Hr & Ho & Hact)] Hf Hl Hp Hn]. unfold rt_device_close, dev_gets, dev_modify. wp_steps.
  change (view s) with (sdev (here (c_members s))). rewrite Hr. cbn [Z.eqb]. wp_steps. rewrite view_over.
  cbn [ref_count set_ref_count]. change (view s) with (sdev (here (c_members s))). rewrite Hr.
  change (u8 (1 - 1)) with 0. cbn [Z.eqb negb]. wp_steps.
  cbn [device_close sensor_device rt_sensor_ops]. set (s1 := over _ s).
  assert (keeps b P s1) as Hk1 by done.
  eapply wp_mono; [apply (rt_sensor_close_spec (keeps b P) _ (keeps_over b P) dht11_control (control_keeps b P HP));
    [done|change (module_lock (c_members s) <> Some false); by rewrite Hl|exact Hp]|].
  cbn beta. intros r s2 [-> (rc & Em2 & Hk2)]. change (c_members s2 = released (on_config (powered rc RT_SENSOR_POWER_DOWN) (c_members s1))) in Em2.
  assert (c_members s2 = on_config (powered rc RT_SENSOR_POWER_DOWN) (c_members s1)) as Em.
  { rewrite Em2. unfold released. cbn. by rewrite Hl. }
  change (counts_as_open RT_EOK) with true. cbn [when]. wp_steps. split; [done|]. split; [exact Hk2|].
  change (view s2) with (sdev (here (c_members s2))). split.
  - assert (irq_pin (powered rc RT_SENSOR_POWER_DOWN (sconfig (here (c_members s)))) = RT_PIN_NONE) as Hp2
      by (unfold powered; by destruct (rc =? RT_EOK)).
    split; cbn; rewrite Em; cbn; done.
  - cbn. rewrite Em. cbn. unfold powered. by destruct (rc =? RT_EOK).
Qed.

(** *** The samples *)

Lemma serves_nil d : serves [] d -> wp (fetch 1) d (fun r d' => r = (0, []) /\ failed d').
Proof. exact id. Qed.
Lemma serves_cons x l d : serves (x :: l) d -> wp (fetch 1) d (fun r d' => r = (1, [x]) /\ serves l d').
Proof. exact id. Qed.

(** A read, whatever the package answers. *)
Lemma sensor_reads s (Q : Z * list rt_sensor_data -> climate CB D -> Prop) :
  sensor_at Opened (c_members s) ->
  wp (fetch 1) (c_driver s) (fun r d => Q r (Climate (c_board s) (c_members s) d)) ->
  wp (rt_device_read 0 1 []) s Q.
Proof.
  intros [[_ (Hr & _)] _ Hl _ Hn] Hw. unfold rt_device_read, dev_gets. wp_steps.
  change (view s) with (sdev (here (c_members s))). rewrite Hr. cbn [Z.eqb device_read sensor_device rt_sensor_ops].
  apply read_fetches; [exact Hl|exact Hn|done|]. cbn [fetch_data dht11_driver dht11_ops]. apply wp_zoom.
  eapply wp_mono; [exact Hw|]. cbn beta. intros r d HQ. by split.
Qed.

(** The turn of the board's part on any sample. *)
Lemma store_spec x b :
  board_ok b -> int_range (data_temp x) ->
  wp (my_read_temp_entry 1 (data_temp x)) b (fun go b' => go = true /\ board_ok b' /\ b_props b' = store_sample (b_props b) x).
Proof.
  intros Hb Hx. unfold store_sample. destruct (Z.leb_spec 0 (data_temp x)) as [H0|H0].
  - eapply wp_mono; [apply read_temp_spec; [done|unfold int_range, INT_MAX in Hx; lia]|]. cbn beta.
    intros go b' (-> & Hb' & _ & _ & Ep & _). by split_and!.
  - unfold my_read_temp_entry. cbn [Z.eqb Pos.eqb negb]. rewrite (proj2 (Z.leb_gt 0 _)) by done. by wp_steps.
Qed.

Lemma turn_stores x l s :
  board_ok (c_board s) -> serves (x :: l) (c_driver s) -> sensor_at Opened (c_members s) -> int_range (data_temp x) ->
  wp (read_temp_turn fetch control self irq_h rt_malloc_ok) s (fun go s' => go = true /\
    board_ok (c_board s') /\ b_props (c_board s') = store_sample (b_props (c_board s)) x /\
    serves l (c_driver s') /\ c_members s' = c_members s).
Proof.
  intros Hb Hl Hs Hx. unfold read_temp_turn. wp_steps. apply sensor_reads; [done|].
  eapply wp_mono; [by apply serves_cons|]. cbn beta. intros r d [-> Hd]. wp_steps. cbn [fst snd hd].
  apply wp_zoom. eapply wp_mono; [by apply store_spec|]. cbn beta. intros go b' (-> & Hb' & Ep). cbn [negb]. wp_steps.
  by split_and!.
Qed.

Lemma turn_ends s :
  serves [] (c_driver s) -> sensor_at Opened (c_members s) ->
  wp (read_temp_turn fetch control self irq_h rt_malloc_ok) s (fun go s' => go = false /\ keeps (c_board s) failed s' /\
    sensor_at Closed (c_members s') /\ sc_mode (sconfig (here (c_members s'))) = sc_mode (sconfig (here (c_members s)))).
Proof.
  intros Hl Hs. unfold read_temp_turn. wp_steps. apply sensor_reads; [done|].
  eapply wp_mono; [by apply serves_nil|]. cbn beta. intros r d [-> Hd]. wp_steps. cbn [fst snd hd].
  apply wp_zoom. unfold my_read_temp_entry. cbn [Z.eqb negb]. wp_steps. cbn [negb]. wp_steps.
  eapply wp_mono; [apply (sensor_closes (c_board s) failed); [exact control_failed|by split|exact Hs]|]. cbn beta.
  intros r s' (_ & Hk & Hs' & Em). wp_steps. by split_and!.
Qed.

(** The loop on samples and a failure. *)
Lemma loop_stores l s :
  board_ok (c_board s) -> serves l (c_driver s) -> sensor_at Opened (c_members s) -> Forall (fun x => int_range (data_temp x)) l ->
  wp (read_temp_loop fetch control self irq_h rt_malloc_ok (Datatypes.S (length l))) s (fun go s' => go = false /\
    board_ok (c_board s') /\ b_props (c_board s') = foldl store_sample (b_props (c_board s)) l /\ failed (c_driver s') /\
    sensor_at Closed (c_members s') /\ sc_mode (sconfig (here (c_members s'))) = sc_mode (sconfig (here (c_members s)))).
Proof.
  intros Hb Hl Hs Hr. revert s Hb Hl Hs. induction Hr as [|x l Hx Hr IH]; intros s Hb Hl Hs; cbn [read_temp_loop length].
  - wp_steps. eapply wp_mono; [by apply turn_ends|]. cbn beta. intros go s' (-> & [Eb Hd] & Hs' & Em). wp_steps.
    rewrite Eb. by split_and!.
  - wp_steps. eapply wp_mono; [by apply (turn_stores x l)|]. cbn beta. intros go s' (-> & Hb' & Ep & Hd & Em).
    cbn [foldl]. rewrite <- Ep, <- Em. apply IH; [done|done|by rewrite Em].
Qed.

(** Up to the loop. *)
Lemma start_opens P s :
  preserves P -> P (c_driver s) -> is_Some (rt_object_find dht11_name (b_objs (c_board s))) -> sensor_at Closed (c_members s) ->
  wp (read_temp_start fetch control self freq irq_h rt_malloc_ok) s (fun go s' => go = true /\ keeps (c_board s) P s' /\
    sensor_at Opened (c_members s') /\ sc_mode (sconfig (here (c_members s'))) = RT_SENSOR_MODE_POLLING).
Proof.
  intros HP Hd [dev Hdev] Hs. unfold read_temp_start, rt_device_find. wp_steps. apply wp_zoom. wp_steps.
  rewrite over_view. change (view s) with (b_objs (c_board s)). rewrite Hdev. wp_steps.
  eapply wp_mono; [apply (sensor_opens (c_board s) P); [done|by split|done]|]. cbn beta. intros r s1 (-> & Hk1 & Hs1 & Hm1).
  cbn [Z.eqb RT_EOK negb]. wp_steps. eapply wp_mono; [by apply (sensor_rate (c_board s) P)|]. cbn beta.
  intros r s2 (Hk2 & Hs2 & Hm2 & _). wp_steps. split_and!; try done. by rewrite Hm2.
Qed.

(** C8. The climate thread: given the sensor's device, closed and without an interrupt
    pin, and a package that yields the samples [l] and then fails, the thread opens the
    device for polling, stores every sample that is not negative as temperature and
    humidity in the shared data, in order, keeps the board in order, and when the read
    fails closes the device and ends. *)
Theorem climate_thread l s :
  board_ok (c_board s) -> serves l (c_driver s) -> is_Some (rt_object_find dht11_name (b_objs (c_board s))) ->
  sensor_at Closed (c_members s) -> Forall (fun x => int_range (data_temp x)) l ->
  wp (read_temp_thread fetch control self freq irq_h rt_malloc_ok (Datatypes.S (length l))) s (fun go s' => go = false /\
    board_ok (c_board s') /\ b_props (c_board s') = foldl store_sample (b_props (c_board s)) l /\
    sensor_at Closed (c_members s') /\ sc_mode (sconfig (here (c_members s'))) = RT_SENSOR_MODE_POLLING).
Proof.
  intros Hb Hl Hdev Hs Hr. unfold read_temp_thread. wp_steps. eapply wp_mono; [by apply (start_opens (serves l))|]. cbn beta.
  intros go s1 (-> & [Eb Hl1] & Hs1 & Hm1). rewrite <- Eb. eapply wp_mono; [apply (loop_stores l); [by rewrite Eb|done..]|].
  cbn beta. intros go s2 (-> & Hb2 & Ep & _ & Hs2 & Em). rewrite Em. by split_and!.
Qed.

(** The data rate: the thread asks for 1 Hz with a pointer to the number, and the device
    class takes the argument itself for the rate: what is recorded is the lower half of the
    address. *)
Theorem rate_is_an_address P s :
  preserves P -> P (c_driver s) -> (forall cmd arg d, P d -> wp (control cmd arg) d (fun r _ => r = RT_EOK)) ->
  sensor_at Opened (c_members s) ->
  wp (rt_device_control RT_SENSOR_CTRL_SET_ODR freq) s (fun r s' =>
    r = RT_EOK /\ sc_odr (sconfig (here (c_members s'))) = Z.land freq 0xFFFF).
Proof.
  intros HP Hd Hacc Hs. pose proof (sensor_rate (c_board s) P s HP (conj eq_refl Hd) Hs) as Hw.
  assert (wp (rt_device_control RT_SENSOR_CTRL_SET_ODR freq) s (fun r _ => r = RT_EOK)) as Hr.
  { unfold rt_device_control. cbn [device_control sensor_device rt_sensor_ops]. unfold rt_sensor_control. wp_steps.
    apply take_module_spec; [change (module_lock (c_members s) <> Some false); by rewrite (at_module _ _ Hs)|]. wp_steps.
    cbn [Z.eqb Pos.eqb RT_SENSOR_CTRL_SET_ODR RT_SENSOR_CTRL_GET_ID RT_SENSOR_CTRL_GET_INFO RT_SENSOR_CTRL_SET_RANGE]. wp_steps.
    unfold control_op. rewrite dht11_control. apply wp_zoom. eapply wp_mono; [by apply Hacc|]. cbn beta. intros r d ->. wp_steps.
    change (RT_EOK =? RT_EOK) with true. cbn [when]. unfold set_odr_, on_sensor. apply wp_zoom, wp_zoom, wp_modify. wp_steps.
    unfold release_module. apply take_module_spec; [|by wp_steps].
    change (module_lock (c_members s) <> Some false). by rewrite (at_module _ _ Hs). }
  unfold wp in *. destruct (rt_device_control _ _ s) as [[r s']|]; [|done]. split; [done|]. by apply Hw.
Qed.
End Facts.
