(* ===== verification/RingBuffer.v ===== *)
(** * Ring buffer

    Models [rt-thread/components/drivers/src/ringbuffer.c]: the byte ring under the pipes
    and the serial ports. Two 15-bit indices run over the pool; a mirror bit with each tells
    a full ring from an empty one. The operations are proved to implement a bounded queue,
    except [rt_ringbuffer_put_force], which in one of its cases empties the ring. *)

From stdpp Require Import base numbers list.
From Stdlib Require Import ZArith Lia.
From S2P Require Import Prelude.

(** [struct rt_ringbuffer]; the pool is [buffer_ptr]. *)
Record rt_ringbuffer : Type := RingBuffer {
  buffer_ptr : bytes;
  read_mirror : bool;
  read_index : Z;
  write_mirror : bool;
  write_index : Z;
  buffer_size : Z
}.

Definition set_pool (l : bytes) (rb : rt_ringbuffer) : rt_ringbuffer :=
  RingBuffer l (read_mirror rb) (read_index rb) (write_mirror rb) (write_index rb) (buffer_size rb).
(** The indices are bit fields of 15 bits. *)
Definition set_read (m : bool) (i : Z) (rb : rt_ringbuffer) : rt_ringbuffer :=
  RingBuffer (buffer_ptr rb) m (wrap 15 i) (write_mirror rb) (write_index rb) (buffer_size rb).
Definition set_write (m : bool) (i : Z) (rb : rt_ringbuffer) : rt_ringbuffer :=
  RingBuffer (buffer_ptr rb) (read_mirror rb) (read_index rb) m (wrap 15 i) (buffer_size rb).

(** ** Memory *)

(** Store at an offset of the pool. *)
Definition pool_store (i : Z) (l : bytes) : M rt_ringbuffer unit :=
  p <- gets buffer_ptr ;;
  if (0 <=? i) && (i + Z.of_nat (length l) <=? Z.of_nat (length p)) then
    modify (set_pool (take (Z.to_nat i) p ++ l ++ drop (Z.to_nat i + length l) p))
  else raise OutOfBounds.

(** [n] bytes of a memory block from offset [i]. *)
Definition block (l : bytes) (i n : Z) : M rt_ringbuffer bytes :=
  if (0 <=? i) && (0 <=? n) && (i + n <=? Z.of_nat (length l)) then ret (take (Z.to_nat n) (drop (Z.to_nat i) l))
  else raise OutOfBounds.
Definition pool_load (i n : Z) : M rt_ringbuffer bytes :=
  p <- gets buffer_ptr ;; block p i n.

(** [memcpy(&buffer_ptr[i], &ptr[k], n)]. *)
Definition copy_in (i : Z) (ptr : bytes) (k n : Z) : M rt_ringbuffer unit :=
  d <- block ptr k n ;; pool_store i d.

(** ** Operations *)

Inductive rt_ringbuffer_state : Set := RT_RINGBUFFER_EMPTY | RT_RINGBUFFER_FULL | RT_RINGBUFFER_HALFFULL.

Definition rt_ringbuffer_status (rb : rt_ringbuffer) : rt_ringbuffer_state :=
  if read_index rb =? write_index rb then
    if eqb (read_mirror rb) (write_mirror rb) then RT_RINGBUFFER_EMPTY else RT_RINGBUFFER_FULL
  else RT_RINGBUFFER_HALFFULL.

(** The size is a [rt_int16_t] here and a [rt_uint16_t] in [rt_ringbuffer_create]. *)
Definition rt_ringbuffer_init {S : Type} (pool : bytes) (size : Z) : M S rt_ringbuffer :=
  let size := swrap 16 size in
  rt_assert (0 <? size) ;;;
  ret (RingBuffer pool false 0 false 0 (RT_ALIGN_DOWN size RT_ALIGN_SIZE)).

(** The allocator gives the structure and the pool, whose bytes are arbitrary, or not. *)
Definition rt_ringbuffer_create {S : Type} (rb_ok : bool) (pool : Z -> option bytes) (size : Z) :
  M S (option rt_ringbuffer) :=
  let size := u16 size in
  rt_assert (0 <? size) ;;;
  let size := RT_ALIGN_DOWN size RT_ALIGN_SIZE in
  if negb rb_ok then ret None
  else
    match pool size with
    | None => ret None
    | Some pool => rb <- rt_ringbuffer_init pool size ;; ret (Some rb)
    end.

(** The pool and the structure go back to the allocator; the pointer must not be NULL. *)
Definition rt_ringbuffer_destroy {S : Type} (rb : option rt_ringbuffer) : M S unit :=
  rt_assert match rb with Some _ => true | None => false end.

Definition rt_ringbuffer_data_len (rb : rt_ringbuffer) : Z :=
  match rt_ringbuffer_status rb with
  | RT_RINGBUFFER_EMPTY => 0
  | RT_RINGBUFFER_FULL => buffer_size rb
  | RT_RINGBUFFER_HALFFULL =>
      if read_index rb <? write_index rb then write_index rb - read_index rb
      else buffer_size rb - (read_index rb - write_index rb)
  end.
Definition rt_ringbuffer_space_len (rb : rt_ringbuffer) : Z := buffer_size rb - rt_ringbuffer_data_len rb.

(** The copy both put operations make: up to the end of the pool, then from its start. The
    result says whether the write index went over to the other mirror. *)
Definition put_wrapped (ptr : bytes) (length : Z) : M rt_ringbuffer unit :=
  rb <- get ;;
  let room := buffer_size rb - write_index rb in
  copy_in (write_index rb) ptr 0 room ;;;
  copy_in 0 ptr room (length - room) ;;;
  modify (set_write (negb (write_mirror rb)) (length - room)).

Definition rt_ringbuffer_put (ptr : bytes) (length : Z) : M rt_ringbuffer Z :=
  rb <- get ;;
  let length := u16 length in
  let size := u16 (rt_ringbuffer_space_len rb) in
  if size =? 0 then ret 0
  else
    let length := if size <? length then size else length in
    if length <? buffer_size rb - write_index rb then
      copy_in (write_index rb) ptr 0 length ;;;
      modify (set_write (write_mirror rb) (write_index rb + length)) ;;;
      ret length
    else
      put_wrapped ptr length ;;;
      ret length.

Definition rt_ringbuffer_put_force (ptr : bytes) (length : Z) : M rt_ringbuffer Z :=
  rb <- get ;;
  let length := u16 length in
  let space_length := u16 (rt_ringbuffer_space_len rb) in
  let '(ptr, length) := if buffer_size rb <? length then (drop (Z.to_nat (length - buffer_size rb)) ptr, buffer_size rb)
                        else (ptr, length) in
  if length <? buffer_size rb - write_index rb then
    copy_in (write_index rb) ptr 0 length ;;;
    modify (set_write (write_mirror rb) (write_index rb + length)) ;;;
    when (space_length <? length) (modify (fun rb => set_read (read_mirror rb) (write_index rb) rb)) ;;;
    ret length
  else
    put_wrapped ptr length ;;;
    when (space_length <? length) (modify (fun rb => set_read (negb (read_mirror rb)) (write_index rb) rb)) ;;;
    ret length.

(** The bytes stored through [ptr]; their number is the result of the function. *)
Definition rt_ringbuffer_get (length : Z) : M rt_ringbuffer bytes :=
  rb <- get ;;
  let length := u16 length in
  let size := rt_ringbuffer_data_len rb in
  if size =? 0 then ret []
  else
    let length := if size <? length then u16 size else length in
    if length <? buffer_size rb - read_index rb then
      d <- pool_load (read_index rb) length ;;
      modify (set_read (read_mirror rb) (read_index rb + length)) ;;;
      ret d
    else
      let room := buffer_size rb - read_index rb in
      d1 <- pool_load (read_index rb) room ;;
      d2 <- pool_load 0 (length - room) ;;
      modify (set_read (negb (read_mirror rb)) (length - room)) ;;;
      ret (d1 ++ d2).

(** The place in the pool given back through [ptr], and its length. *)
Definition rt_ringbuffer_peak : M rt_ringbuffer (option (Z * Z)) :=
  rb <- get ;;
  let size := rt_ringbuffer_data_len rb in
  if size =? 0 then ret None
  else if size <? buffer_size rb - read_index rb then
    modify (set_read (read_mirror rb) (read_index rb + size)) ;;;
    ret (Some (read_index rb, size))
  else
    modify (set_read (negb (read_mirror rb)) 0) ;;;
    ret (Some (read_index rb, buffer_size rb - read_index rb)).

(** One step of an index over the end of the pool. *)
Definition next_write (rb : rt_ringbuffer) : rt_ringbuffer :=
  if write_index rb =? buffer_size rb - 1 then set_write (negb (write_mirror rb)) 0 rb
  else set_write (write_mirror rb) (write_index rb + 1) rb.

Definition rt_ringbuffer_putchar (ch : Z) : M rt_ringbuffer Z :=
  rb <- get ;;
  if rt_ringbuffer_space_len rb =? 0 then ret 0
  else
    pool_store (write_index rb) [ch] ;;;
    modify next_write ;;;
    ret 1.

Definition rt_ringbuffer_putchar_force (ch : Z) : M rt_ringbuffer Z :=
  rb <- get ;;
  let full := match rt_ringbuffer_status rb with RT_RINGBUFFER_FULL => true | _ => false end in
  pool_store (write_index rb) [ch] ;;;
  modify next_write ;;;
  when full (modify (fun rb' =>
    set_read (if write_index rb =? buffer_size rb - 1 then negb (read_mirror rb') else read_mirror rb') (write_index rb') rb')) ;;;
  ret 1.

Definition rt_ringbuffer_getchar : M rt_ringbuffer (option Z) :=
  rb <- get ;;
  if rt_ringbuffer_data_len rb =? 0 then ret None
  else
    d <- pool_load (read_index rb) 1 ;;
    modify (fun rb => if read_index rb =? buffer_size rb - 1 then set_read (negb (read_mirror rb)) 0 rb
                      else set_read (read_mirror rb) (read_index rb + 1) rb) ;;;
    ret (head d).

Definition rt_ringbuffer_reset : M rt_ringbuffer unit :=
  modify (set_read false 0) ;;; modify (set_write false 0).

(** ** Representation

    [repr rb q]: the ring is well formed and holds the bytes [q], the oldest first. Either
    they lie in one piece or they run over the end of the pool. *)
Inductive repr (rb : rt_ringbuffer) (q : bytes) : Prop :=
  | repr_straight a c :
      buffer_ptr rb = a ++ q ++ c -> c <> [] -> read_mirror rb = write_mirror rb ->
      read_index rb = Z.of_nat (length a) -> write_index rb = Z.of_nat (length a + length q) ->
      buffer_size rb = Z.of_nat (length (a ++ q ++ c)) -> buffer_size rb < 2 ^ 15 -> repr rb q
  | repr_wrapped q1 q2 a :
      q = q1 ++ q2 -> buffer_ptr rb = q2 ++ a ++ q1 -> q1 <> [] -> read_mirror rb = negb (write_mirror rb) ->
      write_index rb = Z.of_nat (length q2) -> read_index rb = Z.of_nat (length q2 + length a) ->
      buffer_size rb = Z.of_nat (length (q2 ++ a ++ q1)) -> buffer_size rb < 2 ^ 15 -> repr rb q.

Section Memory.
Implicit Types rb : rt_ringbuffer.

Lemma pool_store_spec rb x y z l (Q : unit -> rt_ringbuffer -> Prop) :
  buffer_ptr rb = x ++ y ++ z -> length l = length y ->
  Q tt (set_pool (x ++ l ++ z) rb) -> wp (pool_store (Z.of_nat (length x)) l) rb Q.
Proof.
  intros E Hl HQ. unfold pool_store. wp_steps. rewrite E, !length_app, Hl, Nat2Z.id.
  rewrite (proj2 (Z.leb_le _ _)), (proj2 (Z.leb_le _ _)) by lia. cbn [andb]. wp_steps.
  by rewrite take_app_length, (app_assoc x y z), drop_app_length' by (rewrite length_app; lia).
Qed.

Lemma block_spec rb l x y z n i (Q : bytes -> rt_ringbuffer -> Prop) :
  l = x ++ y ++ z -> i = Z.of_nat (length x) -> n = Z.of_nat (length y) -> Q y rb -> wp (block l i n) rb Q.
Proof.
  intros -> -> -> HQ. unfold block. rewrite !length_app, !Nat2Z.id.
  rewrite !(proj2 (Z.leb_le _ _)) by lia. cbn [andb]. wp_steps. by rewrite drop_app_length, take_app_length.
Qed.

(** A list cut at [n]. *)
Lemma cut (l : bytes) (n : nat) : (n <= length l)%nat -> exists x y, l = x ++ y /\ length x = n.
Proof. intros Hn. exists (take n l), (drop n l). rewrite take_drop, length_take. split; [done|lia]. Qed.

(** Copying [d], found at [k] of the source, over the piece [y] of the pool. *)
Lemma copy_in_spec rb i ptr p d r k n x y z (Q : unit -> rt_ringbuffer -> Prop) :
  ptr = p ++ d ++ r -> k = Z.of_nat (length p) -> n = Z.of_nat (length d) ->
  buffer_ptr rb = x ++ y ++ z -> i = Z.of_nat (length x) -> length d = length y ->
  Q tt (set_pool (x ++ d ++ z) rb) -> wp (copy_in i ptr k n) rb Q.
Proof.
  intros Hp Hk Hn Hb -> Hl HQ. unfold copy_in. wp_steps. eapply block_spec; [done..|]. by eapply pool_store_spec.
Qed.
End Memory.

Section Facts.
Implicit Types (rb : rt_ringbuffer) (q : bytes).

Lemma repr_size rb q : repr rb q ->
  Z.of_nat (length q) <= buffer_size rb /\ 0 < buffer_size rb < 2 ^ 15 /\
  0 <= write_index rb < buffer_size rb /\ 0 <= read_index rb < buffer_size rb /\
  Z.of_nat (length (buffer_ptr rb)) = buffer_size rb.
Proof.
  intros [a c E Hc _ Er Ew Es H|q1 q2 a -> E H1 _ Ew Er Es H]; rewrite ?E, ?Er, ?Ew; rewrite Es in *; rewrite !length_app in *.
  - assert (0 < length c)%nat by (destruct c; cbn; [done|lia]). lia.
  - assert (0 < length q1)%nat by (destruct q1; cbn; [done|lia]). lia.
Qed.

Lemma data_len_spec rb q : repr rb q -> rt_ringbuffer_data_len rb = Z.of_nat (length q).
Proof.
  intros [a c E Hc Em Er Ew Es _|q1 q2 a -> E H1 Em Ew Er Es _]; unfold rt_ringbuffer_data_len, rt_ringbuffer_status;
    rewrite Er, Ew, Es, Em, !length_app.
  - rewrite eqb_reflx. destruct (Z.eqb_spec (Z.of_nat (length a)) (Z.of_nat (length a + length q))); [lia|].
    rewrite (proj2 (Z.ltb_lt _ _)); lia.
  - replace (eqb (negb (write_mirror rb)) (write_mirror rb)) with false by (by destruct (write_mirror rb)).
    destruct (Z.eqb_spec (Z.of_nat (length q2 + length a)) (Z.of_nat (length q2))); [lia|].
    rewrite (proj2 (Z.ltb_ge _ _)); lia.
Qed.

Lemma space_len_spec rb q : repr rb q -> rt_ringbuffer_space_len rb = buffer_size rb - Z.of_nat (length q).
Proof. intros H. unfold rt_ringbuffer_space_len. by rewrite (data_len_spec _ _ H). Qed.

Lemma index_small rb q i : repr rb q -> 0 <= i < buffer_size rb -> wrap 15 i = i.
Proof. intros H Hi. apply wrap_small. pose proof (repr_size _ _ H). lia. Qed.

Lemma u16_small z : 0 <= z < 2 ^ 15 -> u16 z = z.
Proof. intros H. apply wrap_small. lia. Qed.

(** The copy over the end of the pool, whatever was there. *)
Lemma put_wrapped_spec rb x1 x2 y d1 d2 r ptr n (Q : unit -> rt_ringbuffer -> Prop) :
  buffer_ptr rb = x1 ++ x2 ++ y -> write_index rb = Z.of_nat (length x1 + length x2) ->
  buffer_size rb = Z.of_nat (length (x1 ++ x2 ++ y)) ->
  ptr = d1 ++ d2 ++ r -> length d1 = length y -> length d2 = length x1 -> n = Z.of_nat (length d1 + length d2) ->
  Q tt (set_write (negb (write_mirror rb)) (Z.of_nat (length d2)) (set_pool (d2 ++ x2 ++ d1) rb)) ->
  wp (put_wrapped ptr n) rb Q.
Proof.
  intros E Ew Es Hp H1 H2 Hn HQ. unfold put_wrapped. wp_step. unfold get at 1, wp at 1. rewrite Es, Ew, !length_app. wp_steps.
  eapply (copy_in_spec _ _ _ [] d1 (d2 ++ r) _ _ (x1 ++ x2) y []); rewrite ?length_app; try done; [lia|by rewrite app_nil_r, <- app_assoc|].
  rewrite app_nil_r, <- app_assoc. wp_steps.
  eapply (copy_in_spec _ _ _ d1 d2 r _ _ [] x1 (x2 ++ d1)); try done; [lia|lia|]. cbn [app].
  wp_steps. replace (n - _) with (Z.of_nat (length d2)) by lia. exact HQ.
Qed.

Lemma put_spec rb q ptr n :
  repr rb q -> 0 <= n < 2 ^ 16 -> n <= Z.of_nat (length ptr) ->
  let k := Z.min n (buffer_size rb - Z.of_nat (length q)) in
  wp (rt_ringbuffer_put ptr n) rb (fun r rb' =>
    r = k /\ repr rb' (q ++ take (Z.to_nat k) ptr) /\ buffer_size rb' = buffer_size rb).
Proof.
  intros Hr Hn Hp k. pose proof (repr_size rb q Hr) as (B1 & B2 & _). unfold rt_ringbuffer_put. wp_step. unfold get at 1, wp at 1.
  rewrite (wrap_small 16 n), (space_len_spec _ _ Hr), (u16_small (_ - _)) by lia.
  destruct (Z.eqb_spec (buffer_size rb - Z.of_nat (length q)) 0) as [E0|E0].
  { wp_steps. replace k with 0 by lia. rewrite app_nil_r. split_and!; try done. }
  assert ((if buffer_size rb - Z.of_nat (length q) <? n then buffer_size rb - Z.of_nat (length q) else n) = k) as ->.
  { unfold k. destruct (Z.ltb_spec (buffer_size rb - Z.of_nat (length q)) n); lia. }
  destruct (cut ptr (Z.to_nat k)) as (d & r & -> & Hd); [lia|]. rewrite take_app_length' by done.
  assert (k = Z.of_nat (length d) /\ k <= buffer_size rb - Z.of_nat (length q)) as [Ek Hk] by lia. clearbody k. subst k. clear Hd.
  destruct Hr as [a c E Hc Em Er Ew Es Hs|q1 q2 a -> E H1 Em Ew Er Es Hs]; rewrite Es, Ew in *; rewrite !length_app in *.
  - destruct (Z.ltb_spec (Z.of_nat (length d)) (Z.of_nat (length a + (length q + length c)) - Z.of_nat (length a + length q))) as [Hlt|Hge].
    + destruct (cut c (length d)) as (c1 & c2 & -> & Hc1); [lia|]. rewrite length_app in *. wp_steps.
      eapply (copy_in_spec _ _ _ [] d r _ _ (a ++ q) c1 c2); rewrite ?length_app; try done; [by rewrite E, <- app_assoc|].
      wp_steps. split; [done|]. split; [|done]. apply repr_straight with (a := a) (c := c2); cbn; try done.
      * by rewrite <- !app_assoc.
      * destruct c2; cbn in *; [lia|done].
      * rewrite wrap_small by lia. rewrite length_app. lia.
      * rewrite Es, !length_app. lia.
      * lia.
    + destruct (cut d (length c)) as (d1 & d2 & -> & Hd1); [lia|]. rewrite length_app in *.
      destruct (cut a (length d2)) as (a1 & a2 & -> & Ha1); [lia|]. rewrite length_app in *. wp_steps.
      eapply (put_wrapped_spec _ a1 (a2 ++ q) c d1 d2 r); rewrite ?length_app; try done; [by rewrite E, <- !app_assoc|lia|lia|by rewrite <- app_assoc|].
      wp_steps. split; [done|]. split; [|done]. apply repr_wrapped with (q1 := q ++ d1) (q2 := d2) (a := a2); cbn.
      * by rewrite <- app_assoc.
      * by rewrite <- !app_assoc.
      * destruct c; [done|]. destruct q, d1; cbn in *; done || lia.
      * by rewrite Em, negb_involutive.
      * apply wrap_small. lia.
      * rewrite Er. lia.
      * rewrite Es, !length_app. lia.
      * lia.
  - assert (0 < length q1)%nat by (destruct q1; cbn; [done|lia]).
    rewrite (proj2 (Z.ltb_lt _ _)) by lia. destruct (cut a (length d)) as (a1 & a2 & -> & Ha1); [lia|]. rewrite length_app in *.
    wp_steps. eapply (copy_in_spec _ _ _ [] d r _ _ q2 a1 (a2 ++ q1)); try done; [by rewrite E, <- !app_assoc|].
    wp_steps. split; [done|]. split; [|done]. apply repr_wrapped with (q1 := q1) (q2 := q2 ++ d) (a := a2); cbn; try done.
    * by rewrite app_assoc.
    * by rewrite <- !app_assoc.
    * rewrite wrap_small by lia. rewrite length_app. lia.
    * rewrite Er, length_app. lia.
    * rewrite Es, !length_app. lia.
    * lia.
Qed.

(** *** Taking bytes out *)

(** The read index [k] bytes further. *)
Definition advance (k : Z) rb : rt_ringbuffer :=
  if k <? buffer_size rb - read_index rb then set_read (read_mirror rb) (read_index rb + k) rb
  else set_read (negb (read_mirror rb)) (k - (buffer_size rb - read_index rb)) rb.

Lemma repr_advance rb d q : repr rb (d ++ q) -> repr (advance (Z.of_nat (length d)) rb) q.
Proof.
  intros Hr. unfold advance. destruct Hr as [a c E Hc Em Er Ew Es Hs|q1 q2 a Eq E H1 Em Ew Er Es Hs];
    rewrite Es, Er in *; rewrite !length_app in *.
  - assert (0 < length c)%nat by (destruct c; cbn; [done|lia]). rewrite (proj2 (Z.ltb_lt _ _)) by lia.
    apply repr_straight with (a := a ++ d) (c := c); cbn; try done.
    + by rewrite E, <- !app_assoc.
    + rewrite wrap_small by lia. rewrite length_app. lia.
    + rewrite length_app. lia.
    + rewrite Es, !length_app. lia.
    + lia.
  - destruct (Z.ltb_spec (Z.of_nat (length d)) (Z.of_nat (length q2 + (length a + length q1)) - Z.of_nat (length q2 + length a))).
    + destruct (cut q1 (length d)) as (d' & q1' & -> & Hd'); [lia|]. rewrite <- app_assoc in Eq.
      apply app_inj_1 in Eq as [-> ->]; [|done]. rewrite length_app in *.
      apply repr_wrapped with (q1 := q1') (q2 := q2) (a := a ++ d'); cbn; try done.
      * by rewrite E, <- !app_assoc.
      * intros ->. cbn in *. lia.
      * rewrite wrap_small by lia. rewrite length_app. lia.
      * rewrite Es, !length_app. lia.
      * lia.
    + assert (length d <= length q1 + length q2)%nat by (apply (f_equal length) in Eq; rewrite !length_app in Eq; lia).
      destruct (cut d (length q1)) as (q1' & d2 & -> & Hq1); [lia|]. rewrite <- app_assoc in Eq.
      apply app_inj_1 in Eq as [-> <-]; [|done]. rewrite !length_app in *.
      apply repr_straight with (a := d2) (c := a ++ q1); cbn.
      * by rewrite E, <- !app_assoc.
      * by destruct a, q1.
      * by rewrite Em, negb_involutive.
      * rewrite wrap_small; lia.
      * rewrite Ew. lia.
      * rewrite Es, !length_app. lia.
      * lia.
Qed.

(** Loading from the read index, up to the end of the pool. *)
Lemma load_first rb d q (Q : bytes -> rt_ringbuffer -> Prop) :
  repr rb (d ++ q) -> Z.of_nat (length d) <= buffer_size rb - read_index rb -> Q d rb ->
  wp (pool_load (read_index rb) (Z.of_nat (length d))) rb Q.
Proof.
  intros Hr Hd HQ. unfold pool_load. wp_steps.
  destruct Hr as [a c E Hc Em Er Ew Es Hs|q1 q2 a Eq E H1 Em Ew Er Es Hs]; rewrite E, Er in *.
  - eapply (block_spec _ _ a d (q ++ c)); [by rewrite <- app_assoc|done..].
  - rewrite Es, !length_app in Hd. destruct (cut q1 (length d)) as (d' & q1' & -> & Hd'); [lia|].
    rewrite <- app_assoc in Eq. apply app_inj_1 in Eq as [-> ->]; [|done].
    eapply (block_spec _ _ (q2 ++ a) d' q1'); rewrite ?length_app; [by rewrite <- app_assoc|done..].
Qed.

(** Loading the rest from the start of the pool. *)
Lemma load_second rb d1 d2 q (Q : bytes -> rt_ringbuffer -> Prop) :
  repr rb (d1 ++ d2 ++ q) -> Z.of_nat (length d1) = buffer_size rb - read_index rb -> Q d2 rb ->
  wp (pool_load 0 (Z.of_nat (length d2))) rb Q.
Proof.
  intros Hr Hd HQ. unfold pool_load. wp_steps.
  destruct Hr as [a c E Hc Em Er Ew Es Hs|q1 q2 a Eq E H1 Em Ew Er Es Hs]; rewrite E.
  - rewrite Es, Er, !length_app in Hd. assert (0 < length c)%nat by (destruct c; cbn; [done|lia]). lia.
  - rewrite Es, Er, !length_app in Hd. apply app_inj_1 in Eq as [-> <-]; [|lia].
    by eapply (block_spec _ _ [] d2); [rewrite <- app_assoc|..].
Qed.

Lemma get_spec rb q n :
  repr rb q -> 0 <= n < 2 ^ 16 ->
  let k := Z.to_nat (Z.min n (Z.of_nat (length q))) in
  wp (rt_ringbuffer_get n) rb (fun d rb' => d = take k q /\ repr rb' (drop k q) /\ buffer_size rb' = buffer_size rb).
Proof.
  intros Hr Hn k. pose proof (repr_size rb q Hr) as (B1 & B2 & _). unfold rt_ringbuffer_get. wp_step. unfold get at 1, wp at 1.
  rewrite (wrap_small 16 n), (data_len_spec _ _ Hr), (u16_small (Z.of_nat _)) by lia.
  destruct (Z.eqb_spec (Z.of_nat (length q)) 0) as [E0|E0].
  { wp_steps. destruct q; [|done]. by rewrite drop_nil, take_nil. }
  replace (if _ <? n then _ else n) with (Z.of_nat k); [|destruct (Z.ltb_spec (Z.of_nat (length q)) n); lia].
  destruct (cut q k) as (d & q' & -> & Hd); [lia|]. rewrite take_app_length', drop_app_length' by done. rewrite <- Hd.
  pose proof (repr_advance _ _ _ Hr) as Ha. unfold advance in Ha.
  destruct (Z.ltb_spec (Z.of_nat (length d)) (buffer_size rb - read_index rb)) as [Hlt|Hge]; wp_steps.
  - eapply load_first; [done|lia|]. by wp_steps.
  - pose proof (repr_size rb _ Hr) as (_ & _ & _ & Hi & _).
    destruct (cut d (Z.to_nat (buffer_size rb - read_index rb))) as (d1 & d2 & -> & Hd1); [lia|]. rewrite <- app_assoc in Hr.
    replace (buffer_size rb - read_index rb) with (Z.of_nat (length d1)) at 1 by lia.
    eapply load_first; [done|lia|]. wp_steps.
    replace (_ - _) with (Z.of_nat (length d2)) at 1 by (rewrite length_app; lia).
    eapply load_second; [done|lia|]. by wp_steps.
Qed.

Lemma getchar_spec rb q :
  repr rb q -> wp rt_ringbuffer_getchar rb (fun c rb' => c = head q /\ repr rb' (tail q) /\ buffer_size rb' = buffer_size rb).
Proof.
  intros Hr. pose proof (repr_size rb q Hr) as (_ & _ & _ & Hi & _). unfold rt_ringbuffer_getchar.
  wp_step. unfold get at 1, wp at 1. rewrite (data_len_spec _ _ Hr).
  destruct q as [|c q]; [by wp_steps|]. destruct (Z.eqb_spec (Z.of_nat (length (c :: q))) 0) as [|_]; [done|]. wp_steps.
  eapply (load_first _ [c] q); [done|cbn; lia|]. wp_steps. pose proof (repr_advance _ [c] q Hr) as Ha. unfold advance in Ha.
  change (Z.of_nat (length [c])) with 1 in Ha.
  destruct (Z.ltb_spec 1 (buffer_size rb - read_index rb)), (Z.eqb_spec (read_index rb) (buffer_size rb - 1)); try lia; [done|].
  by replace (1 - _) with 0 in Ha by lia.
Qed.

(** [rt_ringbuffer_peak] hands out the bytes up to the end of the pool. *)
Lemma peak_spec rb q :
  repr rb q ->
  wp rt_ringbuffer_peak rb (fun p rb' => buffer_ptr rb' = buffer_ptr rb /\ buffer_size rb' = buffer_size rb /\
    match p with
    | None => q = [] /\ rb' = rb
    | Some (i, n) => exists d q', q = d ++ q' /\ d <> [] /\ repr rb' q' /\
        take (Z.to_nat n) (drop (Z.to_nat i) (buffer_ptr rb)) = d
    end).
Proof.
  intros Hr. pose proof (repr_size rb q Hr) as (_ & _ & _ & Hi & Hl). unfold rt_ringbuffer_peak.
  wp_step. unfold get at 1, wp at 1. rewrite (data_len_spec _ _ Hr).
  destruct (Z.eqb_spec (Z.of_nat (length q)) 0) as [E0|E0]; [wp_steps; by destruct q|].
  set (k := Z.min (Z.of_nat (length q)) (buffer_size rb - read_index rb)).
  destruct (cut q (Z.to_nat k)) as (d & q' & -> & Hd); [lia|].
  assert (take (Z.to_nat k) (drop (Z.to_nat (read_index rb)) (buffer_ptr rb)) = d) as Hp.
  { assert (wp (pool_load (read_index rb) (Z.of_nat (length d))) rb (fun x _ => x = d)) as Hw by (eapply load_first; [done|lia|done]).
    unfold pool_load, block in Hw. rewrite Hd, Z2Nat.id in Hw by lia. wp_steps. unfold wp, bind, gets in Hw.
    destruct (_ && _); [exact Hw|done]. }
  assert (d <> []) as Hne by (intros ->; cbn in Hd; lia).
  pose proof (repr_advance _ _ _ Hr) as Ha. unfold advance in Ha.
  destruct (Z.ltb_spec (Z.of_nat (length (d ++ q'))) (buffer_size rb - read_index rb)); wp_steps;
    (split; [done|]; split; [done|]; exists d, q'; split; [done|]; split; [done|]).
  - replace (Z.of_nat (length d)) with (Z.of_nat (length (d ++ q'))) in Ha by lia. rewrite (proj2 (Z.ltb_lt _ _)) in Ha by lia.
    split; [done|]. by replace (Z.of_nat (length (d ++ q'))) with k by lia.
  - rewrite (proj2 (Z.ltb_ge _ _)) in Ha by lia. replace (_ - (_ - _)) with 0 in Ha by lia.
    split; [done|]. by replace (buffer_size rb - read_index rb) with k by lia.
Qed.

(** *** Single characters *)

Definition is_full rb : bool := match rt_ringbuffer_status rb with RT_RINGBUFFER_FULL => true | _ => false end.

Lemma is_full_spec rb q : repr rb q -> is_full rb = (rt_ringbuffer_space_len rb =? 0).
Proof.
  intros Hr. rewrite (space_len_spec _ _ Hr). unfold is_full, rt_ringbuffer_status.
  destruct Hr as [a c E Hc Em Er Ew Es _|q1 q2 a -> E H1 Em Ew Er Es _]; rewrite Er, Ew, Es, Em, !length_app.
  - assert (0 < length c)%nat by (destruct c; cbn; [done|lia]). rewrite eqb_reflx.
    rewrite (proj2 (Z.eqb_neq (_ - _) 0)) by lia. by destruct (_ =? _).
  - replace (eqb (negb (write_mirror rb)) (write_mirror rb)) with false by (by destruct (write_mirror rb)).
    destruct (Z.eqb_spec (Z.of_nat (length q2 + length a)) (Z.of_nat (length q2)));
      [rewrite (proj2 (Z.eqb_eq _ _)) by lia|rewrite (proj2 (Z.eqb_neq (_ - _) 0)) by lia]; done.
Qed.

Lemma store_next rb q ch :
  repr rb q -> 0 < rt_ringbuffer_space_len rb ->
  wp (pool_store (write_index rb) [ch] ;;; modify next_write) rb (fun _ rb' => repr rb' (q ++ [ch]) /\ buffer_size rb' = buffer_size rb).
Proof.
  intros Hr. rewrite (space_len_spec _ _ Hr).
  destruct Hr as [a c E Hc Em Er Ew Es Hs|q1 q2 a -> E H1 Em Ew Er Es Hs]; rewrite Es, !length_app in *; intros Hsp; wp_step.
  - destruct c as [|x c]; [done|]. rewrite Ew. cbn [length] in *. rewrite <- length_app.
    eapply (pool_store_spec _ (a ++ q) [x] c); [by rewrite E, <- app_assoc|done|]. wp_steps. rewrite <- app_assoc.
    unfold next_write. cbn. rewrite Ew, Es.
    destruct (Z.eqb_spec (Z.of_nat (length a + length q)) (Z.of_nat (length a + (length q + S (length c))) - 1)) as [E1|E1]; cbn; (split; [|done]).
    + destruct c; [|cbn in E1; lia]. apply repr_wrapped with (q1 := q ++ [ch]) (q2 := []) (a := a); cbn; try done.
      * by rewrite app_nil_r.
      * by destruct q.
      * by rewrite Em, negb_involutive.
      * rewrite Es, !length_app. cbn. lia.
      * lia.
    + apply repr_straight with (a := a) (c := c); cbn; try done.
      * by rewrite <- app_assoc.
      * destruct c; [cbn in E1; lia|done].
      * rewrite wrap_small by lia. rewrite length_app. cbn. lia.
      * rewrite Es, !length_app. cbn. lia.
      * lia.
  - destruct a as [|x a]; [cbn in Hsp; lia|]. rewrite Ew. cbn [length] in *.
    assert (0 < length q1)%nat by (destruct q1; cbn; [done|lia]).
    eapply (pool_store_spec _ q2 [x] (a ++ q1)); [by rewrite E|done|]. wp_steps. unfold next_write. cbn. rewrite Ew, Es.
    rewrite (proj2 (Z.eqb_neq _ _)) by lia. split; [|done].
    apply repr_wrapped with (q1 := q1) (q2 := q2 ++ [ch]) (a := a); cbn; try done.
    + by rewrite app_assoc.
    + by rewrite <- app_assoc.
    + rewrite wrap_small by lia. rewrite length_app. cbn. lia.
    + rewrite Er, length_app. cbn. lia.
    + rewrite Es, !length_app. cbn. lia.
    + lia.
Qed.

Lemma putchar_spec rb q ch :
  repr rb q -> let fits := Z.of_nat (length q) <? buffer_size rb in
  wp (rt_ringbuffer_putchar ch) rb (fun r rb' => r = b2z fits /\
    repr rb' (if fits then q ++ [ch] else q) /\ buffer_size rb' = buffer_size rb).
Proof.
  intros Hr fits. pose proof (repr_size _ _ Hr) as (B & _). unfold rt_ringbuffer_putchar. wp_step. unfold get at 1, wp at 1.
  pose proof (space_len_spec _ _ Hr) as Hsp. unfold fits. destruct (Z.eqb_spec (rt_ringbuffer_space_len rb) 0).
  - wp_steps. by rewrite (proj2 (Z.ltb_ge _ _)) by lia.
  - rewrite (proj2 (Z.ltb_lt _ _)) by lia. pose proof (store_next rb q ch Hr) as Hw.
    apply wp_total in Hw as ([] & rb' & Ew & Hr' & Hb); [|lia]. unfold wp. rewrite <- (bind_assoc _ _ (fun _ => ret 1)).
    by rewrite (bind_ok _ _ _ _ _ Ew).
Qed.

Lemma putchar_force_spec rb q ch :
  repr rb q -> let fits := Z.of_nat (length q) <? buffer_size rb in
  wp (rt_ringbuffer_putchar_force ch) rb (fun r rb' => r = 1 /\
    repr rb' (if fits then q ++ [ch] else tail q ++ [ch]) /\ buffer_size rb' = buffer_size rb).
Proof.
  intros Hr fits. pose proof (repr_size _ _ Hr) as (B & _). unfold rt_ringbuffer_putchar_force.
  wp_step. unfold get at 1, wp at 1. fold (is_full rb).
  pose proof (is_full_spec _ _ Hr) as Hf. pose proof (space_len_spec _ _ Hr) as Hsp. unfold fits.
  destruct (Z.eqb_spec (rt_ringbuffer_space_len rb) 0) as [E0|E0].
  - rewrite (proj2 (Z.ltb_ge _ _)) by lia. rewrite Hf. cbn [when].
    destruct Hr as [a c E Hc Em Er Ew Es Hs|q1 q2 a -> E H1 Em Ew Er Es Hs]; rewrite Es, !length_app in *.
    { destruct c; [done|]. cbn in Hsp. lia. }
    destruct a; [|cbn in Hsp; lia]. cbn [app length] in *. destruct q1 as [|x q1]; [done|]. rewrite Ew.
    change (0 + length (x :: q1))%nat with (S (length q1)) in *. wp_steps.
    eapply (pool_store_spec _ q2 [x] q1); [done|done|]. wp_steps. unfold next_write. cbn. rewrite Ew, Es.
    destruct (Z.eqb_spec (Z.of_nat (length q2)) (Z.of_nat (length q2 + S (length q1)) - 1)) as [E1|E1]; cbn;
      rewrite ?Em; (split; [done|]; split; [|done]).
    + destruct q1; [|cbn in E1; lia]. apply repr_wrapped with (q1 := q2 ++ [ch]) (q2 := []) (a := []); cbn; try done.
      * by rewrite app_nil_r.
      * by destruct q2.
      * rewrite Es, length_app. cbn. lia.
      * lia.
    + apply repr_wrapped with (q1 := q1) (q2 := q2 ++ [ch]) (a := []); cbn; try done.
      * by rewrite app_assoc.
      * by rewrite <- app_assoc.
      * intros ->. cbn in E1. lia.
      * rewrite wrap_small by lia. rewrite length_app. cbn. lia.
      * rewrite !wrap_small by (try apply wrap_range; rewrite ?wrap_small; lia). rewrite length_app. cbn. lia.
      * rewrite Es, !length_app. cbn. lia.
      * lia.
  - rewrite (proj2 (Z.ltb_lt _ _)) by lia. rewrite Hf. cbn [when]. pose proof (store_next rb q ch Hr) as Hw.
    apply wp_total in Hw as ([] & rb' & Ew & Hr' & Hb); [|lia]. unfold wp.
    rewrite <- (bind_assoc _ _ (fun _ => ret tt ;;; ret 1)). by rewrite (bind_ok _ _ _ _ _ Ew).
Qed.

Lemma reset_spec rb q : repr rb q -> wp rt_ringbuffer_reset rb (fun _ rb' => repr rb' [] /\ buffer_size rb' = buffer_size rb).
Proof.
  intros Hr. pose proof (repr_size _ _ Hr) as (_ & B & _ & _ & Hl). unfold rt_ringbuffer_reset. wp_steps. split; [|done].
  apply repr_straight with (a := []) (c := buffer_ptr rb); cbn; try done; [|lia].
  intros E. rewrite E in Hl. cbn in Hl. lia.
Qed.

Lemma align_down z : RT_ALIGN_DOWN z RT_ALIGN_SIZE = z / 4 * 4.
Proof.
  unfold RT_ALIGN_DOWN, RT_ALIGN_SIZE. change (Z.lnot (4 - 1)) with (Z.lnot (Z.ones 2)).
  rewrite <- Z.ldiff_land, Z.ldiff_ones_r by lia. by rewrite Z.shiftl_mul_pow2, Z.shiftr_div_pow2 by lia.
Qed.

(** A new ring is empty. *)
Lemma create_spec {S} (s : S) rb_ok pool size :
  4 <= size < 2 ^ 15 -> (forall n l, pool n = Some l -> Z.of_nat (length l) = n) ->
  wp (rt_ringbuffer_create rb_ok pool size) s (fun r s' => s' = s /\
    match r with Some rb => repr rb [] /\ buffer_size rb = size / 4 * 4 | None => rb_ok = false \/ pool (size / 4 * 4) = None end).
Proof.
  intros Hs Hp. unfold rt_ringbuffer_create, rt_assert. rewrite (wrap_small 16 size) by lia.
  rewrite (proj2 (Z.ltb_lt _ _)) by lia. wp_steps. rewrite align_down.
  destruct rb_ok; cbn [negb]; wp_steps; [|by auto]. destruct (pool (size / 4 * 4)) as [l|] eqn:El; wp_steps; [|by auto].
  apply Hp in El. assert (4 <= size / 4 * 4 <= size) as Hb by (Z.to_euclidean_division_equations; lia).
  unfold rt_ringbuffer_init, rt_assert. rewrite swrap_small by lia. rewrite (proj2 (Z.ltb_lt _ _)) by lia. wp_steps. rewrite align_down, Z.div_mul by lia.
  split; [done|]. split; [|done]. apply repr_straight with (a := []) (c := l); cbn; try done; [|lia].
  intros ->. cbn in El. lia.
Qed.

(** *** Overwriting *)

(** What [rt_ringbuffer_put_force] keeps of the source. *)
Definition forced (ptr : bytes) (n size : Z) : bytes :=
  let m := Z.min n size in take (Z.to_nat m) (drop (Z.to_nat (n - m)) ptr).

(** Data that fits is put. *)
Lemma put_force_fits rb q ptr n :
  repr rb q -> 0 < n < 2 ^ 16 -> let m := Z.min n (buffer_size rb) in
  Z.of_nat (length q) + m <= buffer_size rb ->
  rt_ringbuffer_put_force ptr n rb = rt_ringbuffer_put (drop (Z.to_nat (n - m)) ptr) m rb.
Proof.
  intros Hr Hn m Hf. pose proof (repr_size _ _ Hr) as (B & B2 & _).
  unfold rt_ringbuffer_put_force, rt_ringbuffer_put, bind, get.
  rewrite (wrap_small 16 n), (wrap_small 16 m), (space_len_spec _ _ Hr), (u16_small (_ - _)) by lia.
  assert ((if buffer_size rb <? n then (drop (Z.to_nat (n - buffer_size rb)) ptr, buffer_size rb) else (ptr, n))
    = (drop (Z.to_nat (n - m)) ptr, m)) as ->.
  { destruct (Z.ltb_spec (buffer_size rb) n); [by replace m with (buffer_size rb) by lia|].
    replace m with n by lia. by rewrite Z.sub_diag. }
  rewrite !(proj2 (Z.ltb_ge _ m)), (proj2 (Z.eqb_neq _ 0)) by lia. cbn [when].
  destruct (m <? _); [by destruct (copy_in _ _ _ _ _) as [[]|]|by destruct (put_wrapped _ _ _) as [[]|]].
Qed.

(** The two ways the code overwrites what does not fit. *)
Lemma overwrite_wrapped rb q1 q2 a d r :
  buffer_ptr rb = q2 ++ a ++ q1 -> q1 <> [] -> read_mirror rb = negb (write_mirror rb) ->
  write_index rb = Z.of_nat (length q2) -> buffer_size rb = Z.of_nat (length (q2 ++ a ++ q1)) -> buffer_size rb < 2 ^ 15 ->
  (length a < length d < length a + length q1)%nat ->
  wp (copy_in (write_index rb) (d ++ r) 0 (Z.of_nat (length d)) ;;;
      modify (set_write (write_mirror rb) (write_index rb + Z.of_nat (length d))) ;;;
      modify (fun rb => set_read (read_mirror rb) (write_index rb) rb) ;;;
      ret (Z.of_nat (length d))) rb
    (fun n rb' => n = Z.of_nat (length d) /\ buffer_size rb' = buffer_size rb /\ repr rb' (drop (length d - length a) (q1 ++ q2) ++ d)).
Proof.
  intros E H1 Em Ew Es Hs Hd. rewrite !length_app in Es.
  destruct (cut q1 (length d - length a)) as (x & q1' & -> & Hx); [lia|]. rewrite length_app in *.
  rewrite Ew. wp_steps. eapply (copy_in_spec _ _ _ [] d r _ _ q2 (a ++ x) q1'); rewrite ?length_app; try done; [by rewrite E, <- !app_assoc|lia|].
  wp_steps. split; [done|]. split; [done|]. rewrite <- app_assoc, drop_app_length' by done.
  apply repr_wrapped with (q1 := q1') (q2 := q2 ++ d) (a := []); cbn; try done.
  - by rewrite <- app_assoc.
  - by rewrite <- app_assoc.
  - intros ->. cbn in Hd. lia.
  - rewrite wrap_small by lia. rewrite length_app. lia.
  - rewrite !wrap_small by (try apply wrap_range; rewrite ?wrap_small; lia). rewrite length_app. lia.
  - rewrite Es, !length_app. lia.
Qed.

Lemma overwrite_around rb x1 x2 y d1 d2 r :
  buffer_ptr rb = x1 ++ x2 ++ y -> y <> [] -> write_index rb = Z.of_nat (length x1 + length x2) ->
  buffer_size rb = Z.of_nat (length (x1 ++ x2 ++ y)) -> buffer_size rb < 2 ^ 15 ->
  length d1 = length y -> length d2 = length x1 ->
  wp (put_wrapped (d1 ++ d2 ++ r) (Z.of_nat (length d1 + length d2)) ;;;
      modify (fun rb => set_read (negb (read_mirror rb)) (write_index rb) rb) ;;;
      ret (Z.of_nat (length d1 + length d2))) rb
    (fun n rb' => n = Z.of_nat (length d1 + length d2) /\ buffer_size rb' = buffer_size rb /\
      repr rb' (if eqb (read_mirror rb) (write_mirror rb) then [] else x2 ++ d1 ++ d2)).
Proof.
  intros E Hy Ew Es Hs H1 H2. pose proof Es as Es'. rewrite !length_app in Es'. wp_steps.
  eapply (put_wrapped_spec _ x1 x2 y d1 d2 r); try done. wp_steps. split; [done|]. split; [done|].
  assert (x2 ++ d1 <> []) by (destruct x2, d1; try done; by destruct y).
  destruct (eqb (read_mirror rb) (write_mirror rb)) eqn:Em.
  - apply repr_straight with (a := d2) (c := x2 ++ d1); cbn; try done.
    + by rewrite (eqb_prop _ _ Em).
    + rewrite !wrap_small; rewrite ?wrap_small; lia.
    + rewrite wrap_small; lia.
    + rewrite Es', !length_app. lia.
  - apply eqb_false_iff in Em. apply repr_wrapped with (q1 := x2 ++ d1) (q2 := d2) (a := []); cbn; try done.
    + by rewrite <- app_assoc.
    + by destruct (read_mirror rb), (write_mirror rb).
    + rewrite wrap_small; lia.
    + rewrite !wrap_small; rewrite ?wrap_small; lia.
    + rewrite Es', !length_app. lia.
Qed.
End Facts.

Section Properties.
Implicit Types (rb : rt_ringbuffer) (q : bytes).

Lemma put_force_spec rb q ptr n :
  repr rb q -> 0 < n < 2 ^ 16 -> n <= Z.of_nat (length ptr) ->
  let m := Z.min n (buffer_size rb) in
  let data := forced ptr n (buffer_size rb) in
  let excess := Z.to_nat (Z.of_nat (length q) + m - buffer_size rb) in
  wp (rt_ringbuffer_put_force ptr n) rb (fun r rb' => r = m /\ buffer_size rb' = buffer_size rb /\
    repr rb' (if (excess =? 0)%nat then q ++ data
              else if eqb (read_mirror rb) (write_mirror rb) then [] else drop excess (q ++ data))).
Proof.
  intros Hr Hn Hp m data excess. pose proof (repr_size _ _ Hr) as (B & B2 & Bw & _).
  assert (Z.of_nat (length data) = m) as Hd.
  { unfold data, forced. rewrite length_take, length_drop. lia. }
  destruct (Nat.eqb_spec excess 0) as [E0|E0].
  { unfold wp. rewrite (put_force_fits _ q) by (done || lia). fold m.
    pose proof (put_spec rb q (drop (Z.to_nat (n - m)) ptr) m Hr) as Hw. unfold wp in Hw.
    destruct (rt_ringbuffer_put _ m rb) as [[r rb']|]; [|apply Hw; rewrite ?length_drop; lia].
    destruct Hw as (-> & H1 & H2); [rewrite ?length_drop; lia..|]. rewrite Z.min_l in * by lia. by split. }
  unfold rt_ringbuffer_put_force. wp_step. unfold get at 1, wp at 1.
  rewrite (wrap_small 16 n), (space_len_spec _ _ Hr), (u16_small (_ - _)) by lia.
  assert (exists r, (if buffer_size rb <? n then (drop (Z.to_nat (n - buffer_size rb)) ptr, buffer_size rb) else (ptr, n))
    = (data ++ r, m)) as [r ->].
  { unfold data, forced. fold m. exists (drop (Z.to_nat m) (drop (Z.to_nat (n - m)) ptr)). rewrite take_drop.
    destruct (Z.ltb_spec (buffer_size rb) n).
    - by replace m with (buffer_size rb) by lia.
    - replace m with n by lia. by rewrite Z.sub_diag. }
  clearbody data. rewrite <- Hd, (proj2 (Z.ltb_lt (_ - _) _)) by lia. cbn [when].
  assert (Z.of_nat (length data) <= buffer_size rb) as Hm by lia. clear Hp Hn.
  assert (excess = length q + length data - Z.to_nat (buffer_size rb))%nat as Ee by lia. clearbody m excess. subst m excess.
  destruct Hr as [a c E Hc Em Er Ew Es Hs|q1 q2 a -> E H1 Em Ew Er Es Hs].
  - rewrite Es, Ew, !length_app in *. rewrite (proj2 (Z.ltb_ge _ _)) by lia. rewrite Em, eqb_reflx.
    destruct (cut data (length c)) as (d1 & d2 & -> & Hd1); [lia|]. rewrite length_app in *.
    destruct (cut (a ++ q) (length d2)) as (x1 & x2 & Ex & Hx1); [rewrite length_app; lia|].
    assert (length a + length q = length x1 + length x2)%nat as El by (by rewrite <- !length_app, Ex).
    rewrite <- app_assoc. eapply wp_mono; [apply (overwrite_around rb x1 x2 c d1 d2 r)|]; try done.
    + by rewrite E, app_assoc, Ex, <- app_assoc.
    + by rewrite Ew, El.
    + rewrite Es, !length_app. lia.
    + lia.
    + cbn beta. intros k rb' (-> & Hb & Hr'). rewrite Em, eqb_reflx in Hr'. by rewrite Hb, Es.
  - assert (0 < length q1)%nat by (destruct q1; cbn; [done|lia]). rewrite Em. rewrite Es, Ew, !length_app in *.
    replace (eqb (negb (write_mirror rb)) (write_mirror rb)) with false by (by destruct (write_mirror rb)).
    destruct (Z.ltb_spec (Z.of_nat (length data)) (Z.of_nat (length q2 + (length a + length q1)) - Z.of_nat (length q2))) as [Hlt|Hge].
    + rewrite <- Ew. eapply wp_mono; [apply (overwrite_wrapped rb q1 q2 a data r)|]; rewrite ?length_app; try done; [lia..|].
      cbn beta. intros k rb' (-> & Hb & Hr'). rewrite Hb, Es. split; [done|]. split; [done|].
      rewrite drop_app_le by (rewrite length_app; lia). by replace (_ - Z.to_nat _)%nat with (length data - length a)%nat by lia.
    + destruct (cut data (length a + length q1)) as (d1 & d2 & -> & Hd1); [lia|]. rewrite length_app in *.
      destruct (cut q2 (length d2)) as (x1 & x2 & -> & Hx1); [lia|]. rewrite length_app in *.
      rewrite <- app_assoc. eapply wp_mono; [apply (overwrite_around rb x1 x2 (a ++ q1) d1 d2 r)|]; rewrite ?length_app; try done; [by rewrite E, <- app_assoc|by destruct a, q1|lia..|].
      cbn beta. intros k rb' (-> & Hb & Hr'). rewrite Hb, Es. split; [done|]. split; [done|].
      rewrite Em in Hr'. replace (eqb (negb (write_mirror rb)) (write_mirror rb)) with false in Hr' by (by destruct (write_mirror rb)).
      replace ((q1 ++ x1 ++ x2) ++ d1 ++ d2) with ((q1 ++ x1) ++ x2 ++ d1 ++ d2) by (by rewrite <- !app_assoc).
      by rewrite drop_app_length' by (rewrite length_app; lia).
Qed.
End Properties.

(** ** The bounded queue *)

Inductive ring_op : Set :=
  | OpPut (ptr : bytes) (n : Z)
  | OpGet (n : Z)
  | OpPutchar (c : Z)
  | OpPutcharForce (c : Z)
  | OpGetchar
  | OpPeak
  | OpLen
  | OpReset.

Inductive answer : Set := Count (n : Z) | Bytes (l : bytes).

(** The call and what its caller sees. *)
Definition ring_call (o : ring_op) : M rt_ringbuffer answer :=
  match o with
  | OpPut ptr n => r <- rt_ringbuffer_put ptr n ;; ret (Count r)
  | OpGet n => l <- rt_ringbuffer_get n ;; ret (Bytes l)
  | OpPutchar c => r <- rt_ringbuffer_putchar c ;; ret (Count r)
  | OpPutcharForce c => r <- rt_ringbuffer_putchar_force c ;; ret (Count r)
  | OpGetchar => c <- rt_ringbuffer_getchar ;; ret (Bytes (match c with Some c => [c] | None => [] end))
  | OpPeak =>
      p <- rt_ringbuffer_peak ;;
      l <- gets buffer_ptr ;;
      ret (Bytes (match p with Some (i, n) => take (Z.to_nat n) (drop (Z.to_nat i) l) | None => [] end))
  | OpLen => r <- gets rt_ringbuffer_data_len ;; ret (Count r)
  | OpReset => rt_ringbuffer_reset ;;; ret (Count 0)
  end.

(** The arguments fit their types, and the source of a put is as long as it says. *)
Definition op_ok (o : ring_op) : Prop :=
  match o with
  | OpPut ptr n => 0 <= n < 2 ^ 16 /\ n <= Z.of_nat (length ptr)
  | OpGet n => 0 <= n < 2 ^ 16
  | _ => True
  end.

(** The specification: a queue of at most [cap] bytes. *)
Inductive queue_step (cap : Z) (q : bytes) : ring_op -> answer -> bytes -> Prop :=
  | q_put ptr n k : k = Z.min n (cap - Z.of_nat (length q)) ->
      queue_step cap q (OpPut ptr n) (Count k) (q ++ take (Z.to_nat k) ptr)
  | q_get n k : k = Z.to_nat (Z.min n (Z.of_nat (length q))) ->
      queue_step cap q (OpGet n) (Bytes (take k q)) (drop k q)
  | q_putchar c : Z.of_nat (length q) < cap -> queue_step cap q (OpPutchar c) (Count 1) (q ++ [c])
  | q_putchar_full c : Z.of_nat (length q) = cap -> queue_step cap q (OpPutchar c) (Count 0) q
  | q_force c : Z.of_nat (length q) < cap -> queue_step cap q (OpPutcharForce c) (Count 1) (q ++ [c])
  | q_force_full c : Z.of_nat (length q) = cap -> queue_step cap q (OpPutcharForce c) (Count 1) (tail q ++ [c])
  | q_getchar c q' : q = c :: q' -> queue_step cap q OpGetchar (Bytes [c]) q'
  | q_getchar_empty : q = [] -> queue_step cap q OpGetchar (Bytes []) []
  | q_peak d q' : q = d ++ q' -> (d = [] -> q = []) -> queue_step cap q OpPeak (Bytes d) q'
  | q_len : queue_step cap q OpLen (Count (Z.of_nat (length q))) q
  | q_reset : queue_step cap q OpReset (Count 0) [].

Inductive queue_steps (cap : Z) : bytes -> list ring_op -> list answer -> bytes -> Prop :=
  | qs_nil q : queue_steps cap q [] [] q
  | qs_cons q o r q1 os rs q2 :
      queue_step cap q o r q1 -> queue_steps cap q1 os rs q2 -> queue_steps cap q (o :: os) (r :: rs) q2.

Fixpoint ring_calls (os : list ring_op) : M rt_ringbuffer (list answer) :=
  match os with
  | [] => ret []
  | o :: os => r <- ring_call o ;; rs <- ring_calls os ;; ret (r :: rs)
  end.

Section Refinement.
Implicit Types (rb : rt_ringbuffer) (q : bytes).

Lemma ring_call_refines o rb q :
  repr rb q -> op_ok o ->
  wp (ring_call o) rb (fun r rb' => exists q', queue_step (buffer_size rb) q o r q' /\ repr rb' q' /\ buffer_size rb' = buffer_size rb).
Proof.
  intros Hr Ho. pose proof (repr_size _ _ Hr) as (B & _). destruct o as [ptr n|n|c|c| | | |]; cbn [ring_call op_ok] in *; wp_step.
  - eapply wp_mono; [apply put_spec; [done|apply Ho..]|]. cbn beta. intros r rb' (-> & H1 & H2). wp_steps. eexists. split; [by constructor|done].
  - eapply wp_mono; [by apply get_spec|]. cbn beta. intros r rb' (-> & H1 & H2). wp_steps. eexists. split; [by constructor|done].
  - eapply wp_mono; [by apply putchar_spec|]. cbn beta. intros r rb' (-> & H1 & H2). wp_steps. eexists. split; [|done].
    destruct (Z.ltb_spec (Z.of_nat (length q)) (buffer_size rb)); constructor; lia.
  - eapply wp_mono; [by apply putchar_force_spec|]. cbn beta. intros r rb' (-> & H1 & H2). wp_steps. eexists. split; [|done].
    destruct (Z.ltb_spec (Z.of_nat (length q)) (buffer_size rb)); constructor; lia.
  - eapply wp_mono; [by apply getchar_spec|]. cbn beta. intros r rb' (-> & H1 & H2). wp_steps. eexists. split; [|done].
    destruct q; by constructor.
  - eapply wp_mono; [by apply peak_spec|]. cbn beta. intros [[i n]|] rb' (Hp & H1 & H2); wp_steps.
    + destruct H2 as (d & q' & -> & Hd & H3 & H4). rewrite Hp, H4. exists q'. split; [by constructor|done].
    + destruct H2 as [-> ->]. eexists. split; [by apply (q_peak _ _ [] [])|done].
  - wp_steps. rewrite (data_len_spec _ _ Hr). eexists. split; [constructor|done].
  - eapply wp_mono; [by apply (reset_spec _ q)|]. cbn beta. intros _ rb' (H1 & H2). wp_steps. eexists. split; [constructor|done].
Qed.

(** C28. The ring buffer is a bounded queue: from a well-formed ring that holds the bytes
    [q], every sequence of calls runs without an access outside the pool and answers as a
    queue of [buffer_size] bytes does: a put takes what fits, a get or a peek gives the
    oldest bytes, a forced character drops the oldest one of a full queue. *)
Theorem ring_is_queue os rb q :
  repr rb q -> Forall op_ok os ->
  wp (ring_calls os) rb (fun rs rb' => exists q', queue_steps (buffer_size rb) q os rs q' /\ repr rb' q').
Proof.
  intros Hr Ho. revert rb q Hr. induction Ho as [|o os Ho _ IH]; intros rb q Hr; cbn [ring_calls]; wp_steps.
  { exists q. split; [constructor|done]. }
  eapply wp_mono; [by apply ring_call_refines|]. cbn beta. intros r rb' (q1 & Hq & Hr1 & Hb). wp_steps.
  eapply wp_mono; [by apply IH|]. cbn beta. intros rs rb2 (q2 & Hq2 & Hr2). wp_steps. rewrite Hb in Hq2.
  exists q2. split; [by econstructor|done].
Qed.

(** Forced writing can lose everything: when [rt_ringbuffer_put_force] gets more than
    fits and the readable bytes lie in one piece, it reports that it stored the data, but
    leaves the ring empty; only when they run over the end of the pool does it keep the most
    recent bytes, as its comment promises. *)
Theorem put_force_empties rb q ptr n :
  repr rb q -> 0 < n < 2 ^ 16 -> n <= Z.of_nat (length ptr) ->
  buffer_size rb < Z.of_nat (length q) + Z.min n (buffer_size rb) ->
  wp (rt_ringbuffer_put_force ptr n) rb (fun r rb' => r = Z.min n (buffer_size rb) /\
    if eqb (read_mirror rb) (write_mirror rb) then rt_ringbuffer_data_len rb' = 0
    else repr rb' (drop (Z.to_nat (Z.of_nat (length q) + r - buffer_size rb)) (q ++ forced ptr n (buffer_size rb)))).
Proof.
  intros Hr Hn Hp Hx. eapply wp_mono; [by apply put_force_spec|]. cbn beta zeta. intros r rb' (-> & _ & H). split; [done|].
  rewrite (proj2 (Nat.eqb_neq _ _)) in H by lia. destruct (eqb _ _); [by rewrite (data_len_spec _ _ H)|done].
Qed.
End Refinement.

(** A ring of eight bytes. *)
Definition example_ring : rt_ringbuffer := RingBuffer (replicate 8 0) false 0 false 0 8.

Lemma example_ring_repr : repr example_ring [].
Proof. by apply repr_straight with (a := []) (c := replicate 8 0). Qed.

Lemma ring_is_queue_witness :
  exists q', queue_steps 8 [] [OpPut [1; 2; 3; 4; 5; 6] 6; OpGet 4; OpPut [7; 8; 9; 10] 4; OpPutcharForce 11; OpGet 9]
    [Count 6; Bytes [1; 2; 3; 4]; Count 4; Count 1; Bytes [5; 6; 7; 8; 9; 10; 11]] q'.
Proof.
  pose proof (ring_is_queue [OpPut [1; 2; 3; 4; 5; 6] 6; OpGet 4; OpPut [7; 8; 9; 10] 4; OpPutcharForce 11; OpGet 9]
    example_ring [] example_ring_repr) as H.
  apply wp_total in H as (rs & rb' & E & q' & Hq & _); [|repeat constructor; cbn; lia].
  vm_compute in E. injection E as <- <-. by exists q'.
Defined.

(** Two bytes in the ring, then seven more by force: nothing is left. *)
Lemma put_force_empties_witness :
  match rt_ringbuffer_put [1; 2] 2 example_ring with
  | Ok (_, rb) => wp (rt_ringbuffer_put_force [3; 4; 5; 6; 7; 8; 9] 7) rb (fun r rb' => r = 7 /\ rt_ringbuffer_data_len rb' = 0)
  | Fault _ => False
  end.
Proof.
  pose proof (put_spec example_ring [] [1; 2] 2 example_ring_repr) as H.
  apply wp_total in H as (r & rb & E & _ & Hr & Hs); [|done..]. rewrite E. vm_compute in E. injection E as <- <-.
  eapply wp_mono; [by apply (put_force_empties _ [1; 2])|]. cbn beta. intros r rb' [-> H]. by split.
Defined.
