(* ===== verification/Pipe.v ===== *)
(** * Pipe device

    Models [rt-thread/components/drivers/src/pipe.c] with the part of [waitqueue.c] its
    writers block on: opening and closing, the device's own read and write, and the file
    operations [read] and [write] through which the MQTT client's threads hand messages to its
    worker. A call of [write] that does not fit is a thread that goes through the loop of
    [pipe_fops_write] in steps; the steps of several writers and of the reader interleave in
    any order. What a thread does while it holds the pipe's mutex is one step. *)

From stdpp Require Import base numbers list.
From Stdlib Require Import ZArith Lia.
From S2P Require Import Prelude RingBuffer.

Definition EPIPE : Z := 32.
Definition EAGAIN : Z := 11.
Definition EINVAL : Z := 22.

(** [O_ACCMODE] of a file descriptor. *)
Inductive access : Set := O_RDONLY | O_WRONLY | O_RDWR.

(** [struct rt_pipe_device], with the flag of its writers' wait queue. *)
Record rt_pipe_device : Type := PipeDevice {
  fifo : option rt_ringbuffer;
  bufsz : Z;
  readers : Z;
  writers : Z;
  ref_count : Z;
  writer_flag : bool
}.

Definition set_fifo (f : option rt_ringbuffer) (p : rt_pipe_device) : rt_pipe_device :=
  PipeDevice f (bufsz p) (readers p) (writers p) (ref_count p) (writer_flag p).
Definition set_ends (r w n : Z) (p : rt_pipe_device) : rt_pipe_device :=
  PipeDevice (fifo p) (bufsz p) (u8 r) (u8 w) (u8 n) (writer_flag p).
Definition set_flag (b : bool) (p : rt_pipe_device) : rt_pipe_device :=
  PipeDevice (fifo p) (bufsz p) (readers p) (writers p) (ref_count p) b.

(** The ring behind the pointer [fifo]. *)
Definition on_fifo {A : Type} (m : M rt_ringbuffer A) : M rt_pipe_device A := fun p =>
  match fifo p with
  | None => Fault NullAccess
  | Some rb => match m rb with Ok (a, rb) => Ok (a, set_fifo (Some rb) p) | Fault f => Fault f end
  end.

(** ** Opening and closing *)

(** [alloc] is whether the allocator gives the structure, [registered] whether
    [rt_device_register] takes it; NULL is [None]. *)
Definition rt_pipe_create {S : Type} (alloc registered : bool) (size : Z) : M S (option rt_pipe_device) :=
  if negb alloc then ret None
  else
    rt_assert (size <? 0xFFFF) ;;;
    if negb registered then ret None
    else ret (Some (PipeDevice None (u16 size) 0 0 0 false)).

Definition reads (m : access) : Z := match m with O_WRONLY => 0 | _ => 1 end.
Definition writes (m : access) : Z := match m with O_RDONLY => 0 | _ => 1 end.

(** [rb_ok] and [pool] are what the allocator answers. *)
Definition pipe_fops_open (rb_ok : bool) (pool : Z -> option bytes) (mode : access) : M rt_pipe_device Z :=
  p <- get ;;
  ok <- (if ref_count p =? 0 then
           rb <- rt_ringbuffer_create rb_ok pool (bufsz p) ;;
           modify (set_fifo rb) ;;;
           ret (match rb with Some _ => true | None => false end)
         else ret true) ;;
  if negb ok then ret (- RT_ENOMEM)
  else
    modify (set_ends (readers p + reads mode) (writers p + writes mode) (ref_count p + 1)) ;;;
    ret 0.

(** Closing the last reader lets the writers go; a named pipe is kept. *)
Definition pipe_fops_close (mode : access) : M rt_pipe_device Z :=
  p <- get ;;
  modify (set_ends (readers p - reads mode) (writers p - writes mode) (ref_count p)) ;;;
  r <- gets readers ;;
  when (r =? 0) (modify (set_flag true)) ;;;
  when (ref_count p =? 1) (modify (set_fifo None)) ;;;
  modify (fun p => set_ends (readers p) (writers p) (ref_count p - 1) p) ;;;
  ret 0.

(** [pipe]: the structure is filled in and both ends are opened; the results of [open] are
    those of [pipe_fops_open] (or a descriptor). *)
Definition pipe (alloc registered rb_ok : bool) (pool : Z -> option bytes) : M rt_pipe_device Z :=
  p <- rt_pipe_create alloc registered PIPE_BUFSZ ;;
  match p with
  | None => ret (-1)
  | Some p =>
      put p ;;;
      fd0 <- pipe_fops_open rb_ok pool O_RDONLY ;;
      if fd0 <? 0 then ret (-1)
      else
        fd1 <- pipe_fops_open rb_ok pool O_WRONLY ;;
        if fd1 <? 0 then pipe_fops_close O_RDONLY ;;; ret (-1) else ret 0
  end.

Inductive ioctl : Set := FIONREAD | FIONWRITE | OtherCommand.

(** The result and what is stored through [args]. *)
Definition pipe_fops_ioctl (cmd : ioctl) : M rt_pipe_device (Z * option Z) :=
  match cmd with
  | FIONREAD => n <- on_fifo (gets rt_ringbuffer_data_len) ;; ret (0, Some n)
  | FIONWRITE => n <- on_fifo (gets rt_ringbuffer_space_len) ;; ret (0, Some n)
  | OtherCommand => ret (- EINVAL, None)
  end.

(** The events of [pipe_fops_poll]: readable, writable, hung up, error. *)
Definition pipe_fops_poll (mode : access) : M rt_pipe_device (bool * bool * bool * bool) :=
  n <- on_fifo (gets rt_ringbuffer_data_len) ;;
  k <- on_fifo (gets rt_ringbuffer_space_len) ;;
  p <- get ;;
  let rd := reads mode =? 1 in let wr := writes mode =? 1 in
  ret (rd && negb (n =? 0), wr && negb (k =? 0), rd && (writers p =? 0), wr && (readers p =? 0)).

(** ** The device interface *)

(** The loops of [rt_pipe_read] and [rt_pipe_write]; a turn that moves nothing ends them. *)
Fixpoint rt_pipe_read (fuel : nat) (count : Z) : M rt_pipe_device bytes :=
  match fuel with
  | O => ret []
  | S fuel =>
      if count <=? 0 then ret []
      else
        d <- on_fifo (rt_ringbuffer_get (u16 count)) ;;
        if bool_decide (d = []) then ret []
        else rest <- rt_pipe_read fuel (count - Z.of_nat (length d)) ;; ret (d ++ rest)
  end.

Fixpoint rt_pipe_write (fuel : nat) (buffer : bytes) : M rt_pipe_device Z :=
  match fuel with
  | O => ret 0
  | S fuel =>
      if bool_decide (buffer = []) then ret 0
      else
        n <- on_fifo (rt_ringbuffer_put buffer (u16 (Z.of_nat (length buffer)))) ;;
        if n <=? 0 then ret 0
        else rest <- rt_pipe_write fuel (drop (Z.to_nat n) buffer) ;; ret (n + rest)
  end.

(** ** The file operations *)

(** Where a thread is in [pipe_fops_write]: at the head of the loop; after it released the
    mutex, about to wait; on the wait queue; taken off it; returned. *)
Inductive place : Set := Looping | AboutToWait | Suspended | Resumed | Returned (r : Z).

(** A thread in [pipe_fops_write]: the bytes at [pbuf], the count [ret]. *)
Record writer : Type := Writer { pbuf : bytes; w_ret : Z; at_place : place }.

Definition move_to (l : place) (t : writer) : writer := Writer (pbuf t) (w_ret t) l.

(** The call. *)
Definition pipe_fops_write (buf : bytes) : M rt_pipe_device writer :=
  r <- gets readers ;;
  ret (Writer buf 0 (if r =? 0 then Returned (- EPIPE) else if bool_decide (buf = []) then Returned 0 else Looping)).

(** One turn of its loop, under the mutex; the file is not [O_NONBLOCK]. *)
Definition write_turn (t : writer) : M rt_pipe_device writer :=
  r <- gets readers ;;
  if r =? 0 then ret (move_to (Returned (if w_ret t =? 0 then - EPIPE else w_ret t)) t)
  else
    len <- on_fifo (rt_ringbuffer_put (pbuf t) (u16 (Z.of_nat (length (pbuf t))))) ;;
    let pbuf := drop (Z.to_nat len) (pbuf t) in
    let n := w_ret t + len in
    ret (Writer pbuf n (if bool_decide (pbuf = []) then Returned n else AboutToWait)).

(** [rt_wqueue_wait]: it returns at once when the queue was woken since the last wait. *)
Definition wait_turn (t : writer) : M rt_pipe_device writer :=
  b <- gets writer_flag ;;
  if b : bool then modify (set_flag false) ;;; ret (move_to Looping t)
  else ret (move_to Suspended t).

Definition resumed_turn (t : writer) : M rt_pipe_device writer :=
  modify (set_flag false) ;;; ret (move_to Looping t).

Definition writer_turn (t : writer) : M rt_pipe_device writer :=
  match at_place t with
  | Looping => write_turn t
  | AboutToWait => wait_turn t
  | Resumed => resumed_turn t
  | Suspended | Returned _ => ret t
  end.

(** A turn of [pipe_fops_read]: the bytes it gets; it wakes the writers whether there are
    some or not, unless nobody can write any more. Only when it gets nothing does it release
    the mutex before the wake-up; a wake-up that comes after other threads' steps is then a
    turn with [count = 0], which takes nothing and wakes. *)
Definition read_turn (count : Z) : M rt_pipe_device bytes :=
  w <- gets writers ;;
  if w =? 0 then ret []
  else
    d <- on_fifo (rt_ringbuffer_get (u16 count)) ;;
    modify (set_flag true) ;;;
    ret d.

(** *** The threads together *)

(** The pipe, the threads that called [write], and the wait queue in its order. *)
Record pipe_state : Type := PipeState { device : rt_pipe_device; threads : list writer; waiting : list nat }.

(** [rt_wqueue_wakeup] resumes the first thread of the queue. *)
Definition rt_wqueue_wakeup (ts : list writer) (w : list nat) : list writer * list nat :=
  match w with
  | [] => (ts, [])
  | i :: w => (alter (move_to Resumed) i ts, w)
  end.

(** What a step moves. *)
Inductive move : Set :=
  | Called (data : bytes)           (* a new call of [write] *)
  | Put (i : nat) (l : bytes)       (* a writer's bytes go into the ring *)
  | Got (l : bytes).                (* the reader gets bytes *)

Definition runnable (t : writer) : bool :=
  match at_place t with Looping | AboutToWait | Resumed => true | _ => false end.

(** The count of a [write] fits the ring's 16-bit length. *)
Inductive pipe_step : pipe_state -> move -> pipe_state -> Prop :=
  | step_call p ts w data t p' :
      Z.of_nat (length data) < 2 ^ 16 -> pipe_fops_write data p = Ok (t, p') ->
      pipe_step (PipeState p ts w) (Called data) (PipeState p' (ts ++ [t]) w)
  | step_write p ts w i t t' p' :
      ts !! i = Some t -> runnable t = true -> writer_turn t p = Ok (t', p') ->
      pipe_step (PipeState p ts w) (Put i (take (length (pbuf t) - length (pbuf t')) (pbuf t)))
        (PipeState p' (<[i := t']> ts) (match at_place t' with Suspended => w ++ [i] | _ => w end))
  | step_read p ts w n d p' ts' w' :
      0 <= n < 2 ^ 16 -> read_turn n p = Ok (d, p') -> rt_wqueue_wakeup ts w = (ts', w') ->
      pipe_step (PipeState p ts w) (Got d) (PipeState p' ts' w').

Inductive pipe_run (s0 : pipe_state) : list move -> pipe_state -> Prop :=
  | run_nil : pipe_run s0 [] s0
  | run_snoc ms s m s' : pipe_run s0 ms s -> pipe_step s m s' -> pipe_run s0 (ms ++ [m]) s'.

(** ** Traces *)

Definition got_of (m : move) : bytes := match m with Got l => l | _ => [] end.
Definition put_of (m : move) : bytes := match m with Put _ l => l | _ => [] end.
Definition put_by (i : nat) (m : move) : bytes :=
  match m with Put j l => if decide (i = j) then l else [] | _ => [] end.
Definition call_of (m : move) : list bytes := match m with Called d => [d] | _ => [] end.

(** What the reader got, what the writers put, what the [i]-th of them put, and the calls,
    in the order of the moves. *)
Definition got (ms : list move) : bytes := flat_map got_of ms.
Definition puts (ms : list move) : bytes := flat_map put_of ms.
Definition puts_by (i : nat) (ms : list move) : bytes := flat_map (put_by i) ms.
Definition calls (ms : list move) : list bytes := flat_map call_of ms.

(** ** The invariant *)

(** An open pipe that holds [q]. *)
Record holds (p : rt_pipe_device) (cap : Z) (q : bytes) : Prop := {
  holds_ring : exists rb, fifo p = Some rb /\ repr rb q /\ buffer_size rb = cap;
  holds_ends : readers p <> 0 /\ writers p <> 0
}.

(** A thread that was called with [data] and has put [done]. *)
Definition writer_ok (data done : bytes) (t : writer) : Prop :=
  data = done ++ pbuf t /\ w_ret t = Z.of_nat (length done) /\
  match at_place t with Returned r => pbuf t = [] /\ r = w_ret t | _ => pbuf t <> [] end.

Definition suspended (ts : list writer) (i : nat) : Prop := exists t, ts !! i = Some t /\ at_place t = Suspended.
Definition awake (t : writer) : Prop := at_place t = Looping \/ at_place t = Resumed.
Definition unfinished (t : writer) : Prop := match at_place t with Returned _ => False | _ => True end.

(** The pipe holds [q] after the moves [ms]. *)
Record pipe_ok (cap : Z) (ms : list move) (q : bytes) (s : pipe_state) : Prop := {
  ok_stream : puts ms = got ms ++ q;
  ok_holds : holds (device s) cap q;
  ok_threads : length (threads s) = length (calls ms);
  ok_writers i t data : threads s !! i = Some t -> calls ms !! i = Some data ->
    writer_ok data (puts_by i ms) t /\ Z.of_nat (length data) < 2 ^ 16;
  ok_waiting : NoDup (waiting s) /\ forall i, i ∈ waiting s <-> suspended (threads s) i;
  ok_fresh i : (length (calls ms) <= i)%nat -> puts_by i ms = [];
  ok_wakeups : q = [] -> Exists unfinished (threads s) ->
    Exists awake (threads s) \/ (writer_flag (device s) = true /\ Exists (fun t => at_place t = AboutToWait) (threads s))
}.

Section Turns.
Implicit Types p : rt_pipe_device.

Lemma holds_cap p cap q : holds p cap q -> Z.of_nat (length q) <= cap /\ 0 < cap < 2 ^ 15.
Proof. intros [(rb & _ & Hr & <-) _]. pose proof (repr_size _ _ Hr). lia. Qed.

Lemma wp_on_fifo {A} (m : M rt_ringbuffer A) p rb (Q : A -> rt_pipe_device -> Prop) :
  fifo p = Some rb -> wp m rb (fun a rb' => Q a (set_fifo (Some rb') p)) -> wp (on_fifo m) p Q.
Proof. intros E. unfold wp, on_fifo. rewrite E. destruct (m rb) as [[a rb']|]; auto. Qed.

Lemma write_turn_spec p cap q t :
  holds p cap q -> pbuf t <> [] -> Z.of_nat (length (pbuf t)) < 2 ^ 16 ->
  let k := Z.to_nat (Z.min (Z.of_nat (length (pbuf t))) (cap - Z.of_nat (length q))) in
  wp (write_turn t) p (fun t' p' => holds p' cap (q ++ take k (pbuf t)) /\ writer_flag p' = writer_flag p /\
    pbuf t' = drop k (pbuf t) /\ w_ret t' = w_ret t + Z.of_nat k /\
    at_place t' = if bool_decide (pbuf t' = []) then Returned (w_ret t') else AboutToWait).
Proof.
  intros Hh Hne Hlen k. pose proof (holds_cap _ _ _ Hh) as (B1 & B2). destruct Hh as [(rb & Hf & Hr & Hb) Hrd]. unfold write_turn. wp_steps.
  rewrite (proj2 (Z.eqb_neq _ _)) by apply Hrd. wp_steps. eapply wp_on_fifo; [done|].
  rewrite (wrap_small 16) by lia. eapply wp_mono; [apply (put_spec rb q); [done|lia..]|]. cbn beta. intros r rb' (-> & Hr' & Hb').
  wp_steps. rewrite Hb in *. split_and!; try done; [|cbn; lia].
  split; [|done]. cbn. exists rb'. by rewrite Hb'.
Qed.

Lemma read_turn_spec p cap q n :
  holds p cap q -> 0 <= n < 2 ^ 16 ->
  let k := Z.to_nat (Z.min n (Z.of_nat (length q))) in
  wp (read_turn n) p (fun d p' => d = take k q /\ holds p' cap (drop k q) /\ writer_flag p' = true).
Proof.
  intros [(rb & Hf & Hr & Hb) Hrd] Hn k. unfold read_turn. wp_steps.
  rewrite (proj2 (Z.eqb_neq _ _)) by apply Hrd. wp_steps. eapply wp_on_fifo; [done|].
  rewrite (wrap_small 16) by lia. eapply wp_mono; [by apply (get_spec rb q)|]. cbn beta. intros d rb' (-> & Hr' & Hb').
  wp_steps. split; [done|]. split; [|done]. split; [|done]. cbn. exists rb'. by rewrite Hb'.
Qed.

Lemma set_flag_holds b p cap q : holds p cap q -> holds (set_flag b p) cap q.
Proof. intros [H1 H2]. by split. Qed.
End Turns.

Section Moves.
Variable cap : Z.
Implicit Types (s : pipe_state) (ms : list move) (q : bytes).

Lemma got_snoc ms m : got (ms ++ [m]) = got ms ++ got_of m.
Proof. unfold got. rewrite flat_map_app. cbn. by rewrite app_nil_r. Qed.
Lemma puts_snoc ms m : puts (ms ++ [m]) = puts ms ++ put_of m.
Proof. unfold puts. rewrite flat_map_app. cbn. by rewrite app_nil_r. Qed.
Lemma puts_app ms ms' : puts (ms ++ ms') = puts ms ++ puts ms'.
Proof. apply flat_map_app. Qed.
Lemma calls_app ms ms' : calls (ms ++ ms') = calls ms ++ calls ms'.
Proof. apply flat_map_app. Qed.
Lemma puts_by_snoc i ms m : puts_by i (ms ++ [m]) = puts_by i ms ++ put_by i m.
Proof. unfold puts_by. rewrite flat_map_app. cbn. by rewrite app_nil_r. Qed.
Lemma calls_snoc ms m : calls (ms ++ [m]) = calls ms ++ call_of m.
Proof. unfold calls. rewrite flat_map_app. cbn. by rewrite app_nil_r. Qed.

Lemma call_ok ms q p ts w data t p' :
  Z.of_nat (length data) < 2 ^ 16 -> pipe_fops_write data p = Ok (t, p') ->
  pipe_ok cap ms q (PipeState p ts w) -> pipe_ok cap (ms ++ [Called data]) q (PipeState p' (ts ++ [t]) w).
Proof.
  intros Hl E [Hs Hh Ht Hw Hq Hf Hu]. unfold pipe_fops_write, bind, gets, ret in E.
  rewrite (proj2 (Z.eqb_neq _ _)) in E by apply Hh. injection E as <- <-. cbn [device threads waiting] in *.
  split; cbn [device threads waiting].
  - rewrite got_snoc, puts_snoc. cbn. by rewrite !app_nil_r.
  - done.
  - rewrite calls_snoc, !length_app. cbn. lia.
  - intros i t d. rewrite puts_by_snoc, calls_snoc. cbn. rewrite app_nil_r.
    rewrite !lookup_app, Ht. destruct (ts !! i) as [t0|] eqn:Et; intros E1 E2.
    + injection E1 as <-. destruct (lookup_lt_is_Some_2 (calls ms) i) as [d0 Ed]; [rewrite <- Ht; by eapply lookup_lt_Some|].
      rewrite Ed in E2. injection E2 as <-. by apply Hw.
    + apply lookup_ge_None in Et. rewrite lookup_ge_None_2 in E2 by lia.
      destruct (i - length (calls ms))%nat as [|k] eqn:Ei; [|done]. injection E1 as <-. injection E2 as <-.
      split; [|done]. rewrite Hf by lia. unfold writer_ok. cbn. by case_bool_decide.
  - split; [apply Hq|]. intros i. rewrite (proj2 Hq). unfold suspended. split; intros (t & Et & Ep).
    + exists t. split; [|done]. by apply lookup_app_l_Some.
    + exists t. split; [|done]. apply lookup_app_Some in Et as [Et|(_ & Et)]; [done|].
      destruct (i - length ts)%nat; [|done]. injection Et as <-. cbn in Ep. by case_bool_decide.
  - intros i. rewrite calls_snoc, length_app, puts_by_snoc. cbn. rewrite app_nil_r. intros Hi. apply Hf. lia.
  - intros ->. rewrite !Exists_app, !Exists_cons, !Exists_nil. intros [Hx|[Hx|[]]].
    + destruct (Hu eq_refl Hx) as [|[]]; auto.
    + left. right. left. left. cbn in *. unfold unfinished in Hx. cbn in Hx. by case_bool_decide.
Qed.

Lemma read_ok ms q p ts w n d p' ts' w' :
  0 <= n < 2 ^ 16 -> read_turn n p = Ok (d, p') -> rt_wqueue_wakeup ts w = (ts', w') ->
  pipe_ok cap ms q (PipeState p ts w) ->
  let k := Z.to_nat (Z.min n (Z.of_nat (length q))) in
  d = take k q /\ pipe_ok cap (ms ++ [Got d]) (drop k q) (PipeState p' ts' w').
Proof.
  intros Hn E Ew [Hs Hh Ht Hw [Hnd Hq] Hf Hu] k. cbn [device threads waiting] in *.
  pose proof (read_turn_spec p cap q n Hh Hn) as Hr. unfold wp in Hr. rewrite E in Hr. destruct Hr as (-> & Hh' & Hfl). fold k in Hh' |- *.
  split; [done|].
  assert (puts (ms ++ [Got (take k q)]) = got (ms ++ [Got (take k q)]) ++ drop k q) as Hstream.
  { rewrite got_snoc, puts_snoc, Hs. cbn. by rewrite app_nil_r, <- app_assoc, take_drop. }
  destruct w as [|i w]; injection Ew as <- <-; split; cbn [device threads waiting]; try done;
    rewrite ?calls_snoc, ?app_nil_r, ?length_alter; cbn [call_of]; rewrite ?app_nil_r; try done.
  - intros i t data. rewrite puts_by_snoc, app_nil_r. apply Hw.
  - intros i Hi. rewrite puts_by_snoc, app_nil_r. by apply Hf.
  - intros _ Hx. apply Exists_exists in Hx as (t & Hin & Hx). destruct (at_place t) eqn:Ep.
    + left. apply Exists_exists. exists t. split; [done|]. by left.
    + right. split; [done|]. apply Exists_exists. by exists t.
    + apply list_elem_of_lookup in Hin as [j Hj]. exfalso. apply (not_elem_of_nil (A := nat) j), Hq. by exists t.
    + left. apply Exists_exists. exists t. split; [done|]. by right.
    + unfold unfinished in Hx. by rewrite Ep in Hx.
  - destruct (proj1 (Hq i)) as (t0 & Et0 & Ep0); [by left|].
    intros j t data. rewrite puts_by_snoc, app_nil_r. destruct (decide (i = j)) as [<-|Hne].
    + rewrite list_lookup_alter_eq, Et0. intros [= <-] Hd. destruct (Hw i t0 data Et0 Hd) as ((W1 & W2 & W3) & W4).
      split; [|done]. rewrite Ep0 in W3. by split.
    + rewrite list_lookup_alter_ne by done. apply Hw.
  - apply NoDup_cons in Hnd as [Hni Hnd]. split; [done|]. intros j. unfold suspended. split.
    + intros Hj. destruct (proj1 (Hq j)) as (t & Et & Ep); [by right|]. exists t. split; [|done].
      by rewrite list_lookup_alter_ne by (intros ->; done).
    + intros (t & Et & Ep). destruct (decide (i = j)) as [<-|Hne].
      * rewrite list_lookup_alter_eq in Et. destruct (ts !! i); [|done]. injection Et as <-. done.
      * rewrite list_lookup_alter_ne in Et by done. assert (j ∈ i :: w) as Hj by (apply Hq; by exists t).
        apply elem_of_cons in Hj as [->|]; done.
  - intros j Hj. rewrite puts_by_snoc, app_nil_r. by apply Hf.
  - intros _ _. left. destruct (proj1 (Hq i)) as (t0 & Et0 & Ep0); [by left|]. apply Exists_exists. exists (move_to Resumed t0).
    split; [|by right]. apply list_elem_of_lookup. exists i. by rewrite list_lookup_alter_eq, Et0.
Qed.

(** A writer's move, whatever its turn is. *)
Lemma put_ok ms q p ts w i t t' p' l :
  pipe_ok cap ms q (PipeState p ts w) -> ts !! i = Some t -> at_place t <> Suspended ->
  holds p' cap (q ++ l) -> pbuf t = l ++ pbuf t' -> w_ret t' = w_ret t + Z.of_nat (length l) ->
  match at_place t' with Returned r => pbuf t' = [] /\ r = w_ret t' | _ => pbuf t' <> [] end ->
  (q ++ l = [] -> unfinished t' -> Exists awake (<[i := t']> ts)) -> (q ++ l = [] -> unfinished t') ->
  pipe_ok cap (ms ++ [Put i l]) (q ++ l)
    (PipeState p' (<[i := t']> ts) (match at_place t' with Suspended => w ++ [i] | _ => w end)).
Proof.
  intros [Hs Hh Ht Hw [Hnd Hq] Hf Hu] Et Ep Hh' Hb Hn Hp Ha Hunf. cbn [device threads waiting] in *.
  split; cbn [device threads waiting]; rewrite ?calls_snoc, ?length_insert; cbn [call_of]; rewrite ?app_nil_r; try done.
  - rewrite got_snoc, puts_snoc, Hs. cbn. by rewrite app_nil_r, <- app_assoc.
  - intros j u data Eu Ed. rewrite puts_by_snoc. cbn. apply list_lookup_insert_Some in Eu as [(<- & <- & _)|(Hne & Eu)].
    + rewrite decide_True by done. destruct (Hw i t data Et Ed) as ((W1 & W2 & W3) & W4). split; [|done].
      split; [by rewrite <- app_assoc, <- Hb|]. split; [rewrite length_app, Hn; lia|exact Hp].
    + rewrite decide_False, app_nil_r by done. by apply Hw.
  - assert (forall j, j <> i -> suspended (<[i:=t']> ts) j <-> j ∈ w) as Hothers.
    { intros j Hj. rewrite Hq. unfold suspended. by rewrite list_lookup_insert_ne by done. }
    assert (i ∉ w) as Hni by (rewrite Hq; intros (u & Eu & Epu); congruence).
    assert (suspended (<[i:=t']> ts) i <-> at_place t' = Suspended) as Hi.
    { unfold suspended. rewrite list_lookup_insert_eq by (by eapply lookup_lt_Some). split; [by intros (u & [= <-] & Epu)|eauto]. }
    assert (forall j, j ∈ w <-> j <> i /\ suspended (<[i:=t']> ts) j) as Hall.
    { intros j. destruct (decide (j = i)) as [->|Hj]; [tauto|]. rewrite Hothers; tauto. }
    assert (at_place t' <> Suspended -> forall j, j ∈ w <-> suspended (<[i:=t']> ts) j) as Hsame.
    { intros Hne j. rewrite Hall. destruct (decide (j = i)) as [->|]; tauto. }
    destruct (at_place t') eqn:Ept; try (split; [done|by apply Hsame]). split.
    + apply NoDup_app. split; [done|]. split; [|apply NoDup_singleton]. intros j Hj Hji. by apply list_elem_of_singleton in Hji as ->.
    + intros j. rewrite elem_of_app, list_elem_of_singleton, Hall. destruct (decide (j = i)) as [->|]; tauto.
  - intros j Hj. rewrite puts_by_snoc, Hf by done. cbn. rewrite decide_False; [done|]. intros ->.
    apply lookup_lt_Some in Et. lia.
  - intros E0 _. left. auto.
Qed.

(** A thread's data, by the calls. *)
Lemma ok_call ms q s i t : pipe_ok cap ms q s -> threads s !! i = Some t ->
  exists data, writer_ok data (puts_by i ms) t /\ Z.of_nat (length data) < 2 ^ 16.
Proof.
  intros Hok Et. destruct (lookup_lt_is_Some_2 (calls ms) i) as [data Ed].
  { rewrite <- (ok_threads _ _ _ _ Hok). by eapply lookup_lt_Some. }
  exists data. by eapply ok_writers.
Qed.

Lemma awake_insert ts i t : ts !! i = Some t -> forall t', awake t' -> Exists awake (<[i := t']> ts).
Proof.
  intros Et t' Ha. apply Exists_exists. exists t'. split; [|done]. apply list_elem_of_lookup. exists i.
  apply list_lookup_insert_eq. by eapply lookup_lt_Some.
Qed.

Lemma writer_turn_ok ms q p ts w i t :
  pipe_ok cap ms q (PipeState p ts w) -> ts !! i = Some t -> runnable t = true ->
  wp (writer_turn t) p (fun t' p' =>
    let l := take (length (pbuf t) - length (pbuf t')) (pbuf t) in
    pipe_ok cap (ms ++ [Put i l]) (q ++ l)
      (PipeState p' (<[i := t']> ts) (match at_place t' with Suspended => w ++ [i] | _ => w end)) /\
    pbuf t = l ++ pbuf t' /\
    (at_place t = Looping -> q = [] -> l <> []) /\
    (at_place t <> Looping -> pbuf t' = pbuf t /\ (writer_flag p = true \/ at_place t = Resumed -> at_place t' = Looping))).
Proof.
  intros Hok Et Hrun. destruct (ok_call _ _ _ _ _ Hok Et) as (data & (W1 & W2 & W3) & W4). pose proof (ok_holds _ _ _ _ Hok) as Hh.
  cbn [device threads] in *. unfold writer_turn, runnable in *. destruct (at_place t) eqn:Ep; try done.
  - pose proof (holds_cap _ _ _ Hh) as (B1 & B2).
    eapply wp_mono; [apply (write_turn_spec p cap q t Hh W3)|].
    { apply (f_equal length) in W1. rewrite length_app in W1. lia. }
    cbn beta zeta. intros t' p' (Hh' & _ & Hb & Hn & Hpl). set (k := Z.to_nat _) in *.
    assert (k <= length (pbuf t))%nat by lia. rewrite Hb, length_drop, Nat.sub_sub_distr, Nat.sub_diag, Nat.add_0_l by lia.
    assert (q ++ take k (pbuf t) <> []) as Hne.
    { intros E. apply app_eq_nil in E as [-> E]. apply (f_equal length) in E. rewrite length_take in E.
      destruct (pbuf t); [done|]. cbn in *. lia. }
    split; [|split; [by rewrite take_drop|split; [intros _ ->; exact Hne|done]]].
    apply (put_ok ms q p ts w i t); rewrite ?Hb; try done.
    + by rewrite Ep.
    + by rewrite take_drop.
    + rewrite length_take. lia.
    + rewrite Hpl, <- Hb. by case_bool_decide.
  - unfold wait_turn. wp_steps. destruct (writer_flag p) eqn:Efl; wp_steps; cbn [move_to pbuf at_place];
      rewrite Nat.sub_diag; cbn [take]; rewrite app_nil_r; (split; [|split; [done|split; [done|]]]).
    + rewrite <- (app_nil_r q). apply (put_ok ms q p ts w i t); rewrite ?app_nil_r; try done.
      * by rewrite Ep.
      * by apply set_flag_holds.
      * cbn. lia.
      * intros _ _. eapply awake_insert; [done|by left].
    + auto.
    + rewrite <- (app_nil_r q). apply (put_ok ms q p ts w i t (move_to Suspended t)); rewrite ?app_nil_r; try done.
      * by rewrite Ep.
      * cbn. lia.
      * intros E0 _. destruct (ok_wakeups _ _ _ _ Hok E0) as [Ha|[Hf _]]; cbn [threads device] in *.
        { apply Exists_exists. exists t. split; [by eapply list_elem_of_lookup_2|]. unfold unfinished. by rewrite Ep. }
        { apply Exists_exists in Ha as (u & Hu & Ha). apply list_elem_of_lookup in Hu as [j Hj]. apply Exists_exists. exists u. split; [|done].
          apply list_elem_of_lookup. exists j. rewrite list_lookup_insert_ne; [done|]. intros <-. rewrite Et in Hj. injection Hj as <-.
          unfold awake in Ha. rewrite Ep in Ha. by destruct Ha. }
        { congruence. }
    + intros _. split; [done|]. intros [?|?]; done.
  - unfold resumed_turn. wp_steps. cbn [move_to pbuf at_place]. rewrite Nat.sub_diag; cbn [take]. rewrite app_nil_r.
    split; [|split; [done|split; [done|auto]]].
    rewrite <- (app_nil_r q). apply (put_ok ms q p ts w i t); rewrite ?app_nil_r; try done.
    + by rewrite Ep.
    + by apply set_flag_holds.
    + cbn. lia.
    + intros _ _. eapply awake_insert; [done|by left].
Qed.

Lemma step_ok ms q s m s' :
  pipe_ok cap ms q s -> pipe_step s m s' -> exists q', pipe_ok cap (ms ++ [m]) q' s'.
Proof.
  intros Hok Hs. destruct Hs as [p ts w data t p' Hl E|p ts w i t t' p' Et Hr E|p ts w n d p' ts' w' Hn E Ew].
  - exists q. by eapply call_ok.
  - pose proof (writer_turn_ok ms q p ts w i t Hok Et Hr) as Hw. unfold wp in Hw. rewrite E in Hw. eexists. apply Hw.
  - destruct (read_ok ms q p ts w n d p' ts' w' Hn E Ew Hok) as [_ H]. by eexists.
Qed.

(** An open pipe that nobody has written to. *)
Definition opened s : Prop := holds (device s) cap [] /\ threads s = [] /\ waiting s = [].

Lemma opened_ok s : opened s -> pipe_ok cap [] [] s.
Proof.
  destruct s as [p ts w]. intros (Hh & Ht & Hw). cbn in Hh, Ht, Hw. subst. split; cbn; try done.
  - split; [constructor|]. intros i. rewrite elem_of_nil. unfold suspended. split; [done|]. intros (t & E & _). done.
  - intros _ Hx. by apply Exists_nil in Hx.
Qed.

Lemma run_ok s0 ms s : opened s0 -> pipe_run s0 ms s -> exists q, pipe_ok cap ms q s.
Proof.
  intros H0. induction 1 as [|ms s m s' _ [q IH] Hs]; [exists []; by apply opened_ok|by eapply step_ok].
Qed.
End Moves.

Section Properties.
Variable cap : Z.
Implicit Types (s : pipe_state) (ms : list move).

(** C26. The pipe delivers: however the calls of [write], the turns of the blocked writers
    and the reads interleave, the reader gets the bytes in the order in which they were put,
    what it has not got is in the ring, at most its size, and each writer's bytes are put
    once each and in order: what it has put and what it still holds are its data, and its
    call returns only when all of it is put, with its length. *)
Theorem pipe_delivers s0 ms s :
  opened cap s0 -> pipe_run s0 ms s ->
  exists q, holds (device s) cap q /\ Z.of_nat (length q) <= cap /\ puts ms = got ms ++ q /\
    forall i t data, threads s !! i = Some t -> calls ms !! i = Some data ->
      data = puts_by i ms ++ pbuf t /\
      forall r, at_place t = Returned r -> puts_by i ms = data /\ r = Z.of_nat (length data).
Proof.
  intros H0 Hr. destruct (run_ok cap s0 ms s H0 Hr) as [q Hok]. exists q. pose proof (ok_holds _ _ _ _ Hok) as Hh.
  split; [done|]. split; [by eapply holds_cap|]. split; [apply Hok|]. intros i t data Et Ed.
  destruct (ok_writers _ _ _ _ Hok i t data Et Ed) as ((W1 & W2 & W3) & _). split; [done|].
  intros r Er. rewrite Er in W3. destruct W3 as [Hp ->]. rewrite Hp, app_nil_r in W1. by rewrite W1.
Qed.

(** A move that is not a read of nothing. *)
Definition useful (m : move) : Prop := m <> Got [].

(** A writer that can move, on an empty pipe, moves until it has put something. *)
Lemma writer_progress ms s i t s0 :
  opened cap s0 -> pipe_run s0 ms s -> pipe_ok cap ms [] s -> threads s !! i = Some t ->
  awake t \/ (writer_flag (device s) = true /\ at_place t = AboutToWait) ->
  exists ms' s', pipe_run s0 (ms ++ ms') s' /\ calls ms' = [] /\ Forall useful ms' /\ puts ms' <> [].
Proof.
  intros H0.
  assert (forall ms s t, pipe_run s0 ms s -> pipe_ok cap ms [] s -> threads s !! i = Some t -> at_place t = Looping ->
    exists ms' s', pipe_run s0 (ms ++ ms') s' /\ calls ms' = [] /\ Forall useful ms' /\ puts ms' <> []) as Hloop.
  { clear ms s t. intros ms [p ts w] t Hr Hok Et Ep. cbn in Et.
    pose proof (writer_turn_ok cap ms [] p ts w i t Hok Et) as Hw. apply wp_total in Hw as (t' & p' & E & _ & _ & Hne & _);
      [|unfold runnable; by rewrite Ep]. specialize (Hne Ep eq_refl).
    eexists [Put i _], _. split; [eapply run_snoc; [exact Hr|]; eapply step_write; [done| |exact E]; unfold runnable; by rewrite Ep|].
    cbn. rewrite !app_nil_r. split; [done|]. split; [by repeat constructor|done]. }
  intros Hr Hok Et Ha.
  assert (at_place t = Looping \/ runnable t = true /\ at_place t <> Looping /\ (writer_flag (device s) = true \/ at_place t = Resumed)) as [Ep|(Hrun & Hne & Hgo)].
  { unfold runnable. destruct Ha as [[Ep|Ep]|[Hf Ep]]; rewrite Ep; auto. }
  { by eapply Hloop. }
  destruct s as [p ts w]. cbn in Et, Hgo.
  pose proof (writer_turn_ok cap ms [] p ts w i t Hok Et Hrun) as Hw.
  apply wp_total in Hw as (t' & p' & E & Hok' & _ & _ & Hmove). destruct (Hmove Hne) as [Hsame Hl]. specialize (Hl Hgo).
  rewrite Hsame, Nat.sub_diag in Hok'. cbn [take app] in Hok'. rewrite Hl in Hok'.
  destruct (Hloop (ms ++ [Put i []]) (PipeState p' (<[i:=t']> ts) w) t') as (ms' & s' & Hr' & H1 & H2 & H3).
  - pose proof (step_write p ts w i t t' p' Et Hrun E) as Hs. rewrite Hsame, Nat.sub_diag, Hl in Hs. by eapply run_snoc.
  - exact Hok'.
  - cbn. apply list_lookup_insert_eq. by eapply lookup_lt_Some.
  - done.
  - exists (Put i [] :: ms'), s'. rewrite <- app_assoc in Hr'. split; [done|]. split; [done|]. split; [by constructor|done].
Qed.

Fixpoint left_over (ts : list writer) : nat :=
  match ts with [] => 0 | t :: ts => length (pbuf t) + left_over ts end.

Lemma left_over_app ts1 ts2 : left_over (ts1 ++ ts2) = (left_over ts1 + left_over ts2)%nat.
Proof. induction ts1 as [|t ts1 IH]; cbn; lia. Qed.
Lemma left_over_insert ts i t t' : ts !! i = Some t ->
  (left_over (<[i := t']> ts) + length (pbuf t) = left_over ts + length (pbuf t'))%nat.
Proof.
  revert i. induction ts as [|u ts IH]; intros i E; [done|].
  destruct i as [|i]; [injection E as ->; cbn; lia|]. change (<[S i := t']> (u :: ts)) with (u :: <[i := t']> ts).
  specialize (IH i E). cbn [left_over]. lia.
Qed.
Lemma left_over_alter ts i l : left_over (alter (move_to l) i ts) = left_over ts.
Proof. revert i. induction ts as [|t ts IH]; intros i; [done|]. destruct i as [|i]; cbn; [done|]. by rewrite IH. Qed.

(** What the writers still hold is what was called and not put. *)
Lemma left_over_spec s0 ms s : opened cap s0 -> pipe_run s0 ms s ->
  (left_over (threads s) + length (puts ms) = length (concat (calls ms)))%nat.
Proof.
  intros H0. induction 1 as [|ms s m s' Hr IH Hs]; [destruct H0 as (_ & -> & _); done|].
  rewrite puts_snoc, calls_snoc, concat_app, !length_app, <- IH. destruct (run_ok cap s0 ms s H0 Hr) as [q Hok].
  destruct Hs as [p ts w data t p' Hl E|p ts w i t t' p' Et Hrun E|p ts w n d p' ts' w' Hn E Ew];
    cbn [put_of call_of concat threads length].
  - unfold pipe_fops_write, bind, gets, ret in E. injection E as <- _. rewrite left_over_app, app_nil_r. cbn. lia.
  - pose proof (writer_turn_ok cap ms q p ts w i t Hok Et Hrun) as Hw. unfold wp in Hw. rewrite E in Hw.
    destruct Hw as (_ & Hb & _). set (l := take _ _) in *. clearbody l.
    pose proof (left_over_insert ts i t t' Et) as Hi. apply (f_equal length) in Hb. rewrite length_app in Hb. lia.
  - destruct w as [|i w]; injection Ew as <- <-; rewrite ?left_over_alter; lia.
Qed.

Lemma unfinished_left_over ms q s : pipe_ok cap ms q s -> (0 < left_over (threads s))%nat <-> Exists unfinished (threads s).
Proof.
  intros Hok. rewrite Exists_exists. split.
  - intros Hl. assert (exists t, t ∈ threads s /\ pbuf t <> []) as (t & Hin & Hne).
    { clear Hok. induction (threads s) as [|t ts IH]; cbn in Hl; [lia|]. destruct (pbuf t) eqn:E.
      - destruct IH as (u & Hu & Hne); [cbn in Hl; lia|]. exists u. split; [by right|done].
      - exists t. rewrite E. split; [by left|done]. }
    exists t. split; [done|]. apply list_elem_of_lookup in Hin as [i Et].
    destruct (ok_call _ _ _ _ _ _ Hok Et) as (data & (_ & _ & W3) & _). unfold unfinished. destruct (at_place t); try done. by destruct W3.
  - intros (t & Hin & Hu). apply list_elem_of_lookup in Hin as [i Et].
    destruct (ok_call _ _ _ _ _ _ Hok Et) as (data & (_ & _ & W3) & _).
    assert (pbuf t <> []) as Hne by (unfold unfinished in Hu; by destruct (at_place t)).
    pose proof (left_over_insert (threads s) i t (Writer [] 0 Looping) Et) as Hl. destruct (pbuf t); [done|]. cbn in Hl. lia.
Qed.

(** The reader can empty the pipe, with a read only when it holds something. *)
Lemma read_all s0 ms q s : pipe_run s0 ms s -> pipe_ok cap ms q s ->
  exists mr s', pipe_run s0 (ms ++ mr) s' /\ pipe_ok cap (ms ++ mr) [] s' /\
    calls mr = [] /\ puts mr = [] /\ Forall useful mr.
Proof.
  intros Hr Hok. destruct (decide (q = [])) as [->|Hq].
  { exists [], s. rewrite app_nil_r. by split_and!. }
  pose proof (ok_holds _ _ _ _ Hok) as Hh. pose proof (holds_cap _ _ _ Hh) as [B1 B2].
  destruct s as [p ts w]. cbn in Hh. assert (0 <= cap < 2 ^ 16) as Hn by lia.
  destruct (wp_total _ _ _ (read_turn_spec p cap q cap Hh Hn)) as (d & p' & E & -> & _).
  destruct (rt_wqueue_wakeup ts w) as [ts' w'] eqn:Ew. destruct (read_ok cap ms q p ts w cap _ p' ts' w' Hn E Ew Hok) as [_ Hok'].
  rewrite Z.min_r, Nat2Z.id in E, Hok' by lia. rewrite firstn_all in E, Hok'. rewrite drop_all in Hok'.
  exists [Got q], (PipeState p' ts' w'). split; [eapply run_snoc; [done|by eapply step_read]|]. split_and!; try done.
  constructor; [|constructor]. intros E'. injection E' as E'. done.
Qed.

(** On an empty pipe with a pending [write] some writer is awake, or was woken before it
    went to wait. *)
Lemma someone_can_go ms s : pipe_ok cap ms [] s -> (0 < left_over (threads s))%nat ->
  exists i t, threads s !! i = Some t /\ (awake t \/ (writer_flag (device s) = true /\ at_place t = AboutToWait)).
Proof.
  intros Hok Hl. assert (Exists unfinished (threads s)) as Hu by (by apply (unfinished_left_over _ _ _ Hok)).
  destruct (ok_wakeups _ _ _ _ Hok eq_refl Hu) as [Hx|[Hf Hx]]; apply Exists_exists in Hx as (t & Hin & Ht);
    apply list_elem_of_lookup in Hin as [i Et]; exists i, t; auto.
Qed.

(** C27. No writer is stuck and no wake-up is lost: whatever calls, turns and reads there
    have been, some turns of the threads and reads that each get at least one byte, with no
    further call, make every pending [write] return, and the reader then has all that was
    put. In particular, whenever the pipe is empty while a [write] is pending, a writer can go on
    without any read to wake it. *)
Theorem pipe_drains s0 ms s :
  opened cap s0 -> pipe_run s0 ms s ->
  exists ms' s', pipe_run s0 (ms ++ ms') s' /\ calls ms' = [] /\ Forall useful ms' /\
    Forall (fun t => exists r, at_place t = Returned r) (threads s') /\ got (ms ++ ms') = puts (ms ++ ms').
Proof.
  intros H0. remember (left_over (threads s)) as n eqn:En. revert ms s En.
  induction (lt_wf n) as [n _ IH]. intros ms s -> Hr.
  destruct (run_ok cap s0 ms s H0 Hr) as [q Hok]. destruct (read_all s0 ms q s Hr Hok) as (mr & s1 & Hr1 & Hok1 & C1 & P1 & U1).
  pose proof (left_over_spec s0 ms s H0 Hr) as L0. pose proof (left_over_spec s0 _ s1 H0 Hr1) as L1.
  rewrite puts_app, calls_app, C1, P1, !app_nil_r in L1.
  destruct (decide (left_over (threads s1) = 0%nat)) as [E0|E0].
  { exists mr, s1. split; [done|]. split; [done|]. split; [done|]. split; [|by rewrite (ok_stream _ _ _ _ Hok1), app_nil_r].
    apply Forall_forall. intros t Hin. destruct (at_place t) as [| | | |r] eqn:Ep; [exfalso..|by exists r].
    all: assert (0 < left_over (threads s1))%nat; [|lia]; rewrite (unfinished_left_over _ _ _ Hok1), Exists_exists;
      exists t; split; [done|]; unfold unfinished; by rewrite Ep. }
  destruct (someone_can_go _ _ Hok1) as (i & t & Et & Ha); [lia|].
  destruct (writer_progress _ s1 i t s0 H0 Hr1 Hok1 Et Ha) as (ms2 & s2 & Hr2 & C2 & U2 & P2).
  pose proof (left_over_spec s0 _ s2 H0 Hr2) as L2. rewrite !puts_app, !calls_app, C1, P1, C2, !app_nil_r, length_app in L2.
  assert (0 < length (puts ms2))%nat by (destruct (puts ms2); cbn; [done|lia]).
  destruct (IH (left_over (threads s2))) with (ms := (ms ++ mr) ++ ms2) (s := s2) as (ms3 & s3 & Hr3 & C3 & U3 & F3 & G3); [lia|done|done|].
  exists (mr ++ ms2 ++ ms3), s3. replace (ms ++ mr ++ ms2 ++ ms3) with (((ms ++ mr) ++ ms2) ++ ms3) by (by rewrite <- !app_assoc).
  split; [done|]. rewrite !calls_app, C1, C2, C3. split; [done|]. rewrite !Forall_app. by split_and!.
Qed.
End Properties.

(** ** Opening, and the device interface *)

(** The pipe is created, then opened for reading and for writing. *)
Lemma pipe_opens pool l :
  (forall n l, pool n = Some l -> Z.of_nat (length l) = n) -> pool PIPE_BUFSZ = Some l ->
  wp (pipe true true true pool) (PipeDevice None 0 0 0 0 false)
    (fun r p => r = 0 /\ opened PIPE_BUFSZ (PipeState p [] [])).
Proof.
  intros Hp Hl. unfold pipe, rt_pipe_create, rt_assert. cbn [negb]. change (PIPE_BUFSZ <? 0xFFFF) with true.
  wp_steps. unfold put, wp at 1.
  unfold pipe_fops_open at 1. wp_steps. unfold get at 1, wp at 1. cbn [ref_count Z.eqb bufsz]. wp_steps.
  eapply wp_mono; [by apply (create_spec _ _ _ (u16 PIPE_BUFSZ))|]. cbn beta.
  intros rb p [-> Hrb]. change (u16 PIPE_BUFSZ / 4 * 4) with PIPE_BUFSZ in Hrb.
  destruct rb as [rb|]; [|destruct Hrb; congruence]. wp_steps. cbn [negb]. wp_steps.
  change (0 <? 0) with false. cbv iota. unfold pipe_fops_open. wp_steps. unfold get at 1, wp at 1. cbn.
  split; [done|]. split; [|done]. split; [by exists rb|done].
Qed.

(** The device's own write and read move what fits and what there is; two turns are enough. *)
Lemma rt_pipe_write_spec fuel buffer p cap q :
  holds p cap q -> Z.of_nat (length buffer) < 2 ^ 16 -> (2 <= fuel)%nat ->
  let n := Z.min (Z.of_nat (length buffer)) (cap - Z.of_nat (length q)) in
  wp (rt_pipe_write fuel buffer) p (fun r p' => r = n /\ holds p' cap (q ++ take (Z.to_nat n) buffer)).
Proof.
  revert buffer p q. assert (forall fuel buffer p q, holds p cap q -> Z.of_nat (length buffer) < 2 ^ 16 -> (1 <= fuel)%nat ->
    buffer = [] \/ Z.of_nat (length q) = cap -> wp (rt_pipe_write fuel buffer) p (fun r p' => r = 0 /\ holds p' cap q)) as Hstop.
  { clear fuel. intros fuel buffer p q Hh Hl Hf Hb. pose proof (holds_cap _ _ _ Hh) as (B1 & B2).
    destruct fuel as [|fuel]; [lia|]. cbn [rt_pipe_write]. case_bool_decide as Hx; [by wp_steps|]. destruct Hb as [|Hb]; [done|].
    wp_steps. destruct Hh as [(rb & Hfi & Hr & Hc) Hrd]. eapply wp_on_fifo; [done|]. rewrite (wrap_small 16) by lia.
    eapply wp_mono; [apply (put_spec rb q); [done|lia..]|]. cbn beta. intros r rb' (-> & Hr' & Hc'). rewrite Hc, Z.min_r in * by lia.
    rewrite Hb, Z.sub_diag in *. cbn in Hr'. rewrite app_nil_r in Hr'. cbn [Z.leb Z.compare]. wp_steps. split; [done|]. split; [|done].
    exists rb'. by rewrite Hc'. }
  intros buffer p q Hh Hl Hf n. pose proof (holds_cap _ _ _ Hh) as (B1 & B2).
  destruct (decide (buffer = [] \/ Z.of_nat (length q) = cap)) as [Hb|Hb].
  { assert (n = 0) as -> by (unfold n; destruct Hb as [-> |Hb]; cbn; lia). rewrite app_nil_r. apply Hstop; [done..|lia|done]. }
  destruct fuel as [|fuel]; [lia|]. cbn [rt_pipe_write]. rewrite bool_decide_false by auto. wp_steps.
  assert (0 < length buffer)%nat by (destruct buffer; cbn; [tauto|lia]).
  destruct Hh as [(rb & Hfi & Hr & Hc) Hrd]. eapply wp_on_fifo; [done|]. rewrite (wrap_small 16) by lia.
  eapply wp_mono; [apply (put_spec rb q); [done|lia..]|]. cbn beta. intros r rb' (-> & Hr' & Hc'). rewrite Hc in *. fold n in Hr' |- *.
  rewrite (proj2 (Z.leb_gt _ _)) by lia. wp_steps.
  eapply wp_mono; [apply (Hstop fuel _ _ (q ++ take (Z.to_nat n) buffer))|].
  - split; [|done]. exists rb'. by rewrite Hc'.
  - rewrite length_drop. lia.
  - lia.
  - rewrite length_app, length_take. destruct (decide (n = Z.of_nat (length buffer))); [left; apply drop_ge; lia|right; lia].
  - cbn beta. intros r p' [-> Hh']. wp_steps. split; [lia|done].
Qed.

Lemma rt_pipe_read_spec fuel count p cap q :
  holds p cap q -> 0 <= count < 2 ^ 16 -> (2 <= fuel)%nat ->
  let n := Z.to_nat (Z.min count (Z.of_nat (length q))) in
  wp (rt_pipe_read fuel count) p (fun d p' => d = take n q /\ holds p' cap (drop n q)).
Proof.
  revert count p q. assert (forall fuel count p q, holds p cap q -> 0 <= count < 2 ^ 16 -> (1 <= fuel)%nat ->
    count = 0 \/ q = [] -> wp (rt_pipe_read fuel count) p (fun d p' => d = [] /\ holds p' cap q)) as Hstop.
  { clear fuel. intros fuel count p q Hh Hn Hf Hb. destruct fuel as [|fuel]; [lia|]. cbn [rt_pipe_read].
    destruct (Z.leb_spec count 0); [by wp_steps|]. destruct Hb as [| ->]; [lia|]. wp_steps.
    destruct Hh as [(rb & Hfi & Hr & Hc) Hrd]. eapply wp_on_fifo; [done|]. rewrite (wrap_small 16) by lia.
    eapply wp_mono; [by apply (get_spec rb [])|]. cbn beta. intros d rb' (-> & Hr' & Hc'). rewrite take_nil, drop_nil in *.
    rewrite bool_decide_true by done. wp_steps. split; [done|]. split; [|done]. exists rb'. by rewrite Hc'. }
  intros count p q Hh Hn Hf n. destruct (decide (count = 0 \/ q = [])) as [Hb|Hb].
  { assert (n = 0%nat) as -> by (unfold n; destruct Hb as [-> | ->]; cbn; lia). apply Hstop; [done..|lia|done]. }
  destruct fuel as [|fuel]; [lia|]. cbn [rt_pipe_read]. rewrite (proj2 (Z.leb_gt _ _)) by lia. wp_steps.
  assert (0 < length q)%nat by (destruct q; cbn; [tauto|lia]).
  destruct Hh as [(rb & Hfi & Hr & Hc) Hrd]. eapply wp_on_fifo; [done|]. rewrite (wrap_small 16) by lia.
  eapply wp_mono; [by apply (get_spec rb q)|]. cbn beta. intros d rb' (-> & Hr' & Hc'). fold n in Hr' |- *.
  assert (length (take n q) = n) as Hlen by (rewrite length_take; lia).
  rewrite bool_decide_false by (intros E; rewrite E in Hlen; cbn in Hlen; lia). wp_steps.
  eapply wp_mono; [apply (Hstop fuel _ _ (drop n q))|].
  - split; [|done]. exists rb'. by rewrite Hc'.
  - rewrite Hlen. lia.
  - lia.
  - rewrite Hlen. destruct (decide (count = Z.of_nat n)); [left; lia|right; apply drop_ge; lia].
  - cbn beta. intros r p' [-> Hh']. wp_steps. by rewrite app_nil_r.
Qed.

(** ** An example: a ring of eight bytes *)

Definition example_pipe : pipe_state := PipeState (PipeDevice (Some example_ring) 8 1 1 2 false) [] [].

Lemma example_opened : opened 8 example_pipe.
Proof. split; [|done]. split; [exists example_ring; split; [done|]; split; [apply example_ring_repr|done]|done]. Qed.

Definition message_A : bytes := [1; 2; 3; 4; 5; 6; 7; 8; 9; 10].

(** A call of ten bytes: eight go into the ring and the thread waits. *)
Definition blocked_moves : list move := [Called message_A; Put 0 [1; 2; 3; 4; 5; 6; 7; 8]; Put 0 []].
Definition blocked_pipe : pipe_state :=
  PipeState (PipeDevice (Some (RingBuffer [1; 2; 3; 4; 5; 6; 7; 8] false 0 true 0 8)) 8 1 1 2 false)
    [Writer [9; 10] 8 Suspended] [0%nat].

Lemma blocked_run : pipe_run example_pipe blocked_moves blocked_pipe.
Proof.
  apply (run_snoc _ [Called message_A; Put 0 [1; 2; 3; 4; 5; 6; 7; 8]]
    (PipeState (device blocked_pipe) [Writer [9; 10] 8 AboutToWait] [])).
  - apply (run_snoc _ [Called message_A] (PipeState (device example_pipe) [Writer message_A 0 Looping] [])).
    + apply (run_snoc _ [] example_pipe); [constructor|]. by apply (step_call _ [] [] message_A (Writer message_A 0 Looping)).
    + apply (step_write _ [_] [] 0 (Writer message_A 0 Looping) (Writer [9; 10] 8 AboutToWait)); vm_compute; reflexivity.
  - apply (step_write _ [_] [] 0 (Writer [9; 10] 8 AboutToWait) (Writer [9; 10] 8 Suspended)); vm_compute; reflexivity.
Qed.

Lemma pipe_delivers_witness :
  exists q, holds (device blocked_pipe) 8 q /\ Z.of_nat (length q) <= 8 /\ puts blocked_moves = got blocked_moves ++ q /\
    message_A = puts_by 0 blocked_moves ++ [9; 10].
Proof.
  destruct (pipe_delivers 8 example_pipe blocked_moves blocked_pipe example_opened blocked_run) as (q & H1 & H2 & H3 & H4).
  exists q. split; [exact H1|]. split; [exact H2|]. split; [exact H3|]. exact (proj1 (H4 0%nat _ message_A eq_refl eq_refl)).
Defined.

Lemma pipe_drains_witness :
  exists ms' s', pipe_run example_pipe (blocked_moves ++ ms') s' /\ calls ms' = [] /\ Forall useful ms' /\
    Forall (fun t => exists r, at_place t = Returned r) (threads s') /\ got (blocked_moves ++ ms') = puts (blocked_moves ++ ms').
Proof. exact (pipe_drains 8 example_pipe blocked_moves blocked_pipe example_opened blocked_run). Defined.

(** Messages of two writers mix: while the first is blocked with two bytes to go, a read
    makes room and a second writer puts its message before the rest of the first. *)
Lemma writers_interleave :
  exists ms s, pipe_run example_pipe (blocked_moves ++ ms) s /\
    puts (blocked_moves ++ ms) = [1; 2; 3; 4; 5; 6; 7; 8] ++ [21; 22; 23] ++ [9; 10].
Proof.
  set (p1 := PipeDevice (Some (RingBuffer [1; 2; 3; 4; 5; 6; 7; 8] true 0 true 0 8)) 8 1 1 2 true).
  set (s1 := PipeState p1 [Writer [9; 10] 8 Resumed] []).
  set (B := [21; 22; 23]). set (s2 := PipeState p1 [Writer [9; 10] 8 Resumed; Writer B 0 Looping] []).
  set (r3 := RingBuffer [21; 22; 23; 4; 5; 6; 7; 8] true 0 true 3 8).
  set (s3 := PipeState (PipeDevice (Some r3) 8 1 1 2 true) [Writer [9; 10] 8 Resumed; Writer [] 3 (Returned 3)] []).
  set (s4 := PipeState (PipeDevice (Some r3) 8 1 1 2 false) [Writer [9; 10] 8 Looping; Writer [] 3 (Returned 3)] []).
  exists [Got [1; 2; 3; 4; 5; 6; 7; 8]; Called B; Put 1 B; Put 0 []; Put 0 [9; 10]]. eexists. split; [|reflexivity].
  apply (run_snoc _ (blocked_moves ++ [Got [1; 2; 3; 4; 5; 6; 7; 8]; Called B; Put 1 B; Put 0 []]) s4).
  2: apply (step_write _ (threads s4) [] 0 (Writer [9; 10] 8 Looping) (Writer [] 10 (Returned 10))); vm_compute; reflexivity.
  apply (run_snoc _ (blocked_moves ++ [Got [1; 2; 3; 4; 5; 6; 7; 8]; Called B; Put 1 B]) s3).
  2: apply (step_write _ (threads s3) [] 0 (Writer [9; 10] 8 Resumed) (Writer [9; 10] 8 Looping)); vm_compute; reflexivity.
  apply (run_snoc _ (blocked_moves ++ [Got [1; 2; 3; 4; 5; 6; 7; 8]; Called B]) s2).
  2: apply (step_write _ (threads s2) [] 1 (Writer B 0 Looping) (Writer [] 3 (Returned 3))); vm_compute; reflexivity.
  apply (run_snoc _ (blocked_moves ++ [Got [1; 2; 3; 4; 5; 6; 7; 8]]) s1).
  2: by apply (step_call p1 (threads s1) [] B (Writer B 0 Looping)).
  apply (run_snoc _ blocked_moves blocked_pipe _ _ blocked_run).
  apply (step_read _ (threads blocked_pipe) [0%nat] 8); [lia|vm_compute; reflexivity..].
Qed.
