(* ===== verification/PipeDevice.v ===== *)
(** * Pipes in the device framework

    Models the rest of [rt-thread/components/drivers/src/pipe.c]: a pipe as a device
    ([rt_pipe_open], [rt_pipe_close], [rt_pipe_control]), and the pipes by name: [mkfifo],
    [rt_pipe_delete], and the close of a descriptor, which deletes an unnamed pipe with its
    last end. Ring, ends and the file operations are those of Pipe.v. *)

From stdpp Require Import base numbers list gmap.
From Stdlib Require Import ZArith Lia.
From S2P Require Import Prelude Device RingBuffer Pipe.

Open Scope Z_scope.

Definition RT_DEVICE_FLAG_REMOVABLE : Z := 0x004.
Definition ENODEV : Z := 19.

(** ** The device

    The device part of [struct rt_pipe_device]; its count of openings is the pipe's. *)
Record pipe_node (CB : Type) : Type := Node {
  n_flag : Z;
  n_open_flag : Z;
  n_rx : option CB;
  n_tx : option CB;
  n_errno : Z;
  n_pipe : rt_pipe_device
}.
Arguments Node {CB} n_flag n_open_flag n_rx n_tx n_errno n_pipe.
Arguments n_flag {CB} p.
Arguments n_open_flag {CB} p.
Arguments n_rx {CB} p.
Arguments n_tx {CB} p.
Arguments n_errno {CB} p.
Arguments n_pipe {CB} p.

Definition set_count (n : Z) (p : rt_pipe_device) : rt_pipe_device :=
  PipeDevice (fifo p) (bufsz p) (readers p) (writers p) n (writer_flag p).

Section Device.
Context {CB : Type}.

#[export, refine] Instance node_pipe : Lens (pipe_node CB) rt_pipe_device :=
  {| view := n_pipe; over := fun p s => Node (n_flag s) (n_open_flag s) (n_rx s) (n_tx s) (n_errno s) p |}.
Proof. all: intros; try destruct s; reflexivity. Defined.

#[export, refine] Instance node_parent : Lens (pipe_node CB) (rt_device CB) :=
  {| view := fun s => Rt_device (n_flag s) (n_open_flag s) (Pipe.ref_count (n_pipe s)) (n_rx s) (n_tx s);
     over := fun d s => Node (flag d) (open_flag d) (rx_indicate d) (tx_complete d) (n_errno s)
                          (set_count (Device.ref_count d) (n_pipe s)) |}.
Proof.
  - intros d s. by destruct d.
  - intros s. destruct s as [f o rx tx e p]. by destruct p.
  - intros d d' s. by destruct d.
Defined.

Definition set_node_errno (e : Z) (s : pipe_node CB) : pipe_node CB :=
  Node (n_flag s) (n_open_flag s) (n_rx s) (n_tx s) e (n_pipe s).

(** What the allocator answers. *)
Variables (rb_ok : bool) (pool : Z -> option bytes).

Definition rt_pipe_open : M rt_pipe_device rt_err_t :=
  f <- gets fifo ;;
  match f with
  | Some _ => ret RT_EOK
  | None =>
      n <- gets bufsz ;;
      rb <- rt_ringbuffer_create rb_ok pool n ;;
      modify (set_fifo rb) ;;;
      ret match rb with Some _ => RT_EOK | None => - RT_ENOMEM end
  end.

Definition rt_pipe_close : M rt_pipe_device rt_err_t :=
  n <- gets Pipe.ref_count ;;
  when (n =? 1) (f <- gets fifo ;; rt_ringbuffer_destroy f ;;; modify (set_fifo None)) ;;;
  ret RT_EOK.

Definition rt_pipe_control (cmd args : Z) : M rt_pipe_device rt_err_t := ret RT_EOK.

(** [pipe_ops]; a read or write of no bytes does not touch the pipe, and two turns of the
    loops are enough. *)
#[export] Instance pipe_ops : DeviceDriver (pipe_node CB) CB Z bytes bytes :=
  {| parent := node_parent; set_errno := fun e => modify (set_node_errno e);
     device_init := None; device_open := Some (fun _ => zoom rt_pipe_open); device_close := Some (zoom rt_pipe_close);
     device_read := Some (fun _ count => d <- zoom (rt_pipe_read 2 count) ;; ret (Z.of_nat (length d), d));
     device_write := Some (fun _ buffer count => zoom (rt_pipe_write 2 (take (Z.to_nat count) buffer)));
     device_control := Some (fun cmd args => zoom (rt_pipe_control cmd args)) |}.

(** *** What the last close leaves

    The framework counts down before it calls [rt_pipe_close], which compares with one: the
    ring is never given back, and what nobody read is there at the next opening. *)

Implicit Types s : pipe_node CB.

Lemma close_keeps s :
  Pipe.ref_count (n_pipe s) = 1 ->
  wp rt_device_close s (fun r s' => r = RT_EOK /\ n_pipe s' = set_count 0 (n_pipe s) /\ n_flag s' = n_flag s /\ n_open_flag s' = 0).
Proof.
  intros Hn. unfold rt_device_close, dev_gets, dev_modify. wp_steps. change (Device.ref_count (view s)) with (Pipe.ref_count (n_pipe s)).
  rewrite Hn. cbn [Z.eqb]. wp_steps. rewrite view_over. cbn [Device.ref_count set_ref_count].
  change (Device.ref_count (view s)) with (Pipe.ref_count (n_pipe s)). rewrite Hn. change (u8 (1 - 1)) with 0. cbn [Z.eqb negb].
  cbn [device_close pipe_ops]. wp_steps. apply wp_zoom. unfold rt_pipe_close. wp_steps.
  change (_ =? 1) with (0 =? 1). cbn [Z.eqb when]. wp_steps. change (counts_as_open RT_EOK) with true. cbn [when]. wp_steps.
  by split_and!.
Qed.

Lemma activate_keeps s :
  wp open_activate s (fun r s' => r = RT_EOK /\ n_pipe s' = n_pipe s /\ n_open_flag s' = n_open_flag s).
Proof.
  unfold open_activate, dev_gets, dev_modify. cbn [device_init pipe_ops]. wp_steps.
  destruct (has RT_DEVICE_FLAG_ACTIVATED _); [by wp_steps|]. wp_steps. change (negb (RT_EOK =? RT_EOK)) with false. cbv iota. wp_steps.
  split_and!; [done| |done]. destruct s as [? ? ? ? ? p]. by destruct p.
Qed.

Lemma open_keeps oflag s rb :
  Pipe.ref_count (n_pipe s) = 0 -> n_open_flag s = 0 -> fifo (n_pipe s) = Some rb ->
  wp (rt_device_open oflag) s (fun r s' => r = RT_EOK /\ n_pipe s' = set_count 1 (n_pipe s)).
Proof.
  intros Hn Ho Hf. unfold rt_device_open, dev_gets, dev_modify. wp_steps. eapply wp_mono; [apply activate_keeps|]. cbn beta.
  intros r s1 (-> & Ep & Eo). change (negb (RT_EOK =? RT_EOK)) with false. cbv iota. wp_steps.
  replace (has _ (open_flag (view s1))) with false by (change (open_flag (view s1)) with (n_open_flag s1); by rewrite Eo, Ho).
  rewrite andb_false_r. cbn [device_open pipe_ops]. wp_steps.
  apply wp_zoom. unfold rt_pipe_open. wp_steps. change (view s1) with (n_pipe s1). rewrite Ep, Hf. wp_steps.
  change (counts_as_open RT_EOK) with true. cbv iota. wp_steps. rewrite view_over. cbn [Device.ref_count set_ref_count].
  apply wp_rt_assert; [cbn; by rewrite Hn|]. wp_steps. split; [done|]. cbn. by rewrite Hn.
Qed.

(** The ring outlives the last close: what was not read before is there after the next
    opening. *)
Theorem pipe_survives_close oflag s rb :
  Pipe.ref_count (n_pipe s) = 1 -> fifo (n_pipe s) = Some rb ->
  wp (rt_device_close ;;; rt_device_open oflag) s (fun r s' => r = RT_EOK /\ n_pipe s' = n_pipe s).
Proof.
  intros Hn Hf. wp_steps. eapply wp_mono; [by apply close_keeps|]. cbn beta. intros _ s1 (_ & E1 & _ & Ho1).
  eapply wp_mono; [apply (open_keeps oflag s1 rb); rewrite ?E1; done|]. cbn beta. intros r s2 [-> ->]. split; [done|].
  rewrite E1. destruct (n_pipe s). cbn in Hn. by subst.
Qed.
End Device.

(** ** Pipes by name

    The names of the devices, and the pipes among them by address. *)

Record named_pipe : Set := Named { np_pipe : rt_pipe_device; is_named : bool }.
Record pipe_table : Type := Table { pt_objs : object_list; pt_pipes : gmap Z named_pipe }.

#[export, refine] Instance table_objs : Lens pipe_table object_list :=
  {| view := pt_objs; over := fun o t => Table o (pt_pipes t) |}.
Proof. all: intros; try destruct s; reflexivity. Defined.

Definition on_pipes (f : gmap Z named_pipe -> gmap Z named_pipe) (t : pipe_table) : pipe_table :=
  Table (pt_objs t) (f (pt_pipes t)).

(** A pipe at the address [a], if the allocator gives it and its name is free. *)
Definition mkfifo (alloc : bool) (a : Z) (path : list Z) : M pipe_table Z :=
  registered <- (if alloc then
                   r <- zoom (rt_device_register (Some a) path (Z.lor RT_DEVICE_FLAG_RDWR RT_DEVICE_FLAG_REMOVABLE)
                                (Rt_device (CB := unit) 0 0 0 None None)) ;;
                   ret (r.1 =? 0)
                 else ret false) ;;
  p <- rt_pipe_create alloc registered PIPE_BUFSZ ;;
  match p with
  | None => ret (-1)
  | Some p => modify (on_pipes <[a := Named p true]>) ;;; ret 0
  end.

(** A pipe that is open stays; a device of another class is none. *)
Definition rt_pipe_delete (name : list Z) : M pipe_table Z :=
  device <- zoom (rt_device_find name) ;;
  match device with
  | None => ret (- ENODEV)
  | Some a =>
      p <- gets (fun t => pt_pipes t !! a) ;;
      match p with
      | None => ret (- ENODEV)
      | Some p =>
          if negb (Pipe.ref_count (np_pipe p) =? 0) then ret (- RT_EBUSY)
          else
            zoom (rt_device_unregister a) ;;;
            match fifo (np_pipe p) with Some rb => rt_ringbuffer_destroy (Some rb) | None => ret tt end ;;;
            modify (on_pipes (delete a)) ;;;
            ret 0
      end
  end.

Definition name_of (a : Z) (objs : object_list) : list Z :=
  match List.find (fun o => o.2 =? a) objs with Some o => o.1 | None => [] end.

(** The close of a descriptor of the pipe at [a]; an unnamed pipe goes with its last one. *)
Definition close_descriptor (a : Z) (mode : access) : M pipe_table Z :=
  p <- gets (fun t => pt_pipes t !! a) ;;
  match p with
  | None => raise UseAfterFree
  | Some p =>
      match pipe_fops_close mode (np_pipe p) with
      | Fault f => raise f
      | Ok (r, q) =>
          modify (on_pipes <[a := Named q (is_named p)]>) ;;;
          objs <- gets pt_objs ;;
          when ((Pipe.ref_count q =? 0) && negb (is_named p)) (rt_pipe_delete (name_of a objs) ;;; ret tt) ;;;
          ret r
      end
  end.

(** *** What deleting does *)

Lemma pipe_delete_spec name a p objs pipes :
  rt_object_find name objs = Some a -> pipes !! a = Some p -> a ∈ objs.*2 -> Pipe.ref_count (np_pipe p) = 0 ->
  wp (rt_pipe_delete name) (Table objs pipes) (fun r t => r = 0 /\ t = Table (filter (fun o => o.2 <> a) objs) (delete a pipes)).
Proof.
  intros Hf Hp Hin Hn. unfold rt_pipe_delete, rt_device_find. wp_steps. apply wp_zoom. wp_steps. change (view _) with objs. rewrite Hf.
  wp_steps. cbn [pt_pipes over table_objs]. rewrite Hp, Hn. cbn [Z.eqb negb]. wp_steps. apply wp_zoom.
  eapply wp_mono; [by apply unregister_spec|]. cbn beta. intros _ o [_ ->]. wp_steps.
  destruct (fifo (np_pipe p)); wp_steps; [apply wp_rt_assert; [done|]; wp_steps|]; done.
Qed.

(** A named pipe is deleted under its name, whether or not it was ever opened, and nothing of
    it is left. *)
Theorem mkfifo_delete a path t :
  chars path -> rt_object_find path (pt_objs t) = None -> a ∉ (pt_objs t).*2 -> pt_pipes t !! a = None ->
  wp (r <- mkfifo true a path ;; r' <- rt_pipe_delete path ;; ret (r, r')) t (fun r t' => r = (0, 0) /\ t' = t).
Proof.
  intros Hc Hf Hn Hp. destruct t as [objs pipes]. cbn [pt_objs pt_pipes] in *. unfold mkfifo. wp_steps. apply wp_zoom.
  eapply wp_mono; [by apply register_spec|]. cbn beta. intros [r d] o (-> & -> & _). wp_steps. cbn [fst].
  unfold rt_pipe_create. change (RT_EOK =? 0) with true. cbn [negb]. wp_steps. apply wp_rt_assert; [done|]. wp_steps.
  eapply wp_mono; [eapply (pipe_delete_spec path a); [by apply find_registered|apply lookup_insert_eq|by left|done]|]. cbn beta.
  intros r2 t [-> ->]. wp_steps. split; [done|]. cbn [pt_objs pt_pipes over table_objs on_pipes]. f_equal; [by apply filter_registered|]. by apply delete_insert_id.
Qed.

(** The last descriptor of an unnamed pipe takes it along, and no other does. *)
Theorem last_close_deletes a mode p objs pipes :
  pipes !! a = Some p -> is_named p = false -> rt_object_find (name_of a objs) objs = Some a -> a ∈ objs.*2 ->
  1 <= Pipe.ref_count (np_pipe p) < 256 ->
  wp (close_descriptor a mode) (Table objs pipes) (fun r t => r = 0 /\
    if Pipe.ref_count (np_pipe p) =? 1 then t = Table (filter (fun o => o.2 <> a) objs) (delete a pipes)
    else pt_objs t = objs /\ exists q, pt_pipes t = <[a := q]> pipes /\ fifo (np_pipe q) = fifo (np_pipe p) /\
           Pipe.ref_count (np_pipe q) = Pipe.ref_count (np_pipe p) - 1).
Proof.
  intros Hp Hu Hf Hin Hr. unfold close_descriptor. wp_steps. cbn [pt_pipes]. rewrite Hp.
  assert (wp (pipe_fops_close mode) (np_pipe p) (fun r q => r = 0 /\ Pipe.ref_count q = Pipe.ref_count (np_pipe p) - 1 /\
    (Pipe.ref_count (np_pipe p) <> 1 -> fifo q = fifo (np_pipe p)))) as Hclose.
  { unfold pipe_fops_close. wp_steps. apply wp_get. wp_steps. unfold when.
    destruct (_ =? 0); wp_steps; destruct (Z.eqb_spec (Pipe.ref_count (np_pipe p)) 1); wp_steps; cbn; split_and!; try done;
      rewrite ?(wrap_small 8) by (rewrite ?(wrap_small 8); lia); rewrite ?(wrap_small 8) by lia; lia. }
  apply wp_total in Hclose as (r & q & -> & -> & Hq & Hfi). wp_steps. rewrite Hq, Hu. cbn [negb]. rewrite andb_true_r.
  destruct (Z.eqb_spec (Pipe.ref_count (np_pipe p)) 1) as [E|E].
  - rewrite E. cbn [Z.sub Z.eqb when]. change (1 - 1 =? 0) with true. cbn [when]. wp_steps. cbn [pt_objs on_pipes].
    eapply wp_mono; [apply (pipe_delete_spec _ a (Named q false)); [done|apply lookup_insert_eq|done|cbn; lia]|]. cbn beta.
    intros r t [-> ->]. wp_steps. split; [done|]. f_equal. apply delete_insert_eq.
  - rewrite (proj2 (Z.eqb_neq _ _)) by lia. cbn [when]. wp_steps. split; [done|]. split; [done|]. exists (Named q false).
    by split_and!; [| apply Hfi|].
Qed.
