(* ===== verification/MqttPacket.v ===== *)
(** * MQTT packets

    Models the client side of the packet library in
    [packages/pahomqtt-v1.1.0/MQTTPacket/src]: the remaining-length code and the readers and
    writers of [MQTTPacket.c], and the packets the client exchanges
    ([MQTTSerializePublish.c], [MQTTDeserializePublish.c], [MQTTConnectClient.c],
    [MQTTSubscribeClient.c], [MQTTUnsubscribeClient.c]). A writer yields the bytes it stores
    at the pointer it advances; a serialiser yields the contents of its buffer up to the
    length it returns, or its error code. A reader is a computation on the position of the
    pointer in the buffer, which faults when it reads past the end. *)

From stdpp Require Import base numbers list.
From Stdlib Require Import ZArith Lia.
From S2P Require Import Prelude.

(** ** Codes *)

Definition MQTTPACKET_BUFFER_TOO_SHORT : Z := -2.
Definition MQTTPACKET_READ_ERROR : Z := -1.

Definition CONNECT : Z := 1.
Definition CONNACK : Z := 2.
Definition PUBLISH : Z := 3.
Definition PUBACK : Z := 4.
Definition PUBREC : Z := 5.
Definition PUBREL : Z := 6.
Definition PUBCOMP : Z := 7.
Definition SUBSCRIBE : Z := 8.
Definition SUBACK : Z := 9.
Definition UNSUBSCRIBE : Z := 10.
Definition UNSUBACK : Z := 11.
Definition PINGREQ : Z := 12.
Definition PINGRESP : Z := 13.
Definition DISCONNECT : Z := 14.

(** The header byte and its fields; a value stored in a bit-field is truncated to it. *)
Definition MQTTHeader (type dup qos retain : Z) : Z :=
  Z.land retain 1 + 2 * Z.land qos 3 + 8 * Z.land dup 1 + 16 * Z.land type 15.
Definition hdr_retain (b : Z) : Z := Z.land b 1.
Definition hdr_qos (b : Z) : Z := Z.land (Z.shiftr b 1) 3.
Definition hdr_dup (b : Z) : Z := Z.land (Z.shiftr b 3) 1.
Definition hdr_type (b : Z) : Z := Z.land (Z.shiftr b 4) 15.

(** A string, given as a C string or with its length; an absent [cstring] is NULL. *)
Record MQTTString : Set := MkMQTTString { cstring : option bytes; lenstring : bytes }.
Definition MQTTString_initializer : MQTTString := MkMQTTString None [].

(** ** MQTTPacket.c: writers *)

(** At most five digits of 7 bits in an [int]. *)
Fixpoint encode_loop (fuel : nat) (length : Z) : bytes :=
  match fuel with
  | O => []
  | S fuel =>
      let d := Z.rem length 128 in
      let length := Z.quot length 128 in
      if 0 <? length then u8 (Z.lor d 0x80) :: encode_loop fuel length else [u8 d]
  end.
Definition MQTTPacket_encode (length : Z) : bytes := encode_loop 5 length.

Definition MQTTPacket_len (rem_len : Z) : Z :=
  let rem_len := rem_len + 1 in
  if rem_len <? 128 then rem_len + 1
  else if rem_len <? 16384 then rem_len + 2
  else if rem_len <? 2097151 then rem_len + 3
  else rem_len + 4.

Definition writeChar (c : Z) : bytes := [u8 c].
Definition writeInt (anInt : Z) : bytes := [u8 (Z.quot anInt 256); u8 (Z.rem anInt 256)].
Definition writeCString (s : bytes) : bytes := writeInt (Z.of_nat (length s)) ++ s.

Definition writeMQTTString (s : MQTTString) : bytes :=
  if 0 <? Z.of_nat (length (lenstring s)) then writeInt (Z.of_nat (length (lenstring s))) ++ lenstring s
  else match cstring s with
       | Some c => writeCString c
       | None => writeInt 0
       end.

Definition MQTTstrlen (s : MQTTString) : Z :=
  match cstring s with
  | Some c => Z.of_nat (length c)
  | None => Z.of_nat (length (lenstring s))
  end.

Definition MQTTPacket_equals (a : MQTTString) (b : bytes) : bool :=
  let a := match cstring a with Some c => c | None => lenstring a end in
  bool_decide (length a = length b) && bool_decide (a = b).

(** ** MQTTPacket.c: readers *)

Section Readers.
Variable buf : bytes.

Definition readChar : M Z Z := fun p =>
  match (if 0 <=? p then buf !! Z.to_nat p else None) with
  | Some c => Ok (c, p + 1)
  | None => Fault OutOfBounds
  end.

Definition readInt : M Z Z :=
  a <- readChar ;;
  b <- readChar ;;
  ret (256 * a + b).

(** Where the string lies, if it ends by [enddata]. *)
Definition readMQTTLenString (enddata : Z) : M Z (option (Z * Z)) :=
  p <- get ;;
  if 1 <? enddata - p then
    len <- readInt ;;
    p <- get ;;
    if p + len <=? enddata then put (p + len) ;;; ret (Some (p, len)) else ret None
  else ret None.
End Readers.

(** The decoding loop of [MQTTPacket_decode]; [getcharfn] yields a character or fails. The
    result is the count of bytes and the value; a fifth byte is refused, counted but not
    read. *)
Section Decode.
Context {S : Type}.
Variable getcharfn : M S (option Z).

Definition MAX_NO_OF_REMAINING_LENGTH_BYTES : Z := 4.

Fixpoint decode_loop (fuel : nat) (multiplier len value : Z) : M S (Z * Z) :=
  match fuel with
  | O => ret (len, value)
  | Datatypes.S fuel =>
      let len := len + 1 in
      if MAX_NO_OF_REMAINING_LENGTH_BYTES <? len then ret (len, value)
      else
        c <- getcharfn ;;
        match c with
        | None => ret (len, value)
        | Some c =>
            let value := value + Z.land c 127 * multiplier in
            if negb (Z.land c 128 =? 0) then decode_loop fuel (multiplier * 128) len value
            else ret (len, value)
        end
  end.
Definition MQTTPacket_decode : M S (Z * Z) := decode_loop 5 1 0 0.
End Decode.

(** [bufchar] always succeeds; it moves its own pointer. *)
Definition bufchar (buf : bytes) : M Z (option Z) := c <- readChar buf ;; ret (Some c).

Definition MQTTPacket_decodeBuf (buf : bytes) : M Z (Z * Z) := fun p =>
  match MQTTPacket_decode (bufchar buf) p with
  | Ok (r, _) => Ok (r, p)
  | Fault f => Fault f
  end.

(** ** Publish packets *)

Definition MQTTSerialize_publishLength (qos : Z) (topicName : MQTTString) (payloadlen : Z) : Z :=
  2 + MQTTstrlen topicName + payloadlen + (if 0 <? qos then 2 else 0).

Definition MQTTSerialize_publish (buflen dup qos retained packetid : Z) (topicName : MQTTString)
  (payload : bytes) : Z + bytes :=
  let rem_len := MQTTSerialize_publishLength qos topicName (Z.of_nat (length payload)) in
  if buflen <? MQTTPacket_len rem_len then inl MQTTPACKET_BUFFER_TOO_SHORT
  else inr (writeChar (MQTTHeader PUBLISH dup qos retained) ++ MQTTPacket_encode rem_len ++
            writeMQTTString topicName ++ (if 0 <? qos then writeInt packetid else []) ++ payload).

Definition MQTTSerialize_ack (buflen packettype dup packetid : Z) : Z + bytes :=
  if buflen <? 4 then inl MQTTPACKET_BUFFER_TOO_SHORT
  else inr (writeChar (MQTTHeader packettype dup (if packettype =? PUBREL then 1 else 0) 0) ++
            MQTTPacket_encode 2 ++ writeInt packetid).

(** What [MQTTDeserialize_publish] stores through its pointers; [None] where it stores
    nothing. The topic and the payload are places in the buffer (offset and length). *)
Record publish_out : Set := PublishOut {
  out_flags : option (Z * Z * Z);     (* dup, qos, retained *)
  out_packetid : option Z;
  out_topic : option (Z * Z);
  out_payload : option (Z * Z)
}.

(** The return code is 1 on success; after the header it is otherwise what the decoding of
    the remaining length returned, the count of its bytes. *)
Definition MQTTDeserialize_publish (buf : bytes) : M Z (Z * publish_out) :=
  put 0 ;;;
  h <- readChar buf ;;
  if negb (hdr_type h =? PUBLISH) then ret (0, PublishOut None None None None)
  else
    let flags := Some (hdr_dup h, hdr_qos h, hdr_retain h) in
    d <- MQTTPacket_decodeBuf buf ;;
    modify (fun p => p + d.1) ;;;
    p <- get ;;
    let enddata := p + d.2 in
    t <- readMQTTLenString buf enddata ;;
    p <- get ;;
    match t with
    | None => ret (d.1, PublishOut flags None None None)
    | Some t =>
        if enddata - p <? 0 then ret (d.1, PublishOut flags None (Some t) None)
        else
          id <- (if 0 <? hdr_qos h then i <- readInt buf ;; ret (Some i) else ret None) ;;
          p <- get ;;
          ret (1, PublishOut flags id (Some t) (Some (p, enddata - p)))
    end.

(** Return code, packet type, dup and packet identifier. *)
Definition MQTTDeserialize_ack (buf : bytes) : M Z (Z * Z * Z * option Z) :=
  put 0 ;;;
  h <- readChar buf ;;
  d <- MQTTPacket_decodeBuf buf ;;
  modify (fun p => p + d.1) ;;;
  p <- get ;;
  if p + d.2 - p <? 2 then ret (d.1, hdr_type h, hdr_dup h, None)
  else
    id <- readInt buf ;;
    ret (1, hdr_type h, hdr_dup h, Some id).

(** ** Connect packets *)

Record MQTTPacket_willOptions : Set := WillOptions {
  will_topicName : MQTTString; will_message : MQTTString; will_retained : Z; will_qos : Z
}.
Record MQTTPacket_connectData : Set := ConnectData {
  MQTTVersion : Z;
  clientID : MQTTString;
  keepAliveInterval : Z;
  cleansession : Z;
  willFlag : Z;
  will : MQTTPacket_willOptions;
  username : MQTTString;
  password : MQTTString
}.
Definition MQTTPacket_connectData_initializer : MQTTPacket_connectData :=
  ConnectData 4 MQTTString_initializer 60 1 0
    (WillOptions MQTTString_initializer MQTTString_initializer 0 0)
    MQTTString_initializer MQTTString_initializer.

(** [cstring || lenstring.data]. *)
Definition present (s : MQTTString) : bool :=
  match cstring s with Some _ => true | None => negb (bool_decide (lenstring s = [])) end.

Definition MQTTSerialize_connectLength (options : MQTTPacket_connectData) : Z :=
  (if MQTTVersion options =? 3 then 12 else if MQTTVersion options =? 4 then 10 else 0) +
  (MQTTstrlen (clientID options) + 2) +
  (if negb (willFlag options =? 0) then
     MQTTstrlen (will_topicName (will options)) + 2 + MQTTstrlen (will_message (will options)) + 2
   else 0) +
  (if present (username options) then MQTTstrlen (username options) + 2 else 0) +
  (if present (password options) then MQTTstrlen (password options) + 2 else 0).

Definition MQTTConnectFlags (cleansession will willQoS willRetain password username : Z) : Z :=
  2 * Z.land cleansession 1 + 4 * Z.land will 1 + 8 * Z.land willQoS 3 + 32 * Z.land willRetain 1 +
  64 * Z.land password 1 + 128 * Z.land username 1.

Definition s_MQTT : bytes := [77; 81; 84; 84].
Definition s_MQIsdp : bytes := [77; 81; 73; 115; 100; 112].

Definition MQTTSerialize_connect (buflen : Z) (options : MQTTPacket_connectData) : Z + bytes :=
  let len := MQTTSerialize_connectLength options in
  if buflen <? MQTTPacket_len len then inl MQTTPACKET_BUFFER_TOO_SHORT
  else
    let w := b2z (negb (willFlag options =? 0)) in
    let u := present (username options) in
    let p := present (password options) in
    inr (writeChar (MQTTHeader CONNECT 0 0 0) ++ MQTTPacket_encode len ++
         (if MQTTVersion options =? 4 then writeCString s_MQTT ++ writeChar 4
          else writeCString s_MQIsdp ++ writeChar 3) ++
         writeChar (MQTTConnectFlags (cleansession options) w
                      (w * will_qos (will options)) (w * will_retained (will options)) (b2z p) (b2z u)) ++
         writeInt (keepAliveInterval options) ++
         writeMQTTString (clientID options) ++
         (if negb (willFlag options =? 0) then
            writeMQTTString (will_topicName (will options)) ++ writeMQTTString (will_message (will options))
          else []) ++
         (if u then writeMQTTString (username options) else []) ++
         (if p then writeMQTTString (password options) else [])).

(** Return code, session-present flag and the broker's code. *)
Definition MQTTDeserialize_connack (buf : bytes) : M Z (Z * option (Z * Z)) :=
  put 0 ;;;
  h <- readChar buf ;;
  if negb (hdr_type h =? CONNACK) then ret (0, None)
  else
    d <- MQTTPacket_decodeBuf buf ;;
    modify (fun p => p + d.1) ;;;
    if d.2 <? 2 then ret (d.1, None)
    else
      f <- readChar buf ;;
      rc <- readChar buf ;;
      ret (1, Some (Z.shiftr f 7, rc)).

Definition MQTTSerialize_zero (buflen packettype : Z) : Z + bytes :=
  if buflen <? 2 then inl MQTTPACKET_BUFFER_TOO_SHORT
  else inr (writeChar (MQTTHeader packettype 0 0 0) ++ MQTTPacket_encode 0).
Definition MQTTSerialize_disconnect (buflen : Z) : Z + bytes := MQTTSerialize_zero buflen DISCONNECT.
Definition MQTTSerialize_pingreq (buflen : Z) : Z + bytes := MQTTSerialize_zero buflen PINGREQ.

(** ** Subscribe and unsubscribe packets *)

Definition MQTTSerialize_subscribeLength (topicFilters : list MQTTString) : Z :=
  foldl (fun len t => len + (2 + MQTTstrlen t + 1)) 2 topicFilters.

Definition MQTTSerialize_subscribe (buflen dup packetid : Z) (topicFilters : list (MQTTString * Z)) : Z + bytes :=
  let rem_len := MQTTSerialize_subscribeLength topicFilters.*1 in
  if buflen <? MQTTPacket_len rem_len then inl MQTTPACKET_BUFFER_TOO_SHORT
  else inr (writeChar (MQTTHeader SUBSCRIBE dup 1 0) ++ MQTTPacket_encode rem_len ++ writeInt packetid ++
            flat_map (fun t => writeMQTTString t.1 ++ writeChar t.2) topicFilters).

(** The loop over the granted QoS: the array [grantedQoSs] has [maxcount] entries, and the
    test lets one more through. *)
Fixpoint suback_loop (buf : bytes) (fuel : nat) (maxcount count enddata : Z) (granted : list Z) : M Z (Z * list Z) :=
  match fuel with
  | O => ret (1, granted)
  | S fuel =>
      p <- get ;;
      if p <? enddata then
        if maxcount <? count then ret (-1, granted)
        else
          c <- readChar buf ;;
          if count <? maxcount then suback_loop buf fuel maxcount (count + 1) enddata (granted ++ [c])
          else raise OutOfBounds
      else ret (1, granted)
  end.

(** Return code, packet identifier, granted QoS. *)
Definition MQTTDeserialize_suback (buf : bytes) (maxcount : Z) : M Z (Z * option Z * list Z) :=
  put 0 ;;;
  h <- readChar buf ;;
  if negb (hdr_type h =? SUBACK) then ret (0, None, [])
  else
    d <- MQTTPacket_decodeBuf buf ;;
    modify (fun p => p + d.1) ;;;
    p <- get ;;
    if d.2 <? 2 then ret (d.1, None, [])
    else
      id <- readInt buf ;;
      r <- suback_loop buf (Z.to_nat d.2) maxcount 0 (p + d.2) [] ;;
      ret (r.1, Some id, r.2).

Definition MQTTSerialize_unsubscribeLength (topicFilters : list MQTTString) : Z :=
  foldl (fun len t => len + (2 + MQTTstrlen t)) 2 topicFilters.

Definition MQTTSerialize_unsubscribe (buflen dup packetid : Z) (topicFilters : list MQTTString) : Z + bytes :=
  let rem_len := MQTTSerialize_unsubscribeLength topicFilters in
  if buflen <? MQTTPacket_len rem_len then inl MQTTPACKET_BUFFER_TOO_SHORT
  else inr (writeChar (MQTTHeader UNSUBSCRIBE dup 1 0) ++ MQTTPacket_encode rem_len ++ writeInt packetid ++
            flat_map writeMQTTString topicFilters).

Definition MQTTDeserialize_unsuback (buf : bytes) : M Z (Z * option Z) :=
  r <- MQTTDeserialize_ack buf ;;
  let '(rc, type, _, id) := r in
  ret (if type =? UNSUBACK then 1 else rc, id).

(** ** Reading what was written *)

(** The text at a position of a buffer. *)
Definition at_pos (buf : bytes) (p : Z) (l : bytes) : Prop := 0 <= p /\ drop (Z.to_nat p) buf = l.
Definition byte_ok (c : Z) : Prop := 0 <= c <= 255.

(** The bytes of a slice of the buffer. *)
Definition slice (buf : bytes) (s : Z * Z) : bytes := take (Z.to_nat s.2) (drop (Z.to_nat s.1) buf).

Lemma at_pos_app buf p l l' :
  at_pos buf p (l ++ l') -> at_pos buf (p + Z.of_nat (length l)) l'.
Proof.
  intros [Hp H]. split; [lia|]. rewrite Z2Nat.inj_add by lia. rewrite Nat2Z.id.
  rewrite <- drop_drop, H. apply drop_app_length.
Qed.

Lemma at_pos_tl buf p c l : at_pos buf p (c :: l) -> at_pos buf (p + 1) l.
Proof. apply (at_pos_app buf p [c]). Qed.

Lemma readChar_at buf p c l : at_pos buf p (c :: l) -> readChar buf p = Ok (c, p + 1).
Proof.
  intros [Hp H]. unfold readChar. rewrite (proj2 (Z.leb_le 0 p)) by done.
  rewrite <- (Nat.add_0_r (Z.to_nat p)), <- lookup_drop, H. done.
Qed.

Lemma readInt_at buf p a b l : at_pos buf p (a :: b :: l) -> readInt buf p = Ok (256 * a + b, p + 2).
Proof.
  intros H. unfold readInt, bind. rewrite (readChar_at _ _ _ _ H).
  apply at_pos_tl in H. rewrite (readChar_at _ _ _ _ H). unfold ret. do 2 f_equal. lia.
Qed.

Lemma slice_at buf p l l' : at_pos buf p (l ++ l') -> slice buf (p, Z.of_nat (length l)) = l.
Proof. intros [Hp H]. unfold slice. cbn. by rewrite H, Nat2Z.id, take_app_length. Qed.

(** The digits of the remaining length. *)
Definition digit_check (d : Z) : bool :=
  (Z.land (u8 (Z.lor d 0x80)) 127 =? d) && negb (Z.land (u8 (Z.lor d 0x80)) 128 =? 0) &&
  (Z.land (u8 d) 127 =? d) && (Z.land (u8 d) 128 =? 0).
Lemma digit_ok d : 0 <= d < 128 -> digit_check d = true.
Proof. apply (check_range_spec digit_check 128). reflexivity. Qed.

Lemma encode_loop_length fuel m n :
  0 <= n < 128 ^ Z.of_nat m -> (1 <= m)%nat -> (length (encode_loop fuel n) <= m)%nat.
Proof.
  revert m n. induction fuel as [|fuel IH]; intros m n Hn Hm; cbn [encode_loop length]; [lia|].
  destruct (0 <? Z.quot n 128) eqn:E; cbn [length]; [|lia].
  rewrite Z.quot_div_nonneg in E |- * by lia.
  destruct m as [|[|m]]; [lia|change (128 ^ Z.of_nat 1) with 128 in Hn; rewrite Z.div_small in E by lia; lia|].
  rewrite Nat2Z.inj_succ, Z.pow_succ_r in Hn by lia.
  assert (length (encode_loop fuel (n / 128)) <= S m)%nat; [|lia].
  apply IH; [|lia]. split; [apply Z.div_pos; lia|apply Z.div_lt_upper_bound; lia].
Qed.

(** Decoding inverts encoding, whatever the characters are read from: [R s l] says that [l]
    is what [getcharfn] will deliver from [s]. *)
Section DecodeEncode.
Context {S : Type}.
Variable getcharfn : M S (option Z).
Variable R : S -> bytes -> Prop.
Hypothesis R_next : forall s c l, R s (c :: l) -> exists s', getcharfn s = Ok (Some c, s') /\ R s' l.

Lemma decode_encode_loop fuel fuel' m n mult len value s rest :
  0 <= n < 128 ^ Z.of_nat m -> (1 <= m)%nat -> Z.of_nat m <= 4 - len -> 0 <= len -> (m <= fuel)%nat -> (m <= fuel')%nat ->
  R s (encode_loop fuel n ++ rest) ->
  exists s', decode_loop getcharfn fuel' mult len value s =
    Ok ((len + Z.of_nat (length (encode_loop fuel n)), value + n * mult), s') /\ R s' rest.
Proof.
  revert fuel fuel' n mult len value s. induction m as [|m IH]; intros fuel fuel' n mult len value s Hn Hm Hl Hl0 Hf Hf' Hat; [lia|].
  destruct fuel as [|fuel]; [lia|]. destruct fuel' as [|fuel']; [lia|]. cbn [encode_loop decode_loop] in *.
  pose proof (Z.mod_pos_bound n 128 ltac:(lia)) as Hd. pose proof (Z.div_mod n 128 ltac:(lia)) as Hdm.
  rewrite Z.quot_div_nonneg, Z.rem_mod_nonneg in Hat |- * by lia.
  pose proof (digit_ok (n mod 128) Hd) as Hc. unfold digit_check in Hc.
  rewrite !andb_true_iff in Hc. destruct Hc as [[[C1 C2] C3] C4]. apply Z.eqb_eq in C1, C3.
  unfold MAX_NO_OF_REMAINING_LENGTH_BYTES. rewrite (proj2 (Z.ltb_ge 4 (len + 1))) by lia.
  unfold bind at 1. destruct (0 <? n / 128) eqn:E; cbn [app] in Hat; destruct (R_next _ _ _ Hat) as (s1 & -> & Hs1).
  - rewrite C1, C2.
    destruct m as [|m]; [change (128 ^ Z.of_nat 1) with 128 in Hn; rewrite Z.div_small in E by lia; lia|].
    destruct (IH fuel fuel' (n / 128) (mult * 128) (len + 1) (value + n mod 128 * mult) s1) as (s2 & -> & Hs2);
      [rewrite (Nat2Z.inj_succ (Datatypes.S m)), Z.pow_succ_r in Hn by lia; split; [apply Z.div_pos; lia|apply Z.div_lt_upper_bound; lia]|lia|lia|lia|lia|lia|exact Hs1|].
    exists s2. split; [|exact Hs2]. cbn [length]. rewrite Nat2Z.inj_succ. f_equal. rewrite !pair_equal_spec. split; [split; [lia|nia]|done].
  - rewrite C3, C4. cbn [negb length]. exists s1. split; [|exact Hs1].
    assert (n / 128 = 0) by (pose proof (Z.div_pos n 128); lia).
    unfold ret. f_equal. rewrite !pair_equal_spec. split; [split; [lia|nia]|done].
Qed.

Lemma decode_encode n s rest :
  0 <= n < 2 ^ 28 -> R s (MQTTPacket_encode n ++ rest) ->
  exists s', MQTTPacket_decode getcharfn s = Ok ((Z.of_nat (length (MQTTPacket_encode n)), n), s') /\ R s' rest.
Proof.
  intros Hn Hat. unfold MQTTPacket_decode, MQTTPacket_encode in *.
  destruct (decode_encode_loop 5 5 4 n 1 0 0 s rest) as (s' & -> & Hs'); [done|lia..|exact Hat|].
  exists s'. split; [|exact Hs']. f_equal. rewrite !pair_equal_spec. split; [split; lia|done].
Qed.
End DecodeEncode.

Lemma decodeBuf_encode buf p n rest :
  0 <= n < 2 ^ 28 -> at_pos buf p (MQTTPacket_encode n ++ rest) ->
  MQTTPacket_decodeBuf buf p = Ok ((Z.of_nat (length (MQTTPacket_encode n)), n), p).
Proof.
  intros Hn Hat. unfold MQTTPacket_decodeBuf.
  destruct (decode_encode (bufchar buf) (at_pos buf)) with (n := n) (s := p) (rest := rest) as (s' & -> & _); try done.
  intros s c l Hl. exists (s + 1). unfold bufchar, bind. rewrite (readChar_at _ _ _ _ Hl).
  split; [done|by apply at_pos_tl in Hl].
Qed.

(** The length [MQTTPacket_len] reserves is enough, and at most one byte too much. *)
Lemma packet_len_enough n :
  0 <= n < 2 ^ 28 -> 1 + Z.of_nat (length (MQTTPacket_encode n)) + n <= MQTTPacket_len n.
Proof.
  intros Hn. unfold MQTTPacket_len.
  assert (forall m, 0 <= n < 128 ^ Z.of_nat m -> (1 <= m)%nat -> Z.of_nat (length (MQTTPacket_encode n)) <= Z.of_nat m) as H.
  { intros m Hm H1. pose proof (encode_loop_length 5 m n Hm H1). unfold MQTTPacket_encode. lia. }
  destruct (n + 1 <? 128) eqn:E1; [specialize (H 1%nat ltac:(change (128 ^ Z.of_nat 1) with 128; lia)); lia|].
  destruct (n + 1 <? 16384) eqn:E2; [specialize (H 2%nat ltac:(change (128 ^ Z.of_nat 2) with 16384; lia)); lia|].
  destruct (n + 1 <? 2097151) eqn:E3; [specialize (H 3%nat ltac:(change (128 ^ Z.of_nat 3) with 2097152; lia)); lia|].
  specialize (H 4%nat ltac:(change (128 ^ Z.of_nat 4) with (2 ^ 28); lia)). lia.
Qed.

Lemma readInt_write buf p n rest :
  0 <= n < 65536 -> at_pos buf p (writeInt n ++ rest) -> readInt buf p = Ok (n, p + 2).
Proof.
  intros Hn Hat. unfold writeInt in Hat. cbn [app] in Hat. rewrite (readInt_at _ _ _ _ _ Hat).
  rewrite Z.quot_div_nonneg, Z.rem_mod_nonneg by lia.
  pose proof (Z.mod_pos_bound n 256 ltac:(lia)). pose proof (Z.div_mod n 256 ltac:(lia)).
  assert (0 <= n / 256 < 256) by (split; [apply Z.div_pos; lia|apply Z.div_lt_upper_bound; lia]).
  rewrite !wrap_small by lia. f_equal. rewrite pair_equal_spec. split; [lia|done].
Qed.

Lemma writeInt_length n : length (writeInt n) = 2%nat.
Proof. reflexivity. Qed.

(** A string that is given in one way only. *)
Definition string_ok (s : MQTTString) : Prop := cstring s = None \/ lenstring s = [].
Definition text (s : MQTTString) : bytes := match cstring s with Some c => c | None => lenstring s end.

Lemma writeMQTTString_text s : string_ok s -> writeMQTTString s = writeInt (Z.of_nat (length (text s))) ++ text s.
Proof.
  unfold string_ok, writeMQTTString, text, writeCString. destruct s as [[c|] l]; cbn.
  - intros [|E]; [done|by rewrite E].
  - intros _. destruct l as [|x l]; done.
Qed.
Lemma MQTTstrlen_text s : MQTTstrlen s = Z.of_nat (length (text s)).
Proof. unfold MQTTstrlen, text. by destruct (cstring s). Qed.
Lemma writeMQTTString_length s : string_ok s -> Z.of_nat (length (writeMQTTString s)) = MQTTstrlen s + 2.
Proof. intros Hs. rewrite writeMQTTString_text, length_app, writeInt_length, MQTTstrlen_text by done. lia. Qed.

Lemma readMQTTLenString_write buf p enddata t rest :
  Z.of_nat (length t) < 65536 -> at_pos buf p (writeInt (Z.of_nat (length t)) ++ t ++ rest) ->
  p + 2 + Z.of_nat (length t) <= enddata ->
  readMQTTLenString buf enddata p = Ok (Some (p + 2, Z.of_nat (length t)), p + 2 + Z.of_nat (length t)).
Proof.
  intros Ht Hat He. unfold readMQTTLenString, bind, get.
  rewrite (proj2 (Z.ltb_lt 1 (enddata - p))) by lia.
  rewrite (readInt_write _ _ _ _ (conj (Nat2Z.is_nonneg _) Ht) Hat). cbv beta iota.
  rewrite (proj2 (Z.leb_le _ enddata)) by lia. done.
Qed.

(** The fields of a header byte read back. *)
Lemma header_fields type dup qos retain :
  0 <= type < 16 -> 0 <= dup < 2 -> 0 <= qos < 4 -> 0 <= retain < 2 ->
  let h := u8 (MQTTHeader type dup qos retain) in
  hdr_type h = type /\ hdr_dup h = dup /\ hdr_qos h = qos /\ hdr_retain h = retain.
Proof.
  intros Ht Hd Hq Hr.
  assert (check_range (fun t => forallb (fun q => forallb (fun d => forallb (fun r =>
    let h := u8 (MQTTHeader t d q r) in
    (hdr_type h =? t) && (hdr_dup h =? d) && (hdr_qos h =? q) && (hdr_retain h =? r)) [0; 1]) [0; 1]) [0; 1; 2; 3]) 16 = true) as Hc
    by reflexivity.
  pose proof (check_range_spec _ _ Hc type Ht) as H. cbn beta in H. cbv zeta.
  rewrite forallb_forall in H. specialize (H qos ltac:(cbn; lia)).
  rewrite forallb_forall in H. specialize (H dup ltac:(cbn; lia)).
  rewrite forallb_forall in H. specialize (H retain ltac:(cbn; lia)).
  cbv zeta in H. rewrite !andb_true_iff, !Z.eqb_eq in H. tauto.
Qed.

Section Fits.
Variable buflen : Z.
Hypothesis Hbuf : buflen < 2 ^ 28.

(** A packet whose remaining length is the length of its body fits the buffer. *)
Lemma packet_fits n hd body :
  0 <= n -> MQTTPacket_len n <= buflen -> Z.of_nat (length body) = n ->
  Z.of_nat (length (writeChar hd ++ MQTTPacket_encode n ++ body)) <= buflen.
Proof.
  intros Hn Hl Hb. assert (n < 2 ^ 28) by (unfold MQTTPacket_len in Hl; repeat case_match; lia).
  pose proof (packet_len_enough n). rewrite !length_app. cbn [length writeChar]. lia.
Qed.
End Fits.

Lemma publishLength_nonneg qos t n : 0 <= n -> 0 <= MQTTSerialize_publishLength qos t n.
Proof. intros. unfold MQTTSerialize_publishLength. rewrite MQTTstrlen_text. case_match; lia. Qed.

(** Reading a publish packet. *)
Lemma deserialize_publish_at (buf t payload junk : bytes) (dup qos retained packetid : Z) :
  0 <= dup < 2 -> 0 <= qos < 4 -> 0 <= retained < 2 -> 0 <= packetid < 65536 ->
  let tl := Z.of_nat (length t) in
  let idb := if 0 <? qos then writeInt packetid else [] in
  let n := 2 + tl + Z.of_nat (length payload) + Z.of_nat (length idb) in
  tl < 65536 -> n < 2 ^ 28 ->
  at_pos buf 0 (u8 (MQTTHeader PUBLISH dup qos retained) :: MQTTPacket_encode n ++ writeInt tl ++ t ++ idb ++ payload ++ junk) ->
  wp (MQTTDeserialize_publish buf) 0 (fun r _ => exists t' d,
    r = (1, PublishOut (Some (dup, qos, retained)) (if 0 <? qos then Some packetid else None) (Some t') (Some d)) /\
    slice buf t' = t /\ slice buf d = payload /\
    0 <= d.1 /\ 0 <= d.2 /\ d.1 + d.2 = 1 + Z.of_nat (length (MQTTPacket_encode n)) + n).
Proof.
  intros Hd Hq Hr Hi tl idb n Htl Hn A0. set (h := u8 (MQTTHeader PUBLISH dup qos retained)) in *.
  destruct (header_fields PUBLISH dup qos retained) as (F1 & F2 & F3 & F4); [done..|]. fold h in F1, F2, F3, F4.
  set (k := Z.of_nat (length (MQTTPacket_encode n))).
  pose proof (at_pos_tl _ _ _ _ A0) as A1. change (0 + 1) with 1 in A1. pose proof (at_pos_app _ _ _ _ A1) as A2. fold k in A2.
  unfold MQTTDeserialize_publish, wp, bind, put, get, modify. rewrite (readChar_at _ _ _ _ A0), F1.
  change (0 + 1) with 1. cbn [Z.eqb Pos.eqb negb PUBLISH].
  rewrite (decodeBuf_encode buf 1 n _ ltac:(lia) A1). fold k. cbn [fst snd].
  set (p0 := 1 + k) in *. assert (p0 + 2 + tl <= p0 + n) as He by lia.
  rewrite (readMQTTLenString_write _ _ _ _ _ Htl A2 He). cbn [fst snd]. fold tl.
  rewrite (proj2 (Z.ltb_ge (p0 + n - (p0 + 2 + tl)) 0)) by lia. rewrite F2, F3, F4.
  pose proof (at_pos_app _ _ _ _ A2) as A3. rewrite writeInt_length in A3. change (Z.of_nat 2) with 2 in A3.
  pose proof (at_pos_app _ _ _ _ A3) as A4. fold tl in A4. pose proof (at_pos_app _ _ _ _ A4) as A5.
  pose proof (slice_at _ _ _ _ A3) as S1. pose proof (slice_at _ _ _ _ A5) as S2.
  assert (n = 2 + tl + Z.of_nat (length payload) + Z.of_nat (length idb)) as En by reflexivity.
  clearbody n. unfold idb in *. destruct (0 <? qos).
  - rewrite (readInt_write _ _ _ _ Hi A4). exists (p0 + 2, tl), (p0 + 2 + tl + 2, Z.of_nat (length payload)).
    rewrite writeInt_length in *. split; [|split_and!; try done; cbn [fst snd]; unfold p0; lia].
    replace (p0 + n - (p0 + 2 + tl + 2)) with (Z.of_nat (length payload)) by lia. done.
  - exists (p0 + 2, tl), (p0 + 2 + tl, Z.of_nat (length payload)). cbn [length] in *. rewrite Z.add_0_r in *.
    split; [|split_and!; try done; cbn [fst snd]; unfold p0; lia].
    replace (p0 + n - (p0 + 2 + tl)) with (Z.of_nat (length payload)) by lia. done.
Qed.

(** What [MQTTSerialize_publish] writes, fits and reads back. *)
Section Published.
Variables (buflen dup qos retained packetid : Z) (topic : MQTTString) (payload out : bytes).
Hypotheses (Hb : buflen < 2 ^ 28) (Hd : 0 <= dup < 2) (Hq : 0 <= qos < 4) (Hr : 0 <= retained < 2)
  (Hi : 0 <= packetid < 65536) (Ht : string_ok topic) (Htl : Z.of_nat (length (text topic)) < 65536).
Hypothesis Hout : MQTTSerialize_publish buflen dup qos retained packetid topic payload = inr out.

Let n := MQTTSerialize_publishLength qos topic (Z.of_nat (length payload)).

Lemma published_bytes :
  0 <= n < 2 ^ 28 /\ MQTTPacket_len n <= buflen /\
  n = 2 + Z.of_nat (length (text topic)) + Z.of_nat (length payload) + Z.of_nat (length (if 0 <? qos then writeInt packetid else [])) /\
  out = u8 (MQTTHeader PUBLISH dup qos retained) :: MQTTPacket_encode n ++ writeInt (Z.of_nat (length (text topic))) ++
    text topic ++ (if 0 <? qos then writeInt packetid else []) ++ payload.
Proof.
  unfold MQTTSerialize_publish in Hout. fold n in Hout. destruct (buflen <? MQTTPacket_len n) eqn:El; [done|].
  apply (inj inr) in Hout as <-. assert (0 <= n) as Hn by (apply publishLength_nonneg; lia).
  assert (n < 2 ^ 28) as Hn' by (unfold MQTTPacket_len in El; repeat case_match; lia).
  rewrite writeMQTTString_text, <- !app_assoc by done. split; [done|]. split; [lia|]. split; [|done].
  unfold n, MQTTSerialize_publishLength. rewrite MQTTstrlen_text. destruct (0 <? qos); cbn [length writeInt]; lia.
Qed.

Lemma published_fits : Z.of_nat (length out) <= buflen.
Proof.
  destruct published_bytes as (Hn & Hl & En & ->). apply packet_fits; [done|apply Hn|done|].
  rewrite !length_app, writeInt_length. lia.
Qed.

Lemma published_reads junk :
  wp (MQTTDeserialize_publish (out ++ junk)) 0 (fun r _ => exists t d,
    r = (1, PublishOut (Some (dup, qos, retained)) (if 0 <? qos then Some packetid else None) (Some t) (Some d)) /\
    slice (out ++ junk) t = text topic /\ slice (out ++ junk) d = payload).
Proof.
  destruct published_bytes as (Hn & _ & En & Eout).
  eapply wp_mono; [apply (deserialize_publish_at _ (text topic) payload junk dup qos retained packetid); try done|].
  - rewrite <- En. apply Hn.
  - rewrite <- En, Eout. split; [done|]. change (drop (Z.to_nat 0) ?l) with l. cbn [app]. by rewrite <- !app_assoc.
  - cbn beta. intros r p (t & d & -> & ? & ? & _). by exists t, d.
Qed.
End Published.

(** C15. Publish packets: [MQTTSerialize_publish] never writes past its buffer, and
    [MQTTDeserialize_publish] on what it wrote (with anything after it) succeeds and gives
    back the flags, the packet identifier (for QoS 1 and 2), the topic and the payload. *)
Theorem publish_roundtrip (buflen dup qos retained packetid : Z) (topic : MQTTString) (payload out junk : bytes) :
  buflen < 2 ^ 28 -> 0 <= dup < 2 -> 0 <= qos < 4 -> 0 <= retained < 2 -> 0 <= packetid < 65536 ->
  string_ok topic -> Z.of_nat (length (text topic)) < 65536 ->
  MQTTSerialize_publish buflen dup qos retained packetid topic payload = inr out ->
  Z.of_nat (length out) <= buflen /\
  wp (MQTTDeserialize_publish (out ++ junk)) 0 (fun r _ => exists t d,
    r = (1, PublishOut (Some (dup, qos, retained)) (if 0 <? qos then Some packetid else None) (Some t) (Some d)) /\
    slice (out ++ junk) t = text topic /\ slice (out ++ junk) d = payload).
Proof.
  intros Hb Hd Hq Hr Hi Ht Htl E. split.
  - by apply (published_fits _ _ _ _ _ _ _ _ Hb Ht E).
  - by apply (published_reads _ _ _ _ _ _ _ _ Hb Hd Hq Hr Hi Ht Htl E).
Qed.

(** A QoS 1 publish of "hi" on "t" in the client's 1024-byte buffer. *)
Lemma publish_roundtrip_witness :
  exists out, MQTTSerialize_publish 1024 0 1 0 7 (MkMQTTString (Some [116]) []) [104; 105] = inr out /\
  Z.of_nat (length out) <= 1024 /\
  wp (MQTTDeserialize_publish (out ++ [0])) 0 (fun r _ => exists t d,
    r = (1, PublishOut (Some (0, 1, 0)) (Some 7) (Some t) (Some d)) /\
    slice (out ++ [0]) t = [116] /\ slice (out ++ [0]) d = [104; 105]).
Proof.
  eexists. split; [reflexivity|].
  apply (publish_roundtrip 1024 0 1 0 7 (MkMQTTString (Some [116]) []) [104; 105] _ [0]);
    first [lia|by right|reflexivity].
Defined.

Definition fits (buflen : Z) (r : Z + bytes) : Prop :=
  match r with inl e => e < 0 | inr out => 0 < Z.of_nat (length out) <= buflen end.

Lemma text_length_nonneg s : 0 <= MQTTstrlen s.
Proof. rewrite MQTTstrlen_text. lia. Qed.

Lemma subscribeLength_app (f : MQTTString -> Z) n l :
  foldl (fun len t => len + f t) n l = n + foldr (fun t len => f t + len) 0 l.
Proof. revert n. induction l as [|t l IH]; intros n; cbn; [lia|]. rewrite IH. lia. Qed.

Lemma filters_length (f : MQTTString * Z -> bytes) (g : MQTTString -> Z) l :
  (forall t, string_ok t.1 -> Z.of_nat (length (f t)) = g t.1) -> Forall (fun t => string_ok t.1) l ->
  Z.of_nat (length (flat_map f l)) = foldr (fun t len => g t + len) 0 l.*1.
Proof.
  intros Hf. induction 1 as [|t l Ht Hl IH]; cbn; [done|]. rewrite length_app, Nat2Z.inj_add, IH, Hf by done. done.
Qed.

Lemma body_fits buflen n hd body :
  buflen < 2 ^ 28 -> 0 <= n -> MQTTPacket_len n <= buflen -> Z.of_nat (length body) = n ->
  fits buflen (inr (writeChar hd ++ MQTTPacket_encode n ++ body)).
Proof.
  intros Hb Hn Hl Hlen. cbn [fits]. split; [|by apply packet_fits]. rewrite length_app. cbn [length writeChar]. lia.
Qed.

Lemma connect_fits buflen o :
  buflen < 2 ^ 28 -> MQTTVersion o = 3 \/ MQTTVersion o = 4 ->
  Forall string_ok [clientID o; will_topicName (will o); will_message (will o); username o; password o] ->
  fits buflen (MQTTSerialize_connect buflen o).
Proof.
  intros Hb Hv Hs. rewrite !Forall_cons in Hs. destruct Hs as (S1 & S2 & S3 & S4 & S5 & _).
  unfold MQTTSerialize_connect. destruct (buflen <? MQTTPacket_len _) eqn:El; [done|].
  assert (0 <= MQTTSerialize_connectLength o) as Hn.
  { unfold MQTTSerialize_connectLength.
    pose proof (text_length_nonneg (clientID o)). pose proof (text_length_nonneg (username o)).
    pose proof (text_length_nonneg (password o)). pose proof (text_length_nonneg (will_topicName (will o))).
    pose proof (text_length_nonneg (will_message (will o))). repeat case_match; lia. }
  apply body_fits; [done..|lia|]. unfold MQTTSerialize_connectLength.
  rewrite !length_app, !Nat2Z.inj_add. change (Z.of_nat (length (writeInt _))) with 2. change (Z.of_nat (length (writeChar _))) with 1.
  rewrite (writeMQTTString_length (clientID o)) by done.
  assert (Z.of_nat (length (if MQTTVersion o =? 4 then writeCString s_MQTT ++ writeChar 4 else writeCString s_MQIsdp ++ writeChar 3))
    = (if MQTTVersion o =? 3 then 12 else if MQTTVersion o =? 4 then 10 else 0) - 3) as -> by (by destruct Hv as [-> | ->]).
  assert (forall (b : bool) (l : bytes) k, Z.of_nat (length l) = k -> Z.of_nat (length (if b then l else [])) = if b then k else 0) as Hif
    by (intros [] l k <-; done).
  rewrite (Hif _ _ _ (writeMQTTString_length (username o) S4)), (Hif _ _ _ (writeMQTTString_length (password o) S5)).
  erewrite (Hif (negb (willFlag o =? 0)));
    [|rewrite length_app, Nat2Z.inj_add, (writeMQTTString_length _ S2), (writeMQTTString_length _ S3); reflexivity].
  repeat case_match; lia.
Qed.

(** The packets the client sends never overrun its buffer: connect (with the strings of
    the options each given in one way, and a protocol version the library knows),
    subscribe, unsubscribe, acknowledgements, ping and disconnect either fit the buffer
    length they are given or are refused with a negative code. *)
Theorem control_packets_fit (buflen dup packetid type : Z) (o : MQTTPacket_connectData)
  (topics : list (MQTTString * Z)) :
  0 < buflen < 2 ^ 28 -> MQTTVersion o = 3 \/ MQTTVersion o = 4 ->
  Forall string_ok [clientID o; will_topicName (will o); will_message (will o); username o; password o] ->
  Forall (fun t => string_ok t.1) topics ->
  fits buflen (MQTTSerialize_connect buflen o) /\
  fits buflen (MQTTSerialize_subscribe buflen dup packetid topics) /\
  fits buflen (MQTTSerialize_unsubscribe buflen dup packetid topics.*1) /\
  fits buflen (MQTTSerialize_ack buflen type dup packetid) /\
  fits buflen (MQTTSerialize_zero buflen type).
Proof.
  intros Hb Hv Hs Ht. assert (forall (g : MQTTString -> Z), (forall t, 0 <= g t) -> 0 <= foldr (fun t len => g t + len) 0 topics.*1) as Hg.
  { intros g Hg. clear Ht. induction topics as [|t l IH]; cbn; [lia|]. pose proof (Hg t.1). lia. }
  split_and!; [apply connect_fits; [lia|done..]|..].
  - unfold MQTTSerialize_subscribe, MQTTSerialize_subscribeLength. rewrite (subscribeLength_app (fun t => 2 + MQTTstrlen t + 1)).
    specialize (Hg (fun t => 2 + MQTTstrlen t + 1) ltac:(intros t; pose proof (text_length_nonneg t); lia)).
    destruct (buflen <? MQTTPacket_len _) eqn:El; [done|]. apply body_fits; [lia..|].
    rewrite length_app, Nat2Z.inj_add. rewrite (filters_length _ (fun t => 2 + MQTTstrlen t + 1)); [done| |done].
    intros t Hst. rewrite length_app, Nat2Z.inj_add, writeMQTTString_length by done. cbn. lia.
  - unfold MQTTSerialize_unsubscribe, MQTTSerialize_unsubscribeLength. rewrite (subscribeLength_app (fun t => 2 + MQTTstrlen t)).
    specialize (Hg (fun t => 2 + MQTTstrlen t) ltac:(intros t; pose proof (text_length_nonneg t); lia)).
    destruct (buflen <? MQTTPacket_len _) eqn:El; [done|]. apply body_fits; [lia..|].
    rewrite length_app, Nat2Z.inj_add. rewrite <- (filters_length (fun t => writeMQTTString t.1) (fun t => 2 + MQTTstrlen t)); [|intros t Hst; rewrite writeMQTTString_length by done; lia|done].
    f_equal. f_equal. clear. induction topics as [|t l IH]; cbn; [done|]. by rewrite !length_app, IH.
  - unfold MQTTSerialize_ack. destruct (buflen <? 4) eqn:El; [done|]. change (0 < 4 <= buflen). lia.
  - unfold MQTTSerialize_zero. destruct (buflen <? 2) eqn:El; [done|]. change (0 < 2 <= buflen). lia.
Qed.

Lemma control_packets_fit_witness :
  let s := MkMQTTString (Some [116]) [] in
  let o := ConnectData 4 s 30 1 1 (WillOptions s s 0 1) s s in
  fits 1024 (MQTTSerialize_connect 1024 o) /\ fits 1024 (MQTTSerialize_subscribe 1024 0 1 [(s, 1)]) /\
  fits 1024 (MQTTSerialize_unsubscribe 1024 0 1 [(s, 1)].*1) /\
  fits 1024 (MQTTSerialize_ack 1024 PUBACK 0 1) /\ fits 1024 (MQTTSerialize_zero 1024 PUBACK).
Proof.
  intros s o. apply (control_packets_fit 1024 0 1 PUBACK o [(s, 1)]); [lia|by right|..];
    repeat constructor; by right.
Defined.
