(* ===== verification/MqttClient.v ===== *)
(** * MQTT client

    Models [packages/pahomqtt-v1.1.0/MQTTClient-RT/paho_mqtt_pipe.c]: the packet input and
    output, connecting, subscribing, the delivery of messages to their handlers, the local
    pipe through which other threads publish, and the turns of the worker thread. The
    network is a parameter kept in the state: what the successive [recv] calls yield, and
    whether the successive [send] calls succeed; so is the allocator's answer. A pipe write
    that does not fit blocks until the worker reads: the pipe is the list of bytes written,
    of which a read takes what the 512-byte ring holds. Handlers are run by a function of the
    client's user. *)

From stdpp Require Import base numbers list.
From Stdlib Require Import ZArith Lia.
From S2P Require Import Prelude MqttPacket.

Definition PAHO_FAILURE : Z := -1.
Definition PAHO_SUCCESS : Z := 0.
Definition QOS0 : Z := 0.
Definition QOS1 : Z := 1.
Definition QOS2 : Z := 2.
Definition MAX_MESSAGE_HANDLERS : Z := 3.
Definition MAX_PACKET_ID : Z := 65535.
Definition sizeof_MQTTMessage : Z := 16.

(** A result of [recv]: data, or -1 with an [errno] that [net_read] passes over
    (ENOTCONN, ECONNRESET) or not. *)
Inductive recv_result : Set :=
  | RecvData (l : bytes)
  | RecvError (passed_over : bool).

(** [MQTTMessage] as the handlers get it: the payload is a place in the read buffer. *)
Record message : Set := Message { msg_qos : Z; msg_retained : Z; msg_dup : Z; msg_id : option Z; msg_payload : Z * Z }.
(** [MessageData]: the topic is a place in the read buffer too. *)
Record message_data : Set := MessageData { topicName : Z * Z; md_message : message }.

Section Client.
(** The functions a user registers as handlers. *)
Context {H : Type}.

Record handler : Type := Handler { topicFilter : option bytes; callback : option H; h_qos : Z }.

(** [rt_tick_get], the field [tick_ping], the results of the next [rt_mutex_take]s of
    [pub_mutex] (then they succeed), the field [sock] ([None] for -1), and the descriptors
    that [socket] gave this client and [closesocket] has not closed. *)
Record environ : Set := Environ {
  rt_tick_get : Z; tick_ping : Z; mutex_takes : list bool; sock : option Z; open_socks : list Z }.

(** Before the first tick, with no socket. *)
Definition no_ticks : environ := Environ 0 0 [] None [].

Record mqtt_client : Type := MQTTClient {
  sock_recv : list recv_result;
  sock_send : list bool;          (* results of the next sends; then they succeed *)
  sent : list bytes;              (* the packets handed to the network *)
  mallocs : list bool;            (* results of the next allocations; then they succeed *)
  stack_junk : Z * Z * Z;         (* dup, id and pointer bytes of an uninitialised MQTTMessage *)
  buf_size : Z;
  readbuf_size : Z;
  readbuf : bytes;
  next_packetid : Z;
  isconnected : bool;
  isblocking : bool;
  condata : MQTTPacket_connectData;
  messageHandlers : list handler;
  defaultMessageHandler : option H;
  pub_pipe : bytes;
  env : environ
}.

Definition set_net (r : list recv_result) (s : list bool) (o : list bytes) (c : mqtt_client) : mqtt_client :=
  MQTTClient r s o (mallocs c) (stack_junk c) (buf_size c) (readbuf_size c) (readbuf c) (next_packetid c)
    (isconnected c) (isblocking c) (condata c) (messageHandlers c) (defaultMessageHandler c) (pub_pipe c) (env c).
Definition set_mallocs (m : list bool) (c : mqtt_client) : mqtt_client :=
  MQTTClient (sock_recv c) (sock_send c) (sent c) m (stack_junk c) (buf_size c) (readbuf_size c) (readbuf c)
    (next_packetid c) (isconnected c) (isblocking c) (condata c) (messageHandlers c) (defaultMessageHandler c) (pub_pipe c) (env c).
Definition set_readbuf (b : bytes) (c : mqtt_client) : mqtt_client :=
  MQTTClient (sock_recv c) (sock_send c) (sent c) (mallocs c) (stack_junk c) (buf_size c) (readbuf_size c) b
    (next_packetid c) (isconnected c) (isblocking c) (condata c) (messageHandlers c) (defaultMessageHandler c) (pub_pipe c) (env c).
Definition set_session (id : Z) (conn : bool) (c : mqtt_client) : mqtt_client :=
  MQTTClient (sock_recv c) (sock_send c) (sent c) (mallocs c) (stack_junk c) (buf_size c) (readbuf_size c) (readbuf c)
    id conn (isblocking c) (condata c) (messageHandlers c) (defaultMessageHandler c) (pub_pipe c) (env c).
Definition set_handlers (hs : list handler) (c : mqtt_client) : mqtt_client :=
  MQTTClient (sock_recv c) (sock_send c) (sent c) (mallocs c) (stack_junk c) (buf_size c) (readbuf_size c) (readbuf c)
    (next_packetid c) (isconnected c) (isblocking c) (condata c) hs (defaultMessageHandler c) (pub_pipe c) (env c).
Definition set_pipe (p : bytes) (c : mqtt_client) : mqtt_client :=
  MQTTClient (sock_recv c) (sock_send c) (sent c) (mallocs c) (stack_junk c) (buf_size c) (readbuf_size c) (readbuf c)
    (next_packetid c) (isconnected c) (isblocking c) (condata c) (messageHandlers c) (defaultMessageHandler c) p (env c).

Definition set_env (e : environ) (c : mqtt_client) : mqtt_client :=
  MQTTClient (sock_recv c) (sock_send c) (sent c) (mallocs c) (stack_junk c) (buf_size c) (readbuf_size c) (readbuf c)
    (next_packetid c) (isconnected c) (isblocking c) (condata c) (messageHandlers c) (defaultMessageHandler c) (pub_pipe c) e.

(** [c->tick_ping = rt_tick_get()]. *)
Definition note_ping : M mqtt_client unit :=
  modify (fun c => set_env (Environ (rt_tick_get (env c)) (rt_tick_get (env c)) (mutex_takes (env c)) (sock (env c)) (open_socks (env c))) c).

(** [rt_mutex_take(c->pub_mutex, 5 s)]: whether it is taken. *)
Definition take_pub_mutex : M mqtt_client bool :=
  e <- gets env ;;
  match mutex_takes e with
  | [] => ret true
  | b :: l => modify (set_env (Environ (rt_tick_get e) (tick_ping e) l (sock e) (open_socks e))) ;;; ret b
  end.

Definition malloc_ok : M mqtt_client bool :=
  l <- gets mallocs ;;
  match l with
  | [] => ret true
  | b :: l => modify (set_mallocs l) ;;; ret b
  end.

(** ** The read buffer *)

(** A store through a pointer into [readbuf]. *)
Definition readbuf_store (p : Z) (l : bytes) : M mqtt_client unit :=
  b <- gets readbuf ;;
  if (0 <=? p) && (p + Z.of_nat (length l) <=? Z.of_nat (length b)) then
    modify (set_readbuf (take (Z.to_nat p) b ++ l ++ drop (Z.to_nat (p + Z.of_nat (length l))) b))
  else raise OutOfBounds.

(** ** Network input and output *)

Definition sendPacket (packet : bytes) : M mqtt_client Z :=
  c <- get ;;
  match sock_send c with
  | [] => modify (set_net (sock_recv c) [] (sent c ++ [packet])) ;;; ret 0
  | true :: l => modify (set_net (sock_recv c) l (sent c ++ [packet])) ;;; ret 0
  | false :: l => modify (set_net (sock_recv c) l (sent c)) ;;; ret (-1)
  end.

(** [recv] of at most [len] bytes; what it leaves is for the next one. *)
Definition recv (len : Z) : M mqtt_client (option bytes + unit) :=
  c <- get ;;
  match sock_recv c with
  | [] => ret (inl None)
  | RecvError true :: l => modify (set_net l (sock_send c) (sent c)) ;;; ret (inr tt)
  | RecvError false :: l => modify (set_net l (sock_send c) (sent c)) ;;; ret (inl None)
  | RecvData d :: l =>
      let rest := drop (Z.to_nat len) d in
      modify (set_net (if bool_decide (rest = []) then l else RecvData rest :: l) (sock_send c) (sent c)) ;;;
      ret (inl (Some (take (Z.to_nat len) d)))
  end.

(** Reads [len] bytes to offset [p] of [readbuf]: a second [recv] only after one wait. *)
Fixpoint net_read_loop (fuel : nat) (p len bytes : Z) (timeout : bool) : M mqtt_client Z :=
  match fuel with
  | O => ret bytes
  | S fuel =>
      if bytes <? len then
        r <- recv (len - bytes) ;;
        match r with
        | inl None => ret (-1)
        | inl (Some d) =>
            readbuf_store (p + bytes) d ;;;
            let bytes := bytes + Z.of_nat (length d) in
            if len <=? bytes then ret bytes
            else if timeout then net_read_loop fuel p len bytes false else ret bytes
        | inr tt => if timeout then net_read_loop fuel p len bytes false else ret bytes
        end
      else ret bytes
  end.
Definition net_read (p len : Z) (timeout : Z) : M mqtt_client Z :=
  net_read_loop 2 p len 0 (0 <? timeout).

(** One byte into a local variable. *)
Definition net_read_char (timeout : Z) : M mqtt_client (option Z) :=
  r <- recv 1 ;;
  match r with
  | inl (Some [c]) => ret (Some c)
  | inl None => ret None
  | _ => if 0 <? timeout then
           r <- recv 1 ;;
           match r with inl (Some [c]) => ret (Some c) | _ => ret None end
         else ret None
  end.

Definition decodePacket (timeout : Z) : M mqtt_client Z :=
  r <- MQTTPacket_decode (net_read_char timeout) ;;
  ret r.2.

(** The packet's type, or -1. *)
Definition MQTTPacket_readPacket : M mqtt_client Z :=
  n <- net_read 0 1 0 ;;
  if negb (n =? 1) then ret PAHO_FAILURE
  else
    rem_len <- decodePacket 50 ;;
    readbuf_store 1 (MQTTPacket_encode rem_len) ;;;
    let len := 1 + Z.of_nat (length (MQTTPacket_encode rem_len)) in
    n <- (if 0 <? rem_len then net_read len rem_len 300 else ret rem_len) ;;
    if negb (n =? rem_len) then ret PAHO_FAILURE
    else b <- gets readbuf ;; ret (hdr_type (nth 0 b 0)).

Definition getNextPacketId : M mqtt_client Z :=
  modify (fun c => set_session (if next_packetid c =? MAX_PACKET_ID then 1 else next_packetid c + 1) (isconnected c) c) ;;;
  gets next_packetid.

(** Run a reader on the read buffer. *)
Definition on_readbuf {A : Type} (m : bytes -> M Z A) : M mqtt_client A := fun c =>
  match m (readbuf c) 0 with
  | Ok (a, _) => Ok (a, c)
  | Fault f => Fault f
  end.

(** Whether the socket became readable in time: [select]. *)
Definition select_readable : M mqtt_client bool := gets (fun c => negb (bool_decide (sock_recv c = []))).

Definition MQTTConnect : M mqtt_client Z :=
  c <- get ;;
  rc <- (if isconnected c then ret (-1)
         else match MQTTSerialize_connect (buf_size c) (condata c) with
              | inl _ => ret (-1)
              | inr packet =>
                  rc <- sendPacket packet ;;
                  if negb (rc =? 0) then ret rc
                  else
                    ready <- select_readable ;;
                    if negb ready then ret (-1)
                    else
                      rc <- MQTTPacket_readPacket ;;
                      if rc <? 0 then ret rc
                      else if rc =? CONNACK then
                        r <- on_readbuf MQTTDeserialize_connack ;;
                        match r with
                        | (1, Some (_, connack_rc)) => ret connack_rc
                        | (1, None) => raise UninitRead
                        | _ => ret (-1)
                        end
                      else ret (-1)
              end) ;;
  when (rc =? 0) (modify (fun c => set_session (next_packetid c) true c)) ;;;
  ret rc.

Definition MQTTDisconnect : M mqtt_client Z :=
  n <- gets buf_size ;;
  rc <- match MQTTSerialize_disconnect n with
        | inr packet => sendPacket packet
        | inl _ => ret PAHO_FAILURE
        end ;;
  modify (fun c => set_session (next_packetid c) false c) ;;;
  ret rc.

Definition c_str (s : bytes) : MQTTString := MkMQTTString (Some s) [].

Definition MQTTSubscribe (filter : bytes) (qos : Z) : M mqtt_client Z :=
  c <- get ;;
  if negb (isconnected c) then ret PAHO_FAILURE
  else
    id <- getNextPacketId ;;
    match MQTTSerialize_subscribe (buf_size c) 0 (u16 id) [(c_str filter, qos)] with
    | inl _ => ret PAHO_FAILURE
    | inr packet =>
        rc <- sendPacket packet ;;
        if negb (rc =? PAHO_SUCCESS) then ret rc
        else
          ready <- select_readable ;;
          if negb ready then ret (-1)
          else
            rc <- MQTTPacket_readPacket ;;
            if rc <? 0 then ret rc
            else if rc =? SUBACK then
              r <- on_readbuf (fun b => MQTTDeserialize_suback b 1) ;;
              let '(ok, _, granted) := r in
              let rc := if ok =? 1 then nth 0 granted (-1) else rc in
              ret (if negb (rc =? 0x80) then 0 else rc)
            else ret PAHO_FAILURE
    end.

(** ** Delivery *)

(** The loop runs over the filter and the topic. A [+] skips the topic's level; a [#] skips
    to the topic's last character. *)
Fixpoint skip_level (n : bytes) : bytes :=
  match n with
  | c :: ((d :: _) as r) => if d =? 47 then n else skip_level r
  | _ => n
  end.

Fixpoint topic_loop (f n : bytes) : bool :=
  match f, n with
  | cf :: f', cn :: n' =>
      if (cn =? 47) && negb (cf =? 47) then false
      else if negb (cf =? 43) && negb (cf =? 35) && negb (cf =? cn) then false
      else if cf =? 43 then topic_loop f' (tail (skip_level n))
      else if cf =? 35 then topic_loop f' []
      else topic_loop f' n'
  | [], [] => true
  | _, _ => false
  end.
Definition isTopicMatched (filter name : bytes) : bool := topic_loop filter name.

End Client.
Arguments handler : clear implicits.
Arguments mqtt_client : clear implicits.

(** ** The client inside its user's state

    [run h md] is the registered function [h] called on a message. *)
Section Worker.
Context {H S : Type} `{!Lens S (mqtt_client H)}.
Variable run : H -> message_data -> M S unit.

Definition client {A : Type} (m : M (mqtt_client H) A) : M S A := zoom m.

Definition handler_matches (h : handler H) (topic : bytes) : bool :=
  match topicFilter h with
  | Some f => MQTTPacket_equals (MkMQTTString None topic) f || isTopicMatched f topic
  | None => false
  end.

(** The loop over the handlers, whether one was called. *)
Fixpoint deliver_loop (hs : list (handler H)) (topic : bytes) (md : message_data) (rc : Z) : M S Z :=
  match hs with
  | [] => ret rc
  | h :: hs =>
      match callback h with
      | Some cb => if handler_matches h topic then run cb md ;;; deliver_loop hs topic md PAHO_SUCCESS
                   else deliver_loop hs topic md rc
      | None => deliver_loop hs topic md rc
      end
  end.

Definition deliverMessage (md : message_data) : M S Z :=
  c <- client get ;;
  rc <- deliver_loop (messageHandlers c) (slice (readbuf c) (topicName md)) md PAHO_FAILURE ;;
  if rc =? PAHO_FAILURE then
    match defaultMessageHandler c with
    | Some cb => run cb md ;;; ret PAHO_SUCCESS
    | None => ret rc
    end
  else ret rc.

(** The acknowledgement of a message, by its QoS. *)
Definition acknowledge (qos id : Z) : M (mqtt_client H) Z :=
  n <- gets buf_size ;;
  let r := if qos =? QOS1 then MQTTSerialize_ack n PUBACK 0 id
           else if qos =? QOS2 then MQTTSerialize_ack n PUBREC 0 id
           else inl 0 in
  match r with
  | inl _ => ret PAHO_FAILURE
  | inr packet => sendPacket packet
  end.

Definition MQTT_cycle : M S Z :=
  packet_type <- client MQTTPacket_readPacket ;;
  if packet_type =? -1 then ret PAHO_FAILURE
  else if (packet_type =? CONNACK) || (packet_type =? PUBACK) || (packet_type =? SUBACK) then
    r <- client (on_readbuf (fun b => MQTTDeserialize_suback b 1)) ;;
    let '(ok, _, granted) := r in
    let rc := if ok =? 1 then nth 0 granted (-1) else PAHO_SUCCESS in
    ret (if negb (rc =? 0x80) then 0 else rc)
  else if packet_type =? UNSUBACK then
    r <- client (on_readbuf MQTTDeserialize_unsuback) ;;
    ret (if r.1 =? 1 then PAHO_SUCCESS else PAHO_FAILURE)
  else if packet_type =? PUBLISH then
    r <- client (on_readbuf MQTTDeserialize_publish) ;;
    let '(ok, out) := r in
    if negb (ok =? 1) then ret PAHO_SUCCESS
    else
      match out_flags out, out_topic out, out_payload out with
      | Some (dup, qos, retained), Some topic, Some payload =>
          deliverMessage (MessageData topic (Message qos retained dup (out_packetid out) payload)) ;;;
          if negb (qos =? QOS0) then
            match out_packetid out with
            | Some id => client (acknowledge qos id)
            | None => raise UninitRead
            end
          else ret PAHO_SUCCESS
      | _, _, _ => raise UninitRead
      end
  else if packet_type =? PUBREC then
    r <- client (on_readbuf MQTTDeserialize_ack) ;;
    match r with
    | (1, _, _, Some id) =>
        n <- client (gets buf_size) ;;
        match MQTTSerialize_ack n PUBREL 0 id with
        | inl _ => ret PAHO_FAILURE
        | inr packet =>
            rc <- client (sendPacket packet) ;;
            ret (if negb (rc =? PAHO_SUCCESS) then PAHO_FAILURE else rc)
        end
    | (1, _, _, None) => raise UninitRead
    | _ => ret PAHO_FAILURE
    end
  else if packet_type =? PINGRESP then client note_ping ;;; ret PAHO_SUCCESS
  else ret PAHO_SUCCESS.
End Worker.

(** ** The local pipe *)

Section Pipe.
Context {H : Type}.
Implicit Types c : mqtt_client H.

(** Little-endian words of the target. *)
Definition le (n : nat) (v : Z) : bytes := map (fun i => u8 (Z.shiftr v (8 * Z.of_nat i))) (seq 0 n).
Fixpoint le_value (l : bytes) : Z := match l with [] => 0 | b :: l => b + 256 * le_value l end.

(** [MQTTMessage] in memory: qos, retained, dup, id, payload, payloadlen. *)
Definition message_bytes (qos retained dup id payload payloadlen : Z) : bytes :=
  le 4 qos ++ le 1 retained ++ le 1 dup ++ le 2 id ++ le 4 payload ++ le 4 payloadlen.

Definition MQTT_local_send (l : bytes) : M (mqtt_client H) Z :=
  modify (fun c => set_pipe (pub_pipe c ++ l) c) ;;; ret (Z.of_nat (length l)).

(** "DISCONNECT". *)
Definition s_DISCONNECT : bytes := [68; 73; 83; 67; 79; 78; 78; 69; 67; 84].

Definition MQTT_CMD (cmd : bytes) : M (mqtt_client H) Z :=
  c <- get ;;
  if negb (isconnected c) then ret PAHO_FAILURE
  else
    let cmd_len := Z.of_nat (length cmd) + 1 in
    if sizeof_MQTTMessage <=? cmd_len then ret PAHO_FAILURE
    else
      ok <- malloc_ok ;;
      if negb ok then ret PAHO_FAILURE
      else
        len <- MQTT_local_send (cmd ++ [0]) ;;
        ret (if len =? cmd_len then 0 else PAHO_FAILURE).

(** The message's [dup], [id] are not set by the caller. A client that blocks waits for
    [pub_mutex] after the message is in the pipe. *)
Definition MQTTPublish (topicName : bytes) (qos retained : Z) (payload : bytes) : M (mqtt_client H) Z :=
  c <- get ;;
  if negb (isconnected c) then ret PAHO_FAILURE
  else
    let msg_len := sizeof_MQTTMessage + Z.of_nat (length payload) + Z.of_nat (length topicName) + 1 in
    ok <- malloc_ok ;;
    if negb ok then ret PAHO_FAILURE
    else
      let '(dup, id, ptr) := stack_junk c in
      len <- MQTT_local_send (message_bytes qos retained dup id ptr (Z.of_nat (length payload)) ++
                              payload ++ topicName ++ [0]) ;;
      blocking <- gets isblocking ;;
      taken <- (if blocking : bool then take_pub_mutex else ret true) ;;
      ret (if negb taken then PAHO_FAILURE else if len =? msg_len then PAHO_SUCCESS else PAHO_FAILURE).

Definition paho_mqtt_publish (qos : Z) (topic msg_str : bytes) : M (mqtt_client H) Z :=
  if negb (qos =? QOS1) then ret PAHO_FAILURE
  else MQTTPublish topic qos 0 msg_str.

Definition paho_mqtt_stop : M (mqtt_client H) Z := MQTT_CMD s_DISCONNECT.

(** Creates the mutex (one block) and the worker (its object and its stack). A worker that
    cannot be created is not an error; the second result says whether there is one. *)
Definition paho_mqtt_start : M (mqtt_client H) (Z * bool) :=
  mutex <- malloc_ok ;;
  if negb mutex then ret (PAHO_FAILURE, false)
  else
    tid <- malloc_ok ;;
    if negb tid then ret (PAHO_SUCCESS, false)
    else
      stack <- malloc_ok ;;
      ret (PAHO_SUCCESS, stack).

(** [read]: what the ring holds, at most [count] bytes. *)
Definition pipe_read (count : Z) : M (mqtt_client H) bytes :=
  p <- gets pub_pipe ;;
  let n := Z.to_nat (Z.min PIPE_BUFSZ count) in
  modify (set_pipe (drop n p)) ;;;
  ret (take n p).

(** The C string at a place of the read buffer. *)
Fixpoint c_string_at (l : bytes) : option bytes :=
  match l with
  | [] => None
  | c :: l => if c =? 0 then Some [] else option_map (cons c) (c_string_at l)
  end.

(** What the worker does next. *)
Inductive turn : Set := Continue | Disconnect | Exit.

(** The turn of the worker on a readable pipe. The read does not fail: on a blocking
    descriptor [pipe_fops_read] answers 0 or more (Pipe.v). After a blocking publication the
    worker releases [pub_mutex]; as it is not its owner that changes nothing (Ipc.v,
    [foreign_release]). *)
Definition pipe_turn : M (mqtt_client H) turn :=
  n <- gets readbuf_size ;;
  d <- pipe_read n ;;
  readbuf_store 0 d ;;;
  let len := Z.of_nat (length d) in
  if len <? sizeof_MQTTMessage then
    readbuf_store len [0] ;;;
    b <- gets readbuf ;;
    ret (if bool_decide (c_string_at b = Some s_DISCONNECT) then Exit else Continue)
  else
    b <- gets readbuf ;;
    let qos := le_value (take 4 b) in
    let retained := le_value (take 1 (drop 4 b)) in
    let id := le_value (take 2 (drop 6 b)) in
    let payloadlen := le_value (take 4 (drop 12 b)) in
    match c_string_at (drop (Z.to_nat (sizeof_MQTTMessage + payloadlen)) b) with
    | None => raise OutOfBounds
    | Some topic =>
        n <- gets buf_size ;;
        match MQTTSerialize_publish n 0 qos retained id (MkMQTTString (Some topic) [])
                (take (Z.to_nat payloadlen) (drop 16 b)) with
        | inl _ => ret Disconnect
        | inr packet =>
            rc <- sendPacket packet ;;
            ret (if negb (rc =? PAHO_SUCCESS) then Disconnect else Continue)
        end
    end.

(** The worker's ping, when nothing happened for the keep-alive interval. *)
Definition ping_turn : M (mqtt_client H) turn :=
  n <- gets buf_size ;;
  match MQTTSerialize_pingreq n with
  | inl _ => ret Disconnect
  | inr packet =>
      rc <- sendPacket packet ;;
      if negb (rc =? 0) then ret Disconnect
      else ready <- select_readable ;; ret (if negb ready then Disconnect else Continue)
  end.

(** ** Subscriptions *)

(** [rt_strncmp(filter, topic, rt_strlen(topic)) == 0]: the filter begins with the topic. *)
Definition begins_with (filter topic : bytes) : bool := bool_decide (take (length topic) filter = topic).

Definition subscribed (hs : list (handler H)) (topic : bytes) : bool :=
  existsb (fun h => match topicFilter h with Some f => begins_with f topic | None => false end) hs.

(** The first free entry. *)
Fixpoint free_slot (hs : list (handler H)) (i : nat) : option nat :=
  match hs with
  | [] => None
  | h :: hs => match topicFilter h with None => Some i | Some _ => free_slot hs (S i) end
  end.

Definition disconnected : M (mqtt_client H) unit := modify (fun c => set_session (next_packetid c) false c).

Definition paho_mqtt_subscribe (qos : Z) (topic : bytes) (cb : option H) : M (mqtt_client H) Z :=
  if negb (qos =? QOS1) then ret PAHO_FAILURE
  else
    c <- get ;;
    if subscribed (messageHandlers c) topic then ret PAHO_SUCCESS
    else
      match free_slot (messageHandlers c) 0 with
      | None => ret PAHO_FAILURE
      | Some i =>
          id <- getNextPacketId ;;
          match MQTTSerialize_subscribe (buf_size c) 0 (u16 id) [(c_str topic, qos)] with
          | inl _ => disconnected ;;; ret PAHO_SUCCESS
          | inr packet =>
              rc <- sendPacket packet ;;
              if negb (rc =? PAHO_SUCCESS) then disconnected ;;; ret rc
              else
                ok <- malloc_ok ;;
                modify (fun c =>
                  let old := nth i (messageHandlers c) (Handler None None 0) in
                  set_handlers (<[i := Handler (if ok : bool then Some topic else None)
                                         (match cb with Some _ => cb | None => callback old end) qos]>
                                  (messageHandlers c)) c) ;;;
                ret rc
          end
      end.

(** The first entry whose filter begins with the topic. *)
Fixpoint find_slot (hs : list (handler H)) (topic : bytes) (i : nat) : option nat :=
  match hs with
  | [] => None
  | h :: hs =>
      match topicFilter h with
      | Some f => if begins_with f topic then Some i else find_slot hs topic (S i)
      | None => find_slot hs topic (S i)
      end
  end.

Definition paho_mqtt_unsubscribe (topic : bytes) : M (mqtt_client H) Z :=
  c <- get ;;
  match find_slot (messageHandlers c) topic 0 with
  | None => ret PAHO_FAILURE
  | Some i =>
      id <- getNextPacketId ;;
      match MQTTSerialize_unsubscribe (buf_size c) 0 (u16 id) [c_str topic] with
      | inl _ => disconnected ;;; ret PAHO_SUCCESS
      | inr packet =>
          rc <- sendPacket packet ;;
          if negb (rc =? PAHO_SUCCESS) then disconnected ;;; ret rc
          else
            modify (fun c => set_handlers (<[i := Handler None None (h_qos (nth i (messageHandlers c) (Handler None None 0)))]>
                                             (messageHandlers c)) c) ;;;
            ret rc
      end
  end.

(** The worker's subscriptions after connecting: whether it goes on. *)
Fixpoint resubscribe (hs : list (handler H)) : M (mqtt_client H) bool :=
  match hs with
  | [] => ret true
  | h :: hs =>
      match topicFilter h with
      | None => resubscribe hs
      | Some topic =>
          rc <- MQTTSubscribe topic (h_qos h) ;;
          if negb (rc =? 0) then ret false else resubscribe hs
      end
  end.
End Pipe.

(** ** The worker thread *)

Section Thread.
Context {H S : Type} `{!Lens S (mqtt_client H)}.
Variable run : H -> message_data -> M S unit.
Variable online_callback : M S unit.

(** [net_connect] starts the packet identifiers anew; [connected] is what the name service
    and the network answer. *)
Definition net_connect (connected : bool) : M (mqtt_client H) bool :=
  modify (fun c => set_session 0 (isconnected c) c) ;;; ret connected.

(** From the network connection to the first turn. *)
Definition thread_start (connected : bool) : M S turn :=
  ok <- client (net_connect connected) ;;
  if negb ok then ret Disconnect
  else
    rc <- client MQTTConnect ;;
    if negb (rc =? 0) then ret Disconnect
    else
      c <- client get ;;
      ok <- client (resubscribe (messageHandlers c)) ;;
      if negb ok then client MQTTDisconnect ;;; ret Disconnect
      else online_callback ;;; ret Continue.

(** What [select] reported. *)
Inductive ready : Set := SockReady | PipeReady | TimedOut.

Definition thread_turn (r : ready) : M S turn :=
  t <- match r with
       | SockReady => rc <- MQTT_cycle run ;; ret (if rc <? 0 then Disconnect else Continue)
       | PipeReady => client pipe_turn
       | TimedOut =>
           t <- client ping_turn ;;
           match t with
           | Continue => rc <- MQTT_cycle run ;; ret (if rc <? 0 then Disconnect else Continue)
           | t => ret t
           end
       end ;;
  match t with
  | Continue => ret Continue
  | t => client MQTTDisconnect ;;; ret t
  end.
End Thread.

(** ** Publishing through the pipe *)

Lemma le_value_le n v : 0 <= v -> le_value (le n v) = v mod 256 ^ Z.of_nat n.
Proof.
  intros Hv. unfold le.
  assert (forall k, le_value (map (fun i => u8 (Z.shiftr v (8 * Z.of_nat i))) (seq k n)) =
    (v / 256 ^ Z.of_nat k) mod 256 ^ Z.of_nat n) as Hk.
  { induction n as [|n IH]; intros k; cbn [seq map le_value]; [by rewrite Z.mod_1_r|].
    rewrite IH. unfold wrap. rewrite Z.shiftr_div_pow2 by lia.
    replace (2 ^ (8 * Z.of_nat k)) with (256 ^ Z.of_nat k) by (by rewrite Z.pow_mul_r by lia).
    rewrite (Nat2Z.inj_succ k), (Nat2Z.inj_succ n), !Z.pow_succ_r by lia. change (2 ^ 8) with 256.
    rewrite (Z.mul_comm 256 (256 ^ Z.of_nat k)), <- Z.div_div by (try apply Z.pow_nonzero; lia).
    rewrite Z.rem_mul_r by (try apply Z.pow_pos_nonneg; lia). done. }
  rewrite (Hk 0%nat). by rewrite Z.div_1_r.
Qed.

Lemma le_length n v : length (le n v) = n.
Proof. unfold le. by rewrite length_map, length_seq. Qed.

Lemma le_value_small n v : 0 <= v < 256 ^ Z.of_nat n -> le_value (le n v) = v.
Proof. intros Hv. rewrite le_value_le by lia. by apply Z.mod_small. Qed.

Lemma c_string_at_app s l : Forall (fun c => c <> 0) s -> c_string_at (s ++ 0 :: l) = Some s.
Proof.
  induction 1 as [|c s Hc Hs IH]; cbn; [done|]. rewrite (proj2 (Z.eqb_neq c 0)) by done. by rewrite IH.
Qed.

Section PipeFacts.
Context {H : Type}.
Implicit Types c : mqtt_client H.

(** What [MQTTPublish] puts in the pipe. *)
Definition frame (junk : Z * Z * Z) (topic payload : bytes) : bytes :=
  let '(dup, id, ptr) := junk in
  message_bytes QOS1 0 dup id ptr (Z.of_nat (length payload)) ++ payload ++ topic ++ [0].

(** A connected client with the buffers of [mqtt_start]. *)
Record client_ok c : Prop := {
  ok_connected : isconnected c = true;
  ok_mallocs : Forall (fun b => b = true) (mallocs c);
  ok_sizes : buf_size c = 1024 /\ readbuf_size c = 1024;
  ok_readbuf : length (readbuf c) = 1024%nat;
  ok_junk : let '(_, id, _) := stack_junk c in 0 <= id < 65536;
  ok_nonblocking : isblocking c = false
}.

(** A message the pipe takes whole. *)
Record frame_ok (topic payload : bytes) : Prop := {
  frame_topic : Forall (fun b => b <> 0) topic;
  frame_size : 17 + Z.of_nat (length payload) + Z.of_nat (length topic) <= PIPE_BUFSZ
}.

Lemma frame_length junk topic payload :
  Z.of_nat (length (frame junk topic payload)) = 17 + Z.of_nat (length payload) + Z.of_nat (length topic).
Proof.
  destruct junk as [[dup id] ptr]. unfold frame, message_bytes. rewrite !length_app, !le_length. cbn [length]. lia.
Qed.

Lemma publish_state c topic payload :
  client_ok c ->
  wp (paho_mqtt_publish QOS1 topic payload) c (fun rc c' => rc = PAHO_SUCCESS /\
    exists l, Forall (fun b => b = true) l /\
      c' = set_pipe (pub_pipe c ++ frame (stack_junk c) topic payload) (set_mallocs l c)).
Proof.
  intros [Hc Hm Hs Hr Hj Hb]. unfold paho_mqtt_publish, MQTTPublish, malloc_ok, MQTT_local_send.
  cbn [negb Z.eqb Pos.eqb QOS1]. wp_step. unfold get at 1. unfold wp at 1. rewrite Hc. cbn [negb]. wp_steps.
  pose proof (frame_length (stack_junk c) topic payload) as Hl. unfold frame in Hl |- *.
  destruct c as [? ? ? ms [[dup id] ptr] ? ? ? ? ? ? ? ? ? ? ?]. cbn in *. subst.
  destruct ms as [|b l]; [|apply Forall_cons in Hm as [-> Hm]]; wp_steps; cbn [negb]; wp_steps;
    (split; [by rewrite Hl, (proj2 (Z.eqb_eq _ _)) by (unfold sizeof_MQTTMessage; lia)|]); eexists; (split; [exact Hm|]); done.
Qed.

Lemma publish_spec c topic payload :
  client_ok c ->
  wp (paho_mqtt_publish QOS1 topic payload) c (fun rc c' => rc = PAHO_SUCCESS /\ client_ok c' /\
    pub_pipe c' = pub_pipe c ++ frame (stack_junk c) topic payload /\
    stack_junk c' = stack_junk c /\ sent c' = sent c /\ sock_send c' = sock_send c).
Proof.
  intros Hc. eapply wp_mono; [by apply publish_state|]. cbn beta. intros rc c' (-> & l & Hl & ->).
  destruct Hc. split; [done|]. split; [by split|done].
Qed.

Lemma message_bytes_length qos retained dup id ptr n : length (message_bytes qos retained dup id ptr n) = 16%nat.
Proof. reflexivity. Qed.

(** The fields [pipe_turn] takes from a message at the start of the buffer. *)
Lemma message_fields qos retained dup id ptr n l :
  0 <= qos < 2 ^ 32 -> 0 <= retained < 256 -> 0 <= id < 65536 -> 0 <= n < 2 ^ 32 ->
  let b := message_bytes qos retained dup id ptr n ++ l in
  le_value (take 4 b) = qos /\ le_value (take 1 (drop 4 b)) = retained /\
  le_value (take 2 (drop 6 b)) = id /\ le_value (take 4 (drop 12 b)) = n.
Proof.
  intros Hq Hr Hi Hn b.
  change (take 4 b) with (le 4 qos). change (take 1 (drop 4 b)) with (le 1 retained).
  change (take 2 (drop 6 b)) with (le 2 id). change (take 4 (drop 12 b)) with (le 4 n).
  rewrite !le_value_small; [done|exact Hn|exact Hi|exact Hr|exact Hq].
Qed.

Lemma readbuf_store_0 d c :
  (length d <= length (readbuf c))%nat ->
  wp (readbuf_store 0 d) c (fun _ c' => c' = set_readbuf (d ++ drop (length d) (readbuf c)) c).
Proof.
  intros Hd. unfold readbuf_store. wp_steps. rewrite Z.add_0_l, Nat2Z.id. cbn [Z.leb Z.compare andb].
  rewrite (proj2 (Z.leb_le _ _)) by lia. by wp_steps.
Qed.

(** The publish packet of a message. *)
Definition packet_of (id : Z) (topic payload : bytes) : Z + bytes :=
  MQTTSerialize_publish 1024 0 QOS1 0 id (c_str topic) payload.

Lemma packet_exists id topic payload : frame_ok topic payload -> exists packet, packet_of id topic payload = inr packet.
Proof.
  intros [_ Hs]. unfold packet_of, MQTTSerialize_publish, MQTTSerialize_publishLength, PIPE_BUFSZ in *. cbn [MQTTstrlen cstring c_str].
  rewrite (proj2 (Z.ltb_ge 1024 _)); [by eexists|]. cbn [Z.ltb Z.compare QOS1]. unfold MQTTPacket_len. repeat case_match; lia.
Qed.

Lemma pipe_turn_spec c junk topic payload rest packet :
  client_ok c -> sock_send c = [] -> frame_ok topic payload ->
  pub_pipe c = frame junk topic payload ++ rest -> Z.of_nat (length (pub_pipe c)) <= PIPE_BUFSZ ->
  0 <= junk.1.2 < 65536 -> packet_of junk.1.2 topic payload = inr packet ->
  wp pipe_turn c (fun t c' => t = Continue /\ client_ok c' /\ pub_pipe c' = [] /\
    sent c' = sent c ++ [packet] /\ sock_send c' = [] /\ stack_junk c' = stack_junk c).
Proof.
  intros Hc Hss Hf Hp Hl Hj Hpk. destruct Hc as [Hc Hm [Hs1 Hs2] Hr Hjk Hnb]. unfold PIPE_BUFSZ in Hl.
  unfold pipe_turn, pipe_read. wp_steps. rewrite Hs2. change (Z.to_nat (Z.min PIPE_BUFSZ 1024)) with 512%nat.
  rewrite take_ge, drop_ge by lia. eapply wp_mono; [apply readbuf_store_0; cbn; lia|]. cbn beta. intros _ c' ->. wp_steps. cbn [readbuf set_readbuf set_pipe].
  pose proof (frame_length junk topic payload) as Hfl. pose proof (f_equal length Hp) as Hpl. rewrite length_app in Hpl.
  rewrite (proj2 (Z.ltb_ge _ sizeof_MQTTMessage)) by (unfold sizeof_MQTTMessage; lia). wp_steps. cbn [readbuf set_readbuf set_pipe].
  assert (length (pub_pipe c ++ drop (length (pub_pipe c)) (readbuf c)) = 1024%nat) as Hrb
    by (rewrite length_app, length_drop; lia).
  rewrite Hp in Hrb |- *. destruct junk as [[dup id] ptr]. cbn [frame fst snd] in *. rewrite <- !app_assoc in Hrb |- *.
  set (hd := message_bytes _ _ _ _ _ _). set (tl := drop _ (readbuf c)).
  destruct (message_fields QOS1 0 dup id ptr (Z.of_nat (length payload)) (payload ++ topic ++ [0] ++ rest ++ tl))
    as (F1 & F2 & F3 & F4); [done|done|exact Hj|destruct Hf; unfold PIPE_BUFSZ in *; lia|].
  fold hd in F1, F2, F3, F4. rewrite F1, F2, F3, F4.
  replace (drop (Z.to_nat (sizeof_MQTTMessage + Z.of_nat (length payload))) (hd ++ payload ++ topic ++ [0] ++ rest ++ tl))
    with (topic ++ [0] ++ rest ++ tl).
  2: { rewrite (app_assoc hd), drop_app_length'; [done|]. rewrite length_app. unfold hd, sizeof_MQTTMessage.
       rewrite message_bytes_length. lia. }
  replace (drop 16 (hd ++ payload ++ topic ++ [0] ++ rest ++ tl)) with (payload ++ topic ++ [0] ++ rest ++ tl) by reflexivity.
  rewrite Nat2Z.id, take_app_length. cbn [app]. rewrite c_string_at_app by apply Hf. wp_steps. cbn [buf_size set_readbuf set_pipe].
  rewrite Hs1. unfold packet_of, c_str in Hpk. rewrite Hpk. unfold sendPacket. wp_steps. unfold get, wp at 1. cbn [sock_send set_readbuf set_pipe].
  rewrite Hss. wp_steps. split; [done|]. split; [by split|done].
Qed.

(** Publishing: on a connected client, a message with a NUL-free topic that the pipe
    holds whole is accepted, and the worker's next turn sends exactly one packet, the QoS 1
    publish of that topic and payload, and leaves the pipe empty. Its packet identifier is
    whatever the uninitialised field of the message held. *)
Theorem publish_sends c topic payload :
  client_ok c -> sock_send c = [] -> pub_pipe c = [] -> frame_ok topic payload ->
  wp (rc <- paho_mqtt_publish QOS1 topic payload ;; t <- pipe_turn ;; ret (rc, t)) c
    (fun r c' => r = (PAHO_SUCCESS, Continue) /\ client_ok c' /\ pub_pipe c' = [] /\
      exists packet, packet_of (stack_junk c).1.2 topic payload = inr packet /\ sent c' = sent c ++ [packet]).
Proof.
  intros Hc Hs Hp Hf. wp_steps. eapply wp_mono; [by apply publish_spec|]. cbn beta.
  intros rc c1 (-> & Hc1 & Hp1 & Hj & Hs1 & Hss). rewrite Hp in Hp1. cbn [app] in Hp1. wp_steps.
  destruct (packet_exists (stack_junk c).1.2 topic payload Hf) as [packet Hpk].
  eapply wp_mono; [apply (pipe_turn_spec c1 (stack_junk c) topic payload [] packet); try done|].
  - by rewrite Hss.
  - by rewrite app_nil_r.
  - rewrite Hp1, frame_length. apply Hf.
  - destruct Hc as [_ _ _ _ Hjk]. by destruct (stack_junk c) as [[? ?] ?].
  - cbn beta. intros t c2 (-> & Hc2 & Hp2 & Hsent & _ & _). wp_steps. split_and!; try done.
    exists packet. by rewrite Hsent, Hs1.
Qed.

(** Messages that meet in the pipe are lost: when a second message is published before
    the worker's turn, both calls succeed, but the turn reads the two as one message, sends
    the first alone and drops the second. *)
Theorem second_publish_lost c topic1 payload1 topic2 payload2 :
  client_ok c -> sock_send c = [] -> pub_pipe c = [] -> frame_ok topic1 payload1 ->
  34 + Z.of_nat (length topic1 + length payload1 + length topic2 + length payload2) <= PIPE_BUFSZ ->
  wp (rc1 <- paho_mqtt_publish QOS1 topic1 payload1 ;; rc2 <- paho_mqtt_publish QOS1 topic2 payload2 ;;
      t <- pipe_turn ;; ret (rc1, rc2, t)) c
    (fun r c' => r = (PAHO_SUCCESS, PAHO_SUCCESS, Continue) /\ pub_pipe c' = [] /\
      exists packet, packet_of (stack_junk c).1.2 topic1 payload1 = inr packet /\ sent c' = sent c ++ [packet]).
Proof.
  intros Hc Hs Hp Hf Hl. wp_steps. eapply wp_mono; [by apply publish_spec|]. cbn beta.
  intros rc c1 (-> & Hc1 & Hp1 & Hj & Hs1 & Hss). rewrite Hp in Hp1. cbn [app] in Hp1. wp_steps.
  eapply wp_mono; [by apply publish_spec|]. cbn beta.
  intros rc c2 (-> & Hc2 & Hp2 & Hj2 & Hs2 & Hss2). rewrite Hp1, Hj in Hp2. wp_steps.
  destruct (packet_exists (stack_junk c).1.2 topic1 payload1 Hf) as [packet Hpk].
  eapply wp_mono; [apply (pipe_turn_spec c2 (stack_junk c) topic1 payload1 (frame (stack_junk c) topic2 payload2) packet); try done|].
  - by rewrite Hss2, Hss.
  - rewrite Hp2, length_app, Nat2Z.inj_add, !frame_length. lia.
  - destruct Hc as [_ _ _ _ Hjk]. by destruct (stack_junk c) as [[? ?] ?].
  - cbn beta. intros t c3 (-> & _ & Hp3 & Hsent & _ & _). wp_steps. split_and!; try done.
    exists packet. by rewrite Hsent, Hs2, Hs1.
Qed.
End PipeFacts.

(** ** Receiving *)

Section Receive.
Context {H : Type}.
Implicit Types c : mqtt_client H.

(** The bytes [l] are all the network will deliver. *)
Definition stream (l : bytes) : list recv_result := if bool_decide (l = []) then [] else [RecvData l].
Definition with_stream c (l : bytes) : mqtt_client H := set_net (stream l) (sock_send c) (sent c) c.

Lemma recv_stream c l n :
  l <> [] -> recv n (with_stream c l) = Ok (inl (Some (take (Z.to_nat n) l)), with_stream c (drop (Z.to_nat n) l)).
Proof.
  intros Hl. unfold recv, with_stream, stream at 1. rewrite bool_decide_false by done. reflexivity.
Qed.

Lemma net_read_char_stream c b l t : net_read_char t (with_stream c (b :: l)) = Ok (Some b, with_stream c l).
Proof. unfold net_read_char, bind. by rewrite recv_stream. Qed.

(** A read that one [recv] satisfies. *)
Lemma net_read_stream c l rest p t b' :
  l <> [] ->
  readbuf_store p l (with_stream c rest) = Ok (tt, set_readbuf b' (with_stream c rest)) ->
  net_read p (Z.of_nat (length l)) t (with_stream c (l ++ rest)) =
    Ok (Z.of_nat (length l), with_stream (set_readbuf b' c) rest).
Proof.
  intros Hl Hst. assert (l ++ rest <> []) as Hlr by (by destruct l).
  unfold net_read. cbn [net_read_loop].
  assert (0 < length l)%nat by (destruct l; cbn; [done|lia]).
  rewrite (proj2 (Z.ltb_lt 0 _)) by lia. unfold bind at 1. rewrite recv_stream by done.
  rewrite Z.sub_0_r, Nat2Z.id, take_app_length, drop_app_length, Z.add_0_r. unfold bind. rewrite Hst.
  rewrite Z.add_0_l, Z.leb_refl. done.
Qed.

Lemma readbuf_store_at c b1 b2 l :
  (length b1 + length l <= length (b1 ++ b2))%nat -> readbuf c = b1 ++ b2 ->
  readbuf_store (Z.of_nat (length b1)) l c = Ok (tt, set_readbuf (b1 ++ l ++ drop (length l) b2) c).
Proof.
  intros Hl Hb. unfold readbuf_store, gets, bind. rewrite Hb.
  rewrite (proj2 (Z.leb_le 0 _)), (proj2 (Z.leb_le _ _)) by lia. cbn [andb].
  rewrite <- Nat2Z.inj_add, !Nat2Z.id, take_app_length, <- drop_drop, drop_app_length. done.
Qed.

(** A packet that arrives whole is read into the buffer. *)
Lemma readPacket_rest c hd n body rest :
  Z.of_nat (length body) = n -> 0 < n < 2 ^ 28 ->
  (length (hd :: MQTTPacket_encode n ++ body) <= length (readbuf c))%nat ->
  MQTTPacket_readPacket (with_stream c (hd :: MQTTPacket_encode n ++ body ++ rest)) =
    Ok (hdr_type hd, with_stream (set_readbuf ((hd :: MQTTPacket_encode n ++ body) ++
      drop (length (hd :: MQTTPacket_encode n ++ body)) (readbuf c)) c) rest).
Proof.
  intros Hb Hn Hl. set (e := MQTTPacket_encode n) in *. cbn [length] in Hl. rewrite length_app in Hl.
  destruct (readbuf c) as [|x0 b0] eqn:E0; [cbn in Hl; lia|]. cbn [length] in Hl.
  unfold MQTTPacket_readPacket. unfold bind at 1.
  pose proof (net_read_stream c [hd] (e ++ body ++ rest) 0 0 (hd :: b0) ltac:(done)) as N1. cbn [app length] in N1.
  change (Z.of_nat 1) with 1 in N1. rewrite N1.
  2: { pose proof (readbuf_store_at (with_stream c (e ++ body ++ rest)) [] (x0 :: b0) [hd]) as W. apply W; [cbn; lia|done]. }
  change (negb (1 =? 1)) with false. set (c1 := set_readbuf (hd :: b0) c). cbv iota beta. unfold bind at 1. clear N1.
  destruct (decode_encode (net_read_char 50) (fun s l => s = with_stream c1 l)) with (n := n) (s := with_stream c1 (e ++ body ++ rest)) (rest := body ++ rest)
    as (s' & Ed & ->); [intros s b l ->; eexists; split; [apply net_read_char_stream|done]|lia|done|].
  unfold decodePacket at 1, bind at 1. rewrite Ed. cbn [ret snd]. fold e. unfold bind at 1.
  pose proof (readbuf_store_at (with_stream c1 (body ++ rest)) [hd] b0 e) as W1. cbn [length app] in W1. change (Z.of_nat 1) with 1 in W1.
  rewrite W1; [|lia|done]. clear W1. rewrite (proj2 (Z.ltb_lt 0 n)) by lia. unfold bind at 1.
  set (c2 := set_readbuf (hd :: e ++ drop (length e) b0) c1). change (set_readbuf _ (with_stream c1 (body ++ rest))) with (with_stream c2 (body ++ rest)).
  pose proof (net_read_stream c2 body rest (1 + Z.of_nat (length e)) 300 (hd :: e ++ body ++ drop (length body) (drop (length e) b0))) as N2.
  rewrite Hb in N2. rewrite N2.
  2: { destruct body; [cbn in Hb; lia|done]. }
  2: { pose proof (readbuf_store_at (with_stream c2 rest) (hd :: e) (drop (length e) b0) body) as W2.
       cbn [length app] in W2. rewrite Nat2Z.inj_succ, <- Z.add_1_l in W2. apply W2; [|done].
       rewrite !length_app, !length_drop. lia. }
  rewrite Z.eqb_refl. cbn [negb]. unfold bind, gets, ret. f_equal. rewrite pair_equal_spec. split; [done|].
  cbn [length]. rewrite length_app, drop_drop. cbn [app drop]. rewrite <- !app_assoc. rewrite Nat.add_comm. done.
Qed.

Lemma readPacket_stream c hd n body :
  Z.of_nat (length body) = n -> 0 < n < 2 ^ 28 ->
  (length (hd :: MQTTPacket_encode n ++ body) <= length (readbuf c))%nat ->
  MQTTPacket_readPacket (with_stream c (hd :: MQTTPacket_encode n ++ body)) =
    Ok (hdr_type hd, with_stream (set_readbuf ((hd :: MQTTPacket_encode n ++ body) ++
      drop (length (hd :: MQTTPacket_encode n ++ body)) (readbuf c)) c) []).
Proof. intros Hb Hn Hl. rewrite <- (app_nil_r body) at 1. by apply readPacket_rest. Qed.
End Receive.

(** Without wildcards, a filter matches the topic equal to it and no other. *)
Definition plain (f : bytes) : Prop := Forall (fun c => c <> 43 /\ c <> 35) f.

Lemma topic_loop_plain f n : plain f -> topic_loop f n = bool_decide (f = n).
Proof.
  intros Hf. revert n. induction Hf as [|c f [H1 H2] Hf IH]; intros [|d n]; cbn [topic_loop]; try done.
  rewrite (proj2 (Z.eqb_neq c 43)), (proj2 (Z.eqb_neq c 35)) by done. cbn [negb andb].
  destruct (Z.eqb_spec c d) as [->|Hne].
  - rewrite andb_negb_r. cbn. rewrite IH. apply bool_decide_ext. split; [by intros ->|by intros [= ->]].
  - cbn [negb]. rewrite (bool_decide_false (c :: f = d :: n)) by congruence. by case_match.
Qed.

Section Deliver.
Context {H S : Type} `{!Lens S (mqtt_client H)}.
Variable run : H -> message_data -> M S unit.

Lemma handler_matches_plain (h : handler H) f t :
  topicFilter h = Some f -> plain f -> handler_matches h t = bool_decide (f = t).
Proof.
  intros Hh Hf. unfold handler_matches, MQTTPacket_equals, isTopicMatched. rewrite Hh, topic_loop_plain by done. cbn.
  destruct (bool_decide_reflect (f = t)) as [->|Hne]; [apply orb_true_r|].
  rewrite (bool_decide_false (t = f)) by congruence. by rewrite andb_false_r.
Qed.

(** The handlers whose filters are plain and differ. *)
Definition distinct_filters (hs : list (handler H)) : Prop :=
  NoDup (omap topicFilter hs) /\ Forall plain (omap topicFilter hs).

Lemma deliver_none hs t md rc : plain t -> Forall plain (omap topicFilter hs) -> t ∉ omap topicFilter hs ->
  forall s, deliver_loop run hs t md rc s = Ok (rc, s).
Proof.
  intros Ht. induction hs as [|h hs IH]; intros Hp Hn s; [done|]. cbn [omap list_omap] in Hp, Hn. cbn [deliver_loop].
  destruct (topicFilter h) as [f|] eqn:Eh.
  - apply Forall_cons in Hp as [Hf Hp]. apply not_elem_of_cons in Hn as [Hne Hn].
    rewrite (handler_matches_plain h f), bool_decide_false by congruence. destruct (callback h); by apply IH.
  - unfold handler_matches. rewrite Eh. destruct (callback h); by apply IH.
Qed.

Lemma deliver_one hs h cb t md : distinct_filters hs -> h ∈ hs -> topicFilter h = Some t -> callback h = Some cb ->
  forall rc s, deliver_loop run hs t md rc s = (run cb md ;;; ret PAHO_SUCCESS) s.
Proof.
  intros [Hnd Hp] Hin Hh Hcb. induction hs as [|h' hs IH]; intros rc s; [by apply not_elem_of_nil in Hin|].
  cbn [omap list_omap] in Hp, Hnd. cbn [deliver_loop].
  apply elem_of_cons in Hin as [<-|Hin].
  - rewrite Hh in Hnd, Hp. apply NoDup_cons in Hnd as [Hni Hnd]. apply Forall_cons in Hp as [Hpt Hp].
    rewrite Hcb, (handler_matches_plain h t), bool_decide_true by done. unfold bind.
    destruct (run cb md s) as [[u s1]|f]; [|done]. by apply deliver_none.
  - assert (t ∈ omap topicFilter hs) as Ht by (apply list_elem_of_omap; eauto).
    destruct (topicFilter h') as [f|] eqn:Eh.
    + apply NoDup_cons in Hnd as [Hni Hnd]. apply Forall_cons in Hp as [Hf Hp].
      rewrite (handler_matches_plain h' f), bool_decide_false by congruence. destruct (callback h'); by apply IH.
    + unfold handler_matches. rewrite Eh. destruct (callback h'); by apply IH.
Qed.

(** The parts of a QoS 1 publish packet. *)
Lemma publish_parts dup retained id topic payload packet :
  MQTTSerialize_publish 1024 dup QOS1 retained id (c_str topic) payload = inr packet ->
  let n := 2 + Z.of_nat (length topic) + Z.of_nat (length payload) + 2 in
  let body := writeInt (Z.of_nat (length topic)) ++ topic ++ writeInt id ++ payload in
  packet = u8 (MQTTHeader PUBLISH dup QOS1 retained) :: MQTTPacket_encode n ++ body /\
  Z.of_nat (length body) = n /\ n < 1024 /\ (length packet <= 1024)%nat.
Proof.
  intros Hpk n body. unfold MQTTSerialize_publish, MQTTSerialize_publishLength in Hpk.
  rewrite MQTTstrlen_text, writeMQTTString_text in Hpk by (by right).
  cbn [text cstring c_str Z.ltb Z.compare QOS1] in Hpk.
  destruct (1024 <? _) eqn:El; [done|]. apply (inj inr) in Hpk.
  replace (2 + Z.of_nat (length topic) + Z.of_nat (length payload) + 2) with n in El, Hpk by done.
  rewrite <- app_assoc in Hpk. change (writeInt _ ++ topic ++ writeInt id ++ payload) with body in Hpk.
  assert (Z.of_nat (length body) = n) as Hb.
  { unfold body, n. rewrite !length_app, !writeInt_length. lia. }
  assert (n < 1024) as Hn by (unfold MQTTPacket_len in El; repeat case_match; lia).
  split; [by rewrite <- Hpk|]. split; [done|]. split; [done|].
  pose proof (packet_len_enough n ltac:(lia)). rewrite <- Hpk, !length_app. cbn [length writeChar]. lia.
Qed.

(** Receiving a publish packet: the one handler, then the acknowledgement. *)
Lemma cycle_publish (c : mqtt_client H) (s : S) (h : handler H) (cb : H)
  (dup retained id : Z) (topic payload packet : bytes) :
  view s = with_stream c packet -> length (readbuf c) = 1024%nat ->
  0 <= dup < 2 -> 0 <= retained < 2 -> 0 <= id < 65536 ->
  MQTTSerialize_publish 1024 dup QOS1 retained id (c_str topic) payload = inr packet ->
  distinct_filters (messageHandlers c) -> h ∈ messageHandlers c ->
  topicFilter h = Some topic -> callback h = Some cb ->
  exists md buf, MQTT_cycle run s =
      (run cb md ;;; client (acknowledge QOS1 id)) (over (with_stream (set_readbuf buf c) []) s) /\
    length buf = 1024%nat /\ slice buf (topicName md) = topic /\ slice buf (msg_payload (md_message md)) = payload /\
    let '(p, n) := msg_payload (md_message md) in 0 <= p /\ 0 <= n /\ p + n = Z.of_nat (length packet).
Proof.
  intros Hv Hrb Hd Hr Hi Hpk Hds Hin Hh Hcb.
  destruct (publish_parts _ _ _ _ _ _ Hpk) as (Ep & Hb & Hn & Hl).
  set (hd := u8 (MQTTHeader PUBLISH dup QOS1 retained)) in *. set (n := 2 + _ + _ + 2) in *.
  set (body := writeInt (Z.of_nat (length topic)) ++ topic ++ writeInt id ++ payload) in *.
  set (buf := packet ++ drop (length packet) (readbuf c)). set (c1 := with_stream (set_readbuf buf c) []).
  assert (MQTTPacket_readPacket (view s) = Ok (hdr_type hd, c1)) as Hread.
  { rewrite Hv, Ep. unfold c1, buf. rewrite Ep. apply readPacket_stream; [done|lia|]. rewrite <- Ep. lia. }
  destruct (header_fields PUBLISH dup QOS1 retained) as (F1 & _); [done..|]. fold hd in F1. rewrite F1 in Hread.
  assert (wp (MQTTDeserialize_publish buf) 0 (fun r _ => exists t' d,
    r = (1, PublishOut (Some (dup, QOS1, retained)) (Some id) (Some t') (Some d)) /\ slice buf t' = topic /\ slice buf d = payload /\
    0 <= d.1 /\ 0 <= d.2 /\ d.1 + d.2 = 1 + Z.of_nat (length (MQTTPacket_encode n)) + n)) as Hds'.
  { apply (deserialize_publish_at buf topic payload (drop (length packet) (readbuf c)) dup QOS1 retained id); try done; [lia|cbn; lia|].
    split; [lia|]. unfold buf. rewrite Ep. unfold body, n, hd. cbn [QOS1 Z.ltb Z.compare]. rewrite !app_comm_cons, <- !app_assoc. done. }
  apply wp_total in Hds' as (r & p' & Er & t' & d & -> & St & Sd & D1 & D2 & D3).
  exists (MessageData t' (Message QOS1 retained dup (Some id) d)), buf. split_and!; try done.
  2: { unfold buf. rewrite length_app, length_drop. lia. }
  2: { destruct d as [p n']. cbn [msg_payload md_message fst snd] in *. split_and!; [done|done|].
       rewrite D3, Ep. cbn [length]. rewrite length_app. lia. }
  unfold MQTT_cycle. unfold bind at 1, client at 1, zoom. rewrite Hread. cbn [Z.eqb Pos.eqb PUBLISH CONNACK PUBACK SUBACK UNSUBACK orb].
  unfold bind at 1, client at 1, zoom. rewrite view_over. unfold on_readbuf at 1. change (readbuf c1) with buf. rewrite Er. cbv beta iota.
  rewrite (over_over c1 c1 s).
  cbn [negb Z.eqb Pos.eqb out_flags out_topic out_payload out_packetid QOS1 QOS0].
  unfold deliverMessage. unfold bind at 1. unfold bind at 1. unfold client at 1, zoom. rewrite view_over.
  unfold get. rewrite (over_over c1 c1 s). cbn [topicName]. change (readbuf c1) with buf. change (messageHandlers c1) with (messageHandlers c). rewrite St.
  unfold bind at 1. rewrite (deliver_one _ h cb) by done. unfold bind.
  destruct (run cb _ _) as [[u s1]|f]; [|done]. done.
Qed.

(** C12. Receiving: when a QoS 1 publish that fits the read buffer arrives whole, one turn of
    the client calls the one handler whose filter is the packet's topic, with the topic and
    the payload of the packet, and then acknowledges the packet's identifier; it does
    nothing else. *)
Theorem cycle_delivers (c : mqtt_client H) (s : S) (h : handler H) (cb : H)
  (dup retained id : Z) (topic payload packet : bytes) :
  view s = with_stream c packet -> length (readbuf c) = 1024%nat ->
  0 <= dup < 2 -> 0 <= retained < 2 -> 0 <= id < 65536 ->
  MQTTSerialize_publish 1024 dup QOS1 retained id (c_str topic) payload = inr packet ->
  distinct_filters (messageHandlers c) -> h ∈ messageHandlers c ->
  topicFilter h = Some topic -> callback h = Some cb ->
  exists md buf, MQTT_cycle run s =
      (run cb md ;;; client (acknowledge QOS1 id)) (over (with_stream (set_readbuf buf c) []) s) /\
    length buf = 1024%nat /\ slice buf (topicName md) = topic /\ slice buf (msg_payload (md_message md)) = payload /\
    let '(p, n) := msg_payload (md_message md) in 0 <= p /\ 0 <= n /\ p + n = Z.of_nat (length packet).
Proof. by apply cycle_publish. Qed.
End Deliver.

(** ** Examples *)

(** A client whose state is all there is. *)
Definition lens_id {T : Type} : Lens T T :=
  {| view := fun s => s; over := fun t _ => t;
     view_over := fun _ _ => eq_refl; over_view := fun _ => eq_refl; over_over := fun _ _ _ => eq_refl |}.

Definition example_handlers : list (handler unit) :=
  [Handler (Some [100; 47; 99]) (Some tt) 1; Handler None None 0; Handler None None 0].

(** A connected client, subscribed to "d/c". *)
Definition example_client : mqtt_client unit :=
  MQTTClient [] [] [] [] (0, 9, 0) 1024 1024 (replicate 1024 0) 3 true false
    MQTTPacket_connectData_initializer example_handlers None [] no_ticks.

Lemma example_ok : client_ok example_client.
Proof. by split. Qed.

Lemma publish_sends_witness :
  wp (rc <- paho_mqtt_publish QOS1 [116] [104; 105] ;; t <- pipe_turn ;; ret (rc, t)) example_client
    (fun r c' => r = (PAHO_SUCCESS, Continue) /\ client_ok c' /\ pub_pipe c' = [] /\
      exists packet, packet_of 9 [116] [104; 105] = inr packet /\ sent c' = [packet]).
Proof.
  apply (publish_sends example_client [116] [104; 105]); [exact example_ok|reflexivity|reflexivity|].
  split; [by repeat constructor|done].
Defined.

Lemma second_publish_lost_witness :
  wp (rc1 <- paho_mqtt_publish QOS1 [116] [104; 105] ;; rc2 <- paho_mqtt_publish QOS1 [117] [104] ;;
      t <- pipe_turn ;; ret (rc1, rc2, t)) example_client
    (fun r c' => r = (PAHO_SUCCESS, PAHO_SUCCESS, Continue) /\ pub_pipe c' = [] /\
      exists packet, packet_of 9 [116] [104; 105] = inr packet /\ sent c' = [packet]).
Proof.
  apply (second_publish_lost example_client [116] [104; 105] [117] [104]); [exact example_ok|reflexivity|reflexivity| |done].
  split; [by repeat constructor|done].
Defined.

(** "on" arrives on "d/c" with identifier 5. *)
Definition example_packet : bytes := [50; 9; 0; 3; 100; 47; 99; 0; 5; 111; 110].

Lemma cycle_delivers_witness :
  let run (h : unit) (md : message_data) : M (mqtt_client unit) unit := ret tt in
  let s := with_stream example_client example_packet in
  exists md buf, MQTT_cycle (Lens0 := lens_id) run s =
      (run tt md ;;; client (Lens0 := lens_id) (acknowledge QOS1 5))
        (over (Lens := lens_id) (with_stream (set_readbuf buf example_client) []) s) /\
    length buf = 1024%nat /\ slice buf (topicName md) = [100; 47; 99] /\
    slice buf (msg_payload (md_message md)) = [111; 110] /\
    let '(p, n) := msg_payload (md_message md) in 0 <= p /\ 0 <= n /\ p + n = 11.
Proof.
  intros run s.
  apply (cycle_delivers (Lens0 := lens_id) run example_client s (Handler (Some [100; 47; 99]) (Some tt) 1) tt 0 0 5
           [100; 47; 99] [111; 110] example_packet);
    first [reflexivity|lia|by left|idtac].
  - split; [apply NoDup_singleton|repeat constructor; done].
Defined.
