(* ===== verification/ClientPipe.v ===== *)
(** * The client's pipe

    The MQTT client's model keeps its pipe as the list of bytes written to it
    ([MqttClient.pub_pipe]). Here the pipe device is shown to implement that list for one
    writer at a time: the ring holds its first bytes, and a writer that does not fit holds
    the rest until the worker has read. [PipeDevice] and its steps are those of Pipe.v. *)

From stdpp Require Import base numbers list.
From Stdlib Require Import ZArith Lia.
From S2P Require Import Prelude.
From S2P Require Import RingBuffer.
From S2P Require Import Pipe.
From S2P Require Import MqttPacket.
From S2P Require Import MqttClient.

Lemma run_app s0 ms1 s1 ms2 s2 : pipe_run s0 ms1 s1 -> pipe_run s1 ms2 s2 -> pipe_run s0 (ms1 ++ ms2) s2.
Proof.
  intros H1 H2. induction H2 as [|ms s m s' _ IH Hs]; [by rewrite app_nil_r|].
  rewrite app_assoc. by eapply run_snoc.
Qed.

Lemma run_one s m s' : pipe_step s m s' -> pipe_run s [m] s'.
Proof. intros Hs. by apply (run_snoc _ [] s); [constructor|]. Qed.

(** The threads other than [i] have returned. *)
Definition only_writer (i : nat) (ts : list writer) : Prop :=
  forall j u, j <> i -> ts !! j = Some u -> exists r, at_place u = Returned r.

(** The pipe carries [l]: all of it in the ring, or the ring is full and one suspended
    thread has the rest. *)
Inductive carries (s : pipe_state) : bytes -> Prop :=
  | carries_idle q :
      holds (device s) PIPE_BUFSZ q -> waiting s = [] ->
      (forall j u, threads s !! j = Some u -> exists r, at_place u = Returned r) -> carries s q
  | carries_blocked q i t :
      holds (device s) PIPE_BUFSZ q -> Z.of_nat (length q) = PIPE_BUFSZ -> waiting s = [i] ->
      threads s !! i = Some t -> at_place t = Suspended -> pbuf t <> [] -> Z.of_nat (length (pbuf t)) < 2 ^ 16 ->
      only_writer i (threads s) -> carries s (q ++ pbuf t).

Definition idle (s : pipe_state) : Prop := waiting s = [].

(** Moves of the threads alone. *)
Definition silent (ms : list move) : Prop := got ms = [] /\ calls ms = [].

Lemma silent_app ms1 ms2 : silent ms1 -> silent ms2 -> silent (ms1 ++ ms2).
Proof. intros [G1 C1] [G2 C2]. unfold silent, got, calls in *. by rewrite !flat_map_app, G1, G2, C1, C2. Qed.
Lemma silent_put i l : silent [Put i l].
Proof. done. Qed.

(** The threads settle: from [s], silent moves lead to a state that carries [l]. *)
Definition settles (s : pipe_state) (l : bytes) : Prop :=
  exists ms s', pipe_run s ms s' /\ silent ms /\ carries s' l.

Lemma settles_step s m s' l : pipe_step s m s' -> silent [m] -> settles s' l -> settles s l.
Proof.
  intros Hs Hm (ms & s2 & Hr & Hms & Hc). exists ([m] ++ ms), s2.
  split; [eapply run_app; [by apply run_one|done]|]. split; [by apply silent_app|done].
Qed.

Lemma alter_insert {A} (f : A -> A) (l : list A) i x : l !! i = Some x -> alter f i l = <[i := f x]> l.
Proof.
  revert i. induction l as [|y l IH]; intros i E; [done|]. destruct i as [|i]; [by injection E as ->|].
  change (y :: alter f i l = y :: <[i := f x]> l). by rewrite IH.
Qed.

Section Settling.
Variables (i : nat).
Implicit Types (p : rt_pipe_device) (ts : list writer).

Lemma only_insert ts t : only_writer i ts -> only_writer i (<[i := t]> ts).
Proof. intros H j u Hj Eu. rewrite list_lookup_insert_ne in Eu by done. by apply (H j). Qed.

(** One turn of the writer [i]. *)
Lemma turn_step p ts t t' p' :
  ts !! i = Some t -> runnable t = true -> writer_turn t p = Ok (t', p') ->
  exists l, pipe_step (PipeState p ts []) (Put i l)
    (PipeState p' (<[i := t']> ts) (match at_place t' with Suspended => [i] | _ => [] end)).
Proof. intros Et Hr E. eexists. exact (step_write p ts [] i t t' p' Et Hr E). Qed.

(** What is left of a turn of the loop: all is in the ring, or the ring is full. *)
Lemma loop_turn p ts q t :
  holds p PIPE_BUFSZ q -> ts !! i = Some t -> at_place t = Looping -> pbuf t <> [] ->
  Z.of_nat (length (pbuf t)) < 2 ^ 16 -> only_writer i ts ->
  exists l q' t' p', pipe_step (PipeState p ts []) (Put i l) (PipeState p' (<[i := t']> ts) []) /\
    holds p' PIPE_BUFSZ q' /\ writer_flag p' = writer_flag p /\ q ++ pbuf t = q' ++ pbuf t' /\
    ((exists r, at_place t' = Returned r /\ pbuf t' = []) \/
     (at_place t' = AboutToWait /\ pbuf t' <> [] /\ Z.of_nat (length (pbuf t')) < 2 ^ 16 /\ Z.of_nat (length q') = PIPE_BUFSZ)).
Proof.
  intros Hh Et Ep Hne Hl Ho. pose proof (holds_cap _ _ _ Hh) as (B & _).
  destruct (wp_total _ _ _ (write_turn_spec p PIPE_BUFSZ q t Hh Hne Hl)) as (t' & p' & E & Hh' & Hf & Hb & _ & Hpl).
  set (k := Z.to_nat _) in *. destruct (turn_step p ts t t' p' Et) as [l Hs].
  { unfold runnable. by rewrite Ep. }
  { unfold writer_turn. by rewrite Ep. }
  assert (match at_place t' with Suspended => [i] | _ => [] end = []) as Ew by (rewrite Hpl; by case_bool_decide).
  rewrite Ew in Hs. exists l, (q ++ take k (pbuf t)), t', p'. split; [done|]. split; [done|]. split; [done|].
  split; [by rewrite Hb, <- app_assoc, take_drop|]. case_bool_decide as Hx; [left; by exists (w_ret t')|right].
  split; [done|]. split; [done|]. rewrite Hb, length_drop in *. split; [lia|].
  rewrite length_app, length_take. assert (k < length (pbuf t))%nat; [|lia].
  destruct (decide (k < length (pbuf t))%nat); [done|]. by rewrite drop_ge in Hx by lia.
Qed.

Lemma returned_everywhere ts t r : ts !! i = Some t -> only_writer i ts -> forall t', at_place t' = Returned r ->
  forall j u, <[i := t']> ts !! j = Some u -> exists r, at_place u = Returned r.
Proof.
  intros Et Ho t' Er j u Eu. apply list_lookup_insert_Some in Eu as [(<- & <- & _)|(Hj & Eu)]; [by exists r|by eapply Ho].
Qed.

Lemma settle_flag_clear p ts q t :
  holds p PIPE_BUFSZ q -> writer_flag p = false -> ts !! i = Some t -> at_place t = Looping -> pbuf t <> [] ->
  Z.of_nat (length (pbuf t)) < 2 ^ 16 -> only_writer i ts -> settles (PipeState p ts []) (q ++ pbuf t).
Proof.
  intros Hh Hf Et Ep Hne Hl Ho.
  destruct (loop_turn p ts q t Hh Et Ep Hne Hl Ho) as (l & q' & t' & p' & Hs & Hh' & Hf' & -> & [(r & Er & Hb)|(Ea & Hne' & Hl' & Hq')]).
  - eapply settles_step; [done|done|]. exists [], (PipeState p' (<[i := t']> ts) []). split; [constructor|]. split; [done|].
    rewrite Hb, app_nil_r. apply carries_idle; [done|done|]. by eapply returned_everywhere.
  - eapply settles_step; [done|done|]. assert (i < length ts)%nat as Hi by (by eapply lookup_lt_Some).
    destruct (turn_step p' (<[i := t']> ts) t' (move_to Suspended t') p') as [l2 Hs2].
    + by apply list_lookup_insert_eq.
    + unfold runnable. by rewrite Ea.
    + unfold writer_turn, wait_turn, bind, gets. rewrite Ea, Hf', Hf. done.
    + cbn [at_place move_to] in Hs2. eapply settles_step; [done|done|].
      exists [], (PipeState p' (<[i := move_to Suspended t']> (<[i := t']> ts)) [i]). split; [constructor|]. split; [done|].
      apply (carries_blocked _ q' i (move_to Suspended t')); try done.
      * apply list_lookup_insert_eq. by rewrite length_insert.
      * by do 2 apply only_insert.
Qed.

(** A flag left by an earlier read costs one more turn. *)
Lemma settle p ts q t :
  holds p PIPE_BUFSZ q -> ts !! i = Some t -> at_place t = Looping -> pbuf t <> [] ->
  Z.of_nat (length (pbuf t)) < 2 ^ 16 -> only_writer i ts -> settles (PipeState p ts []) (q ++ pbuf t).
Proof.
  intros Hh Et Ep Hne Hl Ho. destruct (writer_flag p) eqn:Hf; [|by apply settle_flag_clear].
  destruct (loop_turn p ts q t Hh Et Ep Hne Hl Ho) as (l & q' & t' & p' & Hs & Hh' & Hf' & -> & [(r & Er & Hb)|(Ea & Hne' & Hl' & Hq')]).
  - eapply settles_step; [done|done|]. exists [], (PipeState p' (<[i := t']> ts) []). split; [constructor|]. split; [done|].
    rewrite Hb, app_nil_r. apply carries_idle; [done|done|]. by eapply returned_everywhere.
  - eapply settles_step; [done|done|]. assert (i < length ts)%nat as Hi by (by eapply lookup_lt_Some).
    destruct (turn_step p' (<[i := t']> ts) t' (move_to Looping t') (set_flag false p')) as [l2 Hs2].
    + by apply list_lookup_insert_eq.
    + unfold runnable. by rewrite Ea.
    + unfold writer_turn, wait_turn, bind, gets. rewrite Ea, Hf', Hf. done.
    + cbn [at_place move_to] in Hs2. eapply settles_step; [done|done|].
      apply (settle_flag_clear (set_flag false p') _ q' (move_to Looping t')); try done.
      * by apply set_flag_holds.
      * apply list_lookup_insert_eq. by rewrite length_insert.
      * by do 2 apply only_insert.
Qed.
End Settling.

Section Refinement.
Context {H : Type}.
Implicit Types c : mqtt_client H.

(** C29. The client's pipe: while the device carries the bytes of [pub_pipe], a [write] by a
    thread that finds no other one waiting, and a [read] of any size, do on the device what
    [MQTT_local_send] and [pipe_read] do on the list: the reader gets the same bytes, and
    the threads' turns that follow lead to a device that carries the new list, with a writer
    that does not fit suspended until the next read. *)
Theorem client_pipe_refined c s :
  carries s (pub_pipe c) ->
  (idle s -> forall data, data <> [] -> Z.of_nat (length data) < 2 ^ 16 ->
   wp (MQTT_local_send data) c (fun len c' => len = Z.of_nat (length data) /\
     exists s1, pipe_step s (Called data) s1 /\ settles s1 (pub_pipe c'))) /\
  (forall n, 0 <= n < 2 ^ 16 ->
   wp (MqttClient.pipe_read n) c (fun d c' => exists s1, pipe_step s (Got d) s1 /\ settles s1 (pub_pipe c'))).
Proof.
  intros Hc. destruct s as [p ts w]. split.
  - intros Hi data Hne Hl. unfold MQTT_local_send. wp_steps. split; [done|]. cbn [pub_pipe set_pipe].
    remember (pub_pipe c) as l. unfold idle in Hi. destruct Hc as [q Hh Hw Ht|]; cbn [device threads waiting] in *; [|by subst].
    subst w. exists (PipeState p (ts ++ [Writer data 0 Looping]) []). split.
    + apply step_call; [done|]. unfold pipe_fops_write, bind, gets, ret. rewrite (proj2 (Z.eqb_neq _ _)) by apply Hh.
      by rewrite bool_decide_false.
    + apply (settle (length ts) p _ q (Writer data 0 Looping)); try done.
      * by rewrite lookup_app_r, Nat.sub_diag by lia.
      * intros j u Hj Eu. apply lookup_app_Some in Eu as [Eu|[Hge Eu]]; [by eapply Ht|].
        destruct (j - length ts)%nat as [|k] eqn:Ej; [lia|done].
  - intros n Hn. unfold MqttClient.pipe_read. wp_steps. cbn [pub_pipe set_pipe].
    assert (forall q, holds p PIPE_BUFSZ q -> exists p', read_turn n p = Ok (take (Z.to_nat (Z.min PIPE_BUFSZ n)) q, p') /\
      holds p' PIPE_BUFSZ (drop (Z.to_nat (Z.min PIPE_BUFSZ n)) q)) as Hread.
    { intros q Hh. pose proof (holds_cap _ _ _ Hh) as (B & _).
      destruct (wp_total _ _ _ (read_turn_spec p PIPE_BUFSZ q n Hh Hn)) as (d & p' & E & -> & Hh' & _).
      exists p'. destruct (Z.le_gt_cases n (Z.of_nat (length q))).
      - rewrite Z.min_l in E, Hh' by lia. by rewrite Z.min_r by lia.
      - rewrite Z.min_r, Nat2Z.id, firstn_all in E by lia. rewrite Z.min_r, Nat2Z.id, drop_all in Hh' by lia.
        by rewrite take_ge, drop_ge by lia. }
    set (k := Z.to_nat (Z.min PIPE_BUFSZ n)) in *. remember (pub_pipe c) as l.
    destruct Hc as [q Hh Hw Ht|q i t Hh Hq Hw Et Ep Hne Hl Ho]; cbn [device threads waiting] in *; subst w.
    + destruct (Hread q Hh) as (p' & E & Hh'). exists (PipeState p' ts []). split; [by apply (step_read p ts [] n)|].
      exists [], (PipeState p' ts []). split; [constructor|]. split; [done|]. by apply carries_idle.
    + destruct (Hread q Hh) as (p' & E & Hh'). assert (k <= length q)%nat as Hk by (unfold k; lia).
      rewrite take_app_le, drop_app_le by done. set (t1 := move_to Resumed t).
      exists (PipeState p' (alter (move_to Resumed) i ts) []). split; [by apply (step_read p ts [i] n)|].
      rewrite (alter_insert _ _ _ _ Et). fold t1. assert (i < length ts)%nat as Hi by (by eapply lookup_lt_Some).
      destruct (turn_step i p' (<[i := t1]> ts) t1 (move_to Looping t) (set_flag false p')) as [l2 Hs2]; [by apply list_lookup_insert_eq|done|done|].
      eapply settles_step; [exact Hs2|done|]. cbn [at_place move_to].
      apply (settle i (set_flag false p') _ (drop k q) (move_to Looping t)); try done.
      * by apply set_flag_holds.
      * apply list_lookup_insert_eq. by rewrite length_insert.
      * by do 2 apply only_insert.
Qed.
End Refinement.

(** An idle pipe, and a client that has written nothing. *)
Definition idle_pipe : pipe_state :=
  PipeState (PipeDevice (Some (RingBuffer (replicate 512 0) false 0 false 0 512)) 512 1 1 2 false) [] [].

Lemma idle_pipe_carries : carries idle_pipe [].
Proof.
  apply carries_idle; [|done|done]. split; [|done]. exists (RingBuffer (replicate 512 0) false 0 false 0 512).
  split; [done|]. split; [|done]. by apply repr_straight with (a := []) (c := replicate 512 0).
Qed.

Lemma client_pipe_refined_witness :
  wp (MQTT_local_send (replicate 600 7)) example_client (fun len c' => len = 600 /\ exists s1, pipe_step idle_pipe (Called (replicate 600 7)) s1 /\ settles s1 (pub_pipe c')) /\
  wp (MqttClient.pipe_read 1024) example_client (fun d c' => exists s1, pipe_step idle_pipe (Got d) s1 /\ settles s1 (pub_pipe c')).
Proof.
  destruct (client_pipe_refined example_client idle_pipe idle_pipe_carries) as [Hw Hr]. split.
  - apply (Hw eq_refl (replicate 600 7)); [done|cbn; lia].
  - apply (Hr 1024). lia.
Defined.
