(* ===== verification/MqttApp.v ===== *)
(** * MQTT application

    Models [packages/pahomqtt-v1.1.0/samples/mqtt_sample.c]: the messages the controller
    publishes, the callbacks of its three subscriptions, and starting and stopping the
    client. It runs on any state with the actuators of [Actuators.v] and a part [mqtt] of its
    own, which holds the client and the module's static variables. Three facts about memory
    that the code depends on are parts of the state: the string that lies at address 0 (the
    code measures and copies the string at NULL), the bytes that follow each send buffer (the
    buffers are not NUL-terminated), and the blocks a failed allocation leaves behind. *)

From stdpp Require Import base numbers list strings.
From Stdlib Require Import ZArith Lia.
From S2P Require Import Prelude CFloat Json DataUpload Actuators MqttPacket MqttClient.

Open Scope Z_scope.

(** ** Topics and names (my_mqtt.h) *)

Definition MQTT_USERNAME : bytes := str "admin".
Definition MQTT_PASSWORD : bytes := str "admin".
Definition MQTT_PUBTOPIC : bytes := str "sys/info".
Definition MQTT_WILLMSG : bytes := str "Goodbye!".
Definition MQTT_SYNC_PUBTOPIC : bytes := str "sync/request".
Definition MQTT_SYNC_SUBTOPIC : bytes := str "sync/response".
Definition MQTT_SENSOR_PUBTOPIC : bytes := str "sensor/data".
Definition MQTT_DEVICE_STATUS_PUBTOPIC : bytes := str "device/status".
Definition MQTT_DEVICE_SUBTOPIC : bytes := str "device/control".
Definition MQTT_DEVICE_PUBTOPIC : bytes := str "device/control/response".
Definition MQTT_THRESHOLD_SUBTOPIC : bytes := str "threshold/set".
Definition MQTT_THRESHOLD_PUBTOPIC : bytes := str "threshold/set/response".
Definition MQTT_ALARM_PUBTOPIC : bytes := str "alarm/record".

(** The functions registered with the client. *)
Inductive mqtt_cb : Set :=
  | mqtt_sub_default_callback_h
  | mqtt_sync_callback_h
  | mqtt_dev_control_callback_h
  | mqtt_thresholds_callback_h.

(** The block [UUID] points to. *)
Inductive uuid_cell : Set :=
  | UUID_null
  | UUID_live (s : bytes)
  | UUID_freed.

Record mqtt : Type := Mqtt {
  m_client : mqtt_client mqtt_cb;
  is_started : bool;
  UUID : uuid_cell;
  at_null : bytes;             (* the string at address 0 *)
  tails : list bytes;          (* what follows the next send buffers, up to a NUL *)
  leaked : Z                   (* blocks lost on error paths *)
}.

#[export, refine] Instance mqtt_client_lens : Lens mqtt (mqtt_client mqtt_cb) :=
  {| view := m_client;
     over := fun c m => Mqtt c (is_started m) (UUID m) (at_null m) (tails m) (leaked m) |}.
Proof. all: intros; try destruct s; reflexivity. Defined.

Definition set_started (b : bool) (m : mqtt) : mqtt :=
  Mqtt (m_client m) b (UUID m) (at_null m) (tails m) (leaked m).
Definition set_UUID (u : uuid_cell) (m : mqtt) : mqtt :=
  Mqtt (m_client m) (is_started m) u (at_null m) (tails m) (leaked m).
Definition set_tails (t : list bytes) (m : mqtt) : mqtt :=
  Mqtt (m_client m) (is_started m) (UUID m) (at_null m) t (leaked m).
Definition add_leaked (n : Z) (m : mqtt) : mqtt :=
  Mqtt (m_client m) (is_started m) (UUID m) (at_null m) (tails m) (leaked m + n).

Definition on_client {A : Type} (m : M (mqtt_client mqtt_cb) A) : M mqtt A := zoom m.

(** ** Memory *)

Definition rt_malloc_ok : M mqtt bool := on_client malloc_ok.

(** [strftime(timestamp, strlen(timestamp), ...)] with [timestamp] NULL: it may store as
    many bytes as the string at address 0 is long. *)
Definition format_timestamp : M mqtt (option bytes) :=
  n <- gets at_null ;;
  if bool_decide (n = []) then ret None else raise NullAccess.

(** The end of every builder: print the tree into a buffer of exactly its length. A failed
    allocation returns without releasing the tree and the text. *)
Definition render (root : json) : M mqtt (rt_err_t * option bytes) :=
  match cJSON_PrintUnformatted root with
  | None => ret (- RT_ENOMEM, None)
  | Some msg_str =>
      ok <- rt_malloc_ok ;;
      if negb ok then modify (add_leaked 2) ;;; ret (- RT_ENOMEM, None)
      else ret (RT_EOK, Some msg_str)
  end.

(** [strdup] of a string that may be NULL. *)
Definition strdup (s : option bytes) : M mqtt uuid_cell :=
  n <- gets at_null ;;
  ok <- rt_malloc_ok ;;
  ret (if negb ok then UUID_null else UUID_live (match s with Some s => s | None => n end)).

(** [UUID] passed as a string. *)
Definition read_UUID : M mqtt (option bytes) :=
  u <- gets UUID ;;
  match u with
  | UUID_null => ret None
  | UUID_live s => ret (Some s)
  | UUID_freed => raise UseAfterFree
  end.

(** [if(UUID) rt_free(UUID)]: the variable keeps the address. *)
Definition free_UUID : M mqtt unit :=
  u <- gets UUID ;;
  match u with
  | UUID_null => ret tt
  | UUID_live _ => modify (set_UUID UUID_freed)
  | UUID_freed => raise DoubleFree
  end.

(** ** Publishing *)

(** The client takes the length of the message with [rt_strlen]: it reads on past the buffer
    up to the next NUL. *)
Definition mqtt_publish (topic msg : bytes) : M mqtt Z :=
  t <- gets tails ;;
  let '(tail, rest) := match t with [] => ([], []) | x :: l => (x, l) end in
  modify (set_tails rest) ;;;
  on_client (paho_mqtt_publish QOS1 topic (msg ++ tail)).

(** What the [Publish_] functions do with the buffer of a builder. *)
Definition publish_built (build : M mqtt (rt_err_t * option bytes)) (topic : bytes) : M mqtt rt_err_t :=
  r <- build ;;
  match r with
  | (result, Some send_buffer) => if result <? 0 then ret result else mqtt_publish topic send_buffer
  | (result, None) => if result <? 0 then ret result else raise NullAccess
  end.

Definition mqtt_get_sync_datas : M mqtt (rt_err_t * option bytes) :=
  timestamp <- format_timestamp ;;
  let root := JObject [] in
  let root := cJSON_AddStringToObject root (str "type") (Some (str "all")) in
  let root := cJSON_AddStringToObject root (str "timestamp") timestamp in
  render root.
Definition Publish_Sync_Request : M mqtt rt_err_t := publish_built mqtt_get_sync_datas MQTT_SYNC_PUBTOPIC.

Definition mqtt_get_environment_datas (envi_data : Environment_t) : M mqtt (rt_err_t * option bytes) :=
  timestamp <- format_timestamp ;;
  let root := JObject [] in
  let root := cJSON_AddNumberToObject root (str "temperature") (temp envi_data) in
  let root := cJSON_AddNumberToObject root (str "humidity") (humi envi_data) in
  let root := cJSON_AddNumberToObject root (str "light") (light envi_data) in
  let root := cJSON_AddNumberToObject root (str "smoke") (smoke envi_data) in
  let root := cJSON_AddStringToObject root (str "timestamp") timestamp in
  render root.
Definition Publish_Environment_Data (envi_data : Environment_t) : M mqtt rt_err_t :=
  publish_built (mqtt_get_environment_datas envi_data) MQTT_SENSOR_PUBTOPIC.

Definition mqtt_get_device_status (dev_data : Devices_t) : M mqtt (rt_err_t * option bytes) :=
  timestamp <- format_timestamp ;;
  let root := JObject [] in
  let root := cJSON_AddNumberToObject root (str "warningLight") (b2z (LED0_State dev_data)) in
  let root := cJSON_AddNumberToObject root (str "fillLight") (b2z (LED1_State dev_data)) in
  let root := cJSON_AddNumberToObject root (str "exhaustFan") (b2z (Relay_State dev_data)) in
  let root := cJSON_AddNumberToObject root (str "alarm") (b2z (Beep_State dev_data)) in
  let root := cJSON_AddNumberToObject root (str "emergencyDoor") (b2z (Door_State dev_data)) in
  let root := cJSON_AddNumberToObject root (str "dht11Status") (b2z (DHT11_Sensor_State dev_data)) in
  let root := cJSON_AddNumberToObject root (str "lightSensorStatus") (b2z (Light_Sensor_State dev_data)) in
  let root := cJSON_AddStringToObject root (str "timestamp") timestamp in
  render root.
Definition Publish_Device_Status (dev_data : Devices_t) : M mqtt rt_err_t :=
  publish_built (mqtt_get_device_status dev_data) MQTT_DEVICE_STATUS_PUBTOPIC.

Definition mqtt_get_dev_response : M mqtt (rt_err_t * option bytes) :=
  timestamp <- format_timestamp ;;
  let root := JObject [] in
  id <- read_UUID ;;
  let root := cJSON_AddStringToObject root (str "commandId") id in
  let root := cJSON_AddBoolToObject root (str "success") true in
  let root := cJSON_AddStringToObject root (str "message") (Some (str "执行成功")) in
  let root := cJSON_AddStringToObject root (str "timestamp") timestamp in
  render root.
Definition Publish_Device_Response : M mqtt rt_err_t :=
  result <- publish_built mqtt_get_dev_response MQTT_DEVICE_PUBTOPIC ;;
  free_UUID ;;;
  ret result.

Definition mqtt_get_thresholds_response : M mqtt (rt_err_t * option bytes) :=
  timestamp <- format_timestamp ;;
  let root := JObject [] in
  id <- read_UUID ;;
  let root := cJSON_AddStringToObject root (str "commandId") id in
  let root := cJSON_AddBoolToObject root (str "success") true in
  let root := cJSON_AddStringToObject root (str "message") (Some (str "设置成功")) in
  let root := cJSON_AddStringToObject root (str "timestamp") timestamp in
  render root.
Definition Publish_Thresholds_Response : M mqtt rt_err_t :=
  result <- publish_built mqtt_get_thresholds_response MQTT_THRESHOLD_PUBTOPIC ;;
  free_UUID ;;;
  ret result.

(** The parameters are [uint8_t] and [int]. *)
Definition mqtt_get_alarm_info (alarm_type environment_data thresholds_data : Z) : M mqtt (rt_err_t * option bytes) :=
  timestamp <- format_timestamp ;;
  let root := JObject [] in
  let root := cJSON_AddNumberToObject root (str "alarmType") (u8 alarm_type) in
  let root := cJSON_AddNumberToObject root (str "actualValue") (i32 environment_data) in
  let root := cJSON_AddNumberToObject root (str "thresholdValue") (i32 thresholds_data) in
  let root := cJSON_AddStringToObject root (str "timestamp") timestamp in
  render root.
Definition Publish_Alarm_Info (alarm_type environment_data thresholds_data : Z) : M mqtt rt_err_t :=
  publish_built (mqtt_get_alarm_info alarm_type environment_data thresholds_data) MQTT_ALARM_PUBTOPIC.

(** ** Starting, stopping, subscribing *)

Definition mqtt_subscribe (topic : bytes) (cb : mqtt_cb) : M mqtt Z :=
  m <- get ;;
  if negb (is_started m) then ret (-1)
  else on_client (paho_mqtt_subscribe QOS1 topic (Some cb)).

(** [argc] counts the command too; [topic] is its first argument. *)
Definition mqtt_unsubscribe (argc : Z) (topic : bytes) : M mqtt Z :=
  if negb (argc =? 2) then ret (-1)
  else
    m <- get ;;
    if negb (is_started m) then ret (-1) else on_client (paho_mqtt_unsubscribe topic).

Definition mqtt_sub_init : M mqtt unit :=
  mqtt_subscribe MQTT_SYNC_SUBTOPIC mqtt_sync_callback_h ;;;
  mqtt_subscribe MQTT_DEVICE_SUBTOPIC mqtt_dev_control_callback_h ;;;
  mqtt_subscribe MQTT_THRESHOLD_SUBTOPIC mqtt_thresholds_callback_h ;;;
  ret tt.

Definition mqtt_online_callback : M mqtt unit :=
  mqtt_sub_init ;;;
  Publish_Sync_Request ;;;
  ret tt.

(** The connection parameters; the client identifier ends in the tick counter and is cut to
    the 20 bytes of its buffer. *)
Definition start_condata (tick : Z) : MQTTPacket_connectData :=
  let d := MQTTPacket_connectData_initializer in
  ConnectData (MQTTVersion d) (c_str (take 19 (str "rtthread" ++ sprintf_d (i32 tick)))) 30 1 1
    (WillOptions (c_str MQTT_PUBTOPIC) (c_str MQTT_WILLMSG) 0 1)
    (c_str MQTT_USERNAME) (c_str MQTT_PASSWORD).

(** The buffers are allocated anew at every start. The second result says whether there is
    a worker thread; the code does not look at what [paho_mqtt_start] returns. *)
Definition mqtt_start (tick : Z) : M mqtt (Z * bool) :=
  m <- get ;;
  if is_started m then ret (-1, false)
  else
    buf <- rt_malloc_ok ;;
    rbuf <- rt_malloc_ok ;;
    let c := m_client m in
    on_client (modify (fun c' =>
      MQTTClient (sock_recv c) (sock_send c) (sent c) (mallocs c') (stack_junk c) 1024 1024
        (if rbuf then replicate 1024 0 else []) (next_packetid c) false (isblocking c) (start_condata tick)
        (messageHandlers c) (defaultMessageHandler c) (pub_pipe c) (env c))) ;;;
    if negb (buf && rbuf) then ret (-1, false)
    else
      on_client (modify (fun c =>
        MQTTClient (sock_recv c) (sock_send c) (sent c) (mallocs c) (stack_junk c) (buf_size c) (readbuf_size c)
          (readbuf c) (next_packetid c) (isconnected c) (isblocking c) (condata c)
          (messageHandlers c) (Some mqtt_sub_default_callback_h) (pub_pipe c) (env c))) ;;;
      r <- on_client paho_mqtt_start ;;
      modify (set_started true) ;;;
      ret (0, r.2).

Definition mqtt_stop : M mqtt Z :=
  modify (set_started false) ;;;
  on_client paho_mqtt_stop.

(** ** Callbacks *)

Section Callbacks.
Context {S : Type} `{!Actuators S, !Lens S mqtt}.

Definition in_mqtt {A : Type} (m : M mqtt A) : M S A := zoom m.
Definition shared {A : Type} (m : M props A) : M S A := zoom m.

(** The message's payload, terminated in place, as a C string. *)
Definition payload_string (msg_data : message_data) : M S bytes :=
  let '(p, len) := msg_payload (md_message msg_data) in
  in_mqtt (on_client (readbuf_store (p + len) [0])) ;;;
  b <- in_mqtt (on_client (gets readbuf)) ;;
  match c_string_at (drop (Z.to_nat p) b) with
  | Some s => ret s
  | None => raise OutOfBounds
  end.

(** [node = cJSON_GetObjectItem(root, name); if (node) ...]. *)
Definition with_item (root : option json) (name : bytes) (k : json -> M S unit) : M S unit :=
  match cJSON_GetObjectItem root name with
  | Some node => k node
  | None => ret tt
  end.

(** A setter called with [node->valueint]. *)
Definition set_int (set : Z -> M props unit) (node : json) : M S unit :=
  match valueint node with
  | Some v => shared (set v)
  | None => raise BadConversion
  end.

Definition mqtt_sync_callback (msg_data : message_data) : M S unit :=
  text <- payload_string msg_data ;;
  let root := cJSON_Parse text in
  let threshold := cJSON_GetObjectItem root (str "threshold") in
  let device := cJSON_GetObjectItem root (str "device") in
  (match threshold with
   | Some _ =>
       with_item threshold (str "temperature") (set_int Set_Devpro_Temp_Limit) ;;;
       with_item threshold (str "humidity") (set_int Set_Devpro_Humi_Limit) ;;;
       with_item threshold (str "lightUpper") (set_int Set_Devpro_Light_Up_Limit) ;;;
       with_item threshold (str "lightLower") (set_int Set_Devpro_Light_Down_Limit)
   | None => ret tt
   end) ;;;
  match device with
  | Some _ =>
      with_item device (str "warningLight") (fun node => shared (Set_Devpro_LED0State (is_true node))) ;;;
      with_item device (str "fillLight") (fun node => act_light (is_true node)) ;;;
      with_item device (str "exhaustFan") (fun node => act_relay (is_true node)) ;;;
      with_item device (str "alarm") (fun node => act_beep (is_true node)) ;;;
      with_item device (str "emergencyDoor") (fun node => act_door (is_true node) 90) ;;;
      with_item device (str "dht11Status") (fun node => shared (Set_Devpro_DHT11_Sensor_State (is_true node))) ;;;
      with_item device (str "lightSensorStatus") (fun node => shared (Set_Devpro_Light_Sensor_State (is_true node)))
  | None => ret tt
  end.

(** [UUID = strdup(node->valuestring)]. *)
Definition keep_UUID (node : json) : M S unit :=
  in_mqtt (u <- strdup (valuestring node) ;; modify (set_UUID u)).

Definition mqtt_dev_control_callback (msg_data : message_data) : M S unit :=
  text <- payload_string msg_data ;;
  let root := cJSON_Parse text in
  (match root with
   | Some _ =>
       with_item root (str "commandId") keep_UUID ;;;
       with_item root (str "warningLight") (fun node => shared (Set_Devpro_LED0State (is_true node))) ;;;
       with_item root (str "fillLight") (fun node => act_light (is_true node)) ;;;
       with_item root (str "exhaustFan") (fun node => act_relay (is_true node)) ;;;
       with_item root (str "alarm") (fun node => act_beep (is_true node)) ;;;
       with_item root (str "emergencyDoor") (fun node => act_door (is_true node) 90)
   | None => ret tt
   end) ;;;
  in_mqtt Publish_Device_Response ;;;
  ret tt.

Definition mqtt_thresholds_callback (msg_data : message_data) : M S unit :=
  text <- payload_string msg_data ;;
  let root := cJSON_Parse text in
  (match root with
   | Some _ =>
       with_item root (str "commandId") keep_UUID ;;;
       with_item root (str "temperature") (set_int Set_Devpro_Temp_Limit) ;;;
       with_item root (str "humidity") (set_int Set_Devpro_Humi_Limit) ;;;
       with_item root (str "lightUpper") (set_int Set_Devpro_Light_Up_Limit) ;;;
       with_item root (str "lightLower") (set_int Set_Devpro_Light_Down_Limit)
   | None => ret tt
   end) ;;;
  in_mqtt Publish_Thresholds_Response ;;;
  ret tt.

Definition mqtt_sub_default_callback (msg_data : message_data) : M S unit :=
  payload_string msg_data ;;; ret tt.

(** The function a handler of the client is. *)
Definition run_cb (h : mqtt_cb) (msg_data : message_data) : M S unit :=
  match h with
  | mqtt_sub_default_callback_h => mqtt_sub_default_callback msg_data
  | mqtt_sync_callback_h => mqtt_sync_callback msg_data
  | mqtt_dev_control_callback_h => mqtt_dev_control_callback msg_data
  | mqtt_thresholds_callback_h => mqtt_thresholds_callback msg_data
  end.
End Callbacks.

(** ** Published documents *)

Definition num (n : Z) : json := JNumber (of_Z binary64 n).

Definition sync_doc : json := JObject [(str "type", JString (str "all"))].
Definition environment_doc (e : Environment_t) : json :=
  JObject [(str "temperature", num (temp e)); (str "humidity", num (humi e));
           (str "light", num (light e)); (str "smoke", num (smoke e))].
Definition status_doc (d : Devices_t) : json :=
  JObject [(str "warningLight", num (b2z (LED0_State d))); (str "fillLight", num (b2z (LED1_State d)));
           (str "exhaustFan", num (b2z (Relay_State d))); (str "alarm", num (b2z (Beep_State d)));
           (str "emergencyDoor", num (b2z (Door_State d)));
           (str "dht11Status", num (b2z (DHT11_Sensor_State d)));
           (str "lightSensorStatus", num (b2z (Light_Sensor_State d)))].
Definition alarm_doc (type actual threshold : Z) : json :=
  JObject [(str "alarmType", num type); (str "actualValue", num actual); (str "thresholdValue", num threshold)].
Definition response_doc (id : option bytes) (text : bytes) : json :=
  JObject (match id with Some s => [(str "commandId", JString s)] | None => [] end ++
           [(str "success", JTrue); (str "message", JString text)]).

(** The state on which publishing works: the client is connected, allocations succeed, and
    the byte at address 0 is NUL. *)
Record mqtt_ok (m : mqtt) : Prop := {
  ok_client : client_ok (m_client m);
  ok_null : at_null m = []
}.

(** [m'] is [m] after [doc] went into the pipe under [topic]. *)
Definition announced (topic : bytes) (doc : json) (m m' : mqtt) : Prop :=
  exists text l, cJSON_PrintUnformatted doc = Some text /\ Forall (fun b => b = true) l /\
    m' = Mqtt (set_pipe (pub_pipe (m_client m) ++
                         frame (stack_junk (m_client m)) topic (text ++ hd [] (tails m)))
                (set_mallocs l (m_client m)))
           (is_started m) (UUID m) (at_null m) (tl (tails m)) (leaked m).

Section AppFacts.
Implicit Types m : mqtt.

(** A step that only consumes allocations. *)
Definition alloc_step m m' : Prop :=
  exists l, Forall (fun b => b = true) l /\ m' = over (set_mallocs l (m_client m)) m.

Lemma alloc_step_refl m : mqtt_ok m -> alloc_step m m.
Proof. intros [[]]. exists (mallocs (m_client m)). split; [done|]. by destruct m as [[] ? ? ? ? ?]. Qed.

Lemma malloc_spec m : mqtt_ok m -> wp rt_malloc_ok m (fun b m' => b = true /\ alloc_step m m').
Proof.
  intros Hm. unfold rt_malloc_ok, on_client. apply wp_zoom. unfold malloc_ok. wp_steps.
  pose proof (ok_mallocs _ (ok_client _ Hm)) as Hall. cbn [view mqtt_client_lens].
  destruct (mallocs (m_client m)) as [|b l] eqn:E; wp_steps.
  - split; [done|]. replace (over (m_client m) m) with m by (by destruct m). by apply alloc_step_refl.
  - apply Forall_cons in Hall as [-> Hl]. split; [done|]. by exists l.
Qed.

Lemma alloc_step_ok m m' : mqtt_ok m -> alloc_step m m' -> mqtt_ok m'.
Proof. intros [[] Hn] (l & Hl & ->). split; [|done]. by split. Qed.

Lemma timestamp_spec m : mqtt_ok m -> wp format_timestamp m (fun t m' => t = None /\ m' = m).
Proof. intros [_ Hn]. unfold format_timestamp. wp_steps. rewrite Hn, bool_decide_true by done. by wp_steps. Qed.

Lemma render_spec m doc :
  mqtt_ok m -> is_Some (cJSON_PrintUnformatted doc) ->
  wp (render doc) m (fun r m' => alloc_step m m' /\
    exists text, cJSON_PrintUnformatted doc = Some text /\ r = (RT_EOK, Some text)).
Proof.
  intros Hm [text Ht]. unfold render. rewrite Ht. wp_steps.
  eapply wp_mono; [by apply malloc_spec|]. cbn beta. intros b m' [-> Hs]. cbn [negb]. wp_steps. eauto.
Qed.

(** A builder: it only allocates, and prints [doc]. *)
Definition builds (build : M mqtt (rt_err_t * option bytes)) (doc : json) m : Prop :=
  wp build m (fun r m' => alloc_step m m' /\
    exists text, cJSON_PrintUnformatted doc = Some text /\ r = (RT_EOK, Some text)).

Lemma publish_built_spec m build topic doc :
  mqtt_ok m -> builds build doc m ->
  wp (publish_built build topic) m (fun rc m' => rc = RT_EOK /\ announced topic doc m m').
Proof.
  intros Hm Hb. unfold publish_built. wp_steps. eapply wp_mono; [exact Hb|]. cbn beta.
  intros r m1 ([l [Hl ->]] & text & Ht & ->). cbn [Z.ltb Z.compare RT_EOK]. unfold mqtt_publish, on_client. wp_steps.
  cbn [tails over mqtt_client_lens]. set (tail := hd [] (tails m)).
  assert (exists x y, match tails m with [] => ([], []) | x :: l => (x, l) end = (x, y) /\ x = tail /\ y = tl (tails m)) as (x & y & -> & -> & ->).
  { unfold tail. destruct (tails m); eauto. }
  wp_steps. apply wp_zoom. cbn [view mqtt_client_lens m_client over set_tails].
  eapply wp_mono; [apply publish_state|].
  { destruct Hm as [[] _]. by split. }
  cbn beta. intros rc c' (-> & l' & Hl' & ->). split; [done|]. exists text, l'. split_and!; [done|done|]. reflexivity.
Qed.

Lemma announced_ok topic doc m m' : mqtt_ok m -> announced topic doc m m' -> mqtt_ok m'.
Proof. intros [[] Hn] (text & l & _ & Hl & ->). split; [|done]. by split. Qed.

(** *** The builders print their documents *)

(** The values of the shared data are [int]s. *)
Definition environment_int (e : Environment_t) : Prop :=
  int_range (temp e) /\ int_range (humi e) /\ int_range (light e) /\ int_range (smoke e).

Lemma char_ok_str s : forallb (fun c => (1 <=? c) && (c <=? 255)) (str s) = true -> Forall char_ok (str s).
Proof.
  rewrite forallb_forall, Forall_forall. intros Hs c Hc. apply list_elem_of_In, Hs in Hc. unfold char_ok. lia.
Qed.

Ltac printable_members :=
  repeat first [apply Forall_cons; split; [split; [by apply char_ok_str|cbn [snd]]|] | apply Forall_nil];
  try constructor; try (by apply char_ok_str).

Lemma b2z_range b : int_range (b2z b).
Proof. destruct b; done. Qed.

Lemma sync_printable : printable sync_doc.
Proof. unfold sync_doc. constructor. printable_members. Qed.
Lemma environment_printable e : environment_int e -> printable (environment_doc e).
Proof. intros (? & ? & ? & ?). unfold environment_doc, num. constructor. printable_members; done. Qed.
Lemma status_printable d : printable (status_doc d).
Proof. unfold status_doc, num. constructor. printable_members; apply b2z_range. Qed.
Lemma alarm_printable t a h : int_range t -> int_range a -> int_range h -> printable (alarm_doc t a h).
Proof. intros. unfold alarm_doc, num. constructor. printable_members; done. Qed.
Lemma response_printable id text :
  match id with Some s => Forall char_ok s | None => True end -> Forall char_ok text ->
  printable (response_doc id text).
Proof.
  intros Hid Ht. unfold response_doc. constructor. destruct id as [s|]; cbn [Datatypes.app]; printable_members; done.
Qed.

Lemma build_spec m (k : option bytes -> json) doc :
  mqtt_ok m -> k None = doc -> is_Some (cJSON_PrintUnformatted doc) -> builds (t <- format_timestamp ;; render (k t)) doc m.
Proof.
  intros Hm Hk Hd. unfold builds. wp_steps. eapply wp_mono; [by apply timestamp_spec|]. cbn beta.
  intros t m' [-> ->]. rewrite Hk. by apply render_spec.
Qed.

Lemma sync_request_spec m :
  mqtt_ok m -> wp Publish_Sync_Request m (fun rc m' => rc = RT_EOK /\ announced MQTT_SYNC_PUBTOPIC sync_doc m m').
Proof. intros Hm. apply publish_built_spec; [done|]. apply build_spec; [done|reflexivity|apply prints, sync_printable]. Qed.

Lemma environment_data_spec m e :
  mqtt_ok m -> environment_int e ->
  wp (Publish_Environment_Data e) m (fun rc m' => rc = RT_EOK /\ announced MQTT_SENSOR_PUBTOPIC (environment_doc e) m m').
Proof. intros Hm He. apply publish_built_spec; [done|]. apply build_spec; [done|reflexivity|by apply prints, environment_printable]. Qed.

Lemma device_status_spec m d :
  mqtt_ok m ->
  wp (Publish_Device_Status d) m (fun rc m' => rc = RT_EOK /\ announced MQTT_DEVICE_STATUS_PUBTOPIC (status_doc d) m m').
Proof. intros Hm. apply publish_built_spec; [done|]. apply build_spec; [done|reflexivity|apply prints, status_printable]. Qed.

Lemma alarm_info_spec m t a h :
  mqtt_ok m -> 0 <= t < 256 -> int_range a -> int_range h ->
  wp (Publish_Alarm_Info t a h) m (fun rc m' => rc = RT_EOK /\ announced MQTT_ALARM_PUBTOPIC (alarm_doc t a h) m m').
Proof.
  intros Hm Ht Ha Hh. apply publish_built_spec; [done|].
  assert (int_range t) by (unfold int_range, INT_MIN, INT_MAX; lia).
  apply (build_spec _ (fun ts => cJSON_AddStringToObject (JObject [(str "alarmType", num (u8 t));
    (str "actualValue", num (i32 a)); (str "thresholdValue", num (i32 h))]) (str "timestamp") ts)); [done| |by apply prints, alarm_printable].
  unfold int_range, INT_MIN, INT_MAX in *. rewrite wrap_small, !swrap_small by lia. reflexivity.
Qed.

(** *** Responses *)

Lemma response_prints id text : is_Some (cJSON_PrintUnformatted (response_doc id text)).
Proof. unfold response_doc. destruct id; by eexists. Qed.

Definition uuid_text (u : uuid_cell) : option bytes := match u with UUID_live s => Some s | _ => None end.
(** [UUID] may be used. *)
Definition uuid_ok (u : uuid_cell) : Prop :=
  match u with UUID_freed => False | _ => True end.

Definition after_free (u : uuid_cell) : uuid_cell := match u with UUID_null => UUID_null | _ => UUID_freed end.

Lemma response_spec m topic text (build : M mqtt (rt_err_t * option bytes)) :
  mqtt_ok m -> uuid_ok (UUID m) ->
  builds build (response_doc (uuid_text (UUID m)) text) m ->
  wp (result <- publish_built build topic ;; free_UUID ;;; ret result) m (fun rc m' => rc = RT_EOK /\
    exists m1, announced topic (response_doc (uuid_text (UUID m)) text) m m1 /\
      m' = set_UUID (after_free (UUID m)) m1).
Proof.
  intros Hm Hu Hb. wp_steps. eapply wp_mono; [by apply publish_built_spec|]. cbn beta.
  intros rc m1 [-> Ha]. wp_steps. assert (UUID m1 = UUID m) as EU by (by destruct Ha as (? & ? & _ & _ & ->)).
  unfold free_UUID. wp_steps. rewrite EU. destruct (UUID m) as [|s|]; [| |done]; wp_steps; (split; [done|]); exists m1; (split; [done|]); [|done].
  destruct m1; cbn in *; by subst.
Qed.

Lemma response_build m text (k : option bytes -> option bytes -> json) :
  mqtt_ok m -> uuid_ok (UUID m) ->
  k (uuid_text (UUID m)) None = response_doc (uuid_text (UUID m)) text ->
  builds (t <- format_timestamp ;; id <- read_UUID ;; render (k id t)) (response_doc (uuid_text (UUID m)) text) m.
Proof.
  intros Hm Hu Hk. unfold builds. wp_steps. eapply wp_mono; [by apply timestamp_spec|]. cbn beta.
  intros t m' [-> ->]. unfold read_UUID. wp_steps.
  pose proof (response_prints (uuid_text (UUID m)) text) as Hp.
  destruct (UUID m) as [|s|]; [| |done]; wp_steps; cbn [uuid_text] in *; rewrite Hk; by apply render_spec.
Qed.

Definition dev_response (u : uuid_cell) : json := response_doc (uuid_text u) (str "执行成功").
Definition thresholds_response (u : uuid_cell) : json := response_doc (uuid_text u) (str "设置成功").

Lemma device_response_spec m :
  mqtt_ok m -> uuid_ok (UUID m) ->
  wp Publish_Device_Response m (fun rc m' => rc = RT_EOK /\
    exists m1, announced MQTT_DEVICE_PUBTOPIC (dev_response (UUID m)) m m1 /\ m' = set_UUID (after_free (UUID m)) m1).
Proof.
  intros Hm Hu. apply response_spec; [done..|]. apply response_build; [done|done|].
  by destruct (UUID m).
Qed.

Lemma thresholds_response_spec m :
  mqtt_ok m -> uuid_ok (UUID m) ->
  wp Publish_Thresholds_Response m (fun rc m' => rc = RT_EOK /\
    exists m1, announced MQTT_THRESHOLD_PUBTOPIC (thresholds_response (UUID m)) m m1 /\
      m' = set_UUID (after_free (UUID m)) m1).
Proof.
  intros Hm Hu. apply response_spec; [done..|]. apply response_build; [done|done|].
  by destruct (UUID m).
Qed.

(** A pending response with a freed [UUID] is a use after free. *)
Lemma response_freed m : mqtt_ok m -> UUID m = UUID_freed -> Publish_Device_Response m = Fault UseAfterFree.
Proof.
  intros [_ Hn] Hu. unfold Publish_Device_Response, publish_built, mqtt_get_dev_response, format_timestamp, read_UUID, bind, gets.
  rewrite Hn, bool_decide_true by done. unfold ret. by rewrite Hu.
Qed.
End AppFacts.

(** C20. Reports: the sync request, the environment, the device states and an alarm are each
    queued as one message on their topic, whose text (up to what follows the send buffer in
    memory) [cJSON_Parse] reads back as the document. *)
Theorem reports_read_back m e d t a h :
  mqtt_ok m -> environment_int e -> 0 <= t < 256 -> int_range a -> int_range h ->
  let queued topic doc := fun (rc : rt_err_t) m' => rc = RT_EOK /\ mqtt_ok m' /\ exists text,
    cJSON_Parse text = Some doc /\
    pub_pipe (m_client m') = pub_pipe (m_client m) ++ frame (stack_junk (m_client m)) topic (text ++ hd [] (tails m)) in
  wp Publish_Sync_Request m (queued MQTT_SYNC_PUBTOPIC sync_doc) /\
  wp (Publish_Environment_Data e) m (queued MQTT_SENSOR_PUBTOPIC (environment_doc e)) /\
  wp (Publish_Device_Status d) m (queued MQTT_DEVICE_STATUS_PUBTOPIC (status_doc d)) /\
  wp (Publish_Alarm_Info t a h) m (queued MQTT_ALARM_PUBTOPIC (alarm_doc t a h)).
Proof.
  intros Hm He Ht Ha Hh queued.
  assert (forall topic doc rc m', printable doc -> height doc <= CJSON_NESTING_LIMIT ->
    rc = RT_EOK /\ announced topic doc m m' -> queued topic doc rc m') as Hq.
  { intros topic doc rc m' Hp Hd [-> Han]. pose proof (announced_ok _ _ _ _ Hm Han) as Hm'. split_and!; [done..|].
    destruct Han as (text & l & Htext & _ & ->). exists text. split; [|done].
    destruct (print_parse_tree doc Hp Hd) as (text' & Ht' & Hparse). congruence. }
  assert (int_range t) by (unfold int_range, INT_MIN, INT_MAX; lia).
  split_and!; (eapply wp_mono; [|intros rc m'; apply Hq]); try done.
  - by apply sync_request_spec.
  - apply sync_printable.
  - by apply environment_data_spec.
  - by apply environment_printable.
  - by apply device_status_spec.
  - apply status_printable.
  - by apply alarm_info_spec.
  - by apply alarm_printable.
Qed.

(** ** The effect of the callbacks *)

(** What a published document adds, and what publishing leaves alone. *)
Definition published (topic : bytes) (doc : json) (m m' : mqtt) : Prop :=
  mqtt_ok m' /\ stack_junk (m_client m') = stack_junk (m_client m) /\ tails m' = tl (tails m) /\
  sent (m_client m') = sent (m_client m) /\ sock_send (m_client m') = sock_send (m_client m) /\ messageHandlers (m_client m') = messageHandlers (m_client m) /\
  is_started m' = is_started m /\
  exists text, cJSON_PrintUnformatted doc = Some text /\
    pub_pipe (m_client m') = pub_pipe (m_client m) ++ frame (stack_junk (m_client m)) topic (text ++ hd [] (tails m)).

(** A step that publishes nothing. *)
Definition quiet (m m' : mqtt) : Prop :=
  mqtt_ok m' /\ stack_junk (m_client m') = stack_junk (m_client m) /\ tails m' = tails m /\
  sent (m_client m') = sent (m_client m) /\ sock_send (m_client m') = sock_send (m_client m) /\ messageHandlers (m_client m') = messageHandlers (m_client m) /\
  is_started m' = is_started m /\ pub_pipe (m_client m') = pub_pipe (m_client m).

Lemma quiet_refl m : mqtt_ok m -> quiet m m.
Proof. by intros. Qed.
Lemma quiet_trans m1 m2 m3 : quiet m1 m2 -> quiet m2 m3 -> quiet m1 m3.
Proof. intros (?&?&?&?&?&?&?&?) (?&?&?&?&?&?&?&?). unfold quiet. split_and!; congruence. Qed.
Lemma quiet_published topic doc m1 m2 m3 : quiet m1 m2 -> published topic doc m2 m3 -> published topic doc m1 m3.
Proof.
  intros (?&Ej&Et&?&?&?&?&Ep) (?&?&?&?&?&?&?&text&Hp&Hf). unfold published. split_and!; try congruence.
  exists text. split; [done|]. by rewrite Hf, Ej, Et, Ep.
Qed.
Lemma announced_published topic doc m m' u : mqtt_ok m -> announced topic doc m m' -> published topic doc m (set_UUID u m').
Proof.
  intros Hm Ha. pose proof (announced_ok _ _ _ _ Hm Ha) as [Hc Hn]. destruct Ha as (text & l & Hp & Hl & ->).
  unfold published. split_and!; try done. by exists text.
Qed.
Lemma announced_published' topic doc m m' : mqtt_ok m -> announced topic doc m m' -> published topic doc m m'.
Proof.
  intros Hm Ha. replace m' with (set_UUID (UUID m') m') by (by destruct m'). by apply announced_published.
Qed.

Lemma alloc_step_quiet m m' : mqtt_ok m -> alloc_step m m' -> quiet m m'.
Proof. intros Hm Hs. pose proof (alloc_step_ok _ _ Hm Hs). by destruct Hs as (l & Hl & ->). Qed.

(** [f] applied for the member, if there is one. *)
Definition item_effect (root : option json) (name : bytes) (f : json -> props -> props) (p : props) : props :=
  match cJSON_GetObjectItem root name with Some node => f node p | None => p end.

Definition int_of (node : json) : Z := default 0 (valueint node).

Definition with_led0 (b : bool) (d : Devices_t) : Devices_t :=
  Devices (Beep_State d) (Relay_State d) b (LED1_State d) (Door_State d) (DHT11_Sensor_State d) (Light_Sensor_State d).
Definition with_dht11 (b : bool) (d : Devices_t) : Devices_t :=
  Devices (Beep_State d) (Relay_State d) (LED0_State d) (LED1_State d) (Door_State d) b (Light_Sensor_State d).
Definition with_light_sensor (b : bool) (d : Devices_t) : Devices_t :=
  Devices (Beep_State d) (Relay_State d) (LED0_State d) (LED1_State d) (Door_State d) (DHT11_Sensor_State d) b.

(** The device members of a command, in the order the code obeys them. *)
Definition device_effect (root : option json) (p : props) : props :=
  item_effect root (str "emergencyDoor") (fun n => on_devices (with_door (is_true n)))
  (item_effect root (str "alarm") (fun n => on_devices (with_beep (is_true n)))
  (item_effect root (str "exhaustFan") (fun n => on_devices (with_relay (is_true n)))
  (item_effect root (str "fillLight") (fun n => on_devices (with_light (is_true n)))
  (item_effect root (str "warningLight") (fun n => on_devices (with_led0 (is_true n))) p)))).

Definition sensor_effect (root : option json) (p : props) : props :=
  item_effect root (str "lightSensorStatus") (fun n => on_devices (with_light_sensor (is_true n)))
  (item_effect root (str "dht11Status") (fun n => on_devices (with_dht11 (is_true n))) p).

Definition with_temp_limit (v : Z) (t : Thresholds_t) : Thresholds_t :=
  Thresholds v (Humi_Limit t) (Light_Up_Limit t) (Light_Down_Limit t).
Definition with_humi_limit (v : Z) (t : Thresholds_t) : Thresholds_t :=
  Thresholds (Temp_Limit t) v (Light_Up_Limit t) (Light_Down_Limit t).
Definition with_light_up (v : Z) (t : Thresholds_t) : Thresholds_t :=
  Thresholds (Temp_Limit t) (Humi_Limit t) v (Light_Down_Limit t).
Definition with_light_down (v : Z) (t : Thresholds_t) : Thresholds_t :=
  Thresholds (Temp_Limit t) (Humi_Limit t) (Light_Up_Limit t) v.

(** The threshold members. *)
Definition thresholds_effect (root : option json) (p : props) : props :=
  item_effect root (str "lightLower") (fun n => on_thresholds (with_light_down (int_of n)))
  (item_effect root (str "lightUpper") (fun n => on_thresholds (with_light_up (int_of n)))
  (item_effect root (str "humidity") (fun n => on_thresholds (with_humi_limit (int_of n)))
  (item_effect root (str "temperature") (fun n => on_thresholds (with_temp_limit (int_of n))) p))).

(** The [commandId] a command leaves in [UUID]. *)
Definition uuid_effect (root : option json) (u : uuid_cell) : uuid_cell :=
  match cJSON_GetObjectItem root (str "commandId") with
  | Some node => UUID_live (default [] (valuestring node))
  | None => u
  end.

Lemma strdup_spec s m :
  mqtt_ok m ->
  wp (u <- strdup s ;; modify (set_UUID u)) m (fun _ m' => quiet m m' /\ UUID m' = UUID_live (default [] s)).
Proof.
  intros Hm. unfold strdup. wp_steps. eapply wp_mono; [by apply malloc_spec|]. cbn beta. intros b m' [-> Hs]. wp_steps.
  pose proof (alloc_step_quiet _ _ Hm Hs) as Hq. destruct Hm as [_ ->]. split.
  - destruct Hq as ([? ?]&?&?&?&?&?&?&?). by split_and!.
  - by destruct s.
Qed.

Lemma c_string_at_string l r : c_string_at (l ++ 0 :: r) = Some (c_string l).
Proof. induction l as [|c l IH]; cbn; [done|]. destruct (c =? 0); [done|]. by rewrite IH. Qed.

(** A place in the read buffer with room for a NUL after it. *)
Definition place_ok (s : Z * Z) : Prop := 0 <= s.1 /\ 0 <= s.2 /\ s.1 + s.2 < 1024.

Section CallbackFacts.
Context {S : Type} `{act : !Actuators S, mine : !Lens S mqtt, ok : !ActuatorsOk S mqtt}.
Implicit Types s : S.

Abbreviation mq s := (view s : mqtt).
Abbreviation pr s := (view s : props).

(** A step on the devices and the shared data only, which turns the servo as [h] says. *)
Definition does (f : props -> props) (h : Z -> Z) s s' : Prop :=
  act_ok s' /\ mq s' = mq s /\ pr s' = f (pr s) /\ act_position s' = h (act_position s).
Abbreviation still := (fun a : Z => a).

(** A step on the client's own part. *)
Lemma wp_in_mqtt {A : Type} (m : M mqtt A) s (Q : A -> S -> Prop) (P : A -> mqtt -> Prop) :
  act_ok s -> wp m (mq s) P ->
  (forall a t s', P a t -> act_ok s' -> mq s' = t -> pr s' = pr s -> act_position s' = act_position s -> Q a s') ->
  wp (in_mqtt m) s Q.
Proof.
  intros Hs Hm HQ. apply wp_zoom. eapply wp_mono; [exact Hm|]. cbn beta. intros a t Ht.
  eapply HQ; [exact Ht|by apply act_mine_ok|by rewrite view_over|by rewrite act_mine_props|by rewrite act_mine_position].
Qed.

Lemma shared_spec (f : props -> props) s :
  act_ok s -> same_outputs (pr s) (f (pr s)) -> wp (shared (modify f)) s (fun _ s' => does f still s s').
Proof.
  intros Hs Hf. apply wp_zoom, wp_modify. split; [by apply act_data_ok|]. split; [by rewrite act_props_mine|].
  by rewrite view_over, act_data_position.
Qed.

(** A computation whose effect on the devices and the shared data is [f] and on the servo [h]. *)
Definition effect (c : M S unit) (f : props -> props) (h : Z -> Z) : Prop :=
  forall s, act_ok s -> wp c s (fun _ s' => does f h s s').

Lemma does_trans f g h k s1 s2 s3 : does f h s1 s2 -> does g k s2 s3 -> does (fun p => g (f p)) (fun a => k (h a)) s1 s3.
Proof. unfold does. intros (A1 & A2 & A3 & A4) (B1 & B2 & B3 & B4). rewrite B3, A3, B4, A4. split_and!; congruence. Qed.

Lemma does_id s : act_ok s -> does (fun p => p) still s s.
Proof. by intros. Qed.

Lemma effect_seq c1 c2 f g h k : effect c1 f h -> effect c2 g k -> effect (c1 ;;; c2) (fun p => g (f p)) (fun a => k (h a)).
Proof.
  intros H1 H2 s Hs. wp_steps. eapply wp_mono; [by apply H1|]. cbn beta. intros _ s1 Hd1.
  eapply wp_mono; [apply H2, Hd1|]. cbn beta. intros _ s2 Hd2. by eapply does_trans.
Qed.

(** What a member of a document does to the servo. *)
Definition item_turn (root : option json) (name : bytes) (h : json -> Z -> Z) (a : Z) : Z :=
  match cJSON_GetObjectItem root name with Some node => h node a | None => a end.

Lemma effect_item root name k f h :
  (forall node, effect (k node) (f node) (h node)) -> effect (with_item root name k) (item_effect root name f) (item_turn root name h).
Proof.
  intros Hk s Hs. unfold with_item, does, item_effect, item_turn. destruct (cJSON_GetObjectItem root name) as [node|]; [by apply Hk|by wp_steps].
Qed.

Lemma effect_item_still root name k f :
  (forall node, effect (k node) (f node) still) -> effect (with_item root name k) (item_effect root name f) still.
Proof.
  intros Hk s Hs. eapply wp_mono; [by apply (effect_item root name k f (fun _ => still))|]. cbn beta.
  unfold does, item_turn. intros _ s' H. by destruct (cJSON_GetObjectItem root name).
Qed.

(** The same, when the member's [valueint] is defined. *)
Lemma effect_int root name (set : Z -> M props unit) (g : Z -> Thresholds_t -> Thresholds_t) :
  (forall r, root = Some r -> defined r = true) ->
  (forall v, int_range v -> set v = modify (on_thresholds (g v))) ->
  effect (with_item root name (set_int set)) (item_effect root name (fun n => on_thresholds (g (int_of n)))) still.
Proof.
  intros Hd Hset s Hs. unfold with_item, item_effect. destruct (cJSON_GetObjectItem root name) as [node|] eqn:E; [|by wp_steps].
  assert (defined node = true) as Hn.
  { destruct root as [r|]; [|done]. eapply defined_item; [by apply Hd|exact E]. }
  destruct (valueint_defined node Hn) as (v & Hv & Hr). unfold set_int, int_of. rewrite Hv, (Hset v Hr). cbn [default].
  by apply shared_spec.
Qed.

Lemma effect_shared (f : props -> props) : (forall p, same_outputs p (f p)) -> effect (shared (modify f)) f still.
Proof. intros Hf s Hs. by apply shared_spec. Qed.

Lemma effect_light b : effect (act_light b) (on_devices (with_light b)) still.
Proof. intros s Hs. by apply act_light_ok. Qed.
Lemma effect_relay b : effect (act_relay b) (on_devices (with_relay b)) still.
Proof. intros s Hs. by apply act_relay_ok. Qed.
Lemma effect_beep b : effect (act_beep b) (on_devices (with_beep b)) still.
Proof. intros s Hs. by apply act_beep_ok. Qed.
Lemma effect_door b : effect (act_door b 90) (on_devices (with_door b)) (next_angle b).
Proof. intros s Hs. by apply act_door_ok. Qed.

(** Where the [emergencyDoor] member of a document turns the servo. *)
Definition door_turn (root : option json) : Z -> Z := item_turn root (str "emergencyDoor") (fun n => next_angle (is_true n)).

(** The members of a control command, of a threshold command, of the [device] object. *)
Definition device_commands (root : option json) : M S unit :=
  with_item root (str "warningLight") (fun node => shared (Set_Devpro_LED0State (is_true node))) ;;;
  with_item root (str "fillLight") (fun node => act_light (is_true node)) ;;;
  with_item root (str "exhaustFan") (fun node => act_relay (is_true node)) ;;;
  with_item root (str "alarm") (fun node => act_beep (is_true node)) ;;;
  with_item root (str "emergencyDoor") (fun node => act_door (is_true node) 90).
Definition threshold_commands (root : option json) : M S unit :=
  with_item root (str "temperature") (set_int Set_Devpro_Temp_Limit) ;;;
  with_item root (str "humidity") (set_int Set_Devpro_Humi_Limit) ;;;
  with_item root (str "lightUpper") (set_int Set_Devpro_Light_Up_Limit) ;;;
  with_item root (str "lightLower") (set_int Set_Devpro_Light_Down_Limit).

Lemma device_items root : effect (device_commands root) (device_effect root) (door_turn root).
Proof.
  unfold device_effect, device_commands.
  apply (effect_seq _ _ (item_effect root (str "warningLight") (fun n => on_devices (with_led0 (is_true n))))
    (fun p => item_effect root (str "emergencyDoor") _ (item_effect root (str "alarm") _
       (item_effect root (str "exhaustFan") _ (item_effect root (str "fillLight") _ p)))) still (door_turn root)).
  { apply effect_item_still. intros node. by apply effect_shared. }
  apply (effect_seq _ _ _ (fun p => item_effect root (str "emergencyDoor") _ (item_effect root (str "alarm") _
       (item_effect root (str "exhaustFan") _ p))) still (door_turn root)).
  { apply effect_item_still. intros node. apply effect_light. }
  apply (effect_seq _ _ _ (fun p => item_effect root (str "emergencyDoor") _ (item_effect root (str "alarm") _ p)) still (door_turn root)).
  { apply effect_item_still. intros node. apply effect_relay. }
  apply (effect_seq _ _ _ _ still (door_turn root)).
  - apply effect_item_still. intros node. apply effect_beep.
  - apply effect_item. intros node. apply effect_door.
Qed.

Lemma int_set_simpl (f : Z -> Thresholds_t -> Thresholds_t) v :
  int_range v -> (modify (on_thresholds (f (i32 v))) : M props unit) = modify (on_thresholds (f v)).
Proof. unfold int_range, INT_MIN, INT_MAX. intros Hv. by rewrite swrap_small by lia. Qed.

Lemma threshold_items root :
  (forall r, root = Some r -> defined r = true) -> effect (threshold_commands root) (thresholds_effect root) still.
Proof.
  intros Hd. unfold thresholds_effect, threshold_commands.
  apply (effect_seq _ _ (item_effect root (str "temperature") _) (fun p => item_effect root (str "lightLower") _
    (item_effect root (str "lightUpper") _ (item_effect root (str "humidity") _ p))) still still).
  { apply effect_int; [done|]. intros v Hv. by apply (int_set_simpl with_temp_limit). }
  apply (effect_seq _ _ _ (fun p => item_effect root (str "lightLower") _ (item_effect root (str "lightUpper") _ p)) still still).
  { apply effect_int; [done|]. intros v Hv. by apply (int_set_simpl with_humi_limit). }
  apply (effect_seq _ _ _ _ still still); apply effect_int; try done; intros v Hv;
    [by apply (int_set_simpl with_light_up)|by apply (int_set_simpl with_light_down)].
Qed.

(** The text a callback parses. *)
Definition payload_text (m : mqtt) (md : message_data) : bytes :=
  c_string (slice (readbuf (m_client m)) (msg_payload (md_message md))).

Lemma terminate_payload (c : mqtt_client mqtt_cb) p len :
  length (readbuf c) = 1024%nat -> place_ok (p, len) ->
  exists b, readbuf_store (p + len) [0] c = Ok (tt, set_readbuf b c) /\ length b = 1024%nat /\
    c_string_at (drop (Z.to_nat p) b) = Some (c_string (slice (readbuf c) (p, len))).
Proof.
  unfold place_ok. cbn [fst snd]. intros Hb (Hp & Hl & Hpl). set (b1 := take (Z.to_nat (p + len)) (readbuf c)).
  assert (length b1 = Z.to_nat (p + len)) as Hb1 by (unfold b1; rewrite length_take; lia).
  exists (b1 ++ [0] ++ drop (Z.to_nat (p + len + 1)) (readbuf c)). split_and!.
  - unfold readbuf_store, bind, gets. cbn [length]. change (Z.of_nat 1) with 1. rewrite Hb.
    rewrite (proj2 (Z.leb_le 0 _)), (proj2 (Z.leb_le _ _)) by lia. done.
  - rewrite !length_app, length_drop, Hb1, Hb. cbn [length]. lia.
  - rewrite drop_app_le by lia. unfold b1, slice. cbn [fst snd].
    rewrite Z2Nat.inj_add, <- take_drop_commute by lia. apply c_string_at_string.
Qed.

Lemma payload_string_spec md s :
  act_ok s -> mqtt_ok (mq s) -> place_ok (msg_payload (md_message md)) ->
  wp (payload_string md) s (fun t s' => t = payload_text (mq s) md /\ act_ok s' /\ quiet (mq s) (mq s') /\
    UUID (mq s') = UUID (mq s) /\ pr s' = pr s /\ act_position s' = act_position s).
Proof.
  intros Hs Hm Hp. unfold payload_string, payload_text. destruct (msg_payload (md_message md)) as [p len].
  destruct (terminate_payload (m_client (mq s)) p len) as (b & Hst & Hb & Hc); [apply Hm|done|].
  wp_steps. eapply (wp_in_mqtt _ _ _ (fun _ m' => m' = over (set_readbuf b (m_client (mq s))) (mq s))); [done| |].
  { apply wp_zoom. unfold wp. change (view (mq s)) with (m_client (mq s)). by rewrite Hst. }
  cbn beta. intros _ t s1 -> Hs1 Em1 Ep1 Ea1. wp_steps.
  eapply (wp_in_mqtt _ _ _ (fun b' m' => b' = b /\ m' = mq s1)); [done| |].
  { apply wp_zoom, wp_gets. rewrite over_view, Em1. done. }
  cbn beta. intros b' t s2 [-> ->] Hs2 Em2 Ep2 Ea2. rewrite Hc. wp_steps.
  split; [done|]. split; [done|]. rewrite Em2, Em1, Ep2, Ep1, Ea2, Ea1. split; [|done].
  destruct Hm as [[] Hn]. by split_and!.
Qed.

(** The identifier of a command. *)
Lemma command_id_spec root s :
  act_ok s -> mqtt_ok (mq s) ->
  wp (with_item root (str "commandId") keep_UUID) s (fun _ s' => act_ok s' /\ quiet (mq s) (mq s') /\
    UUID (mq s') = uuid_effect root (UUID (mq s)) /\ pr s' = pr s /\ act_position s' = act_position s).
Proof.
  intros Hs Hm. unfold with_item, uuid_effect. destruct (cJSON_GetObjectItem root _) as [node|]; [|by wp_steps].
  eapply (wp_in_mqtt _ _ _ (fun _ m' => quiet (mq s) m' /\ UUID m' = UUID_live (default [] (valuestring node)))); [done|by apply strdup_spec|].
  cbn beta. intros _ t s' [Hq Hu] Hs' Em Ep Ea. rewrite Em. done.
Qed.

(** A command: its identifier, its members, then the answer. *)
Definition command (c : option json -> M S unit) (respond : M mqtt rt_err_t) (md : message_data) : M S unit :=
  text <- payload_string md ;;
  let root := cJSON_Parse text in
  (match root with
   | Some _ => with_item root (str "commandId") keep_UUID ;;; c root
   | None => ret tt
   end) ;;;
  in_mqtt respond ;;;
  ret tt.

Lemma command_items c f h md s :
  act_ok s -> mqtt_ok (mq s) -> place_ok (msg_payload (md_message md)) ->
  let root := cJSON_Parse (payload_text (mq s) md) in
  (root = None -> f = (fun p => p) /\ h = still) -> effect (c root) f h ->
  wp (text <- payload_string md ;;
      let root := cJSON_Parse text in
      match root with
      | Some _ => with_item root (str "commandId") keep_UUID ;;; c root
      | None => ret tt
      end) s
    (fun _ s' => act_ok s' /\ quiet (mq s) (mq s') /\ UUID (mq s') = uuid_effect root (UUID (mq s)) /\ pr s' = f (pr s) /\
      act_position s' = h (act_position s)).
Proof.
  intros Hs Hm Hp root Hf He. wp_steps. eapply wp_mono; [by apply payload_string_spec|]. cbn beta.
  intros t s1 (-> & Hs1 & Hq1 & Hu1 & Ep1 & Ea1). fold root. cbv zeta. destruct root as [r|] eqn:Er.
  - wp_steps. eapply wp_mono; [apply command_id_spec; [done|apply Hq1]|]. cbn beta.
    intros _ s2 (Hs2 & Hq2 & Hu2 & Ep2 & Ea2). eapply wp_mono; [by apply He|]. cbn beta.
    intros _ s3 (Hs3 & Em3 & Ep3 & Ea3). rewrite Em3. split_and!; [done|by eapply quiet_trans|congruence..].
  - wp_steps. destruct (Hf eq_refl) as [-> ->]. split_and!; try done; congruence.
Qed.

Lemma command_spec c f h topic resp respond md s :
  act_ok s -> mqtt_ok (mq s) -> place_ok (msg_payload (md_message md)) ->
  let root := cJSON_Parse (payload_text (mq s) md) in
  let u := uuid_effect root (UUID (mq s)) in
  (root = None -> f = (fun p => p) /\ h = still) -> effect (c root) f h -> uuid_ok u ->
  (forall m, mqtt_ok m -> uuid_ok (UUID m) -> wp respond m (fun rc m' => rc = RT_EOK /\
     exists m1, announced topic (resp (UUID m)) m m1 /\ m' = set_UUID (after_free (UUID m)) m1)) ->
  wp (command c respond md) s (fun _ s' => act_ok s' /\ pr s' = f (pr s) /\ act_position s' = h (act_position s) /\
    UUID (mq s') = after_free u /\ published topic (resp u) (mq s) (mq s')).
Proof.
  intros Hs Hm Hp root u Hf He Hu Hresp. pose proof (command_items c f h md s Hs Hm Hp Hf He) as Hi.
  unfold command. wp_steps. unfold bind in Hi at 1. revert Hi. unfold wp at 1.
  destruct (payload_string md s) as [[t s1]|] eqn:E1; [|done]. cbv zeta. intros Hi. unfold wp at 1. rewrite E1.
  wp_steps. eapply wp_mono; [exact Hi|]. cbn beta. intros _ s2 (Hs2 & Hq & Hu2 & Ep & Ea). fold root u in Hu2. wp_steps.
  eapply wp_in_mqtt; [done|apply Hresp; [apply Hq|by rewrite Hu2]|]. cbn beta.
  intros rc m' s3 (-> & m1 & Ha & ->) Hs3 Em Ep3 Ea3. wp_steps. rewrite Em, Hu2 in *. split_and!; [done|congruence|congruence|done|].
  eapply quiet_published; [exact Hq|]. apply announced_published; [apply Hq|done].
Qed.

Lemma dev_control_spec md s :
  act_ok s -> mqtt_ok (mq s) -> place_ok (msg_payload (md_message md)) ->
  let root := cJSON_Parse (payload_text (mq s) md) in
  let u := uuid_effect root (UUID (mq s)) in
  uuid_ok u ->
  wp (mqtt_dev_control_callback md) s (fun _ s' => act_ok s' /\ pr s' = device_effect root (pr s) /\
    act_position s' = door_turn root (act_position s) /\
    UUID (mq s') = after_free u /\ published MQTT_DEVICE_PUBTOPIC (dev_response u) (mq s) (mq s')).
Proof.
  intros Hs Hm Hp root u Hu.
  apply (command_spec device_commands (device_effect root) (door_turn root) _ dev_response Publish_Device_Response md s); try done.
  - intros E. unfold root. by rewrite E.
  - apply device_items.
  - apply device_response_spec.
Qed.

Lemma thresholds_spec md s :
  act_ok s -> mqtt_ok (mq s) -> place_ok (msg_payload (md_message md)) ->
  let root := cJSON_Parse (payload_text (mq s) md) in
  let u := uuid_effect root (UUID (mq s)) in
  uuid_ok u ->
  wp (mqtt_thresholds_callback md) s (fun _ s' => act_ok s' /\ pr s' = thresholds_effect root (pr s) /\
    UUID (mq s') = after_free u /\ published MQTT_THRESHOLD_PUBTOPIC (thresholds_response u) (mq s) (mq s')).
Proof.
  intros Hs Hm Hp root u Hu.
  eapply wp_mono; [apply (command_spec threshold_commands (thresholds_effect root) still MQTT_THRESHOLD_PUBTOPIC thresholds_response
    Publish_Thresholds_Response md s); try done|].
  - intros E. unfold root. by rewrite E.
  - apply threshold_items. intros r Hr. by eapply parse_defined.
  - apply thresholds_response_spec.
  - cbn beta. intros _ s' (H1 & H2 & _ & H3 & H4). by split_and!.
Qed.

(** The synchronisation message: its [threshold] and [device] objects. *)
Definition sync_effect (root : option json) (p : props) : props :=
  let device := cJSON_GetObjectItem root (str "device") in
  sensor_effect device (device_effect device (thresholds_effect (cJSON_GetObjectItem root (str "threshold")) p)).

Lemma sync_items device :
  effect (with_item device (str "warningLight") (fun node => shared (Set_Devpro_LED0State (is_true node))) ;;;
      with_item device (str "fillLight") (fun node => act_light (is_true node)) ;;;
      with_item device (str "exhaustFan") (fun node => act_relay (is_true node)) ;;;
      with_item device (str "alarm") (fun node => act_beep (is_true node)) ;;;
      with_item device (str "emergencyDoor") (fun node => act_door (is_true node) 90) ;;;
      with_item device (str "dht11Status") (fun node => shared (Set_Devpro_DHT11_Sensor_State (is_true node))) ;;;
      with_item device (str "lightSensorStatus") (fun node => shared (Set_Devpro_Light_Sensor_State (is_true node))))
    (fun p => sensor_effect device (device_effect device p)) (door_turn device).
Proof.
  intros s Hs. pose proof (device_items device s Hs) as Hd. unfold device_commands, bind, wp in Hd.
  unfold bind, wp. do 5 (destruct (with_item device _ _ _) as [[[] ?]|]; [|done]).
  assert (effect (with_item device (str "dht11Status") (fun node => shared (Set_Devpro_DHT11_Sensor_State (is_true node))) ;;;
    with_item device (str "lightSensorStatus") (fun node => shared (Set_Devpro_Light_Sensor_State (is_true node))))
    (sensor_effect device) still) as He.
  { apply (effect_seq _ _ (item_effect device (str "dht11Status") (fun n => on_devices (with_dht11 (is_true n))))
      (item_effect device (str "lightSensorStatus") (fun n => on_devices (with_light_sensor (is_true n)))) still still);
      apply effect_item_still; intros node; by apply effect_shared. }
  eapply (wp_mono _ _ _ _ (He _ (proj1 Hd))). intros _ s' Hd'. exact (does_trans _ _ (door_turn device) still _ _ _ Hd Hd').
Qed.

Lemma sync_spec md s :
  act_ok s -> mqtt_ok (mq s) -> place_ok (msg_payload (md_message md)) ->
  wp (mqtt_sync_callback md) s (fun _ s' => act_ok s' /\ quiet (mq s) (mq s') /\ UUID (mq s') = UUID (mq s) /\
    pr s' = sync_effect (cJSON_Parse (payload_text (mq s) md)) (pr s)).
Proof.
  intros Hs Hm Hp. unfold mqtt_sync_callback. wp_steps. eapply wp_mono; [by apply payload_string_spec|]. cbn beta.
  intros t s1 (-> & Hs1 & Hq1 & Hu1 & Ep1 & _). cbv zeta. set (root := cJSON_Parse _). unfold sync_effect.
  assert (forall th r, th = cJSON_GetObjectItem root (str "threshold") -> th = Some r -> defined r = true) as Hdef.
  { intros th r -> Hr. destruct root as [r0|] eqn:Er; [|done]. eapply defined_item; [by eapply parse_defined|exact Hr]. }
  set (th := cJSON_GetObjectItem root (str "threshold")). set (device := cJSON_GetObjectItem root (str "device")). wp_steps.
  assert (wp (match th with Some _ => threshold_commands th | None => ret tt end) s1 (fun _ s' => does (thresholds_effect th) still s1 s')) as Ht.
  { destruct th as [r|] eqn:Eth; [|wp_steps; by apply does_id]. apply threshold_items; [|done]. intros r0 [= <-]. by apply (Hdef (Some r) r). }
  eapply wp_mono; [exact Ht|]. cbn beta. intros _ s2 (Hs2 & Em2 & Ep2 & _).
  assert (mq s2 = mq s1 /\ quiet (mq s) (mq s2)) as [_ Hq2] by (by rewrite Em2).
  destruct device as [d|].
  - eapply wp_mono; [by apply sync_items|]. cbn beta. intros _ s3 (Hs3 & Em3 & Ep3 & _). rewrite Em3, Em2, Ep3, Ep2, Ep1. by rewrite Em2 in Hq2.
  - wp_steps. rewrite Em2, Ep2, Ep1. by rewrite Em2 in Hq2.
Qed.

(** C6. A control command: as long as the answer's identifier has not been freed (the command
    carries one, or none was left), the callback runs without fault. The announced states
    change as the members of the command say, and only those. Then the fill light, the fan and
    the alarm are on or off as the new states say; the servo has been turned one step in
    the direction of the [emergencyDoor] member, or not at all without one; the member
    [warningLight] changes the announced state alone and drives no output. Exactly one answer
    is published, which carries the command's identifier, and the identifier is released. *)
Theorem control_command md s :
  act_ok s -> mqtt_ok (mq s) -> place_ok (msg_payload (md_message md)) ->
  let root := cJSON_Parse (payload_text (mq s) md) in
  let u := uuid_effect root (UUID (mq s)) in
  uuid_ok u ->
  wp (mqtt_dev_control_callback md) s (fun _ s' =>
    let d := my_devices (device_effect root (pr s)) in
    act_ok s' /\ pr s' = device_effect root (pr s) /\
    act_lit s' = LED1_State d /\ act_fan s' = Relay_State d /\ act_alarm s' = Beep_State d /\
    act_position s' = door_turn root (act_position s) /\
    UUID (mq s') = after_free u /\ published MQTT_DEVICE_PUBTOPIC (dev_response u) (mq s) (mq s')).
Proof.
  intros Hs Hm Hp root u Hu. eapply wp_mono; [by apply dev_control_spec|]. cbn beta. cbv zeta.
  intros _ s' (Hs' & Ep & Ea & Hr). pose proof (act_agrees s' Hs') as (A1 & A2 & A3 & _).
  change (view s' : props) with (pr s') in A1, A2, A3. rewrite Ep in A1, A2, A3. repeat (split; [first [exact Hs'|exact Ep|exact A1|exact A2|exact A3|exact Ea]|]). exact Hr.
Qed.

(** C19. A threshold command: the callback stores the (saturated) integers of its members
    as thresholds, changes nothing else, answers once with the identifier, and releases it. *)
Theorem threshold_command md s :
  act_ok s -> mqtt_ok (mq s) -> place_ok (msg_payload (md_message md)) ->
  let root := cJSON_Parse (payload_text (mq s) md) in
  let u := uuid_effect root (UUID (mq s)) in
  uuid_ok u ->
  wp (mqtt_thresholds_callback md) s (fun _ s' => act_ok s' /\ pr s' = thresholds_effect root (pr s) /\
    UUID (mq s') = after_free u /\ published MQTT_THRESHOLD_PUBTOPIC (thresholds_response u) (mq s) (mq s')).
Proof. apply thresholds_spec. Qed.

(** Synchronisation: the callback installs the thresholds and the device and sensor
    states the server sent, and publishes nothing. *)
Theorem synchronisation md s :
  act_ok s -> mqtt_ok (mq s) -> place_ok (msg_payload (md_message md)) ->
  wp (mqtt_sync_callback md) s (fun _ s' => act_ok s' /\ quiet (mq s) (mq s') /\ UUID (mq s') = UUID (mq s) /\
    pr s' = sync_effect (cJSON_Parse (payload_text (mq s) md)) (pr s)).
Proof. apply sync_spec. Qed.

(** The freed identifier: once a command has been answered, a command without a
    [commandId] (or one that does not parse) reads the freed identifier. *)
Theorem stale_identifier md s :
  act_ok s -> mqtt_ok (mq s) -> place_ok (msg_payload (md_message md)) ->
  UUID (mq s) = UUID_freed ->
  cJSON_GetObjectItem (cJSON_Parse (payload_text (mq s) md)) (str "commandId") = None ->
  mqtt_dev_control_callback md s = Fault UseAfterFree.
Proof.
  intros Hs Hm Hp Hu Hn. set (root := cJSON_Parse (payload_text (mq s) md)) in *.
  pose proof (command_items _ (device_effect root) (door_turn root) md s Hs Hm Hp
    ltac:(intros E; unfold root; by rewrite E) (device_items root)) as Hi.
  apply wp_total in Hi as ([] & s1 & E1 & Hs1 & Hq & Hu1 & _). fold root in Hu1. unfold uuid_effect in Hu1. rewrite Hn, Hu in Hu1.
  change (mqtt_dev_control_callback md) with (command device_commands Publish_Device_Response md). unfold command, bind in *.
  destruct (payload_string md s) as [[t s2]|]; [|done]. cbv zeta in *. rewrite E1.
  unfold in_mqtt, zoom. rewrite (response_freed (mq s1)); [done|apply Hq|done].
Qed.
End CallbackFacts.
