(* ===== verification/JsonDocument.v ===== *)
(** * The documents in memory

    The six builders of [packages/pahomqtt-v1.1.0/samples/mqtt_sample.c]
    ([mqtt_get_sync_datas], [mqtt_get_environment_datas], [mqtt_get_device_status],
    [mqtt_get_dev_response], [mqtt_get_thresholds_response], [mqtt_get_alarm_info]) and the
    [Publish_] functions around them, on the memory of [JsonStore] and with the printer of
    [JsonPrinter]: whatever the allocator answers, what is left when they return. The text
    they make is that of the trees of [MqttApp]. The send buffer has no terminating NUL. *)

From stdpp Require Import base numbers list gmap strings.
From Stdlib Require Import ZArith Lia Floats.SpecFloat.
From S2P Require Import Prelude CFloat DataUpload Json JsonFormat JsonStore JsonPrinter MqttApp.

Open Scope Z_scope.

(** ** The builders *)

(** What a member is given: a number, a string or a truth value. *)
Inductive value : Type :=
  | VNumber (n : Z)
  | VString (s : option bytes)
  | VBool (b : bool).

Section Builders.
Context `{Allocator}.

(** The call that adds it; what it returns is not looked at. *)
Definition add_member (root : option loc) (member : bytes * value) : M store unit :=
  match member with
  | (k, VNumber n) => cJSON_AddNumberToObject root (Some k) (of_Z binary64 n) ;;; ret tt
  | (k, VString s) => cJSON_AddStringToObject root (Some k) s ;;; ret tt
  | (k, VBool b) => cJSON_AddBoolToObject root (Some k) b ;;; ret tt
  end.

(** A builder, from the creation of the root on: the answer and [*out_buff]. The copy has
    no NUL behind it. *)
Definition build (members : list (bytes * value)) : M store (Z * option loc) :=
  root <- cJSON_CreateObject ;;
  match root with
  | None => ret (- RT_ENOMEM, None)
  | Some _ =>
      for_each members (add_member root) ;;;
      msg_str <- JsonPrinter.cJSON_PrintUnformatted root ;;
      match msg_str with
      | None => cJSON_Delete root ;;; ret (- RT_ENOMEM, None)
      | Some m =>
          text <- read_chars (Allocated m) ;;
          out_buff <- allocate (Unterminated text) ;;
          match out_buff with
          | None => ret (- RT_ENOMEM, None)
          | Some b => cJSON_Delete root ;;; deallocate m ;;; ret (RT_EOK, Some b)
          end
      end
  end.

Definition sync_members (timestamp : option bytes) : list (bytes * value) :=
  [(str "type", VString (Some (str "all"))); (str "timestamp", VString timestamp)].
Definition environment_members (e : Environment_t) (timestamp : option bytes) : list (bytes * value) :=
  [(str "temperature", VNumber (temp e)); (str "humidity", VNumber (humi e)); (str "light", VNumber (light e));
   (str "smoke", VNumber (smoke e)); (str "timestamp", VString timestamp)].
Definition status_members (d : Devices_t) (timestamp : option bytes) : list (bytes * value) :=
  [(str "warningLight", VNumber (b2z (LED0_State d))); (str "fillLight", VNumber (b2z (LED1_State d)));
   (str "exhaustFan", VNumber (b2z (Relay_State d))); (str "alarm", VNumber (b2z (Beep_State d)));
   (str "emergencyDoor", VNumber (b2z (Door_State d))); (str "dht11Status", VNumber (b2z (DHT11_Sensor_State d)));
   (str "lightSensorStatus", VNumber (b2z (Light_Sensor_State d))); (str "timestamp", VString timestamp)].
Definition response_members (id : option bytes) (message : bytes) (timestamp : option bytes) : list (bytes * value) :=
  [(str "commandId", VString id); (str "success", VBool true); (str "message", VString (Some message));
   (str "timestamp", VString timestamp)].
Definition alarm_members (alarm_type actual threshold : Z) (timestamp : option bytes) : list (bytes * value) :=
  [(str "alarmType", VNumber alarm_type); (str "actualValue", VNumber actual);
   (str "thresholdValue", VNumber threshold); (str "timestamp", VString timestamp)].

(** What [rt_strlen] and the copy behind it find at the send buffer: its bytes, and what
    memory holds behind them up to the first NUL, [tail]. *)
Definition read_on (tail : bytes) (b : loc) : M store bytes :=
  s <- get ;; match mem s !! b with Some (Unterminated t) => ret (t ++ tail) | _ => raise UseAfterFree end.

(** A [Publish_] function, [mqtt_publish] answering what [send] says to the text it finds. *)
Definition publish (tail : bytes) (send : bytes -> Z) (members : list (bytes * value)) : M store Z :=
  r <- build members ;;
  let '(result, send_buffer) := r in
  match send_buffer with
  | None => ret result
  | Some b =>
      if result <? 0 then deallocate b ;;; ret result
      else text <- read_on tail b ;; deallocate b ;;; ret (send text)
  end.
End Builders.

(** ** The trees they stand for *)

Definition json_of (v : value) : option json :=
  match v with
  | VNumber n => Some (JNumber (of_Z binary64 n))
  | VString s => option_map JString s
  | VBool b => Some (if b then JTrue else JFalse)
  end.
(** A NULL string adds nothing. *)
Definition fields (members : list (bytes * value)) : list (bytes * json) :=
  omap (fun kv => option_map (pair kv.1) (json_of kv.2)) members.

Lemma documents e d id text t a h :
  JObject (fields (sync_members None)) = sync_doc /\
  JObject (fields (environment_members e None)) = environment_doc e /\
  JObject (fields (status_members d None)) = status_doc d /\
  JObject (fields (response_members id text None)) = response_doc id text /\
  JObject (fields (alarm_members t a h None)) = alarm_doc t a h.
Proof. repeat split. by destruct id. Qed.

(** ** What is left of memory *)

(** The members can be printed and read back. *)
Definition value_good (v : value) : Prop :=
  match v with
  | VNumber n => int_range n
  | VString (Some s) => Forall char_ok s
  | _ => True
  end.
Definition good (members : list (bytes * value)) : Prop :=
  Forall (fun kv => Forall char_ok kv.1 /\ value_good kv.2) members.

Lemma Forall_sublist {A} (P : A -> Prop) l k : sublist l k -> Forall P k -> Forall P l.
Proof. intros Hs. induction Hs; intros Hk; [done| |]; apply Forall_cons in Hk as [? ?]; auto. Qed.

Lemma fields_cons k v l :
  fields ((k, v) :: l) = (match json_of v with Some j => [(k, j)] | None => [] end) ++ fields l.
Proof. unfold fields. cbn. by destruct (json_of v). Qed.

Lemma value_printable v j : value_good v -> json_of v = Some j -> printable j.
Proof. destruct v as [n|[t|]|[]]; cbn; intros Hv [= <-]; by constructor. Qed.

Lemma good_fields members :
  good members -> Forall (fun kv => Forall char_ok kv.1 /\ printable kv.2) (fields members).
Proof.
  intros Hg. induction Hg as [|[k v] l [Hk Hv] _ IH]; [constructor|]. rewrite fields_cons. apply Forall_app. split; [|done].
  destruct (json_of v) as [j|] eqn:E; [|done]. constructor; [|done]. split; [done|by eapply value_printable].
Qed.

Lemma good_printable members kvs : good members -> sublist kvs (fields members) -> printable (JObject kvs).
Proof. intros Hg Hs. constructor. eapply Forall_sublist; [exact Hs|by apply good_fields]. Qed.

Lemma print_sublist kvs l W w :
  sublist kvs l -> Json.print_members l = Some W -> Json.print_members kvs = Some w -> (length w <= length W)%nat.
Proof.
  intros Hs. revert W w. induction Hs as [|[k v] kvs l Hs IH|[k v] kvs l Hs IH]; intros W w HW Hw.
  - by rewrite HW in Hw; injection Hw as <-.
  - cbn [Json.print_members] in HW, Hw. destruct (Json.print_value v) as [s|]; [|done].
    destruct (Json.print_members l) as [t|] eqn:Et; [|done]. destruct (Json.print_members kvs) as [t'|] eqn:Et'; [|done].
    apply (inj Some) in HW as <-. apply (inj Some) in Hw as <-. specialize (IH t t' eq_refl eq_refl).
    rewrite !length_app. destruct kvs, l; cbn [length]; try lia. inversion Hs.
  - cbn [Json.print_members] in HW. destruct (Json.print_value v) as [s|]; [|done].
    destruct (Json.print_members l) as [t|] eqn:Et; [|done]. apply (inj Some) in HW as <-.
    specialize (IH t w eq_refl Hw). rewrite !length_app. lia.
Qed.

Section Memory.
Context `{Allocator}.

(** The root of a document, with the members that could be allocated. *)
Definition grown (o : loc) (d : payload) (members : list (bytes * value)) (m : gmap loc block) (F : list (loc * block)) : Prop :=
  exists ks kvs, Forall2 is_member ks kvs /\ Forall sound ks /\ sublist kvs (fields members) /\
    (refused \/ kvs = fields members) /\ owns m (cells None None (Tree o d ks) ++ F).

Lemma add_null_string o k s (Q : option loc -> store -> Prop) F :
  owns (mem s) F -> (forall s', owns (mem s') F -> Q None s') ->
  wp (cJSON_AddStringToObject (Some o) (Some k) None) s Q.
Proof.
  intros Ho HQ. unfold cJSON_AddStringToObject, add_created. apply wp_bind.
  eapply wp_create_text; [done|exact Ho|done|]. intros s1 _ Ho1. apply wp_bind. apply wp_ret, wp_bind.
  unfold cJSON_Delete. apply wp_bind, wp_get. destruct (size (mem s1)); by apply wp_ret, wp_ret, HQ.
Qed.

Lemma add_member_spec o d done_ k v s F (Q : unit -> store -> Prop) :
  value_good v -> grown o d done_ (mem s) F ->
  (forall s', grown o d (done_ ++ [(k, v)]) (mem s') F -> Q tt s') -> wp (add_member (Some o) (k, v)) s Q.
Proof.
  intros Hv (ks & kvs & Hks & Hso & Hsub & Hall & Ho) HQ.
  assert (fields (done_ ++ [(k, v)]) = fields done_ ++ fields [(k, v)]) as Ef by apply omap_app.
  assert (forall c j, json_of v = Some j -> Creates c j -> wp (add_created (Some o) (Some k) c ;;; ret tt) s Q) as Hadd.
  { intros c j Ej Hc. assert (fields [(k, v)] = [(k, j)]) as E1 by (by rewrite fields_cons, Ej). apply wp_bind. eapply add_created_spec; [exact Hc|exact Ho| |].
    - intros p t s' _ Ht Hst Ho'. apply wp_ret, HQ. exists (ks ++ [t]), (kvs ++ [(k, j)]). rewrite Ef, E1.
      split_and!; [by apply Forall2_app; [|constructor]|by apply Forall_app_2; [|constructor]|by apply sublist_app| |done].
      destruct Hall as [Hr| ->]; auto.
    - intros s' Hr Ho'. apply wp_ret, HQ. exists ks, kvs. rewrite Ef. split_and!; [done|done| |auto|done].
      by apply sublist_inserts_r. }
  destruct v as [n|[t|]|b]; cbn [add_member].
  - eapply Hadd; [reflexivity|]. eapply number_creates, saturate_of_Z, Hv.
  - eapply Hadd; [reflexivity|]. apply string_creates.
  - apply wp_bind. eapply add_null_string; [exact Ho|]. intros s' Ho'. apply wp_ret, HQ. exists ks, kvs.
    rewrite Ef. change (fields [(k, VString None)]) with (@nil (bytes * json)). by rewrite app_nil_r.
  - eapply Hadd; [reflexivity|]. apply bool_creates.
Qed.

Lemma add_members_spec o d before members s F (Q : unit -> store -> Prop) :
  Forall (fun kv => value_good kv.2) members -> grown o d before (mem s) F ->
  (forall s', grown o d (before ++ members) (mem s') F -> Q tt s') -> wp (for_each members (add_member (Some o))) s Q.
Proof.
  intros Hg. revert before s. induction Hg as [|[k v] l Hv _ IH]; intros before s Hb HQ; cbn [for_each].
  - apply wp_ret, HQ. by rewrite app_nil_r.
  - apply wp_bind. eapply add_member_spec; [exact Hv|exact Hb|]. intros s' Hb'. eapply IH; [exact Hb'|].
    by rewrite <- app_assoc.
Qed.

Lemma grown_tree o d members m F :
  grown o d members m F -> kind d = cJSON_Object -> owned d ->
  exists t kvs, root t = o /\ is_json t (JObject kvs) /\ sound t /\ sublist kvs (fields members) /\
    (refused \/ kvs = fields members) /\ owns m (cells None None t ++ F).
Proof.
  intros (ks & kvs & Hks & Hso & Hsub & Hall & Ho) Hk Hd. exists (Tree o d ks), kvs.
  split_and!; [done|by apply is_object|by constructor|done|done|done].
Qed.

(** How a builder leaves memory: with the text of what it was given, or of what could be
    allocated of it, beside what was there; or as it was; or, when its last request, the
    one for the copy, was refused, with its tree and the text of that left over. An
    allocator that refuses no request leaves only the whole text. *)
Definition leaked (members : list (bytes * value)) (F : list (loc * block)) (s' : store) : Prop :=
  exists n t kvs msg_str w, requests s' = S n /\ refuses n = true /\
    is_json t (JObject kvs) /\ sublist kvs (fields members) /\
    Json.cJSON_PrintUnformatted (JObject kvs) = Some w /\
    owns (mem s') ((msg_str, Text w) :: cells None None t ++ F).
Definition built (members : list (bytes * value)) (F : list (loc * block)) (r : Z * option loc) (s' : store) : Prop :=
  match r with
  | (rc, Some b) => rc = RT_EOK /\ exists kvs w, sublist kvs (fields members) /\ (refused \/ kvs = fields members) /\
      Json.cJSON_PrintUnformatted (JObject kvs) = Some w /\ owns (mem s') ((b, Unterminated w) :: F)
  | (rc, None) => rc = - RT_ENOMEM /\ (refused /\ owns (mem s') F \/ leaked members F s')
  end.

Lemma build_leaves members W s F :
  good members -> Json.cJSON_PrintUnformatted (JObject (fields members)) = Some W ->
  Z.of_nat (length W) + 8 <= INT_MAX -> owns (mem s) F -> wp (build members) s (built members F).
Proof.
  intros Hg HW Hmax Ho. unfold build. apply wp_bind. eapply wp_create; [exact Ho| |].
  2: { intros s1 Hr Ho1. apply wp_ret. split; auto. }
  clear s Ho. intros o s Ho. apply wp_bind.
  eapply (add_members_spec o (plain cJSON_Object) []).
  { eapply Forall_impl; [exact Hg|]. by intros kv [_ Hv]. }
  { exists [], []. split_and!; [done|done|constructor|by right|exact Ho]. }
  clear s Ho. cbn [app]. intros s Hgr. apply grown_tree in Hgr as (t & kvs & <- & Hj & Hso & Hsub & Hall & Ho); [|done|done].
  pose proof (good_printable _ _ Hg Hsub) as Hpr. destruct (prints _ Hpr) as [w Hw].
  assert (length w <= length W)%nat as Hlen.
  { unfold Json.cJSON_PrintUnformatted in HW. rewrite print_object in HW, Hw.
    destruct (Json.print_members (fields members)) as [X|] eqn:EX; [|done]. destruct (Json.print_members kvs) as [x|] eqn:Ex; [|done].
    apply (inj Some) in HW as <-. apply (inj Some) in Hw as <-. pose proof (print_sublist _ _ _ _ Hsub EX Ex). cbn [length]. lia. }
  apply wp_bind. eapply wp_mono.
  { eapply (print_spec t (JObject kvs) None None false w); [done|done|exact Hw|lia|exact Ho]. }
  intros [msg|] s1; cbn beta iota.
  - clear s Ho. intros Ho. apply wp_bind. apply (wp_read_chars (Own msg w) _ _ (cells None None t ++ F) _ Ho); [done|].
    apply wp_bind. cbn [text_bytes]. eapply wp_allocate_last; [exact Ho| |].
    + clear s1 Ho. intros b s Ho. apply wp_bind.
      apply (wp_delete None t s _ ((b, Unterminated w) :: (msg, Text w) :: F)); [done|same_blocks Ho|]. clear s Ho. intros s Ho.
      apply wp_bind. apply (wp_deallocate msg (Text w) ((b, Unterminated w) :: F) _ _ _ Ho); [solve_Permutation|]. intros s2 Ho2.
      apply wp_ret. split; [done|]. by exists kvs, w.
    + intros s2 Hn Hr Ho2. apply wp_ret. split; [done|]. right. by exists (requests s1), t, kvs, msg, w.
  - intros [Ho1 Hr]. apply wp_bind. apply (wp_delete None t s1 _ F); [done|done|]. intros s2 Ho2. apply wp_ret. split; auto.
Qed.
End Memory.

Lemma local_for_each {X : Type} (l : list X) (body : Allocator -> X -> M store unit) :
  (forall x, local (fun A => body A x)) -> local (fun A => for_each l (body A)).
Proof. intros Hb. induction l as [|x l IH]; cbn [for_each]; local_auto. Qed.
Lemma local_add_member root member : local (fun A => add_member root member).
Proof.
  destruct member as [k [n|x|b]]; cbn [add_member]; apply local_bind.
  1: apply (local_add_created root (Some k) (fun A => cJSON_CreateNumber (of_Z binary64 n))), local_create_number.
  2: apply (local_add_created root (Some k) (fun A => cJSON_CreateString x)), local_create_text.
  3: apply (local_add_created root (Some k) (fun A => cJSON_CreateBool b)), local_create.
  all: intros ?; apply local_ret.
Qed.
Lemma local_read_on tail b : local (fun _ => read_on tail b).
Proof.
  apply local_const. intros s a s' E. unfold read_on, bind, get, ret, raise in E. repeat case_match; simplify_eq; done.
Qed.
Lemma local_members root members : local (fun A => for_each members (add_member root)).
Proof. apply (local_for_each members (fun A => add_member root)). intros x. apply local_add_member. Qed.
Lemma local_create_object : local (fun A => cJSON_CreateObject).
Proof. apply local_create. Qed.
Lemma local_print_unformatted x : local (fun A => JsonPrinter.cJSON_PrintUnformatted x).
Proof. apply local_print. Qed.
#[export] Hint Resolve local_members local_create_object local_print_unformatted local_read_on : local_db.

Lemma local_build members : local (fun A => build members).
Proof. unfold build. local_auto. Qed.
#[export] Hint Resolve local_build : local_db.
Lemma local_publish tail send members : local (fun A => publish tail send members).
Proof. unfold publish. local_auto. Qed.

(** How a [Publish_] function ends, [refusal s'] saying that a request was refused. *)
Definition published (refusal : store -> Prop) (leak : store -> Prop) (tail : bytes) (send : bytes -> Z)
    (members : list (bytes * value)) (F : list (loc * block)) (rc : Z) (s' : store) : Prop :=
  (exists kvs w, sublist kvs (fields members) /\ (refusal s' \/ kvs = fields members) /\
      Json.cJSON_PrintUnformatted (JObject kvs) = Some w /\ rc = send (w ++ tail) /\ owns (mem s') F) \/
  (rc = - RT_ENOMEM /\ (refusal s' /\ owns (mem s') F \/ leak s')).

Lemma publish_ends `{Allocator} tail send members W s F :
  good members -> Json.cJSON_PrintUnformatted (JObject (fields members)) = Some W ->
  Z.of_nat (length W) + 8 <= INT_MAX -> owns (mem s) F ->
  exists rc s', publish tail send members s = Ok (rc, s') /\
    published (fun _ => refused) (leaked members F) tail send members F rc s'.
Proof.
  intros Hg HW Hmax Ho. apply wp_total. unfold publish. apply wp_bind. eapply wp_mono; [by eapply build_leaves|].
  intros [rc [b|]] s1; cbn [built].
  - intros (-> & kvs & w & Hs & Ha & Hw & Ho1). cbn [Z.ltb Z.compare RT_EOK]. apply wp_bind.
    unfold read_on. apply wp_bind, wp_get. rewrite (owns_lookup _ _ _ _ Ho1). apply wp_ret, wp_bind.
    eapply wp_deallocate; [exact Ho1|reflexivity|]. intros s2 Ho2. apply wp_ret. left. by exists kvs, w.
  - intros [-> Hl]. apply wp_ret. by right.
Qed.

(** C36. No way through a publication faults, and only one loses memory. Whatever the
    allocator answers, whatever else it holds, a [Publish_] function of the sample returns:
    it has handed on the text of its document, or, if one of its own requests was refused,
    of a part of its members, followed by what memory holds behind the send buffer up to
    the first NUL (the buffer has none), and memory is as it was; or it reports that there
    is no memory, one of its requests having been refused, and memory is as it was; or it
    reports so because its last request, the one for the copy of the text, was refused, and
    memory keeps the tree of its document, or of a part of its members, and the text of that tree. *)
Theorem publication_memory `{Allocator} (tail : bytes) (send : bytes -> Z) (members : list (bytes * value)) (W : bytes)
    (s : store) (F : list (loc * block)) :
  good members -> Json.cJSON_PrintUnformatted (JObject (fields members)) = Some W ->
  Z.of_nat (length W) + 8 <= INT_MAX -> owns (mem s) F ->
  exists rc s', publish tail send members s = Ok (rc, s') /\
    ((exists kvs w, sublist kvs (fields members) /\ (refused_between s s' \/ kvs = fields members) /\
        Json.cJSON_PrintUnformatted (JObject kvs) = Some w /\ rc = send (w ++ tail) /\ owns (mem s') F) \/
     (rc = - RT_ENOMEM /\
        ((refused_between s s' /\ owns (mem s') F) \/
         exists n t kvs msg_str w, (requests s <= n)%nat /\ requests s' = S n /\ refuses n = true /\
           is_json t (JObject kvs) /\ sublist kvs (fields members) /\
           Json.cJSON_PrintUnformatted (JObject kvs) = Some w /\
           owns (mem s') ((msg_str, Text w) :: cells None None t ++ F)))).
Proof.
  intros Hg HW Hmax Ho. rename H into A.
  destruct (@publish_ends A tail send members W s F Hg HW Hmax Ho) as (rc & s' & E & _).
  exists rc, s'. split; [exact E|]. destruct (local_publish tail send members A s rc s' E) as [_ N].
  specialize (N (requests s) (requests s') (le_n _) (le_n _)).
  destruct (@publish_ends (narrowed A (requests s) (requests s')) tail send members W s F Hg HW Hmax Ho) as (rc2 & s2 & E2 & P).
  rewrite N in E2. injection E2 as <- <-. destruct P as [(kvs & w & Hs & Ha & Hp)|[-> [[Hr Ho']|Hl]]].
  - left. exists kvs, w. split; [done|]. split; [|done]. destruct Ha as [Hr|Ha]; [left; by apply narrowed_refused|by right].
  - right. split; [done|]. left. split; [by apply narrowed_refused|done].
  - right. split; [done|]. right. destruct Hl as (n & t & kvs & msg & w & En & Hn & Hl).
    apply narrowed_refuses in Hn as [Hn Hr]. exists n, t, kvs, msg, w. split; [lia|]. by split.
Qed.

(** An allocator that refuses the requests of a list. *)
#[refine] Definition refusing (l : list nat) : Allocator :=
  {| refuses n := bool_decide (n ∈ l); place _ live := fresh live |}.
Proof. intros n live. apply is_fresh. Defined.

(** The report of a controller whose allocator refuses the twelfth request; three bytes lie
    behind the send buffer. *)
Lemma publication_memory_witness :
  let A := refusing [11%nat] in let s := mk_store ∅ 0 in
  let members := environment_members (Environment 25 60 300 80) None in
  exists rc s', publish [35; 7; 36] (fun w => Z.of_nat (length w)) members s = Ok (rc, s') /\
    (rc <> - RT_ENOMEM -> exists kvs w, sublist kvs (fields members) /\
        Json.cJSON_PrintUnformatted (JObject kvs) = Some w /\ rc = Z.of_nat (length (w ++ [35; 7; 36])) /\ owns (mem s') []).
Proof.
  intros A s members.
  destruct (publication_memory [35; 7; 36] (fun w => Z.of_nat (length w)) members
    (default [] (Json.cJSON_PrintUnformatted (JObject (fields members)))) s []) as (rc & s' & E & P).
  - repeat constructor; unfold int_range, char_ok, INT_MIN, INT_MAX; cbn; try lia.
  - vm_compute. reflexivity.
  - vm_compute. discriminate.
  - split; [constructor|done].
  - exists rc, s'. split; [exact E|]. intros Hrc. destruct P as [(kvs & w & H1 & _ & H2 & H3 & H4)|[H1 _]]; [|by destruct Hrc].
    exists kvs, w. split; [exact H1|]. split; [exact H2|]. split; [exact H3|exact H4].
Defined.

(** The allocator refusing the copy only, nothing of the sync request is freed: the root,
    its member with two strings, and the text. *)
Theorem copy_refused :
  let A := refusing [7%nat] in
  exists s', build (sync_members None) (mk_store ∅ 0) = Ok (- RT_ENOMEM, None, s') /\ size (mem s') = 5%nat.
Proof. eexists. split; [by vm_compute|]. by vm_compute. Qed.

(** A member refused is not reported: the report goes out without it. *)
Theorem member_missing :
  let A := refusing [4%nat] in
  exists b s' w, build (environment_members (Environment 25 60 300 80) None) (mk_store ∅ 0) = Ok (RT_EOK, Some b, s') /\
    mem s' !! b = Some (Unterminated w) /\
    Json.cJSON_PrintUnformatted (JObject [(str "temperature", num 25); (str "light", num 300); (str "smoke", num 80)]) = Some w.
Proof. eexists _, _, _. split_and!; by vm_compute. Qed.
