(* ===== verification/Session.v ===== *)
(** * Starting a session

    The first part of the worker thread of
    [packages/pahomqtt-v1.1.0/MQTTClient-RT/paho_mqtt_pipe.c] under the callbacks of
    [mqtt_sample.c]: connecting, subscribing to the three topics of the controller, and
    asking the server for synchronisation ([session_starts]). *)

From stdpp Require Import base numbers list strings.
From Stdlib Require Import ZArith Lia.
From S2P Require Import Prelude CFloat Json DataUpload Actuators MqttPacket MqttClient MqttApp.

Open Scope Z_scope.

Abbreviation client_t := (mqtt_client mqtt_cb).
Implicit Types c : client_t.

(** The broker's acceptance. *)
Definition connack_packet : bytes := [32; 2; 0; 0].

(** An allocation that succeeds. *)
Lemma wp_malloc c (Q : bool -> client_t -> Prop) :
  Forall (fun ok => ok = true) (mallocs c) ->
  (forall l, Forall (fun ok => ok = true) l -> Q true (set_mallocs l c)) -> wp malloc_ok c Q.
Proof.
  intros Hc HQ. unfold malloc_ok. wp_steps. destruct (mallocs c) as [|ok l] eqn:E.
  - wp_steps. replace c with (set_mallocs (mallocs c) c) by (by destruct c). rewrite E. by apply HQ.
  - apply Forall_cons in Hc as [-> Hl]. wp_steps. by apply HQ.
Qed.

(** A client configured by [mqtt_start], on a network that accepts what it sends. *)
Record ready_to_connect (tick : Z) c : Prop := {
  rc_connected : isconnected c = false;
  rc_condata : condata c = start_condata tick;
  rc_mallocs : Forall (fun ok => ok = true) (mallocs c);
  rc_sizes : buf_size c = 1024 /\ readbuf_size c = 1024;
  rc_readbuf : length (readbuf c) = 1024%nat;
  rc_junk : let '(_, id, _) := stack_junk c in 0 <= id < 65536;
  rc_send : sock_send c = [];
  rc_nonblocking : isblocking c = false
}.

(** The descriptor the client uses, and those it has open. *)
Definition sockets c : option Z * list Z := (sock (env c), open_socks (env c)).

(** [c'] is a connected client after [c] sent [ps]. *)
Definition sends (ps : list bytes) c c' : Prop :=
  client_ok c' /\ sock_send c' = [] /\ sent c' = sent c ++ ps /\ pub_pipe c' = pub_pipe c /\
  stack_junk c' = stack_junk c /\ sockets c' = sockets c.

Lemma connect_packet tick : exists packet, MQTTSerialize_connect 1024 (start_condata tick) = inr packet.
Proof.
  set (id := take 19 (str "rtthread" ++ sprintf_d (i32 tick))).
  assert (length id <= 19)%nat as Hid by (unfold id; rewrite length_take; lia).
  assert (MQTTSerialize_connectLength (start_condata tick) = 10 + (Z.of_nat (length id) + 2) + 20 + 7 + 7) as El by done.
  unfold MQTTSerialize_connect. rewrite El, (proj2 (Z.ltb_ge 1024 _)); [by eexists|].
  unfold MQTTPacket_len. repeat case_match; lia.
Qed.

(** The connection: the packet goes out, the broker accepts; [rest] comes after that. *)
Lemma connect_spec tick packet rest c :
  ready_to_connect tick c -> sock_recv c = stream (connack_packet ++ rest) ->
  MQTTSerialize_connect 1024 (start_condata tick) = inr packet ->
  wp MQTTConnect c (fun rc c' => rc = 0 /\ sends [packet] c c' /\ messageHandlers c' = messageHandlers c /\
    next_packetid c' = next_packetid c /\ sock_recv c' = stream rest).
Proof.
  intros [Hc Hd Hm [Hs Hr] Hrb Hj Hsend Hnb] Hrecv Hp. unfold MQTTConnect. wp_step. unfold get at 1, wp at 1.
  rewrite Hc, Hd, Hs, Hp. wp_steps.
  unfold sendPacket. wp_step. unfold get at 1, wp at 1. rewrite Hsend. wp_steps. cbn [negb Z.eqb].
  wp_steps. unfold select_readable. wp_steps. cbn [sock_recv set_net]. rewrite Hrecv.
  change (bool_decide (stream (connack_packet ++ rest) = [])) with false. cbn [negb].
  set (c1 := set_net _ _ _ c).
  assert (c1 = with_stream c1 (32 :: MQTTPacket_encode 2 ++ [0; 0] ++ rest)) as Ec.
  { unfold c1. by destruct c. }
  wp_steps. unfold wp at 1. rewrite Ec, readPacket_rest; [|done|done|change (readbuf c1) with (readbuf c); rewrite Hrb; change (length (32 :: MQTTPacket_encode 2 ++ [0; 0])) with 4%nat; lia].
  change (hdr_type 32) with CONNACK. cbn [Z.ltb Z.compare CONNACK Z.eqb Pos.eqb]. wp_steps.
  unfold on_readbuf, wp at 1. cbn [readbuf with_stream set_net set_readbuf].
  match goal with |- context [MQTTDeserialize_connack ?b 0] => assert (MQTTDeserialize_connack b 0 = Ok ((1, Some (0, 0)), 4)) as -> by done end.
  wp_steps. cbn [Z.eqb when]. wp_steps. split; [done|]. split; [|done]. split; [|done].
  split; [done|done|done| |done|done]. cbn [readbuf set_session with_stream set_net set_readbuf].
  change (readbuf c1) with (readbuf c). rewrite length_app, length_drop, Hrb. done.
Qed.

(** A subscription packet for one topic. *)
Definition subscribe_packet (id : Z) (topic packet : bytes) : Prop :=
  MQTTSerialize_subscribe 1024 0 (u16 id) [(c_str topic, QOS1)] = inr packet.

Lemma subscribe_packet_exists id topic : (length topic <= 64)%nat -> exists packet, subscribe_packet id topic packet.
Proof.
  intros Hlen. unfold subscribe_packet, MQTTSerialize_subscribe, MQTTSerialize_subscribeLength. cbn [fmap list_fmap foldl fst].
  unfold MQTTstrlen. cbn [cstring c_str]. rewrite (proj2 (Z.ltb_ge 1024 _)); [by eexists|].
  unfold MQTTPacket_len. repeat case_match; lia.
Qed.

(** [getNextPacketId]. *)
Definition next_id (id : Z) : Z := if id =? MAX_PACKET_ID then 1 else id + 1.

Lemma subscribe_spec topic cb c i :
  client_ok c -> sock_send c = [] -> subscribed (messageHandlers c) topic = false ->
  free_slot (messageHandlers c) 0 = Some i -> (length topic <= 64)%nat ->
  wp (paho_mqtt_subscribe QOS1 topic (Some cb)) c (fun rc c' => rc = PAHO_SUCCESS /\
    messageHandlers c' = <[i := Handler (Some topic) (Some cb) QOS1]> (messageHandlers c) /\
    next_packetid c' = next_id (next_packetid c) /\
    exists packet, subscribe_packet (next_id (next_packetid c)) topic packet /\ sends [packet] c c').
Proof.
  intros Hc Hsend Hsub Hfree Hlen. unfold paho_mqtt_subscribe. cbn [negb Z.eqb Pos.eqb QOS1].
  wp_step. unfold get at 1, wp at 1. rewrite Hsub, Hfree. destruct Hc as [Hconn Hm [Hs Hr] Hrb Hj Hnb].
  unfold getNextPacketId. wp_steps. cbn [next_packetid set_session]. fold (next_id (next_packetid c)).
  set (id := next_id (next_packetid c)). destruct (subscribe_packet_exists id topic Hlen) as [packet Hp].
  rewrite Hs. pose proof Hp as Hp'. unfold subscribe_packet in Hp'. rewrite Hp'.
  wp_steps. unfold sendPacket. wp_step. unfold get at 1, wp at 1. cbn [sock_send set_session]. rewrite Hsend. wp_steps.
  cbn [negb Z.eqb PAHO_SUCCESS]. wp_steps. apply wp_malloc; [done|]. intros l Hl. wp_steps. split; [done|].
  split; [done|]. split; [done|]. exists packet. split; [done|]. by split.
Qed.

Lemma sends_trans ps1 ps2 c1 c2 c3 : sends ps1 c1 c2 -> sends ps2 c2 c3 -> sends (ps1 ++ ps2) c1 c3.
Proof.
  intros (_ & _ & E1 & P1 & J1 & K1) (Hc & Hs & E2 & P2 & J2 & K2). unfold sends. split_and!; try done; try congruence.
  by rewrite E2, E1, app_assoc.
Qed.

(** The handlers of the three topics, and the packets that subscribe to them. *)
Definition app_handlers : list (handler mqtt_cb) :=
  [Handler (Some MQTT_SYNC_SUBTOPIC) (Some mqtt_sync_callback_h) QOS1;
   Handler (Some MQTT_DEVICE_SUBTOPIC) (Some mqtt_dev_control_callback_h) QOS1;
   Handler (Some MQTT_THRESHOLD_SUBTOPIC) (Some mqtt_thresholds_callback_h) QOS1].

Definition no_handlers : list (handler mqtt_cb) := replicate 3 (Handler None None 0).

(** The three subscriptions, with the packet identifiers 1 to 3. *)
Definition subscriptions (p1 p2 p3 : bytes) : Prop :=
  subscribe_packet 1 MQTT_SYNC_SUBTOPIC p1 /\ subscribe_packet 2 MQTT_DEVICE_SUBTOPIC p2 /\
  subscribe_packet 3 MQTT_THRESHOLD_SUBTOPIC p3.

(** A client's step inside the application. *)
Definition only_client (m m' : mqtt) : Prop :=
  is_started m' = is_started m /\ at_null m' = at_null m /\ tails m' = tails m /\ UUID m' = UUID m.

Lemma app_subscribe_spec topic cb i m :
  is_started m = true -> client_ok (m_client m) -> sock_send (m_client m) = [] ->
  subscribed (messageHandlers (m_client m)) topic = false ->
  free_slot (messageHandlers (m_client m)) 0 = Some i -> (length topic <= 64)%nat ->
  wp (mqtt_subscribe topic cb) m (fun rc m' => only_client m m' /\
    messageHandlers (m_client m') = <[i := Handler (Some topic) (Some cb) QOS1]> (messageHandlers (m_client m)) /\
    next_packetid (m_client m') = next_id (next_packetid (m_client m)) /\
    exists packet, subscribe_packet (next_id (next_packetid (m_client m))) topic packet /\ sends [packet] (m_client m) (m_client m')).
Proof.
  intros Hst Hc Hs Hsub Hfree Hlen. unfold mqtt_subscribe, on_client. wp_step. unfold get at 1, wp at 1. rewrite Hst.
  apply wp_zoom. eapply wp_mono; [by apply subscribe_spec|]. cbn beta. intros rc c' (_ & Hh & Hp). by split.
Qed.

Lemma sub_init_spec m :
  is_started m = true -> client_ok (m_client m) -> sock_send (m_client m) = [] ->
  messageHandlers (m_client m) = no_handlers -> next_packetid (m_client m) = 0 ->
  wp mqtt_sub_init m (fun _ m' => only_client m m' /\ messageHandlers (m_client m') = app_handlers /\
    exists p1 p2 p3, subscriptions p1 p2 p3 /\ sends [p1; p2; p3] (m_client m) (m_client m')).
Proof.
  intros Hst Hc Hs Hh Hid. unfold mqtt_sub_init. wp_steps.
  eapply wp_mono; [apply (app_subscribe_spec _ _ 0); rewrite ?Hh; (done || (vm_compute; lia))|]. cbn beta.
  intros _ m1 ((St1 & N1 & T1 & U1) & H1 & I1 & p1 & P1 & S1). rewrite Hh in H1. rewrite Hid in I1, P1. wp_steps.
  eapply wp_mono; [apply (app_subscribe_spec _ _ 1); rewrite ?H1; (apply S1 || congruence || (vm_compute; lia) || done)|]. cbn beta.
  intros _ m2 ((St2 & N2 & T2 & U2) & H2 & I2 & p2 & P2 & S2). rewrite H1 in H2. rewrite I1 in I2, P2. wp_steps.
  eapply wp_mono; [apply (app_subscribe_spec _ _ 2); rewrite ?H2; (apply S2 || congruence || (vm_compute; lia) || done)|]. cbn beta.
  intros _ m3 ((St3 & N3 & T3 & U3) & H3 & I3 & p3 & P3 & S3). rewrite H2 in H3. rewrite I2 in P3. wp_steps.
  split; [unfold only_client; split_and!; congruence|]. split; [done|].
  exists p1, p2, p3. split; [by split_and!|].
  apply (sends_trans [p1] [p2; p3] _ _ _ S1), (sends_trans [p2] [p3] _ _ _ S2 S3).
Qed.

(** C7. Starting a session: on a configured client whose network connects, a broker that
    accepts, and enough memory, the worker sends exactly the connection packet and the
    three subscriptions, numbered from 1, registers the three callbacks under their topics, and queues the
    request for synchronisation; it then serves the session. *)
Theorem session_starts tick m :
  ready_to_connect tick (m_client m) -> sock_recv (m_client m) = [RecvData connack_packet] ->
  messageHandlers (m_client m) = no_handlers -> is_started m = true -> at_null m = [] ->
  wp (thread_start mqtt_online_callback true) m (fun t m' => t = Continue /\ mqtt_ok m' /\
    messageHandlers (m_client m') = app_handlers /\
    (exists p0 p1 p2 p3, MQTTSerialize_connect 1024 (start_condata tick) = inr p0 /\ subscriptions p1 p2 p3 /\
      sent (m_client m') = sent (m_client m) ++ [p0; p1; p2; p3]) /\
    exists text, cJSON_PrintUnformatted sync_doc = Some text /\
      pub_pipe (m_client m') = pub_pipe (m_client m) ++
        frame (stack_junk (m_client m)) MQTT_SYNC_PUBTOPIC (text ++ hd [] (tails m))).
Proof.
  intros Hr Hrecv Hh Hst Hn. destruct (connect_packet tick) as [p0 Hp0].
  unfold thread_start, client, net_connect. wp_steps. apply wp_zoom. wp_steps. cbn [negb]. wp_steps. apply wp_zoom. rewrite !view_over.
  eapply wp_mono; [eapply (connect_spec tick p0 []); [by destruct Hr|exact Hrecv|done]|]. cbn beta.
  intros rc c1 (-> & S1 & H1 & I1 & _). cbn [negb Z.eqb].
  wp_steps. apply wp_zoom. unfold get, wp at 1. wp_steps. apply wp_zoom.
  cbn [view over mqtt_client_lens m_client]. assert (messageHandlers c1 = no_handlers) as H1' by (rewrite H1; exact Hh). rewrite H1'.
  unfold wp at 1. cbn [resubscribe no_handlers replicate topicFilter ret]. cbn [negb].
  unfold mqtt_online_callback. wp_steps.
  set (m1 := Mqtt c1 (is_started m) (UUID m) (at_null m) (tails m) (leaked m)).
  eapply wp_mono; [apply (sub_init_spec m1); [done|apply S1|apply S1|exact H1'|exact I1]|]. cbn beta.
  intros _ m2 ((St2 & N2 & T2 & U2) & H2 & p1 & p2 & p3 & P1 & S2). wp_steps.
  pose proof (sends_trans [p0] [p1; p2; p3] _ _ _ S1 S2) as (Hc2 & Hs2 & E2 & Pp2 & J2 & _).
  assert (mqtt_ok m2) as Hm2 by (split; [done|by rewrite N2]).
  eapply wp_mono; [by apply sync_request_spec|]. cbn beta. intros rc m3 [-> Ha]. wp_steps. split; [done|].
  pose proof (announced_ok _ _ _ _ Hm2 Ha) as Hm3. destruct Ha as (text & l & Ht & Hl & ->).
  split; [done|]. split; [done|]. split; [by exists p0, p1, p2, p3|].
  exists text. split; [done|]. cbn. by rewrite J2, Pp2, T2.
Qed.
