(* ===== verification/Worker.v ===== *)
(** * The client's worker thread

    [paho_mqtt_thread] of [packages/pahomqtt-v1.1.0/MQTTClient-RT/paho_mqtt_pipe.c] as a
    state machine: it connects, serves, and after a failure disconnects and starts again; the
    stop command ends it. [mqtt_resolve_uri] finds the server. A session lost is taken up
    again on a new socket, the old one being closed, with the subscriptions it had
    ([session_resumes]). *)

From stdpp Require Import base numbers list strings.
From Stdlib Require Import ZArith Lia.
From S2P Require Import Prelude CFloat Json DataUpload Actuators MqttPacket MqttClient MqttApp Session.

Open Scope Z_scope.

(** ** The server's address *)

(** [strstr] with a needle of one character: the characters before it. *)
Fixpoint before (c : Z) (l : bytes) : option nat :=
  match l with
  | [] => None
  | d :: l => if d =? c then Some O else option_map S (before c l)
  end.

Definition c_colon : Z := 58.
Definition c_open : Z := 91.
Definition c_close : Z := 93.

(** The host and the port of a URI "tcp://host:port" or "tcp://[host]:port"; TLS is not
    configured, so "ssl://" is refused. The port has one to five characters. *)
Definition mqtt_resolve_uri (uri : bytes) : option (bytes * bytes) :=
  if negb (bool_decide (take 6 uri = str "tcp://")) then None
  else
    let uri_len := Z.of_nat (length uri) in
    let host_addr := drop 6 uri in
    let ipv6 := match host_addr with c :: _ => c =? c_open | [] => false end in
    let host_addr := if ipv6 then drop 1 host_addr else host_addr in
    match before (if ipv6 then c_close else c_colon) host_addr with
    | None => None
    | Some n =>
        let host_addr_len := Z.of_nat n in
        if (host_addr_len <? 1) || (uri_len <? host_addr_len) then None
        else
          let port_len := uri_len - 6 - host_addr_len - (if ipv6 then 3 else 1) in
          if (6 <=? port_len) || (port_len <? 1) then None
          else Some (take n host_addr, take (Z.to_nat port_len) (drop (n + (if ipv6 then 2 else 1)) host_addr))
    end.

Definition MQTT_URI : bytes := str "tcp://192.168.170.226:1883".

Lemma before_app c l r : Forall (fun d => d <> c) l -> before c (l ++ c :: r) = Some (length l).
Proof.
  induction 1 as [|d l Hd _ IH]; cbn; [by rewrite Z.eqb_refl|]. by rewrite (proj2 (Z.eqb_neq d c)), IH by done.
Qed.

(** A host name or an address, and its port, are found again in the URI. *)
Lemma resolve_uri host port :
  host <> [] -> head host <> Some c_open -> Forall (fun d => d <> c_colon) host ->
  (1 <= length port <= 5)%nat ->
  mqtt_resolve_uri (str "tcp://" ++ host ++ c_colon :: port) = Some (host, port).
Proof.
  intros Hne Ho Hh Hp. unfold mqtt_resolve_uri. change (take 6 (str "tcp://" ++ host ++ c_colon :: port)) with (str "tcp://").
  rewrite bool_decide_true by done. cbn [negb]. change (drop 6 (str "tcp://" ++ host ++ c_colon :: port)) with (host ++ c_colon :: port).
  assert (match host ++ c_colon :: port with c :: _ => c =? c_open | [] => false end = false) as ->.
  { destruct host as [|d host]; [done|]. cbn. apply Z.eqb_neq. intros ->. by apply Ho. }
  rewrite before_app by done. rewrite !length_app. change (length (str "tcp://")) with 6%nat. cbn [length].
  assert (0 < length host)%nat by (destruct host; cbn; [done|lia]).
  rewrite (proj2 (Z.ltb_ge _ 1)), (proj2 (Z.ltb_ge _ _)) by lia. cbn [orb].
  rewrite (proj2 (Z.leb_gt 6 _)), (proj2 (Z.ltb_ge _ 1)) by lia. cbn [orb].
  rewrite take_app_length. f_equal. f_equal. rewrite drop_app_add. cbn [drop]. apply take_ge. lia.
Qed.

Lemma resolve_uri_v6 host port :
  host <> [] -> Forall (fun d => d <> c_close) host -> (1 <= length port <= 5)%nat ->
  mqtt_resolve_uri (str "tcp://" ++ c_open :: host ++ c_close :: c_colon :: port) = Some (host, port).
Proof.
  intros Hne Hh Hp. unfold mqtt_resolve_uri.
  change (take 6 (str "tcp://" ++ c_open :: host ++ c_close :: c_colon :: port)) with (str "tcp://").
  rewrite bool_decide_true by done. cbn [negb].
  change (drop 6 (str "tcp://" ++ c_open :: host ++ c_close :: c_colon :: port)) with (c_open :: host ++ c_close :: c_colon :: port).
  change (match c_open :: host ++ c_close :: c_colon :: port with c :: _ => c =? c_open | [] => false end) with true.
  cbv zeta iota. cbn [drop]. rewrite drop_0, before_app by done.
  rewrite length_app. cbn [length]. rewrite length_app. change (length (str "tcp://")) with 6%nat. cbn [length].
  assert (0 < length host)%nat by (destruct host; cbn; [done|lia]).
  rewrite (proj2 (Z.ltb_ge _ 1)), (proj2 (Z.ltb_ge _ _)) by lia. cbn [orb].
  rewrite (proj2 (Z.leb_gt 6 _)), (proj2 (Z.ltb_ge _ 1)) by lia. cbn [orb].
  rewrite take_app_length. f_equal. f_equal. rewrite drop_app_add. cbn [drop]. apply take_ge. lia.
Qed.

(** ** The thread *)

Section Thread.
Context {H S : Type} `{!Lens S (mqtt_client H)}.
Variable run : H -> message_data -> M S unit.
Variables connect_callback online_callback offline_callback : M S unit.

(** About to connect; in the loop; returned. *)
Inductive phase : Set := Starting | Serving | Exited.

Definition set_sockets (fd : option Z) (l : list Z) (c : mqtt_client H) : mqtt_client H :=
  set_env (Environ (rt_tick_get (env c)) (tick_ping (env c)) (mutex_takes (env c)) fd l) c.

(** [c->sock = -1]. *)
Definition forget_socket : M (mqtt_client H) unit := modify (fun c => set_sockets None (open_socks (env c)) c).
(** [c->sock = socket(...)]: the descriptor is open from now on. *)
Definition new_socket (fd : Z) : M (mqtt_client H) unit :=
  modify (fun c => set_sockets (Some fd) (open_socks (env c) ++ [fd]) c).
(** [closesocket]: what was not read is lost. *)
Definition close_socket (fd : Z) : M (mqtt_client H) unit :=
  modify (fun c => set_sockets (sock (env c)) (List.filter (fun d => negb (d =? fd)) (open_socks (env c)))
                     (set_net [] [] (sent c) c)).

(** What the name service and the network make of an attempt to connect: the name is not
    found; [socket] gives no descriptor; [connect] fails on the one it gives; or the
    connection stands, and this is what it will bring and how its first sends go. *)
Inductive connect_result : Type :=
  | Unresolved
  | NoSocket
  | Unreached (fd : Z)
  | Connected (fd : Z) (input : list recv_result) (output : list bool).

(** [net_connect], but for the packet identifiers ([MqttClient.net_connect]): its answer.
    Without a socket it is still what [mqtt_resolve_uri] answered, 0; the [send] of the
    connection packet to descriptor -1 then fails. *)
Definition open_socket (a : connect_result) : M (mqtt_client H) Z :=
  forget_socket ;;;
  match a with
  | Unresolved => ret (-1)
  | NoSocket => modify (fun c => set_net [] [false] (sent c) c) ;;; ret 0
  | Unreached fd => new_socket fd ;;; close_socket fd ;;; forget_socket ;;; ret (-2)
  | Connected fd input output => new_socket fd ;;; modify (fun c => set_net input output (sent c) c) ;;; ret 0
  end.

(** [net_disconnect]. *)
Definition net_disconnect : M (mqtt_client H) unit :=
  fd <- gets (fun c => sock (env c)) ;;
  match fd with
  | Some fd => close_socket fd ;;; forget_socket
  | None => ret tt
  end.

(** [net_disconnect_exit]: the handlers' names are freed with the buffers. *)
Definition net_disconnect_exit : M (mqtt_client H) unit :=
  net_disconnect ;;;
  modify (fun c => set_handlers (map (fun h => match topicFilter h with
                                               | Some _ => Handler None None (h_qos h)
                                               | None => h end) (messageHandlers c)) c) ;;;
  disconnected.

(** [_mqtt_restart]. *)
Definition mqtt_restart : M S phase :=
  offline_callback ;;;
  client net_disconnect ;;;
  ret Starting.

(** From [_mqtt_start] to the loop; [network] says what comes of connecting to a server. *)
Definition worker_start (uri : bytes) (network : bytes -> bytes -> connect_result) : M S phase :=
  connect_callback ;;;
  rc <- client (open_socket (match mqtt_resolve_uri uri with Some (host, port) => network host port | None => Unresolved end)) ;;
  t <- thread_start online_callback (rc =? 0) ;;
  match t with
  | Continue => client note_ping ;;; ret Serving
  | _ => mqtt_restart
  end.

(** One turn of the loop. *)
Definition worker_turn (r : ready) : M S phase :=
  t <- thread_turn run r ;;
  match t with
  | Continue => ret Serving
  | Disconnect => mqtt_restart
  | Exit => client net_disconnect_exit ;;; ret Exited
  end.
End Thread.

(** When [socket] fails, [net_connect] answers success all the same. *)
Lemma socket_failure_unnoticed {H : Type} (c : mqtt_client H) :
  wp (open_socket NoSocket) c (fun rc c' => rc = 0 /\ sock (env c') = None /\ open_socks (env c') = open_socks (env c)).
Proof. unfold open_socket, forget_socket. wp_steps. by split_and!. Qed.

(** What [paho_mqtt_control] sets. *)
Inductive mqtt_ctrl : Set := SetConnTimeo | SetReconnInterval | SetKeepaliveInterval | PublishBlock | OtherCtrl.
Record mqtt_options : Set := MqttOptions {
  connect_timeout : Z; reconnect_interval : Z; keepAliveInterval : Z; o_isblocking : Z }.
Definition paho_mqtt_control (cmd : mqtt_ctrl) (arg : Z) : M mqtt_options Z :=
  modify (fun o => match cmd with
    | SetConnTimeo => MqttOptions arg (reconnect_interval o) (keepAliveInterval o) (o_isblocking o)
    | SetReconnInterval => MqttOptions (connect_timeout o) arg (keepAliveInterval o) (o_isblocking o)
    | SetKeepaliveInterval => MqttOptions (connect_timeout o) (reconnect_interval o) (u32 arg) (o_isblocking o)
    | PublishBlock => MqttOptions (connect_timeout o) (reconnect_interval o) (keepAliveInterval o) arg
    | OtherCtrl => o
    end) ;;;
  ret PAHO_SUCCESS.

(** The worker's delay before it connects again, in ticks of a millisecond. *)
Definition reconnect_delay (o : mqtt_options) : Z :=
  if 0 <? reconnect_interval o then reconnect_interval o else 5000.

(** ** The wait for the next event

    The loop waits with [select]; [select] turns the seconds into milliseconds, [poll] these
    into ticks, and a negative time means to wait without limit. *)

Definition RT_WAITING_FOREVER : Z := -1.

Definition rt_tick_from_millisecond (ms : Z) : Z :=
  if ms <? 0 then u32 RT_WAITING_FOREVER
  else u32 (RT_TICK_PER_SECOND * (ms / 1000) + (RT_TICK_PER_SECOND * (ms mod 1000) + 999) / 1000).

(** [timeout.tv_sec] of the loop: the interval is an [unsigned int] and the ticks are 32 bits
    wide, so is the difference. *)
Definition select_seconds (keepAlive tick_now tick_ping : Z) : Z :=
  let elapsed := u32 (tick_now - tick_ping) / RT_TICK_PER_SECOND in
  if u32 (keepAlive - 5) <? elapsed then 1
  else u32 (keepAlive - 10 - elapsed).

(** How long [poll] waits for an event when none is there: with a timer, or without one. *)
Inductive patience : Set := NoWait | AtMost (ticks : Z) | NoTimer.

Definition poll_wait_timeout (msec : Z) : patience :=
  let timeout := i32 (rt_tick_from_millisecond msec) in
  if negb (timeout =? 0) then
    if 0 <? timeout then AtMost timeout else NoTimer
  else NoWait.

Definition poll_do (msec : Z) : patience :=
  if msec =? 0 then NoWait else poll_wait_timeout msec.

(** [select]: the seconds become an [int] of milliseconds. *)
Definition select_wait (seconds : Z) : patience := poll_do (i32 (seconds * 1000)).

(** C31. The ping's timer: with the controller's keep-alive interval of 30 s, the worker
    waits [20 - t] seconds for the next event when the last answer to a ping is [t < 20]
    full seconds old, and one second when it is older than 25; at 20 s it does not wait at
    all. In between, from 21 to 25 s, the time it computes wraps below zero and it waits
    without a timer, so that no ping goes out until something else happens. *)
Theorem ping_timer_gap tick_now tick_ping :
  let t := u32 (tick_now - tick_ping) / RT_TICK_PER_SECOND in
  let wait := select_wait (select_seconds 30 tick_now tick_ping) in
  (t < 20 -> wait = AtMost ((20 - t) * RT_TICK_PER_SECOND)) /\
  (t = 20 -> wait = NoWait) /\
  (21 <= t <= 25 -> wait = NoTimer) /\
  (25 < t -> wait = AtMost RT_TICK_PER_SECOND).
Proof.
  intros t wait. assert (0 <= t) as Ht.
  { unfold t, RT_TICK_PER_SECOND. apply Z.div_pos; [|lia]. apply wrap_range. lia. }
  assert (forall k, 0 < k < 2000 -> select_wait k = AtMost (k * RT_TICK_PER_SECOND)) as Hp.
  { intros k Hk. unfold select_wait, poll_do, poll_wait_timeout, rt_tick_from_millisecond, RT_TICK_PER_SECOND.
    rewrite (swrap_small 32 (k * 1000)), (proj2 (Z.eqb_neq _ 0)), (proj2 (Z.ltb_ge _ 0)) by lia.
    rewrite Z.div_mul, Z_mod_mult by lia. change ((1000 * 0 + 999) / 1000) with 0.
    rewrite wrap_small, swrap_small, (proj2 (Z.eqb_neq _ 0)), (proj2 (Z.ltb_lt 0 _)) by lia. cbn [negb]. f_equal; lia. }
  unfold wait, select_seconds. fold t. change (u32 (30 - 5)) with 25. split_and!; intros Hr.
  - rewrite (proj2 (Z.ltb_ge 25 t)) by lia. rewrite wrap_small by lia. rewrite Hp by lia. f_equal; lia.
  - by rewrite Hr.
  - assert (t = 21 \/ t = 22 \/ t = 23 \/ t = 24 \/ t = 25) as [E | [E | [E | [E | E]]]] by lia; rewrite E; reflexivity.
  - rewrite (proj2 (Z.ltb_lt 25 t)) by lia. by rewrite Hp by lia.
Qed.

(** 22 s after the last answer there is no timer. *)
Lemma ping_timer_gap_witness :
  select_seconds 30 22000 0 = 4294967294 /\ select_wait (select_seconds 30 22000 0) = NoTimer /\
  select_wait (select_seconds 30 5000 0) = AtMost 15000.
Proof.
  destruct (ping_timer_gap 22000 0) as (_ & _ & H2 & _). destruct (ping_timer_gap 5000 0) as (H1 & _ & _).
  split; [reflexivity|]. split; [apply H2; vm_compute; split; discriminate|apply H1; reflexivity].
Defined.

(** ** A session taken up again *)

(** The broker's answer to a subscription: QoS 1 is granted. *)
Definition suback_packet (id : Z) : bytes := [144; 3; id / 256; id mod 256; 1].

Section Resume.
Implicit Types c : mqtt_client mqtt_cb.

Lemma with_stream_of c l : sock_recv c = stream l -> with_stream c l = c.
Proof. intros E. unfold with_stream. rewrite <- E. by destruct c. Qed.

(** A packet read from a stream that begins with it. *)
Lemma read_packet c hd n body rest (Q : Z -> mqtt_client mqtt_cb -> Prop) :
  sock_recv c = stream ((hd :: MQTTPacket_encode n ++ body) ++ rest) -> Z.of_nat (length body) = n -> 0 < n < 2 ^ 28 ->
  (length (hd :: MQTTPacket_encode n ++ body) <= length (readbuf c))%nat ->
  Q (hdr_type hd) (with_stream (set_readbuf ((hd :: MQTTPacket_encode n ++ body) ++
      drop (length (hd :: MQTTPacket_encode n ++ body)) (readbuf c)) c) rest) ->
  wp MQTTPacket_readPacket c Q.
Proof.
  intros E Hb Hn Hl HQ. unfold wp. rewrite <- (with_stream_of _ _ E). cbn [Datatypes.app]. rewrite <- app_assoc.
  by rewrite readPacket_rest.
Qed.

(** A subscription of the worker, which waits for the answer. *)
Lemma wait_subscribe_spec topic rest c :
  client_ok c -> sock_send c = [] -> (length topic <= 64)%nat -> 0 <= next_packetid c < 65535 ->
  sock_recv c = stream (suback_packet (next_packetid c + 1) ++ rest) ->
  wp (MQTTSubscribe topic QOS1) c (fun rc c' => rc = 0 /\ next_packetid c' = next_packetid c + 1 /\
    messageHandlers c' = messageHandlers c /\ sock_recv c' = stream rest /\
    exists packet, subscribe_packet (next_packetid c + 1) topic packet /\ sends [packet] c c').
Proof.
  intros Hc Hsend Hlen Hid Hrecv. pose proof Hc as [Hconn Hm [Hs Hr] Hrb Hj Hnb]. unfold MQTTSubscribe. wp_step. unfold get at 1, wp at 1.
  rewrite Hconn, Hs. cbn [negb]. unfold getNextPacketId. wp_steps. cbn [next_packetid set_session].
  rewrite (proj2 (Z.eqb_neq (next_packetid c) MAX_PACKET_ID)) by (unfold MAX_PACKET_ID; lia).
  destruct (subscribe_packet_exists (next_packetid c + 1) topic Hlen) as [packet Hp]. pose proof Hp as Hp'. unfold subscribe_packet in Hp'.
  rewrite Hp'. wp_steps. unfold sendPacket. wp_step. unfold get at 1, wp at 1. cbn [sock_send set_session]. rewrite Hsend. wp_steps.
  cbn [negb Z.eqb PAHO_SUCCESS]. wp_steps. unfold select_readable. wp_steps. cbn [sock_recv set_net set_session]. rewrite Hrecv.
  change (bool_decide (stream (suback_packet (next_packetid c + 1) ++ rest) = [])) with false. cbn [negb]. wp_steps.
  set (id := next_packetid c + 1) in *.
  eapply (read_packet _ 144 3 [id / 256; id mod 256; 1] rest); [done|done|lia|cbn [readbuf set_net set_session]; rewrite Hrb; apply Nat.leb_le; reflexivity|].
  change (hdr_type 144) with SUBACK. cbn [Z.ltb Z.compare SUBACK Z.eqb Pos.eqb]. wp_steps.
  unfold on_readbuf, wp at 1. cbn [readbuf with_stream set_net set_readbuf].
  match goal with |- context [MQTTDeserialize_suback (?b) 1 0] => assert (exists r p, MQTTDeserialize_suback b 1 0 = Ok ((1, r, [1]), p)) as (r & p & ->) end.
  { eexists _, _. cbn. reflexivity. }
  wp_steps. split; [done|]. split; [done|]. split; [done|]. split; [done|]. exists packet. split; [done|]. split; [|done].
  split; [done|done|done| |done|done]. cbn [readbuf set_session with_stream set_net set_readbuf].
  rewrite length_app, length_drop, Hrb. done.
Qed.

(** The worker's subscriptions to the topics it had. *)
Lemma resubscribe_spec c :
  client_ok c -> sock_send c = [] -> next_packetid c = 0 ->
  sock_recv c = stream (suback_packet 1 ++ suback_packet 2 ++ suback_packet 3) ->
  wp (resubscribe app_handlers) c (fun ok c' => ok = true /\ messageHandlers c' = messageHandlers c /\
    exists p1 p2 p3, subscriptions p1 p2 p3 /\ sends [p1; p2; p3] c c').
Proof.
  intros Hc Hs Hid Hr. cbn [resubscribe app_handlers topicFilter h_qos]. wp_steps.
  eapply wp_mono; [apply (wait_subscribe_spec _ (suback_packet 2 ++ suback_packet 3)); rewrite ?Hid; (done || (vm_compute; lia))|].
  cbn beta. intros _ c1 (-> & I1 & H1 & R1 & p1 & P1 & S1). cbn [negb Z.eqb]. wp_steps. rewrite Hid in I1, P1.
  eapply wp_mono; [apply (wait_subscribe_spec _ (suback_packet 3)); rewrite ?I1; (apply S1 || done || (vm_compute; lia))|].
  cbn beta. intros _ c2 (-> & I2 & H2 & R2 & p2 & P2 & S2). cbn [negb Z.eqb]. wp_steps. rewrite I1 in I2, P2.
  eapply wp_mono; [apply (wait_subscribe_spec _ []); rewrite ?I2; (apply S2 || done || (vm_compute; lia))|].
  cbn beta. intros _ c3 (-> & I3 & H3 & R3 & p3 & P3 & S3). cbn [negb Z.eqb]. wp_steps. rewrite I2 in P3.
  split; [done|]. split; [congruence|]. exists p1, p2, p3. split; [by split_and!|].
  apply (sends_trans [p1] [p2; p3] _ _ _ S1), (sends_trans [p2] [p3] _ _ _ S2 S3).
Qed.

(** The client after the connection broke: what was in the socket is gone, and the socket
    is closed. *)
Definition dropped (fd : Z) c : mqtt_client mqtt_cb :=
  set_sockets None (List.filter (fun d => negb (d =? fd)) (open_socks (env c)))
    (set_net [] [] (sent c ++ [[224; 0]]) (set_session (next_packetid c) false c)).

Lemma read_breaks c l :
  sock_recv c = RecvError false :: l ->
  wp MQTTPacket_readPacket c (fun rc c' => rc = PAHO_FAILURE /\ c' = set_net l (sock_send c) (sent c) c).
Proof.
  intros Hr. unfold MQTTPacket_readPacket, net_read. cbn [net_read_loop]. cbn [Z.ltb Z.compare]. unfold recv. wp_steps.
  unfold get at 1, wp at 1. rewrite Hr. wp_steps. done.
Qed.

(** A turn in which the socket fails sends the last packet and goes back to the start. *)
Lemma turn_drops {S : Type} `{!Lens S (mqtt_client mqtt_cb)} run s fd l :
  sock (env (view s)) = Some fd -> sock_recv (view s) = RecvError false :: l -> sock_send (view s) = [] -> buf_size (view s) = 1024 ->
  wp (worker_turn run (ret tt) SockReady) s (fun p s' => p = Starting /\ s' = over (dropped fd (view s)) s).
Proof.
  intros Hfd Hr Hs Hb. unfold worker_turn, thread_turn, MQTT_cycle, mqtt_restart, client. wp_steps.
  apply wp_zoom. eapply wp_mono; [by eapply read_breaks|]. intros rc c1 [-> ->]. wp_steps. cbn [PAHO_FAILURE Z.eqb Pos.eqb]. wp_steps.
  cbn [PAHO_FAILURE Z.ltb Z.compare]. wp_steps. apply wp_zoom.
  unfold MQTTDisconnect. wp_steps. rewrite !view_over. cbn [buf_size set_net]. rewrite Hb. change (MQTTSerialize_disconnect 1024) with (@inr Z bytes [224; 0]).
  unfold sendPacket. wp_steps. unfold get at 1, wp at 1. cbn [sock_send set_net]. rewrite Hs. wp_steps.
  apply wp_zoom. rewrite view_over. unfold net_disconnect, close_socket, forget_socket. wp_steps. cbn [env set_net set_session]. rewrite Hfd. wp_steps.
  split; [done|]. by rewrite !over_over.
Qed.

(** The topics are subscribed already: the online callback's subscriptions do nothing. *)
Lemma sub_init_again m :
  is_started m = true -> messageHandlers (m_client m) = app_handlers -> wp mqtt_sub_init m (fun _ m' => m' = m).
Proof.
  intros Hst Hh. assert (forall topic cb, subscribed app_handlers topic = true ->
    wp (mqtt_subscribe topic cb) m (fun _ m' => m' = m)) as Hsub.
  { intros topic cb Ht. unfold mqtt_subscribe, on_client. wp_step. unfold get at 1, wp at 1. rewrite Hst.
    apply wp_zoom. unfold paho_mqtt_subscribe. cbn [negb Z.eqb Pos.eqb QOS1]. wp_step. unfold get at 1, wp at 1.
    cbn [view mqtt_client_lens]. rewrite Hh, Ht. wp_steps. by destruct m. }
  unfold mqtt_sub_init. wp_steps. eapply wp_mono; [by apply Hsub|]. intros _ m' ->. wp_steps.
  eapply wp_mono; [by apply Hsub|]. intros _ m' ->. wp_steps. by apply Hsub.
Qed.

(** The start of a session with the topics of the last one. *)
Lemma thread_resumes tick m :
  ready_to_connect tick (m_client m) ->
  sock_recv (m_client m) = stream (connack_packet ++ suback_packet 1 ++ suback_packet 2 ++ suback_packet 3) ->
  messageHandlers (m_client m) = app_handlers -> is_started m = true -> at_null m = [] ->
  wp (thread_start mqtt_online_callback true) m (fun t m' => t = Continue /\ mqtt_ok m' /\
    messageHandlers (m_client m') = app_handlers /\
    (exists p0 p1 p2 p3, MQTTSerialize_connect 1024 (start_condata tick) = inr p0 /\ subscriptions p1 p2 p3 /\
      sent (m_client m') = sent (m_client m) ++ [p0; p1; p2; p3]) /\
    sockets (m_client m') = sockets (m_client m) /\
    exists text, cJSON_PrintUnformatted sync_doc = Some text /\
      pub_pipe (m_client m') = pub_pipe (m_client m) ++
        frame (stack_junk (m_client m)) MQTT_SYNC_PUBTOPIC (text ++ hd [] (tails m))).
Proof.
  intros Hr Hrecv Hh Hst Hn. destruct (connect_packet tick) as [p0 Hp0].
  unfold thread_start, client, net_connect. wp_steps. apply wp_zoom. wp_steps. cbn [negb]. wp_steps. apply wp_zoom. rewrite !view_over.
  eapply wp_mono; [eapply (connect_spec tick p0); [by destruct Hr|exact Hrecv|done]|]. cbn beta.
  intros rc c1 (-> & S1 & H1 & I1 & R1). cbn [negb Z.eqb].
  wp_steps. apply wp_zoom. unfold get, wp at 1. wp_steps. apply wp_zoom. rewrite !view_over.
  assert (messageHandlers c1 = app_handlers) as H1' by (rewrite H1; exact Hh). rewrite H1'.
  eapply wp_mono; [apply resubscribe_spec; [apply S1|apply S1|exact I1|exact R1]|]. cbn beta.
  intros ok c2 (-> & H2 & p1 & p2 & p3 & P & S2). rewrite H1' in H2. cbn [negb]. unfold mqtt_online_callback. wp_steps.
  set (m2 := Mqtt c2 (is_started m) (UUID m) (at_null m) (tails m) (leaked m)).
  eapply wp_mono; [by apply (sub_init_again m2)|]. intros _ m' ->. wp_steps.
  pose proof (sends_trans [p0] [p1; p2; p3] _ _ _ S1 S2) as (Hc2 & Hs2 & E2 & Pp2 & J2 & K2).
  assert (mqtt_ok m2) as Hm2 by (by split).
  eapply wp_mono; [by apply sync_request_spec|]. cbn beta. intros rc m3 [-> Ha]. wp_steps. split; [done|].
  pose proof (announced_ok _ _ _ _ Hm2 Ha) as Hm3. destruct Ha as (text & l & Ht & Hl & ->).
  split; [done|]. split; [done|]. split; [by exists p0, p1, p2, p3|].
  split; [exact K2|]. exists text. split; [done|]. cbn. by rewrite J2, Pp2.
Qed.

(** C30. A session taken up again: when the connection of a running client breaks, the
    worker sends the last packet, closes the socket and, as soon as the server of the
    configured address accepts a new connection and grants the subscriptions, connects anew,
    subscribes to the three topics again with the packet identifiers 1 to 3, keeps the
    callbacks under their topics, and queues a request for synchronisation behind the
    messages that still wait in the pipe; it then serves the session, its keep-alive time
    counted from now. The new socket is then the only one open. *)
Theorem session_resumes run tick fd fd' (l : list recv_result) m :
  mqtt_ok m -> is_started m = true -> condata (m_client m) = start_condata tick ->
  messageHandlers (m_client m) = app_handlers -> sock_send (m_client m) = [] ->
  sock_recv (m_client m) = RecvError false :: l -> sockets (m_client m) = (Some fd, [fd]) ->
  let network host port :=
    if bool_decide (host = str "192.168.170.226" /\ port = str "1883")
    then Connected fd' [RecvData (connack_packet ++ suback_packet 1 ++ suback_packet 2 ++ suback_packet 3)] []
    else Unresolved in
  wp (p <- worker_turn run (ret tt) SockReady ;;
      q <- worker_start (ret tt) mqtt_online_callback (ret tt) MQTT_URI network ;;
      ret (p, q)) m (fun pq m' => pq = (Starting, Serving) /\ mqtt_ok m' /\
    messageHandlers (m_client m') = app_handlers /\
    (exists p0 p1 p2 p3, MQTTSerialize_connect 1024 (start_condata tick) = inr p0 /\ subscriptions p1 p2 p3 /\
      sent (m_client m') = sent (m_client m) ++ [[224; 0]; p0; p1; p2; p3]) /\
    (exists text, cJSON_PrintUnformatted sync_doc = Some text /\
      pub_pipe (m_client m') = pub_pipe (m_client m) ++
        frame (stack_junk (m_client m)) MQTT_SYNC_PUBTOPIC (text ++ hd [] (tails m))) /\
    tick_ping (env (m_client m')) = rt_tick_get (env (m_client m')) /\
    sockets (m_client m') = (Some fd', [fd'])).
Proof.
  intros [[Hc Hm [Hb Hrs] Hrb Hj Hnb] Hn] Hst Hd Hh Hs Hr Hk network. destruct (connect_packet tick) as [p0 Hp0].
  injection Hk as Hfd Hfds.
  wp_step. eapply wp_mono; [by eapply turn_drops|]. cbn beta. intros p s [-> ->].
  unfold worker_start. change (mqtt_resolve_uri MQTT_URI) with (Some (str "192.168.170.226", str "1883")). cbv zeta iota.
  assert (network (str "192.168.170.226") (str "1883") =
    Connected fd' [RecvData (connack_packet ++ suback_packet 1 ++ suback_packet 2 ++ suback_packet 3)] []) as -> by done.
  wp_steps. apply wp_zoom. rewrite view_over. unfold open_socket, forget_socket, new_socket. wp_steps. rewrite over_over.
  cbn [Z.eqb]. eapply wp_mono; [apply (thread_resumes tick); [by split|done..]|]. cbn beta.
  intros t m' (-> & Hok & Hh' & (p1 & p2 & p3 & p4 & H1 & H2 & Hsent) & Hk' & Hp).
  wp_steps. apply wp_zoom. unfold note_ping. wp_steps. split; [done|].
  split; [by destruct m', Hok as [[] ?]; split; [split|]|]. split; [done|]. split; [|split; [exact Hp|split; [done|]]].
  - exists p1, p2, p3, p4. split_and!; [done..|].
    change (sent (m_client m') = sent (m_client m) ++ [[224; 0]; p1; p2; p3; p4]).
    rewrite Hsent. cbn. by rewrite <- app_assoc.
  - change (sockets (m_client m') = (Some fd', [fd'])). rewrite Hk'. cbn. rewrite Hfds. cbn. by rewrite Z.eqb_refl.
Qed.
End Resume.
