(* ===== verification/AutoControl.v ===== *)
(** * Automatic control

    Models [applications/src/my_auto_control.c]: the thread that watches the environment
    and drives the alarm, the door, the fan and the fill light (and the upload thread's turn
    of [my_data_upload.c], which reports in the same way). One turn of its loop is a
    computation on any state with the actuators and the MQTT application. The abstract
    specification is a list of rules on the shared data; the turn refines it
    ([auto_control_turn]): the same devices change, and the alarm and the new device states
    are published, rule by rule, in that order.

    How a thread's message leaves it is an interface, [Publisher], with its laws,
    [PublisherOk]: the theorems of this file are about [queue_only], where nothing else
    runs until the turn ends; Outbound.v has the publisher whose messages wake the client's
    worker. *)

From stdpp Require Import base numbers list.
From Stdlib Require Import ZArith Lia.
From S2P Require Import Prelude Gpio CFloat Json DataUpload Actuators MqttPacket MqttClient MqttApp.

Definition ALARM_TEMPERATURE_TOO_HIGH : Z := 1.
Definition ALARM_TEMPERATURE_BACK_NORMAL : Z := 2.
Definition ALARM_HUMIDITY_TOO_HIGH : Z := 3.
Definition ALARM_HUMIDITY_BACK_NORMAL : Z := 4.
Definition ALARM_LIGHT_TOO_STRONG : Z := 5.
Definition ALARM_LIGHT_TOO_WEAK : Z := 6.

(** ** The interface of publication *)

(** How a thread publishes: [announce c] runs the call [c] of the application and whatever
    that call lets run before it returns. *)
Class Publisher (S : Type) := announce : M mqtt rt_err_t -> M S rt_err_t.

(** The messages stay in the pipe: no other thread runs before the caller's turn ends. *)
#[export] Instance queue_only {S : Type} `{!Lens S mqtt} : Publisher S | 10 := in_mqtt.

(** The reports threads publish: topic and document. *)
Inductive report : bytes -> json -> Prop :=
  | report_environment e : environment_int e -> report MQTT_SENSOR_PUBTOPIC (environment_doc e)
  | report_status d : report MQTT_DEVICE_STATUS_PUBTOPIC (status_doc d)
  | report_alarm t a h : int_range t -> int_range a -> int_range h -> report MQTT_ALARM_PUBTOPIC (alarm_doc t a h).

(** What a publisher promises: on a channel in order, a call that would queue a report
    succeeds, leaves the channel in order and the shared data alone, and takes the report, by [reported],
    from the client's old state to its new one. *)
Class PublisherOk (S : Type) `{act : !Actuators S, mine : !Lens S mqtt, ok : !ActuatorsOk S mqtt, pub : !Publisher S} := {
  chan_ok : mqtt -> Prop;
  reported : bytes -> json -> mqtt -> mqtt -> Prop;
  chan_mqtt_ok : forall m, chan_ok m -> mqtt_ok m;
  put_quiet : forall topic doc m1 m2 m3, quiet m1 m2 -> reported topic doc m2 m3 -> reported topic doc m1 m3;
  announce_ok : forall (c : M mqtt rt_err_t) topic doc s,
    act_ok s -> chan_ok (view s) -> report topic doc ->
    wp c (view s) (fun rc m' => rc = RT_EOK /\ announced topic doc (view s) m') ->
    wp (announce c) s (fun rc s' => rc = RT_EOK /\ act_ok s' /\ chan_ok (view s') /\
      (view s' : props) = view s /\ reported topic doc (view s) (view s'))
}.

(** ** The code *)

Section Control.
Context {S : Type} `{!Actuators S, !Lens S mqtt, !Publisher S}.

(** The thread keeps pointers to the shared structures: it reads them afresh at each use. *)
Definition device_status : M S Devices_t := shared Get_Device_Properties.
Definition environmenr : M S Environment_t := shared Get_Environment_Properties.
Definition thresholds : M S Thresholds_t := shared Get_Thresholds_Properties.

Definition publish_alarm (type : Z) (actual : Environment_t -> Z) (limit : Thresholds_t -> Z) : M S unit :=
  e <- environmenr ;;
  t <- thresholds ;;
  announce (Publish_Alarm_Info type (actual e) (limit t)) ;;;
  ret tt.
Definition publish_status : M S unit :=
  d <- device_status ;;
  announce (Publish_Device_Status d) ;;;
  ret tt.

Definition control_temperature : M S unit :=
  d <- device_status ;;
  e <- environmenr ;;
  t <- thresholds ;;
  if negb (Beep_State d) && negb (Door_State d) then
    when (Temp_Limit t <? temp e)
      (publish_alarm ALARM_TEMPERATURE_TOO_HIGH temp Temp_Limit ;;;
       act_beep true ;;;
       act_door true 90 ;;;
       publish_status)
  else if Beep_State d && Door_State d then
    when (temp e <? Temp_Limit t)
      (publish_alarm ALARM_TEMPERATURE_BACK_NORMAL temp Temp_Limit ;;;
       act_beep false ;;;
       act_door false 90 ;;;
       publish_status)
  else ret tt.

Definition control_humidity : M S unit :=
  d <- device_status ;;
  e <- environmenr ;;
  t <- thresholds ;;
  if negb (Relay_State d) then
    when (Humi_Limit t <? humi e)
      (publish_alarm ALARM_HUMIDITY_TOO_HIGH humi Humi_Limit ;;;
       act_relay true ;;;
       publish_status)
  else
    when (humi e <? Humi_Limit t)
      (publish_alarm ALARM_HUMIDITY_BACK_NORMAL humi Humi_Limit ;;;
       act_relay false ;;;
       publish_status).

Definition control_light : M S unit :=
  d <- device_status ;;
  e <- environmenr ;;
  t <- thresholds ;;
  if negb (LED1_State d) then
    when (light e <? Light_Down_Limit t)
      (publish_alarm ALARM_LIGHT_TOO_WEAK light Light_Down_Limit ;;;
       act_light true ;;;
       publish_status)
  else
    when (Light_Up_Limit t <? light e)
      (publish_alarm ALARM_LIGHT_TOO_STRONG light Light_Up_Limit ;;;
       act_light false ;;;
       publish_status).

(** One turn of the loop of [my_auto_control_entry]; the state of the smoke sensor is read
    but not used. *)
Definition my_auto_control_entry : M S unit :=
  mq2 <- act_mq2_d0 ;;
  let mq2_state := negb (mq2 =? PIN_HIGH) in
  d <- device_status ;;
  when (DHT11_Sensor_State d) (control_temperature ;;; control_humidity) ;;;
  d <- device_status ;;
  when (Light_Sensor_State d) control_light.

(** One turn of [my_data_upload_entry], the other thread that reports. *)
Definition my_data_upload_entry : M S rt_err_t :=
  e <- shared Get_Environment_Properties ;;
  announce (Publish_Environment_Data e).
End Control.

(** ** The specification *)

(** A rule that fires: its alarm and the devices after it. *)
Record firing : Set := Firing { f_type : Z; f_actual : Z; f_limit : Z; f_devices : Devices_t -> Devices_t }.

Definition temperature_rule (p : props) : option firing :=
  let d := my_devices p in let e := my_environment p in let t := my_thresholds p in
  if negb (DHT11_Sensor_State d) then None
  else match Beep_State d, Door_State d with
       | false, false => if Temp_Limit t <? temp e then
           Some (Firing ALARM_TEMPERATURE_TOO_HIGH (temp e) (Temp_Limit t) (fun d => with_door true (with_beep true d)))
         else None
       | true, true => if temp e <? Temp_Limit t then
           Some (Firing ALARM_TEMPERATURE_BACK_NORMAL (temp e) (Temp_Limit t) (fun d => with_door false (with_beep false d)))
         else None
       | _, _ => None
       end.

Definition humidity_rule (p : props) : option firing :=
  let d := my_devices p in let e := my_environment p in let t := my_thresholds p in
  if negb (DHT11_Sensor_State d) then None
  else if Relay_State d then
    if humi e <? Humi_Limit t then Some (Firing ALARM_HUMIDITY_BACK_NORMAL (humi e) (Humi_Limit t) (with_relay false)) else None
  else
    if Humi_Limit t <? humi e then Some (Firing ALARM_HUMIDITY_TOO_HIGH (humi e) (Humi_Limit t) (with_relay true)) else None.

Definition light_rule (p : props) : option firing :=
  let d := my_devices p in let e := my_environment p in let t := my_thresholds p in
  if negb (Light_Sensor_State d) then None
  else if LED1_State d then
    if Light_Up_Limit t <? light e then Some (Firing ALARM_LIGHT_TOO_STRONG (light e) (Light_Up_Limit t) (with_light false)) else None
  else
    if light e <? Light_Down_Limit t then Some (Firing ALARM_LIGHT_TOO_WEAK (light e) (Light_Down_Limit t) (with_light true)) else None.

Definition fire (f : option firing) (p : props) : props :=
  match f with Some f => on_devices (f_devices f) p | None => p end.

(** What a rule publishes: the alarm, then the states of the devices. *)
Definition announcements (f : option firing) (p : props) : list (bytes * json) :=
  match f with
  | Some g => [(MQTT_ALARM_PUBTOPIC, alarm_doc (f_type g) (f_actual g) (f_limit g));
               (MQTT_DEVICE_STATUS_PUBTOPIC, status_doc (my_devices (fire f p)))]
  | None => []
  end.

Definition rules : list (props -> option firing) := [temperature_rule; humidity_rule; light_rule].

(** The rules in order, each on the data the previous ones left. *)
Fixpoint obey (rs : list (props -> option firing)) (p : props) : props * list (bytes * json) :=
  match rs with
  | [] => (p, [])
  | r :: rs => let '(p', docs) := obey rs (fire (r p) p) in (p', announcements (r p) p ++ docs)
  end.

(** Reports in order. *)
Section Order.
Variable reported : bytes -> json -> mqtt -> mqtt -> Prop.
Hypothesis put_quiet : forall topic doc m1 m2 m3, quiet m1 m2 -> reported topic doc m2 m3 -> reported topic doc m1 m3.

Fixpoint put_all (docs : list (bytes * json)) (m m' : mqtt) : Prop :=
  match docs with
  | [] => quiet m m'
  | (topic, doc) :: docs => exists m1, reported topic doc m m1 /\ put_all docs m1 m'
  end.

Lemma put_all_app docs1 docs2 m1 m2 m3 : put_all docs1 m1 m2 -> put_all docs2 m2 m3 -> put_all (docs1 ++ docs2) m1 m3.
Proof.
  revert m1. induction docs1 as [|[t d] docs1 IH]; intros m1; cbn.
  - destruct docs2 as [|[t d] docs2]; cbn.
    + apply quiet_trans.
    + intros Hq (m & Hp & Hm). exists m. split; [by eapply put_quiet|done].
  - intros (m & Hp & Hm) Hd. exists m. split; [done|by apply IH].
Qed.
End Order.

(** Messages queued in order. *)
Abbreviation queued := (put_all published).

(** The shared data are C integers. *)
Definition data_int (p : props) : Prop :=
  environment_int (my_environment p) /\
  int_range (Temp_Limit (my_thresholds p)) /\ int_range (Humi_Limit (my_thresholds p)) /\
  int_range (Light_Up_Limit (my_thresholds p)) /\ int_range (Light_Down_Limit (my_thresholds p)).

Lemma data_int_fire f p : data_int p -> data_int (fire f p).
Proof. by destruct f. Qed.

(** *** What the rules do *)

(** The three rules, from the first data. *)
Lemma obey_rules p :
  let p1 := fire (temperature_rule p) p in
  let p2 := fire (humidity_rule p1) p1 in
  obey rules p = (fire (light_rule p2) p2,
    announcements (temperature_rule p) p ++ announcements (humidity_rule p1) p1 ++ announcements (light_rule p2) p2).
Proof. cbn. by rewrite app_nil_r. Qed.

(** Each rule looks at, and changes, its own devices. *)
Ltac rule_frame :=
  unfold temperature_rule, humidity_rule, light_rule;
  match goal with |- context [fire _ ?p] => destruct p as [[[] [] ? [] [] [] []] [] []] end; cbn; try done;
  try match goal with |- context [fire (if ?b then _ else _) _] => destruct b end; done.
Lemma temperature_rule_fire p f :
  f = humidity_rule p \/ f = light_rule p ->
  temperature_rule (fire f p) = temperature_rule p /\
  Beep_State (my_devices (fire f p)) = Beep_State (my_devices p) /\
  Door_State (my_devices (fire f p)) = Door_State (my_devices p).
Proof.
  intros [-> | ->]; rule_frame.
Qed.
Lemma humidity_rule_fire p f :
  f = temperature_rule p \/ f = light_rule p -> humidity_rule (fire f p) = humidity_rule p.
Proof.
  intros [-> | ->]; rule_frame.
Qed.
Lemma light_rule_fire p f :
  f = temperature_rule p \/ f = humidity_rule p ->
  light_rule (fire f p) = light_rule p /\ LED1_State (my_devices (fire f p)) = LED1_State (my_devices p).
Proof.
  intros [-> | ->]; rule_frame.
Qed.

(** A rule that has been obeyed is silent. *)
Lemma temperature_settles p : temperature_rule (fire (temperature_rule p) p) = None.
Proof.
  unfold temperature_rule. destruct p as [[bp ? ? ? dr ht ?] [tp ? ? ?] [tl ? ? ?]]; cbn.
  destruct ht, bp, dr; cbn; try done.
  - destruct (Z.ltb_spec tp tl); cbn; destruct (Z.ltb_spec tl tp), (Z.ltb_spec tp tl); try lia; done.
  - destruct (Z.ltb_spec tl tp); cbn; destruct (Z.ltb_spec tl tp), (Z.ltb_spec tp tl); try lia; done.
Qed.
Lemma humidity_settles p : humidity_rule (fire (humidity_rule p) p) = None.
Proof.
  unfold humidity_rule. destruct p as [[? rl ? ? ? ht ?] [? hm ? ?] [? hl ? ?]]; cbn.
  destruct ht, rl; cbn; try done.
  - destruct (Z.ltb_spec hm hl); cbn; destruct (Z.ltb_spec hl hm), (Z.ltb_spec hm hl); try lia; done.
  - destruct (Z.ltb_spec hl hm); cbn; destruct (Z.ltb_spec hl hm), (Z.ltb_spec hm hl); try lia; done.
Qed.
Lemma light_settles p :
  Light_Down_Limit (my_thresholds p) <= Light_Up_Limit (my_thresholds p) -> light_rule (fire (light_rule p) p) = None.
Proof.
  unfold light_rule. destruct p as [[? ? ? ld ? ? ls] [? ? lt ?] [? ? up dn]]; cbn. intros Hl.
  destruct ls, ld; cbn; try done.
  - destruct (Z.ltb_spec up lt); cbn; destruct (Z.ltb_spec up lt), (Z.ltb_spec lt dn); try lia; done.
  - destruct (Z.ltb_spec lt dn); cbn; destruct (Z.ltb_spec up lt), (Z.ltb_spec lt dn); try lia; done.
Qed.

Lemma rules_settle p :
  Light_Down_Limit (my_thresholds p) <= Light_Up_Limit (my_thresholds p) ->
  obey rules (obey rules p).1 = ((obey rules p).1, []).
Proof.
  intros Hl. rewrite (obey_rules p). cbv zeta. cbn [fst].
  set (p1 := fire (temperature_rule p) p). set (p2 := fire (humidity_rule p1) p1). set (p3 := fire (light_rule p2) p2).
  assert (temperature_rule p3 = None) as E1.
  { unfold p3. rewrite (proj1 (temperature_rule_fire p2 _ (or_intror eq_refl))). unfold p2.
    rewrite (proj1 (temperature_rule_fire p1 _ (or_introl eq_refl))). apply temperature_settles. }
  assert (humidity_rule p3 = None) as E2.
  { unfold p3. rewrite (humidity_rule_fire p2 _ (or_intror eq_refl)). apply humidity_settles. }
  assert (light_rule p3 = None) as E3.
  { apply light_settles. unfold p2, p1. by destruct (humidity_rule _), (temperature_rule _). }
  rewrite obey_rules. cbv zeta. rewrite E1. cbn [fire]. rewrite E2. cbn [fire]. by rewrite E3.
Qed.

Lemma crossed_light p :
  Light_Sensor_State (my_devices p) = true ->
  Light_Up_Limit (my_thresholds p) < light (my_environment p) < Light_Down_Limit (my_thresholds p) ->
  LED1_State (my_devices (obey rules p).1) = negb (LED1_State (my_devices p)) /\ (obey rules p).2 <> [].
Proof.
  intros Hs Hl. rewrite obey_rules. cbv zeta. cbn [fst snd].
  set (p1 := fire (temperature_rule p) p). set (p2 := fire (humidity_rule p1) p1).
  destruct (light_rule_fire p _ (or_introl eq_refl)) as [E1 F1]. fold p1 in E1, F1.
  destruct (light_rule_fire p1 _ (or_intror eq_refl)) as [E2 F2]. fold p2 in E2, F2.
  rewrite <- F1, <- F2. rewrite E2, E1. unfold light_rule. rewrite Hs. cbn [negb].
  rewrite <- F1, <- F2. rewrite !(proj2 (Z.ltb_lt _ _)) by lia.
  destruct (LED1_State (my_devices p2)); cbn; (split; [done|]); intros E; by do 2 apply app_eq_nil in E as [_ E].
Qed.

Lemma alarm_rule p :
  DHT11_Sensor_State (my_devices p) = true -> Beep_State (my_devices p) = Door_State (my_devices p) ->
  let on := match temp (my_environment p) ?= Temp_Limit (my_thresholds p) with
            | Gt => true | Lt => false | Eq => Beep_State (my_devices p) end in
  Beep_State (my_devices (obey rules p).1) = on /\ Door_State (my_devices (obey rules p).1) = on.
Proof.
  intros Hs Hbd on. rewrite obey_rules. cbv zeta. cbn [fst].
  set (p1 := fire (temperature_rule p) p). set (p2 := fire (humidity_rule p1) p1).
  destruct (temperature_rule_fire p2 _ (or_intror eq_refl)) as (_ & -> & ->).
  destruct (temperature_rule_fire p1 _ (or_introl eq_refl)) as (_ & B & D). fold p2 in B, D. rewrite B, D. clear B D p2.
  subst p1 on. destruct p as [[bp ? ? ? dr ht ?] [tp ? ? ?] [tl ? ? ?]]; cbn in *. subst ht dr.
  unfold temperature_rule. cbn. unfold Z.ltb. rewrite (Z.compare_antisym tp tl).
  destruct bp, (tp ?= tl); done.
Qed.

Lemma masked_rule p :
  Beep_State (my_devices p) <> Door_State (my_devices p) ->
  Beep_State (my_devices (obey rules p).1) = Beep_State (my_devices p) /\
  Door_State (my_devices (obey rules p).1) = Door_State (my_devices p).
Proof.
  intros Hbd. rewrite obey_rules. cbv zeta. cbn [fst].
  set (p1 := fire (temperature_rule p) p). set (p2 := fire (humidity_rule p1) p1).
  destruct (temperature_rule_fire p2 _ (or_intror eq_refl)) as (_ & -> & ->).
  destruct (temperature_rule_fire p1 _ (or_introl eq_refl)) as (_ & B & D). fold p2 in B, D. rewrite B, D. subst p1.
  unfold temperature_rule. destruct p as [[[] ? ? ? [] [] ?] ? ?]; cbn in *; done.
Qed.

(** Every document queued is in the pipe. *)
Lemma queued_pipe docs m m' : queued docs m m' ->
  exists n : nat, (length docs <= n)%nat /\ length (pub_pipe (m_client m')) = (length (pub_pipe (m_client m)) + n)%nat.
Proof.
  revert m. induction docs as [|[topic doc] docs IH]; intros m; cbn.
  - intros (_&_&_&_&_&_&_&->). exists 0%nat. split; [done|lia].
  - intros (m1 & (_&_&_&_&_&_&_& text & _ & Hp) & Hq). destruct (IH m1 Hq) as (n & Hn & E). rewrite E, Hp, length_app.
    set (l := frame _ _ _). assert (1 <= length l)%nat.
    { pose proof (frame_length (stack_junk (m_client m)) topic (text ++ hd [] (tails m))). unfold l. lia. }
    exists (length l + n)%nat. split; lia.
Qed.
Lemma queued_not_quiet docs m m' : docs <> [] -> queued docs m m' -> ~ quiet m m'.
Proof.
  intros Hd Hq (_&_&_&_&_&_&_&E). destruct (queued_pipe docs m m' Hq) as (n & Hn & El). rewrite E in El.
  destruct docs; [done|]. cbn in Hn. lia.
Qed.

(** ** The turn refines the rules *)

(** The plain queue keeps the promise: a report goes to the end of the pipe. *)
#[export, refine] Instance queue_only_ok {S : Type} `{act : !Actuators S, mine : !Lens S mqtt, ok : !ActuatorsOk S mqtt} :
  PublisherOk S := {| chan_ok := mqtt_ok; reported := published |}.
Proof.
  - done.
  - exact quiet_published.
  - intros c topic doc s Hs Hm _ Hc. eapply wp_in_mqtt; [done|exact Hc|]. cbn beta. intros rc m' s' [-> Ha] Hs' Em Ep _.
    apply announced_published' in Ha; [|done]. rewrite Em. split_and!; try done. apply Ha.
Defined.

Section ControlFacts.
Context {S : Type} `{act : !Actuators S, mine : !Lens S mqtt, ok : !ActuatorsOk S mqtt}.
Context `{pub : !Publisher S, pub_ok : !PublisherOk S}.
Implicit Types s : S.

Abbreviation mq s := (view s : mqtt).
Abbreviation pr s := (view s : props).

Definition good s : Prop := act_ok s /\ chan_ok (mq s) /\ data_int (pr s).

(** A step that does what a list of rules says. *)
Definition obeys (c : M S unit) (rs : list (props -> option firing)) : Prop :=
  forall s, good s -> wp c s (fun _ s' => good s' /\ pr s' = (obey rs (pr s)).1 /\
    put_all reported (obey rs (pr s)).2 (mq s) (mq s')).

Lemma wp_shared {A : Type} (f : props -> A) s (Q : A -> S -> Prop) : Q (f (pr s)) s -> wp (shared (gets f)) s Q.
Proof. intros HQ. apply wp_zoom, wp_gets. by rewrite over_view. Qed.

Lemma publish_alarm_spec type actual limit s :
  good s -> 0 <= type < 256 -> int_range (actual (my_environment (pr s))) -> int_range (limit (my_thresholds (pr s))) ->
  wp (publish_alarm type actual limit) s (fun _ s' => good s' /\ pr s' = pr s /\
    reported MQTT_ALARM_PUBTOPIC (alarm_doc type (actual (my_environment (pr s))) (limit (my_thresholds (pr s)))) (mq s) (mq s')).
Proof.
  intros (Hs & Hm & Hd) Ht Ha Hl. unfold publish_alarm. wp_steps. apply wp_shared. wp_steps. apply wp_shared. wp_steps.
  assert (int_range type) as Hti by (unfold int_range, INT_MIN, INT_MAX; lia).
  eapply wp_mono; [apply (announce_ok _ _ _ s Hs Hm (report_alarm _ _ _ Hti Ha Hl)), alarm_info_spec; try done; by apply chan_mqtt_ok|].
  cbn beta. intros rc s' (_ & Hs' & Hm' & Ep & Hp). wp_steps. split; [|done]. split; [done|]. by rewrite Ep.
Qed.

Lemma publish_status_spec s :
  good s ->
  wp publish_status s (fun _ s' => good s' /\ pr s' = pr s /\
    reported MQTT_DEVICE_STATUS_PUBTOPIC (status_doc (my_devices (pr s))) (mq s) (mq s')).
Proof.
  intros (Hs & Hm & Hd). unfold publish_status. wp_steps. apply wp_shared. wp_steps.
  eapply wp_mono; [apply (announce_ok _ _ _ s Hs Hm (report_status (my_devices (pr s)))), device_status_spec; by apply chan_mqtt_ok|].
  cbn beta. intros rc s' (_ & Hs' & Hm' & Ep & Hp). wp_steps. split; [|done]. split; [done|]. by rewrite Ep.
Qed.

(** The environment, as it is. *)
Lemma upload_spec s :
  good s -> wp my_data_upload_entry s (fun rc s' => rc = RT_EOK /\ good s' /\ pr s' = pr s /\
    reported MQTT_SENSOR_PUBTOPIC (environment_doc (my_environment (pr s))) (mq s) (mq s')).
Proof.
  intros (Hs & Hm & Hd). pose proof Hd as [He _]. unfold my_data_upload_entry. wp_steps. apply wp_shared. wp_steps.
  eapply wp_mono; [apply (announce_ok _ _ _ s Hs Hm (report_environment _ He)), environment_data_spec; [by apply chan_mqtt_ok|done]|].
  cbn beta. intros rc s' (-> & Hs' & Hm' & Ep & Hp). split; [done|]. split; [|done]. split; [done|]. by rewrite Ep.
Qed.

(** A rule that fires: its alarm, its actuators, the new states. *)
Lemma fire_spec type actual limit (c : M S unit) (f : Devices_t -> Devices_t) (h : Z -> Z) s :
  good s -> 0 <= type < 256 -> int_range (actual (my_environment (pr s))) -> int_range (limit (my_thresholds (pr s))) ->
  effect c (on_devices f) h ->
  let g := Some (Firing type (actual (my_environment (pr s))) (limit (my_thresholds (pr s))) f) in
  wp (publish_alarm type actual limit ;;; c ;;; publish_status) s (fun _ s' => good s' /\
    pr s' = fire g (pr s) /\ put_all reported (announcements g (pr s)) (mq s) (mq s')).
Proof.
  intros Hs Ht Ha Hl Hc g. wp_steps. eapply wp_mono; [by apply publish_alarm_spec|]. cbn beta.
  intros _ s1 (Hs1 & Ep1 & Hq1). wp_steps. eapply wp_mono; [apply Hc, Hs1|]. cbn beta.
  intros _ s2 (Hs2 & Em2 & Ep2 & _). rewrite Ep1 in Ep2.
  assert (good s2) as Hg2.
  { destruct Hs1 as (_ & Hm1 & _), Hs as (_ & _ & Hd). split; [done|]. rewrite Em2, Ep2. split; [done|]. by apply (data_int_fire g). }
  eapply wp_mono; [by apply publish_status_spec|]. cbn beta. intros _ s3 (Hs3 & Ep3 & Hq3).
  rewrite Ep3, Ep2. split; [done|]. split; [done|]. rewrite Em2, Ep2 in Hq3.
  exists (mq s1). split; [done|]. exists (mq s3). split; [done|]. apply quiet_refl, chan_mqtt_ok, Hs3.
Qed.

Lemma idle s : good s -> good s /\ pr s = pr s /\ put_all reported [] (mq s) (mq s).
Proof. intros Hs. split_and!; [done..|]. apply quiet_refl, chan_mqtt_ok, Hs. Qed.

Lemma obeys_seq c1 c2 rs1 rs2 : obeys c1 rs1 -> obeys c2 rs2 -> obeys (c1 ;;; c2) (rs1 ++ rs2).
Proof.
  intros H1 H2 s Hs. wp_steps. eapply wp_mono; [by apply H1|]. cbn beta. intros _ s1 (Hs1 & Ep1 & Hq1).
  eapply wp_mono; [by apply H2|]. cbn beta. intros _ s2 (Hs2 & Ep2 & Hq2).
  assert (forall p, obey (rs1 ++ rs2) p = ((obey rs2 (obey rs1 p).1).1, (obey rs1 p).2 ++ (obey rs2 (obey rs1 p).1).2)) as E.
  { clear. induction rs1 as [|r rs1 IH]; intros p; cbn; [by destruct (obey rs2 p)|]. rewrite IH.
    destruct (obey rs1 _) as [p1 d1]. cbn. by rewrite app_assoc. }
  rewrite E. cbn [fst snd]. rewrite Ep1 in *. split_and!; [done..|]. by eapply (put_all_app reported put_quiet).
Qed.

Lemma obeys_rule c (r : props -> option firing) :
  (forall s, good s -> wp c s (fun _ s' => good s' /\ pr s' = fire (r (pr s)) (pr s) /\
     put_all reported (announcements (r (pr s)) (pr s)) (mq s) (mq s'))) ->
  obeys c [r].
Proof. intros H s Hs. cbn. rewrite app_nil_r. by apply H. Qed.

Lemma wp_reassoc (a c1 c2 d : M S unit) s (Q : unit -> S -> Prop) :
  wp (a ;;; (c1 ;;; c2) ;;; d) s Q -> wp (a ;;; c1 ;;; c2 ;;; d) s Q.
Proof.
  unfold wp, bind. destruct (a s) as [[? s1]|]; [|done]. by destruct (c1 s1) as [[? s2]|].
Qed.

Lemma wp_when_rule (b : bool) (c : M S unit) (g : firing) s :
  good s ->
  (wp c s (fun _ s' => good s' /\ pr s' = fire (Some g) (pr s) /\ put_all reported (announcements (Some g) (pr s)) (mq s) (mq s'))) ->
  wp (when b c) s (fun _ s' => good s' /\ pr s' = fire (if b then Some g else None) (pr s) /\
    put_all reported (announcements (if b then Some g else None) (pr s)) (mq s) (mq s')).
Proof. intros Hs Hc. destruct b; [done|]. apply wp_ret. by apply idle. Qed.

Lemma wp_idle s :
  good s -> wp (ret tt) s (fun _ s' => good s' /\ pr s' = fire None (pr s) /\ put_all reported (announcements None (pr s)) (mq s) (mq s')).
Proof. intros Hs. apply wp_ret. by apply idle. Qed.

Lemma effect_alarm b : effect (act_beep b ;;; act_door b 90) (on_devices (fun d => with_door b (with_beep b d))) (next_angle b).
Proof.
  exact (effect_seq _ _ (on_devices (with_beep b)) (on_devices (with_door b)) (fun a => a) (next_angle b) (effect_beep b) (effect_door b)).
Qed.

Lemma temperature_spec s :
  good s -> DHT11_Sensor_State (my_devices (pr s)) = true ->
  wp control_temperature s (fun _ s' => good s' /\ pr s' = fire (temperature_rule (pr s)) (pr s) /\
    put_all reported (announcements (temperature_rule (pr s)) (pr s)) (mq s) (mq s')).
Proof.
  intros Hs Hd. pose proof Hs as (_ & _ & (? & _) & ? & _). unfold control_temperature, temperature_rule.
  wp_steps. do 2 (apply wp_shared; wp_steps). apply wp_shared. rewrite Hd. cbn [negb].
  destruct (Beep_State _), (Door_State _); cbn [negb andb]; try (by apply wp_idle);
    (apply wp_when_rule; [done|]); apply wp_reassoc;
    (eapply (fire_spec _ temp Temp_Limit); [done|done|done|done|]);
    apply effect_alarm.
Qed.

Lemma humidity_spec s :
  good s -> DHT11_Sensor_State (my_devices (pr s)) = true ->
  wp control_humidity s (fun _ s' => good s' /\ pr s' = fire (humidity_rule (pr s)) (pr s) /\
    put_all reported (announcements (humidity_rule (pr s)) (pr s)) (mq s) (mq s')).
Proof.
  intros Hs Hd. pose proof Hs as (_ & _ & (_ & ? & _) & _ & ? & _). unfold control_humidity, humidity_rule.
  wp_steps. do 2 (apply wp_shared; wp_steps). apply wp_shared. rewrite Hd. cbn [negb].
  destruct (Relay_State _); cbn [negb];
    (apply wp_when_rule; [done|]);
    (eapply (fire_spec _ humi Humi_Limit); [done|done|done|done|]); apply effect_relay.
Qed.

Lemma light_spec s :
  good s -> Light_Sensor_State (my_devices (pr s)) = true ->
  wp control_light s (fun _ s' => good s' /\ pr s' = fire (light_rule (pr s)) (pr s) /\
    put_all reported (announcements (light_rule (pr s)) (pr s)) (mq s) (mq s')).
Proof.
  intros Hs Hd. pose proof Hs as (_ & _ & (_ & _ & ? & _) & _ & _ & ? & ?). unfold control_light, light_rule.
  wp_steps. do 2 (apply wp_shared; wp_steps). apply wp_shared. rewrite Hd. cbn [negb].
  destruct (LED1_State _); cbn [negb];
    (apply wp_when_rule; [done|]);
    [eapply (fire_spec _ light Light_Up_Limit)|eapply (fire_spec _ light Light_Down_Limit)];
    try done; apply effect_light.
Qed.

Lemma fire_dht11 f p :
  f = temperature_rule p ->
  DHT11_Sensor_State (my_devices (fire f p)) = DHT11_Sensor_State (my_devices p).
Proof. intros ->. unfold temperature_rule. by repeat case_match. Qed.

Lemma climate_spec :
  obeys (d <- device_status ;; when (DHT11_Sensor_State d) (control_temperature ;;; control_humidity))
    [temperature_rule; humidity_rule].
Proof.
  intros s Hs. wp_steps. apply wp_shared. destruct (DHT11_Sensor_State _) eqn:Hd; cbn [when].
  - cbn [obey]. rewrite app_nil_r. cbn [fst snd]. wp_steps. eapply wp_mono; [by apply temperature_spec|]. cbn beta.
    intros _ s1 (Hs1 & Ep1 & Hq1). eapply wp_mono; [apply humidity_spec; [done|by rewrite Ep1, fire_dht11]|]. cbn beta.
    intros _ s2 (Hs2 & Ep2 & Hq2). rewrite Ep1 in *. split_and!; [done..|]. by eapply (put_all_app reported put_quiet).
  - apply wp_ret. assert (temperature_rule (pr s) = None) as E1 by (unfold temperature_rule; by rewrite Hd).
    assert (humidity_rule (pr s) = None) as E2 by (unfold humidity_rule; by rewrite Hd).
    cbn [obey]. rewrite E1. cbn [fire]. rewrite E2. by apply idle.
Qed.

Lemma daylight_spec : obeys (d <- device_status ;; when (Light_Sensor_State d) control_light) [light_rule].
Proof.
  apply obeys_rule. intros s Hs. wp_steps. apply wp_shared. destruct (Light_Sensor_State _) eqn:Hd; cbn [when].
  - by apply light_spec.
  - unfold light_rule. rewrite Hd. by apply wp_idle.
Qed.

Lemma turn_spec : obeys my_auto_control_entry rules.
Proof.
  intros s Hs. unfold my_auto_control_entry. wp_steps. eapply wp_mono; [apply act_mq2_ok, Hs|]. cbn beta.
  intros v s' [-> _]. pose proof (obeys_seq _ _ _ _ climate_spec daylight_spec s Hs) as H. clear v.
  unfold wp, bind in *. destruct (device_status s) as [[d s1]|]; [|done].
  exact H.
Qed.

End ControlFacts.

(** ** On the queue *)

Section QueueFacts.
Context {S : Type} `{act : !Actuators S, mine : !Lens S mqtt, ok : !ActuatorsOk S mqtt}.
Implicit Types s : S.

Abbreviation mq s := (view s : mqtt).
Abbreviation pr s := (view s : props).

(** C5. One turn of the control loop refines the rules: it does not fault; the devices
    change as the temperature, humidity and light rules say, each on the states the
    previous one left; and each rule that fires puts its alarm and then the new device
    states into the publish pipe, in order, nothing else being published. *)
Theorem auto_control_turn s :
  act_ok s -> mqtt_ok (mq s) -> data_int (pr s) ->
  wp my_auto_control_entry s (fun _ s' => act_ok s' /\ mqtt_ok (mq s') /\
    pr s' = (obey rules (pr s)).1 /\ queued (obey rules (pr s)).2 (mq s) (mq s')).
Proof.
  intros Hs Hm Hd. eapply wp_mono; [apply turn_spec; by split|]. cbn beta.
  intros _ s' ((? & ? & _) & ? & ?). by split_and!.
Qed.

(** C16. Settling: when the lower light limit is not above the upper one, a second turn on
    the same measurements changes no device and publishes nothing. *)
Theorem auto_control_settles s :
  act_ok s -> mqtt_ok (mq s) -> data_int (pr s) ->
  Light_Down_Limit (my_thresholds (pr s)) <= Light_Up_Limit (my_thresholds (pr s)) ->
  wp my_auto_control_entry s (fun _ s1 =>
    wp my_auto_control_entry s1 (fun _ s2 => pr s2 = pr s1 /\ quiet (mq s1) (mq s2))).
Proof.
  intros Hs Hm Hd Hl. eapply wp_mono; [apply turn_spec; by split|]. cbn beta.
  intros _ s1 (Hs1 & Ep1 & _). eapply wp_mono; [apply turn_spec, Hs1|]. cbn beta.
  intros _ s2 (_ & Ep2 & Hq2). pose proof (rules_settle (pr s) Hl) as E. rewrite Ep1, E in Hq2.
  rewrite Ep2, Ep1, E. by split.
Qed.

(** Crossed light limits: when the lower limit is above the upper one and the light is
    between them, every turn switches the fill light over, and raises an alarm. *)
Theorem crossed_limits_oscillate s :
  act_ok s -> mqtt_ok (mq s) -> data_int (pr s) ->
  Light_Sensor_State (my_devices (pr s)) = true ->
  Light_Up_Limit (my_thresholds (pr s)) < light (my_environment (pr s)) < Light_Down_Limit (my_thresholds (pr s)) ->
  wp my_auto_control_entry s (fun _ s' =>
    LED1_State (my_devices (pr s')) = negb (LED1_State (my_devices (pr s))) /\ ~ quiet (mq s) (mq s')).
Proof.
  intros Hs Hm Hd Hsen Hl. eapply wp_mono; [apply turn_spec; by split|]. cbn beta.
  intros _ s' (_ & Ep & Hq). destruct (crossed_light (pr s) Hsen Hl) as [E Hne]. rewrite Ep. split; [exact E|].
  by eapply queued_not_quiet.
Qed.

(** The alarm follows the temperature: while the sensor works and the buzzer and the
    door agree, they both end up on above the limit, off below it, and unchanged at it. *)
Theorem alarm_follows_temperature s :
  act_ok s -> mqtt_ok (mq s) -> data_int (pr s) ->
  DHT11_Sensor_State (my_devices (pr s)) = true ->
  Beep_State (my_devices (pr s)) = Door_State (my_devices (pr s)) ->
  wp my_auto_control_entry s (fun _ s' =>
    let on := match temp (my_environment (pr s)) ?= Temp_Limit (my_thresholds (pr s)) with
              | Gt => true | Lt => false | Eq => Beep_State (my_devices (pr s)) end in
    Beep_State (my_devices (pr s')) = on /\ Door_State (my_devices (pr s')) = on).
Proof.
  intros Hs Hm Hd Hsen Hbd. eapply wp_mono; [apply turn_spec; by split|]. cbn beta.
  intros _ s' (_ & -> & _). by apply alarm_rule.
Qed.

(** A masked alarm: while exactly one of the buzzer and the door is on (a command can
    bring that about), no temperature makes the control loop change either. *)
Theorem alarm_masked s :
  act_ok s -> mqtt_ok (mq s) -> data_int (pr s) ->
  Beep_State (my_devices (pr s)) <> Door_State (my_devices (pr s)) ->
  wp my_auto_control_entry s (fun _ s' =>
    Beep_State (my_devices (pr s')) = Beep_State (my_devices (pr s)) /\
    Door_State (my_devices (pr s')) = Door_State (my_devices (pr s))).
Proof.
  intros Hs Hm Hd Hbd. eapply wp_mono; [apply turn_spec; by split|]. cbn beta.
  intros _ s' (_ & -> & _). by apply masked_rule.
Qed.
End QueueFacts.
