(* ===== verification/Outbound.v ===== *)
(** * From the rules to the server

    The threads that report run beside the client's worker, whose priority
    ([RT_THREAD_PRIORITY_MAX / 3], [paho_mqtt_pipe.c]) is better than theirs
    ([RT_THREAD_PRIORITY_MAX / 2]): while the worker waits in [select], a message written
    to the pipe wakes it, and it runs before [write] returns. [served] is the [Publisher]
    with that interleaving. On it every report of every turn of the control thread and of
    the upload thread reaches the server, in order, as a packet that decodes to the
    report ([reports_reach_server]); AutoControl.v and [second_publish_lost] of MqttClient.v say
    what happens while the worker is held up on the network instead. *)

From stdpp Require Import base numbers list.
From Stdlib Require Import ZArith Lia.
From S2P Require Import Prelude CFloat Json DataUpload Actuators MqttPacket MqttClient MqttApp AutoControl.

Open Scope Z_scope.

(** ** Threads that wake the worker *)

(** The message's write wakes the worker from its [select]; its turn comes before the call
    returns to the thread. *)
Definition served {S : Type} `{!Lens S mqtt} : Publisher S := fun c =>
  rc <- in_mqtt c ;;
  in_mqtt (on_client pipe_turn) ;;;
  ret rc.

(** What the reporting threads do, and the environment the sampling threads leave for
    them. *)
Inductive activity : Set :=
  | Measure (e : Environment_t)
  | Control
  | Upload.

Section Threads.
Context {S : Type} `{!Actuators S, !Lens S mqtt, pub : !Publisher S}.

Definition perform (a : activity) : M S unit :=
  match a with
  | Measure e => shared (modify (on_environment (fun _ => e)))
  | Control => my_auto_control_entry
  | Upload => my_data_upload_entry ;;; ret tt
  end.

Fixpoint perform_all (l : list activity) : M S unit :=
  match l with
  | [] => ret tt
  | a :: l => perform a ;;; perform_all l
  end.
End Threads.

(** ** The specification *)

(** The shared data after an activity, and what it reports. *)
Definition reports (a : activity) (p : props) : props * list (bytes * json) :=
  match a with
  | Measure e => (on_environment (fun _ => e) p, [])
  | Control => obey rules p
  | Upload => (p, [(MQTT_SENSOR_PUBTOPIC, environment_doc (my_environment p))])
  end.

Fixpoint all_reports (l : list activity) (p : props) : props * list (bytes * json) :=
  match l with
  | [] => (p, [])
  | a :: l => let '(p1, docs1) := reports a p in let '(p2, docs2) := all_reports l p1 in (p2, docs1 ++ docs2)
  end.

Definition measured_int (a : activity) : Prop := match a with Measure e => environment_int e | _ => True end.

(** What the server makes of a packet: a QoS 1 publication of a text on the topic; the text
    parses to the report. What lies behind the send buffer in memory follows it. *)
Definition carries (doc : bytes * json) (packet : bytes) : Prop :=
  wp (MQTTDeserialize_publish packet) 0 (fun r _ => exists id t d text tail,
    r = (1, PublishOut (Some (0, QOS1, 0)) (Some id) (Some t) (Some d)) /\
    slice packet t = doc.1 /\ slice packet d = text ++ tail /\ cJSON_Parse text = Some doc.2).

(** ** How long a report is *)

Lemma members_width l p :
  Forall (fun m => exists n, int_range n /\ m.2 = num n) l -> print_members l = Some p ->
  (length p <= 1 + foldr (fun m k => length (print_string_ptr m.1) + 13 + k) 0 l)%nat.
Proof.
  intros Hl. revert p. induction Hl as [|[k v] l (n & Hn & Hv) Hl IH]; intros p Hp; cbn [print_members] in Hp.
  - by injection Hp as <-.
  - cbn [snd] in Hv. rewrite Hv in Hp. unfold num in Hp. cbn [print_value] in Hp. rewrite print_number_int in Hp by done.
    destruct (print_members l) as [t|]; [|done]. apply (inj Some) in Hp as <-. specialize (IH t eq_refl).
    destruct (sprintf_d_chars n Hn) as [Hw _]. cbn [foldr fst]. rewrite !length_app.
    destruct l; cbn [length Datatypes.app]; lia.
Qed.

Lemma num_int z : int_range z -> exists n, int_range n /\ num z = num n.
Proof. intros Hz. by exists z. Qed.

Definition REPORT_MAX : nat := 184.

Lemma report_width topic doc text :
  report topic doc -> cJSON_PrintUnformatted doc = Some text -> (length text <= REPORT_MAX)%nat.
Proof.
  assert (forall l, Forall (fun m => exists n, int_range n /\ m.2 = num n) l ->
    (2 + foldr (fun m k => length (print_string_ptr m.1) + 13 + k) 0 l <=? REPORT_MAX)%nat = true ->
    cJSON_PrintUnformatted (JObject l) = Some text -> (length text <= REPORT_MAX)%nat) as Hw.
  { intros l Hl Hb%Nat.leb_le Hp. unfold cJSON_PrintUnformatted in Hp. rewrite print_object in Hp.
    destruct (print_members l) as [p|] eqn:E; [|done]. apply (inj Some) in Hp as <-.
    pose proof (members_width l p Hl E). cbn [length]. lia. }
  intros [e (? & ? & ? & ?)|d|t a h Ht Ha Hh]; apply Hw; try reflexivity;
    unfold environment_doc, status_doc, alarm_doc;
    repeat (apply Forall_cons; split; [apply num_int; first [done|apply b2z_range]|]); by apply Forall_nil.
Qed.

(** ** The channel *)

(** The worker waits on an empty pipe; the network takes what it sends; what lies behind a
    send buffer is at most 256 bytes long. *)
Record channel (m : mqtt) : Prop := {
  channel_ok : mqtt_ok m;
  channel_empty : pub_pipe (m_client m) = [];
  channel_send : sock_send (m_client m) = [];
  channel_tails : Forall (fun t => (length t <= 256)%nat) (tails m)
}.

(** One report sent. *)
Definition sent_report (topic : bytes) (doc : json) (m m' : mqtt) : Prop :=
  tails m' = tl (tails m) /\ stack_junk (m_client m') = stack_junk (m_client m) /\
  exists packet, sent (m_client m') = sent (m_client m) ++ [packet] /\ carries (topic, doc) packet.

Lemma sent_quiet topic doc m1 m2 m3 : quiet m1 m2 -> sent_report topic doc m2 m3 -> sent_report topic doc m1 m3.
Proof.
  intros (_ & Ej & Et & Es & _) (Et' & Ej' & packet & Es' & Hc). unfold sent_report.
  rewrite Et', Ej', Es', Et, Ej, Es. split_and!; [done..|]. by exists packet.
Qed.

Lemma report_topic topic doc : report topic doc ->
  Forall (fun b => b <> 0) topic /\ (0 < length topic <= 13)%nat.
Proof.
  intros [e _|d|t a h _ _ _]; (split; [by repeat constructor|cbn; lia]).
Qed.

Lemma report_parses topic doc : report topic doc ->
  exists text, cJSON_PrintUnformatted doc = Some text /\ cJSON_Parse text = Some doc.
Proof.
  intros [e He|d|t a h Ht Ha Hh]; apply print_parse_tree; try done.
  - by apply environment_printable.
  - apply status_printable.
  - by apply alarm_printable.
Qed.

(** A report and what follows it fit the pipe. *)
Lemma report_fits topic doc text tail :
  report topic doc -> cJSON_PrintUnformatted doc = Some text -> (length tail <= 256)%nat -> frame_ok topic (text ++ tail).
Proof.
  intros Hr Hp Ht. destruct (report_topic _ _ Hr) as [Hn Hl]. split; [done|].
  pose proof (report_width _ _ _ Hr Hp). unfold REPORT_MAX, PIPE_BUFSZ in *. rewrite length_app. lia.
Qed.

(** The worker's packet, decoded. *)
Lemma packet_carries id topic doc text tail packet :
  report topic doc -> cJSON_PrintUnformatted doc = Some text -> 0 <= id < 65536 ->
  packet_of id topic (text ++ tail) = inr packet -> carries (topic, doc) packet.
Proof.
  intros Hr Hp Hi Hk. destruct (report_topic _ _ Hr) as [_ Hl]. destruct (report_parses _ _ Hr) as (text' & Hp' & Hparse).
  assert (text' = text) as -> by congruence.
  assert (wp (MQTTDeserialize_publish (packet ++ [])) 0 (fun r _ => exists t d,
    r = (1, PublishOut (Some (0, QOS1, 0)) (Some id) (Some t) (Some d)) /\
    slice (packet ++ []) t = topic /\ slice (packet ++ []) d = text ++ tail)) as Hw.
  { apply (published_reads 1024 0 QOS1 0 id (c_str topic) (text ++ tail)); try done; [by right|cbn; lia]. }
  rewrite app_nil_r in Hw. eapply wp_mono; [exact Hw|]. cbn beta.
  intros r p (t & d & -> & Ht & Hd). exists id, t, d, text, tail. by split_and!.
Qed.

(** ** The publisher keeps its promise *)

Section Served.
Context {S : Type} `{act : !Actuators S, mine : !Lens S mqtt, ok : !ActuatorsOk S mqtt}.
Implicit Types s : S.

Abbreviation mq s := (view s : mqtt).
Abbreviation pr s := (view s : props).

(** The worker's turn on the one message in the pipe. *)
Lemma worker_sends topic doc m m1 :
  channel m -> report topic doc -> announced topic doc m m1 ->
  wp (on_client pipe_turn) m1 (fun _ m2 => channel m2 /\ sent_report topic doc m m2).
Proof.
  intros [Hm He Hs Ht] Hr Ha. pose proof (announced_ok _ _ _ _ Hm Ha) as [Hc1 _].
  destruct Ha as (text & l & Hp & Hl & ->). cbn [m_client] in Hc1. rewrite He in *.
  assert (length (hd [] (tails m)) <= 256)%nat as Hh by (destruct Ht; [cbn; lia|done]).
  pose proof (report_fits _ _ _ _ Hr Hp Hh) as Hf. set (tail := hd [] (tails m)) in *.
  pose proof (ok_junk _ Hc1) as Hj. cbn [stack_junk set_pipe set_mallocs] in Hj.
  set (id := (stack_junk (m_client m)).1.2). assert (0 <= id < 65536) as Hi by (unfold id; by destruct (stack_junk _) as [[? ?] ?]).
  destruct (packet_exists id topic (text ++ tail) Hf) as [packet Hk].
  apply wp_zoom. eapply wp_mono; [apply (pipe_turn_spec _ (stack_junk (m_client m)) topic (text ++ tail) [] packet Hc1); try done|].
  - by rewrite app_nil_r.
  - cbn [pub_pipe set_pipe set_mallocs Datatypes.app]. rewrite frame_length. apply Hf.
  - cbn beta. intros t c2 (_ & Hc2 & Hp2 & Hsent & Hss & Hjk). split.
    + split; [split; [done|apply Hm]|done|done|]. by apply Forall_tail.
    + split; [done|]. split; [exact Hjk|]. exists packet. split; [exact Hsent|]. by eapply packet_carries.
Qed.

#[export, refine] Instance served_ok : PublisherOk S (pub := served) := {| chan_ok := channel; reported := sent_report |}.
Proof.
  - by intros m [].
  - exact sent_quiet.
  - intros c topic doc s Hs Hm Hr Hc. unfold announce, served. wp_steps.
    eapply wp_in_mqtt; [done|exact Hc|]. cbn beta. intros rc m1 s1 [-> Ha] Hs1 Em1 Ep1 _. wp_steps.
    eapply wp_in_mqtt; [done|rewrite Em1; by apply (worker_sends topic doc (mq s))|]. cbn beta.
    intros _ m2 s2 [Hm2 Hput] Hs2 Em2 Ep2 _. wp_steps. rewrite Em2, Ep2, Ep1. by split_and!.
Defined.

End Served.

(** ** Activities, whoever publishes *)

Section Activities.
Context {S : Type} `{act : !Actuators S, mine : !Lens S mqtt, ok : !ActuatorsOk S mqtt}.
Context `{pub : !Publisher S, pub_ok : !PublisherOk S}.
Implicit Types s : S.

Abbreviation mq s := (view s : mqtt).
Abbreviation pr s := (view s : props).

Lemma perform_spec a s :
  good s -> measured_int a ->
  wp (perform a) s (fun _ s' => good s' /\ pr s' = (reports a (pr s)).1 /\ put_all reported (reports a (pr s)).2 (mq s) (mq s')).
Proof.
  intros Hs Ha. destruct a as [e| |]; cbn [perform reports fst snd].
  - destruct Hs as (Hs & Hm & Hd). eapply wp_mono; [apply (shared_spec (on_environment (fun _ => e))); [done|by split_and!]|].
    cbn beta. intros _ s' (Hs' & Em & Ep & _). unfold good. rewrite Em, Ep. split_and!; try done.
    + split; [exact Ha|apply Hd].
    + by apply quiet_refl, chan_mqtt_ok.
  - by apply turn_spec.
  - wp_steps. eapply wp_mono; [by apply upload_spec|]. cbn beta. intros rc s' (_ & Hs' & Ep & Hp). wp_steps.
    split_and!; try done. exists (mq s'). split; [done|]. apply quiet_refl, chan_mqtt_ok, Hs'.
Qed.

Lemma perform_all_spec l s :
  good s -> Forall measured_int l ->
  wp (perform_all l) s (fun _ s' => good s' /\ pr s' = (all_reports l (pr s)).1 /\
    put_all reported (all_reports l (pr s)).2 (mq s) (mq s')).
Proof.
  intros Hs Hl. revert s Hs. induction Hl as [|a l Ha Hl IH]; intros s Hs; cbn [perform_all all_reports].
  - apply wp_ret. split_and!; try done. apply quiet_refl, chan_mqtt_ok, Hs.
  - wp_steps. eapply wp_mono; [by apply perform_spec|]. cbn beta. intros _ s1 (Hs1 & Ep1 & Hq1).
    eapply wp_mono; [by apply IH|]. cbn beta. intros _ s2 (Hs2 & Ep2 & Hq2). rewrite Ep1 in *.
    destruct (reports a (pr s)) as [p1 docs1]. cbn [fst snd] in *. destruct (all_reports l p1) as [p2 docs2].
    cbn [fst snd] in *. split_and!; try done. by eapply (put_all_app reported put_quiet).
Qed.
End Activities.

Lemma sent_all docs m m' : put_all sent_report docs m m' ->
  exists packets, sent (m_client m') = sent (m_client m) ++ packets /\ Forall2 carries docs packets.
Proof.
  revert m. induction docs as [|[topic doc] docs IH]; intros m; cbn.
  - intros (_ & _ & _ & E & _). exists []. by rewrite app_nil_r.
  - intros (m1 & (_ & _ & packet & E & Hc) & Hall). destruct (IH m1 Hall) as (packets & E' & Hall').
    exists (packet :: packets). rewrite E', E, <- app_assoc. split; [done|by constructor].
Qed.

(** ** Every report reaches the server *)

Section Server.
Context {S : Type} `{act : !Actuators S, mine : !Lens S mqtt, ok : !ActuatorsOk S mqtt}.
Implicit Types s : S.

Abbreviation mq s := (view s : mqtt).
Abbreviation pr s := (view s : props).

(** C3. Every report reaches the server: while the worker waits on an empty pipe and the
    network takes what it sends, whatever sequence of samplings, turns of the control
    thread and turns of the upload thread runs, nothing faults, the devices change as the
    rules say, and the client sends exactly one packet per report, in the order in which
    the threads made them; each decodes to a QoS 1 publication on the report's topic, whose
    text parses to the report. The pipe is empty again. *)
Theorem reports_reach_server l s :
  act_ok s -> channel (mq s) -> data_int (pr s) -> Forall measured_int l ->
  wp (perform_all (pub := served) l) s (fun _ s' =>
    act_ok s' /\ pr s' = (all_reports l (pr s)).1 /\ pub_pipe (m_client (mq s')) = [] /\
    exists packets, sent (m_client (mq s')) = sent (m_client (mq s)) ++ packets /\
      Forall2 carries (all_reports l (pr s)).2 packets).
Proof.
  intros Hs Hm Hd Hl. eapply wp_mono; [apply (perform_all_spec (pub := served)); [by split|done]|]. cbn beta.
  intros _ s' ((Hs' & Hm' & _) & Ep & Hq). split_and!; try done; [apply Hm'|]. by apply sent_all.
Qed.
End Server.
