(* ===== verification/System.v ===== *)
(** * The whole controller

    The controller once [main] has set it up (Boot.v): the board of
    Actuators.v beside the application of MqttApp.v. An [event] is an interrupt, a turn of a
    thread or a message from the server; [reachable] collects the states they lead to. The
    invariant [good] joins the invariants of the parts. *)

From stdpp Require Import base numbers list gmap strings.
From Stdlib Require Import ZArith Lia.
From S2P Require Import Prelude Gpio Device CFloat Tim HwTimer Pwm Adc Display DataUpload Actuators ActuatorProps Sensors Json MqttPacket MqttClient MqttApp Session AutoControl.

Open Scope Z_scope.

(** ** The board at the start *)

(** The state in which [main] starts: the drivers have registered their devices, the timer
    has not been opened, the PWM timer is not a slave (see [stm32_hw_pwm_init_spec]), the
    variables hold their initial values. *)
Record board_start (levels : Z -> Z) (b : board) : Prop := {
  start_gpio : b_gpio b = set_hw_pin_ops (gpio_reset levels);
  start_timer : stands_for Closed (b_timer b) /\ rx_indicate (tdev (b_timer b)) = None;
  start_devices : Forall (fun name => is_Some (rt_object_find name (b_objs b)))
    [HWTIMER_DEV_NAME; PWM_DEV_NAME; ADC_LIGHT_DEV_NAME; ADC_MQ2_DEV_NAME];
  start_pwm : Z.land (pwm_regs (b_pwm b) SMCR) TIM_SMCR_SMS = 0;
  start_props : b_props b = initial_props;
  start_angle : angle (b_app b) = 0
}.

Record mqtt_begin (m : mqtt) : Prop := {
  begin_started : is_started m = false;
  begin_mallocs : Forall (fun b => b = true) (mallocs (m_client m));
  begin_pipe : pub_pipe (m_client m) = []
}.

Section BootFacts.
Implicit Types b : board.

(** The pins after [my_GPIO_Init]: the outputs at rest, the keys attached and enabled. *)
Definition keys_attached (g : gpio key_handler) : Prop :=
  hdr_at g 4 = Pin_irq_hdr KEY0_PIN PIN_IRQ_MODE_FALLING (Some IQR_HANDALE_KEY0_h) 0 /\
  hdr_at g 3 = Pin_irq_hdr KEY1_PIN PIN_IRQ_MODE_FALLING (Some IQR_HANDALE_KEY1_h) 0 /\
  nvic g = {[EXTI4_IRQn; EXTI3_IRQn]}.

Lemma gpio_init_runs levels b : b_gpio b = set_hw_pin_ops (gpio_reset levels) ->
  exists g, my_GPIO_Init b = Ok (tt, over g b) /\ pins_ok g (my_devices initial_props) /\ keys_attached g.
Proof.
  intros E. destruct b as [g t p a3 a2 o pr ap]. cbn in E. subst g.
  eexists. split; [vm_compute; reflexivity|]. split; [split|].
  - reflexivity.
  - repeat constructor; eexists; vm_compute; reflexivity.
  - vm_compute. reflexivity.
  - vm_compute. reflexivity.
  - vm_compute. reflexivity.
  - intros _. vm_compute. reflexivity.
  - split_and!; vm_compute; reflexivity.
Qed.

Lemma rt_adc_enable_frame ch (a : adc) :
  wp (rt_adc_enable stm_adc_ops true ch) a (fun _ _ => True).
Proof. unfold rt_adc_enable. cbn. by repeat wp_step. Qed.

(** Setting the pulse, then enabling the channel, on a timer that is not a slave. *)
Lemma servo_starts per pul (p : pwm) :
  0 <= per < 2 ^ 32 -> 0 <= pul < 2 ^ 32 -> Z.land (pwm_regs p SMCR) TIM_SMCR_SMS = 0 ->
  wp (rt_pwm_set true PWM_DEV_CHANNEL per pul ;;; rt_pwm_enable true PWM_DEV_CHANNEL) p (fun r p' =>
    r = RT_EOK /\ servo_on p' /\ servo_regs p' per pul).
Proof.
  intros Hper Hpul Hs. unfold rt_pwm_set, rt_pwm_enable, rt_device_control. cbn [device_control pwm_driver negb].
  unfold _pwm_control. wp_steps. set (c := Pwm_configuration _ per pul).
  change (drv_pwm_control PWM_CMD_SET c) with (r <- drv_pwm_set c ;; ret (r, c)). wp_steps.
  eapply wp_mono; [by apply drv_pwm_set_spec|]. cbn beta. intros r p1 (_ & _ & E1 & E2 & E3 & Hf). wp_steps.
  change (drv_pwm_control PWM_CMD_ENABLE (Pwm_configuration PWM_DEV_CHANNEL 0 0)) with
    (r <- drv_pwm_enable (Pwm_configuration PWM_DEV_CHANNEL 0 0) true ;; ret (r, Pwm_configuration PWM_DEV_CHANNEL 0 0)).
  unfold drv_pwm_enable. wp_steps. cbn [fst]. split; [done|]. rewrite <- Hf in Hs by (apply (bool_decide_unpack _); vm_compute; exact I).
  change (ccr (hal_channel c)) with CCR1 in E3. cbn [period pulse c] in E1, E2, E3.
  unfold servo_on, servo_regs. cbn [pwm_regs set_pwm_regs]. unfold HAL_TIM_PWM_Start, enable_unless_triggered, TIM_CCxChannelCmd.
  tim_simp. rewrite Hs. change (negb (0 =? TIM_SLAVEMODE_TRIGGER)) with true. cbv iota. tim_simp.
  split; [split; [|done]|by split_and!]. change (hal_channel _) with 0.
  rewrite u16_testbit, Z.lor_spec by lia. apply orb_true_r.
Qed.

(** What the rest of the set-up keeps. *)
Definition kept b b' : Prop :=
  b_gpio b' = b_gpio b /\ b_timer b' = b_timer b /\ b_objs b' = b_objs b /\ b_props b' = b_props b /\
  angle (b_app b') = angle (b_app b) /\ b_oled b' = b_oled b.

(** The converters leave the PWM timer alone. *)
Definition kept_all b b' : Prop := kept b b' /\ b_pwm b' = b_pwm b.

Lemma light_adc_spec b : is_Some (rt_object_find ADC_LIGHT_DEV_NAME (b_objs b)) ->
  wp my_light_ADC_Init b (fun r b' => r = RT_EOK /\ kept_all b b' /\ is_Some (adc_light_dev (b_app b'))).
Proof.
  intros [d Hd]. unfold my_light_ADC_Init, find_device, app_modify, light_adc. wp_steps.
  apply wp_zoom. unfold rt_device_find. wp_steps. cbn [view board_objs]. rewrite Hd. apply wp_zoom. wp_steps.
  apply wp_zoom. eapply wp_mono; [apply rt_adc_enable_frame|]. cbn beta. intros r a _. wp_steps. cbn. by split_and!.
Qed.
Lemma mq2_adc_spec b : is_Some (rt_object_find ADC_MQ2_DEV_NAME (b_objs b)) ->
  wp my_mq2_ADC_Init b (fun r b' => r = RT_EOK /\ kept_all b b' /\ is_Some (adc_mq2_dev (b_app b')) /\
    adc_light_dev (b_app b') = adc_light_dev (b_app b)).
Proof.
  intros [d Hd]. unfold my_mq2_ADC_Init, find_device, app_modify, mq2_adc. wp_steps.
  apply wp_zoom. unfold rt_device_find. wp_steps. cbn [view board_objs]. rewrite Hd. apply wp_zoom. wp_steps.
  apply wp_zoom. eapply wp_mono; [apply rt_adc_enable_frame|]. cbn beta. intros r a _. wp_steps. cbn. by split_and!.
Qed.
Lemma pwm_init_spec b : is_Some (rt_object_find PWM_DEV_NAME (b_objs b)) -> Z.land (pwm_regs (b_pwm b) SMCR) TIM_SMCR_SMS = 0 ->
  wp my_pwm_init b (fun _ b' => kept b b' /\ door_period (b_app b') = servo_period /\ pwm_dev (b_app b') = rt_object_find PWM_DEV_NAME (b_objs b) /\
    servo_on (b_pwm b') /\ servo_regs (b_pwm b') servo_period rest_pulse /\
    adc_light_dev (b_app b') = adc_light_dev (b_app b) /\ adc_mq2_dev (b_app b') = adc_mq2_dev (b_app b)).
Proof.
  intros [d Hd] Hs. pose proof (servo_starts servo_period rest_pulse (b_pwm b) ltac:(unfold servo_period; lia) ltac:(unfold rest_pulse; lia) Hs) as Hw.
  unfold my_pwm_init, find_device, app_modify, app_gets, pwm_do. wp_steps.
  apply wp_zoom. unfold rt_device_find. wp_steps. cbn [view board_objs]. rewrite Hd. apply wp_zoom. wp_steps.
  apply wp_zoom. unfold bind, wp in Hw. unfold wp at 1. cbn [view board_pwm b_pwm over board_objs board_app b_app door_period set_door].
  change (20 * 1000000) with servo_period. change 500000 with rest_pulse.
  destruct (rt_pwm_set true PWM_DEV_CHANNEL servo_period rest_pulse (b_pwm b)) as [[r1 p1]|]; [|done].
  wp_steps. apply wp_zoom. unfold wp at 1. cbn [view over board_pwm b_pwm].
  destruct (rt_pwm_enable true PWM_DEV_CHANNEL p1) as [[r2 p2]|]; [|done]. destruct Hw as (_ & Hon & Hregs).
  wp_steps. cbn. by split_and!.
Qed.

(** The hardware's part of [main]. *)
Lemma board_setup_spec levels b : board_start levels b ->
  wp (my_GPIO_Init ;;; oled my_oled_init ;;; my_light_ADC_Init ;;; my_mq2_ADC_Init ;;; my_pwm_init) b (fun _ b' =>
    board_ok b' /\ keys_attached (b_gpio b') /\ b_props b' = initial_props /\
    is_Some (adc_light_dev (b_app b')) /\ is_Some (adc_mq2_dev (b_app b')) /\ door_ok b' /\ angle (b_app b') = 0 /\ b_oled b' = b_oled b ++ title_shown).
Proof.
  intros [Hg Ht Hd Hw Hp Ha]. destruct (gpio_init_runs levels b Hg) as (g & Eg & Hpins & Hkeys).
  rewrite !Forall_cons in Hd. destruct Hd as (Hd1 & Hd2 & Hd3 & Hd4 & _).
  wp_steps. unfold wp at 1. rewrite Eg. wp_steps. unfold oled. apply wp_zoom, oled_init_spec. cbn [view over board_oled]. wp_steps.
  eapply wp_mono; [by apply light_adc_spec|]. cbn beta. intros _ b1 (_ & ((G1 & T1 & O1 & P1 & A1 & D1) & W1) & L1). wp_steps.
  eapply wp_mono; [apply mq2_adc_spec; by rewrite O1|]. cbn beta. intros _ b2 (_ & ((G2 & T2 & O2 & P2 & A2 & D2) & W2) & L2 & L2'). wp_steps.
  eapply wp_mono; [apply pwm_init_spec; [by rewrite O2, O1|by rewrite W2, W1]|]. cbn beta.
  intros _ b3 ((G3 & T3 & O3 & P3 & A3 & D3) & Per & L3 & Hon & Hregs & L3' & L3'').
  assert (b_gpio b3 = g) as Eg3 by (by rewrite G3, G2, G1). assert (b_timer b3 = b_timer b) as Et by (by rewrite T3, T2, T1).
  assert (b_objs b3 = b_objs b) as Eo by (by rewrite O3, O2, O1). assert (b_props b3 = initial_props) as Ep by (by rewrite P3, P2, P1).
  assert (angle (b_app b3) = 0) as Ea by (by rewrite A3, A2, A1).
  assert (b_oled b3 = b_oled b ++ title_shown) as Eoled by (by rewrite D3, D2, D1).
  rewrite Eg3, Ep, Eoled, L3', L3'', L2'. split_and!; try done.
  - split; rewrite ?Eg3, ?Ep, ?Et, ?Eo; [done|exact Ht|by split|by left].
  - split; [by rewrite L3, O2, O1|done|done|exists rest_pulse; split; [done|by right]|rewrite Ep, Ea; done].
Qed.

End BootFacts.

(** The client after [mqtt_start]: configured, with its buffers, not yet connected. *)
Definition configured (tick : Z) (m m' : mqtt) : Prop :=
  is_started m' = true /\ isconnected (m_client m') = false /\ condata (m_client m') = start_condata tick /\
  readbuf (m_client m') = replicate 1024 0 /\ buf_size (m_client m') = 1024 /\ readbuf_size (m_client m') = 1024 /\
  Forall (fun ok => ok = true) (mallocs (m_client m')) /\ pub_pipe (m_client m') = [] /\
  messageHandlers (m_client m') = messageHandlers (m_client m) /\ UUID m' = UUID m.

Lemma mqtt_start_spec tick m : mqtt_begin m ->
  wp (mqtt_start tick) m (fun r m' => r = (0, true) /\ configured tick m m').
Proof.
  intros [Hs Hm Hp]. unfold mqtt_start, rt_malloc_ok, on_client, paho_mqtt_start. wp_step. unfold get at 1, wp at 1. rewrite Hs.
  wp_steps. apply wp_zoom, wp_malloc; [done|]. intros l1 Hl1. wp_steps. apply wp_zoom, wp_malloc; [done|].
  intros l2 Hl2. wp_steps. apply wp_zoom, wp_modify. cbn [negb andb]. wp_steps. apply wp_zoom, wp_modify. wp_steps.
  apply wp_zoom. wp_steps. apply wp_malloc; [done|]. intros l3 Hl3. cbn [negb]. wp_steps.
  apply wp_malloc; [done|]. intros l4 Hl4. cbn [negb]. wp_steps.
  apply wp_malloc; [done|]. intros l5 Hl5. wp_steps. split; [done|]. unfold configured. cbn. by split_and!.
Qed.

(** ** A command from the network to the outputs *)

#[export] Instance system_mqtt_client : Lens (system mqtt) (mqtt_client mqtt_cb) :=
  lens_compose system_client mqtt_client_lens.

Lemma app_handlers_distinct : distinct_filters app_handlers.
Proof.
  split.
  - apply (bool_decide_unpack _). vm_compute. exact I.
  - apply (bool_decide_unpack (Forall (Forall (fun c => c <> 43 /\ c <> 35)) _)). vm_compute. exact I.
Qed.

Lemma with_stream_id (c : mqtt_client mqtt_cb) packet :
  sock_recv c = [RecvData packet] -> packet <> [] -> with_stream c packet = c.
Proof.
  intros H Hn. unfold with_stream, stream. rewrite bool_decide_false by done. rewrite <- H. by destruct c.
Qed.

(** The outputs against the announced states: the fill light and the fan are as announced; the
    alarm timer runs exactly while the alarm is announced, the buzzer is silent while it is
    not, and the warning lamp is lit exactly while the buzzer sounds, whatever [LED0_State]
    announces for it (see [warning_light_dark]); the servo gets the pulse of one of its three
    positions, of at least 90 degrees while the door is announced open, of at most 90 while it
    is announced closed (see [door_left_ajar]). *)
Record outputs (b : board) (d : Devices_t) : Prop := {
  out_light : level (b_gpio b) LED1_PIN = if LED1_State d then PIN_LOW else PIN_HIGH;
  out_fan : level (b_gpio b) Relay_PIN = if Relay_State d then PIN_HIGH else PIN_LOW;
  out_lamp : level (b_gpio b) LED0_PIN = if level (b_gpio b) BEEP_PIN =? PIN_HIGH then PIN_LOW else PIN_HIGH;
  out_quiet : Beep_State d = false -> level (b_gpio b) BEEP_PIN = PIN_LOW;
  out_timer : timer_ok (b_timer b) (hw_dev (b_app b)) (Beep_State d);
  out_servo : door_drives b;
  out_door : if Door_State d then 90 <= servo_position (b_pwm b) else servo_position (b_pwm b) <= 90
}.

(** The lamp that no command lights: a command whose only member is [warningLight] sets the
    announced [LED0_State], but while there is no alarm the lamp's pin stays at the level
    that keeps it dark. *)
Lemma warning_light_dark md (s : system mqtt) (on : bool) :
  board_ok (sys_board s) -> door_ok (sys_board s) -> mqtt_ok (sys_client s) -> place_ok (msg_payload (md_message md)) ->
  cJSON_Parse (payload_text (sys_client s) md) = Some (JObject [(str "warningLight", if on then JTrue else JFalse)]) ->
  uuid_ok (UUID (sys_client s)) -> Beep_State (my_devices (b_props (sys_board s))) = false ->
  wp (mqtt_dev_control_callback md) s (fun _ s' =>
    LED0_State (my_devices (b_props (sys_board s'))) = on /\ level (b_gpio (sys_board s')) LED0_PIN = PIN_HIGH).
Proof.
  intros Hb Hd Hm Hp Hroot Hu Hquiet.
  pose proof (dev_control_spec md s (conj Hb Hd) Hm Hp) as Hw. cbv zeta in Hw.
  change (@view _ mqtt system_client s) with (sys_client s) in Hw. rewrite Hroot in Hw. specialize (Hw Hu).
  eapply wp_mono; [exact Hw|]. cbn beta. intros _ s' ((Hb' & _) & Ep & _).
  change (b_props (sys_board s') = on_devices (with_led0 (is_true (if on then JTrue else JFalse))) (b_props (sys_board s))) in Ep.
  pose proof (ok_pins _ Hb') as Hpins. rewrite Ep in Hpins |- *. split; [by destruct on|].
  rewrite (ok_lamp _ _ Hpins), (ok_quiet _ _ Hpins Hquiet). done.
Qed.

Lemma board_outputs b : board_ok b -> door_ok b -> outputs b (my_devices (b_props b)).
Proof.
  intros Hb Hd. pose proof (door_ok_drives b Hb Hd) as Hs. destruct Hb as [Hp Ht _ _]. destruct Hp. split; try done.
  rewrite (drives_position _ Hs). apply Hd.
Qed.

(** The acknowledgement of a QoS 1 message. *)
Lemma acknowledge_spec id (c : mqtt_client mqtt_cb) :
  client_ok c -> sock_send c = [] -> exists puback, MQTTSerialize_ack 1024 PUBACK 0 id = inr puback /\
    wp (acknowledge QOS1 id) c (fun rc c' => rc = PAHO_SUCCESS /\ pub_pipe c' = pub_pipe c /\ sent c' = sent c ++ [puback]).
Proof.
  intros [_ _ [Hs _] _ _] Hsend. assert (exists p, MQTTSerialize_ack 1024 PUBACK 0 id = inr p) as [p Hp] by (eexists; reflexivity).
  exists p. split; [done|]. unfold acknowledge. wp_steps. rewrite Hs.
  cbn [Z.eqb Pos.eqb QOS1]. rewrite Hp. unfold sendPacket. wp_step. unfold get at 1, wp at 1. rewrite Hsend. by wp_steps.
Qed.

(** C2. From the network to the outputs: a control command arrives whole on the socket, in
    a packet shorter than the read buffer, on a connection that takes what is sent; the
    answer's identifier has not been freed (the command carries one, or none was left). Then
    one turn of the client obeys the command. The callback runs without fault and the announced states
    change as the command's members say. The fill light, the fan and the alarm timer are as
    the new states say, the buzzer is silent when the alarm is off, and the warning lamp
    follows the buzzer: the member [warningLight] changes only the announced [LED0_State]. The
    servo turns one step in the direction of the [emergencyDoor] member, or stays without one,
    and gets the pulse of its position. The answer with the command's identifier is queued,
    and the packet is acknowledged. *)
Theorem control_packet (s : system mqtt) dup retained id payload packet :
  let m := sys_client s in
  board_ok (sys_board s) -> door_ok (sys_board s) -> mqtt_ok m -> sock_send (m_client m) = [] ->
  sock_recv (m_client m) = [RecvData packet] -> messageHandlers (m_client m) = app_handlers ->
  0 <= dup < 2 -> 0 <= retained < 2 -> 0 <= id < 65536 -> (length packet < 1024)%nat ->
  MQTTSerialize_publish 1024 dup QOS1 retained id (c_str MQTT_DEVICE_SUBTOPIC) payload = inr packet ->
  let root := cJSON_Parse (c_string payload) in
  let u := uuid_effect root (UUID m) in
  uuid_ok u ->
  wp (MQTT_cycle (run_cb (S := system mqtt))) s (fun rc s' => rc = PAHO_SUCCESS /\
    b_props (sys_board s') = device_effect root (b_props (sys_board s)) /\
    outputs (sys_board s') (my_devices (device_effect root (b_props (sys_board s)))) /\
    servo_position (b_pwm (sys_board s')) = door_turn root (servo_position (b_pwm (sys_board s))) /\
    exists puback text, MQTTSerialize_ack 1024 PUBACK 0 id = inr puback /\
      cJSON_PrintUnformatted (dev_response u) = Some text /\
      sent (m_client (sys_client s')) = sent (m_client m) ++ [puback] /\
      pub_pipe (m_client (sys_client s')) = pub_pipe (m_client m) ++
        frame (stack_junk (m_client m)) MQTT_DEVICE_PUBTOPIC (text ++ hd [] (tails m))).
Proof.
  intros m Hb Hdoor Hm Hsend Hrecv Hh Hd Hr Hi Hl Hpk root u Hu. set (c := m_client m).
  assert (packet <> []) as Hne by (intros ->; by destruct (publish_parts _ _ _ _ _ _ Hpk)).
  destruct (cycle_publish (run_cb (S := system mqtt)) c s
    (Handler (Some MQTT_DEVICE_SUBTOPIC) (Some mqtt_dev_control_callback_h) QOS1) mqtt_dev_control_callback_h
    dup retained id MQTT_DEVICE_SUBTOPIC payload packet) as (md & buf & E & Hbuf & _ & Hpay & Hplace);
    try done; [by rewrite with_stream_id|apply Hm|unfold c; rewrite Hh; apply app_handlers_distinct|unfold c; rewrite Hh; do 2 constructor|].
  unfold wp. rewrite E. set (s1 := over _ s). cbn [run_cb].
  set (m1 := over (with_stream (set_readbuf buf c) []) m : mqtt).
  assert (s1 = System (sys_board s) m1) as Es by reflexivity. rewrite Es. clear E.
  assert (mqtt_ok m1) as Hm1 by (destruct Hm as [[? ? ? ? ?] ?]; by split).
  assert (payload_text m1 md = c_string payload) as Ept by (unfold payload_text; by rewrite <- Hpay).
  assert (place_ok (msg_payload (md_message md))) as Hpl by (destruct (msg_payload _) as [p n]; unfold place_ok; cbn [fst snd]; lia).
  pose proof (dev_control_spec md (System (sys_board s) m1) (conj Hb Hdoor) Hm1 Hpl) as Hspec. cbv zeta in Hspec.
  change (@view _ mqtt system_client (System (sys_board s) m1)) with m1 in Hspec. rewrite Ept in Hspec. specialize (Hspec Hu).
  apply wp_total in Hspec as ([] & s2 & E & [Hok Hok2] & Hp & Ha2 & Hu2 & Hpub). unfold bind. rewrite E.
  destruct Hpub as (Hm2 & Hj & Ht & Hsent & Hss & _ & _ & text & Htext & Hpipe).
  destruct (acknowledge_spec id (m_client (sys_client s2))) as (puback & Hack & Ha); [apply Hm2|exact (eq_trans Hss Hsend)|].
  unfold client, zoom. unfold wp in Ha. change (@view _ _ system_mqtt_client s2) with (m_client (sys_client s2)).
  destruct (acknowledge QOS1 id (m_client (sys_client s2))) as [[rc c3]|]; [|done]. destruct Ha as (-> & Hp3 & Hs3).
  assert (b_props (sys_board s2) = device_effect root (b_props (sys_board s))) as Hp' by exact Hp.
  split; [done|]. split; [exact Hp'|]. split; [rewrite <- Hp'; by apply (board_outputs (sys_board s2))|]. split; [exact Ha2|].
  exists puback, text. split; [done|]. split; [done|]. cbn. rewrite Hs3, Hp3. split; [by apply (f_equal (fun l => l ++ [puback])) in Hsent|exact Hpipe].
Qed.

(** ** The running controller *)


(** What can happen next while a session lasts: a hardware event with its interrupt handlers,
    a turn of one of the threads, or a message for one of the callbacks. *)
Inductive event : Type :=
  | EvTimer
  | EvKey (line : Z)
  | EvPads (levels : Z -> Z)
  | EvInputs (light_in smoke_in : Z -> Z)
  | EvLight
  | EvSmoke
  | EvClimate (res sample : Z)
  | EvControl
  | EvUpload
  | EvMessage (h : mqtt_cb) (md : message_data).

Definition set_pads (levels : Z -> Z) (g : gpio key_handler) : gpio key_handler :=
  Gpio (odr g) (config g) levels (pin_irq_hdr_tab g) (pin_irq_enable_mask g) (nvic g) (exti_pr g) (hw_pin_ops g).
Definition set_inputs (f : Z -> Z) (a : adc) : adc := Adc (adev a) (adon a) (sequence a) f (adc_errno a).

(** The edge sets the line's pending bit; the interrupt handler follows. *)
Definition key_edge (line : Z) : M board unit :=
  pins_do (modify (fun g => set_exti_pr (Z.lor (exti_pr g) (2 ^ line)) g)) ;;;
  key_interrupt (exti_lines [line]).

Definition run_event (e : event) : M (system mqtt) unit :=
  match e with
  | EvTimer => zoom timer_interrupt
  | EvKey line => zoom (key_edge line)
  | EvPads levels => zoom (pins_do (modify (set_pads levels)))
  | EvInputs l s => zoom (light_adc (modify (set_inputs l)) ;;; mq2_adc (modify (set_inputs s)))
  | EvLight => zoom my_light_entry
  | EvSmoke => zoom my_mq2_entry
  | EvClimate res sample => zoom (my_read_temp_entry res sample) ;;; ret tt
  | EvControl => my_auto_control_entry
  | EvUpload => my_data_upload_entry ;;; ret tt
  | EvMessage h md => run_cb h md
  end.

(** The identifier a command leaves for its answer. *)
Definition answer_id (s : system mqtt) (md : message_data) : uuid_cell :=
  uuid_effect (cJSON_Parse (payload_text (sys_client s) md)) (UUID (sys_client s)).

(** A sampling thread exists once its device has been found; a sample is an [int]; a message
    lies in the read buffer with room for its NUL; and a command must not be answered with
    an identifier that has been freed (see [stale_identifier]). *)
Definition enabled (e : event) (s : system mqtt) : Prop :=
  match e with
  | EvLight => is_Some (adc_light_dev (b_app (sys_board s)))
  | EvSmoke => is_Some (adc_mq2_dev (b_app (sys_board s)))
  | EvClimate res sample => int_range sample
  | EvMessage h md => place_ok (msg_payload (md_message md)) /\
      (h = mqtt_dev_control_callback_h \/ h = mqtt_thresholds_callback_h -> uuid_ok (answer_id s md))
  | _ => True
  end.

Definition start_of_session (s : system mqtt) : Prop :=
  board_ok (sys_board s) /\ door_ok (sys_board s) /\ b_props (sys_board s) = initial_props /\ mqtt_ok (sys_client s).

Inductive reachable : system mqtt -> Prop :=
  | reach_start s : start_of_session s -> reachable s
  | reach_event e s s' : reachable s -> enabled e s -> run_event e s = Ok (tt, s') -> reachable s'.

Section Safety.
Implicit Types s : system mqtt.

Lemma good_split s :
  good s <-> (board_ok (sys_board s) /\ door_ok (sys_board s)) /\ mqtt_ok (sys_client s) /\ data_int (b_props (sys_board s)).
Proof. done. Qed.

(** A step of the board that keeps it good and the door still. *)
Lemma board_event {A : Type} (m : M board A) s :
  good s -> leaves door_part m -> wp m (sys_board s) (fun _ b' => board_ok b' /\ data_int (b_props b')) ->
  wp (zoom m) s (fun _ s' => good s').
Proof.
  intros ((Hb & Hdoor) & Hm & _) Hl Hw. apply wp_zoom. eapply wp_mono; [apply wp_keeps_door; [exact Hdoor|exact Hl|exact Hw]|].
  cbn beta. intros a b' ((Hb' & Hd) & Hdoor' & _). by split_and!.
Qed.

Lemma light_leaves_door_alone : leaves door_part my_light_entry.
Proof. unfold my_light_entry, light_adc, app_gets, app_modify, oled, data, Set_Devpro_light. leaves_auto. Qed.
Lemma smoke_leaves_door_alone : leaves door_part my_mq2_entry.
Proof. unfold my_mq2_entry, mq2_adc, app_gets, app_modify, oled, data, Set_Devpro_smoke. leaves_auto. Qed.
Lemma climate_leaves_door_alone res sample : leaves door_part (my_read_temp_entry res sample).
Proof.
  unfold my_read_temp_entry, show_Data, app_gets, app_modify, oled, data, Set_Devpro_temp, Set_Devpro_humi. leaves_auto.
Qed.

Lemma data_int_same p p' : my_environment p' = my_environment p -> my_thresholds p' = my_thresholds p ->
  data_int p -> data_int p'.
Proof. unfold data_int. by intros -> ->. Qed.

Lemma data_int_environment p p' : my_thresholds p' = my_thresholds p -> environment_int (my_environment p') ->
  data_int p -> data_int p'.
Proof. unfold data_int. intros -> He (_ & Ht). by split. Qed.

Lemma small_int z : -100000 <= z <= 100000 -> int_range z.
Proof. unfold int_range, INT_MIN, INT_MAX. lia. Qed.

Lemma sample_events s e :
  good s -> enabled e s ->
  match e with EvLight | EvSmoke | EvClimate _ _ => True | _ => False end ->
  wp (run_event e) s (fun _ s' => good s').
Proof.
  intros Hs He Hk. pose proof Hs as ((Hb & _) & Hm & Hd). pose proof Hd as ((E1 & E2 & E3 & E4) & _).
  destruct e as [| | | | | |res sample| | |]; try done; cbn [run_event enabled] in *.
  - apply board_event; [done|apply light_leaves_door_alone|]. eapply wp_mono; [by apply light_entry_spec|]. cbn beta.
    intros _ b' (Hb' & _ & _ & raw & Hr & _ & Ep & _). split; [done|]. rewrite Ep.
    apply (data_int_environment (b_props (sys_board s))); [done| |done]. split_and!; try done. apply small_int. cbn. lia.
  - apply board_event; [done|apply smoke_leaves_door_alone|]. eapply wp_mono; [by apply mq2_entry_spec|]. cbn beta.
    intros _ b' (Hb' & _ & _ & raw & Hr & _ & Ep & _). split; [done|]. rewrite Ep.
    apply (data_int_environment (b_props (sys_board s))); [done| |done]. split_and!; try done. apply small_int. cbn. lia.
  - wp_steps. eapply (wp_mono _ _ (fun _ s' => good s')); [|by intros; apply wp_ret].
    apply board_event; [done|apply climate_leaves_door_alone|]. destruct (Z.eqb_spec res 1) as [->|Hne].
    + destruct (Z.leb_spec 0 sample) as [H0|H0].
      * eapply wp_mono; [apply read_temp_spec; [done|unfold int_range, INT_MAX in He; lia]|]. cbn beta.
        intros go b' (_ & Hb' & _ & _ & Ep & _). split; [exact Hb'|]. rewrite Ep.
        apply (data_int_environment (b_props (sys_board s))); [done| |done]. split_and!; try done; apply small_int; cbn.
        { pose proof (wrap_range 8 (Z.shiftr (Z.land sample 0xffff) 0)). lia. }
        { pose proof (wrap_range 8 (Z.shiftr (Z.land sample 0xffff0000) 16)). lia. }
      * unfold my_read_temp_entry. cbn [Z.eqb Pos.eqb negb]. rewrite (proj2 (Z.leb_gt 0 sample)) by lia. by wp_steps.
    + unfold my_read_temp_entry. rewrite (proj2 (Z.eqb_neq res 1)) by done. cbn [negb]. by wp_steps.
Qed.

Lemma key_edge_spec line b :
  board_ok b -> wp (key_edge line) b (fun _ b' => board_ok b' /\ key_step (b_props b) (b_props b')).
Proof.
  intros Hb. unfold key_edge, pins_do. wp_steps. apply wp_zoom, wp_modify.
  eapply wp_mono; [apply (key_interrupt_spec [line]), board_gpio_ok; try done; apply Hb|]. done.
Qed.

Lemma hardware_events s e :
  good s -> match e with EvTimer | EvKey _ | EvPads _ | EvInputs _ _ => True | _ => False end ->
  wp (run_event e) s (fun _ s' => good s').
Proof.
  intros Hs Hk. pose proof Hs as ((Hb & _) & Hm & Hd).
  destruct e as [|line|levels|l i| | | | | |]; try done; cbn [run_event]; apply board_event; try done.
  - apply timer_leaves_door.
  - eapply wp_mono; [by apply timer_interrupt_spec|]. cbn beta. intros _ b' (Hb' & ->). by split.
  - unfold key_edge, pins_do. apply leaves_bind; [by leaves_auto|intros; apply key_leaves_door].
  - eapply wp_mono; [by apply key_edge_spec|]. cbn beta. intros _ b' (Hb' & _ & He & Ht). split; [done|].
    by eapply data_int_same.
  - unfold pins_do. leaves_auto.
  - unfold pins_do. apply wp_zoom, wp_modify. split; [|done]. apply board_gpio_ok; try done; apply Hb.
  - unfold light_adc, mq2_adc. leaves_auto.
  - unfold light_adc, mq2_adc. wp_steps. apply wp_zoom, wp_modify, wp_zoom, wp_modify. split; [|done].
    destruct Hb as [Hp Ht Hdv Ha]. by split.
Qed.

(** *** Messages *)

Lemma data_int_devices f p : data_int p -> data_int (on_devices f p).
Proof. exact id. Qed.

Lemma data_int_item root name f p :
  (forall node p, (forall r, root = Some r -> defined r = true) -> cJSON_GetObjectItem root name = Some node -> data_int p -> data_int (f node p)) ->
  (forall r, root = Some r -> defined r = true) -> data_int p -> data_int (item_effect root name f p).
Proof. intros Hf Hr Hp. unfold item_effect. destruct (cJSON_GetObjectItem root name) as [node|] eqn:E; [by apply Hf|done]. Qed.

Lemma item_int root name node :
  (forall r, root = Some r -> defined r = true) -> cJSON_GetObjectItem root name = Some node -> int_range (int_of node).
Proof.
  intros Hr Hn. destruct root as [r|]; [|done]. pose proof (defined_item r name node (Hr r eq_refl) Hn) as Hd.
  destruct (valueint_defined node Hd) as (v & Hv & Hrange). unfold int_of. by rewrite Hv.
Qed.

Lemma data_int_device_effect root p : (forall r, root = Some r -> defined r = true) -> data_int p -> data_int (device_effect root p).
Proof. intros Hr Hp. unfold device_effect. repeat (apply data_int_item; [intros; by apply data_int_devices|done|]). done. Qed.
Lemma data_int_sensor_effect root p : (forall r, root = Some r -> defined r = true) -> data_int p -> data_int (sensor_effect root p).
Proof. intros Hr Hp. unfold sensor_effect. repeat (apply data_int_item; [intros; by apply data_int_devices|done|]). done. Qed.
Lemma data_int_thresholds_effect root p : (forall r, root = Some r -> defined r = true) -> data_int p -> data_int (thresholds_effect root p).
Proof.
  intros Hr Hp. unfold thresholds_effect.
  repeat (apply data_int_item; [intros node q Hr' Hn (He & T1 & T2 & T3 & T4); pose proof (item_int _ _ _ Hr' Hn); by split_and!|done|]).
  done.
Qed.

Lemma message_event s h md :
  good s -> enabled (EvMessage h md) s -> wp (run_event (EvMessage h md)) s (fun _ s' => good s').
Proof.
  intros (Hb & Hm & Hd) [Hpl Hu]. set (root := cJSON_Parse (payload_text (sys_client s) md)).
  assert (forall r, root = Some r -> defined r = true) as Hdef by (intros r; by apply parse_defined).
  assert (forall k r, cJSON_GetObjectItem root k = Some r -> defined r = true) as Hsub.
  { intros k r Hr. destruct root as [r0|]; [|done]. by eapply defined_item; [apply Hdef|]. }
  cbn [run_event]. destruct h; cbn [run_cb].
  - unfold mqtt_sub_default_callback. wp_steps. eapply wp_mono; [by apply payload_string_spec|]. cbn beta.
    intros t s' (_ & Hb' & Hq & _ & Ep & _). wp_steps. split; [exact Hb'|]. split; [apply Hq|]. by rewrite Ep.
  - eapply wp_mono; [by apply sync_spec|]. cbn beta. intros _ s' (Hb' & Hq & _ & Ep). split; [exact Hb'|]. split; [apply Hq|].
    rewrite Ep. unfold sync_effect. apply data_int_sensor_effect; [by apply Hsub|].
    apply data_int_device_effect; [by apply Hsub|]. apply data_int_thresholds_effect; [by apply Hsub|exact Hd].
  - eapply wp_mono; [apply dev_control_spec; [done..|apply Hu; auto]|]. cbn beta. intros _ s' (Hb' & Ep & _ & _ & Hp).
    split; [exact Hb'|]. split; [apply Hp|]. rewrite Ep. by apply data_int_device_effect.
  - eapply wp_mono; [apply thresholds_spec; [done..|apply Hu; auto]|]. cbn beta. intros _ s' (Hb' & Ep & _ & Hp).
    split; [exact Hb'|]. split; [apply Hp|]. rewrite Ep. by apply data_int_thresholds_effect.
Qed.

(** *** Every event *)

Lemma event_safe e s : good s -> enabled e s -> wp (run_event e) s (fun _ s' => good s').
Proof.
  intros Hs He. destruct e; try (by apply hardware_events); try (by apply sample_events).
  - cbn [run_event]. eapply wp_mono; [by apply turn_spec|]. cbn beta. by intros _ s' [? _].
  - cbn [run_event]. wp_steps. eapply wp_mono; [by apply upload_spec|]. cbn beta. intros rc s' (_ & ? & _). by wp_steps.
  - by apply message_event.
Qed.

Lemma reachable_good s : reachable s -> good s.
Proof.
  induction 1 as [s (Hb & Hdoor & Hp & Hm)|e s s' _ IH He Hr].
  - split; [done|]. split; [done|]. change (view s : props) with (b_props (sys_board s)). rewrite Hp.
    unfold data_int, environment_int, int_range, INT_MIN, INT_MAX. cbn. lia.
  - pose proof (event_safe e s IH He) as Hw. unfold wp in Hw. by rewrite Hr in Hw.
Qed.
End Safety.

(** C1. Safety of the running controller: a session starts on the board as the set-up leaves
    it, and then any sequence of interrupts, sensor readings, thread turns and messages
    follows, of which each command has a live identifier for its answer (it carries one, or
    none was left by the last one; without this the callback reads a freed block, see
    [stale_identifier]). Then the outputs agree with the announced device states as
    [outputs] says: fill light, fan and alarm timer exactly, the buzzer silent when there is
    no alarm and the warning lamp with the buzzer (not with the announced [LED0_State]), the
    servo driven to one of its positions, at least half open when the door is announced open,
    at most half open when it is announced closed. The shared data stay C integers, and no
    event that can come next faults. *)
Theorem controller_safe (s : system mqtt) :
  reachable s ->
  outputs (sys_board s) (my_devices (b_props (sys_board s))) /\ mqtt_ok (sys_client s) /\
  data_int (b_props (sys_board s)) /\
  forall e, enabled e s -> exists s', run_event e s = Ok (tt, s') /\ reachable s'.
Proof.
  intros Hr. pose proof (reachable_good s Hr) as Hg. pose proof Hg as ((Hb & Hdoor) & Hm & Hd).
  split; [by apply board_outputs|]. split; [done|]. split; [done|].
  intros e He. destruct (wp_total _ _ _ (event_safe e s Hg He)) as ([] & s' & E & _).
  exists s'. split; [done|]. by eapply reach_event.
Qed.
