(* ===== verification/ClosedLoop.v ===== *)
(** * From the sensors to the outputs

    The sampling threads, the shared data, the control thread and the drivers together: what
    the converters' inputs and a sample of the thermometer make of the controller's outputs,
    in every state the running controller can be in. *)

From stdpp Require Import base numbers list.
From Stdlib Require Import ZArith Lia.
From S2P Require Import Prelude Gpio Device CFloat Tim HwTimer Pwm Adc Display DataUpload Actuators ActuatorProps Sensors Json MqttPacket MqttClient MqttApp AutoControl System.

Open Scope Z_scope.

(** One turn of each sampling thread, then one of the control thread. *)
Definition round (t h : Z) : M (system mqtt) unit :=
  zoom (my_light_entry ;;; my_mq2_entry ;;; my_read_temp_entry 1 (Z.lor (Z.shiftl h 16) t)) ;;;
  my_auto_control_entry.

(** A two-point switch: on above the limit, off below it, as it was at it. *)
Definition switched (c : comparison) (on : bool) : bool :=
  match c with Gt => true | Lt => false | Eq => on end.

(** ** What the rules decide *)

Lemma relay_fire p f :
  f = temperature_rule p \/ f = light_rule p -> Relay_State (my_devices (fire f p)) = Relay_State (my_devices p).
Proof.
  intros [-> | ->]; rule_frame.
Qed.

Lemma fan_rule p :
  DHT11_Sensor_State (my_devices p) = true ->
  Relay_State (my_devices (obey rules p).1) =
    switched (humi (my_environment p) ?= Humi_Limit (my_thresholds p)) (Relay_State (my_devices p)).
Proof.
  intros Hs. rewrite obey_rules. cbv zeta. cbn [fst]. set (p1 := fire (temperature_rule p) p).
  rewrite relay_fire by auto. pose proof (relay_fire p _ (or_introl eq_refl)) as Hr. fold p1 in Hr.
  unfold p1 at 1. rewrite humidity_rule_fire by auto. fold p1. unfold humidity_rule. rewrite Hs. cbn [negb].
  unfold Z.ltb. rewrite (Z.compare_antisym (humi (my_environment p))). rewrite <- Hr.
  destruct (Relay_State (my_devices p1)) eqn:E, (humi (my_environment p) ?= _); cbn; congruence.
Qed.

Lemma lamp_rule p :
  Light_Sensor_State (my_devices p) = true ->
  LED1_State (my_devices (obey rules p).1) =
    if LED1_State (my_devices p) then negb (Light_Up_Limit (my_thresholds p) <? light (my_environment p))
    else light (my_environment p) <? Light_Down_Limit (my_thresholds p).
Proof.
  intros Hs. rewrite obey_rules. cbv zeta. cbn [fst]. set (p1 := fire (temperature_rule p) p). set (p2 := fire (humidity_rule p1) p1).
  destruct (light_rule_fire p1 _ (or_intror eq_refl)) as [E2 L2]. fold p2 in E2, L2.
  destruct (light_rule_fire p _ (or_introl eq_refl)) as [E1 L1]. fold p1 in E1, L1.
  rewrite E2, E1. unfold light_rule. rewrite Hs, <- L1, <- L2. cbn [negb].
  destruct (LED1_State (my_devices p2)) eqn:E; match goal with |- context [?a <? ?b] => destruct (a <? b) end; cbn; congruence.
Qed.

(** ** The round *)

Lemma sampling_leaves_door sample : leaves door_part (my_light_entry ;;; my_mq2_entry ;;; my_read_temp_entry 1 sample).
Proof.
  apply leaves_bind; [apply light_leaves_door_alone|intros _]. apply leaves_bind; [apply smoke_leaves_door_alone|intros _].
  apply climate_leaves_door_alone.
Qed.

(** C4. From the sensors to the outputs: in every state the controller can reach, while the
    sensors count as working and buzzer and door agree, one turn of each sampling thread and
    one of the control thread leave the fan's output high above the humidity limit, low
    below it and as announced before at it; the fill light on when it was off and the
    light has fallen below the lower limit or was on and the light has not risen above the upper one;
    the alarm timer running and the door's servo turned to 90 degrees or more above the
    temperature limit, the timer stopped, the buzzer silent and the servo turned to 90 degrees or less
    below it (fully closed only if it was not opened further than one step, see
    [door_left_ajar]). These are also the states that are announced for fan, fill light,
    buzzer and door, and the outputs agree with them as [outputs] says. *)
Theorem room_to_outputs s t h :
  reachable s -> enabled EvLight s -> enabled EvSmoke s -> 0 <= t < 256 -> 0 <= h < 128 ->
  let d := my_devices (b_props (sys_board s)) in
  let l := my_thresholds (b_props (sys_board s)) in
  DHT11_Sensor_State d = true -> Light_Sensor_State d = true -> Beep_State d = Door_State d ->
  wp (round t h) s (fun _ s' =>
    let d' := my_devices (b_props (sys_board s')) in
    let lux := 4000 - inputs (b_adc3 (sys_board s)) ADC_LIGHT_DEV_CHANNEL mod 2 ^ 12 in
    let fan := switched (h ?= Humi_Limit l) (Relay_State d) in
    let lamp := if LED1_State d then negb (Light_Up_Limit l <? lux) else lux <? Light_Down_Limit l in
    let alarm := switched (t ?= Temp_Limit l) (Beep_State d) in
    level (b_gpio (sys_board s')) Relay_PIN = (if fan then PIN_HIGH else PIN_LOW) /\
    level (b_gpio (sys_board s')) LED1_PIN = (if lamp then PIN_LOW else PIN_HIGH) /\
    timer_ok (b_timer (sys_board s')) (hw_dev (b_app (sys_board s'))) alarm /\
    (alarm = false -> level (b_gpio (sys_board s')) BEEP_PIN = PIN_LOW) /\
    door_drives (sys_board s') /\
    (if alarm then 90 <= servo_position (b_pwm (sys_board s')) else servo_position (b_pwm (sys_board s')) <= 90) /\
    Relay_State d' = fan /\ LED1_State d' = lamp /\ Beep_State d' = alarm /\ Door_State d' = alarm /\
    outputs (sys_board s') d' /\ good s').
Proof.
  intros Hr Hl Hsm Ht Hh d l Hdht Hls Hbd. destruct (reachable_good s Hr) as ((Hb & Hdoor) & Hm & Hd).
  unfold round. wp_steps. apply wp_zoom.
  eapply wp_mono; [apply wp_keeps_door; [exact Hdoor|apply sampling_leaves_door|by apply (sampling (sys_board s) t h)]|]. cbn beta.
  intros go b1 ((Hb1 & Ed & El & Hen & Elux & Et & Eh & _) & Hdoor1 & _). set (s1 := over b1 s).
  assert (good s1) as Hs1.
  { split; [by split|]. split; [exact Hm|]. change (data_int (b_props b1)). destruct Hd as [_ Hth]. split; [|by rewrite El].
    destruct Hen as (? & ? & ? & ?). unfold environment_int. split_and!; apply small_int; lia. }
  eapply wp_mono; [by apply turn_spec|]. cbn beta. intros _ s' (Hg & Ep & _). pose proof Hg as ((Hb' & Hdoor') & _).
  change (b_props (sys_board s') = (obey rules (b_props b1)).1) in Ep.
  pose proof (fan_rule (b_props b1)) as Hfan. pose proof (lamp_rule (b_props b1)) as Hlamp.
  pose proof (alarm_rule (b_props b1)) as Halarm. cbv zeta in Halarm.
  rewrite Ed, El, Eh in Hfan. rewrite Ed, El, Elux in Hlamp. rewrite Ed, El, Et in Halarm. rewrite <- Ep in Hfan, Hlamp, Halarm.
  specialize (Hfan Hdht). specialize (Hlamp Hls). destruct (Halarm Hdht Hbd) as [Hbeep Hdst].
  pose proof (ok_pins _ Hb') as Hpins. pose proof (ok_timer _ Hb') as Htimer.
  pose proof (board_outputs (sys_board s') Hb' Hdoor') as Hout.
  split_and!; try done.
  - by rewrite (ok_relay _ _ Hpins), Hfan.
  - by rewrite (ok_led1 _ _ Hpins), Hlamp.
  - by rewrite Hbeep in Htimer.
  - intros Hoff. apply (ok_quiet _ _ Hpins). by rewrite Hbeep.
  - apply Hout.
  - pose proof (out_door _ _ Hout) as Ho. cbv zeta in Ho. rewrite Hdst in Ho. exact Ho.
Qed.
