(* ===== verification/Boot.v ===== *)
(** * main

    [applications/src/main.c] with the functions that start the sampling threads in
    [my_adc.c] and [my_dht11.c] and those of [my_data_upload.c] and [my_auto_control.c]. The
    set-up of the DHT11 package, which is not in the repository, is a parameter that works on
    the names of the devices and a state of its own. What the kernel answers to the creation
    of a thread is a parameter; a thread that is started is recorded, its body is the thread's
    model in Sensors.v, Climate.v and AutoControl.v. *)

From stdpp Require Import base numbers list strings.
From Stdlib Require Import ZArith Lia.
From S2P Require Import Prelude Gpio Device SensorDevice CFloat Tim HwTimer Pwm Adc Display DataUpload Actuators Sensors Climate Json MqttPacket MqttClient MqttApp Session AutoControl System.

Open Scope Z_scope.

(** The threads by their entry functions. *)
Inductive task : Set := my_light_th | my_mq2_th | my_dht_tem | my_data_upload_th | my_auto_control_th.

(** The controller, the package's state, and the threads in the order of their start. *)
Record boot (D : Type) : Type := Boot { bt_sys : system mqtt; bt_dht : D; running : list task }.
Arguments Boot {D} bt_sys bt_dht running.
Arguments bt_sys {D} b.
Arguments bt_dht {D} b.
Arguments running {D} b.

Definition PORT_G : Z := 6.
Definition DHT11_DATA_PIN : Z := GET_PIN PORT_G 9.

Section Main.
Context {D : Type}.

#[export, refine] Instance boot_system : Lens (boot D) (system mqtt) :=
  {| view := bt_sys; over := fun s b => Boot s (bt_dht b) (running b) |}.
Proof. all: intros; try destruct s; reflexivity. Defined.
#[export] Instance boot_board : Lens (boot D) board := lens_compose boot_system system_board.
#[export] Instance boot_client : Lens (boot D) mqtt := lens_compose boot_system system_client.
#[export, refine] Instance boot_package : Lens (boot D) (object_list * D) :=
  {| view := fun b => (b_objs (sys_board (bt_sys b)), bt_dht b);
     over := fun od b => Boot (over (over (T := object_list) od.1 (sys_board (bt_sys b))) (bt_sys b)) od.2 (running b) |}.
Proof.
  - by intros [o d] s.
  - intros s. destruct s as [[b m] d r]. by destruct b.
  - by intros [o d] [o' d'] s.
Defined.

(** What [rt_thread_create] answers for each thread; the package's [rt_hw_dht11_init], given
    the sensor's name and the configuration: the data pin, and the members that the caller
    does not set; and what those hold. *)
Variable rt_thread_create : task -> bool.
Variable rt_hw_dht11_init : list Z -> Z -> rt_sensor_config -> M (object_list * D) Z.
Variable stack_cfg : rt_sensor_config.

Definition start_thread (t : task) : M (boot D) unit :=
  modify (fun b => Boot (bt_sys b) (bt_dht b) (running b ++ [t])).

(** A thread that cannot be created on the heap is set up on static memory. *)
Definition my_light_adc : M (boot D) Z :=
  r <- zoom my_light_ADC_Init ;;
  if RT_ERROR =? r then ret RT_ERROR
  else
    (if rt_thread_create my_light_th then start_thread my_light_th
     else start_thread my_light_th) ;;;
    ret RT_EOK.

Definition my_mq2_adc : M (boot D) Z :=
  r <- zoom my_mq2_ADC_Init ;;
  if RT_ERROR =? r then ret RT_ERROR
  else when (rt_thread_create my_mq2_th) (start_thread my_mq2_th) ;;; ret RT_EOK.

Definition my_rt_hw_dht11_port : M (boot D) Z :=
  zoom (rt_hw_dht11_init (str "dht11") DHT11_DATA_PIN stack_cfg) ;;; ret RT_EOK.
Definition my_dht11_read_temp_sample : M (boot D) Z :=
  when (rt_thread_create my_dht_tem) (start_thread my_dht_tem) ;;; ret RT_EOK.
Definition my_data_upload_init : M (boot D) Z :=
  when (rt_thread_create my_data_upload_th) (start_thread my_data_upload_th) ;;; ret RT_EOK.
Definition my_auto_control_init : M (boot D) Z :=
  when (rt_thread_create my_auto_control_th) (start_thread my_auto_control_th) ;;; ret RT_EOK.

(** [main] up to its delay of four seconds, in which the other threads run; [tick] is the
    time. *)
Definition main_setup (tick : Z) : M (boot D) (Z * bool) :=
  zoom my_GPIO_Init ;;;
  zoom (oled my_oled_init) ;;;
  my_light_adc ;;;
  my_mq2_adc ;;;
  my_rt_hw_dht11_port ;;;
  my_dht11_read_temp_sample ;;;
  zoom my_pwm_init ;;;
  zoom (mqtt_start tick).

(** After it; then [main] only sleeps. *)
Definition main_rest : M (boot D) unit :=
  my_data_upload_init ;;;
  my_auto_control_init ;;;
  ret tt.

(** ** What it brings up *)

Implicit Types s : boot D.

Definition boot_names : list (list Z) := [HWTIMER_DEV_NAME; PWM_DEV_NAME; ADC_LIGHT_DEV_NAME; ADC_MQ2_DEV_NAME].
Definition found (objs : object_list) : Prop := Forall (fun name => is_Some (rt_object_find name objs)) boot_names.

(** The package's set-up adds names and takes none away. *)
Hypothesis init_registers : forall name pin cfg objs d, found objs ->
  wp (rt_hw_dht11_init name pin cfg) (objs, d) (fun _ od => found od.1).

Abbreviation brd s := (sys_board (bt_sys s)).
Abbreviation client s := (sys_client (bt_sys s)).

(** The part of the board that the set-up of the sensors and the servo leaves. *)
Definition at_rest (b : board) : gpio key_handler * hwtimer timer_cb * props * Z * list drawing :=
  (b_gpio b, b_timer b, b_props b, angle (b_app b), b_oled b).

Lemma kept_outputs b b' : kept b b' -> at_rest b' = at_rest b /\ b_objs b' = b_objs b.
Proof. intros (G & T & O & P & A & D'). unfold at_rest. by rewrite G, T, P, A, D'. Qed.

(** What the converters' set-up leaves: that, the devices and the PWM timer. *)
Definition unmoved (b b' : board) : Prop := at_rest b' = at_rest b /\ b_objs b' = b_objs b /\ b_pwm b' = b_pwm b.
Lemma kept_unmoved b b' : kept_all b b' -> unmoved b b'.
Proof. intros [Hk Hp]. destruct (kept_outputs b b' Hk). by split_and!. Qed.

(** Started threads: those of [l] for which there is one. *)
Definition starts (l : list task) s s' : Prop := client s' = client s /\ running s' = running s ++ l.

Lemma wp_board {A : Type} (m : M board A) s (Q : A -> board -> Prop) :
  wp m (brd s) Q -> wp (zoom (S := boot D) m) s (fun r s' => Q r (brd s') /\ starts [] s s').
Proof.
  intros H. apply wp_zoom. eapply wp_mono; [exact H|]. cbn beta. intros r b Hb. unfold starts. by rewrite app_nil_r.
Qed.

Lemma thread_starts t s : wp (start_thread t) s (fun _ s' => brd s' = brd s /\ starts [t] s s').
Proof. unfold start_thread. wp_steps. done. Qed.

Definition created (t : task) : list task := if rt_thread_create t then [t] else [].

Lemma create_starts t s :
  wp (when (rt_thread_create t) (start_thread t)) s (fun _ s' => brd s' = brd s /\ starts (created t) s s').
Proof.
  unfold created, when. destruct (rt_thread_create t); [apply thread_starts|]. wp_steps. unfold starts. by rewrite app_nil_r.
Qed.

Lemma starts_trans l l' s s' s2 : starts l s s' -> starts l' s' s2 -> starts (l ++ l') s s2.
Proof. intros [E R] [E' R']. split; [congruence|]. by rewrite R', R, app_assoc. Qed.

Lemma light_adc_starts s : is_Some (rt_object_find ADC_LIGHT_DEV_NAME (b_objs (brd s))) ->
  wp my_light_adc s (fun _ s' => unmoved (brd s) (brd s') /\ is_Some (adc_light_dev (b_app (brd s'))) /\ starts [my_light_th] s s').
Proof.
  intros Hd. unfold my_light_adc. wp_steps. eapply wp_mono; [by apply wp_board, light_adc_spec|]. cbn beta.
  intros r s1 [(-> & Hk & Hl) H1]. change (RT_ERROR =? RT_EOK) with false. cbv iota. wp_steps.
  eapply wp_mono with (P := fun _ s2 => brd s2 = brd s1 /\ starts [my_light_th] s1 s2);
    [destruct (rt_thread_create _); apply thread_starts|]. cbn beta. intros _ s2 [E H2]. wp_steps. rewrite E.
  split_and!; [by apply kept_unmoved|done|]. by apply (starts_trans [] _ _ s1).
Qed.

Lemma mq2_adc_starts s : is_Some (rt_object_find ADC_MQ2_DEV_NAME (b_objs (brd s))) ->
  wp my_mq2_adc s (fun _ s' => unmoved (brd s) (brd s') /\ is_Some (adc_mq2_dev (b_app (brd s'))) /\
    adc_light_dev (b_app (brd s')) = adc_light_dev (b_app (brd s)) /\ starts (created my_mq2_th) s s').
Proof.
  intros Hd. unfold my_mq2_adc. wp_steps. eapply wp_mono; [by apply wp_board, mq2_adc_spec|]. cbn beta.
  intros r s1 [(-> & Hk & Hl) H1]. change (RT_ERROR =? RT_EOK) with false. cbv iota. wp_steps.
  eapply wp_mono; [apply create_starts|]. cbn beta. intros _ s2 [E H2]. wp_steps. rewrite E.
  split_and!; [by apply kept_unmoved|by destruct Hl|by destruct Hl|]. by apply (starts_trans [] _ _ s1).
Qed.

Lemma dht11_port_spec s : found (b_objs (brd s)) ->
  wp my_rt_hw_dht11_port s (fun _ s' => at_rest (brd s') = at_rest (brd s) /\ b_pwm (brd s') = b_pwm (brd s) /\ b_app (brd s') = b_app (brd s) /\ found (b_objs (brd s')) /\ starts [] s s').
Proof.
  intros Hf. unfold my_rt_hw_dht11_port. wp_steps. apply wp_zoom. eapply wp_mono; [by apply init_registers|]. cbn beta.
  intros r [o d] Ho. wp_steps. destruct s as [[b m] d0 l]. destruct b. unfold starts. by rewrite app_nil_r.
Qed.

Lemma gpio_starts levels s : b_gpio (brd s) = set_hw_pin_ops (gpio_reset levels) ->
  wp (zoom my_GPIO_Init) s (fun _ s' => (exists g, brd s' = over g (brd s) /\ pins_ok g (my_devices initial_props) /\ keys_attached g) /\
    starts [] s s').
Proof.
  intros Hg. destruct (gpio_init_runs levels _ Hg) as (g & Eg & Hp & Hk). apply (wp_board _ _ (fun _ b => exists g, b = over g (brd s) /\ _)).
  unfold wp. rewrite Eg. by exists g.
Qed.

Lemma oled_starts s : wp (zoom (oled my_oled_init)) s (fun _ s' =>
  brd s' = over (b_oled (brd s) ++ title_shown) (brd s) /\ starts [] s s').
Proof.
  apply (wp_board _ _ (fun _ b => b = over (b_oled (brd s) ++ title_shown) (brd s))). unfold oled. by apply wp_zoom, oled_init_spec.
Qed.

Lemma main_rest_spec s : wp main_rest s (fun _ s' => bt_sys s' = bt_sys s /\
  running s' = running s ++ created my_data_upload_th ++ created my_auto_control_th).
Proof.
  unfold main_rest, my_data_upload_init, my_auto_control_init. wp_steps. eapply wp_mono; [apply create_starts|]. cbn beta.
  intros _ s1 [E1 [C1 R1]]. wp_steps. eapply wp_mono; [apply create_starts|]. cbn beta. intros _ s2 [E2 [C2 R2]]. wp_steps.
  rewrite R2, R1, <- app_assoc. split; [|done]. rewrite E1 in E2. rewrite C1 in C2. destruct (bt_sys s2), (bt_sys s). cbn in *. by subst.
Qed.

(** C11. Bringing the controller up: from the state the drivers leave, [main] finds its
    devices, leaves every output at rest and in agreement with the initial device states,
    attaches and enables the two keys, shows the title on the display, sets the servo's timer
    to a period of 20 ms with a pulse of 0.5 ms, enables its channel and starts its counter, and
    starts the client configured but not yet connected. The sampling threads
    run then, in order, that of the light sensor in any case and the others if they could be
    created; after the delay, whatever happened meanwhile, the upload and the control thread
    are started likewise. *)
Theorem main_brings_up levels tick s :
  board_start levels (brd s) -> mqtt_begin (client s) ->
  wp (main_setup tick) s (fun r s' => r = (0, true) /\
    board_ok (brd s') /\ keys_attached (b_gpio (brd s')) /\ b_props (brd s') = initial_props /\
    is_Some (adc_light_dev (b_app (brd s'))) /\ is_Some (adc_mq2_dev (b_app (brd s'))) /\
    door_ok (brd s') /\ servo_on (b_pwm (brd s')) /\ servo_regs (b_pwm (brd s')) servo_period rest_pulse /\
    b_oled (brd s') = b_oled (brd s) ++ title_shown /\
    configured tick (client s) (client s') /\
    running s' = running s ++ [my_light_th] ++ created my_mq2_th ++ created my_dht_tem /\
    forall s2, wp main_rest s2 (fun _ s3 => bt_sys s3 = bt_sys s2 /\
      running s3 = running s2 ++ created my_data_upload_th ++ created my_auto_control_th)).
Proof.
  intros [Hg Ht Hd Hw Hp Ha] Hm. unfold main_setup. wp_steps. eapply wp_mono; [by apply (gpio_starts levels)|]. cbn beta.
  intros _ s1 [(g & E1 & Hpins & Hkeys) S1]. wp_steps. eapply wp_mono; [apply oled_starts|]. cbn beta.
  intros _ s2 [E2 S2]. wp_steps.
  assert (at_rest (brd s2) = (g, b_timer (brd s), initial_props, 0, b_oled (brd s) ++ title_shown)) as H2
    by (rewrite E2, E1; unfold at_rest; cbn; by rewrite Hp, Ha).
  assert (b_objs (brd s2) = b_objs (brd s) /\ b_pwm (brd s2) = b_pwm (brd s)) as [O2 W2] by (by rewrite E2, E1).
  pose proof Hd as Hnames. unfold found, boot_names in Hnames. rewrite !Forall_cons in Hnames. destruct Hnames as (N1 & N2 & N3 & N4 & _).
  eapply wp_mono; [apply light_adc_starts; by rewrite O2|]. cbn beta. intros _ s3 ((H3 & O3 & W3) & L3 & S3). wp_steps.
  eapply wp_mono; [apply mq2_adc_starts; by rewrite O3, O2|]. cbn beta. intros _ s4 ((H4 & O4 & W4) & M4 & L4 & S4). wp_steps.
  eapply wp_mono; [apply dht11_port_spec; by rewrite O4, O3, O2|]. cbn beta. intros _ s5 (H5 & W5 & A5 & F5 & S5). wp_steps.
  unfold my_dht11_read_temp_sample. wp_steps. eapply wp_mono; [apply create_starts|]. cbn beta. intros _ s6 [E6 S6]. wp_steps.
  unfold found, boot_names in F5. rewrite !Forall_cons in F5. destruct F5 as (F1 & F2 & F3 & F4 & _).
  eapply wp_mono; [apply wp_board, pwm_init_spec; [by rewrite E6|by rewrite E6, W5, W4, W3, W2]|]. cbn beta.
  intros _ s7 [(K7 & Per & W7 & On7 & Regs7 & L7 & M7) S7]. apply kept_outputs in K7 as [H7 O7]. wp_steps.
  assert (at_rest (brd s7) = (g, b_timer (brd s), initial_props, 0, b_oled (brd s) ++ title_shown)) as H by congruence.
  unfold at_rest in H. injection H as Eg Et Ep Ea Eo. pose proof main_rest_spec as Hrest.
  assert (starts ([] ++ [] ++ [my_light_th] ++ created my_mq2_th ++ [] ++ created my_dht_tem ++ []) s s7) as [Ec Er]
    by (repeat (eapply starts_trans; [eassumption|]); done).
  apply wp_zoom. eapply wp_mono; [apply mqtt_start_spec; change (mqtt_begin (client s7)); by rewrite Ec|]. cbn beta.
  intros r m [-> Hconf]. change (@view _ mqtt _ s7) with (client s7) in Hconf. rewrite Ec in Hconf.
  change (brd (over m s7)) with (brd s7). change (client (over m s7)) with m. change (running (over m s7)) with (running s7).
  rewrite Eg, Ep, Eo, L7, M7, E6, A5, Er. cbn [Datatypes.app].
  split_and!; try done.
  - split; rewrite ?Eg, ?Ep, ?Et, ?O7, ?E6; [done|exact Ht|by split|by left].
  - by rewrite L4.
  - split; rewrite ?Ep, ?Ea; [by rewrite W7, E6|done|done|exists rest_pulse; split; [done|by right]|done].
  - by rewrite app_nil_r.
Qed.
End Main.
