(* ===== verification/RemoteControl.v ===== *)
(** * Remote control over TCP

    Models [applications/src/my_TCP.c], the shell command that takes commands from a TCP
    server, and [applications/src/my_file.c], the sample files it sends. The file system and
    the socket are parameters kept in the state: the contents of the two files, and the
    results of the next [send] calls. The commands act on the board directly, past the device
    states the rest of the controller announces. *)

From stdpp Require Import base numbers list strings.
From Stdlib Require Import ZArith Lia.
From S2P Require Import Prelude Gpio CFloat Json DataUpload Actuators Sensors.

Open Scope Z_scope.

(** ** The C library *)

(** [fgets] with room for [n] characters: the line read, and what follows it. *)
Fixpoint fgets (n : nat) (s : bytes) : bytes * bytes :=
  match n, s with
  | S n, c :: s => if c =? 10 then ([c], s) else let '(l, r) := fgets n s in (c :: l, r)
  | _, _ => ([], s)
  end.

Definition is_space (c : Z) : bool := (c =? 32) || ((9 <=? c) && (c <=? 13)).
Fixpoint skip_space (s : bytes) : bytes :=
  match s with c :: r => if is_space c then skip_space r else s | [] => [] end.

(** A sign, and whether the number is negative. *)
Definition sign (s : bytes) : bool * bytes :=
  match s with
  | c :: r => if c =? 45 then (true, r) else if c =? 43 then (false, r) else (false, s)
  | [] => (false, s)
  end.

(** [strtoul] in base 10: saturating, a minus sign negates the unsigned number. *)
Definition strtoul (s : bytes) : Z :=
  let '(neg, s) := sign (skip_space s) in
  let '(m, _, _) := digits 0 0 s in
  if 2 ^ 32 <=? m then 2 ^ 32 - 1 else if neg : bool then u32 (- m) else m.

(** [sscanf("%d")] of a text of at most nine characters, which fits an [int]. *)
Definition sscanf_d (s : bytes) : option Z :=
  let '(neg, s) := sign (skip_space s) in
  let '(m, n, _) := digits 0 0 s in
  if n =? 0 then None else Some (if neg : bool then - m else m).

(** The tokens [strtok] finds with one delimiter, as the places where they begin; the
    buffer afterwards, with a NUL after each token that a delimiter ends. *)
Fixpoint strtok_scan (d : Z) (inside : bool) (at_ : Z) (s : bytes) : list Z * bytes :=
  match s with
  | [] => ([], [])
  | c :: r =>
      if c =? d then
        let '(ts, b) := strtok_scan d false (at_ + 1) r in (ts, (if inside then 0 else c) :: b)
      else
        let '(ts, b) := strtok_scan d true (at_ + 1) r in (if inside then ts else at_ :: ts, c :: b)
  end.
Definition strtok (d : Z) (s : bytes) : list Z * bytes := strtok_scan d false 0 s.

(** The string a pointer into a buffer points at. *)
Definition string_at (b : bytes) (p : Z) : bytes := c_string (drop (Z.to_nat p) b).

(** ** State *)

Record remote : Type := Remote {
  r_board : board;
  sock_open : bool;
  recv_data : bool;              (* whether the receive buffer is allocated *)
  send_results : list Z;         (* of the next calls of [send]; then they send everything *)
  r_sent : list bytes;
  dht11_file : option bytes;     (* DHT11data.txt, if it exists *)
  light_file : option bytes;     (* Lightdata.txt *)
  dht11_last_position : Z;
  light_last_position : Z
}.

#[export, refine] Instance remote_board : Lens remote board :=
  {| view := r_board;
     over := fun b s => Remote b (sock_open s) (recv_data s) (send_results s) (r_sent s) (dht11_file s) (light_file s)
                          (dht11_last_position s) (light_last_position s) |}.
Proof. all: intros; try destruct s; reflexivity. Defined.

Definition set_conn (o r : bool) (s : remote) : remote :=
  Remote (r_board s) o r (send_results s) (r_sent s) (dht11_file s) (light_file s) (dht11_last_position s) (light_last_position s).
Definition set_out (l : list Z) (out : list bytes) (s : remote) : remote :=
  Remote (r_board s) (sock_open s) (recv_data s) l out (dht11_file s) (light_file s) (dht11_last_position s) (light_last_position s).
Definition set_files (d l : option bytes) (s : remote) : remote :=
  Remote (r_board s) (sock_open s) (recv_data s) (send_results s) (r_sent s) d l (dht11_last_position s) (light_last_position s).
Definition set_positions (d l : Z) (s : remote) : remote :=
  Remote (r_board s) (sock_open s) (recv_data s) (send_results s) (r_sent s) (dht11_file s) (light_file s) d l.

Definition on_board {A : Type} (m : M board A) : M remote A := zoom m.

(** [send]: the number of bytes sent, or -1; a closed socket sends nothing. The flags, 0 or
    for samples 1, are left out: 1 is [MSG_PEEK], which only concerns [recv]. *)
Definition send (d : bytes) : M remote Z :=
  s <- get ;;
  if negb (sock_open s) then ret (-1)
  else
    match send_results s with
    | [] => modify (set_out [] (r_sent s ++ [d])) ;;; ret (Z.of_nat (length d))
    | n :: l =>
        if n <? 0 then modify (set_out l (r_sent s)) ;;; ret (-1)
        else modify (set_out l (r_sent s ++ [take (Z.to_nat n) d])) ;;; ret (Z.min n (Z.of_nat (length d)))
    end.

Definition closesocket : M remote unit := modify (fun s => set_conn false (recv_data s) s).

(** [rt_free(recv_data)]; the pointer is not reset. *)
Definition free_recv_data : M remote unit :=
  b <- gets recv_data ;;
  if b : bool then modify (fun s => set_conn (sock_open s) false s) else raise DoubleFree.

(** ** my_TCP.c: sending *)

Definition my_led0_Comm_ON : bytes := str "LED0 ON".
Definition my_led0_Comm_OFF : bytes := str "LED0 OFF".
Definition my_led1_Comm_ON : bytes := str "LED1 ON".
Definition my_led1_Comm_OFF : bytes := str "LED1 OFF".
Definition my_led0_send_ON : bytes := str "LED0 Turn On".
Definition my_led0_send_OFF : bytes := str "LED0 Turn Off".
Definition my_led1_send_ON : bytes := str "LED1 Turn On".
Definition my_led1_send_OFF : bytes := str "LED1 Turn Off".
Definition my_DHT11data_Comm_Load : bytes := str "DHT11data Load".
Definition my_Lightdata_Comm_Load : bytes := str "Lightdata Load".
Definition my_temp_set_limit_Comm : bytes := str "Set templimit".
Definition my_light_set_limit_Comm : bytes := str "Set lightlimit".
Definition my_temp_feedback_on : bytes := str "WARNING!!! Abnormal temperature!".
Definition my_temp_feedback_off : bytes := str "Temperature return to normal! Automatically turn off the beep!".
Definition my_light_feedback_on : bytes := str "Light too dark! Automatically turn on the emergency light!".
Definition my_light_feedback_off : bytes := str "Light return to normal! Automatically turn off the emergency light!".
Definition DHT11_file_position_reset_Comm : bytes := str "DHT11 file position reset".
Definition DHT11_file_position_reset_feedback : bytes := str "DHT11 file position reset success".
Definition Light_file_position_reset_Comm : bytes := str "Light file position reset".
Definition Light_file_position_reset_feedback : bytes := str "Light file position reset success".

(** [send] and what follows it in each of the sending functions. *)
Definition my_send_msg (d : bytes) : M remote Z :=
  n <- send d ;;
  when (n <? 0) (closesocket ;;; free_recv_data) ;;;
  ret n.

(** The two messages of a feedback function: with another flag its result is never set. *)
Definition feedback (off on : bytes) (flag : Z) : M remote Z :=
  if flag =? 0 then my_send_msg off
  else if flag =? 1 then my_send_msg on
  else raise UninitRead.
Definition my_send_temp_feedback (flag : Z) : M remote Z := feedback my_temp_feedback_off my_temp_feedback_on flag.
Definition my_send_light_feedback (flag : Z) : M remote Z := feedback my_light_feedback_off my_light_feedback_on flag.
Definition my_send_fp_reset_feedback (flag : Z) : M remote Z :=
  feedback DHT11_file_position_reset_feedback Light_file_position_reset_feedback flag.

(** [sprintf] into an array of 15 characters. *)
Definition into_send_data (d : bytes) : M remote unit :=
  if 15 <? Z.of_nat (length d) + 1 then raise OutOfBounds else ret tt.

Definition my_send_DHT11data (data1 data2 : Z) : M remote Z :=
  let d := str "temp:" ++ sprintf_d (u8 data1) ++ str "C humi:" ++ sprintf_d (u8 data2) in
  into_send_data d ;;;
  let d := d ++ [37; 10] in
  into_send_data d ;;;
  my_send_msg d.

Definition my_send_Lightdata (value : Z) : M remote Z :=
  let d := str "light:" ++ sprintf_d (i32 value) ++ [76; 10] in
  into_send_data d ;;;
  my_send_msg d.

(** ** my_file.c *)

Definition DHT11_ARRAY_SIZE : Z := 25.
Definition LIGHT_ARRAY_SIZE : Z := 25.

(** Mounting after making the file system; it reports success as an error. *)
Definition dfs_mount_init (mounted : bool) : Z := if mounted then - RT_ERROR else RT_EOK.

Definition write_dht11_data (t h : Z) : M remote unit :=
  modify (fun s => set_files (Some (default [] (dht11_file s) ++ sprintf_d (u8 t) ++ 32 :: sprintf_d (u8 h) ++ [10]))
                     (light_file s) s).
Definition write_light_data (value : Z) : M remote unit :=
  modify (fun s => set_files (dht11_file s) (Some (default [] (light_file s) ++ sprintf_d (i32 value) ++ [10])) s).

(** What is left of a file from a position on. *)
Definition seek (position : Z) (file : bytes) : bytes := drop (Z.to_nat position) file.

(** The pointers to the tokens; the array has 51 places. *)
Definition store_tokens (index : Z) (ts : list Z) (strs : list (option Z)) : M remote (Z * list (option Z)) :=
  let index' := index + Z.of_nat (length ts) in
  if DHT11_ARRAY_SIZE * 2 + 1 <=? index' then raise OutOfBounds
  else ret (index', take (Z.to_nat index) strs ++ map Some ts ++ [None]).

Definition number_at (line : bytes) (p : option (option Z)) : M remote Z :=
  match p with
  | Some (Some p) => ret (strtoul (string_at line p))
  | Some None => raise NullAccess
  | None => raise UninitRead
  end.

(** The loop of [read_and_send_dht11_data]: the first two pointers of the array are into
    [line], which every [fgets] fills again. *)
Fixpoint dht11_loop (fuel : nat) (index count : Z) (strs : list (option Z)) (rest : bytes) : M remote bytes :=
  match fuel with
  | O => ret rest
  | S fuel =>
      let '(line, rest) := fgets 9 rest in
      if bool_decide (line = []) || (DHT11_ARRAY_SIZE <=? count) then ret rest
      else
        let '(ts, line) := strtok 32 (c_string line) in
        r <- store_tokens index ts strs ;;
        let '(index, strs) := r in
        t <- number_at line (strs !! 0%nat) ;;
        h <- number_at line (strs !! 1%nat) ;;
        my_send_DHT11data (u8 t) (u8 h) ;;;
        dht11_loop fuel (u8 index) (count + 1) strs rest
  end.

Definition read_and_send_dht11_data : M remote unit :=
  s <- get ;;
  match dht11_file s with
  | None => ret tt
  | Some file =>
      let start := seek (dht11_last_position s) file in
      rest <- dht11_loop (S (length start)) 0 0 [] start ;;
      modify (fun s => set_positions (dht11_last_position s + Z.of_nat (length start - length rest)) (light_last_position s) s)
  end.

Definition reset_dht11_read_position : M remote unit :=
  modify (fun s => set_positions 0 (light_last_position s) s) ;;;
  my_send_fp_reset_feedback 0 ;;;
  ret tt.

Definition set_dht11_read_position_end : M remote unit :=
  modify (fun s => match dht11_file s with
                   | Some file => set_positions (Z.of_nat (length file)) (light_last_position s) s
                   | None => s end).

(** The loop of [read_and_send_light_data]: [fgets] comes before the test of [count]. *)
Fixpoint light_loop (fuel : nat) (count : Z) (rest : bytes) : M remote bytes :=
  match fuel with
  | O => ret rest
  | S fuel =>
      let '(line, rest) := fgets 9 rest in
      if bool_decide (line = []) || (LIGHT_ARRAY_SIZE <=? count) then ret rest
      else
        match sscanf_d (c_string line) with
        | Some v => my_send_Lightdata v ;;; light_loop fuel (count + 1) rest
        | None => light_loop fuel count rest
        end
  end.

Definition read_and_send_light_data : M remote unit :=
  s <- get ;;
  match light_file s with
  | None => ret tt
  | Some file =>
      let start := seek (light_last_position s) file in
      rest <- light_loop (S (length start)) 0 start ;;
      modify (fun s => set_positions (dht11_last_position s) (light_last_position s + Z.of_nat (length start - length rest)) s)
  end.

Definition reset_light_read_position : M remote unit :=
  modify (fun s => set_positions (dht11_last_position s) 0 s) ;;;
  my_send_fp_reset_feedback 1 ;;;
  ret tt.

Definition set_light_read_position_end : M remote unit :=
  modify (fun s => match light_file s with
                   | Some file => set_positions (dht11_last_position s) (Z.of_nat (length file)) s
                   | None => s end).

(** ** my_TCP.c: the command *)

Definition BUFSZ : Z := 2048.

Definition my_control_led (led_pin led_state : Z) : M remote unit := on_board (pin_write led_pin led_state).

(** One of the four commands for the lamps. *)
Definition led_command (led_pin led_state : Z) (answer : bytes) : M remote bool :=
  my_control_led led_pin led_state ;;;
  n <- my_send_msg answer ;;
  ret (negb (n <? 0)).

(** The commands that are split at the colons: the copy has 50 characters, the array of
    pointers five places, the last of them for the final NULL. *)
Definition split_command (comm : bytes) : M remote bool :=
  if 50 <? Z.of_nat (length comm) + 1 then raise OutOfBounds
  else
    let '(ts, b) := strtok 58 comm in
    if 5 <=? Z.of_nat (length ts) then raise OutOfBounds
    else
      match ts with
      | [] => raise NullAccess
      | p :: ts =>
          let limit := match ts with q :: _ => Some (strtoul (string_at b q)) | [] => None end in
          if bool_decide (string_at b p = my_temp_set_limit_Comm) then
            match limit with
            | Some v => on_board (set_temp_limit (i32 v)) ;;; ret true
            | None => raise NullAccess
            end
          else if bool_decide (string_at b p = my_light_set_limit_Comm) then
            match limit with
            | Some v => on_board (set_light_limit (i32 v)) ;;; ret true
            | None => raise NullAccess
            end
          else ret true
      end.

(** A turn of the loop: what [recv] yields, or [None] for an error; whether it goes on. *)
Definition command_turn (received : option bytes) : M remote bool :=
  s <- get ;;
  match (if sock_open s then received else None) with
  | None | Some [] => closesocket ;;; free_recv_data ;;; ret false
  | Some d =>
      if negb (recv_data s) then raise UseAfterFree
      else
        let comm := c_string (take (Z.to_nat (BUFSZ - 1)) d) in
        let cmp c := bool_decide (comm = c) in
        if bool_decide (take 1 comm = str "q") || bool_decide (take 1 comm = str "Q") then
          closesocket ;;; free_recv_data ;;; ret false
        else if cmp my_led0_Comm_ON then led_command LED0_PIN PIN_LOW my_led0_send_ON
        else if cmp my_led0_Comm_OFF then led_command LED0_PIN PIN_HIGH my_led0_send_OFF
        else if cmp my_led1_Comm_ON then led_command LED1_PIN PIN_LOW my_led1_send_ON
        else if cmp my_led1_Comm_OFF then led_command LED1_PIN PIN_HIGH my_led1_send_OFF
        else if cmp my_DHT11data_Comm_Load then read_and_send_dht11_data ;;; ret true
        else if cmp my_Lightdata_Comm_Load then read_and_send_light_data ;;; ret true
        else if cmp DHT11_file_position_reset_Comm then reset_dht11_read_position ;;; ret true
        else if cmp Light_file_position_reset_Comm then reset_light_read_position ;;; ret true
        else split_command comm
  end.

(** The loop, on what the successive [recv] calls yield; [recv] blocks when nothing comes. *)
Fixpoint command_loop (input : list (option bytes)) : M remote unit :=
  match input with
  | [] => ret tt
  | d :: input => go <- command_turn d ;; if go : bool then command_loop input else ret tt
  end.

(** [my_tcp_control]: the address the name service gives (or NULL), and whether the
    allocation, the socket and the connection succeed. *)
Definition my_tcp_control (argc : Z) (host malloc_ok socket_ok connect_ok : bool) (input : list (option bytes)) : M remote unit :=
  if argc <? 3 then ret tt
  else if negb malloc_ok then modify (set_conn false false) ;;; ret tt
  else
    modify (set_conn false true) ;;;
    if negb socket_ok then free_recv_data
    else
      modify (set_conn true true) ;;;
      if negb host then raise NullAccess
      else if negb connect_ok then closesocket ;;; free_recv_data
      else command_loop input.

(** ** Facts *)

Section Facts.
Implicit Types s : remote.

(** The session is up, and the network takes what it gets. *)
Record connected s : Prop := {
  conn_open : sock_open s = true;
  conn_buffer : recv_data s = true;
  conn_sends : send_results s = []
}.

(** [s'] is [s] after sending [ds]. *)
Definition answered (ds : list bytes) s s' : Prop := s' = set_out [] (r_sent s ++ ds) s.

Lemma answered_connected ds s s' : connected s -> answered ds s s' -> connected s'.
Proof. by intros [Ho Hb Hs] ->. Qed.

Lemma answered_trans ds1 ds2 s1 s2 s3 : answered ds1 s1 s2 -> answered ds2 s2 s3 -> answered (ds1 ++ ds2) s1 s3.
Proof. unfold answered. intros -> ->. cbn. by rewrite app_assoc. Qed.

Lemma answered_nil s : connected s -> answered [] s s.
Proof. intros [_ _ Hs]. unfold answered. rewrite app_nil_r. destruct s; cbn in *; by subst. Qed.

Lemma send_msg_spec d s :
  connected s -> wp (my_send_msg d) s (fun n s' => n = Z.of_nat (length d) /\ answered [d] s s').
Proof.
  intros [Ho Hb Hs]. unfold my_send_msg, send. wp_steps. unfold get at 1, wp at 1. rewrite Ho, Hs. cbn [negb]. wp_steps.
  rewrite (proj2 (Z.ltb_ge _ 0)) by lia. cbn [when]. wp_steps. done.
Qed.

(** Two computations that do the same here. *)
Lemma wp_same {A : Type} (m m' : M remote A) s Q : m s = m' s -> wp m' s Q -> wp m s Q.
Proof. unfold wp. by intros ->. Qed.

(** *** The lamps *)

Definition lamp_pin (light : bool) : Z := if light then LED1_PIN else LED0_PIN.
Definition lamp_command (light on : bool) : bytes :=
  if light then if on then my_led1_Comm_ON else my_led1_Comm_OFF
  else if on then my_led0_Comm_ON else my_led0_Comm_OFF.
Definition lamp_answer (light on : bool) : bytes :=
  if light then if on then my_led1_send_ON else my_led1_send_OFF
  else if on then my_led0_send_ON else my_led0_send_OFF.
Definition lamp_level (on : bool) : Z := if on then PIN_LOW else PIN_HIGH.

Definition with_board (f : board -> board) s : remote := over (f (r_board s)) s.

Lemma lamp_turn light on s :
  connected s -> hw_pin_ops (b_gpio (r_board s)) = true ->
  wp (command_turn (Some (lamp_command light on))) s (fun go s' => go = true /\
    answered [lamp_answer light on]
      (with_board (fun b => over (write_level (b_gpio b) (lamp_pin light) (lamp_level on)) b) s) s').
Proof.
  intros Hc Hp. pose proof Hc as [Ho Hb Hs].
  assert (wp (led_command (lamp_pin light) (lamp_level on) (lamp_answer light on)) s (fun go s' => go = true /\
    answered [lamp_answer light on]
      (with_board (fun b => over (write_level (b_gpio b) (lamp_pin light) (lamp_level on)) b) s) s')) as H.
  { unfold led_command, my_control_led, on_board. wp_steps. apply wp_zoom, wp_pin_write; [done|by destruct light|]. wp_steps.
    eapply wp_mono; [apply send_msg_spec; by split|]. cbn beta. intros n s' [-> Ha]. wp_steps.
    rewrite (proj2 (Z.ltb_ge _ 0)) by lia. done. }
  unfold command_turn. wp_step. unfold get at 1, wp at 1. rewrite Ho, Hb.
  by destruct light, on.
Qed.
(** *** Numbers in text *)

Lemma digits_decimal n r :
  0 <= n -> heads (fun c => negb (is_digit c)) r = true ->
  digits 0 0 (decimal_of n ++ r) = (n, Z.of_nat (length (decimal_of n)), r).
Proof.
  intros Hn Hr. unfold decimal_of. rewrite digits_dec by (split; [done|by apply decimal_fuel]).
  rewrite Z.mul_0_l, !Z.add_0_l. destruct r as [|c r]; [done|]. cbn in Hr |- *. by destruct (is_digit c).
Qed.

Lemma decimal_digits n : Forall (fun c => is_digit c = true) (decimal_of n).
Proof.
  apply Forall_forall. intros c Hc. pose proof (dec_digits_chars (S (Z.to_nat (Z.log2 n))) n) as H.
  rewrite forallb_forall in H. apply H. by apply list_elem_of_In.
Qed.

Lemma decimal_no_space n r : skip_space (decimal_of n ++ r) = decimal_of n ++ r /\
  sign (decimal_of n ++ r) = (false, decimal_of n ++ r).
Proof.
  destruct (decimal_of_cons n) as (c & l & -> & Hc). cbn. unfold is_digit, is_space in *.
  replace ((c =? 32) || ((9 <=? c) && (c <=? 13))) with false by lia.
  rewrite (proj2 (Z.eqb_neq c 45)), (proj2 (Z.eqb_neq c 43)) by lia. done.
Qed.

Lemma strtoul_decimal n : 0 <= n < 2 ^ 32 -> strtoul (decimal_of n) = n.
Proof.
  intros Hn. unfold strtoul. destruct (decimal_no_space n []) as [E1 E2]. rewrite app_nil_r in E1, E2. rewrite E1, E2.
  pose proof (digits_decimal n [] ltac:(lia) eq_refl) as E. rewrite app_nil_r in E. rewrite E.
  by rewrite (proj2 (Z.leb_gt _ n)) by lia.
Qed.

(** A light sample as [write_light_data] writes it. *)
Definition light_line (v : Z) : bytes := sprintf_d v ++ [10].
Definition light_text (vs : list Z) : bytes := concat (map light_line vs).

(** What the light sensor yields. *)
Definition light_range (v : Z) : Prop := -95 <= v <= 4000.

Lemma sprintf_d_small v : light_range v ->
  (1 <= length (sprintf_d v) <= 4)%nat /\ Forall (fun c => 32 < c < 256 /\ c <> 58) (sprintf_d v).
Proof.
  unfold light_range, sprintf_d. intros Hv.
  assert (forall n, Forall (fun c => 32 < c < 256 /\ c <> 58) (decimal_of n)) as Hd.
  { intros n. eapply Forall_impl; [apply decimal_digits|]. cbn. intros c Hc. unfold is_digit in Hc. lia. }
  assert (forall n, 1 <= length (decimal_of n))%nat as H1.
  { intros n. destruct (decimal_of_cons n) as (c & r & -> & _). cbn. lia. }
  destruct (v <? 0) eqn:E.
  - assert (length (decimal_of (- v)) <= 2)%nat as Hl by (apply dec_digits_length; cbn; lia). split; [cbn [length]; lia|]. constructor; [cbn; lia|apply Hd].
  - assert (length (decimal_of v) <= 4)%nat as Hl by (apply dec_digits_length; cbn; lia). specialize (H1 v). split; [lia|apply Hd].
Qed.

Lemma sscanf_light v : light_range v -> sscanf_d (c_string (light_line v)) = Some v.
Proof.
  intros Hv. destruct (sprintf_d_small v Hv) as [_ Hc]. rewrite c_string_id.
  2: { unfold light_line. apply Forall_app. split; [|repeat constructor; unfold char_ok; lia].
       eapply Forall_impl; [exact Hc|]. cbn. unfold char_ok. lia. }
  assert (forall n, length (decimal_of n) <> 0%nat) as H1.
  { intros n. destruct (decimal_of_cons n) as (c & r & -> & _). done. }
  unfold light_line, sscanf_d, sprintf_d, light_range in *. destruct (v <? 0) eqn:E.
  - cbn [Datatypes.app skip_space]. change (is_space 45) with false. cbn [sign Z.eqb Pos.eqb].
    rewrite digits_decimal by (done || lia). specialize (H1 (- v)).
    rewrite (proj2 (Z.eqb_neq _ 0)) by lia. f_equal. lia.
  - destruct (decimal_no_space v [10]) as [-> ->]. rewrite digits_decimal by (done || lia). specialize (H1 v).
    by rewrite (proj2 (Z.eqb_neq _ 0)) by lia.
Qed.

Lemma fgets_line n l r : Forall (fun c => c <> 10) l -> (length l < n)%nat -> fgets n (l ++ 10 :: r) = (l ++ [10], r).
Proof.
  intros Hl. revert n. induction Hl as [|c l Hc _ IH]; intros n Hn; destruct n as [|n]; cbn in Hn; try lia; [done|].
  cbn. rewrite (proj2 (Z.eqb_neq c 10)) by done. by rewrite IH by lia.
Qed.

Lemma fgets_light v vs : light_range v -> fgets 9 (light_text (v :: vs)) = (light_line v, light_text vs).
Proof.
  intros Hv. destruct (sprintf_d_small v Hv) as [Hl Hc]. unfold light_text. cbn [map concat].
  unfold light_line at 1. rewrite <- app_assoc. cbn [Datatypes.app]. rewrite fgets_line; [done| |lia].
  eapply Forall_impl; [exact Hc|]. cbn. lia.
Qed.
(** *** Sending the light samples *)

Definition light_msg (v : Z) : bytes := str "light:" ++ sprintf_d v ++ [76; 10].

Lemma send_light_spec v s :
  connected s -> light_range v ->
  wp (my_send_Lightdata v) s (fun _ s' => answered [light_msg v] s s').
Proof.
  intros Hc Hv. destruct (sprintf_d_small v Hv) as [Hl _]. unfold light_range in Hv.
  unfold my_send_Lightdata, into_send_data. rewrite swrap_small by lia. wp_step.
  rewrite !length_app. cbn [length str]. change (length (str "light:")) with 6%nat.
  rewrite (proj2 (Z.ltb_ge 15 _)) by lia. wp_steps.
  eapply wp_mono; [by apply send_msg_spec|]. cbn beta. by intros n s' [_ Ha].
Qed.

Lemma light_text_length vs : (length vs <= length (light_text vs))%nat.
Proof.
  induction vs as [|v vs IH]; [done|]. unfold light_text in *. cbn [map concat length]. unfold light_line at 1.
  rewrite !length_app. cbn [length]. lia.
Qed.

(** The loop reads one line more than it sends. *)
Lemma light_loop_spec fuel count vs s :
  connected s -> Forall light_range vs -> 0 <= count <= 25 -> (length vs < fuel)%nat ->
  wp (light_loop fuel count (light_text vs)) s (fun rest s' =>
    rest = light_text (drop (Z.to_nat (26 - count)) vs) /\
    answered (map light_msg (take (Z.to_nat (25 - count)) vs)) s s').
Proof.
  intros Hc Hvs. revert fuel count s Hc. induction Hvs as [|v vs Hv _ IH]; intros fuel count s Hc Hn Hf.
  - destruct fuel as [|fuel]; [cbn in Hf; lia|]. cbn [light_loop light_text map concat fgets].
    rewrite bool_decide_true by done. cbn [orb]. wp_steps. rewrite drop_nil, take_nil. split; [done|by apply answered_nil].
  - destruct fuel as [|fuel]; [lia|]. cbn [light_loop length] in *. rewrite fgets_light by done.
    rewrite bool_decide_false by (unfold light_line; by destruct (sprintf_d v)). cbn [orb]. unfold LIGHT_ARRAY_SIZE.
    destruct (25 <=? count) eqn:E.
    + wp_steps. replace (Z.to_nat (26 - count)) with 1%nat by lia. replace (Z.to_nat (25 - count)) with 0%nat by lia.
      split; [done|by apply answered_nil].
    + rewrite sscanf_light by done. wp_steps. eapply wp_mono; [by apply send_light_spec|]. cbn beta. intros _ s1 H1.
      eapply wp_mono; [apply IH; [by eapply answered_connected|lia..]|]. cbn beta. intros rest s2 [-> H2].
      replace (Z.to_nat (26 - count)) with (S (Z.to_nat (26 - (count + 1)))) by lia.
      replace (Z.to_nat (25 - count)) with (S (Z.to_nat (25 - (count + 1)))) by lia. split; [done|].
      by apply (answered_trans [light_msg v] _ s s1 s2).
Qed.

Lemma light_text_app vs ws : light_text (vs ++ ws) = light_text vs ++ light_text ws.
Proof. unfold light_text. by rewrite map_app, concat_app. Qed.

(** The file holds the samples [vs], of which [k] have been read. *)
Definition light_at (vs : list Z) (k : nat) s : Prop :=
  light_file s = Some (light_text vs) /\ light_last_position s = Z.of_nat (length (light_text (take k vs))).

Lemma read_light_spec vs k s :
  connected s -> Forall light_range vs -> light_at vs k s ->
  wp read_and_send_light_data s (fun _ s' => light_at vs (k + 26) s' /\
    exists s1 p, answered (map light_msg (take 25 (drop k vs))) s s1 /\
      s' = set_positions (dht11_last_position s) p s1).
Proof.
  intros Hc Hvs [Ef Ep]. unfold read_and_send_light_data. wp_step. unfold get at 1, wp at 1. rewrite Ef, Ep.
  assert (light_text vs = light_text (take k vs) ++ light_text (drop k vs)) as Es by (by rewrite <- light_text_app, take_drop).
  unfold seek. rewrite Nat2Z.id, Es, drop_app_length. wp_step.
  eapply wp_mono; [apply (light_loop_spec _ 0 (drop k vs)); [done|by apply Forall_drop|lia|pose proof (light_text_length (drop k vs)); lia]|].
  cbn beta. intros rest s1 [-> H1]. wp_steps. change (Z.to_nat (26 - 0)) with 26%nat. change (Z.to_nat (25 - 0)) with 25%nat in H1.
  pose proof H1 as H1'. unfold answered in H1. subst s1. split; [|by eexists _, _].
  split; [cbn; exact Ef|]. cbn. rewrite Ep. rewrite drop_drop.
  assert (light_text (drop k vs) = light_text (take 26 (drop k vs)) ++ light_text (drop (k + 26) vs)) as E2.
  { by rewrite <- light_text_app, <- drop_drop, take_drop. }
  assert (light_text (take (k + 26) vs) = light_text (take k vs) ++ light_text (take 26 (drop k vs))) as E3.
  { by rewrite <- light_text_app, take_take_drop. }
  rewrite E2, E3, !length_app. lia.
Qed.
(** *** The commands with a number *)

Lemma strtok_inside d a r k : Forall (fun c => c <> d) a ->
  strtok_scan d true k (a ++ r) =
  let '(ts, b) := strtok_scan d true (k + Z.of_nat (length a)) r in (ts, a ++ b).
Proof.
  intros Ha. revert k. induction Ha as [|c a Hc _ IH]; intros k.
  - cbn [Datatypes.app length]. rewrite Z.add_0_r. by destruct (strtok_scan d true k r).
  - cbn [Datatypes.app length strtok_scan]. rewrite (proj2 (Z.eqb_neq c d)), IH by done.
    replace (k + 1 + Z.of_nat (length a)) with (k + Z.of_nat (S (length a))) by lia.
    by destruct (strtok_scan d true _ r).
Qed.

Lemma strtok_outside d a r k : Forall (fun c => c <> d) a -> a <> [] ->
  strtok_scan d false k (a ++ r) =
  let '(ts, b) := strtok_scan d true (k + Z.of_nat (length a)) r in (k :: ts, a ++ b).
Proof.
  intros Ha Hne. destruct Ha as [|c a Hc Ha]; [done|]. cbn [Datatypes.app length strtok_scan].
  rewrite (proj2 (Z.eqb_neq c d)), strtok_inside by done.
  replace (k + 1 + Z.of_nat (length a)) with (k + Z.of_nat (S (length a))) by lia.
  by destruct (strtok_scan d true _ r).
Qed.

(** A command of two parts. *)
Lemma strtok_two d a b : Forall (fun c => c <> d) a -> Forall (fun c => c <> d) b -> a <> [] -> b <> [] ->
  strtok d (a ++ d :: b) = ([0; Z.of_nat (length a) + 1], a ++ 0 :: b).
Proof.
  intros Ha Hb Hna Hnb. unfold strtok. rewrite strtok_outside by done. cbn [strtok_scan]. rewrite Z.eqb_refl.
  rewrite <- (app_nil_r b), (strtok_outside d b []) by done. cbn [strtok_scan]. by rewrite app_nil_r.
Qed.

Lemma string_at_first a b : Forall char_ok a -> string_at (a ++ 0 :: b) 0 = a.
Proof.
  intros Ha. unfold string_at. cbn [drop Z.to_nat]. rewrite drop_0. induction Ha as [|c a Hc _ IH]; [done|].
  cbn. unfold char_ok in Hc. rewrite (proj2 (Z.eqb_neq c 0)) by lia. by rewrite IH.
Qed.

Lemma string_at_second a b : Forall char_ok b -> string_at (a ++ 0 :: b) (Z.of_nat (length a) + 1) = b.
Proof.
  intros Hb. unfold string_at. rewrite Z2Nat.inj_add, Nat2Z.id by lia. change (Z.to_nat 1) with 1%nat.
  rewrite drop_app_add. cbn [drop]. rewrite drop_0. by apply c_string_id.
Qed.

Definition limit_command (temperature : bool) : bytes :=
  if temperature then my_temp_set_limit_Comm else my_light_set_limit_Comm.
Definition set_limit (temperature : bool) (n : Z) : M board unit :=
  if temperature then set_temp_limit n else set_light_limit n.

Lemma limit_chars temperature :
  (length (limit_command temperature) <= 14)%nat /\ Forall char_ok (limit_command temperature) /\
  Forall (fun c => c <> 58) (limit_command temperature) /\ limit_command temperature <> [].
Proof.
  destruct temperature; match goal with |- context [limit_command ?b] => let l := eval vm_compute in (limit_command b) in change (limit_command b) with l end;
    (split; [cbn; lia|]); (split; [repeat (constructor; [unfold char_ok; lia|]); constructor|]);
    (split; [repeat (constructor; [lia|]); constructor|done]).
Qed.

Lemma split_limit temperature n s :
  0 <= n < 2 ^ 31 ->
  split_command (limit_command temperature ++ 58 :: decimal_of n) s = (on_board (set_limit temperature n) ;;; ret true) s.
Proof.
  intros Hn. assert (length (decimal_of n) <= 10)%nat as Hl by (apply dec_digits_length; [cbn|]; lia).
  pose proof (decimal_digits n) as Hd.
  assert (Forall char_ok (decimal_of n)) as Hok.
  { eapply Forall_impl; [exact Hd|]. cbn. unfold is_digit, char_ok. lia. }
  assert (Forall (fun c => c <> 58) (decimal_of n)) as H58.
  { eapply Forall_impl; [exact Hd|]. cbn. unfold is_digit. lia. }
  assert (decimal_of n <> []) as Hne by (by destruct (decimal_of_cons n) as (? & ? & -> & _)).
  destruct (limit_chars temperature) as (Hc1 & Hc2 & Hc3 & Hc4).
  unfold split_command. rewrite (proj2 (Z.ltb_ge 50 _)) by (rewrite length_app; cbn [length]; lia).
  rewrite strtok_two by done. cbv iota. change (5 <=? Z.of_nat (length [0; Z.of_nat (length (limit_command temperature)) + 1])) with false.
  cbv iota zeta. rewrite string_at_first, string_at_second, strtoul_decimal, swrap_small by (done || lia).
  by destruct temperature.
Qed.
(** *** A session *)

(** The commands, by what they ask for. *)
Inductive command : Set :=
  | Lamp (light on : bool)
  | Limit (temperature : bool) (n : Z)
  | Load (climate : bool)
  | Rewind (climate : bool).

Definition command_text (c : command) : bytes :=
  match c with
  | Lamp light on => lamp_command light on
  | Limit temperature n => limit_command temperature ++ 58 :: decimal_of n
  | Load climate => if climate then my_DHT11data_Comm_Load else my_Lightdata_Comm_Load
  | Rewind climate => if climate then DHT11_file_position_reset_Comm else Light_file_position_reset_Comm
  end.

Definition command_ok (c : command) : Prop :=
  match c with Limit _ n => 0 <= n < 2 ^ 31 | _ => True end.

(** What a command does to the board, and where it leaves the reading of the light file. *)
Definition command_board (c : command) (b : board) : board :=
  match c with
  | Lamp light on => over (write_level (b_gpio b) (lamp_pin light) (lamp_level on)) b
  | Limit temperature n =>
      over (if temperature then set_dht (dht_temp (b_app b)) (dht_humi (b_app b)) (u8 n) (beep_state (b_app b)) (b_app b)
            else set_light_flags (emergency_light_state (b_app b)) (light_hard_error_state (b_app b)) (u32 n) (b_app b)) b
  | _ => b
  end.
Definition command_read (c : command) (k : nat) : nat :=
  match c with Load false => k + 26 | Rewind false => 0 | _ => k end.

(** What the server gets for it. *)
Definition command_answer (vs : list Z) (k : nat) (c : command) : list bytes :=
  match c with
  | Lamp light on => [lamp_answer light on]
  | Limit _ _ | Load true => []
  | Load false => map light_msg (take 25 (drop k vs))
  | Rewind climate => [if climate then DHT11_file_position_reset_feedback else Light_file_position_reset_feedback]
  end.

(** A session on a board whose light file holds [vs]; no climate sample has been written, as
    nothing calls [write_dht11_data]. *)
Record session_at (vs : list Z) (k : nat) (b : board) (out : list bytes) s : Prop := {
  ses_connected : connected s;
  ses_board : r_board s = b;
  ses_out : r_sent s = out;
  ses_climate : dht11_file s = None;
  ses_light : light_at vs k s
}.

Lemma limit_text_turn temperature n s :
  connected s -> 0 <= n < 2 ^ 31 ->
  command_turn (Some (command_text (Limit temperature n))) s = (on_board (set_limit temperature n) ;;; ret true) s.
Proof.
  intros [Ho Hb Hs] Hn. rewrite <- split_limit by done. cbn [command_text]. set (comm := limit_command temperature ++ 58 :: decimal_of n).
  assert (exists r, comm = 83 :: r) as [r Er] by (destruct temperature; by eexists).
  assert (c_string (take (Z.to_nat (BUFSZ - 1)) comm) = comm) as Ec.
  { assert (length (decimal_of n) <= 10)%nat as Hl by (apply dec_digits_length; [cbn|]; lia).
    rewrite take_ge.
    - apply c_string_id. unfold comm. apply Forall_app. split; [destruct temperature; apply limit_chars|].
      constructor; [unfold char_ok; lia|]. eapply Forall_impl; [apply decimal_digits|]. cbn. unfold is_digit, char_ok. lia.
    - unfold comm. rewrite length_app. cbn [length]. change (Z.to_nat (BUFSZ - 1)) with 2047%nat. destruct (limit_chars temperature) as [? _]. lia. }
  unfold command_turn, bind at 1, get. rewrite Ho, Hb. cbn [negb].
  rewrite Er in *. cbv zeta. rewrite Ec. by rewrite !bool_decide_false by (intros E; discriminate E).
Qed.

(** Every command on a session that is up. *)
Lemma command_turn_spec vs k b out c s :
  session_at vs k b out s -> Forall light_range vs -> hw_pin_ops (b_gpio b) = true -> command_ok c ->
  wp (command_turn (Some (command_text c))) s (fun go s' => go = true /\
    session_at vs (command_read c k) (command_board c b) (out ++ command_answer vs k c) s').
Proof.
  intros [Hc Hb Ho Hd Hl] Hvs Hp Hok. pose proof Hc as [Hc1 Hc2 Hc3]. destruct c as [light on|temperature n|climate|climate].
  - eapply wp_mono; [apply lamp_turn; [done|by rewrite Hb]|]. cbn beta. intros go s' [-> Ha]. split; [done|].
    rewrite Ha. split; cbn; try done; [by rewrite Hb|by rewrite Ho].
  - eapply wp_same; [by apply limit_text_turn|]. cbn [command_answer].
    unfold on_board. wp_steps. apply wp_zoom. unfold set_limit, set_temp_limit, set_light_limit, app_modify.
    rewrite app_nil_r. destruct temperature; apply wp_zoom, wp_modify; wp_steps; (split; [done|]);
      split; cbn; try done; by rewrite Hb.
  - destruct climate.
    + apply (wp_same _ (read_and_send_dht11_data ;;; ret true)); [unfold command_turn, bind at 1, get; by rewrite Hc1, Hc2|].
      cbn [command_read command_board command_answer].
      rewrite app_nil_r. wp_steps. unfold read_and_send_dht11_data. wp_step. unfold get at 1, wp at 1. rewrite Hd. wp_steps. by split.
    + apply (wp_same _ (read_and_send_light_data ;;; ret true)); [unfold command_turn, bind at 1, get; by rewrite Hc1, Hc2|].
      cbn [command_read command_board command_answer].
      wp_steps. eapply wp_mono; [by apply read_light_spec|]. cbn beta. intros _ s' (Hl' & s1 & p & Ha & ->). wp_steps.
      split; [done|]. unfold answered in Ha. subst s1. split; cbn; try done. by rewrite Ho.
  - destruct climate.
    + apply (wp_same _ (reset_dht11_read_position ;;; ret true)); [unfold command_turn, bind at 1, get; by rewrite Hc1, Hc2|].
      cbn [command_read command_board command_answer].
      wp_steps. unfold reset_dht11_read_position, my_send_fp_reset_feedback, feedback. wp_steps. cbn [Z.eqb].
      eapply wp_mono; [apply send_msg_spec; by split|]. cbn beta. intros n s' [_ Ha]. wp_steps. split; [done|].
      rewrite Ha. split; cbn; try done; [by rewrite Ho].
    + apply (wp_same _ (reset_light_read_position ;;; ret true)); [unfold command_turn, bind at 1, get; by rewrite Hc1, Hc2|].
      cbn [command_read command_board command_answer].
      wp_steps. unfold reset_light_read_position, my_send_fp_reset_feedback, feedback. wp_steps. cbn [Z.eqb Pos.eqb].
      eapply wp_mono; [apply send_msg_spec; by split|]. cbn beta. intros n s' [_ Ha]. wp_steps. split; [done|].
      rewrite Ha. split; cbn; try done; [by rewrite Ho|]. destruct Hl as [Hl _]. by split.
Qed.
(** What the server gets for a list of commands. *)
Fixpoint answers (vs : list Z) (k : nat) (cs : list command) : list bytes :=
  match cs with
  | [] => []
  | c :: cs => command_answer vs k c ++ answers vs (command_read c k) cs
  end.

Lemma command_loop_app vs k b out cs rest s (Q : unit -> remote -> Prop) :
  session_at vs k b out s -> Forall light_range vs -> hw_pin_ops (b_gpio b) = true -> Forall command_ok cs ->
  (forall s', session_at vs (foldl (fun k c => command_read c k) k cs) (foldl (fun b c => command_board c b) b cs)
     (out ++ answers vs k cs) s' -> wp (command_loop rest) s' Q) ->
  wp (command_loop (map (fun c => Some (command_text c)) cs ++ rest)) s Q.
Proof.
  intros Hs Hvs Hp Hcs. revert k b out s Hs Hp. induction Hcs as [|c cs Hc _ IH]; intros k b out s Hs Hp HQ.
  - apply HQ. cbn. by rewrite app_nil_r.
  - cbn [map Datatypes.app command_loop]. wp_steps. eapply wp_mono; [by eapply command_turn_spec|]. cbn beta.
    intros go s' [-> Hs']. eapply IH; [exact Hs'|by destruct c|]. intros s2 Hs2. apply HQ.
    cbn [foldl answers]. by rewrite app_assoc.
Qed.

(** The answer to a rewind that cannot be sent ends the connection and frees the receive
    buffer, but the command goes on: whatever [recv] yields next, it frees the buffer again. *)
Lemma rewind_double_free climate received l s :
  sock_open s = true -> recv_data s = true -> send_results s = -1 :: l ->
  command_loop [Some (command_text (Rewind climate)); received] s = Fault DoubleFree.
Proof. intros Ho Hb Hs. destruct s as [b o r ? ? ? ? ? ?]. cbn in Ho, Hb, Hs. subst. by destruct climate. Qed.

(** A climate sample never fits the array it is printed into. *)
Lemma climate_overflows t h s : my_send_DHT11data t h s = Fault OutOfBounds.
Proof.
  assert (forall n, 0 <= n -> (1 <= length (sprintf_d n))%nat) as Hl.
  { intros n Hn. unfold sprintf_d. rewrite (proj2 (Z.ltb_ge n 0)) by done.
    destruct (decimal_of_cons n) as (c & r & -> & _). cbn. lia. }
  unfold my_send_DHT11data, into_send_data. pose proof (Hl (u8 t) ltac:(apply wrap_range; lia)) as Ht.
  pose proof (Hl (u8 h) ltac:(apply wrap_range; lia)) as Hh. unfold bind at 1.
  destruct (15 <? _); [done|]. unfold ret at 1, bind. rewrite !length_app. change (length (str "temp:")) with 5%nat.
  change (length (str "C humi:")) with 7%nat. cbn [length]. by rewrite (proj2 (Z.ltb_lt 15 _)) by lia.
Qed.

(** C40. A session of the remote control refines a list of commands: when every [send] of the
    session succeeds in full ([connected]) and each [recv] yields one whole command, then
    whatever lamp commands, limits, readings of the light file and rewinds the server sends
    before it quits, the session runs without a fault, the board ends as the commands in
    their order leave it, the server has got exactly their answers, and the socket is closed
    and the receive buffer freed once. (With a [send] that fails, a rewind ends in a double
    free: [rewind_double_free].) *)
Theorem remote_session vs k b out cs s :
  session_at vs k b out s -> Forall light_range vs -> hw_pin_ops (b_gpio b) = true -> Forall command_ok cs ->
  wp (command_loop (map (fun c => Some (command_text c)) cs ++ [Some (str "quit")])) s (fun _ s' =>
    sock_open s' = false /\ recv_data s' = false /\
    r_board s' = foldl (fun b c => command_board c b) b cs /\ r_sent s' = out ++ answers vs k cs).
Proof.
  intros Hs Hvs Hp Hcs. eapply command_loop_app; [done..|]. intros s' [[Ho Hb Hsend] Hbo Hout _ _].
  cbn [command_loop]. wp_steps. apply (wp_same _ (closesocket ;;; free_recv_data ;;; ret false)).
  { unfold command_turn, bind at 1, get. by rewrite Ho, Hb. }
  unfold closesocket, free_recv_data. wp_steps. cbn [recv_data set_conn]. rewrite Hb. wp_steps. cbn. done.
Qed.

(** A lamp command acts past the announced states: it leaves the shared data as they
    are, so that the board's outputs agree with them afterwards exactly when the lamp was
    asked for what it showed already (the fill light its state, the warning lamp the
    buzzer). *)
Theorem lamp_command_agrees light on vs k b out s :
  session_at vs k b out s -> Forall light_range vs -> board_ok b ->
  wp (command_turn (Some (command_text (Lamp light on)))) s (fun _ s' =>
    b_props (r_board s') = b_props b /\
    (board_ok (r_board s') <->
     on = if light then LED1_State (my_devices (b_props b)) else level (b_gpio b) BEEP_PIN =? PIN_HIGH)).
Proof.
  intros Hs Hvs Hb. eapply wp_mono; [by eapply command_turn_spec; [done..|apply Hb|]|]. cbn beta. intros go s' [_ [_ -> _ _ _]].
  cbn [command_board]. split; [done|]. destruct Hb as [Hp Ht Hd Ha].
  destruct (pins_write _ _ (lamp_pin light) (lamp_level on) Hp) as (W1 & W2 & W3); [destruct light; rewrite !elem_of_cons; auto|].
  split.
  - intros [Hp' _ _ _]. cbn in Hp'. destruct Hp' as [_ _ L1 _ L0 _]. rewrite !W3 in L1, L0. destruct light.
    + rewrite decide_True in L1 by done. by destruct on, (LED1_State _).
    + change (lamp_pin false) with LED0_PIN in *. rewrite ?(W3 BEEP_PIN), (decide_True (P := LED0_PIN = LED0_PIN)), (decide_False (P := BEEP_PIN = LED0_PIN)) in L0 by (done || pin_ne).
      by destruct on, (level (b_gpio b) BEEP_PIN =? PIN_HIGH).
  - intros ->. split; cbn; try done. split; cbn; rewrite ?W3; try done.
    + destruct light; [rewrite decide_True by done|rewrite decide_False by pin_ne; apply Hp].
      by destruct (LED1_State _).
    + destruct light; rewrite decide_False by pin_ne; apply Hp.
    + destruct light.
      * rewrite !decide_False by pin_ne. apply Hp.
      * rewrite decide_True, decide_False by (done || pin_ne). by destruct (_ =? _).
    + destruct light; rewrite decide_False by pin_ne; apply Hp.
Qed.

(** Reading the light file loses samples: each command sends the next 25 samples but
    moves the position by 26 lines, so that of every 26 samples of the file the last is
    never sent. *)
Theorem light_batches n vs b out s :
  session_at vs 0 b out s -> Forall light_range vs -> hw_pin_ops (b_gpio b) = true ->
  wp (command_loop (replicate n (Some (command_text (Load false))))) s (fun _ s' =>
    session_at vs (26 * n) b
      (out ++ map light_msg (concat (map (fun i => take 25 (drop (26 * i) vs)) (seq 0 n)))) s').
Proof.
  intros Hs Hvs Hp.
  assert (forall k, foldl (fun k c => command_read c k) k (replicate n (Load false)) = k + 26 * n)%nat as Ek.
  { induction n as [|n IH]; intros k; cbn [replicate foldl command_read]; [lia|]. rewrite IH. lia. }
  assert (foldl (fun b c => command_board c b) b (replicate n (Load false)) = b) as Eb by (clear; by induction n).
  assert (forall k j, answers vs (k + 26 * j) (replicate n (Load false)) =
    map light_msg (concat (map (fun i => take 25 (drop (k + 26 * i) vs)) (seq j n)))) as Ea.
  { clear. intros k. induction n as [|n IH]; intros j; [done|]. cbn [replicate answers command_answer command_read seq map concat].
    rewrite map_app, <- IH. do 2 f_equal. lia. }
  rewrite <- (app_nil_r (replicate _ _)). rewrite <- (fmap_replicate (fun c => Some (command_text c)) n (Load false)).
  eapply command_loop_app; [done..|by apply Forall_replicate|]. rewrite Ek, Eb.
  assert (answers vs 0 (replicate n (Load false)) =
    map light_msg (concat (map (fun i => take 25 (drop (26 * i) vs)) (seq 0 n)))) as -> by exact (Ea 0%nat 0%nat).
  intros s' Hs'. cbn [command_loop]. wp_steps. done.
Qed.
End Facts.
