(* ===== verification/Witnesses.v ===== *)
(** * Concrete instances

    A board as the drivers leave it, the same board after [main]'s set-up, and a connected
    client with the application's subscriptions: the theorems about the board, the
    application and the whole controller applied to them. *)

From stdpp Require Import base numbers list gmap strings.
From Stdlib Require Import ZArith Lia Floats.SpecFloat.
From S2P Require Import Prelude Gpio Device CFloat Tim HwTimer Pwm Adc Display DataUpload Actuators ActuatorProps Preemption Sensors SensorDevice Climate Json MqttPacket MqttClient MqttApp Session Worker AutoControl Outbound System ClosedLoop Boot RemoteControl.

Open Scope Z_scope.

Definition registered {CB : Type} : rt_device CB :=
  Rt_device (Z.lor RT_DEVICE_FLAG_RDWR RT_DEVICE_FLAG_STANDALONE) 0 0 None None.

(** The drivers have registered their devices; the light converter reads 1000, the smoke
    converter 200. *)
Definition boot_board : board :=
  Board (set_hw_pin_ops (gpio_reset (fun _ => 0xffff))) (registered_timer timer_cb)
    (Pwm registered (fun _ => 0) 0) (Adc registered false 0 (fun _ => 1000) 0) (Adc registered false 0 (fun _ => 200) 0)
    [(HWTIMER_DEV_NAME, 1); (PWM_DEV_NAME, 2); (ADC_LIGHT_DEV_NAME, 3); (ADC_MQ2_DEV_NAME, 4)]
    initial_props (App None 0 (Hwtimerval 0 0) 0 0 None 0 0 None None 0 0 0 0 2500 0 0 0 0) [].

Lemma boot_start : board_start (fun _ => 0xffff) boot_board.
Proof.
  split; try done.
  - split; [|done]. split; [split; [reflexivity|split; reflexivity]|]. split; [split; [left|]; reflexivity|discriminate].
  - repeat constructor; eexists; reflexivity.
Qed.

(** The state a computation that does not fault ends in. *)
Definition final {S A : Type} (m : M S A) (s : S) : S := match m s with Ok (_, s') => s' | Fault _ => s end.
Lemma wp_final {S A : Type} (m : M S A) (s : S) (Q : S -> Prop) : wp m s (fun _ s' => Q s') -> Q (final m s).
Proof. unfold wp, final. by destruct (m s) as [[a s']|]. Qed.

(** The board after the set-up. *)
Definition running_board : board := final (my_GPIO_Init ;;; oled my_oled_init ;;; my_light_ADC_Init ;;; my_mq2_ADC_Init ;;; my_pwm_init) boot_board.

Lemma running_board_facts :
  board_ok running_board /\ keys_attached (b_gpio running_board) /\ b_props running_board = initial_props /\
  is_Some (adc_light_dev (b_app running_board)) /\ is_Some (adc_mq2_dev (b_app running_board)) /\
  door_ok running_board /\ angle (b_app running_board) = 0 /\
  b_oled running_board = title_shown.
Proof.
  unfold running_board. apply (wp_final _ _ (fun b => board_ok b /\ keys_attached (b_gpio b) /\ b_props b = initial_props /\
    is_Some (adc_light_dev (b_app b)) /\ is_Some (adc_mq2_dev (b_app b)) /\ door_ok b /\ angle (b_app b) = 0 /\
    b_oled b = title_shown)), (board_setup_spec _ _ boot_start).
Qed.

Opaque running_board.

Lemma running_ok : board_ok running_board.
Proof. exact (proj1 running_board_facts). Qed.
Lemma running_props : b_props running_board = initial_props.
Proof. exact (proj1 (proj2 (proj2 running_board_facts))). Qed.
Lemma running_light : is_Some (adc_light_dev (b_app running_board)).
Proof. exact (proj1 (proj2 (proj2 (proj2 running_board_facts)))). Qed.
Lemma running_smoke : is_Some (adc_mq2_dev (b_app running_board)).
Proof. exact (proj1 (proj2 (proj2 (proj2 (proj2 running_board_facts))))). Qed.
Lemma running_door : door_ok running_board.
Proof. exact (proj1 (proj2 (proj2 (proj2 (proj2 (proj2 running_board_facts)))))). Qed.
Lemma running_angle : angle (b_app running_board) = 0.
Proof. exact (proj1 (proj2 (proj2 (proj2 (proj2 (proj2 (proj2 running_board_facts))))))). Qed.
Lemma running_in_order : board_ok running_board /\ door_ok running_board.
Proof. exact (conj running_ok running_door). Qed.

(** A connected client whose read buffer holds [text] at its beginning. *)
Definition client_with (text : bytes) : mqtt_client mqtt_cb :=
  MQTTClient [] [] [] [] (0, 9, 0) 1024 1024 (text ++ replicate (1024 - length text) 0) 3 true false (start_condata 0)
    app_handlers (Some mqtt_sub_default_callback_h) [] no_ticks.
Definition app_with (text : bytes) (u : uuid_cell) : mqtt := Mqtt (client_with text) true u [] [] 0.
Definition message_of (text : bytes) : message_data :=
  MessageData (0, 0) (Message 1 0 0 (Some 1) (0, Z.of_nat (length text))).

Lemma app_with_ok text u : (length text <=? 1024)%nat = true -> mqtt_ok (app_with text u).
Proof.
  intros Ht%Nat.leb_le. split; [|done]. split; try done. cbn. rewrite length_app, length_replicate. lia.
Qed.

Definition controller (text : bytes) (u : uuid_cell) : system mqtt := System running_board (app_with text u).

Lemma initial_data : data_int initial_props.
Proof. unfold data_int, environment_int, int_range, INT_MIN, INT_MAX. cbn. lia. Qed.

Lemma controller_good text u : (length text <=? 1024)%nat = true -> good (controller text u).
Proof.
  intros Ht. split; [exact running_in_order|]. split; [by apply app_with_ok|].
  change (data_int (b_props running_board)). rewrite running_props. apply initial_data.
Qed.

(** A text with single quotes for double ones. *)
Definition quoted (s : string) : bytes := map (fun c => if c =? 39 then 34 else c) (str s).

Definition fan_text : bytes := quoted "{'commandId':'7','exhaustFan':true}".
Definition door_text : bytes := quoted "{'commandId':'7','exhaustFan':true,'emergencyDoor':true}".
Definition lamp_text : bytes := quoted "{'warningLight':true}".
Definition limit_text : bytes := quoted "{'commandId':'8','temperature':30,'lightLower':900}".
Definition sync_text : bytes := quoted "{'threshold':{'humidity':70},'device':{'fillLight':true,'dht11Status':false}}".
Definition empty_text : bytes := quoted "{'emergencyDoor':true}".

Lemma payload_of text u : payload_text (app_with text u) (message_of text) = c_string (take (length text) text).
Proof.
  unfold payload_text, slice. change (Z.to_nat (msg_payload (md_message (message_of text))).1) with 0%nat.
  change (Z.to_nat (msg_payload (md_message (message_of text))).2) with (Z.to_nat (Z.of_nat (length text))).
  change (readbuf (m_client (app_with text u))) with (text ++ replicate (1024 - length text) 0).
  by rewrite Nat2Z.id, drop_0, take_app_length, firstn_all.
Qed.

(** ** The board *)

Lemma sampling_witness :
  wp (my_light_entry ;;; my_mq2_entry ;;; my_read_temp_entry 1 (Z.lor (Z.shiftl 60 16) 25)) running_board
    (fun _ b' => board_ok b' /\ environment_ok (my_environment (b_props b')) /\
      temp (my_environment (b_props b')) = 25 /\ humi (my_environment (b_props b')) = 60).
Proof.
  eapply wp_mono; [apply (sampling running_board 25 60 running_ok running_light running_smoke); lia|].
  intros go b' (H1 & _ & _ & H2 & _ & H3 & H4 & _). by split_and!.
Defined.

Lemma alarm_sounds_witness :
  wp (beep_change true ;;; timer_interrupts (2 * 3)) running_board (fun _ b' =>
    level (b_gpio b') BEEP_PIN = PIN_HIGH /\ level (b_gpio b') LED0_PIN = PIN_LOW).
Proof.
  eapply wp_mono; [apply (alarm_sounds running_board 3 running_ok)|].
  - rewrite running_props. reflexivity.
  - intros _ b' (_ & _ & H1 & H2). by split.
Defined.

Lemma alarm_silenced_witness :
  wp (beep_change false ;;; timer_interrupts 10) running_board (fun _ b' =>
    level (b_gpio b') BEEP_PIN = PIN_LOW /\ level (b_gpio b') LED0_PIN = PIN_HIGH).
Proof.
  eapply wp_mono; [apply (alarm_silenced running_board 10 running_ok)|].
  intros _ b' (_ & H1 & H2). by split.
Defined.

(** The fan and the door, with an interrupt in the middle of each command. *)
Definition two_commands : list Preemption.command := [(Fan, true); (DoorServo, true)].

Lemma two_outputs : NoDup two_commands.*1.
Proof. apply NoDup_ListNoDup; repeat constructor; cbn; intuition discriminate. Qed.

Lemma interleaved : exists b', rtc Preemption.step (issued two_commands, running_board) (finished two_commands, b').
Proof.
  pose proof (issued_undisturbed two_commands running_board two_outputs running_ok running_door) as H0.
  destruct (undisturbed_call _ _ _ 0 (Fan, true) 0 H0 eq_refl) as (b1 & S1 & H1); [cbn; lia|].
  destruct (undisturbed_call _ _ _ 1 (DoorServo, true) 0 H1 eq_refl) as (b2 & S2 & H2); [cbn; lia|].
  destruct (undisturbed_interrupt _ _ _ timer_interrupt H2 timer_irq) as (b3 & S3 & H3).
  destruct (undisturbed_call _ _ _ 1 (DoorServo, true) 1 H3 eq_refl) as (b4 & S4 & H4); [cbn; lia|].
  destruct (undisturbed_call _ _ _ 0 (Fan, true) 1 H4 eq_refl) as (b5 & S5 & H5); [cbn; lia|].
  destruct (undisturbed_call _ _ _ 1 (DoorServo, true) 2 H5 eq_refl) as (b6 & S6 & _); [cbn; lia|].
  exists b6. do 6 (eapply rtc_l; [eassumption|]). apply rtc_refl.
Qed.

Lemma different_outputs_witness :
  exists b', rtc Preemption.step (issued two_commands, running_board) (finished two_commands, b') /\
    servo_position (b_pwm b') = 90 /\ level (b_gpio b') Relay_PIN = PIN_HIGH /\ Door_State (my_devices (b_props b')) = true.
Proof.
  destruct interleaved as [b' Hs]. exists b'. split; [exact Hs|].
  destruct (different_outputs two_commands running_board _ two_outputs running_ok running_door Hs) as (_ & _ & H).
  destruct (H eq_refl) as (H1 & _ & H2 & H3). cbn [snd] in *.
  rewrite (door_position _ running_ok running_door), running_angle in H2. split; [exact H2|].
  assert (Relay_State (my_devices (b_props b')) = true) as Hr by (apply (H3 Fan true); left).
  pose proof (ok_relay _ _ (ok_pins _ H1)) as Hl. rewrite Hr in Hl. split; [exact Hl|].
  apply (H3 DoorServo true). right. left.
Defined.

Lemma fan_race_witness :
  exists b', rtc Preemption.step (issued [(Fan, true); (Fan, false)], running_board) (finished [(Fan, true); (Fan, false)], b') /\
    Relay_State (my_devices (b_props b')) = true /\ level (b_gpio b') Relay_PIN = PIN_LOW.
Proof. destruct (fan_race true running_board running_ok) as (b' & H1 & H2 & H3 & _). by exists b'. Defined.

Lemma alarm_race_witness :
  exists b', rtc Preemption.step (issued [(Alarm, false); (Alarm, true)], running_board) (finished [(Alarm, false); (Alarm, true)], b') /\
    Beep_State (my_devices (b_props b')) = false.
Proof. destruct (alarm_race running_board running_ok) as (b' & H1 & H2 & _). by exists b'. Defined.

Lemma door_servo_witness :
  wp (my_pwm_angle_change true 90) running_board (fun _ b' => angle (b_app b') = 90 /\
    1500000 * 84 - 26000 < pulse_84ns (b_pwm b') <= 1500000 * 84).
Proof.
  eapply wp_mono; [apply (door_servo true running_board running_ok (door_found _ running_door) (door_timed _ running_door))|].
  intros _ b' (_ & Ha & Hp & _). rewrite running_angle in Ha.
  rewrite Ha in Hp. by split.
Defined.

Lemma door_left_ajar_witness :
  wp (door_commands [true; true; false]) running_board
    (fun _ b' => Door_State (my_devices (b_props b')) = false /\ angle (b_app b') = 90).
Proof. exact (door_left_ajar running_board 2 running_ok running_angle (le_n 2)). Defined.

(** ** The application *)

Lemma reports_read_back_witness :
  wp (Publish_Environment_Data (Environment 25 60 1200 30)) (app_with [] UUID_null) (fun rc m' => rc = RT_EOK /\ exists text,
    cJSON_Parse text = Some (environment_doc (Environment 25 60 1200 30)) /\
    pub_pipe (m_client m') = frame (0, 9, 0) MQTT_SENSOR_PUBTOPIC (text ++ [])).
Proof.
  destruct (reports_read_back (app_with [] UUID_null) (Environment 25 60 1200 30) (my_devices initial_props) 1 51 50
    (app_with_ok [] UUID_null eq_refl)) as (_ & H & _);
    [unfold environment_int, int_range, INT_MIN, INT_MAX; cbn; lia|lia|unfold int_range, INT_MIN, INT_MAX; lia..|].
  eapply wp_mono; [exact H|]. intros rc m' (H1 & _ & text & H2 & H3). split; [exact H1|]. exists text. by split.
Defined.

Lemma control_command_witness :
  let s := controller door_text UUID_null in
  wp (mqtt_dev_control_callback (message_of door_text)) s (fun _ s' => board_ok (sys_board s') /\
    b_props (sys_board s') = on_devices (with_door true) (on_devices (with_relay true) initial_props) /\
    level (b_gpio (sys_board s')) Relay_PIN = PIN_HIGH /\ servo_position (b_pwm (sys_board s')) = 90 /\
    UUID (sys_client s') = UUID_freed /\
    published MQTT_DEVICE_PUBTOPIC (dev_response (UUID_live [55])) (sys_client s) (sys_client s')).
Proof.
  intros s. assert (cJSON_Parse (payload_text (view s) (message_of door_text)) =
    Some (JObject [(str "commandId", JString [55]); (str "exhaustFan", JTrue); (str "emergencyDoor", JTrue)])) as E.
  { change (view s) with (app_with door_text UUID_null). rewrite payload_of. vm_compute. reflexivity. }
  eapply wp_mono; [apply (control_command (message_of door_text) s)|].
  - exact running_in_order.
  - exact (app_with_ok door_text UUID_null eq_refl).
  - vm_compute. split_and!; congruence.
  - rewrite E. exact I.
  - cbv zeta. rewrite E. intros _ s' ((H1 & H1') & H2 & _ & H3 & _ & H4 & H5 & H6).
    change (view s : props) with (b_props running_board) in H2, H3. rewrite running_props in H2, H3.
    change (act_position s) with (servo_position (b_pwm running_board)) in H4.
    rewrite (door_position _ running_ok running_door), running_angle in H4.
    split; [exact H1|]. split; [exact H2|]. split; [|split; [exact H4|by split]].
    exact (proj1 (Z.eqb_eq _ _) H3).
Defined.

(** The lamp is announced and stays dark. *)
Lemma warning_light_dark_witness :
  wp (mqtt_dev_control_callback (message_of lamp_text)) (controller lamp_text UUID_null) (fun _ s' =>
    LED0_State (my_devices (b_props (sys_board s'))) = true /\ level (b_gpio (sys_board s')) LED0_PIN = PIN_HIGH).
Proof.
  apply (warning_light_dark (message_of lamp_text) (controller lamp_text UUID_null) true).
  - exact running_ok.
  - exact running_door.
  - exact (app_with_ok lamp_text UUID_null eq_refl).
  - vm_compute. split_and!; congruence.
  - change (sys_client _) with (app_with lamp_text UUID_null). rewrite payload_of. vm_compute. reflexivity.
  - exact I.
  - change (sys_board _) with running_board. rewrite running_props. reflexivity.
Defined.

Lemma threshold_command_witness :
  let s := controller limit_text UUID_null in
  wp (mqtt_thresholds_callback (message_of limit_text)) s (fun _ s' => board_ok (sys_board s') /\
    my_thresholds (b_props (sys_board s')) = Thresholds 30 60 2000 900 /\
    UUID (sys_client s') = UUID_freed /\
    published MQTT_THRESHOLD_PUBTOPIC (thresholds_response (UUID_live [56])) (sys_client s) (sys_client s')).
Proof.
  intros s. assert (exists d1 d2, cJSON_Parse (payload_text (view s) (message_of limit_text)) =
    Some (JObject [(str "commandId", JString [56]); (str "temperature", JNumber d1); (str "lightLower", JNumber d2)]) /\
    saturate d1 = Some 30 /\ saturate d2 = Some 900) as (d1 & d2 & E & E1 & E2).
  { change (view s) with (app_with limit_text UUID_null). rewrite payload_of. do 2 eexists. split; [vm_compute; reflexivity|].
    split; vm_compute; reflexivity. }
  eapply wp_mono; [apply (threshold_command (message_of limit_text) s)|].
  - exact running_in_order.
  - exact (app_with_ok limit_text UUID_null eq_refl).
  - vm_compute. split_and!; congruence.
  - rewrite E. exact I.
  - cbv zeta. rewrite E. intros _ s' ((H1 & _) & H2 & H3 & H4).
    change (view s : props) with (b_props running_board) in H2. rewrite running_props in H2.
    split; [exact H1|]. split; [|by split]. refine (eq_trans (f_equal my_thresholds H2) _).
    change (Thresholds (default 0 (saturate d1)) 60 2000 (default 0 (saturate d2)) = Thresholds 30 60 2000 900).
    by rewrite E1, E2.
Defined.

Lemma synchronisation_witness :
  let s := controller sync_text UUID_null in
  wp (mqtt_sync_callback (message_of sync_text)) s (fun _ s' => board_ok (sys_board s') /\
    quiet (sys_client s) (sys_client s') /\
    Humi_Limit (my_thresholds (b_props (sys_board s'))) = 70 /\
    my_devices (b_props (sys_board s')) = Devices false false false true false false true).
Proof.
  intros s. assert (exists d, cJSON_Parse (payload_text (view s) (message_of sync_text)) =
    Some (JObject [(str "threshold", JObject [(str "humidity", JNumber d)]);
                   (str "device", JObject [(str "fillLight", JTrue); (str "dht11Status", JFalse)])]) /\
    saturate d = Some 70) as (d & E & E1).
  { change (view s) with (app_with sync_text UUID_null). rewrite payload_of. eexists.
    split; [vm_compute; reflexivity|]. vm_compute. reflexivity. }
  eapply wp_mono; [apply (synchronisation (message_of sync_text) s)|].
  - exact running_in_order.
  - exact (app_with_ok sync_text UUID_null eq_refl).
  - vm_compute. split_and!; congruence.
  - cbv beta. rewrite E. intros _ s' ((H1 & _) & H2 & _ & H3).
    change (view s : props) with (b_props running_board) in H3. rewrite running_props in H3.
    split; [exact H1|]. split; [exact H2|]. split.
    + refine (eq_trans (f_equal (fun p => Humi_Limit (my_thresholds p)) H3) _). change (default 0 (saturate d) = 70). by rewrite E1.
    + exact (f_equal my_devices H3).
Defined.

Lemma stale_identifier_witness :
  mqtt_dev_control_callback (message_of empty_text) (controller empty_text UUID_freed) = Fault UseAfterFree.
Proof.
  apply (stale_identifier (message_of empty_text) (controller empty_text UUID_freed)).
  - exact running_in_order.
  - exact (app_with_ok empty_text UUID_freed eq_refl).
  - vm_compute. split_and!; congruence.
  - reflexivity.
  - change (view (controller empty_text UUID_freed)) with (app_with empty_text UUID_freed). rewrite payload_of.
    vm_compute. reflexivity.
Defined.

(** A client as [mqtt_start] leaves it, with the broker's acceptance on its way. *)
Definition starting : mqtt :=
  Mqtt (MQTTClient [RecvData connack_packet] [] [] [] (0, 9, 0) 1024 1024 (replicate 1024 0) 0 false false
    (start_condata 0) no_handlers (Some mqtt_sub_default_callback_h) [] no_ticks) true UUID_null [] [] 0.

Lemma session_starts_witness :
  wp (thread_start mqtt_online_callback true) starting (fun t m' => t = Continue /\ mqtt_ok m' /\
    messageHandlers (m_client m') = app_handlers /\ length (sent (m_client m')) = 4%nat).
Proof.
  eapply wp_mono; [apply (session_starts 0 starting)|].
  - by split.
  - reflexivity.
  - reflexivity.
  - reflexivity.
  - reflexivity.
  - intros t m' (H1 & H2 & H3 & (p0 & p1 & p2 & p3 & _ & _ & H4) & _).
    split; [exact H1|]. split; [exact H2|]. split; [exact H3|]. by rewrite H4.
Defined.

(** The running client whose connection breaks, with a message waiting in the pipe. *)
Definition breaking : mqtt :=
  Mqtt (MQTTClient [RecvError false; RecvData [1; 2]] [] [] [] (0, 9, 0) 1024 1024 (replicate 1024 0) 3 true false
    (start_condata 0) app_handlers (Some mqtt_sub_default_callback_h) [7] (Environ 90000 70000 [] (Some 5) [5])) true UUID_null [] [] 0.

Lemma session_resumes_witness :
  wp (p <- worker_turn (fun _ _ => ret tt) (ret tt) SockReady ;;
      q <- worker_start (ret tt) mqtt_online_callback (ret tt) MQTT_URI
        (fun host port => if bool_decide (host = str "192.168.170.226" /\ port = str "1883")
          then Connected 6 [RecvData (connack_packet ++ suback_packet 1 ++ suback_packet 2 ++ suback_packet 3)] []
          else Unresolved) ;;
      ret (p, q)) breaking (fun pq m' => pq = (Starting, Serving) /\ mqtt_ok m' /\
    messageHandlers (m_client m') = app_handlers /\ length (sent (m_client m')) = 5%nat /\
    open_socks (env (m_client m')) = [6]).
Proof.
  eapply wp_mono; [apply (session_resumes (fun _ _ => ret tt) 0 5 6 [RecvData [1; 2]] breaking)|].
  - split; [|done]. by split.
  - reflexivity.
  - reflexivity.
  - reflexivity.
  - reflexivity.
  - reflexivity.
  - reflexivity.
  - intros pq m' (H1 & H2 & H3 & (p0 & p1 & p2 & p3 & _ & _ & H4) & _ & _ & H5).
    split; [exact H1|]. split; [exact H2|]. split; [exact H3|]. split; [by rewrite H4|]. by injection H5.
Defined.

(** ** The climate thread *)

(** A package whose state is the list of the samples to come. *)
Definition pop (len : Z) : M (list rt_sensor_data) (Z * list rt_sensor_data) :=
  l <- get ;;
  match l with
  | [] => ret (0, [])
  | x :: l => put l ;;; ret (1, [x])
  end.
Definition accept (cmd arg : Z) : M (list rt_sensor_data) rt_err_t := ret RT_EOK.

(** The running board with the registered sensor; the first sample is 25 degrees at 60%, the
    second one is invalid. *)
Definition climate_samples : list rt_sensor_data :=
  [Sensor_data 0 4 [Z.lor (Z.shiftl 60 16) 25]; Sensor_data 0 4 [-1]].
Definition climate_objs_of (o : object_list) : object_list := (rt_strncpy dht11_name RT_NAME_MAX, 5) :: o.
Definition measuring : climate unit (list rt_sensor_data) :=
  Climate (over (climate_objs_of (b_objs running_board)) running_board)
    (Members [] (Sensor registered (Sensor_info 4 8 [] 8 8 50 0 1000 0) (Sensor_config RT_PIN_NONE 0 0 0 0 0) None 0) [] None [] 0)
    climate_samples.

Lemma find_other name o :
  (rt_strncmp (rt_strncpy dht11_name RT_NAME_MAX) name RT_NAME_MAX =? 0) = false ->
  rt_object_find name (climate_objs_of o) = rt_object_find name o.
Proof. intros E. unfold climate_objs_of. cbn [rt_object_find]. by rewrite E. Qed.
Lemma with_objs_ok (o : object_list) b : board_ok b -> devices_ok o -> board_ok (over o b).
Proof. destruct b. intros [Hp Ht _ Ha] Ho. by split. Qed.
Lemma measuring_ok : board_ok (c_board measuring).
Proof.
  unfold measuring. cbn [c_board]. apply with_objs_ok; [exact running_ok|]. destruct running_ok as [_ _ [H1 H2] _].
  split; rewrite find_other by reflexivity; [exact H1|exact H2].
Qed.

Lemma measuring_found : is_Some (rt_object_find dht11_name (b_objs (c_board measuring))).
Proof.
  unfold measuring. cbn [c_board]. generalize running_board. intros []. exists 5. reflexivity.
Qed.

Lemma pop_serves l : serves pop (fun d => d = []) l l.
Proof. induction l as [|x l IH]; cbn; [done|]. by split. Qed.

Lemma climate_thread_witness :
  wp (read_temp_thread pop accept 5 0x20001234 IQR_HANDALE_KEY0_h true 3) measuring (fun go s' =>
    go = false /\ temp (my_environment (b_props (c_board s'))) = 25 /\ humi (my_environment (b_props (c_board s'))) = 60).
Proof.
  eapply wp_mono; [apply (climate_thread pop accept 5 0x20001234 IQR_HANDALE_KEY0_h true (fun d => d = []))
    with (l := climate_samples) (s := measuring)|].
  - intros l cmd arg d Hd. exact Hd.
  - intros cmd arg d Hd. exact Hd.
  - exact measuring_ok.
  - exact (pop_serves climate_samples).
  - exact measuring_found.
  - by split.
  - unfold climate_samples, int_range, INT_MIN, INT_MAX. repeat (apply Forall_cons; split; [vm_compute; split; discriminate|]). by apply Forall_nil.
  - intros go s' (H1 & _ & H2 & _ & _). split; [exact H1|]. rewrite H2.
    assert (b_props (c_board measuring) = initial_props) as -> by (rewrite <- running_props; unfold measuring; by destruct running_board).
    by vm_compute.
Defined.

(** ** Automatic control *)

(** A controller after a sample. *)
Definition measured_on (b : board) (e : Environment_t) (t : Thresholds_t) (d : Devices_t) : system mqtt :=
  over (Props d e t) (System b (app_with [] UUID_null)).
Definition measured := measured_on running_board.

Lemma measured_on_ok b e t d :
  board_ok b -> door_ok b -> same_outputs (b_props b) (Props d e t) -> data_int (Props d e t) -> good (measured_on b e t d).
Proof.
  intros Hb Hd Ho Hi. split; [|split; [exact (app_with_ok [] UUID_null eq_refl)|exact Hi]].
  by refine (act_data_ok (Props d e t) (System b (app_with [] UUID_null)) (conj Hb Hd) _).
Qed.
Lemma measured_ok e t d :
  same_outputs initial_props (Props d e t) -> data_int (Props d e t) -> good (measured e t d).
Proof. intros Ho Hd. apply measured_on_ok; [exact running_ok|exact running_door|by rewrite running_props|done]. Qed.

Definition calm : Devices_t := my_devices initial_props.

Lemma hot_good : good (measured (Environment 55 40 1500 10) (Thresholds 50 60 2000 1250) calm).
Proof. apply measured_ok; [done|]. unfold data_int, environment_int, int_range, INT_MIN, INT_MAX. cbn. lia. Qed.

Lemma auto_control_turn_witness :
  let s := measured (Environment 55 40 1500 10) (Thresholds 50 60 2000 1250) calm in
  wp my_auto_control_entry s (fun _ s' =>
    my_devices (b_props (sys_board s')) = Devices true false true false true true true /\
    queued [(MQTT_ALARM_PUBTOPIC, alarm_doc ALARM_TEMPERATURE_TOO_HIGH 55 50);
            (MQTT_DEVICE_STATUS_PUBTOPIC, status_doc (Devices true false true false true true true))]
      (sys_client s) (sys_client s')).
Proof.
  intros s. destruct hot_good as (H1 & H2 & H3).
  eapply wp_mono; [exact (auto_control_turn s H1 H2 H3)|]. intros _ s' (_ & _ & Hp & Hq).
  split; [exact (f_equal my_devices Hp)|exact Hq].
Defined.

Lemma auto_control_settles_witness :
  let s := measured (Environment 55 40 1500 10) (Thresholds 50 60 2000 1250) calm in
  wp my_auto_control_entry s (fun _ s1 =>
    wp my_auto_control_entry s1 (fun _ s2 => (view s2 : props) = view s1 /\ quiet (sys_client s1) (sys_client s2))).
Proof.
  intros s. destruct hot_good as (H1 & H2 & H3). refine (auto_control_settles s H1 H2 H3 _). vm_compute. congruence.
Defined.

Lemma alarm_follows_temperature_witness :
  let s := measured (Environment 55 40 1500 10) (Thresholds 50 60 2000 1250) calm in
  wp my_auto_control_entry s (fun _ s' => Beep_State (my_devices (view s')) = true /\ Door_State (my_devices (view s')) = true).
Proof.
  intros s. destruct hot_good as (H1 & H2 & H3). exact (alarm_follows_temperature s H1 H2 H3 eq_refl eq_refl).
Defined.

(** Light limits the wrong way round. *)
Lemma crossed_good : good (measured (Environment 20 40 1000 10) (Thresholds 50 60 800 1250) calm).
Proof. apply measured_ok; [done|]. unfold data_int, environment_int, int_range, INT_MIN, INT_MAX. cbn. lia. Qed.

Lemma crossed_limits_oscillate_witness :
  let s := measured (Environment 20 40 1000 10) (Thresholds 50 60 800 1250) calm in
  wp my_auto_control_entry s (fun _ s' =>
    LED1_State (my_devices (view s')) = true /\ ~ quiet (sys_client s) (sys_client s')).
Proof.
  intros s. destruct crossed_good as (H1 & H2 & H3). refine (crossed_limits_oscillate s H1 H2 H3 eq_refl _).
  split; reflexivity.
Defined.

(** The door opened by a command. *)
Definition opened_board : board := final (my_pwm_angle_change true 90) running_board.

Lemma opened_facts : board_ok opened_board /\ door_ok opened_board /\ b_props opened_board = on_devices (with_door true) initial_props.
Proof.
  unfold opened_board. apply (wp_final _ _ (fun b => board_ok b /\ door_ok b /\ b_props b = on_devices (with_door true) initial_props)).
  eapply wp_mono; [apply (door_command_ok true _ running_ok running_door)|]. cbn beta. intros _ b' (H1 & H2 & H3 & _).
  rewrite running_props in H3. by split_and!.
Qed.
Opaque opened_board.

Definition masked : system mqtt := measured_on opened_board (Environment 90 40 1500 10) (Thresholds 50 60 2000 1250) (with_door true calm).

Lemma masked_good : good masked.
Proof.
  destruct opened_facts as (H1 & H2 & H3). unfold masked. refine (measured_on_ok opened_board _ _ _ H1 H2 _ _); [rewrite H3; by split_and!|].
  unfold data_int, environment_int, int_range, INT_MIN, INT_MAX. cbn. lia.
Qed.

Lemma alarm_masked_witness :
  wp my_auto_control_entry masked (fun _ s' => Beep_State (my_devices (view s')) = false /\ Door_State (my_devices (view s')) = true).
Proof.
  destruct masked_good as (H1 & H2 & H3). refine (alarm_masked masked H1 H2 H3 _). vm_compute. congruence.
Defined.

(** A hot sample, a report, the alarm; a cool one, and the alarm's end. *)
Definition afternoon : list activity :=
  [Measure (Environment 55 40 1500 10); Upload; Control; Measure (Environment 45 40 1500 10); Control].

Lemma afternoon_ints : Forall measured_int afternoon.
Proof.
  assert (forall t, -1000 <= t <= 1000 -> environment_int (Environment t 40 1500 10)) as He
    by (intros t Ht; unfold environment_int, int_range, INT_MIN, INT_MAX; cbn; lia).
  repeat constructor; apply (He 55) || apply (He 45); lia.
Qed.

Lemma controller_channel : channel (sys_client (controller [] UUID_null)).
Proof. by split. Qed.

Lemma reports_reach_server_witness :
  wp (perform_all (pub := served) afternoon) (controller [] UUID_null) (fun _ s' =>
    my_devices (b_props (sys_board s')) = calm /\ pub_pipe (m_client (sys_client s')) = [] /\
    exists packets, sent (m_client (sys_client s')) = packets /\ Forall2 carries
      [(MQTT_SENSOR_PUBTOPIC, environment_doc (Environment 55 40 1500 10));
       (MQTT_ALARM_PUBTOPIC, alarm_doc ALARM_TEMPERATURE_TOO_HIGH 55 50);
       (MQTT_DEVICE_STATUS_PUBTOPIC, status_doc (with_door true (with_beep true calm)));
       (MQTT_ALARM_PUBTOPIC, alarm_doc ALARM_TEMPERATURE_BACK_NORMAL 45 50);
       (MQTT_DEVICE_STATUS_PUBTOPIC, status_doc calm)] packets).
Proof.
  assert (all_reports afternoon (b_props running_board) = all_reports afternoon initial_props) as E
    by (by rewrite running_props).
  destruct (controller_good [] UUID_null eq_refl) as (H1 & _ & H3).
  eapply wp_mono; [apply (reports_reach_server afternoon (controller [] UUID_null) H1 controller_channel H3)|].
  - exact afternoon_ints.
  - intros _ s' (_ & Hp & Hpipe & packets & Hsent & Hall).
    split; [exact (eq_trans (f_equal my_devices Hp) (f_equal (fun r => my_devices r.1) E))|]. split; [exact Hpipe|].
    exists packets. split; [exact Hsent|]. refine (eq_rect _ (fun r => Forall2 carries r.2 packets) Hall _ E).
Defined.

(** ** The whole controller *)

Definition at_boot : system mqtt :=
  System boot_board (Mqtt (MQTTClient [] [] [] [] (0, 9, 0) 0 0 [] 0 false false (start_condata 0) no_handlers None [] no_ticks)
    false UUID_null [] [] 0).

(** A package that registers the thermometer and the hygrometer; the heap refuses one
    thread. *)
Definition register_dht11 (name : list Z) (pin : Z) (cfg : rt_sensor_config) : M (object_list * unit) Z := fun od =>
  Ok (RT_EOK, ((rt_strncpy (str "humi_" ++ name) RT_NAME_MAX, 11) :: (rt_strncpy (str "temp_" ++ name) RT_NAME_MAX, 10) :: od.1, od.2)).

Lemma register_dht11_finds name pin cfg objs d : found objs ->
  wp (register_dht11 name pin cfg) (objs, d) (fun _ od => found od.1).
Proof.
  intros H. unfold wp, register_dht11. cbn [fst snd]. unfold found in *. eapply Forall_impl; [exact H|]. cbn beta.
  intros n Hn. cbn [rt_object_find]. by destruct (rt_strncmp _ n _ =? 0); [|destruct (rt_strncmp _ n _ =? 0)].
Qed.

Lemma main_brings_up_witness :
  wp (main_setup (fun t => match t with my_mq2_th => false | _ => true end) register_dht11 (Sensor_config 7 0 0 0 0 0) 17) (Boot at_boot tt [])
    (fun r s' => r = (0, true) /\ board_ok (sys_board (bt_sys s')) /\
      b_props (sys_board (bt_sys s')) = initial_props /\ servo_on (b_pwm (sys_board (bt_sys s'))) /\
      is_started (sys_client (bt_sys s')) = true /\ running s' = [my_light_th; my_dht_tem]).
Proof.
  eapply wp_mono; [refine (main_brings_up _ register_dht11 _ register_dht11_finds (fun _ => 0xffff) 17 (Boot at_boot tt []) boot_start _); by split|].
  intros r s' (H1 & H2 & _ & H3 & _ & _ & _ & H6 & _ & _ & (H4 & _) & H5 & _). by split_and!.
Defined.

Definition fan_packet : bytes :=
  match MQTTSerialize_publish 1024 0 QOS1 0 5 (c_str MQTT_DEVICE_SUBTOPIC) fan_text with inr p => p | inl _ => [] end.

(** The fan command on the socket. *)
Definition receiving : system mqtt :=
  System running_board (Mqtt (MQTTClient [RecvData fan_packet] [] [] [] (0, 9, 0) 1024 1024 (replicate 1024 0) 3 true false
    (start_condata 0) app_handlers (Some mqtt_sub_default_callback_h) [] no_ticks) true UUID_null [] [] 0).

Lemma control_packet_witness :
  wp (MQTT_cycle (run_cb (S := system mqtt))) receiving (fun rc s' => rc = PAHO_SUCCESS /\
    b_props (sys_board s') = on_devices (with_relay true) initial_props /\
    level (b_gpio (sys_board s')) Relay_PIN = PIN_HIGH /\
    sent (m_client (sys_client s')) = [[64; 2; 0; 5]]).
Proof.
  assert (cJSON_Parse (c_string fan_text) = Some (JObject [(str "commandId", JString [55]); (str "exhaustFan", JTrue)])) as E
    by (vm_compute; reflexivity).
  eapply wp_mono; [apply (control_packet receiving 0 0 5 fan_text fan_packet)|].
  - exact running_ok.
  - exact running_door.
  - by split.
  - reflexivity.
  - reflexivity.
  - reflexivity.
  - lia.
  - lia.
  - lia.
  - apply Nat.ltb_lt. vm_compute. reflexivity.
  - vm_compute. reflexivity.
  - rewrite E. exact I.
  - rewrite E. intros rc s' (H1 & H2 & H3 & _ & puback & text & H4 & _ & H5 & _).
    change (sys_board receiving) with running_board in *. rewrite running_props in *.
    split; [exact H1|]. split; [exact H2|]. split; [exact (out_fan _ _ H3)|]. rewrite H5. by injection H4 as <-.
Defined.

Lemma controller_safe_witness :
  reachable (controller fan_text UUID_null) /\
  outputs running_board (my_devices (b_props running_board)) /\
  exists s', run_event EvControl (controller fan_text UUID_null) = Ok (tt, s') /\ reachable s'.
Proof.
  assert (reachable (controller fan_text UUID_null)) as Hr.
  { apply reach_start. split; [exact running_ok|]. split; [exact running_door|]. split; [exact running_props|]. exact (app_with_ok fan_text UUID_null eq_refl). }
  split; [exact Hr|]. destruct (controller_safe (controller fan_text UUID_null) Hr) as (H1 & _ & _ & H2).
  split; [exact H1|]. exact (H2 EvControl I).
Defined.

(** 55 degrees and 61 % against the limits of 50 and 60, and bright. *)
Lemma room_to_outputs_witness :
  wp (round 55 61) (controller fan_text UUID_null) (fun _ s' =>
    level (b_gpio (sys_board s')) Relay_PIN = PIN_HIGH /\ Door_State (my_devices (b_props (sys_board s'))) = true /\
    90 <= servo_position (b_pwm (sys_board s')) /\
    timer_ok (b_timer (sys_board s')) (hw_dev (b_app (sys_board s'))) true).
Proof.
  assert (reachable (controller fan_text UUID_null)) as Hr.
  { apply reach_start. split; [exact running_ok|]. split; [exact running_door|]. split; [exact running_props|]. exact (app_with_ok fan_text UUID_null eq_refl). }
  assert (b_props (sys_board (controller fan_text UUID_null)) = initial_props) as Ep by exact running_props.
  eapply wp_mono; [apply (room_to_outputs (controller fan_text UUID_null) 55 61 Hr running_light running_smoke); [lia|lia|by rewrite Ep..]|].
  cbv zeta. rewrite Ep. intros [] s' (H1 & _ & H2 & _ & _ & H3 & _ & _ & _ & H4 & _). split; [exact H1|]. split; [exact H4|]. split; [exact H3|exact H2].
Defined.

(** ** The remote control *)

(** A session on the running board; the light file holds 30 samples. *)
Definition samples : list Z := map Z.of_nat (seq 100 30).
Definition remote_running : remote :=
  Remote running_board true true [] [] None (Some (light_text samples)) 0 0.

Lemma remote_running_session : session_at samples 0 running_board [] remote_running.
Proof. by split. Qed.
Lemma samples_range : Forall light_range samples.
Proof. apply Forall_fmap, Forall_seq. intros i Hi. unfold light_range. cbn. lia. Qed.
Lemma running_pins : hw_pin_ops (b_gpio running_board) = true.
Proof. apply running_ok. Qed.

Lemma remote_session_witness :
  wp (command_loop (map (fun c => Some (command_text c))
        [Limit true 50; Lamp true true; Load false; Load false; Rewind false] ++ [Some (str "quit")])) remote_running
    (fun _ s' => sock_open s' = false /\ recv_data s' = false /\ length (r_sent s') = 31%nat).
Proof.
  eapply wp_mono; [apply (remote_session samples 0 running_board [] [Limit true 50; Lamp true true; Load false; Load false; Rewind false]
    remote_running remote_running_session samples_range running_pins)|].
  - repeat constructor; cbn; lia.
  - cbn beta. intros _ s' (H1 & H2 & _ & H4). split; [exact H1|]. split; [exact H2|]. rewrite H4. vm_compute. reflexivity.
Defined.

Lemma lamp_command_agrees_witness :
  wp (command_turn (Some (command_text (Lamp true true)))) remote_running (fun _ s' => ~ board_ok (r_board s')).
Proof.
  eapply wp_mono; [apply (lamp_command_agrees true true samples 0 running_board [] remote_running remote_running_session
    samples_range running_ok)|].
  cbn beta. intros _ s' [_ H2] Hb. apply H2 in Hb. rewrite running_props in Hb. discriminate Hb.
Defined.

Lemma light_batches_witness :
  wp (command_loop (replicate 2 (Some (command_text (Load false))))) remote_running
    (fun _ s' => In (light_msg 124) (r_sent s') /\ ~ In (light_msg 125) (r_sent s') /\ In (light_msg 126) (r_sent s')).
Proof.
  eapply wp_mono; [apply (light_batches 2 samples running_board [] remote_running remote_running_session samples_range running_pins)|].
  cbn beta. intros _ s' [_ _ -> _ _]. vm_compute. split_and!; [auto 50| |auto 50].
  intros H. repeat (destruct H as [H|H]; [discriminate H|]). exact H.
Defined.
